(* ===== verification/_CoqProject ===== *)
-Q . S2P
Prelude.v
Text.v
Base64.v
Json.v
JsonText.v
TimeText.v
JsonRoundtrip.v
Http.v
Url.v
Duration.v
Domain.v
Stores.v
Uuid.v
Requests.v
Pagination.v
PaginationSafety.v
Vault.v
World.v
Outcomes.v
ShardTx.v
Guards.v
ShardOrder.v
ExecutorStore.v
Idempotency.v
AuthTypes.v
Scenario.v
ExecutorSafety.v
ApplyBatchSpec.v
ExecutorSystem.v
ExpirySpec.v
CardStore.v
CardService.v
VaultTransport.v
CardSafety.v
ControlStore.v
Password.v
AuthStore.v
ControlOrder.v
AuthService.v
AuthSafety.v
ExecutorService.v
ExecutorServiceSafety.v
ExecutorRefinement.v
BatchStore.v
BatchService.v
BatchSafety.v
Authorization.v
AuthorizationSafety.v
AuthorizationHttp.v
CatalogStore.v
CatalogService.v
BankService.v
StaffService.v
ServiceErrors.v
ListingSafety.v
BankSafety.v
BankResume.v
CatalogSafety.v
AccessToken.v
LoginAdmission.v
Cookies.v
ResourceHandlers.v
AuthHandlers.v
Server.v
ApiOrder.v
ApiSafety.v
Api.v
Routes.v
Documented.v
Statuses.v
Schemas.v
LocalPki.v
ServerOrder.v
Process.v
SessionHttp.v
Configuration.v
Startup.v
ExecutorConfig.v
Lifetime.v
StaffSafety.v
