(* ===== verification/Prelude.v ===== *)
(** * Card Issuer API: verification development

    The program under [src/] is a Go system that issues and manages payment
    cards for several banks.  An HTTP API ([cmd/api], [internal/server])
    authenticates staff users ([internal/auth]), finds the shard of a bank
    ([internal/tenant], [internal/repository/routing]) and runs the workflows of
    the services [internal/card], [batch], [catalog], [bank] and [staff]; a
    separate mTLS process verifies card credentials for banks
    ([internal/authorizationhttp], [internal/authorization]); executors
    ([internal/executor]) apply batches and expire cards in the background; a
    development vault ([internal/vault]) holds card credentials behind its own
    HTTP transport; and a tool makes the local certificates ([cmd/localpki]).
    State lives in two PostgreSQL databases, the control database (users,
    sessions, routes) and the shard (cards and everything of a bank), behind the
    stores of [internal/repository], and in the vault.

    ** The model

    A definition has the name of its Go function (with the package's name before
    it where two packages use one name) and its calls, guards and early returns in
    their order.

    - Values.  [Prelude]: Go errors, strings, record update.  [Text], [Base64],
      [Uuid]: runes, encodings, identifiers.  [Json], [JsonText], [TimeText],
      [JsonRoundtrip]: JSON values, what is written, what is read from bytes, and
      that the second is the inverse of the first; RFC 3339 times.  [Http], [Url],
      [Duration], [Cookies]: requests and responses, URLs, durations (with the
      float64 arithmetic of [time.ParseDuration]), cookies on the wire.
      [Domain], [Stores], [AuthTypes]: the structs of [internal/domain] and
      [internal/auth/types.go], the tables of [database/migrations] as records of
      finite maps.
    - Effects.  [World] is a state and error monad over the two databases (the
      committed one and the working copy of the open transaction), the vault, the
      clock, the random bytes and a stream of events that says for each database
      or vault call how long it takes, whether it fails and, for a commit or a
      vault call that fails, whether it took effect all the same.  Theorems
      quantify over the stream, so a fault may come at any call.  [Outcomes]:
      what a computation returns and the errors it ends with.  [Scenario]: the
      bank the witnesses evaluate on.
    - Stores.  [ShardTx], [Idempotency]: the tenant transaction, the idempotency
      records of [repository/shard/transaction.go] and the keyed fingerprints.
      [ExecutorStore], [CardStore], [BatchStore], [CatalogStore]: the statements
      of the shard stores, with the triggers as guards ([Guards]).
      [ControlStore] (with the bank routes and [internal/tenant]), [AuthStore]:
      those of the control database.  [ShardOrder] and [ControlOrder] are the
      orders along which every statement moves a database.
    - Services.  [CardService], [BatchService], [CatalogService], [BankService],
      [StaffService], [Authorization], [AuthService], [AccessToken] (validation
      from the text of a token), [Password], [LoginAdmission].  [Vault] is the
      in-memory vault and the class [CredentialVault] with its laws
      ([VaultLaws]), which the services' theorems rest on; [VaultTransport] is the
      client and the handler of the development transport, from bytes to bytes.
    - HTTP.  [Requests], [Pagination], [ResourceHandlers], [AuthHandlers],
      [Server]: decoding of bodies, pages and signed cursors, the handlers over
      classes of services, the multiplexer with the probes.  [Api] and [Process]
      put the services behind the handlers as [cmd/api/main.go] does.
      [AuthorizationHttp]: the mTLS boundary.
    - Background work.  [ExecutorService]: the loop of an executor and its workers
      as programs of actions, interleaved by the step relation [sys_step] with the
      ticker, the timer of the drain, the context and the rest of the world;
      [ExecutorSystem]: the calls of any number of executors and of the API as
      steps on the databases; [ExecutorRefinement]: the executor without slots and
      goroutines, banks and tasks at their stages ([ex_step]).
    - Processes.  [Configuration], [Startup], [ExecutorConfig]: the settings, the
      steps of each start up to its server, the health checks; [Lifetime]: how the
      goroutines of each process stop, as step relations; [LocalPki]: the local
      certificates, over a directory whose calls may fail or kill the process.

    ** The theorems

    - Background work ([ExecutorSafety], [ApplyBatchSpec], [ExecutorSystem],
      [ExpirySpec], [ExecutorServiceSafety], [ExecutorRefinement]): applying a
      batch and expiring a card are atomic steps with an exact specification; a
      batch is settled at most once and a superseded claim can do nothing, in any
      interleaving; the loop and the workers refine the abstract executor, whose
      calls are a run of that system, apply only what is still authorized, never
      leak a slot, and once told to stop and in the drain end after a bounded
      number of steps.
    - Cards ([CardSafety], [BatchSafety], [AuthorizationSafety],
      [Domain.Lifecycle], [VaultTransport]): what a successful issuance, command,
      batch request or verification stores; that a failed one stores nothing
      unless a commit's reply was lost, and leaves no usable credential unless the
      vault failed too; that credentials reach nothing but the response; what a repeated request gets; that the transport of the vault is
      transparent.
    - Sessions ([AuthSafety], [AccessToken], [Password], [LoginAdmission],
      [SessionHttp]): a refresh token is exchanged once, over HTTP too, and its
      reuse ends the session; an accepted access token was issued; what login,
      logout and password change do and answer; hashing round trips; the bound on
      login attempts, by how far the calls are out of order.
    - Directory ([BankSafety], [BankResume], [CatalogSafety], [StaffSafety]): a
      provisioning makes no bank routable before its shard is ready and a failed
      one is completed by repeating it, unless another bank has the reference;
      catalog and staff commands make exactly
      the change they say.
    - The API ([ApiOrder], [ApiSafety], [ServerOrder], [Routes], [Documented],
      [ServiceErrors], [Statuses], [Schemas]): a request changes something only
      with an accepted token whose claims allow it, in the one bank of its path;
      every documented endpoint but one runs its operation; the statuses and the
      types of the bodies are the documented ones, with a list of exceptions, and
      bodies of the documented request types are decoded.
      [AuthorizationHttp]: the same confinement for the mTLS boundary.
    - Pages ([PaginationSafety], [ListingSafety]): a cursor is read back for its
      own collection alone; following the cursors of any collection but the
      directory of banks ends, and delivers it in order, nothing twice and nothing
      left out.
    - Processes: only accepted settings start a process and none that reaches
      credentials starts in production ([Startup]); the URLs of settings with an
      ordinary host are read back ([Configuration]); an executor's settings are workable
      ([ExecutorConfig]); a process that is told to stop stops ([Lifetime]);
      certificates of two sets never mix and an empty directory is completed
      ([LocalPki]).

    ** Behaviour that is not meant

    Proved of the code as it is: an expiry item that blocks the queue of its bank
    ([ClaimExpiryItem_stuck]); a batch that activates a replacement and leaves the
    replaced card open ([ApplyBatch_leaves_predecessor]); a change of status that
    makes a bank without an entity routable
    ([PatchBank_activates_unprovisioned]); a listing of banks whose order is not
    that of its cursors ([listing_out_of_order_skips]); a malformed batch request
    answered 200 ([malformed_batch_unanswered]); the documented path of the expiry
    retry ([documented_expiry_retry_unreachable]); statuses that are not
    documented ([undocumented_400], [undocumented_422]); a logout that keeps the
    cookie ([failed_logout]); text after a verification request that is accepted
    ([trailing_text]); fingerprints in capitals ([capital_fingerprint_unused]); a
    port with a sign ([signed_port_unread]) and hosts ([unread_hosts]) that no URL
    may have; a forced query ([forced_query]); a reference of another bank that
    reserves a route for good ([taken_reference_stuck]); a card that is issued
    and its credential revoked when the reply of the commit is lost
    ([lost_reply_leaves_card]); more than two limits of logins in a minute when
    calls wait for the mutex ([two_limits_exceeded]); an exit before the requests have ended ([authorization_exits_early]); accepted
    certificates replaced after one failed read ([failed_read_renews]) and refused
    once their authorities have expired ([expired_refused]).

    ** Bounds and fuel

    Integers are [Z], with the wrap-around or the saturation of Go written out
    where width can matter (durations, the backoff, decimal numbers); times are
    nanoseconds since the epoch.  The fuel of a parser is the length of its input,
    of which every step takes a byte ([items], [media_params], [fields_with],
    [runes_with]; [duration_groups_fuel] proves it for durations), and the nesting
    of JSON is the 10000 of its scanner.  The bounds on bodies, cookies, tables and
    pages are those of the code.  Mapping to lower case is that of ASCII.  The
    executor's loop has no bound ([idle_loop_goes_on]): a tick starts a cycle, of at
    most 4 + 13 n actions over n routes, and the drain takes at most six actions
    of the workers for each slot ([executor_stops]).

    ** Parameters

    Code that is not under [src/], or that no theorem needs to look into, is a
    parameter: HMAC-SHA-256, SHA-256 and its hexadecimal text, Ed25519, Argon2,
    the classes of the package [unicode], the canonical form of an IP address, a
    URL's host with brackets, the value of a JSON number that is not an integer,
    the Swagger handler, the response of a redirect, the exchange of a request
    over the network, opening pools, listeners and files, the encodings of X.509,
    PKCS 8 and PEM.  Where a theorem needs a law of one of them, it says so.

    ** Not modelled

    - The inside of [net/http] and of TLS, the timeouts of servers and clients,
      the connection pools, and the logs.
    - Row, advisory and SKIP LOCKED locks as blocking: transactions are serial,
      and the rows other transactions hold are a set that claims skip.
    - Constraints other than the keys, triggers and CHECKs the definitions name:
      a violation of another is one of the faults a statement may meet.  Row level
      security is the bank argument of every statement.  The rounding of times to
      microseconds in the database.  A stored JSON document is its value, not the
      text it came as.
    - Of the OpenAPI annotations the formats and enumerations of members and the
      texts; the tests and the documents. *)

From stdpp Require Export base list strings gmap sorting.
From Stdlib Require Export ZArith Lia.

#[global] Open Scope Z_scope.

(** ** Record update

    [r <| f := v |>] and [r <| f ::= g |>] update one field of a record whose
    eta expansion is declared as a [Settable] instance. *)

Class Settable (R : Type) := record_eta : R -> R.
Class Setter {R T : Type} (proj : R -> T) := set_field : (T -> T) -> R -> R.

Ltac derive_setter R T proj :=
  let f := fresh "f" in
  let r := fresh "r" in
  refine (fun (f : T -> T) (r : R) => _);
  let inst := constr:(_ : Settable R) in
  let d := eval hnf in inst in
  let e := eval cbv beta in (d r) in
  match eval pattern (proj r) in e with
  | ?g _ => let b := eval cbv beta in (g (f (proj r))) in exact b
  end.

#[global] Hint Extern 1 (@Setter ?R ?T ?proj) => derive_setter R T proj : typeclass_instances.

Declare Scope record_scope.
Notation "r <| f ::= g |>" := (set_field (proj := f) g r)
  (at level 1, f at level 200, left associativity) : record_scope.
Notation "r <| f := v |>" := (set_field (proj := f) (fun _ => v) r)
  (at level 1, f at level 200, left associativity) : record_scope.
#[global] Open Scope record_scope.

(** ** Go errors

    Sentinel errors of the packages [domain], [executor], [auth] and of pgx,
    the database errors a statement can raise, errors made by [errors.New],
    the [apiError]s that carry an HTTP problem, and [%w] wrapping. *)

(** What the PostgreSQL driver reports: an SQLSTATE, a network failure with its
    [Timeout] and [Temporary] answers, or anything else. *)
Inductive db_error :=
  | PgError (code : string)
  | NetError (timeout temporary : bool)
  | OtherDbError.

Inductive error :=
  | ErrNotFound
  | ErrIdempotencyConflict
  | ErrBatchNotCancellable
  | ErrBatchNotRetryable
  | ErrRetryable
  | ErrStale
  | ErrInvalidCredentials
  | ErrInvalidRefresh
  | ErrInvalidAccess
  | ErrInvalidPassword
  | ErrPasswordPolicy
  | ErrAuthNotFound
  | ErrNoRows
  | ErrDb (e : db_error)
  | ErrMsg (msg : string)
  | ErrProblem (status : Z) (code detail : string)
  | ErrWrap (msg : string) (cause : error).

#[export] Instance db_error_eq_dec : EqDecision db_error.
Proof. solve_decision. Defined.
#[export] Instance error_eq_dec : EqDecision error.
Proof. solve_decision. Defined.

(** The innermost error of a chain of [fmt.Errorf("...: %w", err)]. *)
Fixpoint error_cause (e : error) : error :=
  match e with
  | ErrWrap _ c => error_cause c
  | _ => e
  end.

(** [errors.Is] against a sentinel. *)
Definition errors_is (e target : error) : bool :=
  bool_decide (error_cause e = target).

Definition result (A : Type) : Type := (error + A)%type.

(** ** Go strings

    A Go string is its bytes. Case mapping is the ASCII part of
    [strings.ToLower]; [strings.TrimSpace] removes the UTF-8 encodings of the
    Unicode white-space characters. *)

(** String comparison, as [==] and [!=] read in the source. *)
Declare Scope go_scope.
Notation "s == t" := (String.eqb s t) (at level 70, no associativity) : go_scope.
Notation "s != t" := (negb (String.eqb s t)) (at level 70, no associativity) : go_scope.
#[global] Open Scope go_scope.
#[global] Arguments String.eqb !_ !_ / : simpl nomatch.

Definition lower_char (c : Ascii.ascii) : Ascii.ascii :=
  let n := Ascii.N_of_ascii c in
  if (65 <=? n)%N && (n <=? 90)%N then Ascii.ascii_of_N (n + 32) else c.

Fixpoint to_lower (s : string) : string :=
  match s with
  | EmptyString => EmptyString
  | String c s' => String (lower_char c) (to_lower s')
  end.

Definition bytes_of (s : string) : list N := Ascii.N_of_ascii <$> String.list_ascii_of_string s.
Definition of_bytes (l : list N) : string := String.string_of_list_ascii (Ascii.ascii_of_N <$> l).

(** The number of leading bytes that encode one white-space character (0 when
    there is none). *)
Definition space_prefix (l : list N) : nat :=
  match l with
  | a :: l1 =>
      if (9 <=? a)%N && (a <=? 13)%N || (a =? 32)%N then 1%nat else
      match l1 with
      | b :: l2 =>
          if (a =? 194)%N && ((b =? 133)%N || (b =? 160)%N) then 2%nat else
          match l2 with
          | c :: _ =>
              if (a =? 225)%N && (b =? 154)%N && (c =? 128)%N then 3%nat
              else if (a =? 226)%N && (b =? 128)%N &&
                      ((128 <=? c)%N && (c <=? 138)%N || (c =? 168)%N || (c =? 169)%N || (c =? 175)%N)
                   then 3%nat
              else if (a =? 226)%N && (b =? 129)%N && (c =? 159)%N then 3%nat
              else if (a =? 227)%N && (b =? 128)%N && (c =? 128)%N then 3%nat
              else 0%nat
          | [] => 0%nat
          end
      | [] => 0%nat
      end
  | [] => 0%nat
  end.

(** The same at the end of a string, given in reverse. *)
Definition space_suffix_rev (l : list N) : nat :=
  match l with
  | a :: b :: c :: _ =>
      if decide (space_prefix [a] = 1%nat) then 1%nat
      else if decide (space_prefix [b; a] = 2%nat) then 2%nat
      else if decide (space_prefix [c; b; a] = 3%nat) then 3%nat else 0%nat
  | [a; b] =>
      if decide (space_prefix [a] = 1%nat) then 1%nat
      else if decide (space_prefix [b; a] = 2%nat) then 2%nat else 0%nat
  | [a] => space_prefix [a]
  | [] => 0%nat
  end.

(** Drop white space while there is some; [fuel] is the length. *)
Fixpoint trim_with (width : list N -> nat) (fuel : nat) (l : list N) : list N :=
  match fuel with
  | O => l
  | S fuel' =>
      match width l with
      | O => l
      | k => trim_with width fuel' (drop k l)
      end
  end.

Definition trim_space (s : string) : string :=
  let l := bytes_of s in
  let l1 := trim_with space_prefix (length l) l in
  of_bytes (rev (trim_with space_suffix_rev (length l1) (rev l1))).

(** [sort.Strings], and SQL's [ORDER BY] on canonical uuid text. *)
Definition sort_strings (l : list string) : list string := merge_sort String.le l.

(** ** Durations and machine integers *)
Definition second : Z := 1000000000.
Definition minute : Z := 60 * second.
Definition hour : Z := 60 * minute.
Definition day : Z := 24 * hour.

Definition max_int64 : Z := 9223372036854775807.
(** Two's complement wrap-around of an int64 result. *)
Definition wrap64 (z : Z) : Z := (z + 9223372036854775808) mod 18446744073709551616 - 9223372036854775808.

Lemma wrap64_id (z : Z) : - max_int64 - 1 <= z <= max_int64 -> wrap64 z = z.
Proof. unfold wrap64, max_int64. intros. rewrite Z.mod_small; lia. Qed.

(** [nullable] of the repositories: the empty string is SQL's NULL. *)
Definition nullable (value : string) : option string :=
  if bool_decide (value = ""%string) then None else Some value.
