(* ===== verification/Text.v ===== *)
(** * Text: bytes, runes and the pieces of a string

    What the program uses of [strings] and [unicode/utf8]: a string is its
    bytes, [utf8.DecodeRune], [strings.Split] and [strings.Cut] on one
    character. *)

From S2P Require Import Prelude.
Open Scope string_scope.
Open Scope list_scope.
Open Scope Z_scope.

(** ** Runes *)

Definition continuation (lo hi b : N) : bool := (lo <=? b)%N && (b <=? hi)%N.
Definition rune_error : N := 65533.

(** The first rune of a nonempty string and its width: an invalid byte is one
    replacement character. *)
Definition decode_rune (l : list N) : N * nat :=
  match l with
  | [] => (rune_error, 1%nat)
  | a :: rest =>
      if (a <? 128)%N then (a, 1%nat)
      else match rest with
      | b :: rest =>
          if continuation 194 223 a && continuation 128 191 b then (N.lor (N.shiftl (N.land a 31) 6) (N.land b 63), 2%nat)
          else match rest with
          | c :: rest =>
              let lo := if (a =? 224)%N then 160%N else 128%N in
              let hi := if (a =? 237)%N then 159%N else 191%N in
              if continuation 224 239 a && continuation lo hi b && continuation 128 191 c
              then (N.lor (N.shiftl (N.land a 15) 12) (N.lor (N.shiftl (N.land b 63) 6) (N.land c 63)), 3%nat)
              else match rest with
              | d :: _ =>
                  let lo := if (a =? 240)%N then 144%N else 128%N in
                  let hi := if (a =? 244)%N then 143%N else 191%N in
                  if continuation 240 244 a && continuation lo hi b && continuation 128 191 c && continuation 128 191 d
                  then (N.lor (N.shiftl (N.land a 7) 18) (N.lor (N.shiftl (N.land b 63) 12)
                          (N.lor (N.shiftl (N.land c 63) 6) (N.land d 63))), 4%nat)
                  else (rune_error, 1%nat)
              | [] => (rune_error, 1%nat)
              end
          | [] => (rune_error, 1%nat)
          end
      | [] => (rune_error, 1%nat)
      end
  end.

(** [[]rune(value)]; the length is fuel enough, a rune takes at least a byte. *)
Fixpoint runes_with (fuel : nat) (l : list N) : list N :=
  match fuel, l with
  | _, [] | O, _ => []
  | S fuel', _ => let (r, width) := decode_rune l in r :: runes_with fuel' (drop width l)
  end.
Definition runes (value : string) : list N := runes_with (String.length value) (bytes_of value).
Definition utf8RuneCount (value : string) : nat := length (runes value).

(** ** Splitting *)

(** [strings.Split] on one character. *)
Fixpoint split_chars (sep : Ascii.ascii) (l : list Ascii.ascii) : list (list Ascii.ascii) :=
  match l with
  | [] => [[]]
  | c :: rest =>
      match split_chars sep rest with
      | first :: more => if Ascii.eqb c sep then [] :: first :: more else (c :: first) :: more
      | [] => [[]]
      end
  end.
Definition split (sep : Ascii.ascii) (s : string) : list string :=
  List.map String.string_of_list_ascii (split_chars sep (String.list_ascii_of_string s)).

(** [strings.Cut] at the first separator. *)
Fixpoint cut_chars (sep : Ascii.ascii) (l : list Ascii.ascii) : option (list Ascii.ascii * list Ascii.ascii) :=
  match l with
  | [] => None
  | c :: rest =>
      if Ascii.eqb c sep then Some ([], rest)
      else match cut_chars sep rest with Some (before, after) => Some (c :: before, after) | None => None end
  end.
Definition cut (sep : Ascii.ascii) (s : string) : option (string * string) :=
  (fun p => (String.string_of_list_ascii p.1, String.string_of_list_ascii p.2)) <$> cut_chars sep (String.list_ascii_of_string s).

Definition chr (n : N) : Ascii.ascii := Ascii.ascii_of_N n.
(** ** Lemmas on bytes *)

Lemma bytes_of_bound s : Forall (fun b => (b < 256)%N) (bytes_of s).
Proof. unfold bytes_of. apply Forall_fmap, Forall_true. intros a. apply Ascii.N_ascii_bounded. Qed.
Lemma of_bytes_of s : of_bytes (bytes_of s) = s.
Proof.
  unfold of_bytes, bytes_of. rewrite <- list_fmap_compose. rewrite (list_fmap_ext _ id).
  - by rewrite list_fmap_id, String.string_of_list_ascii_of_string.
  - intros i a _. cbn. apply Ascii.ascii_N_embedding.
Qed.

Lemma string_app_list a b : String.list_ascii_of_string (a +:+ b) = String.list_ascii_of_string a ++ String.list_ascii_of_string b.
Proof. induction a as [|c a IH]; [done|]. simpl. f_equal. exact IH. Qed.

Lemma length_of_ascii l : String.length (String.string_of_list_ascii l) = length l.
Proof. induction l as [|c l IH]; cbn; [done|]. by rewrite IH. Qed.

Lemma length_append a b : String.length (a +:+ b) = (String.length a + String.length b)%nat.
Proof. induction a as [|c a IH]; [done|]. simpl. f_equal. exact IH. Qed.

Lemma append_assoc (a b c : string) : (a +:+ b) +:+ c = a +:+ b +:+ c.
Proof. induction a as [|x a IH]; [done|]. exact (f_equal (String x) IH). Qed.

Lemma bytes_of_app a b : bytes_of (a +:+ b) = bytes_of a ++ bytes_of b.
Proof. unfold bytes_of. by rewrite string_app_list, fmap_app. Qed.
Lemma bytes_of_of l : Forall (fun b => (b < 256)%N) l -> bytes_of (of_bytes l) = l.
Proof.
  intros H. unfold bytes_of, of_bytes. rewrite String.list_ascii_of_string_of_list_ascii, <- list_fmap_compose.
  induction H as [|b l Hb _ IH]; [done|]. rewrite fmap_cons, IH. cbn. by rewrite Ascii.N_ascii_embedding.
Qed.
Lemma length_bytes s : length (bytes_of s) = String.length s.
Proof. unfold bytes_of. rewrite length_fmap. induction s as [|c s IH]; [done|]. cbn. by rewrite IH. Qed.

(** ** Lemmas on splitting *)

Lemma split_chars_cons sep c l : split_chars sep l <> [] /\
  split_chars sep (c :: l) = (if Ascii.eqb c sep then [] :: split_chars sep l
                              else match split_chars sep l with f :: m => (c :: f) :: m | [] => [[]] end).
Proof.
  assert (Hne : forall l, split_chars sep l <> []).
  { intros l'. destruct l' as [|x l']; cbn; [done|]. destruct (split_chars sep l'); [done|]. by destruct (Ascii.eqb x sep). }
  split; [apply Hne|]. cbn [split_chars]. destruct (split_chars sep l) eqn:E; [by apply Hne in E|].
  by destruct (Ascii.eqb c sep).
Qed.
Lemma split_chars_none sep l : Forall (fun c => Ascii.eqb c sep = false) l -> split_chars sep l = [l].
Proof.
  induction 1 as [|c l Hc _ IH]; [done|]. destruct (split_chars_cons sep c l) as [_ ->]. by rewrite Hc, IH.
Qed.
Lemma split_chars_app sep l rest : Forall (fun c => Ascii.eqb c sep = false) l ->
  split_chars sep (l ++ sep :: rest) = l :: split_chars sep rest.
Proof.
  induction 1 as [|c l Hc _ IH]; cbn [app].
  - destruct (split_chars_cons sep sep rest) as [_ ->]. by rewrite Ascii.eqb_refl.
  - destruct (split_chars_cons sep c (l ++ sep :: rest)) as [_ ->]. by rewrite Hc, IH.
Qed.

(** Without the separator, and at the first one. *)
Definition free_of (sep : Ascii.ascii) (s : string) : Prop := Forall (fun c => Ascii.eqb c sep = false) (String.list_ascii_of_string s).
Lemma split_free sep s : free_of sep s -> split sep s = [s].
Proof. intros H. unfold split. rewrite split_chars_none by done. cbn. by rewrite String.string_of_list_ascii_of_string. Qed.
Lemma split_app sep a b : free_of sep a -> split sep (a +:+ String sep b) = a :: split sep b.
Proof.
  intros Ha. unfold split. rewrite !string_app_list. cbn [String.list_ascii_of_string].
  rewrite split_chars_app by done. cbn [List.map]. by rewrite String.string_of_list_ascii_of_string.
Qed.
(** The parts of a split are without it. *)
Lemma split_parts sep s : Forall (free_of sep) (split sep s).
Proof.
  unfold split, free_of. generalize (String.list_ascii_of_string s). intros l. apply Forall_map.
  induction l as [|c l IH]; [by repeat constructor; rewrite String.list_ascii_of_string_of_list_ascii|].
  destruct (split_chars_cons sep c l) as [_ ->]. destruct (Ascii.eqb c sep) eqn:E; [by constructor; [constructor|]|].
  destruct (split_chars sep l) as [|f m]; [by repeat constructor; rewrite String.list_ascii_of_string_of_list_ascii|].
  apply Forall_cons in IH as [Hf Hm]. constructor; [|done]. cbn. constructor; done.
Qed.

(** ** UTF-8

    [utf8.AppendRune], and the bytes of a string with every invalid byte made
    the replacement character, as [encoding/json] reads a string. *)

Definition encode_rune (r : N) : list N :=
  if (r <? 128)%N then [r]
  else if (r <? 2048)%N then [N.lor 192 (N.shiftr r 6); N.lor 128 (N.land r 63)]
  else if (r <? 65536)%N then
    [N.lor 224 (N.shiftr r 12); N.lor 128 (N.land (N.shiftr r 6) 63); N.lor 128 (N.land r 63)]
  else [N.lor 240 (N.shiftr r 18); N.lor 128 (N.land (N.shiftr r 12) 63); N.lor 128 (N.land (N.shiftr r 6) 63);
        N.lor 128 (N.land r 63)].

Definition to_valid (l : list N) : list N := List.concat (List.map encode_rune (runes_with (length l) l)).
(** [utf8.ValidString]. *)
Definition utf8_valid (s : string) : bool := bool_decide (to_valid (bytes_of s) = bytes_of s).

Definition ascii_only (s : string) : bool := forallb (fun b => (b <? 128)%N) (bytes_of s).

Lemma to_valid_ascii l : Forall (fun b => (b < 128)%N) l -> to_valid l = l.
Proof.
  unfold to_valid. induction 1 as [|b l Hb _ IH]; [done|]. apply N.ltb_lt in Hb.
  assert (Hr : encode_rune b = [b]) by (unfold encode_rune; by rewrite Hb).
  cbn [length runes_with decode_rune]. rewrite Hb. cbn [drop List.map List.concat]. rewrite Hr. cbn [app]. f_equal. exact IH.
Qed.
Lemma ascii_utf8 s : ascii_only s = true -> utf8_valid s = true.
Proof.
  unfold ascii_only, utf8_valid. intros H. apply bool_decide_eq_true, to_valid_ascii, Forall_forall.
  rewrite forallb_forall in H. intros b Hb. apply N.ltb_lt, H. by apply list_elem_of_In.
Qed.

Example utf8_accent : utf8_valid (of_bytes [67; 195; 169]%N) = true /\ utf8_valid (of_bytes [195; 40]%N) = false.
Proof. by vm_compute. Qed.
Example to_valid_replaces : to_valid [65; 226; 130; 66]%N = [65; 239; 191; 189; 239; 191; 189; 66]%N.
Proof. by vm_compute. Qed.
