(* ===== verification/Base64.v ===== *)
(** * Base64: the encodings of [encoding/base64] the program uses

    [RawStdEncoding] and [StdEncoding] for password hashes, [RawURLEncoding] for
    refresh tokens, access tokens and page cursors.  A string is its bytes. *)

From S2P Require Import Prelude Text.
Open Scope string_scope.
Open Scope list_scope.
Open Scope N_scope.

(** An alphabet: its 64 characters and their values. *)
Record alphabet := Alphabet { digit : N -> Ascii.ascii; value : Ascii.ascii -> option N }.

Definition char_in (lo hi c : N) : bool := (lo <=? c) && (c <=? hi).

(** The alphabets differ in the last two characters. *)
Definition digit_with (c62 c63 n : N) : Ascii.ascii :=
  Ascii.ascii_of_N (if n <? 26 then 65 + n else if n <? 52 then 71 + n else if n <? 62 then n - 4
                    else if n =? 62 then c62 else c63).
Definition value_with (c62 c63 : N) (a : Ascii.ascii) : option N :=
  let c := Ascii.N_of_ascii a in
  if char_in 65 90 c then Some (c - 65)
  else if char_in 97 122 c then Some (c - 71)
  else if char_in 48 57 c then Some (c + 4)
  else if c =? c62 then Some 62 else if c =? c63 then Some 63 else None.

Definition StdAlphabet : alphabet := Alphabet (digit_with 43 47) (value_with 43 47).
Definition URLAlphabet : alphabet := Alphabet (digit_with 45 95) (value_with 45 95).

Section Codec.
Context (al : alphabet).

(** [RawEncoding.EncodeToString]. *)
Fixpoint encode_bytes (l : list N) : list Ascii.ascii :=
  match l with
  | [] => []
  | [a] => [digit al (N.shiftr a 2); digit al (N.shiftl (N.land a 3) 4)]
  | [a; b] =>
      [digit al (N.shiftr a 2); digit al (N.lor (N.shiftl (N.land a 3) 4) (N.shiftr b 4));
       digit al (N.shiftl (N.land b 15) 2)]
  | a :: b :: c :: rest =>
      digit al (N.shiftr a 2) :: digit al (N.lor (N.shiftl (N.land a 3) 4) (N.shiftr b 4))
      :: digit al (N.lor (N.shiftl (N.land b 15) 2) (N.shiftr c 6)) :: digit al (N.land c 63) :: encode_bytes rest
  end.
Definition RawEncode (s : string) : string := String.string_of_list_ascii (encode_bytes (bytes_of s)).

(** The bytes of two, three or four digits; surplus bits are dropped. *)
Definition byte1 (x y : N) : N := N.lor (N.land (N.shiftl x 2) 255) (N.shiftr y 4).
Definition byte2 (y z : N) : N := N.lor (N.land (N.shiftl y 4) 255) (N.shiftr z 2).
Definition byte3 (z w : N) : N := N.lor (N.land (N.shiftl z 6) 255) w.

Definition is_pad (padded : bool) (a : Ascii.ascii) : bool := padded && (Ascii.N_of_ascii a =? 61).

(** [Encoding.DecodeString] without newlines: whole quanta, then the short
    quantum of a raw encoding or the padded one of a padded encoding. *)
Fixpoint decode_chars (padded : bool) (l : list Ascii.ascii) : option (list N) :=
  match l with
  | [] => Some []
  | [a; b] =>
      if padded then None else x ← value al a; y ← value al b; Some [byte1 x y]
  | [a; b; c] =>
      if padded then None else x ← value al a; y ← value al b; z ← value al c; Some [byte1 x y; byte2 y z]
  | a :: b :: c :: d :: rest =>
      x ← value al a; y ← value al b;
      if is_pad padded c then
        if is_pad padded d && bool_decide (rest = []) then Some [byte1 x y] else None
      else
        z ← value al c;
        if is_pad padded d then if bool_decide (rest = []) then Some [byte1 x y; byte2 y z] else None
        else w ← value al d; bs ← decode_chars padded rest; Some (byte1 x y :: byte2 y z :: byte3 z w :: bs)
  | _ => None
  end.

(** Carriage returns and line feeds are skipped. *)
Definition is_newline (a : Ascii.ascii) : bool := (Ascii.N_of_ascii a =? 10) || (Ascii.N_of_ascii a =? 13).
Definition Decode (padded : bool) (s : string) : option string :=
  of_bytes <$> decode_chars padded (filter (fun a => is_newline a = false) (String.list_ascii_of_string s)).
End Codec.

(** ** Round trip *)

(** The digits of an alphabet are read back, and are no newline. *)
Definition alphabet_ok (al : alphabet) : Prop :=
  forall n, n < 64 -> value al (digit al n) = Some n /\ is_newline (digit al n) = false.

Lemma below_forall (P : N -> bool) k : forallb P (List.map N.of_nat (seq 0 k)) = true -> forall n, n < N.of_nat k -> P n = true.
Proof.
  intros H n Hn. rewrite forallb_forall in H. apply H. apply in_map_iff. exists (N.to_nat n).
  split; [lia|]. apply in_seq. lia.
Qed.
Lemma alphabet_check al :
  forallb (fun n => bool_decide (value al (digit al n) = Some n) && negb (is_newline (digit al n))) (List.map N.of_nat (seq 0 64)) = true ->
  alphabet_ok al.
Proof.
  intros H n Hn. pose proof (below_forall _ 64 H n Hn) as Hc. cbn beta in Hc.
  rewrite andb_true_iff, bool_decide_eq_true, negb_true_iff in Hc. exact Hc.
Qed.
Lemma std_ok : alphabet_ok StdAlphabet.
Proof. apply alphabet_check. by vm_compute. Qed.
Lemma url_ok : alphabet_ok URLAlphabet.
Proof. apply alphabet_check. by vm_compute. Qed.

Definition d1 (a : N) : N := N.shiftr a 2.
Definition d2 (a b : N) : N := N.lor (N.shiftl (N.land a 3) 4) (N.shiftr b 4).
Definition d3 (b c : N) : N := N.lor (N.shiftl (N.land b 15) 2) (N.shiftr c 6).
Definition d4 (c : N) : N := N.land c 63.

(** What the six-bit groups of bytes keep, checked on all bytes. *)
Definition pair_check (a b : N) : bool :=
  (d1 a <? 64) && (d2 a b <? 64) && (d3 a b <? 64) && (d4 a <? 64) && (byte1 (d1 a) (d2 a b) =? a)
  && (N.land (N.shiftl (d2 a b) 4) 255 =? N.shiftl (N.shiftr b 4) 4) && (N.shiftr (d3 a b) 2 =? N.land a 15)
  && (N.land (N.shiftl (d3 a b) 6) 255 =? N.shiftl (N.shiftr b 6) 6)
  && (N.lor (N.shiftl (N.shiftr a 4) 4) (N.land a 15) =? a) && (N.lor (N.shiftl (N.shiftr a 6) 6) (N.land a 63) =? a).
Lemma pairs_ok a b : a < 256 -> b < 256 -> pair_check a b = true.
Proof.
  assert (H : forallb (fun a => forallb (pair_check a) (List.map N.of_nat (seq 0 256))) (List.map N.of_nat (seq 0 256)) = true)
    by by vm_compute.
  intros Ha Hb. pose proof (below_forall _ 256 H a Ha) as Hab. exact (below_forall _ 256 Hab b Hb).
Qed.

Lemma pair_facts a b : a < 256 -> b < 256 ->
  (d1 a < 64 /\ d2 a b < 64 /\ d3 a b < 64 /\ d4 a < 64 /\ byte1 (d1 a) (d2 a b) = a) /\
  N.land (N.shiftl (d2 a b) 4) 255 = N.shiftl (N.shiftr b 4) 4 /\ N.shiftr (d3 a b) 2 = N.land a 15 /\
  N.land (N.shiftl (d3 a b) 6) 255 = N.shiftl (N.shiftr b 6) 6 /\
  N.lor (N.shiftl (N.shiftr a 4) 4) (N.land a 15) = a /\ N.lor (N.shiftl (N.shiftr a 6) 6) (N.land a 63) = a.
Proof.
  intros Ha Hb. pose proof (pairs_ok a b Ha Hb) as H. unfold pair_check in H.
  rewrite !andb_true_iff, !N.ltb_lt, !N.eqb_eq in H. tauto.
Qed.
Lemma second_byte a b c : a < 256 -> b < 256 -> c < 256 -> byte2 (d2 a b) (d3 b c) = b.
Proof.
  intros Ha Hb Hc. destruct (pair_facts a b Ha Hb) as (_ & H1 & _). destruct (pair_facts b c Hb Hc) as (_ & _ & H2 & _ & H3 & _).
  unfold byte2. by rewrite H1, H2.
Qed.
Lemma third_byte b c : b < 256 -> c < 256 -> byte3 (d3 b c) (d4 c) = c.
Proof.
  intros Hb Hc. destruct (pair_facts b c Hb Hc) as (_ & _ & _ & H1 & _). destruct (pair_facts c b Hc Hb) as (_ & _ & _ & _ & _ & H2).
  unfold byte3, d4. by rewrite H1.
Qed.

Lemma filter_everything {A} (P : A -> Prop) `{!forall x, Decision (P x)} (l : list A) : Forall P l -> filter P l = l.
Proof. induction 1 as [|x l Hx _ IH]; [done|]. by rewrite filter_cons_True, IH. Qed.

Section RoundTrip.
Context (al : alphabet) (Hal : alphabet_ok al).

Lemma value_digit n : n < 64 -> value al (digit al n) = Some n.
Proof. intros H. by apply Hal. Qed.

(** The encoding in six-bit groups: a missing byte counts as zero. *)
Lemma encode_one a : encode_bytes al [a] = [digit al (d1 a); digit al (d2 a 0)].
Proof. cbn. unfold d2. by rewrite N.shiftr_0_l, N.lor_0_r. Qed.
Lemma encode_two a b : encode_bytes al [a; b] = [digit al (d1 a); digit al (d2 a b); digit al (d3 b 0)].
Proof. cbn. unfold d3. by rewrite N.shiftr_0_l, N.lor_0_r. Qed.

Lemma three_by_three {A} (P : list A -> Prop) :
  P [] -> (forall a, P [a]) -> (forall a b, P [a; b]) -> (forall a b c l, P l -> P (a :: b :: c :: l)) -> forall l, P l.
Proof.
  intros H0 H1 H2 H3 l. enough (P l /\ (forall a, P (a :: l)) /\ (forall a b, P (a :: b :: l))) by tauto.
  induction l as [|x l (IH0 & IH1 & IH2)]; [auto|]. split; [apply IH1|]. split; [intros a; apply IH2|].
  intros a b. apply H3, IH0.
Qed.

Lemma decode_encode l : Forall (fun b => b < 256) l -> decode_chars al false (encode_bytes al l) = Some l.
Proof.
  induction l as [|a|a b|a b c l IH] using three_by_three; intros Hl; [done|..]; rewrite ?Forall_cons in Hl.
  - destruct Hl as [Ha _]. destruct (pair_facts a 0 Ha ltac:(lia)) as ((? & ? & _ & _ & H1) & _).
    rewrite encode_one. cbn. rewrite !value_digit by done. cbn. by rewrite H1.
  - destruct Hl as (Ha & Hb & _). destruct (pair_facts a b Ha Hb) as ((? & ? & _ & _ & H1) & _).
    destruct (pair_facts b 0 Hb ltac:(lia)) as ((_ & _ & ? & _) & _).
    rewrite encode_two. cbn. rewrite !value_digit by done. cbn. by rewrite H1, second_byte by (done || lia).
  - destruct Hl as (Ha & Hb & Hc & Hl). destruct (pair_facts a b Ha Hb) as ((? & ? & _ & _ & H1) & _).
    destruct (pair_facts b c Hb Hc) as ((_ & _ & ? & _) & _). destruct (pair_facts c c Hc Hc) as ((_ & _ & _ & ? & _) & _).
    cbn [encode_bytes]. fold (d1 a) (d2 a b) (d3 b c) (d4 c). specialize (IH Hl).
    cbn [decode_chars is_pad andb]. rewrite !value_digit by done. cbn. rewrite IH. cbn.
    by rewrite H1, second_byte, third_byte by done.
Qed.

Lemma encode_no_newline l : Forall (fun b => b < 256) l -> filter (fun a => is_newline a = false) (encode_bytes al l) = encode_bytes al l.
Proof.
  assert (Hd : forall n, n < 64 -> is_newline (digit al n) = false) by (intros n Hn; by apply Hal).
  intros Hl. apply filter_everything. revert Hl.
  induction l as [|a|a b|a b c l IH] using three_by_three; intros Hl; [done|..]; rewrite ?Forall_cons in Hl.
  - destruct Hl as [Ha _]. destruct (pair_facts a 0 Ha ltac:(lia)) as ((? & ? & _ & _) & _).
    rewrite encode_one. repeat constructor; by apply Hd.
  - destruct Hl as (Ha & Hb & _). destruct (pair_facts a b Ha Hb) as ((? & ? & _ & _) & _).
    destruct (pair_facts b 0 Hb ltac:(lia)) as ((_ & _ & ? & _) & _). rewrite encode_two. repeat constructor; by apply Hd.
  - destruct Hl as (Ha & Hb & Hc & Hl). destruct (pair_facts a b Ha Hb) as ((? & ? & _ & _) & _).
    destruct (pair_facts b c Hb Hc) as ((_ & _ & ? & _) & _). destruct (pair_facts c c Hc Hc) as ((_ & _ & _ & ? & _) & _).
    cbn [encode_bytes]. fold (d1 a) (d2 a b) (d3 b c) (d4 c). do 4 (constructor; [by apply Hd|]). by apply IH.
Qed.
End RoundTrip.

(** What holds of the 64 digits holds of every character of an encoding. *)
Lemma encode_all c62 c63 (P : Ascii.ascii -> bool) s :
  forallb (fun n => P (digit_with c62 c63 n)) (List.map N.of_nat (seq 0 64)) = true -> P (Ascii.ascii_of_N c63) = true ->
  Forall (fun c => P c = true) (String.list_ascii_of_string (RawEncode (Alphabet (digit_with c62 c63) (value_with c62 c63)) s)).
Proof.
  intros Hall Hlast. unfold RawEncode. rewrite String.list_ascii_of_string_of_list_ascii.
  assert (Hd : forall n, P (digit_with c62 c63 n) = true).
  { intros n. destruct (decide (n < 64)) as [Hn|Hn].
    - by apply (below_forall (fun n => P (digit_with c62 c63 n)) 64).
    - unfold digit_with. repeat (case_match; [rewrite ?N.ltb_lt, ?N.eqb_eq in *; lia|]). done. }
  generalize (bytes_of s). intros l. induction l as [|a|a b|a b c l IH] using three_by_three; cbn [encode_bytes digit]; auto.
Qed.
(** A character outside the alphabet never appears in an encoding. *)
Lemma encode_free c62 c63 sep s :
  forallb (fun n => negb (Ascii.eqb (digit_with c62 c63 n) sep)) (List.map N.of_nat (seq 0 64)) = true ->
  Ascii.eqb (Ascii.ascii_of_N c63) sep = false ->
  Forall (fun c => Ascii.eqb c sep = false) (String.list_ascii_of_string (RawEncode (Alphabet (digit_with c62 c63) (value_with c62 c63)) s)).
Proof.
  intros Hall Hlast. eapply Forall_impl; [apply (encode_all _ _ (fun c => negb (Ascii.eqb c sep))); [exact Hall|by rewrite Hlast]|].
  cbn. intros c. apply negb_true_iff.
Qed.

Lemma Decode_RawEncode al s : alphabet_ok al -> Decode al false (RawEncode al s) = Some s.
Proof.
  intros Hal. unfold Decode, RawEncode. rewrite String.list_ascii_of_string_of_list_ascii.
  rewrite (encode_no_newline _ Hal) by apply bytes_of_bound. rewrite (decode_encode _ Hal) by apply bytes_of_bound.
  cbn. by rewrite of_bytes_of.
Qed.

(** ** Encodings joined by dots *)

Definition dot : Ascii.ascii := chr 46.
Definition no_dot (s : string) : Prop := free_of dot s.

Lemma encode_no_dot s : no_dot (RawEncode URLAlphabet s).
Proof. apply encode_free; by vm_compute. Qed.
Lemma split_dot_none s : no_dot s -> split dot s = [s].
Proof. apply split_free. Qed.
Lemma split_dot_app a b : no_dot a -> split dot (a +:+ "." +:+ b) = a :: split dot b.
Proof. apply (split_app dot). Qed.

(** Two dotted pairs are equal only part by part. *)
Lemma dotted_inj a b a' b' : no_dot a -> no_dot b -> no_dot a' -> no_dot b' ->
  a +:+ "." +:+ b = a' +:+ "." +:+ b' -> a = a' /\ b = b'.
Proof.
  intros Ha Hb Ha' Hb' H. apply (f_equal (split dot)) in H.
  rewrite !split_dot_app, !split_dot_none in H by done. by injection H.
Qed.
