(* ===== verification/Json.v ===== *)
(** * JSON values and their Go encoding

    [json.RawMessage] and [map[string]any] values as a tree, and the bytes
    [encoding/json] writes for it (HTML-safe escaping, times as RFC 3339 with
    nanoseconds in UTC).  Strings are taken to be valid UTF-8. *)

From S2P Require Import Prelude.
From stdpp Require Import pretty.
Open Scope string_scope.
Open Scope list_scope.
Open Scope Z_scope.

Inductive json :=
  | JNull
  | JBool (b : bool)
  | JNum (z : Z)
  | JStr (s : string)
  | JTime (t : Z)
  | JArr (l : list json)
  | JObj (l : list (string * json)).

#[export] Instance json_eq_dec : EqDecision json.
Proof.
  unfold EqDecision, RelDecision. fix go 1. intros a b.
  assert (Hl : forall l l' : list json, Decision (l = l')).
  { fix list_dec 1. intros l l'. destruct l as [|x l], l' as [|y l']; [by left|by right|by right|].
    destruct (go x y) as [->|Hn]; [|right; congruence]. destruct (list_dec l l') as [->|Hn]; [by left|right; congruence]. }
  assert (Hm : forall l l' : list (string * json), Decision (l = l')).
  { fix list_dec 1. intros l l'. destruct l as [|[k x] l], l' as [|[k' y] l']; [by left|by right|by right|].
    destruct (decide (k = k')) as [->|Hn]; [|right; congruence].
    destruct (go x y) as [->|Hn]; [|right; congruence]. destruct (list_dec l l') as [->|Hn]; [by left|right; congruence]. }
  destruct a as [|b1|z1|s1|t1|l1|m1], b as [|b2|z2|s2|t2|l2|m2]; try (right; discriminate); [by left|..].
  - destruct (decide (b1 = b2)) as [->|Hn]; [by left|right; congruence].
  - destruct (decide (z1 = z2)) as [->|Hn]; [by left|right; congruence].
  - destruct (decide (s1 = s2)) as [->|Hn]; [by left|right; congruence].
  - destruct (decide (t1 = t2)) as [->|Hn]; [by left|right; congruence].
  - destruct (Hl l1 l2) as [->|Hn]; [by left|right; congruence].
  - destruct (Hm m1 m2) as [->|Hn]; [by left|right; congruence].
Defined.

Definition JOptStr (o : option string) : json := from_option JStr JNull o.
Definition JOptTime (o : option Z) : json := from_option JTime JNull o.

(** The member of an object, as [json.Unmarshal] into a struct finds it. *)
Definition json_field (j : json) (k : string) : option json :=
  match j with
  | JObj l => snd <$> list_find (fun p => p.1 = k) l ≫= fun p => Some p.2
  | _ => None
  end.

Definition json_string (j : option json) : option string :=
  match j with Some (JStr s) => Some s | _ => None end.

(** ** Strings *)

Definition hex_char (n : N) : string :=
  String.substring (N.to_nat n) 1 "0123456789abcdef".

Definition escape_byte (c : N) : string :=
  if (c =? 34)%N then "\" +:+ of_bytes [34%N]
  else if (c =? 92)%N then "\\"
  else if (c =? 8)%N then "\b"
  else if (c =? 12)%N then "\f"
  else if (c =? 10)%N then "\n"
  else if (c =? 13)%N then "\r"
  else if (c =? 9)%N then "\t"
  else if (c <? 32)%N || (c =? 60)%N || (c =? 62)%N || (c =? 38)%N then
    "\u00" +:+ hex_char (c / 16) +:+ hex_char (c mod 16)
  else of_bytes [c].

Fixpoint escape_bytes (l : list N) : string :=
  match l with
  | [] => ""
  | a :: rest =>
      match rest with
      | b :: c :: rest' =>
          if (a =? 226)%N && (b =? 128)%N && ((c =? 168)%N || (c =? 169)%N)
          then "\u202" +:+ hex_char (c - 160) +:+ escape_bytes rest'
          else escape_byte a +:+ escape_bytes rest
      | _ => escape_byte a +:+ escape_bytes rest
      end
  end.

Definition quote : string := of_bytes [34%N].
Definition encode_string (s : string) : string := quote +:+ escape_bytes (bytes_of s) +:+ quote.

(** ** Times *)

Definition pad (width : nat) (n : Z) : string :=
  let s := pretty n in
  String.concat "" (replicate (width - String.length s) "0") +:+ s.

(** Year, month and day of a day count since 1970-01-01 (proleptic Gregorian). *)
Definition civil_of_days (z : Z) : Z * Z * Z :=
  let z := z + 719468 in
  let era := z / 146097 in
  let doe := z mod 146097 in
  let yoe := (doe - doe / 1460 + doe / 36524 - doe / 146096) / 365 in
  let doy := doe - (365 * yoe + yoe / 4 - yoe / 100) in
  let mp := (5 * doy + 2) / 153 in
  let d := doy - (153 * mp + 2) / 5 + 1 in
  let m := if mp <? 10 then mp + 3 else mp - 9 in
  let y := yoe + era * 400 + (if m <=? 2 then 1 else 0) in
  (y, m, d).

Fixpoint trim_zeros_rev (l : list Ascii.ascii) : list Ascii.ascii :=
  match l with
  | c :: rest => if bool_decide (c = Ascii.ascii_of_N 48) then trim_zeros_rev rest else l
  | [] => []
  end.

(** [time.Time.Format(time.RFC3339Nano)] of an instant in UTC. *)
Definition rfc3339nano (t : Z) : string :=
  let '(y, m, d) := civil_of_days (t / day) in
  let s := t mod day / second in
  let ns := t mod second in
  let frac := rev (trim_zeros_rev (rev (String.list_ascii_of_string (pad 9 ns)))) in
  pad 4 y +:+ "-" +:+ pad 2 m +:+ "-" +:+ pad 2 d +:+ "T" +:+
  pad 2 (s / 3600) +:+ ":" +:+ pad 2 (s mod 3600 / 60) +:+ ":" +:+ pad 2 (s mod 60) +:+
  (if bool_decide (ns = 0) then "" else "." +:+ String.string_of_list_ascii frac) +:+ "Z".

(** ** Values *)

Fixpoint json_encode (j : json) : string :=
  match j with
  | JNull => "null"
  | JBool b => if b then "true" else "false"
  | JNum z => pretty z
  | JStr s => encode_string s
  | JTime t => quote +:+ rfc3339nano t +:+ quote
  | JArr l => "[" +:+ String.concat "," (List.map json_encode l) +:+ "]"
  | JObj l =>
      "{" +:+ String.concat ","
        (List.map (fun p => encode_string p.1 +:+ ":" +:+ json_encode p.2) l) +:+ "}"
  end.

Example rfc3339nano_epoch : rfc3339nano 0 = "1970-01-01T00:00:00Z".
Proof. reflexivity. Qed.
Example rfc3339nano_leap : rfc3339nano (1709208000 * second + 120000000) = "2024-02-29T12:00:00.12Z".
Proof. vm_compute. reflexivity. Qed.
Example json_encode_card : json_encode (JObj [("a", JArr [JNum (-3); JNull]); ("b", JStr "x<y")]) =
  "{" +:+ quote +:+ "a" +:+ quote +:+ ":[-3,null]," +:+ quote +:+ "b" +:+ quote +:+ ":" +:+
  quote +:+ "x\u003cy" +:+ quote +:+ "}".
Proof. vm_compute. reflexivity. Qed.

(** ** jsonb

    What a [jsonb] column gives back: object members ordered by the length of
    the key and then its bytes, the last of duplicate keys kept, and a time as
    the string it was encoded to. *)

Definition jsonb_key_le (p q : string * json) : Prop :=
  (String.length p.1 < String.length q.1)%nat \/
  (String.length p.1 = String.length q.1 /\ String.le p.1 q.1).
#[export] Instance jsonb_key_le_dec : RelDecision jsonb_key_le.
Proof. intros p q. unfold jsonb_key_le. apply _. Defined.

Fixpoint last_members (l : list (string * json)) : list (string * json) :=
  match l with
  | [] => []
  | p :: rest =>
      let rest' := last_members rest in
      if bool_decide (p.1 ∈ List.map fst rest') then rest' else p :: rest'
  end.

Fixpoint jsonb (j : json) : json :=
  match j with
  | JTime t => JStr (rfc3339nano t)
  | JArr l => JArr (List.map jsonb l)
  | JObj l => JObj (merge_sort jsonb_key_le (last_members (List.map (fun p => (p.1, jsonb p.2)) l)))
  | _ => j
  end.

Example jsonb_order : jsonb (JObj [("operation", JNull); ("card", JTime 0)]) =
  JObj [("card", JStr "1970-01-01T00:00:00Z"); ("operation", JNull)].
Proof. vm_compute. reflexivity. Qed.
