(* ===== verification/JsonText.v ===== *)
(** * JsonText: reading JSON

    [encoding/json] as the program uses it: the syntax ([json.Unmarshal] and one
    [Decoder.Decode] up to the end of the input accept the same texts), strings
    with their escapes and with invalid UTF-8 replaced, the nesting limit of the
    scanner, and the decoding of an object into a struct (an exact name before
    a case-folded one, [null] as no change, the last of duplicate members,
    unknown members ignored or refused).  [JsonRoundtrip] reads back what
    [Json.json_encode] writes. *)

From S2P Require Import Prelude Text Json.
From stdpp Require Import pretty.
Open Scope string_scope.
Open Scope list_scope.
Open Scope Z_scope.

(** A JSON text: a number is its literal. *)
Inductive jtext :=
  | TNull
  | TBool (b : bool)
  | TNum (literal : string)
  | TStr (s : string)
  | TArr (l : list jtext)
  | TObj (l : list (string * jtext)).

(** ** Lexical elements *)

Definition json_space (c : N) : bool := ((c =? 32) || (c =? 9) || (c =? 10) || (c =? 13))%N.
Fixpoint skip_space (l : list N) : list N :=
  match l with
  | c :: rest => if json_space c then skip_space rest else l
  | [] => []
  end.

Definition is_digit (c : N) : bool := ((48 <=? c) && (c <=? 57))%N.
Definition hex_value (c : N) : option N :=
  if is_digit c then Some (c - 48)%N
  else if ((97 <=? c) && (c <=? 102))%N then Some (c - 87)%N
  else if ((65 <=? c) && (c <=? 70))%N then Some (c - 55)%N else None.
Definition u4 (a b c d : N) : option N :=
  a ← hex_value a; b ← hex_value b; c ← hex_value c; d ← hex_value d;
  Some (((a * 16 + b) * 16 + c) * 16 + d)%N.

Definition simple_escape (e : N) : option N :=
  if ((e =? 34) || (e =? 92) || (e =? 47))%N then Some e
  else if (e =? 98)%N then Some 8%N else if (e =? 102)%N then Some 12%N else if (e =? 110)%N then Some 10%N
  else if (e =? 114)%N then Some 13%N else if (e =? 116)%N then Some 9%N else None.

Definition prepend (bs : list N) (r : option (list N * list N)) : option (list N * list N) :=
  p ← r; Some (bs ++ p.1, p.2).
Definition surrogate (r : N) : bool := ((55296 <=? r) && (r <? 57344))%N.
Definition replacement : list N := encode_rune rune_error.

(** The bytes of a string after its opening quote, escapes decoded, and what
    follows the closing quote; a surrogate that is not one of a pair is the
    replacement character. *)
Fixpoint scan_string (l : list N) : option (list N * list N) :=
  match l with
  | [] => None
  | c :: rest =>
      if (c =? 34)%N then Some ([], rest)
      else if (c =? 92)%N then
        match rest with
        | [] => None
        | e :: rest1 =>
            if (e =? 117)%N then
              match rest1 with
              | h1 :: h2 :: h3 :: h4 :: rest2 =>
                  match u4 h1 h2 h3 h4 with
                  | None => None
                  | Some r =>
                      if surrogate r then
                        match rest2 with
                        | x :: y :: g1 :: g2 :: g3 :: g4 :: rest3 =>
                            match (if (x =? 92) && (y =? 117) then u4 g1 g2 g3 g4 else None)%N with
                            | Some r' =>
                                if ((r <? 56320) && (56320 <=? r') && (r' <? 57344))%N then
                                  prepend (encode_rune ((r - 55296) * 1024 + (r' - 56320) + 65536)) (scan_string rest3)
                                else prepend replacement (scan_string rest2)
                            | None => prepend replacement (scan_string rest2)
                            end
                        | _ => prepend replacement (scan_string rest2)
                        end
                      else prepend (encode_rune r) (scan_string rest2)
                  end
              | _ => None
              end
            else
              match simple_escape e with
              | Some b => prepend [b] (scan_string rest1)
              | None => None
              end
        end
      else if (c <? 32)%N then None
      else prepend [c] (scan_string rest)
  end.
Definition parse_string (l : list N) : option (string * list N) :=
  p ← scan_string l; Some (of_bytes (to_valid p.1), p.2).

Fixpoint take_digits (l : list N) : list N * list N :=
  match l with
  | c :: rest => if is_digit c then let (ds, r) := take_digits rest in (c :: ds, r) else ([], l)
  | [] => ([], [])
  end.
Definition some_digits (l : list N) : option (list N * list N) :=
  match take_digits l with ([], _) => None | p => Some p end.

Definition parse_int (l : list N) : option (list N * list N) :=
  match l with
  | c :: rest => if (c =? 48)%N then Some ([c], rest) else some_digits l
  | [] => None
  end.
Definition parse_frac (l : list N) : option (list N * list N) :=
  match l with
  | c :: rest => if (c =? 46)%N then prepend [c] (some_digits rest) else Some ([], l)
  | [] => Some ([], [])
  end.
Definition parse_exp (l : list N) : option (list N * list N) :=
  match l with
  | c :: rest =>
      if ((c =? 101) || (c =? 69))%N then
        match rest with
        | s :: rest' => if ((s =? 43) || (s =? 45))%N then prepend [c; s] (some_digits rest') else prepend [c] (some_digits rest)
        | [] => None
        end
      else Some ([], l)
  | [] => Some ([], [])
  end.
Definition parse_unsigned (l : list N) : option (list N * list N) :=
  p ← parse_int l; q ← parse_frac p.2; r ← parse_exp q.2; Some (p.1 ++ q.1 ++ r.1, r.2).
Definition parse_number (l : list N) : option (list N * list N) :=
  match l with
  | c :: rest => if (c =? 45)%N then prepend [c] (parse_unsigned rest) else parse_unsigned l
  | [] => None
  end.

Fixpoint strip_prefix (p l : list N) : option (list N) :=
  match p, l with
  | [], _ => Some l
  | x :: p', y :: l' => if (x =? y)%N then strip_prefix p' l' else None
  | _ :: _, [] => None
  end.

(** ** Values *)

(** The rest after a closing bracket, white space before it skipped. *)
Definition closes (close : N) (l : list N) : option (list N) :=
  match skip_space l with
  | c :: rest => if (c =? close)%N then Some rest else None
  | [] => None
  end.

(** Items separated by commas up to [close]; each takes a byte of the input, so
    its length is fuel enough. *)
Fixpoint items {A} (item : list N -> option (A * list N)) (close : N) (fuel : nat) (l : list N) :
    option (list A * list N) :=
  match fuel with
  | O => None
  | S fuel' =>
      p ← item l;
      match skip_space p.2 with
      | c :: l2 =>
          if (c =? 44)%N then q ← items item close fuel' l2; Some (p.1 :: q.1, q.2)
          else if (c =? close)%N then Some ([p.1], l2) else None
      | [] => None
      end
  end.
Definition sequence {A} (item : list N -> option (A * list N)) (close : N) (l : list N) : option (list A * list N) :=
  match closes close l with
  | Some rest => Some ([], rest)
  | None => items item close (length l) l
  end.
Definition member {A} (value : list N -> option (A * list N)) (l : list N) : option ((string * A) * list N) :=
  l1 ← closes 34 l; k ← parse_string l1; l2 ← closes 58 k.2; v ← value l2; Some ((k.1, v.1), v.2).

(** A value; [depth] is how many brackets may still open. *)
Fixpoint parse_value (depth : nat) (l0 : list N) : option (jtext * list N) :=
  let l := skip_space l0 in
  match l with
  | [] => None
  | c :: rest =>
      if (c =? 34)%N then p ← parse_string rest; Some (TStr p.1, p.2)
      else if (c =? 91)%N then
        match depth with
        | O => None
        | S d => p ← sequence (parse_value d) 93 rest; Some (TArr p.1, p.2)
        end
      else if (c =? 123)%N then
        match depth with
        | O => None
        | S d => p ← sequence (member (parse_value d)) 125 rest; Some (TObj p.1, p.2)
        end
      else if (c =? 110)%N then r ← strip_prefix (bytes_of "null") l; Some (TNull, r)
      else if (c =? 116)%N then r ← strip_prefix (bytes_of "true") l; Some (TBool true, r)
      else if (c =? 102)%N then r ← strip_prefix (bytes_of "false") l; Some (TBool false, r)
      else p ← parse_number l; Some (TNum (of_bytes p.1), p.2)
  end.

(** [maxNestingDepth] of the scanner. *)
Definition max_nesting : nat := N.to_nat 10000.
(** The one value of a whole text. *)
Definition parse_json (s : string) : option jtext :=
  p ← parse_value max_nesting (bytes_of s);
  match skip_space p.2 with [] => Some p.1 | _ :: _ => None end.

(** ** Decoding into a struct *)

(** The folded form of a member's name: letters without case, with the two
    characters outside ASCII that fold to a letter of ASCII. *)
Fixpoint fold_bytes (l : list N) : list N :=
  match l with
  | [] => []
  | a :: rest =>
      if ((97 <=? a) && (a <=? 122))%N then (a - 32)%N :: fold_bytes rest
      else match rest with
      | b :: rest1 =>
          if ((a =? 197) && (b =? 191))%N then 83%N :: fold_bytes rest1
          else match rest1 with
          | c :: rest2 =>
              if ((a =? 226) && (b =? 132) && (c =? 170))%N then 75%N :: fold_bytes rest2 else a :: fold_bytes rest
          | [] => a :: fold_bytes rest
          end
      | [] => [a]
      end
  end.
Definition same_fold (a b : string) : bool := bool_decide (fold_bytes (bytes_of a) = fold_bytes (bytes_of b)).

(** The fields of a struct of type [R]: a name and how a value is stored. *)
Definition fields (R : Type) : Type := list (string * (jtext -> R -> option R)).

Fixpoint find_name {A} (same : string -> string -> bool) (name : string) (l : list (string * A)) : option A :=
  match l with
  | (n, a) :: rest => if same n name then Some a else find_name same name rest
  | [] => None
  end.
Definition find_field {R} (fs : fields R) (name : string) : option (jtext -> R -> option R) :=
  match find_name String.eqb name fs with Some f => Some f | None => find_name same_fold name fs end.

Fixpoint decode_members {R} (strict : bool) (fs : fields R) (members : list (string * jtext)) (r : R) : option R :=
  match members with
  | [] => Some r
  | (name, value) :: rest =>
      match find_field fs name with
      | Some store => r' ← store value r; decode_members strict fs rest r'
      | None => if strict then None else decode_members strict fs rest r
      end
  end.
(** Into a struct whose fields are zero; [strict] is [DisallowUnknownFields]. *)
Definition decode_struct {R} (strict : bool) (fs : fields R) (zero : R) (t : jtext) : option R :=
  match t with
  | TObj members => decode_members strict fs members zero
  | TNull => Some zero
  | _ => None
  end.
(** [json.Unmarshal], and the strict decoding of one whole text. *)
Definition unmarshal {R} (strict : bool) (fs : fields R) (zero : R) (s : string) : option R :=
  t ← parse_json s; decode_struct strict fs zero t.

(** How a field takes a value: [string], [*string], [json.RawMessage] and
    [int64]. *)
Section Stores.
Context {R : Type}.
Definition string_field (put : string -> R -> R) (t : jtext) (r : R) : option R :=
  match t with TStr s => Some (put s r) | TNull => Some r | _ => None end.
Definition pointer_field (put : option string -> R -> R) (t : jtext) (r : R) : option R :=
  match t with TStr s => Some (put (Some s) r) | TNull => Some (put None r) | _ => None end.
Definition raw_field (put : option jtext -> R -> R) (t : jtext) (r : R) : option R := Some (put (Some t) r).

(** [strconv.ParseInt(literal, 10, 64)] of a number of the JSON grammar: no
    fraction, no exponent, in range. *)
Fixpoint digits_value (l : list N) (acc : Z) : option Z :=
  match l with
  | [] => Some acc
  | c :: rest => if is_digit c then digits_value rest (acc * 10 + Z.of_N (c - 48)) else None
  end.
Definition parse_int64 (literal : string) : option Z :=
  match bytes_of literal with
  | [] => None
  | c :: rest =>
      v ← (if (c =? 45)%N then Z.opp <$> digits_value rest 0 else digits_value (c :: rest) 0);
      if (- max_int64 - 1 <=? v) && (v <=? max_int64) then Some v else None
  end.
Definition int64_field (put : Z -> R -> R) (t : jtext) (r : R) : option R :=
  match t with TNum literal => v ← parse_int64 literal; Some (put v r) | TNull => Some r | _ => None end.
End Stores.

(** ** Examples *)

Definition quoted (s : string) : string := quote +:+ s +:+ quote.
Example parse_spaces : parse_json (" { " +:+ quoted "a" +:+ " : [ 1 , -0.5e+3 , null ] }  ") =
  Some (TObj [("a", TArr [TNum "1"; TNum "-0.5e+3"; TNull])]).
Proof. by vm_compute. Qed.
Example parse_refuses : List.map parse_json ["01"; "[1,]"; "{a:1}"; "[1] x"; "+1"; "1."; "nul"; "[1"; ""] = repeat None 9.
Proof. by vm_compute. Qed.
Example parse_escapes : parse_json (quoted "\u0041\n\ud83d\ude00\ud800x") =
  Some (TStr (of_bytes [65; 10; 240; 159; 152; 128; 239; 191; 189; 120]%N)).
Proof. by vm_compute. Qed.

(** ** Reading back a string *)

Definition byte_list (l : list N) : Prop := Forall (fun b => (b < 256)%N) l.
Lemma bytes_byte_list s : byte_list (bytes_of s).
Proof. apply bytes_of_bound. Qed.
#[export] Hint Resolve bytes_byte_list : core.

Lemma scan_escape_byte b tail : (b < 256)%N ->
  scan_string (bytes_of (escape_byte b) ++ tail) = prepend [b] (scan_string tail).
Proof.
  intros Hb. unfold escape_byte.
  destruct (N.eqb_spec b 34) as [->|H34]; [reflexivity|]. destruct (N.eqb_spec b 92) as [->|H92]; [reflexivity|].
  destruct (N.eqb_spec b 8) as [->|_]; [reflexivity|]. destruct (N.eqb_spec b 12) as [->|_]; [reflexivity|].
  destruct (N.eqb_spec b 10) as [->|_]; [reflexivity|]. destruct (N.eqb_spec b 13) as [->|_]; [reflexivity|].
  destruct (N.eqb_spec b 9) as [->|_]; [reflexivity|].
  destruct (N.ltb_spec b 32) as [Hlt|Hge]; cbn [orb].
  - assert (Hin : b ∈ List.map N.of_nat (seq 0 32)) by (apply list_elem_of_In, in_map_iff; exists (N.to_nat b); rewrite in_seq; lia).
    revert Hin. clear. intros Hin. repeat (apply elem_of_cons in Hin as [->|Hin]; [reflexivity|]). by apply elem_of_nil in Hin.
  - destruct (N.eqb_spec b 60) as [->|_]; [reflexivity|]. destruct (N.eqb_spec b 62) as [->|_]; [reflexivity|].
    destruct (N.eqb_spec b 38) as [->|_]; [reflexivity|]. cbn [orb].
    rewrite bytes_of_of by (by repeat constructor). cbn [app scan_string].
    apply N.eqb_neq in H34, H92. apply N.ltb_ge in Hge. by rewrite H34, H92, Hge.
Qed.

Lemma prepend_some bs p r : prepend bs (Some (p, r)) = Some (bs ++ p, r).
Proof. done. Qed.

Lemma scan_escape rest l : byte_list l -> scan_string (bytes_of (escape_bytes l) ++ 34%N :: rest) = Some (l, rest).
Proof.
  remember (length l) as n eqn:Hn. revert l Hn. induction (lt_wf n) as [n _ IH]. intros l -> Hl.
  destruct l as [|a l]; [done|]. apply Forall_cons in Hl as [Ha Hl].
  assert (Hone : scan_string (bytes_of (escape_byte a +:+ escape_bytes l) ++ 34%N :: rest) = Some (a :: l, rest)).
  { rewrite bytes_of_app, <- app_assoc, scan_escape_byte by done. by erewrite (IH (length l)); [|cbn; lia..|]. }
  destruct l as [|b [|c l]]; [exact Hone..|]. cbn [escape_bytes].
  destruct ((a =? 226)%N && (b =? 128)%N && ((c =? 168)%N || (c =? 169)%N)) eqn:E; [|exact Hone].
  apply andb_true_iff in E as [[->%N.eqb_eq ->%N.eqb_eq]%andb_true_iff Hc].
  apply Forall_cons in Hl as [_ Hl]. apply Forall_cons in Hl as [_ Hl].
  rewrite !bytes_of_app, <- !app_assoc.
  assert (Hrest := IH (length l) ltac:(cbn; lia) l eq_refl Hl).
  apply orb_true_iff in Hc as [->%N.eqb_eq | ->%N.eqb_eq].
  - change (prepend [226; 128; 168]%N (scan_string (bytes_of (escape_bytes l) ++ 34%N :: rest)) = Some ([226; 128; 168]%N ++ l, rest)).
    by rewrite Hrest.
  - change (prepend [226; 128; 169]%N (scan_string (bytes_of (escape_bytes l) ++ 34%N :: rest)) = Some ([226; 128; 169]%N ++ l, rest)).
    by rewrite Hrest.
Qed.

Lemma parse_string_escape s rest : utf8_valid s = true ->
  parse_string (bytes_of (escape_bytes (bytes_of s)) ++ 34%N :: rest) = Some (s, rest).
Proof.
  intros Hs%bool_decide_eq_true. unfold parse_string. rewrite scan_escape by done. cbn [mbind option_bind fst snd]. by rewrite Hs, of_bytes_of.
Qed.

(** ** Reading back a number *)

Definition digit_list (l : list N) : Prop := Forall (fun c => is_digit c = true) l.
(** What may follow a number: nothing that could continue it. *)
Definition ends_number (l : list N) : Prop :=
  match l with c :: _ => is_digit c = false /\ c <> 46%N /\ c <> 101%N /\ c <> 69%N | [] => True end.

Lemma digits_value_app l : forall l' acc, digit_list l -> digits_value (l ++ l') acc =
  digits_value l' (foldl (fun a c => a * 10 + Z.of_N (c - 48)) acc l).
Proof. induction l as [|c l IH]; intros l' acc; [done|]. intros [Hc Hl]%Forall_cons. cbn. rewrite Hc. by apply IH. Qed.

Lemma pretty_char_digit n : (n < 10)%N -> Ascii.N_of_ascii (pretty_N_char n) = (48 + n)%N.
Proof.
  intros Hn. assert (Hin : n ∈ List.map N.of_nat (seq 0 10)) by (apply list_elem_of_In, in_map_iff; exists (N.to_nat n); rewrite in_seq; lia).
  revert Hin. clear. intros Hin. repeat (apply elem_of_cons in Hin as [->|Hin]; [reflexivity|]). by apply elem_of_nil in Hin.
Qed.

(** The digits of a positive number: no leading zero, and their value. *)
Lemma pretty_go_digits n s : (0 < n)%N -> exists d ds,
  bytes_of (pretty_N_go n s) = d :: ds ++ bytes_of s /\ digit_list (d :: ds) /\ d <> 48%N /\
  foldl (fun a c => a * 10 + Z.of_N (c - 48)) 0 (d :: ds) = Z.of_N n.
Proof.
  revert s. induction (N.lt_wf_0 n) as [n _ IH]. intros s Hn.
  rewrite pretty_N_go_step by done. set (s' := String (pretty_N_char (n mod 10)) s).
  assert (Hm : (n mod 10 < 10)%N) by (apply N.mod_lt; lia).
  assert (Hs : bytes_of s' = [48 + n mod 10]%N ++ bytes_of s) by (cbn; by rewrite pretty_char_digit).
  assert (Hd : is_digit (48 + n mod 10) = true).
  { revert Hm. generalize (n mod 10)%N. intros m Hm. unfold is_digit. rewrite andb_true_iff, !N.leb_le. clear -Hm. split; lia. }
  destruct (decide (n < 10)%N) as [Hlt|Hge].
  - rewrite N.div_small, pretty_N_go_0, Hs by lia. rewrite N.mod_small in * by lia. exists (48 + n)%N, [].
    split; [done|]. split; [by repeat constructor|]. split; [lia|]. cbn. lia.
  - assert (Hlt : (n / 10 < n)%N) by (apply N.div_lt; lia).
    assert (Hpos : (0 < n / 10)%N) by (apply N.div_str_pos; lia).
    destruct (IH (n / 10)%N Hlt s' Hpos) as (d & ds & Hb & Hall & Hz & Hv).
    exists d, (ds ++ [48 + n mod 10]%N). rewrite Hb, Hs. split; [by rewrite <- app_assoc|].
    split; [apply Forall_cons in Hall as [? ?]; constructor; [done|]; apply Forall_app; by split; [|repeat constructor]|].
    split; [done|]. rewrite app_comm_cons, foldl_app, Hv. cbn [foldl]. pose proof (N.div_mod n 10 ltac:(lia)) as Hdm.
    revert Hdm. generalize (n / 10)%N (n mod 10)%N. clear. intros x m ->. lia.
Qed.

Lemma take_digits_app ds rest : digit_list ds -> ends_number rest -> take_digits (ds ++ rest) = (ds, rest).
Proof.
  induction 1 as [|c ds Hc _ IH]; intros He; cbn.
  - destruct rest as [|c rest]; [done|]. destruct He as [He _]. cbn. by rewrite He.
  - by rewrite Hc, IH.
Qed.

Lemma parse_unsigned_digits ds rest : digit_list ds -> ends_number rest ->
  (exists d ds', ds = d :: ds' /\ (d <> 48%N \/ ds' = [])) -> parse_unsigned (ds ++ rest) = Some (ds, rest).
Proof.
  intros Hds Hend (d & ds' & -> & Hz). unfold parse_unsigned.
  assert (Hint : parse_int ((d :: ds') ++ rest) = Some (d :: ds', rest)).
  { cbn [app parse_int]. destruct (N.eqb_spec d 48) as [->|Hne]; [destruct Hz as [?| ->]; [lia|done]|].
    unfold some_digits. rewrite app_comm_cons, take_digits_app by done. done. }
  rewrite Hint. cbn [option_bind mbind fst snd].
  assert (Hfrac : parse_frac rest = Some ([], rest)).
  { destruct rest as [|c r]; [done|]. destruct Hend as (_ & H46 & _). cbn. apply N.eqb_neq in H46. by rewrite H46. }
  assert (Hexp : parse_exp rest = Some ([], rest)).
  { destruct rest as [|c r]; [done|]. destruct Hend as (_ & _ & H1 & H2). cbn. apply N.eqb_neq in H1, H2. by rewrite H1, H2. }
  cbn. rewrite Hfrac. cbn. rewrite Hexp. cbn. by rewrite !app_nil_r.
Qed.

(** The literal of an integer. *)
Lemma pretty_Z_digits (z : Z) : exists sign d ds,
  bytes_of (pretty z) = sign ++ d :: ds /\ digit_list (d :: ds) /\ (d <> 48%N \/ ds = []) /\
  (sign = [] /\ 0 <= z \/ sign = [45%N] /\ z < 0) /\
  foldl (fun a c => a * 10 + Z.of_N (c - 48)) 0 (d :: ds) = Z.abs z.
Proof.
  destruct z as [|p|p].
  - exists [], 48%N, []. split; [done|]. split; [by repeat constructor|]. split; [by right|]. split; [left; split; [done|lia]|done].
  - destruct (pretty_go_digits (N.pos p) "" ltac:(lia)) as (d & ds & Hb & Hall & Hz & Hv). exists [], d, ds.
    rewrite app_nil_r in Hb. split; [exact Hb|]. split; [done|]. split; [by left|]. split; [left; split; [done|lia]|]. rewrite Hv. lia.
  - destruct (pretty_go_digits (N.pos p) "" ltac:(lia)) as (d & ds & Hb & Hall & Hz & Hv). exists [45%N], d, ds.
    rewrite app_nil_r in Hb. split; [|split; [done|split; [by left|split; [right; split; [done|lia]|rewrite Hv; lia]]]].
    change (bytes_of (pretty (Z.neg p))) with (45%N :: bytes_of (pretty_N_go (N.pos p) "")). by rewrite Hb.
Qed.

Lemma digit_not_dash c : is_digit c = true -> (c =? 45)%N = false.
Proof. unfold is_digit. rewrite andb_true_iff, !N.leb_le, N.eqb_neq. lia. Qed.

Lemma parse_number_pretty (z : Z) rest : ends_number rest ->
  parse_number (bytes_of (pretty z) ++ rest) = Some (bytes_of (pretty z), rest).
Proof.
  intros Hend. destruct (pretty_Z_digits z) as (sign & d & ds & -> & Hall & Hz & Hsign & _).
  assert (Hu : parse_unsigned ((d :: ds) ++ rest) = Some (d :: ds, rest)).
  { apply parse_unsigned_digits; [done|done|]. exists d, ds. by split. }
  destruct Hsign as [[-> _]|[-> _]]; cbn [app parse_number].
  - apply Forall_cons in Hall as [Hd _]. rewrite (digit_not_dash d Hd). exact Hu.
  - cbn [app] in Hu. by rewrite N.eqb_refl, Hu.
Qed.

Lemma parse_int64_pretty (z : Z) : - max_int64 - 1 <= z <= max_int64 -> parse_int64 (pretty z) = Some z.
Proof.
  intros Hr. unfold parse_int64. destruct (pretty_Z_digits z) as (sign & d & ds & -> & Hall & _ & Hsign & Hv).
  assert (Hd : digits_value (d :: ds) 0 = Some (Z.abs z)).
  { rewrite <- (app_nil_r (d :: ds)) at 1. rewrite digits_value_app by done. by rewrite Hv. }
  assert (Hc : (- max_int64 - 1 <=? z) && (z <=? max_int64) = true) by (rewrite andb_true_iff, !Z.leb_le; lia).
  destruct Hsign as [[-> Hz]|[-> Hz]]; cbn [app].
  - apply Forall_cons in Hall as [Hdd _]. rewrite (digit_not_dash d Hdd), Hd. cbn [mbind option_bind].
    rewrite Z.abs_eq by done. by rewrite Hc.
  - rewrite N.eqb_refl, Hd. cbn [fmap option_fmap option_map mbind option_bind]. rewrite Z.abs_neq, Z.opp_involutive by lia. by rewrite Hc.
Qed.
