(* ===== verification/TimeText.v ===== *)
(** * TimeText: reading RFC 3339 times

    [time.Parse(time.RFC3339Nano, value)], by the layout: four digits of year,
    two of month and day, one or two of hour, two of minute and second, a fraction
    after a period or comma of which nine digits count, and [Z] or an offset.  The
    instant is in nanoseconds since the epoch.  [rfc3339nano_parses] reads back
    what [Json.rfc3339nano] writes for the years 0 to 9999. *)

From S2P Require Import Prelude Text Json JsonText.
From stdpp Require Import pretty.
Open Scope string_scope.
Open Scope list_scope.
Open Scope Z_scope.

(** ** The calendar *)

Definition is_leap (y : Z) : bool := (y mod 4 =? 0) && (negb (y mod 100 =? 0) || (y mod 400 =? 0)).
Definition days_in (m y : Z) : Z :=
  if m =? 2 then (if is_leap y then 29 else 28)
  else if (m =? 4) || (m =? 6) || (m =? 9) || (m =? 11) then 30 else 31.
(** Days since 1970-01-01 of a date. *)
Definition days_of_civil (y m d : Z) : Z :=
  let y := if m <=? 2 then y - 1 else y in
  let doy := (153 * (if 2 <? m then m - 3 else m + 9) + 2) / 5 + d - 1 in
  let yoe := y mod 400 in
  y / 400 * 146097 + (yoe * 365 + yoe / 4 - yoe / 100 + doy) - 719468.

(** ** The text *)

Definition dig (c : N) : Z := Z.of_N (c - 48).
Definition getnum (fixed : bool) (l : list N) : option (Z * list N) :=
  match l with
  | a :: rest =>
      if is_digit a then
        match rest with
        | b :: rest' => if is_digit b then Some (dig a * 10 + dig b, rest') else if fixed then None else Some (dig a, rest)
        | [] => if fixed then None else Some (dig a, [])
        end
      else None
  | [] => None
  end.
Definition getnum_in (fixed : bool) (lo hi : Z) (l : list N) : option (Z * list N) :=
  p ← getnum fixed l; if (lo <=? p.1) && (p.1 <=? hi) then Some p else None.

Definition getyear (l : list N) : option (Z * list N) :=
  match l with
  | a :: b :: c :: d :: rest =>
      if is_digit a && is_digit b && is_digit c && is_digit d
      then Some (((dig a * 10 + dig b) * 10 + dig c) * 10 + dig d, rest) else None
  | _ => None
  end.

Definition skip (c : N) (l : list N) : option (list N) :=
  match l with x :: rest => if (x =? c)%N then Some rest else None | [] => None end.

Definition number_of (ds : list N) : Z := foldl (fun a c => a * 10 + dig c) 0 ds.
(** The first nine digits of a fraction, as nanoseconds. *)
Definition nanoseconds (ds : list N) : Z :=
  let kept := take 9 ds in number_of kept * 10 ^ (9 - Z.of_nat (length kept)).
Definition fraction (l : list N) : Z * list N :=
  match l with
  | c :: rest =>
      if ((c =? 46) || (c =? 44))%N then
        match take_digits rest with ([], _) => (0, l) | (ds, r) => (nanoseconds ds, r) end
      else (0, l)
  | [] => (0, [])
  end.

(** The zone, as seconds east of UTC. *)
Definition zone (l : list N) : option (Z * list N) :=
  match l with
  | [] => None
  | c :: rest =>
      if (c =? 90)%N then Some (0, rest)
      else if ((c =? 43) || (c =? 45))%N then
        h ← getnum_in true 0 24 rest; l1 ← skip 58 h.2; m ← getnum_in true 0 60 l1;
        let offset := (h.1 * 60 + m.1) * 60 in Some ((if (c =? 43)%N then offset else - offset), m.2)
      else None
  end.

Definition parse_rfc3339 (value : string) : option Z :=
  y ← getyear (bytes_of value); l ← skip 45 y.2;
  mo ← getnum_in true 1 12 l; l ← skip 45 mo.2;
  d ← getnum true l; l ← skip 84 d.2;
  h ← getnum_in false 0 23 l; l ← skip 58 h.2;
  mi ← getnum_in true 0 59 l; l ← skip 58 mi.2;
  s ← getnum_in true 0 59 l;
  let f := fraction s.2 in
  z ← zone f.2;
  if negb (bool_decide (z.2 = [])) || (d.1 <? 1) || (days_in mo.1 y.1 <? d.1) then None
  else Some (days_of_civil y.1 mo.1 d.1 * day + (h.1 * 3600 + mi.1 * 60 + s.1 - z.1) * second + f.1).

Example parse_offset : parse_rfc3339 "2024-02-29T23:59:59.5+01:30" = parse_rfc3339 "2024-02-29T22:29:59.500000000999Z".
Proof. by vm_compute. Qed.
Example parse_wrong_times : List.map parse_rfc3339
  ["2023-02-29T00:00:00Z"; "2024-13-01T00:00:00Z"; "2024-01-01T24:00:00Z"; "2024-01-01T00:00:00"; "2024-01-01 00:00:00Z"; ""] = repeat None 6.
Proof. by vm_compute. Qed.
Example parse_lenient_time : parse_rfc3339 "2024-01-01T7:00:00,25Z" = parse_rfc3339 "2024-01-01T07:00:00.250Z".
Proof. by vm_compute. Qed.

(** ** The calendar is right *)

(** Years 0 to 9999. *)
Definition valid_time (t : Z) : Prop := days_of_civil 0 1 1 * day <= t < days_of_civil 10000 1 1 * day.

(** Within an era of 400 years that start in March: the first day of a year,
    the year of a day as [civil_of_days] computes it, month and day. *)
Definition year_start (y : Z) : Z := 365 * y + y / 4 - y / 100 + y / 400.
Definition spread (doe : Z) : Z := doe - doe / 1460 + doe / 36524 - doe / 146096.
Definition era_year_ok (y : Z) : bool :=
  (spread (year_start y) / 365 =? y) && (spread (year_start (y + 1) - 1) / 365 =? y)
  && (year_start (y + 1) - year_start y =? (if is_leap (y + 1) then 366 else 365)) && (y / 400 =? 0).
Definition month_of (doy : Z) : Z := let mp := (5 * doy + 2) / 153 in if mp <? 10 then mp + 3 else mp - 9.
Definition day_of (doy : Z) : Z := doy - (153 * ((5 * doy + 2) / 153) + 2) / 5 + 1.
Definition year_day (m d : Z) : Z := (153 * (if 2 <? m then m - 3 else m + 9) + 2) / 5 + d - 1.
Definition year_day_ok (doy : Z) : bool :=
  let m := month_of doy in let d := day_of doy in
  (1 <=? m) && (m <=? 12) && (1 <=? d) && (d <=? days_in m (if doy =? 365 then 0 else 1)) && (year_day m d =? doy)
  && Bool.eqb (m <=? 2) (306 <=? doy).

Fixpoint all_below (n : nat) (P : Z -> bool) (from : Z) : bool :=
  match n with O => true | S n' => P from && all_below n' P (from + 1) end.
Lemma all_below_spec n P : forall from, all_below n P from = true -> forall i, from <= i < from + Z.of_nat n -> P i = true.
Proof.
  induction n as [|n IH]; intros from H i Hi; [lia|]. cbn in H. apply andb_true_iff in H as [H0 H].
  destruct (decide (i = from)) as [->|Hne]; [done|]. apply (IH (from + 1) H). lia.
Qed.
Lemma era_years y : 0 <= y < 400 ->
  spread (year_start y) / 365 = y /\ spread (year_start (y + 1) - 1) / 365 = y /\
  year_start (y + 1) - year_start y = (if is_leap (y + 1) then 366 else 365) /\ y / 400 = 0.
Proof.
  intros H. assert (Hc : era_year_ok y = true) by (apply (all_below_spec 400 era_year_ok 0); [by vm_compute|lia]).
  unfold era_year_ok in Hc. rewrite !andb_true_iff, !Z.eqb_eq in Hc. tauto.
Qed.
Lemma year_days doy : 0 <= doy <= 365 -> 1 <= month_of doy <= 12 /\ 1 <= day_of doy /\
  day_of doy <= days_in (month_of doy) (if doy =? 365 then 0 else 1) /\ year_day (month_of doy) (day_of doy) = doy /\
  (month_of doy <=? 2) = (306 <=? doy).
Proof.
  intros H. assert (Hc : year_day_ok doy = true) by (apply (all_below_spec 366 year_day_ok 0); [by vm_compute|lia]).
  unfold year_day_ok in Hc. rewrite !andb_true_iff, !Z.leb_le, Z.eqb_eq, Bool.eqb_true_iff in Hc. tauto.
Qed.

Lemma spread_mono a b : a <= b -> spread a <= spread b.
Proof. unfold spread. intros H. Z.to_euclidean_division_equations. lia. Qed.

Lemma spread_year a b : a <= b -> spread a / 365 <= spread b / 365.
Proof. intros H. apply Z.div_le_mono; [lia|]. by apply spread_mono. Qed.

Lemma year_of_day doe : 0 <= doe < 146097 ->
  0 <= spread doe / 365 < 400 /\ year_start (spread doe / 365) <= doe < year_start (spread doe / 365 + 1).
Proof.
  intros H. pose proof (spread_year 0 doe ltac:(lia)) as Hlo. pose proof (spread_year doe 146096 ltac:(lia)) as Hhi.
  change (spread 0 / 365) with 0 in Hlo. change (spread 146096 / 365) with 399 in Hhi.
  remember (spread doe / 365) as y eqn:Ey. split; [lia|]. split; apply Z.nlt_ge || apply Z.nle_gt; intros Hn.
  - assert (Hy : 0 < y) by (destruct (decide (y = 0)) as [->|]; [change (year_start 0) with 0 in Hn|]; lia).
    destruct (era_years (y - 1) ltac:(lia)) as (_ & He & _). replace (y - 1 + 1) with y in He by lia.
    pose proof (spread_year doe (year_start y - 1) ltac:(lia)). lia.
  - assert (Hy : y < 399) by (destruct (decide (y = 399)) as [->|]; [change (year_start (399 + 1)) with 146097 in Hn|]; lia).
    destruct (era_years (y + 1) ltac:(lia)) as (He & _).
    pose proof (spread_year (year_start (y + 1)) doe ltac:(lia)). lia.
Qed.

Lemma is_leap_era y era : is_leap (y + era * 400) = is_leap y.
Proof.
  unfold is_leap.
  replace ((y + era * 400) mod 4) with (y mod 4) by (Z.to_euclidean_division_equations; lia).
  replace ((y + era * 400) mod 100) with (y mod 100) by (Z.to_euclidean_division_equations; lia).
  by rewrite Z.mod_add.
Qed.

(** A date taken from a day is a date of the calendar, gives the day back, and
    lies in the years 0 to 9999 exactly for the days of those years. *)
Lemma civil_correct z : let '(y, m, d) := civil_of_days z in
  1 <= m <= 12 /\ 1 <= d <= days_in m y /\ days_of_civil y m d = z /\
  (days_of_civil 0 1 1 <= z < days_of_civil 10000 1 1 -> 0 <= y <= 9999).
Proof.
  unfold civil_of_days. set (era := (z + 719468) / 146097). set (doe := (z + 719468) mod 146097).
  assert (Hz : z = era * 146097 + doe - 719468) by (unfold era, doe; Z.to_euclidean_division_equations; lia).
  assert (Hdoe : 0 <= doe < 146097) by (apply Z.mod_pos_bound; lia). clearbody era doe.
  change (doe - doe / 1460 + doe / 36524 - doe / 146096) with (spread doe).
  destruct (year_of_day doe Hdoe) as (Hy & Hstart & Hend). set (yoe := spread doe / 365) in *. clearbody yoe.
  destruct (era_years yoe Hy) as (_ & _ & Hlen & Hy400).
  set (doy := doe - (365 * yoe + yoe / 4 - yoe / 100)).
  assert (Hdoy : doy = doe - year_start yoe) by (unfold doy, year_start; lia).
  assert (Hr : 0 <= doy <= 365) by (destruct (is_leap (yoe + 1)); lia).
  destruct (year_days doy Hr) as (Hm & Hd & Hin & Hinv & Hlate).
  fold (month_of doy) (day_of doy). set (m := month_of doy) in *. set (d := day_of doy) in *. clearbody m d.
  split; [done|]. split; [split; [done|]|split].
  - revert Hin. unfold days_in. destruct (Z.eqb_spec m 2) as [->|_]; [|done]. cbn [Z.leb Z.compare] in Hlate |- *.
    replace (yoe + era * 400 + (if 2 <=? 2 then 1 else 0)) with (yoe + 1 + era * 400) by (cbn; lia). rewrite is_leap_era.
    destruct (Z.eqb_spec doy 365) as [E|_]; [change (is_leap 0) with true|change (is_leap 1) with false];
      destruct (is_leap (yoe + 1)); lia.
  - unfold days_of_civil. fold (year_day m d). rewrite Hinv.
    replace (if m <=? 2 then yoe + era * 400 + (if m <=? 2 then 1 else 0) - 1 else yoe + era * 400 + (if m <=? 2 then 1 else 0))
      with (yoe + era * 400) by (destruct (m <=? 2); lia).
    rewrite Z.div_add, Z.mod_add, Hy400, Z.mod_small by lia. rewrite Hz, Hdoy. unfold year_start. lia.
  - intros Hrange. change (days_of_civil 0 1 1) with (-719528) in Hrange. change (days_of_civil 10000 1 1) with 2932897 in Hrange.
    assert (Hcap : yoe <= 398 -> doe < 145731).
    { intros Hle. assert (year_start (yoe + 1) <= 145731); [|lia]. clear -Hle Hy. unfold year_start.
      Z.to_euclidean_division_equations. lia. }
    assert (Hlast : yoe = 399 -> doy = doe - 145731) by (intros ->; exact Hdoy).
    assert (era = -1 \/ 0 <= era <= 23 \/ era = 24) by lia.
    rewrite Hlate. destruct (Z.leb_spec 306 doy) as [Hl|Hl]; lia.
Qed.

(** ** Reading back a time *)

Lemma number_of_snoc l c : number_of (l ++ [c]) = number_of l * 10 + dig c.
Proof. unfold number_of. by rewrite foldl_app. Qed.
Lemma number_of_app a b : number_of (a ++ b) = number_of a * 10 ^ Z.of_nat (length b) + number_of b.
Proof.
  induction b as [|c b IH] using rev_ind.
  - rewrite app_nil_r. cbn. lia.
  - rewrite app_assoc, !number_of_snoc, IH, length_app, Nat2Z.inj_add, Z.pow_add_r by lia.
    change (10 ^ Z.of_nat (length [c])) with 10. lia.
Qed.
Lemma dig_bound c : is_digit c = true -> 0 <= dig c <= 9.
Proof. unfold is_digit, dig. rewrite andb_true_iff, !N.leb_le. lia. Qed.
Lemma number_of_bound l : digit_list l -> 0 <= number_of l < 10 ^ Z.of_nat (length l).
Proof.
  induction l as [|c l IH] using rev_ind; [done|]. intros [Hl Hc]%Forall_app. apply Forall_cons in Hc as [Hc _].
  specialize (IH Hl). apply dig_bound in Hc. rewrite number_of_snoc, length_app, Nat2Z.inj_add, Z.pow_add_r by lia.
  change (10 ^ Z.of_nat (length [c])) with 10. lia.
Qed.
Lemma number_of_zeros k l : number_of (repeat 48%N k ++ l) = number_of l.
Proof.
  rewrite number_of_app. assert (number_of (repeat 48%N k) = 0) as ->; [|lia].
  induction k as [|k IH]; [done|]. cbn [repeat]. by rewrite repeat_cons, number_of_snoc, IH.
Qed.
Lemma zeros_digits k : digit_list (repeat 48%N k).
Proof. induction k; by constructor. Qed.

Lemma concat_zeros k : bytes_of (String.concat "" (replicate k "0")) = repeat 48%N k.
Proof.
  destruct k as [|k]; [done|]. cbn [replicate repeat]. induction k as [|k IH]; [done|]. cbn [replicate repeat].
  change (String.concat "" ("0" :: "0" :: replicate k "0")) with ("0" +:+ "" +:+ String.concat "" ("0" :: replicate k "0")).
  rewrite !bytes_of_app, IH. done.
Qed.

Lemma pad_digits w n : (0 < w)%nat -> 0 <= n < 10 ^ Z.of_nat w ->
  length (bytes_of (pad w n)) = w /\ digit_list (bytes_of (pad w n)) /\ number_of (bytes_of (pad w n)) = n.
Proof.
  intros Hw Hn. unfold pad. rewrite bytes_of_app, concat_zeros, <- (length_bytes (pretty n)).
  destruct (pretty_Z_digits n) as (sign & d & ds & -> & Hall & Hz & Hsign & Hv).
  destruct Hsign as [[-> _]|[_ Hneg]]; [|lia]. cbn [app]. rewrite Z.abs_eq in Hv by lia. fold (number_of (d :: ds)) in Hv.
  assert (Hlen : (length (d :: ds) <= w)%nat).
  { destruct Hz as [Hz| ->]; [|cbn; lia]. apply Forall_cons in Hall as [Hd Hds].
    assert (Hlow : 10 ^ Z.of_nat (length ds) <= n).
    { rewrite <- Hv. change (d :: ds) with ([d] ++ ds). rewrite number_of_app. pose proof (number_of_bound ds Hds).
      change (number_of [d]) with (0 * 10 + dig d). assert (1 <= dig d); [|nia].
      revert Hd. unfold is_digit, dig. rewrite andb_true_iff, !N.leb_le. lia. }
    cbn [length]. apply Nat2Z.inj_le. assert (Z.of_nat (length ds) < Z.of_nat w); [|lia].
    apply (Z.pow_lt_mono_r_iff 10); lia. }
  rewrite length_app, repeat_length. split; [lia|]. split; [|by rewrite number_of_zeros].
  apply Forall_app. split; [apply zeros_digits|done].
Qed.

Lemma list_two {A} (l : list A) : length l = 2%nat -> exists a b, l = [a; b].
Proof. destruct l as [|a [|b [|c l]]]; try done. eauto. Qed.

Lemma getnum_pad fixed n rest : 0 <= n < 100 -> getnum fixed (bytes_of (pad 2 n) ++ rest) = Some (n, rest).
Proof.
  intros Hn. destruct (pad_digits 2 n ltac:(lia) Hn) as (Hl & Hd & Hv). apply list_two in Hl as (a & b & E). rewrite E in *.
  apply Forall_cons in Hd as [Ha Hd]. apply Forall_cons in Hd as [Hb _]. cbn. rewrite Ha, Hb.
  change (number_of [a; b]) with ((0 * 10 + dig a) * 10 + dig b) in Hv. do 2 f_equal. lia.
Qed.
Lemma getnum_in_pad fixed lo hi n rest : lo <= n <= hi -> 0 <= n < 100 ->
  getnum_in fixed lo hi (bytes_of (pad 2 n) ++ rest) = Some (n, rest).
Proof.
  intros Hr Hn. unfold getnum_in. rewrite getnum_pad by done. cbn [mbind option_bind fst].
  assert ((lo <=? n) && (n <=? hi) = true) as ->; [|done]. rewrite andb_true_iff, !Z.leb_le. lia.
Qed.
Lemma getyear_pad n rest : 0 <= n < 10000 -> getyear (bytes_of (pad 4 n) ++ rest) = Some (n, rest).
Proof.
  intros Hn. destruct (pad_digits 4 n ltac:(lia) Hn) as (Hl & Hd & Hv).
  destruct (bytes_of (pad 4 n)) as [|a [|b [|c [|d [|e l]]]]]; try done.
  do 4 (apply Forall_cons in Hd as [? Hd]). cbn [app getyear]. repeat match goal with H : is_digit _ = true |- _ => rewrite H; clear H end.
  cbn [andb]. change (number_of [a; b; c; d]) with ((((0 * 10 + dig a) * 10 + dig b) * 10 + dig c) * 10 + dig d) in Hv. do 2 f_equal. lia.
Qed.

(** The digits kept of a fraction and the zeros trimmed from it. *)
Lemma trim_zeros_spec (l : list Ascii.ascii) : exists k, l = repeat (Ascii.ascii_of_N 48) k ++ trim_zeros_rev l.
Proof.
  induction l as [|c l [k IH]]; [by exists 0%nat|]. cbn. case_bool_decide as Hc; [|by exists 0%nat].
  exists (S k). rewrite Hc.
  exact (f_equal (cons _) IH).
Qed.

Lemma fraction_format ns rest : 0 <= ns < second -> (match rest with c :: _ => is_digit c = false | [] => True end) ->
  (match rest with c :: _ => c <> 46%N /\ c <> 44%N | [] => True end) ->
  let frac := rev (trim_zeros_rev (rev (String.list_ascii_of_string (pad 9 ns)))) in
  fraction (bytes_of (if bool_decide (ns = 0) then "" else "." +:+ String.string_of_list_ascii frac) ++ rest) = (ns, rest).
Proof.
  intros Hns Hrest Hsep frac. case_bool_decide as H0.
  { subst ns. cbn [bytes_of app]. destruct rest as [|c rest]; [done|]. destruct Hsep as [H1 H2]. cbn.
    apply N.eqb_neq in H1, H2. by rewrite H1, H2. }
  destruct (pad_digits 9 ns ltac:(lia) Hns) as (Hl & Hd & Hv).
  assert (Hfrac : exists k, bytes_of (pad 9 ns) = (Ascii.N_of_ascii <$> frac) ++ repeat 48%N k).
  { destruct (trim_zeros_spec (rev (String.list_ascii_of_string (pad 9 ns)))) as [k Hk]. exists k.
    apply (f_equal (@rev _)) in Hk. rewrite rev_involutive, rev_app_distr in Hk. fold frac in Hk.
    unfold bytes_of. rewrite Hk, fmap_app. f_equal.
    assert (Hrev : forall j, rev (repeat (Ascii.ascii_of_N 48) j) = repeat (Ascii.ascii_of_N 48) j).
    { induction j as [|j IHj]; [done|]. cbn [repeat rev]. rewrite IHj. by rewrite <- repeat_cons. }
    rewrite Hrev. clear. induction k as [|k IH]; [done|]. exact (f_equal (cons 48%N) IH). }
  destruct Hfrac as [k Hk]. rewrite bytes_of_app. 
  assert (Hb : bytes_of (String.string_of_list_ascii frac) = Ascii.N_of_ascii <$> frac)
    by (unfold bytes_of; by rewrite String.list_ascii_of_string_of_list_ascii).
  rewrite Hb, Hk in *. set (ds := Ascii.N_of_ascii <$> frac) in *. clearbody ds. clear Hb frac Hk.
  rewrite length_app, repeat_length in Hl. apply Forall_app in Hd as [Hd _].
  rewrite number_of_app, repeat_length in Hv.
  assert (Hz : number_of (repeat 48%N k) = 0) by (rewrite <- (app_nil_r (repeat 48%N k)); by rewrite number_of_zeros).
  rewrite Hz in Hv. change (bytes_of ".") with [46%N]. cbn [app fraction]. change ((46 =? 46) || (46 =? 44))%N with true. cbn iota.
  assert (Htake : take_digits (ds ++ rest) = (ds, rest)).
  { clear -Hd Hrest. induction Hd as [|c ds Hc _ IH]; cbn [app take_digits].
    - destruct rest as [|c r]; [done|]. cbn. by rewrite Hrest.
    - by rewrite Hc, IH. }
  rewrite Htake. destruct ds as [|d ds]; [cbn in Hv; lia|]. unfold nanoseconds. rewrite firstn_all2 by lia.
  f_equal. rewrite <- Hv. replace (9 - Z.of_nat (length (d :: ds))) with (Z.of_nat k) by lia. lia.
Qed.

Lemma hms s : s / 3600 * 3600 + s mod 3600 / 60 * 60 + s mod 60 = s.
Proof. Z.to_euclidean_division_equations. lia. Qed.
Lemma day_split t : t mod day = t mod day / second * second + t mod second.
Proof.
  change day with (second * 86400). rewrite Z.rem_mul_r by done. rewrite (Z.mul_comm second), Z.div_add by done.
  rewrite (Z.div_small (t mod second)); [lia|]. by apply Z.mod_pos_bound.
Qed.

(** The wire form of a time in the years 0 to 9999 is read as that time. *)
Lemma rfc3339nano_parses t : valid_time t -> parse_rfc3339 (rfc3339nano t) = Some t.
Proof.
  unfold valid_time, rfc3339nano. intros Ht.
  pose proof (civil_correct (t / day)) as Hc. destruct (civil_of_days (t / day)) as [[y m] d].
  destruct Hc as (Hm & Hd & Hdays & Hyear).
  assert (Hy : 0 <= y <= 9999).
  { apply Hyear. change (days_of_civil 0 1 1) with (-719528) in *. change (days_of_civil 10000 1 1) with 2932897 in *.
    unfold day, hour, minute, second in *. Z.to_euclidean_division_equations. lia. }
  assert (Hdin : days_in m y <= 31) by (unfold days_in; repeat case_match; lia).
  set (s := t mod day / second). set (ns := t mod second).
  assert (Hs : 0 <= s < 86400) by (subst s; unfold day, hour, minute, second; Z.to_euclidean_division_equations; lia).
  assert (Hns : 0 <= ns < second) by (apply Z.mod_pos_bound; unfold second; lia).
  assert (Hh : 0 <= s / 3600 < 24) by (Z.to_euclidean_division_equations; lia).
  assert (Hmi : 0 <= s mod 3600 / 60 < 60) by (Z.to_euclidean_division_equations; lia).
  assert (Hse : 0 <= s mod 60 < 60) by (apply Z.mod_pos_bound; lia).
  cbv zeta. unfold parse_rfc3339. rewrite !bytes_of_app.
  rewrite getyear_pad by lia. cbn [mbind option_bind fst snd].
  change (bytes_of "-") with [45%N]. change (bytes_of "T") with [84%N]. change (bytes_of ":") with [58%N]. change (bytes_of "Z") with [90%N].
  cbn [app skip N.eqb Pos.eqb mbind option_bind fst snd].
  rewrite getnum_in_pad by lia. cbn [app skip N.eqb Pos.eqb mbind option_bind fst snd].
  rewrite getnum_pad by lia. cbn [app skip N.eqb Pos.eqb mbind option_bind fst snd].
  rewrite getnum_in_pad by lia. cbn [app skip N.eqb Pos.eqb mbind option_bind fst snd].
  rewrite getnum_in_pad by lia. cbn [app skip N.eqb Pos.eqb mbind option_bind fst snd].
  rewrite getnum_in_pad by lia. cbn [app skip N.eqb Pos.eqb mbind option_bind fst snd].
  rewrite fraction_format by done. cbn [zone N.eqb Pos.eqb fst snd mbind option_bind].
  rewrite bool_decide_eq_true_2 by done. cbn [negb orb].
  assert ((d <? 1) || (days_in m y <? d) = false) as -> by (rewrite orb_false_iff, !Z.ltb_ge; lia).
  f_equal. rewrite Hdays. pose proof (hms s) as Hhms. pose proof (day_split t) as Ht'. fold s ns in Ht'.
  pose proof (Z.div_mod t day ltac:(done)). lia.
Qed.
