(* ===== verification/JsonRoundtrip.v ===== *)
(** * JsonRoundtrip: a written value is read back

    The texts of [Json.json_encode] are read by [JsonText.parse_json] as the
    values they were written from ([json_text_roundtrip]). *)

From S2P Require Import Prelude Text Json JsonText TimeText.
From stdpp Require Import pretty.
Open Scope string_scope.
Open Scope list_scope.
Open Scope Z_scope.

(** ** Reading back a value *)

Lemma json_ind' (P : json -> Prop) :
  P JNull -> (forall b, P (JBool b)) -> (forall z, P (JNum z)) -> (forall s, P (JStr s)) -> (forall t, P (JTime t)) ->
  (forall l, Forall P l -> P (JArr l)) -> (forall l, Forall (fun p => P p.2) l -> P (JObj l)) -> forall j, P j.
Proof.
  intros Hn Hb Hz Hs Ht Ha Ho. fix go 1. intros [|b|z|s|t|l|l]; [done|apply Hb|apply Hz|apply Hs|apply Ht|apply Ha|apply Ho].
  - induction l as [|j l IH]; constructor; [apply go|exact IH].
  - induction l as [|p l IH]; constructor; [apply go|exact IH].
Qed.

(** The text a value is written as. *)
Fixpoint text_of (j : json) : jtext :=
  match j with
  | JNull => TNull
  | JBool b => TBool b
  | JNum z => TNum (pretty z)
  | JStr s => TStr s
  | JTime t => TStr (rfc3339nano t)
  | JArr l => TArr (List.map text_of l)
  | JObj l => TObj (List.map (fun p => (p.1, text_of p.2)) l)
  end.

Fixpoint nesting (j : json) : nat :=
  match j with
  | JArr l => S (foldr Nat.max 0%nat (List.map nesting l))
  | JObj l => S (foldr Nat.max 0%nat (List.map (fun p => nesting p.2) l))
  | _ => 0%nat
  end.

(** Every string of a value is UTF-8. *)
Fixpoint json_utf8 (j : json) : bool :=
  match j with
  | JStr s => utf8_valid s
  | JArr l => forallb json_utf8 l
  | JObj l => forallb (fun p => utf8_valid p.1 && json_utf8 p.2) l
  | _ => true
  end.

Lemma of_bytes_app a b : of_bytes (a ++ b) = of_bytes a +:+ of_bytes b.
Proof. unfold of_bytes. rewrite fmap_app. induction a as [|x a IH]; [done|]. cbn. by rewrite IH. Qed.

(** The characters of a time: all ASCII, none escaped. *)
Definition plain (c : N) : bool :=
  ((32 <=? c) && (c <? 128) && negb (c =? 34) && negb (c =? 92) && negb (c =? 60) && negb (c =? 62) && negb (c =? 38))%N.
Lemma escape_plain l : Forall (fun c => plain c = true) l -> escape_bytes l = of_bytes l.
Proof.
  induction 1 as [|a l Ha Hl IH]; [done|]. 
  assert (Hone : escape_byte a +:+ escape_bytes l = of_bytes (a :: l)).
  { change (a :: l) with ([a] ++ l). rewrite of_bytes_app, IH. f_equal. unfold plain in Ha.
    rewrite !andb_true_iff, !negb_true_iff, N.leb_le, N.ltb_lt, !N.eqb_neq in Ha. unfold escape_byte.
    repeat (case_match; [rewrite ?orb_true_iff, ?N.eqb_eq, ?N.ltb_lt in *; lia|]). done. }
  destruct l as [|b [|c l]]; [exact Hone..|]. cbn [escape_bytes].
  assert (H226 : (a =? 226)%N = false).
  { unfold plain in Ha. rewrite !andb_true_iff, N.leb_le, N.ltb_lt in Ha. apply N.eqb_neq. lia. }
  rewrite H226. exact Hone.
Qed.

Lemma list_ascii_bytes s : String.list_ascii_of_string s = Ascii.ascii_of_N <$> bytes_of s.
Proof.
  unfold bytes_of. rewrite <- list_fmap_compose. rewrite (list_fmap_ext _ id); [by rewrite list_fmap_id|].
  intros i a _. cbn. apply Ascii.ascii_N_embedding.
Qed.

Lemma digits_plain l : digit_list l -> Forall (fun c => plain c = true) l.
Proof.
  intros H. apply (Forall_impl _ _ _ H). intros c Hc. unfold is_digit in Hc. unfold plain. rewrite andb_true_iff, !N.leb_le in Hc.
  rewrite !andb_true_iff, !negb_true_iff, N.leb_le, N.ltb_lt, !N.eqb_neq. lia.
Qed.

Lemma pad_plain w (n : Z) : Forall (fun c => plain c = true) (bytes_of (pad w n)).
Proof.
  unfold pad. rewrite bytes_of_app, concat_zeros. apply Forall_app. split; [apply digits_plain, zeros_digits|].
  destruct (pretty_Z_digits n) as (sign & d & ds & -> & Hall & _ & [[-> _]|[-> _]] & _); [by apply digits_plain|].
  constructor; [done|]. by apply digits_plain.
Qed.

Lemma trim_zeros_incl l : forall c, c ∈ trim_zeros_rev l -> c ∈ l.
Proof.
  induction l as [|a l IH]; cbn; [done|]. intros c. case_bool_decide; [|done]. intros Hc. apply elem_of_cons. right. by apply IH.
Qed.

Lemma rfc3339nano_plain t : Forall (fun c => plain c = true) (bytes_of (rfc3339nano t)).
Proof.
  unfold rfc3339nano. destruct (civil_of_days (t / day)) as [[y m] d]. cbv zeta. rewrite !bytes_of_app.
  repeat (apply Forall_app; split); try apply pad_plain; try (by repeat constructor).
  case_bool_decide; [constructor|]. rewrite bytes_of_app. constructor; [done|].
  unfold bytes_of. rewrite String.list_ascii_of_string_of_list_ascii. apply Forall_fmap, Forall_forall. intros c Hc.
  apply list_elem_of_In, in_rev, list_elem_of_In, trim_zeros_incl, list_elem_of_In, in_rev, list_elem_of_In in Hc.
  pose proof (pad_plain 9 (t mod second)) as Hp. unfold bytes_of in Hp. rewrite Forall_fmap, Forall_forall in Hp. by apply Hp.
Qed.

Lemma rfc3339nano_string t : encode_string (rfc3339nano t) = quote +:+ rfc3339nano t +:+ quote.
Proof.
  unfold encode_string. rewrite escape_plain by apply rfc3339nano_plain. by rewrite of_bytes_of.
Qed.
Lemma rfc3339nano_utf8 t : utf8_valid (rfc3339nano t) = true.
Proof.
  apply ascii_utf8. unfold ascii_only. apply forallb_forall. intros b Hb%list_elem_of_In.
  pose proof (proj1 (Forall_forall _ _) (rfc3339nano_plain t) b Hb) as Hp.
  unfold plain in Hp. rewrite !andb_true_iff in Hp. tauto.
Qed.

(** ** Values and sequences *)

(** The bytes of a value, and of values with commas between them. *)
Definition enc (j : json) : list N := bytes_of (json_encode j).
Fixpoint commas (l : list (list N)) : list N :=
  match l with
  | [] => []
  | [x] => x
  | x :: rest => x ++ 44%N :: commas rest
  end.
Lemma concat_commas l : bytes_of (String.concat "," l) = commas (List.map bytes_of l).
Proof.
  induction l as [|x l IH]; [done|]. destruct l as [|y l]; [done|].
  change (String.concat "," (x :: y :: l)) with (x +:+ "," +:+ String.concat "," (y :: l)).
  rewrite !bytes_of_app, IH. done.
Qed.

(** The first byte of what is written: no white space and no closing bracket. *)
Definition starts (l : list N) : Prop :=
  match l with c :: _ => json_space c = false /\ c <> 93%N /\ c <> 125%N | [] => False end.

Lemma skip_starts l rest : starts l -> skip_space (l ++ rest) = l ++ rest.
Proof. destruct l as [|c l]; [done|]. intros [H _]. cbn. by rewrite H. Qed.
Lemma closes_starts close l rest : (close = 93 \/ close = 125)%N -> starts l -> closes close (l ++ rest) = None.
Proof.
  intros Hc Hl. unfold closes. rewrite skip_starts by done. destruct l as [|c l]; [done|]. destruct Hl as (_ & H1 & H2).
  cbn. destruct (N.eqb_spec c close); [lia|done].
Qed.

(** What may follow a value: the end, a comma or a closing bracket. *)
Definition delimited (l : list N) : Prop :=
  match l with c :: _ => (c = 44 \/ c = 93 \/ c = 125)%N | [] => True end.
Lemma delimited_ends l : delimited l -> ends_number l.
Proof. destruct l as [|c l]; [done|]. cbn. intros [-> | [-> | ->]]; done. Qed.

Lemma commas_length l : (forall x, x ∈ l -> starts x) -> (length l <= length (commas l))%nat.
Proof.
  induction l as [|x l IH]; intros H; [done|]. assert (Hx : (1 <= length x)%nat).
  { specialize (H x ltac:(apply elem_of_cons; by left)). destruct x; [done|]. cbn. lia. }
  destruct l as [|y l]; [cbn; lia|].
  change (commas (x :: y :: l)) with (x ++ 44%N :: commas (y :: l)). rewrite length_app. cbn [length].
  specialize (IH ltac:(intros z Hz; apply H, elem_of_cons; by right)). cbn [length] in IH. lia.
Qed.

(** The items of a written sequence are read. *)
Lemma items_written {A B} (item : list N -> option (B * list N)) (close : N) (w : A -> list N) (f : A -> B) (l : list A) rest :
  (close = 93 \/ close = 125)%N ->
  (forall a r, a ∈ l -> delimited r -> item (w a ++ r) = Some (f a, r)) ->
  forall fuel, (length l <= fuel)%nat -> l <> [] ->
  items item close fuel (commas (List.map w l) ++ close :: rest) = Some (List.map f l, rest).
Proof.
  intros Hclose. induction l as [|a l IH]; intros Hitem fuel Hfuel Hne; [done|]. cbn [length] in Hfuel.
  destruct fuel as [|fuel]; [lia|]. cbn [items]. destruct l as [|b l].
  - cbn [List.map commas]. rewrite Hitem by (by (apply elem_of_cons; left) || (cbn; tauto)). cbn [mbind option_bind fst snd].
    assert (Hsp : skip_space (close :: rest) = close :: rest) by (destruct Hclose as [-> | ->]; done). rewrite Hsp.
    assert (Hcomma : (close =? 44)%N = false) by (destruct Hclose as [-> | ->]; done). by rewrite Hcomma, N.eqb_refl.
  - change (commas (List.map w (a :: b :: l))) with (w a ++ 44%N :: commas (List.map w (b :: l))).
    rewrite <- app_assoc, <- app_comm_cons, Hitem by (by (apply elem_of_cons; left) || (cbn; tauto)).
    cbn [mbind option_bind fst snd skip_space].
    change (json_space 44) with false. change (44 =? 44)%N with true. cbn iota.
    rewrite IH; [done| |cbn [length] in Hfuel |- *; lia|done]. intros x r Hx. apply Hitem. apply elem_of_cons. by right.
Qed.

Lemma sequence_written {A B} (item : list N -> option (B * list N)) (close : N) (w : A -> list N) (f : A -> B) (l : list A) rest :
  (close = 93 \/ close = 125)%N -> (forall a, a ∈ l -> starts (w a)) ->
  (forall a r, a ∈ l -> delimited r -> item (w a ++ r) = Some (f a, r)) ->
  sequence item close (commas (List.map w l) ++ close :: rest) = Some (List.map f l, rest).
Proof.
  intros Hclose Hstarts Hitem. unfold sequence.
  destruct l as [|a l].
  - assert (closes close (commas (List.map w []) ++ close :: rest) = Some rest) as ->; [|done].
    unfold closes. destruct Hclose as [-> | ->]; done.
  - assert (Hs : starts (commas (List.map w (a :: l)))).
    { specialize (Hstarts a ltac:(apply elem_of_cons; by left)). destruct l as [|b l]; [exact Hstarts|]. cbn [List.map commas].
      destruct (w a); [done|exact Hstarts]. }
    rewrite closes_starts by done. apply items_written; [done|done| |done].
    assert (Hlen : (length (List.map w (a :: l)) <= length (commas (List.map w (a :: l))))%nat).
    { apply commas_length. intros x Hx. apply list_elem_of_In, in_map_iff in Hx as (b & <- & Hb). apply Hstarts.
      by apply list_elem_of_In. }
    rewrite List.length_map in Hlen. rewrite length_app. lia.
Qed.

(** A written value does not start with white space or a closing bracket. *)
Lemma enc_starts j : starts (enc j).
Proof.
  destruct j as [|[]|z|s|t|l|l]; try (by repeat split); unfold enc; cbn [json_encode].
  destruct (pretty_Z_digits z) as (sign & d & ds & -> & Hall & _ & [[-> _]|[-> _]] & _); [|by repeat split].
  apply Forall_cons in Hall as [Hd _]. unfold is_digit in Hd. rewrite andb_true_iff, !N.leb_le in Hd. cbn.
  unfold json_space. rewrite !orb_false_iff, !N.eqb_neq. lia.
Qed.

Lemma parse_string_written s rest : utf8_valid s = true ->
  exists l, bytes_of (encode_string s) = 34%N :: l /\ parse_string (l ++ rest) = Some (s, rest).
Proof.
  intros Hs. exists (bytes_of (escape_bytes (bytes_of s)) ++ [34%N]). unfold encode_string. rewrite !bytes_of_app.
  split; [done|]. rewrite <- app_assoc. by apply parse_string_escape.
Qed.

(** The nesting of the parts of a value. *)
Lemma foldr_max_elem {A} (f : A -> nat) l a : a ∈ l -> (f a <= foldr Nat.max 0 (List.map f l))%nat.
Proof. induction l as [|b l IH]; intros Ha; [by apply elem_of_nil in Ha|]. apply elem_of_cons in Ha as [->|Ha]; cbn; [lia|]. specialize (IH Ha). lia. Qed.

Definition reads_back (j : json) : Prop := forall depth rest,
  json_utf8 j = true -> (nesting j <= depth)%nat -> delimited rest -> parse_value depth (enc j ++ rest) = Some (text_of j, rest).

Lemma reads_back_string s depth rest : utf8_valid s = true ->
  parse_value depth (bytes_of (encode_string s) ++ rest) = Some (TStr s, rest).
Proof.
  intros Hs. destruct (parse_string_written s rest Hs) as (l & -> & Hp). cbn [app]. destruct depth; cbn; by rewrite Hp.
Qed.

Lemma parse_array depth l : parse_value (S depth) (91%N :: l) = (p ← sequence (parse_value depth) 93 l; Some (TArr p.1, p.2)).
Proof. done. Qed.
Lemma parse_object depth l :
  parse_value (S depth) (123%N :: l) = (p ← sequence (member (parse_value depth)) 125 l; Some (TObj p.1, p.2)).
Proof. done. Qed.

Lemma reads_back_array l : Forall reads_back l -> reads_back (JArr l).
Proof.
  intros Hl depth rest Hu Hd _. cbn [nesting] in Hd. destruct depth as [|depth]; [lia|].
  assert (He : enc (JArr l) ++ rest = 91%N :: commas (List.map enc l) ++ 93%N :: rest).
  { unfold enc at 1. cbn [json_encode]. rewrite !bytes_of_app, concat_commas, List.map_map, <- !app_assoc. done. }
  rewrite He, parse_array.
  rewrite (sequence_written _ 93 enc text_of); [done|by left|intros a _; apply enc_starts|].
  intros a r Ha Hr. rewrite Forall_forall in Hl. apply Hl; [done| | |done].
  - cbn in Hu. rewrite forallb_forall in Hu. apply Hu. by apply list_elem_of_In.
  - pose proof (foldr_max_elem nesting l a Ha). lia.
Qed.

(** A written member: its name, a colon and its value. *)
Definition enc_member (p : string * json) : list N := bytes_of (encode_string p.1 +:+ ":" +:+ json_encode p.2).

Lemma reads_object l depth rest : Forall (fun p => reads_back p.2) l ->
  json_utf8 (JObj l) = true -> (nesting (JObj l) <= depth)%nat -> parse_value depth (enc (JObj l) ++ rest) = Some (text_of (JObj l), rest).
Proof.
  intros Hl Hu Hd. cbn [nesting] in Hd. destruct depth as [|depth]; [lia|].
  assert (He : enc (JObj l) ++ rest = 123%N :: commas (List.map enc_member l) ++ 125%N :: rest).
  { unfold enc. cbn [json_encode]. rewrite !bytes_of_app, concat_commas, List.map_map, <- !app_assoc. done. }
  rewrite He, parse_object.
  rewrite (sequence_written _ 125 enc_member (fun p => (p.1, text_of p.2))); [done|by right| |].
  - intros [k v] _. unfold enc_member. rewrite bytes_of_app. by repeat split.
  - intros [k v] r Ha Hr. rewrite Forall_forall in Hl. cbn in Hu. rewrite forallb_forall in Hu.
    assert (Hkv := Hu (k, v) ltac:(by apply list_elem_of_In)). cbn in Hkv. apply andb_true_iff in Hkv as [Hk Hv].
    unfold enc_member. cbn [fst snd]. rewrite !bytes_of_app, <- !app_assoc.
    destruct (parse_string_written k ((bytes_of ":" ++ enc v) ++ r) Hk) as (lk & Hlk & Hp). unfold enc in Hp. rewrite <- app_assoc in Hp.
    rewrite Hlk. unfold member. change (closes 34 ((34%N :: lk) ++ ?x)) with (Some (lk ++ x)). cbn [mbind option_bind].
    rewrite Hp. cbn [mbind option_bind fst snd].
    change (closes 58 (bytes_of ":" ++ ?x)) with (Some x). cbn [mbind option_bind].
    assert (Hback : parse_value depth (enc v ++ r) = Some (text_of v, r)).
    { apply (Hl (k, v) Ha); [done| |done]. pose proof (foldr_max_elem (fun p => nesting p.2) l (k, v) Ha). cbn in *. lia. }
    unfold enc in Hback. by rewrite Hback.
Qed.
Lemma reads_back_object l : Forall (fun p => reads_back p.2) l -> reads_back (JObj l).
Proof. intros Hl depth rest Hu Hd _. by apply reads_object. Qed.

Lemma reads_back_all j : reads_back j.
Proof.
  induction j as [|b|z|s|t|l IH|l IH] using json_ind'.
  - intros depth rest _ _ _. by destruct depth.
  - intros depth rest _ _ _. by destruct depth, b.
  - intros depth rest _ _ Hr. pose proof (parse_number_pretty z rest (delimited_ends _ Hr)) as Hp.
    pose proof (enc_starts (JNum z)) as Hs. unfold enc in *. cbn [json_encode] in *.
    destruct (pretty_Z_digits z) as (sign & d & ds & Hb & Hall & _ & Hsign & _). rewrite Hb in *.
    assert (Hc : exists c l, sign ++ d :: ds = c :: l /\ (c = 45 \/ is_digit c = true)%N).
    { apply Forall_cons in Hall as [Hd _]. destruct Hsign as [[-> _]|[-> _]]; [exists d, ds|exists 45%N, (d :: ds)]; split; auto. }
    destruct Hc as (c & l & Hcl & Hc). rewrite Hcl in *. cbn [app] in *. destruct Hs as (Hsp & _).
    assert (Hne : (c =? 34 = false /\ c =? 91 = false /\ c =? 123 = false /\ c =? 110 = false /\ c =? 116 = false /\ c =? 102 = false)%N).
    { rewrite !N.eqb_neq. destruct Hc as [->|Hc]; [lia|]. unfold is_digit in Hc. rewrite andb_true_iff, !N.leb_le in Hc. lia. }
    destruct Hne as (H1 & H2 & H3 & H4 & H5 & H6).
    destruct depth; cbn [parse_value skip_space]; rewrite Hsp, H1, H2, H3, H4, H5, H6, Hp; cbn [mbind option_bind fst snd text_of];
      by rewrite <- Hb, of_bytes_of.
  - intros depth rest Hu _ _. by apply reads_back_string.
  - intros depth rest _ _ _. unfold enc. cbn [json_encode text_of]. rewrite <- rfc3339nano_string.
    apply reads_back_string, rfc3339nano_utf8.
  - by apply reads_back_array.
  - by apply reads_back_object.
Qed.

(** An object ends at its bracket, whatever follows. *)
Lemma object_read l depth rest : json_utf8 (JObj l) = true -> (nesting (JObj l) <= depth)%nat ->
  parse_value depth (bytes_of (json_encode (JObj l)) ++ rest) = Some (text_of (JObj l), rest).
Proof. apply reads_object. rewrite Forall_forall. intros p _. apply reads_back_all. Qed.

(** Whatever value the program writes, its text is read as that value: strings
    with every escape and multi-byte character, integers, times, arrays and
    objects, up to the nesting the reader allows. *)
Lemma json_text_roundtrip (j : json) : json_utf8 j = true -> (nesting j <= max_nesting)%nat ->
  parse_json (json_encode j) = Some (text_of j).
Proof.
  intros Hu Hn. unfold parse_json. pose proof (reads_back_all j max_nesting [] Hu Hn I) as H.
  unfold enc in H. rewrite app_nil_r in H. by rewrite H.
Qed.

Lemma max_nesting_large n : (n <=? 50)%nat = true -> (n <= max_nesting)%nat.
Proof. intros H%Nat.leb_le. unfold max_nesting. lia. Qed.

(** Decoding what was written is decoding its members. *)
Lemma unmarshal_written {R} strict (fs : fields R) zero l : json_utf8 (JObj l) = true -> (nesting (JObj l) <= max_nesting)%nat ->
  unmarshal strict fs zero (json_encode (JObj l)) = decode_members strict fs (List.map (fun p => (p.1, text_of p.2)) l) zero.
Proof. intros Hu Hn. unfold unmarshal. by rewrite json_text_roundtrip. Qed.
