(* ===== verification/Http.v ===== *)
(** * Http: requests, responses and the query of a URL

    What the handlers of [internal/server] and [internal/authorizationhttp] read
    of a request and write to a response.  A header is its first value; a body
    that is JSON is the value written. *)

From S2P Require Import Prelude Text Json.
Open Scope string_scope.
Open Scope list_scope.
Open Scope Z_scope.

Inductive http_body :=
  | Json (j : json)
  | Text (s : string).
Record http_response := Response { rs_status : Z; rs_content_type : string; rs_no_store : bool; rs_body : http_body }.

(** A response of the API, with the headers set besides those of every one. *)
Record Reply := MkReply { rp_header : list (string * string); rp_response : http_response }.

(** [url.Values]. *)
Notation Values := (gmap string (list string)).
(** [Values.Get]. *)
Definition query_get (q : Values) (key : string) : string := default "" (q !! key ≫= head).

Record Request := MkRequest {
  rq_method : string; rq_path : string; rq_query : Values; rq_header : gmap string string;
  rq_body : string; rq_request_id : string
}.
Definition header (r : Request) (name : string) : string := default "" (rq_header r !! name).

(** ** [Values.Encode] *)

Definition unreserved (c : N) : bool :=
  ((97 <=? c) && (c <=? 122) || (65 <=? c) && (c <=? 90) || (48 <=? c) && (c <=? 57)
   || (c =? 45) || (c =? 95) || (c =? 46) || (c =? 126))%N.
Definition upper_hex (n : N) : N := (if n <? 10 then 48 + n else 55 + n)%N.
Definition unhex (c : N) : option N :=
  if ((48 <=? c) && (c <=? 57))%N then Some (c - 48)%N
  else if ((97 <=? c) && (c <=? 102))%N then Some (c - 87)%N
  else if ((65 <=? c) && (c <=? 70))%N then Some (c - 55)%N else None.
Definition escape_query_byte (c : N) : list N :=
  if unreserved c then [c] else if (c =? 32)%N then [43%N] else [37%N; upper_hex (c / 16); upper_hex (c mod 16)].
(** [url.QueryEscape]. *)
Definition QueryEscape (s : string) : string := of_bytes (List.concat (List.map escape_query_byte (bytes_of s))).
Definition values_encode (q : Values) : string :=
  String.concat "&" (List.concat (List.map (fun key =>
    List.map (fun v => QueryEscape key +:+ "=" +:+ QueryEscape v) (default [] (q !! key)))
    (sort_strings (List.map fst (map_to_list q))))).

Example values_encode_sorted : values_encode (<["b" := ["x y"; "/"]]> {["a" := ["1"]]}) = "a=1&b=x+y&b=%2F".
Proof. by vm_compute. Qed.

(** ** Writing (server.go, auth.go) *)

(** [http.StatusText] of the error statuses the program writes. *)
Definition StatusText (status : Z) : string :=
  if status =? 400 then "Bad Request" else if status =? 401 then "Unauthorized" else if status =? 403 then "Forbidden"
  else if status =? 404 then "Not Found" else if status =? 405 then "Method Not Allowed" else if status =? 409 then "Conflict"
  else if status =? 413 then "Request Entity Too Large" else if status =? 415 then "Unsupported Media Type"
  else if status =? 422 then "Unprocessable Entity" else if status =? 429 then "Too Many Requests"
  else if status =? 500 then "Internal Server Error" else if status =? 502 then "Bad Gateway"
  else if status =? 503 then "Service Unavailable" else if status =? 504 then "Gateway Timeout" else "".

Definition problem_json (status : Z) (code detail requestID : string) : json :=
  JObj [("type", JStr ("urn:card-issuer-api:error:" +:+ code)); ("title", JStr (StatusText status)); ("status", JNum status);
        ("code", JStr code); ("detail", JStr detail); ("request_id", JStr requestID)].
Definition problem_reply (headers : list (string * string)) (r : Request) (status : Z) (code detail : string) : Reply :=
  MkReply headers (Response status "application/problem+json" true (Json (problem_json status code detail (rq_request_id r)))).
Definition writeProblem (r : Request) (status : Z) (code detail : string) : Reply := problem_reply [] r status code detail.
Definition writeJSON (status : Z) (value : json) : Reply := MkReply [] (Response status "application/json" true (Json value)).
(** The status of a handler that returns without writing: [net/http] answers
    200 with an empty body. *)
Definition unwritten : Reply := MkReply [] (Response 200 "" false (Text "")).

Definition apiNotFound (r : Request) : Reply := writeProblem r 404 "not_found" "The requested API endpoint does not exist.".
Definition RequireMethods (r : Request) (methods : list string) : Reply :=
  problem_reply [("Allow", String.concat ", " methods)] r 405 "method_not_allowed"
    "The request method is not allowed for this endpoint.".
