(* ===== verification/Url.v ===== *)
(** * Url: parsing and writing URLs

    [url.Parse], [URL.String] and [url.UserPassword] of [net/url], as the
    configuration of the processes uses them.  A URL is its bytes.  How a host
    with brackets or with several colons is read differs between versions of Go:
    it is the parameter [odd_host], of the scheme and the host. *)

From S2P Require Import Prelude Text Base64 Http.
Open Scope string_scope.
Open Scope list_scope.
Open Scope N_scope.

(** ** Bytes *)

(** [strings.Cut] at the first [c], and at the last. *)
Fixpoint cut_first (c : N) (l : list N) : list N * option (list N) :=
  match l with
  | [] => ([], None)
  | x :: rest => if x =? c then ([], Some rest) else let (a, b) := cut_first c rest in (x :: a, b)
  end.
Definition cut_last (c : N) (l : list N) : option (list N * list N) :=
  match cut_first c (rev l) with (a, Some b) => Some (rev b, rev a) | (_, None) => None end.
Definition is_letter (c : N) : bool := ((97 <=? c) && (c <=? 122)) || ((65 <=? c) && (c <=? 90)).
Definition is_number (c : N) : bool := (48 <=? c) && (c <=? 57).
Definition among (s : string) (c : N) : bool := bool_decide (c ∈ bytes_of s).

(** ** Escapes *)

Inductive encoding := encodePath | encodeUserPassword | encodeHost | encodeFragment.
Definition shouldEscape (c : N) (mode : encoding) : bool :=
  if is_letter c || is_number c then false
  else if match mode with encodeHost => among "!$&'()*+,;=:[]<>" c || (c =? 34) | _ => false end then false
  else if among "-_.~" c then false
  else if among "$&+,/:;=?@" c then
    match mode with
    | encodePath => c =? 63
    | encodeUserPassword => among "@/?:" c
    | encodeFragment => false
    | encodeHost => true
    end
  else match mode with encodeFragment => negb (among "!()*" c) | _ => true end.
Definition escape_byte_for (mode : encoding) (c : N) : list N :=
  if shouldEscape c mode then [37; upper_hex (c / 16); upper_hex (c mod 16)] else [c].
Definition escape (mode : encoding) (s : string) : string := of_bytes (List.concat (List.map (escape_byte_for mode) (bytes_of s))).

(** In a host a percent escape stands for a byte outside ASCII or a percent sign. *)
Fixpoint unescape (mode : encoding) (l : list N) : option (list N) :=
  let host := match mode with encodeHost => true | _ => false end in
  match l with
  | [] => Some []
  | c :: rest =>
      if c =? 37 then
        match rest with
        | a :: b :: rest' =>
            x ← unhex a; y ← unhex b;
            if host && (x <? 8) && negb ((a =? 50) && (b =? 53)) then None else cons (x * 16 + y) <$> unescape mode rest'
        | _ => None
        end
      else if host && (c <? 128) && shouldEscape c mode then None
      else cons c <$> unescape mode rest
  end.
Definition unescape_string (mode : encoding) (l : list N) : option string := of_bytes <$> unescape mode l.

(** ** [url.Parse] *)

Record URL := MkURL {
  u_Scheme : string; u_Opaque : string; u_User : option (string * option string); u_Host : string; u_Path : string;
  u_ForceQuery : bool; u_RawQuery : string; u_Fragment : string
}.

Definition scheme_char (c : N) : bool := is_letter c || is_number c || among "+-." c.
Fixpoint span (p : N -> bool) (l : list N) : list N * list N :=
  match l with
  | c :: rest => if p c then let (a, b) := span p rest in (c :: a, b) else ([], l)
  | [] => ([], [])
  end.
(** [getScheme]; [None] is a missing scheme. *)
Definition getScheme (l : list N) : option (list N * list N) :=
  match l with
  | [] => Some ([], [])
  | c :: _ =>
      if c =? 58 then None
      else if negb (is_letter c) then Some ([], l)
      else match span scheme_char l with
      | (scheme, d :: rest) => if d =? 58 then Some (scheme, rest) else Some ([], l)
      | (_, []) => Some ([], l)
      end
  end.

Definition userinfo_char (c : N) : bool := is_letter c || is_number c || among "-._:~!$&'()*+,;=%@" c.
Definition validOptionalPort (l : list N) : bool :=
  match l with [] => true | c :: rest => (c =? 58) && forallb is_number rest end.
Definition starts_with (p : string) (l : list N) : bool := bool_decide (bytes_of p `prefix_of` l).

Section Parse.
Context (odd_host : string -> string -> option string).
Definition parseHost (scheme : string) (host : list N) : option string :=
  let colons := length (List.filter (fun c => c =? 58) host) in
  if existsb (fun c => (c =? 91) || (c =? 93)) host || (1 <? colons)%nat then odd_host scheme (of_bytes host)
  else match cut_first 58 host with
  | (_, Some port) => if validOptionalPort (58 :: port) then unescape_string encodeHost host else None
  | (_, None) => unescape_string encodeHost host
  end.
Definition parseUser (userinfo : list N) : option (string * option string) :=
  if negb (forallb userinfo_char userinfo) then None
  else match cut_first 58 userinfo with
  | (_, None) => u ← unescape_string encodeUserPassword userinfo; Some (u, None)
  | (username, Some password) =>
      u ← unescape_string encodeUserPassword username; p ← unescape_string encodeUserPassword password; Some (u, Some p)
  end.
Definition parseAuthority (scheme : string) (authority : list N) : option (option (string * option string) * string) :=
  match cut_last 64 authority with
  | None => host ← parseHost scheme authority; Some (None, host)
  | Some (userinfo, host) => host ← parseHost scheme host; user ← parseUser userinfo; Some (Some user, host)
  end.

(** [parse] of a URL without its fragment. *)
Definition parse_url (l : list N) : option URL :=
  if existsb (fun c => (c <? 32) || (c =? 127)) l then None
  else if bool_decide (l = bytes_of "*") then Some (MkURL "" "" None "" "*" false "" "")
  else
    sr ← getScheme l;
    let scheme := to_lower (of_bytes sr.1) in
    let '(rest, force, query) :=
      match cut_first 63 sr.2 with
      | (before, Some []) => (before, true, "")
      | (before, Some query) => (before, false, of_bytes query)
      | (_, None) => (sr.2, false, "")
      end in
    if negb (starts_with "/" rest) && (scheme != "") then Some (MkURL scheme (of_bytes rest) None "" "" force query "")
    else if negb (starts_with "/" rest) && existsb (fun c => c =? 58) (cut_first 47 rest).1 then None
    else
      if ((scheme != "") || negb (starts_with "///" rest)) && starts_with "//" rest then
        let '(authority, path) := match cut_first 47 (drop 2 rest) with (a, Some p) => (a, 47 :: p) | (a, None) => (a, []) end in
        uh ← parseAuthority scheme authority;
        path ← unescape_string encodePath path;
        Some (MkURL scheme "" uh.1 uh.2 path force query "")
      else path ← unescape_string encodePath rest; Some (MkURL scheme "" None "" path force query "").
Definition Parse (raw : string) : option URL :=
  let '(u, frag) := cut_first 35 (bytes_of raw) in
  url ← parse_url u;
  match frag with
  | None | Some [] => Some url
  | Some frag =>
      f ← unescape_string encodeFragment frag;
      Some (MkURL (u_Scheme url) (u_Opaque url) (u_User url) (u_Host url) (u_Path url) (u_ForceQuery url) (u_RawQuery url) f)
  end.
End Parse.

(** ** [URL.String] of a URL with a scheme and a host *)

Definition user_string (user : string * option string) : string :=
  escape encodeUserPassword user.1 +:+ match user.2 with Some p => ":" +:+ escape encodeUserPassword p | None => "" end.
Definition url_string (u : URL) : string :=
  u_Scheme u +:+ "://" +:+ match u_User u with Some user => user_string user +:+ "@" | None => "" end +:+
  escape encodeHost (u_Host u) +:+
  (if (u_Path u != "") && negb (String.prefix "/" (u_Path u)) then "/" else "") +:+ escape encodePath (u_Path u) +:+
  (if u_ForceQuery u || (u_RawQuery u != "") then "?" +:+ u_RawQuery u else "") +:+
  (if u_Fragment u == "" then "" else "#" +:+ escape encodeFragment (u_Fragment u)).

(** ** Lemmas *)

Lemma cut_first_app c a b : Forall (fun x => (x =? c) = false) a -> cut_first c (a ++ c :: b) = (a, Some b).
Proof. induction 1 as [|x a Hx _ IH]; cbn; [by rewrite N.eqb_refl|]. by rewrite Hx, IH. Qed.
Lemma cut_first_none c a : Forall (fun x => (x =? c) = false) a -> cut_first c a = (a, None).
Proof. induction 1 as [|x a Hx _ IH]; [done|]. cbn. by rewrite Hx, IH. Qed.
Lemma cut_last_app c a b : Forall (fun x => (x =? c) = false) b -> cut_last c (a ++ c :: b) = Some (a, b).
Proof.
  intros Hb. unfold cut_last. rewrite rev_app_distr. cbn [rev]. rewrite <- app_assoc. cbn [app].
  rewrite cut_first_app by by apply Forall_rev. by rewrite !rev_involutive.
Qed.

(** A check of every byte. *)
Lemma every_byte (P : N -> bool) : forallb P (List.map N.of_nat (seq 0 256)) = true -> forall c, c < 256 -> P c = true.
Proof. intros H. by apply (below_forall P 256). Qed.
Lemma bytes_bounded s : Forall (fun c => c < 256) (bytes_of s).
Proof. unfold bytes_of. apply Forall_fmap, Forall_forall. intros c _. apply Ascii.N_ascii_bounded. Qed.

Definition escaped_bytes (mode : encoding) (l : list N) : list N := List.concat (List.map (escape_byte_for mode) l).
(** What every escape of a byte satisfies, every escaped string does. *)
Lemma escaped_all (P : N -> bool) mode l : (forall c, c < 256 -> forallb P (escape_byte_for mode c) = true) ->
  Forall (fun c => c < 256) l -> Forall (fun c => P c = true) (escaped_bytes mode l).
Proof.
  intros H Hl. unfold escaped_bytes. induction Hl as [|c l Hc _ IH]; [constructor|]. cbn. apply Forall_app. split; [|done].
  apply Forall_forall. intros x Hx. specialize (H c Hc). rewrite forallb_forall in H. by apply H, list_elem_of_In.
Qed.
Lemma escape_bounded mode : forall c, c < 256 -> forallb (fun x => x <? 256) (escape_byte_for mode c) = true.
Proof. apply (every_byte (fun c => forallb (fun x => x <? 256) (escape_byte_for mode c))). by destruct mode; vm_compute. Qed.
Lemma bytes_of_escape mode s : bytes_of (escape mode s) = escaped_bytes mode (bytes_of s).
Proof.
  unfold escape. fold (escaped_bytes mode (bytes_of s)). apply bytes_of_of.
  eapply Forall_impl; [apply (escaped_all (fun x => x <? 256) _ _ (escape_bounded mode)), bytes_bounded|]. intros c. apply N.ltb_lt.
Qed.

(** What was escaped is read back (outside a host). *)
Definition hex_byte (c : N) : bool :=
  bool_decide (unhex (upper_hex (c / 16)) = Some (c / 16)) && bool_decide (unhex (upper_hex (c mod 16)) = Some (c mod 16)).
Lemma hex_bytes c : c < 256 -> hex_byte c = true.
Proof. revert c. apply every_byte. by vm_compute. Qed.
Lemma percent_escaped mode : shouldEscape 37 mode = true.
Proof. by destruct mode. Qed.
Lemma unescape_escaped mode l : mode <> encodeHost -> Forall (fun c => c < 256) l -> unescape mode (escaped_bytes mode l) = Some l.
Proof.
  intros Hm. induction 1 as [|c l Hc _ IH]; [done|]. unfold escaped_bytes. cbn [List.map List.concat]. fold (escaped_bytes mode l).
  unfold escape_byte_for. destruct (shouldEscape c mode) eqn:E.
  - pose proof (hex_bytes c Hc) as Hx. unfold hex_byte in Hx. rewrite andb_true_iff, !bool_decide_eq_true in Hx. destruct Hx as [Hx Hy].
    cbn [app unescape]. rewrite N.eqb_refl, Hx. cbn [mbind option_bind]. rewrite Hy. cbn [mbind option_bind].
    destruct mode; try done; cbn [andb]; rewrite IH; cbn; do 2 f_equal; rewrite N.mul_comm, <- N.div_mod'; done.
  - assert (H37 : (c =? 37) = false) by (apply N.eqb_neq; intros ->; by rewrite percent_escaped in E).
    cbn [app unescape]. rewrite H37. destruct mode; try done; cbn [andb]; by rewrite IH.
Qed.
Lemma unescape_escape mode s : mode <> encodeHost -> unescape_string mode (bytes_of (escape mode s)) = Some s.
Proof. intros Hm. unfold unescape_string. rewrite bytes_of_escape, unescape_escaped by (done || apply bytes_bounded). cbn. by rewrite of_bytes_of. Qed.

(** The characters an escaped name or password leaves out. *)
Definition user_safe (c : N) : bool := userinfo_char c && negb (among "@/?:#" c) && (32 <=? c) && negb (c =? 127).
Definition path_safe (c : N) : bool := negb (among "?#" c) && (32 <=? c) && negb (c =? 127).
Lemma user_escaped s : Forall (fun c => user_safe c = true) (bytes_of (escape encodeUserPassword s)).
Proof.
  rewrite bytes_of_escape. apply escaped_all; [|apply bytes_bounded].
  apply (every_byte (fun c => forallb user_safe (escape_byte_for encodeUserPassword c))). by vm_compute.
Qed.
Lemma path_escaped s : Forall (fun c => path_safe c = true) (bytes_of (escape encodePath s)).
Proof.
  rewrite bytes_of_escape. apply escaped_all; [|apply bytes_bounded].
  apply (every_byte (fun c => forallb path_safe (escape_byte_for encodePath c))). by vm_compute.
Qed.

(** ** A connection URL is read back *)

Definition host_char (c : N) : bool := is_letter c || is_number c || among "-._" c.
Definition host_name (s : string) : Prop := Forall (fun c => host_char c = true) (bytes_of s).
Definition port_number (s : string) : Prop := Forall (fun c => is_number c = true) (bytes_of s).
(** What a port may be before it is read: digits or plus signs. *)
Definition port_char (c : N) : bool := is_number c || (c =? 43).
Definition port_text (s : string) : Prop := Forall (fun c => port_char c = true) (bytes_of s).
Definition query_safe (c : N) : bool := negb (c =? 35) && (32 <=? c) && negb (c =? 127).

(** One check of a class of bytes decides an implication between classes. *)
Lemma class_incl (P Q : N -> bool) l : forallb (fun c => negb (P c) || Q c) (List.map N.of_nat (seq 0 256)) = true ->
  Forall (fun c => c < 256) l -> Forall (fun c => P c = true) l -> Forall (fun c => Q c = true) l.
Proof.
  intros H Hl HP. induction Hl as [|c l Hc _ IH]; [constructor|]. apply Forall_cons in HP as [Hp HP]. constructor; [|by apply IH].
  pose proof (every_byte _ H c Hc) as Hcc. cbn beta in Hcc. by rewrite Hp in Hcc.
Qed.
Lemma class_free (P : N -> bool) x s : forallb (fun c => negb (P c) || negb (c =? x)) (List.map N.of_nat (seq 0 256)) = true ->
  Forall (fun c => P c = true) (bytes_of s) -> Forall (fun c => (c =? x) = false) (bytes_of s).
Proof.
  intros H HP. eapply Forall_impl; [apply (class_incl P (fun c => negb (c =? x)) _ H (bytes_bounded s) HP)|].
  intros c. apply negb_true_iff.
Qed.
Lemma host_kept s : Forall (fun c => shouldEscape c encodeHost = false) (bytes_of s) -> escape encodeHost s = s.
Proof.
  intros H. unfold escape. rewrite <- (of_bytes_of s) at 2. f_equal. induction H as [|c l Hc _ IH]; [done|]. cbn. unfold escape_byte_for at 1.
  by rewrite Hc, IH.
Qed.
Lemma host_read l : Forall (fun c => shouldEscape c encodeHost = false) l -> unescape encodeHost l = Some l.
Proof.
  induction 1 as [|c l Hc _ IH]; [done|]. cbn [unescape].
  assert (H37 : (c =? 37) = false) by (apply N.eqb_neq; intros ->; by rewrite percent_escaped in Hc).
  rewrite H37, Hc, andb_false_r, IH. done.
Qed.
Lemma existsb_no {A} (p : A -> bool) l : Forall (fun x => p x = false) l -> existsb p l = false.
Proof. induction 1 as [|x l Hx _ IH]; [done|]. cbn. by rewrite Hx. Qed.
Lemma forallb_yes {A} (p : A -> bool) l : Forall (fun x => p x = true) l -> forallb p l = true.
Proof. induction 1 as [|x l Hx _ IH]; [done|]. cbn. by rewrite Hx. Qed.
Lemma filter_no {A} (p : A -> bool) l : Forall (fun x => p x = false) l -> List.filter p l = [].
Proof. induction 1 as [|x l Hx _ IH]; [done|]. cbn. by rewrite Hx. Qed.

Section Roundtrip.
Context (odd_host : string -> string -> option string).

Lemma user_read user password : parseUser (bytes_of (user_string (user, Some password))) = Some (user, Some password).
Proof.
  unfold user_string. cbn [fst snd]. rewrite !bytes_of_app. change (bytes_of ":") with [58]. cbn [app].
  pose proof (user_escaped user) as Hu. pose proof (user_escaped password) as Hp. unfold parseUser.
  rewrite forallb_yes.
  2: { apply Forall_app. split; [|constructor; [done|]].
    - eapply (class_incl user_safe userinfo_char); [by vm_compute|apply bytes_bounded|done].
    - eapply (class_incl user_safe userinfo_char); [by vm_compute|apply bytes_bounded|done]. }
  cbn [negb]. rewrite cut_first_app by by eapply (class_free user_safe); [by vm_compute|].
  rewrite !unescape_escape by done. done.
Qed.
Lemma host_parsed scheme host port : host_name host -> port_number port ->
  parseHost odd_host scheme (bytes_of (host +:+ ":" +:+ port)) = Some (host +:+ ":" +:+ port).
Proof.
  intros Hh Hp. unfold parseHost. rewrite !bytes_of_app. change (bytes_of ":") with [58]. cbn [app].
  rewrite existsb_no.
  2: { apply Forall_app. split; [|constructor; [done|]]; (eapply Forall_impl; [eapply (class_incl _ (fun c => negb ((c =? 91) || (c =? 93)))); [|apply bytes_bounded|eassumption]; by vm_compute|]);
    intros c; apply negb_true_iff. }
  assert (Hcolons : List.filter (fun c => c =? 58) (bytes_of host ++ 58 :: bytes_of port) = [58]).
  { rewrite List.filter_app. cbn [List.filter]. rewrite N.eqb_refl, !filter_no; [done| |].
    - by eapply (class_free is_number); [by vm_compute|].
    - by eapply (class_free host_char); [by vm_compute|]. }
  rewrite Hcolons. cbn [length orb]. change (1 <? 1)%nat with false. cbn [orb].
  rewrite cut_first_app by by eapply (class_free host_char); [by vm_compute|].
  unfold validOptionalPort. rewrite N.eqb_refl, (forallb_yes is_number) by done. cbn [andb].
  unfold unescape_string. rewrite host_read.
  - cbn [fmap option_fmap option_map]. f_equal. rewrite <- (of_bytes_of (host +:+ ":" +:+ port)), !bytes_of_app. done.
  - apply Forall_app. split; [|constructor; [done|]]; (eapply Forall_impl; [eapply (class_incl _ (fun c => negb (shouldEscape c encodeHost))); [|apply bytes_bounded|eassumption]; by vm_compute|]);
      intros c; apply negb_true_iff.
Qed.

(** The bytes of a connection URL. *)
Definition dsn (user password host port path query : string) : URL :=
  MkURL "postgres" "" (Some (user, Some password)) (host +:+ ":" +:+ port) ("/" +:+ path) false query "".
Definition dsn_bytes (user password host port path query : string) : list N :=
  bytes_of "postgres" ++ 58 :: 47 :: 47 :: bytes_of (user_string (user, Some password)) ++ 64 ::
  bytes_of (host +:+ ":" +:+ port) ++ bytes_of (escape encodePath ("/" +:+ path)) ++ 63 :: bytes_of query.
Lemma dsn_string user password host port path query : host_name host -> port_text port -> query <> "" ->
  bytes_of (url_string (dsn user password host port path query)) = dsn_bytes user password host port path query.
Proof.
  intros Hh Hp Hq. unfold url_string, dsn, dsn_bytes. cbn [u_Scheme u_User u_Host u_Path u_ForceQuery u_RawQuery u_Fragment].
  assert (Hpre : String.prefix "/" ("/" +:+ path) = true) by (by destruct path). rewrite Hpre, andb_false_r. apply String.eqb_neq in Hq. rewrite Hq. cbn [negb orb].
  rewrite host_kept.
  - change (if "" == "" then "" else _) with "". rewrite !bytes_of_app. change (bytes_of "://") with [58; 47; 47]. change (bytes_of "@") with [64].
    change (bytes_of "?") with [63]. change (bytes_of "") with (@nil N). cbn [app]. rewrite app_nil_r, <- !app_assoc. done.
  - rewrite !bytes_of_app. apply Forall_app. split; [|constructor; [done|]];
      (eapply Forall_impl; [eapply (class_incl _ (fun c => negb (shouldEscape c encodeHost))); [|apply bytes_bounded|eassumption]; by vm_compute|]);
      intros c; apply negb_true_iff.
Qed.

Lemma Forall_class (P Q : N -> bool) s : forallb (fun c => negb (P c) || Q c) (List.map N.of_nat (seq 0 256)) = true ->
  Forall (fun c => P c = true) (bytes_of s) -> Forall (fun c => Q c = true) (bytes_of s).
Proof. intros H. apply class_incl; [done|apply bytes_bounded]. Qed.
Definition user_part (c : N) : bool := user_safe c || (c =? 58).
Definition host_part (c : N) : bool := host_char c || among ":+" c.
Lemma user_string_class user password :
  Forall (fun c => user_part c = true) (bytes_of (user_string (user, Some password))).
Proof.
  unfold user_string. cbn [fst snd]. rewrite !bytes_of_app. apply Forall_app. split; [|constructor; [done|]];
    (eapply (Forall_class user_safe); [by vm_compute|apply user_escaped]).
Qed.
Lemma host_port_class host port : host_name host -> port_text port ->
  Forall (fun c => host_part c = true) (bytes_of (host +:+ ":" +:+ port)).
Proof.
  intros Hh Hp. rewrite !bytes_of_app. apply Forall_app. split; [|constructor; [done|]].
  - by eapply (Forall_class host_char); [by vm_compute|].
  - by eapply (Forall_class port_char); [by vm_compute|].
Qed.

(** A class of bytes that holds of each part of a connection URL holds of all of it. *)
Definition implied (p q : N -> bool) : bool := forallb (fun c => negb (p c) || q c) (List.map N.of_nat (seq 0 256)).
Lemma target_class (P : N -> bool) U H path :
  Forall (fun c => user_part c = true) (bytes_of U) -> Forall (fun c => host_part c = true) (bytes_of H) ->
  Forall (fun c => path_safe c = true) (bytes_of path) -> implied user_part P = true -> implied host_part P = true -> implied path_safe P = true ->
  P 47 && P 64 = true -> Forall (fun c => P c = true) (47 :: 47 :: bytes_of U ++ 64 :: bytes_of H ++ bytes_of path).
Proof.
  intros HU HH Hpath H1 H2 H3 [H4 H5]%andb_true_iff. do 2 (apply Forall_cons; split; [done|]). apply Forall_app. split; [exact (Forall_class _ _ _ H1 HU)|].
  apply Forall_cons. split; [done|]. apply Forall_app. split; [exact (Forall_class _ _ _ H2 HH)|exact (Forall_class _ _ _ H3 Hpath)].
Qed.
Lemma dsn_class (P : N -> bool) target query :
  Forall (fun c => P c = true) target -> Forall (fun c => query_safe c = true) (bytes_of query) ->
  implied query_safe P = true -> forallb P (bytes_of "postgres" ++ [58; 63]) = true ->
  Forall (fun c => P c = true) (bytes_of "postgres" ++ 58 :: target ++ 63 :: bytes_of query).
Proof.
  intros Ht Hquery H4 H5. rewrite forallb_app, andb_true_iff in H5. destruct H5 as [H5 H6]. cbn [forallb] in H6.
  rewrite !andb_true_iff in H6. destruct_and!. apply Forall_app. split.
  { apply Forall_forall. intros x Hx. rewrite forallb_forall in H5. by apply H5, list_elem_of_In. }
  apply Forall_cons. split; [done|]. apply Forall_app. split; [done|]. apply Forall_cons. split; [done|]. exact (Forall_class _ _ _ H4 Hquery).
Qed.
Lemma none_of (P : N -> bool) l : Forall (fun c => negb (P c) = true) l -> Forall (fun c => P c = false) l.
Proof. intros H. eapply Forall_impl; [exact H|]. intros c. apply negb_true_iff. Qed.

(** Only the port may keep a connection URL from being read back. *)
Lemma dsn_read user password host port path query : host_name host -> port_text port -> query <> "" ->
  Forall (fun c => query_safe c = true) (bytes_of query) ->
  Parse odd_host (url_string (dsn user password host port path query)) =
  (h ← parseHost odd_host "postgres" (bytes_of (host +:+ ":" +:+ port));
   Some (MkURL "postgres" "" (Some (user, Some password)) h ("/" +:+ path) false query "")).
Proof.
  intros Hh Hp Hq Hqs. unfold Parse. rewrite dsn_string by done. unfold dsn_bytes.
  pose proof (user_string_class user password) as Hu. pose proof (host_port_class host port Hh Hp) as Hhp. pose proof (path_escaped ("/" +:+ path)) as Hpath.
  pose proof (user_read user password) as Huser.
  assert (Hslash : exists p, bytes_of (escape encodePath ("/" +:+ path)) = 47 :: p) by (eexists; reflexivity).
  pose proof (unescape_escape encodePath ("/" +:+ path) ltac:(done)) as Hread. unfold dsn.
  revert Hu Hhp Hpath Huser Hread Hslash.
  generalize (user_string (user, Some password)) as U. generalize (host +:+ ":" +:+ port) as H. generalize (escape encodePath ("/" +:+ path)) as E.
  generalize ("/" +:+ path) as P. intros P E H U Hu Hhp Hpath Huser Hread [p HE].
  assert (Hall : forall Q, implied user_part Q = true -> implied host_part Q = true -> implied path_safe Q = true -> Q 47 && Q 64 = true ->
    Forall (fun c => Q c = true) (47 :: 47 :: bytes_of U ++ 64 :: bytes_of H ++ bytes_of E)) by (intros Q; by apply target_class).
  assert (Hsplit : bytes_of "postgres" ++ 58 :: 47 :: 47 :: bytes_of U ++ 64 :: bytes_of H ++ bytes_of E ++ 63 :: bytes_of query =
    bytes_of "postgres" ++ 58 :: (47 :: 47 :: bytes_of U ++ 64 :: bytes_of H ++ bytes_of E) ++ 63 :: bytes_of query)
    by (cbn [app]; by rewrite <- !app_assoc, <- app_comm_cons, <- app_assoc).
  rewrite Hsplit, cut_first_none by (apply none_of, dsn_class; [by apply Hall; vm_compute|done|by vm_compute|by vm_compute]).
  unfold parse_url. rewrite existsb_no by (apply none_of, dsn_class; [by apply Hall; vm_compute|done|by vm_compute|by vm_compute]).
  rewrite bool_decide_eq_false_2 by done.
  change (getScheme _) with (Some (bytes_of "postgres", (47 :: 47 :: bytes_of U ++ 64 :: bytes_of H ++ bytes_of E) ++ 63 :: bytes_of query)).
  cbn [mbind option_bind fst snd]. change (to_lower (of_bytes (bytes_of "postgres"))) with "postgres".
  rewrite cut_first_app by (apply none_of, Hall; by vm_compute).
  destruct (bytes_of query) as [|q qs] eqn:Eq; [by destruct query|]. rewrite <- Eq, of_bytes_of.
  change (starts_with "/" _) with true. cbn [negb andb orb].
  replace (starts_with "//" _) with true by done.
  change (("postgres" != "") || _) with true. cbn [andb drop]. rewrite drop_0.
  assert (Hcut : cut_first 47 (bytes_of U ++ 64 :: bytes_of H ++ bytes_of E) = (bytes_of U ++ 64 :: bytes_of H, Some p)).
  { rewrite HE, app_comm_cons, app_assoc. apply cut_first_app, none_of, Forall_app. split; [by apply (Forall_class user_part)|].
    apply Forall_cons. split; [done|]. by apply (Forall_class host_part). }
  rewrite Hcut. unfold parseAuthority. rewrite cut_last_app by by apply none_of, (Forall_class host_part).
  destruct (parseHost odd_host "postgres" (bytes_of H)) as [h|]; [|done].
  cbn [mbind option_bind]. rewrite Huser. cbn [mbind option_bind fst snd]. rewrite <- HE, Hread. done.
Qed.
Lemma dsn_roundtrip user password host port path query : host_name host -> port_number port -> query <> "" ->
  Forall (fun c => query_safe c = true) (bytes_of query) ->
  Parse odd_host (url_string (dsn user password host port path query)) = Some (dsn user password host port path query).
Proof.
  intros Hh Hp Hq Hqs. rewrite dsn_read, host_parsed by (done || by eapply (Forall_class is_number); [by vm_compute|]). done.
Qed.
(** A signed port is not one. *)
Lemma signed_port_unread user password host port path query : host_name host -> port_number port -> query <> "" ->
  Forall (fun c => query_safe c = true) (bytes_of query) ->
  Parse odd_host (url_string (dsn user password host ("+" +:+ port) path query)) = None.
Proof.
  intros Hh Hp Hq Hqs. rewrite dsn_read; [|done| |done|done].
  2: { constructor; [done|]. by eapply (Forall_class is_number); [by vm_compute|]. }
  rewrite bytes_of_app. unfold parseHost. rewrite existsb_no.
  2: { apply none_of, Forall_app. split; [by eapply (Forall_class host_char); [by vm_compute|]|]. do 2 (constructor; [done|]).
    by eapply (Forall_class is_number); [by vm_compute|]. }
  change (bytes_of (":" +:+ "+" +:+ port)) with (58 :: 43 :: bytes_of port).
  assert (Hcolons : List.filter (fun c => c =? 58) (bytes_of host ++ 58 :: 43 :: bytes_of port) = [58]).
  { rewrite List.filter_app. cbn [List.filter]. change (58 =? 58) with true. cbv iota. rewrite !filter_no; [done| |].
    - by eapply (class_free is_number); [by vm_compute|].
    - by eapply (class_free host_char); [by vm_compute|]. }
  rewrite Hcolons. cbn [length orb]. change (1 <? 1)%nat with false. cbn [orb].
  rewrite cut_first_app by by eapply (class_free host_char); [by vm_compute|]. done.
Qed.
End Roundtrip.
