(* ===== verification/Duration.v ===== *)
(** * Duration: reading the durations of the executor's settings

    [time.ParseDuration]: groups of a decimal number and a unit, added up as
    uint64 nanoseconds.  A fraction is scaled in float64 arithmetic. *)

From Stdlib Require Import SpecFloat.
From stdpp Require Import pretty.
From S2P Require Import Prelude Text JsonText Url.
Open Scope string_scope.
Open Scope list_scope.
Open Scope Z_scope.

Definition two63 : Z := 9223372036854775808.
Definition wrap_u64 (z : Z) : Z := z mod 18446744073709551616.

(** ** Numbers *)

Fixpoint leadingInt (x : Z) (l : list N) : option (Z * list N) :=
  match l with
  | [] => Some (x, [])
  | c :: rest =>
      if is_number c then
        if two63 / 10 <? x then None
        else
          let x' := x * 10 + Z.of_N (c - 48) in
          if two63 <? x' then None else leadingInt x' rest
      else Some (x, l)
  end.

(** float64: 53 bits of precision, exponents up to 1024. *)
Definition float_of (z : Z) : spec_float := binary_normalize 53 1024 z 0 false.
Definition float_mul : spec_float -> spec_float -> spec_float := SFmul 53 1024.
Definition float_div : spec_float -> spec_float -> spec_float := SFdiv 53 1024.
(** [uint64(f)] of a float in range. *)
Definition uint64_of (f : spec_float) : Z :=
  match f with
  | S754_finite false m e => if 0 <=? e then wrap_u64 (Z.pos m * 2 ^ e) else Z.pos m / 2 ^ (- e)
  | _ => 0
  end.

(** [leadingFraction]: digits beyond what int64 holds are skipped. *)
Fixpoint leadingFraction (x : Z) (scale : spec_float) (overflow : bool) (l : list N) : Z * spec_float * list N :=
  match l with
  | [] => (x, scale, [])
  | c :: rest =>
      if is_number c then
        if overflow then leadingFraction x scale true rest
        else if (two63 - 1) / 10 <? x then leadingFraction x scale true rest
        else
          let y := x * 10 + Z.of_N (c - 48) in
          if two63 <? y then leadingFraction x scale true rest
          else leadingFraction y (float_mul scale (float_of 10)) false rest
      else (x, scale, l)
  end.

(** ** Units *)

Definition Microsecond : Z := 1000.
Definition unitMap (u : list N) : option Z :=
  let s := of_bytes u in
  if s == "ns" then Some 1
  else if (s == "us") || bool_decide (u = [194; 181; 115]%N) || bool_decide (u = [206; 188; 115]%N) then Some 1000
  else if s == "ms" then Some 1000000
  else if s == "s" then Some 1000000000
  else if s == "m" then Some 60000000000
  else if s == "h" then Some 3600000000000
  else None.
Definition unit_char (c : N) : bool := negb ((c =? 46)%N || is_number c).

(** ** [ParseDuration] *)

(** One number with its unit, added to [d]. *)
Definition duration_group (d : Z) (l : list N) : option (Z * list N) :=
  match l with
  | [] => None
  | c :: _ =>
      if negb ((c =? 46)%N || is_number c) then None
      else
        vr ← leadingInt 0 l;
        let '(v, l1) := vr in
        let pre := negb (length l1 =? length l)%nat in
        let '(f, scale, l2, post) :=
          match l1 with
          | c1 :: l1' =>
              if (c1 =? 46)%N then
                let '(f, scale, l2) := leadingFraction 0 (float_of 1) false l1' in
                (f, scale, l2, negb (length l2 =? length l1')%nat)
              else (0, float_of 1, l1, false)
          | [] => (0, float_of 1, l1, false)
          end in
        if negb pre && negb post then None
        else
          let (u, l3) := span unit_char l2 in
          if bool_decide (u = []) then None
          else
            unit ← unitMap u;
            if two63 / unit <? v then None
            else
              let v := wrap_u64 (v * unit) in
              let fraction := if 0 <? f then uint64_of (float_mul (float_of f) (float_div (float_of unit) scale)) else 0 in
              let v := wrap_u64 (v + fraction) in
              if (0 <? f) && (two63 <? v) then None
              else
                let d := wrap_u64 (d + v) in
                if two63 <? d then None else Some (d, l3)
  end.
Fixpoint duration_groups (fuel : nat) (d : Z) (l : list N) : option Z :=
  match l with
  | [] => Some d
  | _ =>
      match fuel with
      | O => None
      | S fuel' => dl ← duration_group d l; duration_groups fuel' dl.1 dl.2
      end
  end.
Definition ParseDuration (s : string) : option Z :=
  let l := bytes_of s in
  let '(neg, l) :=
    match l with
    | c :: rest => if (c =? 45)%N then (true, rest) else if (c =? 43)%N then (false, rest) else (false, l)
    | [] => (false, l)
    end in
  if bool_decide (l = [48%N]) then Some 0
  else
    match l with
    | [] => None
    | _ =>
        d ← duration_groups (length l) 0 l;
        if neg then Some (wrap64 (- d))
        else if max_int64 <? d then None else Some d
    end.

Example duration_seconds : ParseDuration "30s" = Some 30000000000. Proof. by vm_compute. Qed.
Example duration_mixed : ParseDuration "1h15m30.918s" = Some 4530918000000. Proof. by vm_compute. Qed.
Example duration_fraction : ParseDuration "-.5us" = Some (-500). Proof. by vm_compute. Qed.
Example duration_refused : ParseDuration "10" = None /\ ParseDuration "1.5 s" = None /\ ParseDuration "2562048h" = None. Proof. by vm_compute. Qed.
Example duration_digits : ParseDuration "0.3333333333333333333h" = Some 1200000000000. Proof. by vm_compute. Qed.

(** ** Bounds *)

Lemma wrap_u64_range z : 0 <= wrap_u64 z < 18446744073709551616.
Proof. apply Z.mod_pos_bound. lia. Qed.
Lemma duration_group_inv d l d' rest : duration_group d l = Some (d', rest) -> 0 <= d' <= two63.
Proof.
  unfold duration_group. intros H. repeat (case_match; simplify_option_eq; try done).
  all: split; [apply wrap_u64_range|by apply Z.ltb_ge].
Qed.
Lemma duration_groups_bounds fuel : forall d l v, 0 <= d <= two63 -> duration_groups fuel d l = Some v -> 0 <= v <= two63.
Proof.
  induction fuel as [|fuel IH]; intros d l v Hd; destruct l as [|c l]; cbn [duration_groups]; try by intros [= <-].
  intros H. destruct (duration_group d (c :: l)) as [[d' l']|] eqn:E; [|done]. cbn in H. eapply IH; [|exact H]. by eapply duration_group_inv.
Qed.
Lemma ParseDuration_bounds s d : ParseDuration s = Some d -> - max_int64 - 1 <= d <= max_int64.
Proof.
  unfold ParseDuration. destruct (match bytes_of s with [] => _ | _ => _ end) as [neg l]. case_bool_decide; [intros [= <-]; unfold max_int64; lia|].
  destruct l as [|c l]; [done|]. destruct (duration_groups _ _ _) as [v|] eqn:E; [|done]. cbn [mbind option_bind].
  apply duration_groups_bounds in E; [|unfold two63; lia]. unfold two63 in E.
  destruct neg; [|case_match eqn:Hm; [done|]; apply Z.ltb_ge in Hm]; intros [= <-]; [|unfold max_int64 in *; lia].
  unfold wrap64, max_int64. pose proof (Z.mod_pos_bound (- v + 9223372036854775808) 18446744073709551616). lia.
Qed.

(** ** Every group consumes a byte: the length is enough fuel *)

Lemma span_app p l : l = (span p l).1 ++ (span p l).2.
Proof. induction l as [|c l IH]; [done|]. cbn. case_match; [|done]. destruct (span p l). cbn in *. by rewrite IH at 1. Qed.
Lemma leadingInt_shorter l : forall x v rest, leadingInt x l = Some (v, rest) -> (length rest <= length l)%nat.
Proof.
  induction l as [|c l IH]; intros x v rest; cbn; [by intros [= _ <-]|]. repeat case_match; try done; [|by intros [= _ <-]].
  intros Hlen%IH. lia.
Qed.
Lemma leadingFraction_shorter l : forall x s o, (length (leadingFraction x s o l).2 <= length l)%nat.
Proof.
  induction l as [|c l IH]; intros x s o; cbn; [lia|].
  repeat case_match; cbn; try lia; match goal with |- context [leadingFraction ?a ?b ?d l] => specialize (IH a b d); lia end.
Qed.
Lemma duration_group_shorter d l d' rest : duration_group d l = Some (d', rest) -> (length rest < length l)%nat.
Proof.
  unfold duration_group. destruct l as [|c l]; [done|]. case_match; [done|].
  destruct (leadingInt 0 (c :: l)) as [[v l1]|] eqn:Ei; [|done]. cbn [mbind option_bind]. apply leadingInt_shorter in Ei.
  destruct (match l1 with [] => _ | _ => _ end) as [[[f scale] l2] post] eqn:Ef.
  assert (Hl2 : (length l2 <= length l1)%nat).
  { destruct l1 as [|c1 l1']; [by simplify_eq|]. case_match; [|by simplify_eq].
    pose proof (leadingFraction_shorter l1' 0 (float_of 1) false) as Hs. destruct (leadingFraction 0 _ false l1') as [[f' s'] l'].
    cbn in Hs. simplify_eq. cbn. lia. }
  match goal with |- (if negb ?a && negb ?b then _ else _) = _ -> _ => destruct (negb a && negb b); [done|] end. pose proof (span_app unit_char l2) as Hs. destruct (span unit_char l2) as [u l3]. cbn in Hs.
  case_bool_decide; [done|]. intros Hend. assert (l3 = rest) as -> by (repeat (case_match; simplify_option_eq; try done)).
  subst l2. rewrite length_app in Hl2. destruct u; [done|]. cbn in *. lia.
Qed.
Lemma duration_groups_fuel n : forall m d l, (length l <= n)%nat -> (length l <= m)%nat -> duration_groups n d l = duration_groups m d l.
Proof.
  induction n as [|n IH]; intros m d l Hn Hm; (destruct l as [|c l]; [by destruct m|]); [cbn in Hn; lia|].
  destruct m as [|m]; [cbn in Hm; lia|]. cbn [duration_groups]. destruct (duration_group d (c :: l)) as [[d' l']|] eqn:E; [|done].
  apply duration_group_shorter in E. cbn in *. apply IH; lia.
Qed.

(** ** Whole durations *)

Lemma leadingInt_digits ds : forall x rest, 0 <= x <= two63 -> Forall (fun c => is_number c = true) ds ->
  match rest with c :: _ => is_number c = false | [] => True end ->
  let v := foldl (fun a c => a * 10 + Z.of_N (c - 48)) x ds in
  leadingInt x (ds ++ rest) = if v <=? two63 then Some (v, rest) else None.
Proof.
  assert (Hgrow : forall ds x, 0 <= x -> x <= foldl (fun a c => a * 10 + Z.of_N (c - 48)) x ds).
  { clear ds. induction ds as [|c ds IH]; intros x Hx; cbn; [lia|]. pose proof (IH (x * 10 + Z.of_N (c - 48)) ltac:(lia)). lia. }
  induction ds as [|c ds IH]; intros x rest Hx Hds Hr; cbn [app foldl].
  - replace (x <=? two63) with true by lia. destruct rest as [|c rest]; [done|]. cbn. by rewrite Hr.
  - apply Forall_cons in Hds as [Hc Hds]. cbn [leadingInt]. rewrite Hc.
    change (two63 / 10) with 922337203685477580. pose proof (Hgrow ds (x * 10 + Z.of_N (c - 48)) ltac:(lia)) as Hg.
    destruct (Z.ltb_spec 922337203685477580 x); [rewrite (proj2 (Z.leb_gt _ _)); [done|unfold two63 in *; lia]|].
    destruct (Z.ltb_spec two63 (x * 10 + Z.of_N (c - 48))); [rewrite (proj2 (Z.leb_gt _ _)); [done|lia]|]. apply IH; [lia|done|done].
Qed.

(** The units of whole durations. *)
Definition units : list (string * Z) :=
  [("ns", 1); ("us", 1000); ("ms", 1000000); ("s", 1000000000); ("m", 60000000000); ("h", 3600000000000)].
Lemma units_read u unit : (u, unit) ∈ units ->
  bytes_of u <> [] /\ Forall (fun c => unit_char c = true) (bytes_of u) /\ unitMap (bytes_of u) = Some unit /\ 0 < unit.
Proof.
  intros Hin. repeat (apply elem_of_cons in Hin as [[= -> ->]|Hin]; [split; [done|]; split; [by repeat constructor|]; by split|]).
  by apply elem_of_nil in Hin.
Qed.
Lemma span_all p l : Forall (fun c => p c = true) l -> span p l = (l, []).
Proof. induction 1 as [|c l Hc _ IH]; [done|]. cbn. by rewrite Hc, IH. Qed.

Lemma duration_group_whole n u unit : (u, unit) ∈ units -> 0 <= n ->
  duration_group 0 (bytes_of (pretty n) ++ bytes_of u) = if n * unit <=? two63 then Some (n * unit, []) else None.
Proof.
  intros Hu Hn. destruct (units_read u unit Hu) as (Hne & Hall & Hmap & Hpos). destruct (pretty_Z_digits n) as (sign & d & ds & Hb & Hd & _ & Hsign & Hv).
  assert (Hs : sign = []) by (destruct Hsign as [[? _]|[_ ?]]; [done|lia]). rewrite Hs in Hb. cbn [app] in Hb. rewrite Hb. clear Hs Hsign Hb.
  rewrite Z.abs_eq in Hv by done. unfold duration_group. cbn [app].
  assert (Hd1 : is_number d = true) by by apply Forall_cons in Hd as [? _]. rewrite Hd1, orb_true_r. cbn [negb].
  rewrite app_comm_cons, leadingInt_digits.
  2: { unfold two63. lia. } 2: { exact Hd. }
  2: { destruct (bytes_of u) as [|c l]; [done|]. apply Forall_cons in Hall as [Hc _]. unfold unit_char in Hc. by destruct (is_number c); [rewrite orb_true_r in Hc|]. }
  rewrite Hv. destruct (Z.leb_spec n two63) as [Hle|Hgt]; cbn [mbind option_bind].
  2: { rewrite (proj2 (Z.leb_gt _ _)) by nia. done. }
  destruct (bytes_of u) as [|c l] eqn:Eu; [done|].
  assert (Hdot : (c =? 46)%N = false).
  { apply Forall_cons in Hall as [Hc _]. unfold unit_char in Hc. by destruct (c =? 46)%N. }
  rewrite Hdot. replace (length (c :: l) =? length ((d :: ds) ++ c :: l))%nat with false by (symmetry; apply Nat.eqb_neq; rewrite length_app; cbn; lia).
  cbn [negb andb]. rewrite span_all by done. rewrite bool_decide_eq_false_2 by done. rewrite Hmap. cbn [mbind option_bind].
  assert (Hdiv : (two63 / unit <? n) = negb (n * unit <=? two63)).
  { destruct (Z.leb_spec (n * unit) two63) as [H|H]; cbn.
    - apply Z.ltb_ge, Z.div_le_lower_bound; lia.
    - apply Z.ltb_lt, Z.div_lt_upper_bound; lia. }
  rewrite Hdiv. destruct (Z.leb_spec (n * unit) two63) as [H|H]; cbn [negb]; [|done].
  rewrite (proj2 (Z.ltb_ge 0 0)) by lia. cbn [andb]. unfold wrap_u64. rewrite !Z.add_0_r, Z.add_0_l, !Z.mod_mod, Z.mod_small by (unfold two63 in *; lia).
  rewrite (proj2 (Z.ltb_ge _ _)) by lia. done.
Qed.
Lemma ParseDuration_whole n u unit : (u, unit) ∈ units -> 0 <= n ->
  ParseDuration (pretty n +:+ u) = if n * unit <=? max_int64 then Some (n * unit) else None.
Proof.
  intros Hu Hn. unfold ParseDuration. rewrite bytes_of_app. pose proof (duration_group_whole n u unit Hu Hn) as Hg.
  destruct (units_read u unit Hu) as (Hne & _). destruct (pretty_Z_digits n) as (sign & d & ds & Hb & Hd & _ & Hsign & _).
  assert (Hs : sign = []) by (destruct Hsign as [[? _]|[_ ?]]; [done|lia]). rewrite Hs in Hb. cbn [app] in Hb. rewrite Hb in *. clear Hs Hsign Hb.
  apply Forall_cons in Hd as [Hd _]. cbn [app] in *. rewrite (digit_not_dash d Hd).
  assert (Hplus : (d =? 43)%N = false) by (unfold is_digit in Hd; apply N.eqb_neq; intros ->; done). rewrite Hplus.
  rewrite bool_decide_eq_false_2 by (destruct ds, (bytes_of u); done). cbn [length duration_groups]. rewrite Hg.
  destruct (Z.leb_spec (n * unit) two63) as [H|H]; cbn [mbind option_bind fst snd].
  - replace (duration_groups _ (n * unit) []) with (Some (n * unit)) by (by destruct (length (ds ++ bytes_of u))). cbn [mbind option_bind].
    destruct (Z.ltb_spec max_int64 (n * unit)); [rewrite (proj2 (Z.leb_gt _ _)) by done|rewrite (proj2 (Z.leb_le _ _)) by done]; done.
  - rewrite (proj2 (Z.leb_gt _ _)); [done|unfold two63, max_int64 in *; lia].
Qed.
