(* ===== verification/Domain.v ===== *)
(** * Domain: lifecycle and persistence-neutral data

    [internal/domain/lifecycle.go] and the records of
    [internal/domain/types.go] the services exchange with the stores. *)

From S2P Require Import Prelude.
From S2P Require Import Json.
Open Scope string_scope.
Open Scope list_scope.
Open Scope Z_scope.

(** ** lifecycle.go *)

Module Lifecycle.

(** The literal map from action to target; a missing key is the empty string. *)
Definition action_target (action : string) : string :=
  if action == "activate" then "active"
  else if action == "suspend" then "suspended"
  else if action == "resume" then "active"
  else if action == "close" then "closed"
  else if action == "expire" then "expired"
  else "".

(** [Transition]: the target, whether the action is valid, whether it is an
    already applied no-op. *)
Definition Transition (current action : string) : string * bool * bool :=
  let target := action_target action in
  if target == "" then ("", false, false)
  else if current == target then (target, true, true)
  else if action == "activate" then (target, current == "issued", false)
  else if action == "suspend" then (target, current == "active", false)
  else if action == "resume" then (target, current == "suspended", false)
  else if action == "close" then
    (target, (current == "issued") || (current == "active") || (current == "suspended"), false)
  else if action == "expire" then
    (target, (current == "pending") || (current == "issued") || (current == "active") || (current == "suspended"), false)
  else ("", false, false).

(** The loop of [CanTransition] over its literal list of actions. *)
Fixpoint can_transition_loop (actions : list string) (current target : string) : bool * bool :=
  match actions with
  | [] => (false, false)
  | action :: rest =>
      let '(candidate, ok, _) := Transition current action in
      if ok && (candidate == target) then (true, false)
      else can_transition_loop rest current target
  end.

Definition CanTransition (current target : string) : bool * bool :=
  if current == target then (true, true)
  else can_transition_loop ["activate"; "suspend"; "resume"; "close"; "expire"] current target.

(** ** Specification: the lifecycle as a relation *)

Inductive edge : string -> string -> string -> Prop :=
  | edge_activate : edge "issued" "activate" "active"
  | edge_suspend : edge "active" "suspend" "suspended"
  | edge_resume : edge "suspended" "resume" "active"
  | edge_close_issued : edge "issued" "close" "closed"
  | edge_close_active : edge "active" "close" "closed"
  | edge_close_suspended : edge "suspended" "close" "closed"
  | edge_expire_pending : edge "pending" "expire" "expired"
  | edge_expire_issued : edge "issued" "expire" "expired"
  | edge_expire_active : edge "active" "expire" "expired"
  | edge_expire_suspended : edge "suspended" "expire" "expired".

Lemma Transition_edge (current action target : string) :
  Transition current action = (target, true, false) -> edge current action target.
Proof.
  unfold Transition, action_target.
  repeat (case_match; simplify_eq/=); intros; simplify_eq;
  rewrite ?orb_true_iff, ?String.eqb_eq in *; destruct_or?; subst; try done; constructor.
Qed.

Lemma can_transition_loop_ignored actions current target valid ignored :
  can_transition_loop actions current target = (valid, ignored) -> ignored = false.
Proof.
  revert valid ignored. induction actions as [|a rest IH]; intros v i; cbn [can_transition_loop].
  - congruence.
  - destruct (Transition current a) as [[c ok] x]. case_match; [congruence|apply IH].
Qed.
Lemma edge_Transition (current action target : string) :
  edge current action target -> Transition current action = (target, true, false).
Proof. by destruct 1. Qed.
Lemma can_transition_loop_edge actions current target :
  can_transition_loop actions current target = (true, false) <->
  exists action target', action ∈ actions /\ Transition current action = (target', true, current == target') /\ target' = target.
Proof.
  induction actions as [|a rest IH]; cbn [can_transition_loop].
  { split; [done|]. intros (? & ? & Hin & _). by apply elem_of_nil in Hin. }
  destruct (Transition current a) as [[c ok] ign] eqn:Et.
  assert (Hign : ok = true -> ign = (current == c)).
  { intros ->. revert Et. unfold Transition. repeat case_match; intros; simplify_eq; by rewrite ?String.eqb_refl. }
  destruct (ok && (c == target)) eqn:Eok.
  - apply andb_true_iff in Eok as [-> ->%String.eqb_eq]. split; [|done]. intros _. exists a, target.
    rewrite elem_of_cons, Et, Hign by done. auto.
  - rewrite IH. split; intros (x & t & Hin & Ht & ->).
    + exists x, target. rewrite elem_of_cons. auto.
    + apply elem_of_cons in Hin as [->|Hin]; [|by eauto]. rewrite Ht in Et. injection Et as <- <- <-.
      by rewrite String.eqb_refl in Eok.
Qed.
Lemma CanTransition_loop current target :
  (current == target) = false ->
  CanTransition current target = can_transition_loop ["activate"; "suspend"; "resume"; "close"; "expire"] current target.
Proof. intros H. unfold CanTransition. by rewrite H. Qed.

(** The lifecycle of a card is exactly the relation [edge]: an action moves a
    card between two different statuses if and only if it is an edge, an action
    whose target the card has already is an accepted no-op, every other action is
    refused, and a target status is reachable in one step of a batch if and only
    if some action has that edge. *)
Theorem lifecycle_exact current action target :
  (Transition current action = (target, true, false) <-> edge current action target) /\
  (Transition current action = (target, true, true) <-> target <> "" /\ current = target /\ action_target action = target) /\
  (CanTransition current target = (true, false) <-> current <> target /\ exists a, edge current a target) /\
  (CanTransition current target = (true, true) <-> current = target).
Proof.
  split; [split; [apply Transition_edge|apply edge_Transition]|]. split; [|split].
  - unfold Transition. split.
    + destruct (action_target action == "") eqn:E0; [done|]. apply String.eqb_neq in E0.
      destruct (current == action_target action) eqn:E1; [apply String.eqb_eq in E1; by intros [= <-]|].
      repeat case_match; by intros [=].
    + intros (Hne & -> & ->). apply String.eqb_neq in Hne. by rewrite Hne, String.eqb_refl.
  - destruct (current == target) eqn:E; [apply String.eqb_eq in E as ->|apply String.eqb_neq in E].
    + unfold CanTransition. rewrite String.eqb_refl. split; [done|tauto].
    + rewrite CanTransition_loop by (by apply String.eqb_neq). rewrite can_transition_loop_edge. split.
      * intros (a & t & _ & Ht & ->). split; [done|]. exists a. apply Transition_edge. apply String.eqb_neq in E. by rewrite E in Ht.
      * intros [_ [a Ha]]. exists a, target. apply String.eqb_neq in E. rewrite E.
        split; [|split; [by apply edge_Transition|done]]. rewrite !elem_of_cons. destruct Ha; tauto.
  - unfold CanTransition. destruct (current == target) eqn:E; [by apply String.eqb_eq in E|apply String.eqb_neq in E].
    split; [|done]. intros H. by apply can_transition_loop_ignored in H.
Qed.
End Lifecycle.

(** ** types.go

    One record per struct, its fields named after the struct.  A [*string] or
    [*time.Time] is an option, a [[]byte] its bytes, a time an instant in
    nanoseconds; a nilable [json.RawMessage] is an option. *)

Record Entity := MkEntity {
  Entity_ID : string;
  Entity_BankReference : string;
  Entity_Name : string;
  Entity_Status : string;
  Entity_CreatedAt : Z;
  Entity_UpdatedAt : Z;
}.
#[export] Instance Entity_eta : Settable Entity :=
  fun r => MkEntity (Entity_ID r) (Entity_BankReference r) (Entity_Name r) (Entity_Status r) (Entity_CreatedAt r) (Entity_UpdatedAt r).

Record Route := MkRoute {
  Route_EntityID : string;
  Route_ShardID : string;
  Route_PlacementStatus : string;
  Route_CreatedAt : Z;
}.
#[export] Instance Route_eta : Settable Route :=
  fun r => MkRoute (Route_EntityID r) (Route_ShardID r) (Route_PlacementStatus r) (Route_CreatedAt r).

Record DirectoryUser := MkDirectoryUser {
  DirectoryUser_ID : string;
  DirectoryUser_Username : string;
  DirectoryUser_Role : string;
  DirectoryUser_EntityID : string;
  DirectoryUser_Status : string;
  DirectoryUser_CreatedAt : Z;
  DirectoryUser_UpdatedAt : Z;
}.
#[export] Instance DirectoryUser_eta : Settable DirectoryUser :=
  fun r => MkDirectoryUser (DirectoryUser_ID r) (DirectoryUser_Username r) (DirectoryUser_Role r) (DirectoryUser_EntityID r) (DirectoryUser_Status r) (DirectoryUser_CreatedAt r) (DirectoryUser_UpdatedAt r).

Record CardFilter := MkCardFilter {
  CardFilter_ClientID : string;
  CardFilter_AccountID : string;
  CardFilter_ProductID : string;
  CardFilter_Status : string;
}.
#[export] Instance CardFilter_eta : Settable CardFilter :=
  fun r => MkCardFilter (CardFilter_ClientID r) (CardFilter_AccountID r) (CardFilter_ProductID r) (CardFilter_Status r).

Record Card := MkCard {
  Card_ID : string;
  Card_ClientID : string;
  Card_AccountReferenceID : string;
  Card_ProductID : string;
  Card_Status : string;
  Card_MaskedPAN : option string;
  Card_PredecessorCardID : option string;
  Card_IssuedAt : option Z;
  Card_ActivatedAt : option Z;
  Card_SuspendedAt : option Z;
  Card_ClosedAt : option Z;
  Card_ExpiresAt : option Z;
  Card_Version : Z;
  Card_CreatedAt : Z;
  Card_UpdatedAt : Z;
}.
#[export] Instance Card_eta : Settable Card :=
  fun r => MkCard (Card_ID r) (Card_ClientID r) (Card_AccountReferenceID r) (Card_ProductID r) (Card_Status r) (Card_MaskedPAN r) (Card_PredecessorCardID r) (Card_IssuedAt r) (Card_ActivatedAt r) (Card_SuspendedAt r) (Card_ClosedAt r) (Card_ExpiresAt r) (Card_Version r) (Card_CreatedAt r) (Card_UpdatedAt r).

Record CardOperation := MkCardOperation {
  CardOperation_ID : string;
  CardOperation_CardID : string;
  CardOperation_Action : string;
  CardOperation_Status : string;
  CardOperation_Reason : string;
  CardOperation_CreatedAt : Z;
  CardOperation_CompletedAt : option Z;
}.
#[export] Instance CardOperation_eta : Settable CardOperation :=
  fun r => MkCardOperation (CardOperation_ID r) (CardOperation_CardID r) (CardOperation_Action r) (CardOperation_Status r) (CardOperation_Reason r) (CardOperation_CreatedAt r) (CardOperation_CompletedAt r).

Record CardStatusHistory := MkCardStatusHistory {
  CardStatusHistory_ID : string;
  CardStatusHistory_PreviousStatus : string;
  CardStatusHistory_NewStatus : string;
  CardStatusHistory_Reason : string;
  CardStatusHistory_CreatedAt : Z;
}.
#[export] Instance CardStatusHistory_eta : Settable CardStatusHistory :=
  fun r => MkCardStatusHistory (CardStatusHistory_ID r) (CardStatusHistory_PreviousStatus r) (CardStatusHistory_NewStatus r) (CardStatusHistory_Reason r) (CardStatusHistory_CreatedAt r).

Record CardProduct := MkCardProduct {
  CardProduct_ID : string;
  CardProduct_ProductCode : string;
  CardProduct_Name : string;
  CardProduct_Status : string;
  CardProduct_Configuration : json;
  CardProduct_ConfigurationVersion : Z;
  CardProduct_CreatedAt : Z;
  CardProduct_UpdatedAt : Z;
}.
#[export] Instance CardProduct_eta : Settable CardProduct :=
  fun r => MkCardProduct (CardProduct_ID r) (CardProduct_ProductCode r) (CardProduct_Name r) (CardProduct_Status r) (CardProduct_Configuration r) (CardProduct_ConfigurationVersion r) (CardProduct_CreatedAt r) (CardProduct_UpdatedAt r).

Record Client := MkClient {
  Client_ID : string;
  Client_ExternalClientRef : string;
  Client_DisplayName : option string;
  Client_CreatedAt : Z;
  Client_UpdatedAt : Z;
}.
#[export] Instance Client_eta : Settable Client :=
  fun r => MkClient (Client_ID r) (Client_ExternalClientRef r) (Client_DisplayName r) (Client_CreatedAt r) (Client_UpdatedAt r).

Record AccountReference := MkAccountReference {
  AccountReference_ID : string;
  AccountReference_ClientID : string;
  AccountReference_ExternalAccountRef : string;
  AccountReference_CreatedAt : Z;
  AccountReference_UpdatedAt : Z;
}.
#[export] Instance AccountReference_eta : Settable AccountReference :=
  fun r => MkAccountReference (AccountReference_ID r) (AccountReference_ClientID r) (AccountReference_ExternalAccountRef r) (AccountReference_CreatedAt r) (AccountReference_UpdatedAt r).

Record CardStatusBatch := MkCardStatusBatch {
  CardStatusBatch_ID : string;
  CardStatusBatch_TargetStatus : string;
  CardStatusBatch_Reason : string;
  CardStatusBatch_CreatedBy : string;
  CardStatusBatch_RequesterRole : string;
  CardStatusBatch_Status : string;
  CardStatusBatch_ItemCount : Z;
  CardStatusBatch_AppliedCount : Z;
  CardStatusBatch_IgnoredCount : Z;
  CardStatusBatch_FailureCode : option string;
  CardStatusBatch_FailureSummary : option string;
  CardStatusBatch_RetryOfBatchID : option string;
  CardStatusBatch_CreatedAt : Z;
  CardStatusBatch_UpdatedAt : Z;
  CardStatusBatch_CompletedAt : option Z;
}.
#[export] Instance CardStatusBatch_eta : Settable CardStatusBatch :=
  fun r => MkCardStatusBatch (CardStatusBatch_ID r) (CardStatusBatch_TargetStatus r) (CardStatusBatch_Reason r) (CardStatusBatch_CreatedBy r) (CardStatusBatch_RequesterRole r) (CardStatusBatch_Status r) (CardStatusBatch_ItemCount r) (CardStatusBatch_AppliedCount r) (CardStatusBatch_IgnoredCount r) (CardStatusBatch_FailureCode r) (CardStatusBatch_FailureSummary r) (CardStatusBatch_RetryOfBatchID r) (CardStatusBatch_CreatedAt r) (CardStatusBatch_UpdatedAt r) (CardStatusBatch_CompletedAt r).

Record CardStatusBatchItem := MkCardStatusBatchItem {
  CardStatusBatchItem_ID : string;
  CardStatusBatchItem_CardID : string;
  CardStatusBatchItem_OperationID : string;
  CardStatusBatchItem_PreviousStatus : option string;
  CardStatusBatchItem_Outcome : string;
  CardStatusBatchItem_FailureCode : option string;
  CardStatusBatchItem_CreatedAt : Z;
}.
#[export] Instance CardStatusBatchItem_eta : Settable CardStatusBatchItem :=
  fun r => MkCardStatusBatchItem (CardStatusBatchItem_ID r) (CardStatusBatchItem_CardID r) (CardStatusBatchItem_OperationID r) (CardStatusBatchItem_PreviousStatus r) (CardStatusBatchItem_Outcome r) (CardStatusBatchItem_FailureCode r) (CardStatusBatchItem_CreatedAt r).

Record ShardIdempotencyClaim := MkShardIdempotencyClaim {
  ShardIdempotencyClaim_Bank : string;
  ShardIdempotencyClaim_Scope : string;
  ShardIdempotencyClaim_Key : string;
  ShardIdempotencyClaim_Fingerprint : string;
  ShardIdempotencyClaim_Now : Z;
  ShardIdempotencyClaim_ExpiresAt : Z;
}.
#[export] Instance ShardIdempotencyClaim_eta : Settable ShardIdempotencyClaim :=
  fun r => MkShardIdempotencyClaim (ShardIdempotencyClaim_Bank r) (ShardIdempotencyClaim_Scope r) (ShardIdempotencyClaim_Key r) (ShardIdempotencyClaim_Fingerprint r) (ShardIdempotencyClaim_Now r) (ShardIdempotencyClaim_ExpiresAt r).

Record ShardIdempotencyReplay := MkShardIdempotencyReplay {
  ShardIdempotencyReplay_RecordID : string;
  ShardIdempotencyReplay_Response : json;
  ShardIdempotencyReplay_Status : Z;
  ShardIdempotencyReplay_Found : bool;
}.
#[export] Instance ShardIdempotencyReplay_eta : Settable ShardIdempotencyReplay :=
  fun r => MkShardIdempotencyReplay (ShardIdempotencyReplay_RecordID r) (ShardIdempotencyReplay_Response r) (ShardIdempotencyReplay_Status r) (ShardIdempotencyReplay_Found r).

Record CentralIdempotencyClaim := MkCentralIdempotencyClaim {
  CentralIdempotencyClaim_Scope : string;
  CentralIdempotencyClaim_Key : string;
  CentralIdempotencyClaim_Fingerprint : string;
  CentralIdempotencyClaim_Now : Z;
  CentralIdempotencyClaim_ExpiresAt : Z;
}.
#[export] Instance CentralIdempotencyClaim_eta : Settable CentralIdempotencyClaim :=
  fun r => MkCentralIdempotencyClaim (CentralIdempotencyClaim_Scope r) (CentralIdempotencyClaim_Key r) (CentralIdempotencyClaim_Fingerprint r) (CentralIdempotencyClaim_Now r) (CentralIdempotencyClaim_ExpiresAt r).

Record CentralIdempotencyReplay := MkCentralIdempotencyReplay {
  CentralIdempotencyReplay_Response : json;
  CentralIdempotencyReplay_Found : bool;
}.
#[export] Instance CentralIdempotencyReplay_eta : Settable CentralIdempotencyReplay :=
  fun r => MkCentralIdempotencyReplay (CentralIdempotencyReplay_Response r) (CentralIdempotencyReplay_Found r).

Record StaffUserCreate := MkStaffUserCreate {
  StaffUserCreate_Username : string;
  StaffUserCreate_PasswordHash : string;
  StaffUserCreate_Role : string;
  StaffUserCreate_EntityID : string;
  StaffUserCreate_ActorID : string;
}.
#[export] Instance StaffUserCreate_eta : Settable StaffUserCreate :=
  fun r => MkStaffUserCreate (StaffUserCreate_Username r) (StaffUserCreate_PasswordHash r) (StaffUserCreate_Role r) (StaffUserCreate_EntityID r) (StaffUserCreate_ActorID r).

Record AuthenticationAudit := MkAuthenticationAudit {
  AuthenticationAudit_EventType : string;
  AuthenticationAudit_ActorUserID : string;
  AuthenticationAudit_SubjectUserID : string;
  AuthenticationAudit_EntityID : string;
  AuthenticationAudit_RequestID : string;
}.
#[export] Instance AuthenticationAudit_eta : Settable AuthenticationAudit :=
  fun r => MkAuthenticationAudit (AuthenticationAudit_EventType r) (AuthenticationAudit_ActorUserID r) (AuthenticationAudit_SubjectUserID r) (AuthenticationAudit_EntityID r) (AuthenticationAudit_RequestID r).

Record CardProductCreate := MkCardProductCreate {
  CardProductCreate_ProductCode : string;
  CardProductCreate_Name : string;
  CardProductCreate_Status : string;
  CardProductCreate_Configuration : json;
  CardProductCreate_ActorID : string;
}.
#[export] Instance CardProductCreate_eta : Settable CardProductCreate :=
  fun r => MkCardProductCreate (CardProductCreate_ProductCode r) (CardProductCreate_Name r) (CardProductCreate_Status r) (CardProductCreate_Configuration r) (CardProductCreate_ActorID r).

Record CardProductPatch := MkCardProductPatch {
  CardProductPatch_Name : option string;
  CardProductPatch_Status : option string;
  CardProductPatch_Configuration : option json;
  CardProductPatch_ActorID : string;
}.
#[export] Instance CardProductPatch_eta : Settable CardProductPatch :=
  fun r => MkCardProductPatch (CardProductPatch_Name r) (CardProductPatch_Status r) (CardProductPatch_Configuration r) (CardProductPatch_ActorID r).

Record ClientCreate := MkClientCreate {
  ClientCreate_ExternalClientRef : string;
  ClientCreate_DisplayName : option string;
  ClientCreate_ActorID : string;
}.
#[export] Instance ClientCreate_eta : Settable ClientCreate :=
  fun r => MkClientCreate (ClientCreate_ExternalClientRef r) (ClientCreate_DisplayName r) (ClientCreate_ActorID r).

Record ClientPatch := MkClientPatch {
  ClientPatch_DisplayName : option string;
  ClientPatch_ActorID : string;
}.
#[export] Instance ClientPatch_eta : Settable ClientPatch :=
  fun r => MkClientPatch (ClientPatch_DisplayName r) (ClientPatch_ActorID r).

Record AccountReferenceCreate := MkAccountReferenceCreate {
  AccountReferenceCreate_ClientID : string;
  AccountReferenceCreate_ExternalAccountRef : string;
  AccountReferenceCreate_ActorID : string;
}.
#[export] Instance AccountReferenceCreate_eta : Settable AccountReferenceCreate :=
  fun r => MkAccountReferenceCreate (AccountReferenceCreate_ClientID r) (AccountReferenceCreate_ExternalAccountRef r) (AccountReferenceCreate_ActorID r).

Record AccountReferencePatch := MkAccountReferencePatch {
  AccountReferencePatch_ClientID : string;
  AccountReferencePatch_ActorID : string;
}.
#[export] Instance AccountReferencePatch_eta : Settable AccountReferencePatch :=
  fun r => MkAccountReferencePatch (AccountReferencePatch_ClientID r) (AccountReferencePatch_ActorID r).

Record ReferenceAudit := MkReferenceAudit {
  ReferenceAudit_Bank : string;
  ReferenceAudit_ActorID : string;
  ReferenceAudit_ActorRole : string;
  ReferenceAudit_ActorEntityID : string;
  ReferenceAudit_Action : string;
  ReferenceAudit_Kind : string;
  ReferenceAudit_ResourceID : string;
  ReferenceAudit_RequestID : string;
}.
#[export] Instance ReferenceAudit_eta : Settable ReferenceAudit :=
  fun r => MkReferenceAudit (ReferenceAudit_Bank r) (ReferenceAudit_ActorID r) (ReferenceAudit_ActorRole r) (ReferenceAudit_ActorEntityID r) (ReferenceAudit_Action r) (ReferenceAudit_Kind r) (ReferenceAudit_ResourceID r) (ReferenceAudit_RequestID r).

Record CardIssue := MkCardIssue {
  CardIssue_CardID : string;
  CardIssue_OperationID : string;
  CardIssue_ClientID : string;
  CardIssue_AccountReferenceID : string;
  CardIssue_ProductID : string;
  CardIssue_MaskedPAN : string;
  CardIssue_Reason : string;
  CardIssue_ActorID : string;
  CardIssue_ActorRole : string;
  CardIssue_ActorEntityID : string;
  CardIssue_RequestID : string;
}.
#[export] Instance CardIssue_eta : Settable CardIssue :=
  fun r => MkCardIssue (CardIssue_CardID r) (CardIssue_OperationID r) (CardIssue_ClientID r) (CardIssue_AccountReferenceID r) (CardIssue_ProductID r) (CardIssue_MaskedPAN r) (CardIssue_Reason r) (CardIssue_ActorID r) (CardIssue_ActorRole r) (CardIssue_ActorEntityID r) (CardIssue_RequestID r).

Record CardState := MkCardState {
  CardState_Status : string;
  CardState_ClientID : string;
  CardState_AccountReferenceID : string;
  CardState_ProductID : string;
}.
#[export] Instance CardState_eta : Settable CardState :=
  fun r => MkCardState (CardState_Status r) (CardState_ClientID r) (CardState_AccountReferenceID r) (CardState_ProductID r).

Record CardAuthorizationState := MkCardAuthorizationState {
  CardAuthorizationState_CardID : string;
  CardAuthorizationState_Status : string;
  CardAuthorizationState_ExpiresAt : option Z;
}.
#[export] Instance CardAuthorizationState_eta : Settable CardAuthorizationState :=
  fun r => MkCardAuthorizationState (CardAuthorizationState_CardID r) (CardAuthorizationState_Status r) (CardAuthorizationState_ExpiresAt r).

Record AuthorizationVerification := MkAuthorizationVerification {
  AuthorizationVerification_DecisionID : string;
  AuthorizationVerification_BankTransactionRef : string;
  AuthorizationVerification_Approved : bool;
}.
#[export] Instance AuthorizationVerification_eta : Settable AuthorizationVerification :=
  fun r => MkAuthorizationVerification (AuthorizationVerification_DecisionID r) (AuthorizationVerification_BankTransactionRef r) (AuthorizationVerification_Approved r).

Record AuthorizationVerificationCreate := MkAuthorizationVerificationCreate {
  AuthorizationVerificationCreate_DecisionID : string;
  AuthorizationVerificationCreate_BankTransactionRef : string;
  AuthorizationVerificationCreate_CardID : string;
  AuthorizationVerificationCreate_Decision : string;
  AuthorizationVerificationCreate_DecisionCode : string;
  AuthorizationVerificationCreate_DecidedAt : Z;
}.
#[export] Instance AuthorizationVerificationCreate_eta : Settable AuthorizationVerificationCreate :=
  fun r => MkAuthorizationVerificationCreate (AuthorizationVerificationCreate_DecisionID r) (AuthorizationVerificationCreate_BankTransactionRef r) (AuthorizationVerificationCreate_CardID r) (AuthorizationVerificationCreate_Decision r) (AuthorizationVerificationCreate_DecisionCode r) (AuthorizationVerificationCreate_DecidedAt r).

Record CardReplacement := MkCardReplacement {
  CardReplacement_SuccessorID : string;
  CardReplacement_OperationID : string;
  CardReplacement_PredecessorID : string;
  CardReplacement_ClientID : string;
  CardReplacement_AccountReferenceID : string;
  CardReplacement_ProductID : string;
  CardReplacement_MaskedPAN : string;
  CardReplacement_Reason : string;
  CardReplacement_ActorID : string;
  CardReplacement_ActorRole : string;
  CardReplacement_ActorEntityID : string;
  CardReplacement_RequestID : string;
}.
#[export] Instance CardReplacement_eta : Settable CardReplacement :=
  fun r => MkCardReplacement (CardReplacement_SuccessorID r) (CardReplacement_OperationID r) (CardReplacement_PredecessorID r) (CardReplacement_ClientID r) (CardReplacement_AccountReferenceID r) (CardReplacement_ProductID r) (CardReplacement_MaskedPAN r) (CardReplacement_Reason r) (CardReplacement_ActorID r) (CardReplacement_ActorRole r) (CardReplacement_ActorEntityID r) (CardReplacement_RequestID r).

Record CardCommand := MkCardCommand {
  CardCommand_CardID : string;
  CardCommand_OperationID : string;
  CardCommand_PredecessorOperationID : string;
  CardCommand_Action : string;
  CardCommand_PreviousStatus : string;
  CardCommand_TargetStatus : string;
  CardCommand_Ignored : bool;
  CardCommand_Reason : string;
  CardCommand_ActorID : string;
  CardCommand_ActorRole : string;
  CardCommand_ActorEntityID : string;
  CardCommand_RequestID : string;
}.
#[export] Instance CardCommand_eta : Settable CardCommand :=
  fun r => MkCardCommand (CardCommand_CardID r) (CardCommand_OperationID r) (CardCommand_PredecessorOperationID r) (CardCommand_Action r) (CardCommand_PreviousStatus r) (CardCommand_TargetStatus r) (CardCommand_Ignored r) (CardCommand_Reason r) (CardCommand_ActorID r) (CardCommand_ActorRole r) (CardCommand_ActorEntityID r) (CardCommand_RequestID r).

Record EntityProvision := MkEntityProvision {
  EntityProvision_ID : string;
  EntityProvision_BankReference : string;
  EntityProvision_Name : string;
  EntityProvision_ActorID : string;
  EntityProvision_RequestID : string;
}.
#[export] Instance EntityProvision_eta : Settable EntityProvision :=
  fun r => MkEntityProvision (EntityProvision_ID r) (EntityProvision_BankReference r) (EntityProvision_Name r) (EntityProvision_ActorID r) (EntityProvision_RequestID r).

Record EntityPatch := MkEntityPatch {
  EntityPatch_ID : string;
  EntityPatch_Name : option string;
  EntityPatch_Status : option string;
  EntityPatch_ActorID : string;
  EntityPatch_RequestID : string;
}.
#[export] Instance EntityPatch_eta : Settable EntityPatch :=
  fun r => MkEntityPatch (EntityPatch_ID r) (EntityPatch_Name r) (EntityPatch_Status r) (EntityPatch_ActorID r) (EntityPatch_RequestID r).

Record CardStatusBatchDraft := MkCardStatusBatchDraft {
  CardStatusBatchDraft_ID : string;
  CardStatusBatchDraft_IdempotencyRecordID : string;
  CardStatusBatchDraft_TargetStatus : string;
  CardStatusBatchDraft_Reason : string;
  CardStatusBatchDraft_CardIDs : list string;
  CardStatusBatchDraft_OperationIDs : list string;
  CardStatusBatchDraft_ActorID : string;
  CardStatusBatchDraft_ActorRole : string;
  CardStatusBatchDraft_ActorEntityID : string;
  CardStatusBatchDraft_RequestID : string;
}.
#[export] Instance CardStatusBatchDraft_eta : Settable CardStatusBatchDraft :=
  fun r => MkCardStatusBatchDraft (CardStatusBatchDraft_ID r) (CardStatusBatchDraft_IdempotencyRecordID r) (CardStatusBatchDraft_TargetStatus r) (CardStatusBatchDraft_Reason r) (CardStatusBatchDraft_CardIDs r) (CardStatusBatchDraft_OperationIDs r) (CardStatusBatchDraft_ActorID r) (CardStatusBatchDraft_ActorRole r) (CardStatusBatchDraft_ActorEntityID r) (CardStatusBatchDraft_RequestID r).

Record CardStatusBatchRetry := MkCardStatusBatchRetry {
  CardStatusBatchRetry_ID : string;
  CardStatusBatchRetry_IdempotencyRecordID : string;
  CardStatusBatchRetry_OperationIDs : list string;
  CardStatusBatchRetry_ActorID : string;
  CardStatusBatchRetry_ActorRole : string;
  CardStatusBatchRetry_ActorEntityID : string;
  CardStatusBatchRetry_RequestID : string;
}.
#[export] Instance CardStatusBatchRetry_eta : Settable CardStatusBatchRetry :=
  fun r => MkCardStatusBatchRetry (CardStatusBatchRetry_ID r) (CardStatusBatchRetry_IdempotencyRecordID r) (CardStatusBatchRetry_OperationIDs r) (CardStatusBatchRetry_ActorID r) (CardStatusBatchRetry_ActorRole r) (CardStatusBatchRetry_ActorEntityID r) (CardStatusBatchRetry_RequestID r).

(** ** Encoders

    [json.Marshal] of the values the services answer with and keep as replayed
    responses: the members in declaration order under their tags. *)

Definition Card_json (c : Card) : json := JObj [
  ("id", JStr (Card_ID c)); ("client_id", JStr (Card_ClientID c));
  ("account_reference_id", JStr (Card_AccountReferenceID c)); ("product_id", JStr (Card_ProductID c));
  ("status", JStr (Card_Status c)); ("masked_pan", JOptStr (Card_MaskedPAN c));
  ("predecessor_card_id", JOptStr (Card_PredecessorCardID c)); ("issued_at", JOptTime (Card_IssuedAt c));
  ("activated_at", JOptTime (Card_ActivatedAt c)); ("suspended_at", JOptTime (Card_SuspendedAt c));
  ("closed_at", JOptTime (Card_ClosedAt c)); ("expires_at", JOptTime (Card_ExpiresAt c));
  ("version", JNum (Card_Version c)); ("created_at", JTime (Card_CreatedAt c));
  ("updated_at", JTime (Card_UpdatedAt c))].

Definition CardOperation_json (o : CardOperation) : json := JObj [
  ("id", JStr (CardOperation_ID o)); ("card_id", JStr (CardOperation_CardID o));
  ("action", JStr (CardOperation_Action o)); ("status", JStr (CardOperation_Status o));
  ("reason", JStr (CardOperation_Reason o)); ("created_at", JTime (CardOperation_CreatedAt o));
  ("completed_at", JOptTime (CardOperation_CompletedAt o))].

Definition CardStatusHistory_json (h : CardStatusHistory) : json := JObj [
  ("id", JStr (CardStatusHistory_ID h)); ("previous_status", JStr (CardStatusHistory_PreviousStatus h));
  ("new_status", JStr (CardStatusHistory_NewStatus h)); ("reason", JStr (CardStatusHistory_Reason h));
  ("created_at", JTime (CardStatusHistory_CreatedAt h))].

(** A member with [omitempty] on a pointer. *)
Definition omit_empty (k : string) (o : option string) : list (string * json) :=
  match o with Some v => [(k, JStr v)] | None => [] end.

(** The members of a batch, which the response of the batch service embeds. *)
Definition CardStatusBatch_members (b : CardStatusBatch) : list (string * json) :=
  [("id", JStr (CardStatusBatch_ID b)); ("target_status", JStr (CardStatusBatch_TargetStatus b));
   ("reason", JStr (CardStatusBatch_Reason b)); ("created_by", JStr (CardStatusBatch_CreatedBy b));
   ("requester_role", JStr (CardStatusBatch_RequesterRole b)); ("status", JStr (CardStatusBatch_Status b));
   ("item_count", JNum (CardStatusBatch_ItemCount b)); ("applied_count", JNum (CardStatusBatch_AppliedCount b));
   ("ignored_count", JNum (CardStatusBatch_IgnoredCount b))] ++
  omit_empty "failure_code" (CardStatusBatch_FailureCode b) ++
  omit_empty "failure_summary" (CardStatusBatch_FailureSummary b) ++
  [("retry_of_batch_id", JOptStr (CardStatusBatch_RetryOfBatchID b));
   ("created_at", JTime (CardStatusBatch_CreatedAt b)); ("updated_at", JTime (CardStatusBatch_UpdatedAt b));
   ("completed_at", JOptTime (CardStatusBatch_CompletedAt b))].

Definition CardStatusBatch_json (b : CardStatusBatch) : json := JObj (CardStatusBatch_members b).

Definition CardStatusBatchItem_json (i : CardStatusBatchItem) : json := JObj [
  ("id", JStr (CardStatusBatchItem_ID i)); ("card_id", JStr (CardStatusBatchItem_CardID i));
  ("operation_id", JStr (CardStatusBatchItem_OperationID i));
  ("previous_status", JOptStr (CardStatusBatchItem_PreviousStatus i));
  ("outcome", JStr (CardStatusBatchItem_Outcome i));
  ("failure_code", JOptStr (CardStatusBatchItem_FailureCode i));
  ("created_at", JTime (CardStatusBatchItem_CreatedAt i))].
