(* ===== verification/Stores.v ===== *)
(** * Stores: the tables behind the repositories

    One record per table of the shard database ([bank.*]) and of the control
    database ([control.*]), with the columns the repositories read or write,
    named as in the SQL.  A table is a finite map keyed by its primary key, or
    by the unique key every statement uses ([idempotency_records] by scope and
    key, [authorization_verifications] by transaction reference); the
    append-only tables [card_status_history], [audit_events] and
    [authentication_audit_events] are lists, newest last. *)

From S2P Require Import Prelude.
From S2P Require Import Json.
Open Scope string_scope.
Open Scope list_scope.
Open Scope Z_scope.

(** ** Shard tables *)

(** [bank.entities], by id. *)
Record entity_row := EntityRow {
  en_bank_reference : string; en_name : string; en_status : string; en_created_at : Z;
  en_updated_at : Z; en_created_by : string; en_updated_by : string;
}.
#[export] Instance entity_row_eta : Settable entity_row :=
  fun r => EntityRow (en_bank_reference r) (en_name r) (en_status r) (en_created_at r) (en_updated_at r)
    (en_created_by r) (en_updated_by r).

(** [bank.clients], by bank and id. *)
Record client_row := ClientRow {
  cl_external_client_ref : string; cl_display_name : option string; cl_created_at : Z;
  cl_updated_at : Z; cl_created_by : string; cl_updated_by : string;
}.
#[export] Instance client_row_eta : Settable client_row :=
  fun r => ClientRow (cl_external_client_ref r) (cl_display_name r) (cl_created_at r) (cl_updated_at r)
    (cl_created_by r) (cl_updated_by r).

(** [bank.account_references], by bank and id. *)
Record account_row := AccountRow {
  ac_client_id : string; ac_external_account_ref : string; ac_created_at : Z; ac_updated_at : Z;
  ac_created_by : string; ac_updated_by : string;
}.
#[export] Instance account_row_eta : Settable account_row :=
  fun r => AccountRow (ac_client_id r) (ac_external_account_ref r) (ac_created_at r) (ac_updated_at r)
    (ac_created_by r) (ac_updated_by r).

(** [bank.card_products], by bank and id. *)
Record product_row := ProductRow {
  pr_product_code : string; pr_name : string; pr_status : string; pr_configuration : json;
  pr_configuration_version : Z; pr_created_at : Z; pr_updated_at : Z; pr_created_by : string;
  pr_updated_by : string;
}.
#[export] Instance product_row_eta : Settable product_row :=
  fun r => ProductRow (pr_product_code r) (pr_name r) (pr_status r) (pr_configuration r)
    (pr_configuration_version r) (pr_created_at r) (pr_updated_at r) (pr_created_by r)
    (pr_updated_by r).

(** [bank.cards], by bank and id. *)
Record card_row := CardRow {
  cd_client_id : string; cd_account_reference_id : string; cd_product_id : string;
  cd_status : string; cd_masked_pan : option string; cd_predecessor_card_id : option string;
  cd_issued_at : option Z; cd_activated_at : option Z; cd_suspended_at : option Z;
  cd_closed_at : option Z; cd_expires_at : option Z; cd_version : Z; cd_created_at : Z;
  cd_updated_at : Z; cd_created_by : string; cd_updated_by : string;
}.
#[export] Instance card_row_eta : Settable card_row :=
  fun r => CardRow (cd_client_id r) (cd_account_reference_id r) (cd_product_id r) (cd_status r)
    (cd_masked_pan r) (cd_predecessor_card_id r) (cd_issued_at r) (cd_activated_at r)
    (cd_suspended_at r) (cd_closed_at r) (cd_expires_at r) (cd_version r) (cd_created_at r)
    (cd_updated_at r) (cd_created_by r) (cd_updated_by r).

(** [bank.card_operations], by bank and id. *)
Record operation_row := OperationRow {
  op_card_id : string; op_action : string; op_status : string; op_reason : string;
  op_actor_user_id : option string; op_actor_role : string; op_actor_entity_id : option string;
  op_executor_identity : option string; op_request_id : string; op_started_at : option Z;
  op_completed_at : option Z; op_failure_code : option string;
  op_failure_summary : option string; op_created_at : Z; op_updated_at : Z;
  op_created_by : option string; op_updated_by : option string;
}.
#[export] Instance operation_row_eta : Settable operation_row :=
  fun r => OperationRow (op_card_id r) (op_action r) (op_status r) (op_reason r) (op_actor_user_id r)
    (op_actor_role r) (op_actor_entity_id r) (op_executor_identity r) (op_request_id r)
    (op_started_at r) (op_completed_at r) (op_failure_code r) (op_failure_summary r)
    (op_created_at r) (op_updated_at r) (op_created_by r) (op_updated_by r).

(** [bank.card_status_history]. *)
Record history_row := HistoryRow {
  hi_entity_id : string; hi_id : string; hi_card_id : string; hi_operation_id : string;
  hi_previous_status : string; hi_new_status : string; hi_reason : string;
  hi_actor_user_id : option string; hi_actor_role : string; hi_actor_entity_id : option string;
  hi_executor_identity : option string; hi_created_at : Z;
}.
#[export] Instance history_row_eta : Settable history_row :=
  fun r => HistoryRow (hi_entity_id r) (hi_id r) (hi_card_id r) (hi_operation_id r) (hi_previous_status r)
    (hi_new_status r) (hi_reason r) (hi_actor_user_id r) (hi_actor_role r)
    (hi_actor_entity_id r) (hi_executor_identity r) (hi_created_at r).

(** [bank.audit_events]. *)
Record audit_row := AuditRow {
  au_entity_id : string; au_actor_user_id : option string; au_actor_role : string;
  au_actor_entity_id : option string; au_executor_identity : option string; au_action : string;
  au_resource_type : string; au_resource_id : string; au_outcome : string;
  au_request_id : string; au_occurred_at : Z; au_details : json;
}.
#[export] Instance audit_row_eta : Settable audit_row :=
  fun r => AuditRow (au_entity_id r) (au_actor_user_id r) (au_actor_role r) (au_actor_entity_id r)
    (au_executor_identity r) (au_action r) (au_resource_type r) (au_resource_id r)
    (au_outcome r) (au_request_id r) (au_occurred_at r) (au_details r).

(** [bank.idempotency_records], by bank, scope and key. *)
Record idem_row := IdemRow {
  id_id : string; id_request_fingerprint : string; id_status : string;
  id_response_status : option Z; id_response_body : option json;
  id_result_reference : option string; id_expires_at : Z; id_created_by : string;
  id_updated_by : string;
}.
#[export] Instance idem_row_eta : Settable idem_row :=
  fun r => IdemRow (id_id r) (id_request_fingerprint r) (id_status r) (id_response_status r)
    (id_response_body r) (id_result_reference r) (id_expires_at r) (id_created_by r)
    (id_updated_by r).

(** [bank.card_status_batches], by bank and id. *)
Record batch_row := BatchRow {
  ba_target_status : string; ba_reason : string; ba_requested_by : string;
  ba_requester_role : string; ba_requester_entity_id : option string; ba_request_id : string;
  ba_idempotency_record_id : string; ba_status : string; ba_item_count : Z; ba_applied_count : Z;
  ba_ignored_count : Z; ba_attempt_count : Z; ba_next_attempt_at : Z;
  ba_lease_owner : option string; ba_lease_expires_at : option Z; ba_lease_version : Z;
  ba_started_at : option Z; ba_completed_at : option Z; ba_failure_code : option string;
  ba_failure_summary : option string; ba_retry_of_batch_id : option string; ba_created_at : Z;
  ba_updated_at : Z; ba_created_by : string; ba_updated_by : string;
}.
#[export] Instance batch_row_eta : Settable batch_row :=
  fun r => BatchRow (ba_target_status r) (ba_reason r) (ba_requested_by r) (ba_requester_role r)
    (ba_requester_entity_id r) (ba_request_id r) (ba_idempotency_record_id r) (ba_status r)
    (ba_item_count r) (ba_applied_count r) (ba_ignored_count r) (ba_attempt_count r)
    (ba_next_attempt_at r) (ba_lease_owner r) (ba_lease_expires_at r) (ba_lease_version r)
    (ba_started_at r) (ba_completed_at r) (ba_failure_code r) (ba_failure_summary r)
    (ba_retry_of_batch_id r) (ba_created_at r) (ba_updated_at r) (ba_created_by r)
    (ba_updated_by r).

(** [bank.card_status_batch_items], by bank and id. *)
Record item_row := ItemRow {
  it_batch_id : string; it_card_id : string; it_operation_id : string;
  it_previous_status : option string; it_outcome : string; it_failure_code : option string;
}.
#[export] Instance item_row_eta : Settable item_row :=
  fun r => ItemRow (it_batch_id r) (it_card_id r) (it_operation_id r) (it_previous_status r) (it_outcome r)
    (it_failure_code r).

(** [bank.card_expiry_runs], by bank and id; [run_date] is a day number. *)
Record run_row := RunRow {
  ru_run_date : Z; ru_status : string; ru_item_count : Z; ru_expired_count : Z;
  ru_skipped_already_expired_count : Z; ru_manual_retry_required_count : Z;
  ru_executor_identity : string; ru_created_at : Z; ru_updated_at : Z;
  ru_completed_at : option Z;
}.
#[export] Instance run_row_eta : Settable run_row :=
  fun r => RunRow (ru_run_date r) (ru_status r) (ru_item_count r) (ru_expired_count r)
    (ru_skipped_already_expired_count r) (ru_manual_retry_required_count r)
    (ru_executor_identity r) (ru_created_at r) (ru_updated_at r) (ru_completed_at r).

(** [bank.card_expiry_run_items], by bank and id. *)
Record expiry_row := ExpiryRow {
  ex_expiry_run_id : string; ex_card_id : string; ex_operation_id : string; ex_status : string;
  ex_attempt_count : Z; ex_automatic_retry_count : Z; ex_manual_retry_count : Z;
  ex_next_attempt_at : Z; ex_lease_owner : option string; ex_lease_expires_at : option Z;
  ex_lease_version : Z; ex_failure_code : option string; ex_manual_retry_by : option string;
  ex_manual_retry_at : option Z; ex_created_at : Z; ex_updated_at : Z;
}.
#[export] Instance expiry_row_eta : Settable expiry_row :=
  fun r => ExpiryRow (ex_expiry_run_id r) (ex_card_id r) (ex_operation_id r) (ex_status r)
    (ex_attempt_count r) (ex_automatic_retry_count r) (ex_manual_retry_count r)
    (ex_next_attempt_at r) (ex_lease_owner r) (ex_lease_expires_at r) (ex_lease_version r)
    (ex_failure_code r) (ex_manual_retry_by r) (ex_manual_retry_at r) (ex_created_at r)
    (ex_updated_at r).

(** [bank.authorization_verifications], by bank and transaction reference. *)
Record authz_row := AuthzRow {
  az_decision_id : string; az_card_id : option string; az_decision : string;
  az_decision_code : string; az_decided_at : Z;
}.
#[export] Instance authz_row_eta : Settable authz_row :=
  fun r => AuthzRow (az_decision_id r) (az_card_id r) (az_decision r) (az_decision_code r) (az_decided_at r).

Abbreviation key := (string * string)%type.

Record shard_db := ShardDb {
  entities : gmap string entity_row;
  clients : gmap key client_row;
  accounts : gmap key account_row;
  products : gmap key product_row;
  cards : gmap key card_row;
  operations : gmap key operation_row;
  history : list history_row;
  audit : list audit_row;
  idem : gmap (string * string * string) idem_row;
  batches : gmap key batch_row;
  batch_items : gmap key item_row;
  expiry_runs : gmap key run_row;
  expiry_items : gmap key expiry_row;
  authz : gmap key authz_row
}.
#[export] Instance shard_db_eta : Settable shard_db :=
  fun r => ShardDb (entities r) (clients r) (accounts r) (products r) (cards r) (operations r)
    (history r) (audit r) (idem r) (batches r) (batch_items r) (expiry_runs r) (expiry_items r)
    (authz r).

Definition empty_shard : shard_db := ShardDb ∅ ∅ ∅ ∅ ∅ ∅ [] [] ∅ ∅ ∅ ∅ ∅ ∅.

(** ** Control tables *)

(** [control.bank_routing_entries], by entity. *)
Record route_row := RouteRow {
  ro_shard_id : string; ro_placement_status : string; ro_created_at : Z; ro_updated_at : Z;
}.
#[export] Instance route_row_eta : Settable route_row :=
  fun r => RouteRow (ro_shard_id r) (ro_placement_status r) (ro_created_at r) (ro_updated_at r).

(** [control.users], by id. *)
Record user_row := UserRow {
  us_normalized_username : string; us_password_hash : string; us_role : string;
  us_entity_id : option string; us_status : string; us_auth_version : Z; us_created_at : Z;
  us_updated_at : Z; us_created_by : option string; us_updated_by : option string;
}.
#[export] Instance user_row_eta : Settable user_row :=
  fun r => UserRow (us_normalized_username r) (us_password_hash r) (us_role r) (us_entity_id r)
    (us_status r) (us_auth_version r) (us_created_at r) (us_updated_at r) (us_created_by r)
    (us_updated_by r).

(** [control.auth_sessions], by id. *)
Record session_row := SessionRow {
  se_user_id : string; se_auth_version : Z; se_created_at : Z; se_expires_at : Z;
  se_last_refreshed_at : Z; se_revoked_at : option Z; se_revocation_reason : option string;
}.
#[export] Instance session_row_eta : Settable session_row :=
  fun r => SessionRow (se_user_id r) (se_auth_version r) (se_created_at r) (se_expires_at r)
    (se_last_refreshed_at r) (se_revoked_at r) (se_revocation_reason r).

(** [control.refresh_tokens], by id. *)
Record token_row := TokenRow {
  to_session_id : string; to_token_hash : string; to_parent_token_id : option string;
  to_issued_at : Z; to_expires_at : Z; to_consumed_at : option Z;
}.
#[export] Instance token_row_eta : Settable token_row :=
  fun r => TokenRow (to_session_id r) (to_token_hash r) (to_parent_token_id r) (to_issued_at r)
    (to_expires_at r) (to_consumed_at r).

(** [control.authentication_audit_events]. *)
Record auth_audit_row := AuthAuditRow {
  aa_event_type : string; aa_outcome : string; aa_actor_user_id : option string;
  aa_subject_user_id : option string; aa_entity_id : option string;
  aa_session_id : option string; aa_request_id : string; aa_occurred_at : Z; aa_details : json;
}.
#[export] Instance auth_audit_row_eta : Settable auth_audit_row :=
  fun r => AuthAuditRow (aa_event_type r) (aa_outcome r) (aa_actor_user_id r) (aa_subject_user_id r)
    (aa_entity_id r) (aa_session_id r) (aa_request_id r) (aa_occurred_at r) (aa_details r).

(** [control.command_idempotency_records], by scope and key. *)
Record command_row := CommandRow {
  cm_request_fingerprint : string; cm_response_status : Z; cm_response_body : json;
  cm_result_reference : option string; cm_expires_at : Z;
}.
#[export] Instance command_row_eta : Settable command_row :=
  fun r => CommandRow (cm_request_fingerprint r) (cm_response_status r) (cm_response_body r)
    (cm_result_reference r) (cm_expires_at r).

Record control_db := ControlDb {
  routes : gmap string route_row;
  users : gmap string user_row;
  sessions : gmap string session_row;
  tokens : gmap string token_row;
  auth_audit : list auth_audit_row;
  commands : gmap key command_row
}.
#[export] Instance control_db_eta : Settable control_db :=
  fun r => ControlDb (routes r) (users r) (sessions r) (tokens r) (auth_audit r) (commands r).

Definition empty_control : control_db := ControlDb ∅ ∅ ∅ ∅ [] ∅.

(** ** Queries shared by the repositories *)

(** The rows of one bank in a table, sorted by id (uuid order). *)
Definition bank_rows {A} (bank : string) (t : gmap key A) : list (string * A) :=
  let ids := sort_strings (omap (fun p : key * A => if bool_decide (p.1.1 = bank) then Some p.1.2 else None) (map_to_list t)) in
  omap (fun i => (i,.) <$> t !! (bank, i)) ids.

(** [ORDER BY created_at DESC, id DESC] of rows sorted by id. *)
Definition newer {A} (at_ : A -> Z) (p q : string * A) : Prop :=
  at_ q.2 < at_ p.2 \/ (at_ p.2 = at_ q.2 /\ String.le q.1 p.1).
#[export] Instance newer_dec {A} (at_ : A -> Z) : RelDecision (newer at_).
Proof. intros p q. unfold newer. apply _. Defined.
Definition newest_first {A} (at_ : A -> Z) (l : list (string * A)) : list (string * A) := merge_sort (newer at_) l.

(** SQL's [=] against a nullable column, false on NULL. *)
Definition sql_eq {A} `{EqDecision A} (col : option A) (v : A) : bool := bool_decide (col = Some v).

(** ** Lemmas *)

Lemma bank_ids_spec {A} (bank : string) (t : gmap key A) (id : string) :
  id ∈ omap (fun p : key * A => if bool_decide (p.1.1 = bank) then Some p.1.2 else None) (map_to_list t) <->
  is_Some (t !! (bank, id)).
Proof.
  rewrite list_elem_of_omap. split.
  - intros ([[b i] a] & Hin & H). cbn in H. case_bool_decide as Hb; [|done]. injection H as ->. subst b.
    apply elem_of_map_to_list in Hin. eauto.
  - intros [a Ha]. exists ((bank, id), a). rewrite elem_of_map_to_list. split; [done|]. cbn.
    by rewrite bool_decide_eq_true_2.
Qed.

Lemma bank_rows_spec {A} (bank : string) (t : gmap key A) (id : string) (a : A) :
  (id, a) ∈ bank_rows bank t <-> t !! (bank, id) = Some a.
Proof.
  unfold bank_rows, sort_strings. rewrite list_elem_of_omap. split.
  - intros (i & _ & H). destruct (t !! (bank, i)) eqn:E; [|done]. cbn in H. congruence.
  - intros Ha. exists id. rewrite merge_sort_Permutation, bank_ids_spec, Ha. eauto.
Qed.

Lemma sql_eq_true {A} `{EqDecision A} (col : option A) v : sql_eq col v = true <-> col = Some v.
Proof. unfold sql_eq. apply bool_decide_eq_true. Qed.

Lemma bank_ids_NoDup {A} (bank : string) (l : list (key * A)) :
  NoDup (fst <$> l) -> NoDup (omap (fun p : key * A => if bool_decide (p.1.1 = bank) then Some p.1.2 else None) l).
Proof.
  induction l as [|[[b i] a] l IH]; cbn; [constructor|]. intros [Hn Hl]%NoDup_cons.
  case_bool_decide as Hb; [|by apply IH]. constructor; [|by apply IH]. intros Hin. apply Hn.
  apply list_elem_of_omap in Hin as ([[b' i'] a'] & Hin & H). cbn in H. case_bool_decide as Hb'; [|done].
  injection H as ->. apply list_elem_of_fmap. exists ((b', i), a'). split; [|done]. cbn. congruence.
Qed.

(** A bank has one row for an id. *)
Lemma bank_rows_NoDup {A} (bank : string) (t : gmap key A) : NoDup (fst <$> bank_rows bank t).
Proof.
  unfold bank_rows. cbv zeta. set (ids := sort_strings _).
  assert (Hids : NoDup ids).
  { subst ids. unfold sort_strings. rewrite merge_sort_Permutation. apply bank_ids_NoDup, NoDup_fst_map_to_list. }
  clearbody ids. induction Hids as [|i ids Hi Hids IH]; cbn; [constructor|].
  destruct (t !! (bank, i)); cbn; [|done]. constructor; [|done]. intros Hin. apply Hi.
  apply list_elem_of_fmap in Hin as ([i' a'] & Heq & Hin). cbn in Heq. subst i'.
  apply list_elem_of_omap in Hin as (j & Hj & H). destruct (t !! (bank, j)); [|done]. cbn in H. congruence.
Qed.
