(* ===== verification/Uuid.v ===== *)
(** * UUID text

    The generators of random version 4 identifiers of every package (they are
    written five times in the source) and the three validators of canonical
    lowercase UUID text.  A generator is a function of the sixteen bytes
    [crypto/rand] delivers. *)

From S2P Require Import Prelude.
Open Scope string_scope.
Open Scope list_scope.
Open Scope Z_scope.

Definition hex_digit (n : Z) : Ascii.ascii :=
  default (Ascii.ascii_of_N 48) (String.get (Z.to_nat n) "0123456789abcdef").

(** [hex.EncodeToString]. *)
Definition hex_encode (bs : list Z) : string :=
  String.string_of_list_ascii
    (concat (List.map (fun b => [hex_digit (Z.shiftr b 4); hex_digit (Z.land b 15)]) bs)).

(** [b[6] = b[6]&15 | 64; b[8] = b[8]&63 | 128]. *)
Definition set_version (bs : list Z) : list Z :=
  alter (fun b => Z.lor (Z.land b 63) 128) 8%nat
    (alter (fun b => Z.lor (Z.land b 15) 64) 6%nat bs).

(** The slicing of the 32 hexadecimal digits in [card], [authorization] and
    [server]. *)
Definition dashed (v : string) : string :=
  String.substring 0 8 v +:+ "-" +:+ String.substring 8 4 v +:+ "-" +:+ String.substring 12 4 v
  +:+ "-" +:+ String.substring 16 4 v +:+ "-" +:+ String.substring 20 12 v.

(** [newUUID] of internal/card. *)
Definition card_newUUID (bs : list Z) : string := dashed (hex_encode (set_version bs)).
(** [newDecisionID] of internal/authorization. *)
Definition newDecisionID (bs : list Z) : string := dashed (hex_encode (set_version bs)).
(** [randomUUID] of internal/server. *)
Definition randomUUID (bs : list Z) : string := dashed (hex_encode (set_version bs)).

(** [b[lo:hi]] of a byte slice. *)
Definition slice (lo hi : nat) (bs : list Z) : list Z := take (hi - lo) (drop lo bs).

(** [newUUID] of internal/batch: each group is encoded on its own. *)
Definition batch_newUUID (bs : list Z) : string :=
  let b := set_version bs in
  hex_encode (slice 0 4 b) +:+ "-" +:+ hex_encode (slice 4 6 b) +:+ "-" +:+
  hex_encode (slice 6 8 b) +:+ "-" +:+ hex_encode (slice 8 10 b) +:+ "-" +:+
  hex_encode (drop 10 b).
(** [newUUID] of internal/bank. *)
Definition bank_newUUID (bs : list Z) : string :=
  let b := set_version bs in
  hex_encode (slice 0 4 b) +:+ "-" +:+ hex_encode (slice 4 6 b) +:+ "-" +:+
  hex_encode (slice 6 8 b) +:+ "-" +:+ hex_encode (slice 8 10 b) +:+ "-" +:+
  hex_encode (drop 10 b).

(** [formatUUID] of internal/auth: a loop over the bytes that writes a dash
    before the bytes 4, 6, 8 and 10. *)
Fixpoint formatUUID_loop (index : nat) (bs : list Z) : list Ascii.ascii :=
  match bs with
  | [] => []
  | value :: rest =>
      (if (index =? 4)%nat || (index =? 6)%nat || (index =? 8)%nat || (index =? 10)%nat
       then [Ascii.ascii_of_N 45] else []) ++
      hex_digit (Z.shiftr value 4) :: hex_digit (Z.land value 15) :: formatUUID_loop (S index) rest
  end.
Definition formatUUID (bs : list Z) : string := String.string_of_list_ascii (formatUUID_loop 0 bs).
(** [newUUID] of internal/auth. *)
Definition auth_newUUID (bs : list Z) : string := formatUUID (set_version bs).

(** ** Validators *)

(** [char >= '0' && char <= '9' || char >= 'a' && char <= 'f']. *)
Definition uuid_hex_char (c : Ascii.ascii) : bool :=
  let n := Ascii.N_of_ascii c in
  (48 <=? n)%N && (n <=? 57)%N || (97 <=? n)%N && (n <=? 102)%N.

(** The loop over the characters and their indices.  A non-ASCII character
    fails both tests, as each of its bytes does here. *)
Fixpoint uuid_chars (index : nat) (l : list Ascii.ascii) : bool :=
  match l with
  | [] => true
  | char :: rest =>
      if (index =? 8)%nat || (index =? 13)%nat || (index =? 18)%nat || (index =? 23)%nat
      then bool_decide (char = Ascii.ascii_of_N 45) && uuid_chars (S index) rest
      else uuid_hex_char char && uuid_chars (S index) rest
  end.

(** [ValidUUID] of internal/server/validation.go. *)
Definition ValidUUID (value : string) : bool :=
  if negb (String.length value =? 36)%nat || (to_lower value != value) then false
  else uuid_chars 0 (String.list_ascii_of_string value).
(** [validUUID] of internal/auth/jwt.go. *)
Definition validUUID (value : string) : bool :=
  if negb (String.length value =? 36)%nat || (to_lower value != value) then false
  else uuid_chars 0 (String.list_ascii_of_string value).
(** [isCanonicalUUID] of internal/batch. *)
Definition isCanonicalUUID (value : string) : bool :=
  if negb (String.length value =? 36)%nat || (to_lower value != value) then false
  else uuid_chars 0 (String.list_ascii_of_string value).

(** ** Lemmas *)

(** The characters of a UUID. *)
Lemma uuid_chars_all (P : Ascii.ascii -> Prop) l : P (Ascii.ascii_of_N 45) -> (forall c, uuid_hex_char c = true -> P c) ->
  forall i, uuid_chars i l = true -> Forall P l.
Proof.
  intros Hd Hh. induction l as [|c l IH]; intros i H; [constructor|]. cbn [uuid_chars] in H.
  case_match; apply andb_true_iff in H as [Hc Hl]; (constructor; [|by eapply IH]); [|by apply Hh].
  by apply bool_decide_eq_true in Hc as ->.
Qed.
Lemma ValidUUID_all (P : Ascii.ascii -> Prop) s : P (Ascii.ascii_of_N 45) -> (forall c, uuid_hex_char c = true -> P c) ->
  ValidUUID s = true -> Forall P (String.list_ascii_of_string s).
Proof. intros Hd Hh H. unfold ValidUUID in H. case_match; [done|]. by eapply uuid_chars_all. Qed.
Lemma ValidUUID_length s : ValidUUID s = true -> String.length s = 36%nat.
Proof. unfold ValidUUID. intros H. case_match eqn:E; [done|]. by apply orb_false_iff in E as [E%negb_false_iff%Nat.eqb_eq _]. Qed.

Definition is_byte (b : Z) : Prop := 0 <= b < 256.
Definition random_bytes (bs : list Z) : Prop := length bs = 16%nat /\ Forall is_byte bs.

Lemma hex_digit_cases (n : Z) (P : Ascii.ascii -> Prop) :
  (forall i, In i (String.list_ascii_of_string "0123456789abcdef") -> P i) -> P (hex_digit n).
Proof.
  intros H. unfold hex_digit. set (k := Z.to_nat n). clearbody k.
  do 16 (destruct k as [|k]; [apply H; simpl; tauto|]).
  simpl. apply H. simpl. tauto.
Qed.

Lemma hex_digit_hex (n : Z) : uuid_hex_char (hex_digit n) = true.
Proof. apply hex_digit_cases. intros i Hi. simpl in Hi. destruct_or! Hi; by subst. Qed.

Lemma hex_digit_lower (n : Z) : lower_char (hex_digit n) = hex_digit n.
Proof. apply hex_digit_cases. intros i Hi. simpl in Hi. destruct_or! Hi; by subst. Qed.

Lemma to_lower_list (l : list Ascii.ascii) :
  to_lower (String.string_of_list_ascii l) = String.string_of_list_ascii (lower_char <$> l).
Proof. induction l as [|a l IH]; simpl; [done|]. by rewrite IH. Qed.

(** A UUID written with its 32 hexadecimal digits. *)
Lemma formatUUID_valid (bs : list Z) : length bs = 16%nat -> ValidUUID (formatUUID bs) = true.
Proof.
  intros H. do 16 (destruct bs as [|? bs]; [done|]). destruct bs; [|done]. clear H.
  unfold ValidUUID, formatUUID. rewrite to_lower_list.
  cbn [formatUUID_loop Nat.eqb orb app list_fmap fmap].
  cbn [list_fmap]. unfold fmap. cbn [list_fmap].
  rewrite !hex_digit_lower.
  change (lower_char (Ascii.ascii_of_N 45)) with (Ascii.ascii_of_N 45).
  rewrite String.eqb_refl. rewrite String.list_ascii_of_string_of_list_ascii.
  cbn [uuid_chars Nat.eqb orb negb]. rewrite !hex_digit_hex. reflexivity.
Qed.

Lemma set_version_length (bs : list Z) : length (set_version bs) = length bs.
Proof. unfold set_version. by rewrite !length_alter. Qed.

Ltac sixteen bs :=
  let H := fresh in
  intros H; do 16 (destruct bs as [|? bs]; [discriminate H|]); destruct bs; [clear H|discriminate H].

(** Slicing the 32 digits, encoding group by group and the byte loop write the
    same text. *)
Lemma dashed_formatUUID (bs : list Z) : length bs = 16%nat -> dashed (hex_encode bs) = formatUUID bs.
Proof. sixteen bs. reflexivity. Qed.

Lemma batch_formatUUID (bs : list Z) :
  length bs = 16%nat -> batch_newUUID bs = formatUUID (set_version bs).
Proof. sixteen bs. reflexivity. Qed.

(** The byte whose top half is the version nibble of a version 4 UUID. *)
Lemma version_nibble (b : Z) : is_byte b -> Z.shiftr (Z.lor (Z.land b 15) 64) 4 = 4.
Proof.
  intros Hb. rewrite Z.shiftr_lor, Z.shiftr_land. change (Z.shiftr 15 4) with 0.
  by rewrite Z.land_0_r.
Qed.

Lemma variant_nibble (b : Z) : is_byte b ->
  let n := Z.shiftr (Z.lor (Z.land b 63) 128) 4 in 8 <= n <= 11.
Proof.
  intros Hb. cbv zeta. rewrite Z.shiftr_lor, Z.shiftr_land.
  change (Z.shiftr 63 4) with 3. change (Z.shiftr 128 4) with 8.
  assert (0 <= Z.shiftr b 4 < 16) as Hs.
  { rewrite Z.shiftr_div_pow2 by lia. unfold is_byte in Hb. change (2 ^ 4) with 16.
    split; [apply Z.div_pos; lia|apply Z.div_lt_upper_bound; lia]. }
  assert (Hn : exists k, Z.shiftr b 4 = Z.of_nat k /\ (k < 16)%nat) by (exists (Z.to_nat (Z.shiftr b 4)); lia).
  destruct Hn as (k & -> & Hk).
  do 16 (destruct k as [|k]; [vm_compute; split; discriminate|]). lia.
Qed.

(** Only the six fixed bits are lost: the text determines the masked bytes. *)
Lemma hex_digit_inj (m n : Z) : 0 <= m < 16 -> 0 <= n < 16 -> hex_digit m = hex_digit n -> m = n.
Proof.
  intros Hm Hn. rewrite <- (Z2Nat.id m), <- (Z2Nat.id n) by lia.
  assert (Z.to_nat m < 16)%nat by lia. assert (Z.to_nat n < 16)%nat by lia.
  generalize dependent (Z.to_nat n). generalize dependent (Z.to_nat m). clear. intros a Ha b Hb.
  do 16 (destruct a as [|a]; [do 16 (destruct b as [|b]; [done|]); lia|]). lia.
Qed.

(** The generators written in card, authorization, server, batch, bank and auth
    are one function, and what it makes is a canonical version 4, variant 1
    UUID that every validator accepts. *)
Theorem generated_uuid_canonical (bs : list Z) (Hbs : random_bytes bs) :
  let u := auth_newUUID bs in
  card_newUUID bs = u /\ newDecisionID bs = u /\ randomUUID bs = u /\
  batch_newUUID bs = u /\ bank_newUUID bs = u /\
  ValidUUID u = true /\ validUUID u = true /\ isCanonicalUUID u = true /\
  String.get 14 u = Some (hex_digit 4) /\
  (exists n, 8 <= n <= 11 /\ String.get 19 u = Some (hex_digit n)).
Proof.
  destruct Hbs as [Hlen Hb]. cbv zeta.
  assert (Hsv : length (set_version bs) = 16%nat) by by rewrite set_version_length.
  assert (Hd : dashed (hex_encode (set_version bs)) = auth_newUUID bs) by by apply dashed_formatUUID.
  assert (Hv : ValidUUID (auth_newUUID bs) = true) by by apply formatUUID_valid.
  repeat (split; [first [exact Hd | by apply batch_formatUUID | exact Hv]|]).
  clear Hd Hv Hsv. revert Hlen Hb. sixteen bs. intros Hb. rewrite !Forall_cons in Hb.
  assert (is_byte z7) as Hi by tauto.
  split; [|exists (Z.shiftr (Z.lor (Z.land z7 63) 128) 4); split].
  - cbn. by rewrite version_nibble by tauto.
  - by apply variant_nibble.
  - reflexivity.
Qed.
Lemma generated_uuid_canonical_witness :
  ValidUUID (auth_newUUID (repeat 171 16)) = true.
Proof.
  refine (proj1 (proj2 (proj2 (proj2 (proj2 (proj2 (generated_uuid_canonical (repeat 171 16) _)))))));
  split; [done|]. cbn. repeat constructor; lia.
Defined.
