(* ===== verification/Requests.v ===== *)
(** * Requests: what the handlers of the API accept

    [DecodeRequest], [IdempotencyKey] and the bearer token of
    [internal/server/auth.go], the validators of [validation.go], and what they
    use of [mime], [strings] and [strconv].  A body is the bytes of the request;
    it decodes as [JsonText.unmarshal] says. *)

From S2P Require Import Prelude Text Json JsonText Http Uuid.
Open Scope string_scope.
Open Scope list_scope.
Open Scope Z_scope.

(** ** [mime.ParseMediaType] *)

Definition tspecial (c : N) : bool := bool_decide (c ∈ bytes_of "()<>@,;:\/[]?=") || (c =? 34)%N.
Definition token_char (c : N) : bool := (32 <? c)%N && (c <? 127)%N && negb (tspecial c).
Fixpoint consumeToken (l : list N) : list N * list N :=
  match l with
  | c :: rest => if token_char c then let (t, r) := consumeToken rest in (c :: t, r) else ([], l)
  | [] => ([], [])
  end.
(** The characters of a quoted string after its opening quote; [None] when the
    closing one is missing. *)
Fixpoint quoted_value (l : list N) : option (list N * list N) :=
  match l with
  | [] => None
  | c :: rest =>
      if (c =? 34)%N then Some ([], rest)
      else match rest with
      | e :: rest' =>
          if (c =? 92)%N && tspecial e then prepend [e] (quoted_value rest')
          else if (c =? 13)%N || (c =? 10)%N then None else prepend [c] (quoted_value rest)
      | [] => None
      end
  end.
(** [consumeValue]; [None] is the empty value with nothing consumed. *)
Definition consumeValue (l : list N) : option (list N * list N) :=
  match l with
  | [] => None
  | c :: rest =>
      if (c =? 34)%N then quoted_value rest
      else match consumeToken l with ([], _) => None | p => Some p end
  end.

(** [strings.TrimLeftFunc(v, unicode.IsSpace)]. *)
Definition trim_left (l : list N) : list N := trim_with space_prefix (length l) l.
Definition lower_bytes (l : list N) : string := to_lower (of_bytes l).

(** [consumeMediaParam]: the name in lower case, the value and the rest. *)
Definition consumeMediaParam (v : list N) : option (string * string * list N) :=
  match trim_left v with
  | c :: rest =>
      if (c =? 59)%N then
        match consumeToken (trim_left rest) with
        | ([], _) => None
        | (param, rest) =>
            match trim_left rest with
            | c :: rest => if (c =? 61)%N then r ← consumeValue (trim_left rest); Some (lower_bytes param, of_bytes r.1, r.2) else None
            | [] => None
            end
        end
      else None
  | [] => None
  end.

(** The loop over the parameters, whether it ends without an error; a parameter
    takes at least a character, so the length is fuel enough. *)
Fixpoint media_params (fuel : nat) (params : gmap string string) (l : list N) : bool :=
  match trim_left l, fuel with
  | [], _ => true
  | _ :: _, O => false
  | v, S fuel' =>
      match consumeMediaParam v with
      | None => trim_space (of_bytes v) == ";"
      | Some (key, value, rest) =>
          match params !! key with
          | Some other => (other == value) && media_params fuel' params rest
          | None => media_params fuel' (<[key := value]> params) rest
          end
      end
  end.

(** The base before the first semicolon and the rest. *)
Fixpoint cut_base (l : list N) : list N * list N :=
  match l with
  | c :: rest => if (c =? 59)%N then ([], l) else let (b, r) := cut_base rest in (c :: b, r)
  | [] => ([], [])
  end.
(** [checkMediaTypeDisposition]. *)
Definition media_type_ok (s : string) : bool :=
  match consumeToken (bytes_of s) with
  | ([], _) => false
  | (_, []) => true
  | (_, c :: rest) =>
      (c =? 47)%N && match consumeToken rest with ([], _) => false | (_, []) => true | (_, _ :: _) => false end
  end.
Definition ParseMediaType (v : string) : option string :=
  let (base, rest) := cut_base (bytes_of v) in
  let mediatype := trim_space (lower_bytes base) in
  if media_type_ok mediatype && media_params (length rest) ∅ rest then Some mediatype else None.

(** ** The body and the key *)

Definition max_body : Z := 32768.
Definition DecodeRequest {R} (fs : fields R) (zero : R) (r : Request) : option R :=
  match ParseMediaType (header r "Content-Type") with
  | Some mediaType =>
      if (mediaType != "application/json") || (max_body <? Z.of_nat (String.length (rq_body r))) then None
      else unmarshal true fs zero (rq_body r)
  | None => None
  end.

(** The key, or the response that refuses the request. *)
Definition IdempotencyKey (r : Request) : Reply + string :=
  let key := header r "Idempotency-Key" in
  if (String.length key <? 1)%nat || (256 <? String.length key)%nat then
    inl (writeProblem r 400 "invalid_idempotency_key" "Idempotency-Key must contain 1 to 256 characters.")
  else inr key.

(** ** The bearer token *)

(** [strings.Fields]; a character takes at least a byte, so the length is fuel
    enough. *)
Definition flush (word : list N) (words : list string) : list string :=
  match word with [] => words | _ => of_bytes (rev word) :: words end.
Fixpoint fields_with (fuel : nat) (l word : list N) : list string :=
  match fuel, l with
  | O, _ | _, [] => flush word []
  | S fuel', c :: rest =>
      match space_prefix l with
      | O => fields_with fuel' rest (c :: word)
      | width => flush word (fields_with fuel' (drop width l) [])
      end
  end.
Definition Fields (s : string) : list string := fields_with (String.length s) (bytes_of s) [].

(** The token of the Authorization header: two words, the first "Bearer" in any
    case ([strings.EqualFold]). *)
Definition bearer (r : Request) : option string :=
  match Fields (header r "Authorization") with
  | [scheme; token] => if to_lower scheme == "bearer" then Some token else None
  | _ => None
  end.
Definition invalid_access (r : Request) : Reply :=
  problem_reply [("WWW-Authenticate", "Bearer realm=" +:+ quote +:+ "card-issuer-api" +:+ quote +:+ ", error=" +:+ quote +:+ "invalid_token" +:+ quote)]
    r 401 "invalid_access_token" "A valid bearer access token is required.".

(** ** validation.go *)

Definition ValidCardStatus (value : string) : bool :=
  (value == "pending") || (value == "issued") || (value == "active") || (value == "suspended") || (value == "closed")
  || (value == "expired").

(** Whether [strconv.ParseFloat(literal, 64)] is in range: the value rounds to a
    finite number.  An exponent of more than five digits is cut, as there. *)
Fixpoint exponent_value (l : list N) (e : Z) : Z :=
  match l with
  | c :: rest => exponent_value rest (if e <? 10000 then e * 10 + Z.of_N (c - 48) else e)
  | [] => e
  end.
Definition decimal_exponent (l : list N) : Z :=
  match l with
  | _ :: s :: rest => if (s =? 45)%N then - exponent_value rest 0 else if (s =? 43)%N then exponent_value rest 0 else exponent_value (s :: rest) 0
  | _ => 0
  end.
Definition float_in_range (literal : string) : bool :=
  let l := match bytes_of literal with c :: rest => if (c =? 45)%N then rest else c :: rest | [] => [] end in
  let (int, rest) := take_digits l in
  let (frac, rest) := match rest with c :: r => if (c =? 46)%N then take_digits r else ([], rest) | [] => ([], []) end in
  let mantissa := foldl (fun a c => a * 10 + Z.of_N (c - 48)) 0 (int ++ frac) in
  let e := decimal_exponent rest - Z.of_nat (length frac) in
  let limit := 2 ^ 1024 - 2 ^ 970 in
  if mantissa =? 0 then true
  else if 0 <=? e then mantissa * 10 ^ e <? limit else mantissa <? limit * 10 ^ (- e).

(** Whether the text decodes into [any]. *)
Fixpoint decodable (t : jtext) : bool :=
  match t with
  | TNum literal => float_in_range literal
  | TArr l => forallb decodable l
  | TObj l => forallb (fun p => decodable p.2) l
  | _ => true
  end.
Definition JSONObject (value : option jtext) : bool :=
  match value with Some (TObj l) => decodable (TObj l) | _ => false end.
Definition JSONObjectOrNil (value : option jtext) : bool :=
  match value with None => true | Some _ => JSONObject value end.

(** ** A field of strings

    [[]string]: [None] is nil.  A later member with the same name decodes over
    the elements of an earlier one, so [null] in it keeps them; what is past the
    visible elements stays in the second list. *)

Definition strings := option (list string * list string).
Definition visible (s : strings) : list string := from_option fst [] s.
Fixpoint strings_over (l : list jtext) (old : list string) : option (list string * list string) :=
  match l with
  | [] => Some ([], old)
  | t :: rest =>
      s ← match t with TStr s => Some s | TNull => Some (default "" (head old)) | _ => None end;
      r ← strings_over rest (tail old);
      Some (s :: r.1, r.2)
  end.
Definition strings_field {R} (get : R -> strings) (put : strings -> R -> R) (t : jtext) (r : R) : option R :=
  match t with
  | TNull => Some (put None r)
  | TArr [] => Some (put (Some ([], [])) r)
  | TArr l => s ← strings_over l (from_option (fun s => s.1 ++ s.2) [] (get r)); Some (put (Some s) r)
  | _ => None
  end.
Definition strings_json (s : strings) : json := match s with None => JNull | Some (l, _) => JArr (List.map JStr l) end.

(** ** Examples *)

Example media_types : List.map ParseMediaType
    ["application/json"; "Application/JSON ; charset=utf-8"; "application/json;charset=" +:+ quoted "a\;b" +:+ "; x=1;";
     "application/json; charset"; "application/json;a=1;A=2"; ""; "application/"; "application/json charset=utf-8"] =
  [Some "application/json"; Some "application/json"; Some "application/json"; None; None; None; None; None].
Proof. by vm_compute. Qed.
Example bearer_words : List.map Fields ["Bearer  abc "; ""; "a b c"] = [["Bearer"; "abc"]; []; ["a"; "b"; "c"]].
Proof. by vm_compute. Qed.
Example float_bounds : List.map float_in_range ["1.7976931348623158e308"; "1.8e308"; "-1e400"; "0e99999"; "1e-500"; "12.5"] =
  [true; false; false; true; true; true].
Proof. by vm_compute. Qed.
