(* ===== verification/Pagination.v ===== *)
(** * Pagination: pages of a collection and their signed cursors

    [collection], [cursorEncode], [cursorDecode], [canonicalQuery] and
    [collectionKey] of [internal/server/resource.go].  HMAC-SHA-256 is the
    parameter [hmac], from a key and a message.  The items of a collection are
    the values the services return, and their bytes what [json_encode] writes. *)

From S2P Require Import Prelude Text Json JsonText TimeText Http Uuid Base64.
Open Scope string_scope.
Open Scope list_scope.
Open Scope Z_scope.

Record pageCursor := MkCursor { pc_Kind : string; pc_Bank : string; pc_Filter : string; pc_Created : string; pc_ID : string }.

Definition pageCursor_json (c : pageCursor) : json :=
  JObj [("k", JStr (pc_Kind c)); ("b", JStr (pc_Bank c)); ("f", JStr (pc_Filter c)); ("c", JStr (pc_Created c));
        ("i", JStr (pc_ID c))].
Definition pageCursor_fields : fields pageCursor :=
  [("k", string_field (fun s c => MkCursor s (pc_Bank c) (pc_Filter c) (pc_Created c) (pc_ID c)));
   ("b", string_field (fun s c => MkCursor (pc_Kind c) s (pc_Filter c) (pc_Created c) (pc_ID c)));
   ("f", string_field (fun s c => MkCursor (pc_Kind c) (pc_Bank c) s (pc_Created c) (pc_ID c)));
   ("c", string_field (fun s c => MkCursor (pc_Kind c) (pc_Bank c) (pc_Filter c) s (pc_ID c)));
   ("i", string_field (fun s c => MkCursor (pc_Kind c) (pc_Bank c) (pc_Filter c) (pc_Created c) s))].
Definition empty_cursor : pageCursor := MkCursor "" "" "" "" "".

(** [collectionKey]: the creation time and the identifier of an item. *)
Definition key_fields : fields (string * string) :=
  [("id", string_field (fun s v => (s, v.2))); ("created_at", string_field (fun s v => (v.1, s)))].
Definition collectionKey (raw : string) : option (string * string) :=
  match unmarshal false key_fields ("", "") raw with
  | Some (id, created) => if negb (ValidUUID id) || (created == "") then None else Some (created, id)
  | None => None
  end.

Definition canonicalQuery (query : Values) : string := values_encode (delete "page_size" (delete "cursor" query)).

(** [strconv.Atoi]. *)
Definition Atoi (s : string) : option Z :=
  let bounded v := if (- max_int64 - 1 <=? v) && (v <=? max_int64) then Some v else None in
  let digits l := match l with [] => None | _ => digits_value l 0 end in
  match bytes_of s with
  | [] => None
  | c :: rest =>
      if (c =? 45)%N then v ← digits rest; bounded (- v)
      else if (c =? 43)%N then v ← digits rest; bounded v
      else v ← digits (c :: rest); bounded v
  end.

Section Pages.
Context (hmac : string -> string -> string) (cursorKey : string).

Definition cursorEncode (value : pageCursor) : string :=
  let payload := json_encode (pageCursor_json value) in
  RawEncode URLAlphabet payload +:+ "." +:+ RawEncode URLAlphabet (hmac cursorKey payload).

Definition cursorDecode (token kind bank filter : string) : option pageCursor :=
  match split dot token with
  | [part0; part1] =>
      payload ← Decode URLAlphabet false part0;
      signature ← Decode URLAlphabet false part1;
      if signature != hmac cursorKey payload then None
      else
        value ← unmarshal false pageCursor_fields empty_cursor payload;
        if (pc_Kind value != kind) || (pc_Bank value != bank) || (pc_Filter value != filter) || negb (ValidUUID (pc_ID value))
        then None else Some value
  | _ => None
  end.

(** The loop to the first item after the cursor; [None] is an item without a
    key. *)
Fixpoint seek (cursorTime : Z) (cursorID : string) (data : list json) : option nat :=
  match data with
  | [] => Some 0%nat
  | item :: rest =>
      k ← collectionKey (json_encode item);
      createdTime ← parse_rfc3339 k.1;
      if (createdTime <? cursorTime) || (createdTime =? cursorTime) && (String.ltb k.2 cursorID)
      then Some 0%nat else n ← seek cursorTime cursorID rest; Some (S n)
  end.

Definition page_limit (query : Values) : option Z :=
  let raw := query_get query "page_size" in
  if raw == "" then Some 50
  else match Atoi raw with
       | Some parsed => if (parsed <? 1) || (200 <? parsed) then None else Some parsed
       | None => None
       end.

Definition internal_error (r : Request) : Reply :=
  writeProblem r 500 "internal_error" "The request could not be completed.".
Definition invalid_cursor (r : Request) : Reply :=
  writeProblem r 400 "invalid_cursor" "The cursor is invalid for this collection.".

(** The part from [start] on. *)
Definition write_page (r : Request) (kind bank filter : string) (limit : Z) (data : list json) (start : nat) : Reply :=
  let end_ := Nat.min (start + Z.to_nat limit) (length data) in
  let page := take (end_ - start) (drop start data) in
  let answer next := writeJSON 200 (JObj [("data", JArr page); ("next_cursor", next)]) in
  match (if (end_ <? length data)%nat then last page else None) with
  | None => answer JNull
  | Some item =>
      match collectionKey (json_encode item) with
      | None => internal_error r
      | Some (created, id) => answer (JStr (cursorEncode (MkCursor kind bank filter created id)))
      end
  end.

Definition collection (r : Request) (kind bank : string) (data : list json) : Reply :=
  match page_limit (rq_query r) with
  | None => writeProblem r 400 "invalid_request" "page_size must be between 1 and 200."
  | Some limit =>
      let filter := canonicalQuery (rq_query r) in
      let token := query_get (rq_query r) "cursor" in
      if token == "" then write_page r kind bank filter limit data 0
      else match cursorDecode token kind bank filter with
      | None => invalid_cursor r
      | Some cursor =>
          match parse_rfc3339 (pc_Created cursor) with
          | None => invalid_cursor r
          | Some cursorTime =>
              match seek cursorTime (pc_ID cursor) data with
              | None => internal_error r
              | Some start => write_page r kind bank filter limit data start
              end
          end
      end
  end.
End Pages.
