(* ===== verification/PaginationSafety.v ===== *)
(** * PaginationSafety: what following the cursors of a collection delivers

    A cursor is accepted only with the signature of the server and only for the
    collection and filter it was issued for ([cursor_bound]).  A client that
    follows [next_cursor] over a collection that may change between its requests
    gets the items newest first, none twice, and at the end every item that was
    there all along ([pages_walk]); over a collection that stays as it is, exactly
    the collection. *)

From S2P Require Import Prelude Text Json JsonText TimeText JsonRoundtrip Http Uuid Base64 Pagination.
Open Scope string_scope.
Open Scope list_scope.
Open Scope Z_scope.

(** ** The order of a listing *)

(** Creation time and identifier; newer items come first, and larger
    identifiers among items of one time. *)
Definition item_key : Type := Z * string.
Definition before (k k' : item_key) : Prop := k'.1 < k.1 \/ (k.1 = k'.1 /\ String.le k'.2 k.2 /\ k'.2 <> k.2).

Lemma ltb_le a b : String.ltb a b = true <-> String.le a b /\ a <> b.
Proof.
  unfold String.le, String.ltb, String.leb. destruct (String.compare a b) eqn:E.
  - apply String.compare_eq_iff in E. split; [done|]. by intros [_ ?].
  - split; [|done]. intros _. split; [done|]. intros ->. pose proof (String.compare_antisym b b) as Ha. by rewrite E in Ha.
  - split; [done|]. by intros [? _].
Qed.

#[export] Instance before_trans : Transitive before.
Proof.
  intros [t1 i1] [t2 i2] [t3 i3]. unfold before. cbn. intros [H|(H & Hl & Hn)] [H'|(H' & Hl' & Hn')]; [left; lia..|].
  right. split; [lia|]. split; [by transitivity i2|]. intros ->. apply Hn. by apply (anti_symm String.le).
Qed.
Lemma before_irrefl k : ~ before k k.
Proof. destruct k as [t i]. unfold before. cbn. intros [?|(_ & _ & ?)]; [lia|done]. Qed.
Lemma before_asym k k' : before k k' -> ~ before k' k.
Proof. intros H H'. exact (before_irrefl k (transitivity H H')). Qed.
Lemma before_total k k' : before k k' \/ k = k' \/ before k' k.
Proof.
  destruct k as [t i], k' as [t' i']. unfold before. cbn. destruct (Z.lt_trichotomy t t') as [H|[->|H]]; [auto..|].
  - destruct (decide (i = i')) as [->|Hne]; [auto|]. destruct (total String.le i i') as [Hl|Hl]; [right; right|left]; right; split; auto.
  - auto.
Qed.

(** An item with its key, as the server reads it. *)
Definition keyed (x : json) (k : item_key) : Prop :=
  exists created, collectionKey (json_encode x) = Some (created, k.2) /\ parse_rfc3339 created = Some k.1 /\
    utf8_valid created = true.
(** A collection in the order of its listing. *)
Definition in_order (data : list json) : Prop :=
  exists keys, Forall2 keyed data keys /\ StronglySorted before keys.
Definition has_key (k : item_key) (data : list json) : Prop := exists x, x ∈ data /\ keyed x k.

Lemma keyed_unique x k k' : keyed x k -> keyed x k' -> k = k'.
Proof. intros (c & H1 & H2 & _) (c' & H1' & H2' & _). destruct k, k'. cbn in *. congruence. Qed.

(** ** Cursors *)

Lemma ValidUUID_utf8 s : ValidUUID s = true -> utf8_valid s = true.
Proof.
  intros H. apply ascii_utf8. unfold ascii_only, bytes_of. apply forallb_forall. intros b (c & <- & Hc)%in_map_iff.
  assert (Hall : Forall (fun c => (Ascii.N_of_ascii c <? 128)%N = true) (String.list_ascii_of_string s)).
  { eapply ValidUUID_all; [done| |done]. intros a. unfold uuid_hex_char. rewrite orb_true_iff, !andb_true_iff, !N.leb_le, N.ltb_lt. lia. }
  rewrite Forall_forall in Hall. by apply Hall, list_elem_of_In.
Qed.

Section Cursor.
Context (hmac : string -> string -> string) (cursorKey : string).

Definition cursor_utf8 (c : pageCursor) : bool :=
  utf8_valid (pc_Kind c) && utf8_valid (pc_Bank c) && utf8_valid (pc_Filter c) && utf8_valid (pc_Created c) && utf8_valid (pc_ID c).

Lemma cursor_payload c : cursor_utf8 c = true ->
  unmarshal false pageCursor_fields empty_cursor (json_encode (pageCursor_json c)) = Some c.
Proof.
  unfold cursor_utf8. rewrite !andb_true_iff. intros ((((Hk & Hb) & Hf) & Hc) & Hi).
  unfold pageCursor_json. rewrite unmarshal_written; [by destruct c| |by apply max_nesting_large].
  cbn. by rewrite Hk, Hb, Hf, Hc, Hi.
Qed.

(** An issued cursor is read back where kind, bank and filter are its own, and
    nowhere else. *)
Lemma cursorDecode_encode c kind bank filter : cursor_utf8 c = true -> ValidUUID (pc_ID c) = true ->
  cursorDecode hmac cursorKey (cursorEncode hmac cursorKey c) kind bank filter =
  if (pc_Kind c == kind) && (pc_Bank c == bank) && (pc_Filter c == filter) then Some c else None.
Proof.
  intros Hu Hid. unfold cursorDecode, cursorEncode. cbv zeta. rewrite split_dot_app, split_dot_none by apply encode_no_dot.
  rewrite !Decode_RawEncode by apply url_ok. cbn [mbind option_bind]. rewrite String.eqb_refl. cbn [negb].
  rewrite cursor_payload by done. cbn [mbind option_bind]. rewrite Hid. cbn [negb]. rewrite orb_false_r.
  by destruct (pc_Kind c == kind), (pc_Bank c == bank), (pc_Filter c == filter).
Qed.

(** What an accepted cursor is. *)
Lemma cursorDecode_some token kind bank filter c : cursorDecode hmac cursorKey token kind bank filter = Some c ->
  pc_Kind c = kind /\ pc_Bank c = bank /\ pc_Filter c = filter /\ ValidUUID (pc_ID c) = true /\
  exists part0 part1 payload, split dot token = [part0; part1] /\ Decode URLAlphabet false part0 = Some payload /\
    Decode URLAlphabet false part1 = Some (hmac cursorKey payload) /\
    unmarshal false pageCursor_fields empty_cursor payload = Some c.
Proof.
  unfold cursorDecode. destruct (split dot token) as [|p0 [|p1 [|? ?]]]; try done.
  destruct (Decode URLAlphabet false p0) as [payload|] eqn:H0; [|done].
  destruct (Decode URLAlphabet false p1) as [signature|] eqn:H1; [|done]. cbn [mbind option_bind].
  destruct (String.eqb_spec signature (hmac cursorKey payload)) as [->|]; [|done]. cbn [negb].
  destruct (unmarshal false pageCursor_fields empty_cursor payload) as [v|] eqn:Hv; [|done]. cbn [mbind option_bind].
  destruct ((pc_Kind v != kind) || (pc_Bank v != bank) || (pc_Filter v != filter) || negb (ValidUUID (pc_ID v))) eqn:E; [done|].
  intros [= <-]. rewrite !orb_false_iff, !negb_false_iff, !String.eqb_eq in E. destruct E as (((-> & ->) & ->) & Hid).
  repeat (split; [done|]). eauto 10.
Qed.
End Cursor.

(** ** One page *)

Lemma ascii_app a b : ascii_only (a +:+ b) = ascii_only a && ascii_only b.
Proof. unfold ascii_only. by rewrite bytes_of_app, forallb_app. Qed.
Lemma ascii_concat sep l : ascii_only sep = true -> Forall (fun s => ascii_only s = true) l -> ascii_only (String.concat sep l) = true.
Proof.
  intros Hsep. induction 1 as [|s l Hs Hl IH]; [done|]. destruct l as [|s' l]; [exact Hs|].
  change (String.concat sep (s :: s' :: l)) with (s +:+ sep +:+ String.concat sep (s' :: l)). by rewrite !ascii_app, Hs, Hsep, IH.
Qed.

Lemma escape_query_ascii b : (b < 256)%N -> Forall (fun b => (b < 128)%N) (escape_query_byte b).
Proof.
  intros Hb. unfold escape_query_byte. destruct (unreserved b) eqn:E.
  - constructor; [|done]. unfold unreserved in E. rewrite !orb_true_iff, !andb_true_iff, !N.leb_le, !N.eqb_eq in E. lia.
  - destruct (b =? 32)%N; [by repeat constructor|].
    assert (H1 : (b / 16 < 16)%N) by (apply N.Div0.div_lt_upper_bound; lia). assert (H2 : (b mod 16 < 16)%N) by (by apply N.mod_lt).
    revert H1 H2. generalize (b / 16)%N (b mod 16)%N. intros x y Hx Hy. unfold upper_hex. repeat constructor; case_match; lia.
Qed.
Lemma QueryEscape_ascii s : ascii_only (QueryEscape s) = true.
Proof.
  assert (Hl : Forall (fun b => (b < 128)%N) (List.concat (List.map escape_query_byte (bytes_of s)))).
  { induction (bytes_of_bound s) as [|b l Hb _ IH]; [constructor|]. cbn [List.map List.concat].
    apply Forall_app. split; [by apply escape_query_ascii|exact IH]. }
  unfold ascii_only, QueryEscape. rewrite bytes_of_of by (apply (Forall_impl _ _ _ Hl); cbn; lia).
  apply forallb_forall. intros b Hb. apply N.ltb_lt. rewrite Forall_forall in Hl. apply Hl. by apply list_elem_of_In.
Qed.
Lemma values_encode_utf8 q : utf8_valid (values_encode q) = true.
Proof.
  apply ascii_utf8, ascii_concat; [done|]. apply Forall_forall. intros s Hs%list_elem_of_In.
  apply in_concat in Hs as (l & Hl & Hs). apply in_map_iff in Hl as (k & <- & _). apply in_map_iff in Hs as (v & <- & _).
  by rewrite !ascii_app, !QueryEscape_ascii.
Qed.
Lemma canonicalQuery_utf8 q : utf8_valid (canonicalQuery q) = true.
Proof. apply values_encode_utf8. Qed.

Section Walk.
Context (hmac : string -> string -> string) (cursorKey kind bank : string).
Context (Hkind : utf8_valid kind = true) (Hbank : utf8_valid bank = true).

(** The request of the next page. *)
Definition with_cursor (token : string) (r : Request) : Request :=
  MkRequest (rq_method r) (rq_path r) (<["cursor" := [token]]> (rq_query r)) (rq_header r) (rq_body r) (rq_request_id r).

(** Items and cursor of an answer that is a page. *)
Definition page_of (reply : Reply) : option (list json * option string) :=
  match rs_status (rp_response reply), rs_body (rp_response reply) with
  | 200, Json (JObj [("data", JArr page); ("next_cursor", JNull)]) => Some (page, None)
  | 200, Json (JObj [("data", JArr page); ("next_cursor", JStr token)]) => Some (page, Some token)
  | _, _ => None
  end.

(** Where a request resumes: at the start, or after a key. *)
Definition resumes (r : Request) (b : option item_key) : Prop :=
  match b with
  | None => query_get (rq_query r) "cursor" = ""
  | Some k => exists created,
      query_get (rq_query r) "cursor" = cursorEncode hmac cursorKey (MkCursor kind bank (canonicalQuery (rq_query r)) created k.2) /\
      parse_rfc3339 created = Some k.1 /\ utf8_valid created = true /\ ValidUUID k.2 = true
  end.
Definition after (b : option item_key) (k : item_key) : Prop := match b with None => True | Some k0 => before k0 k end.

Lemma seek_spec k data keys : Forall2 keyed data keys -> StronglySorted before keys -> exists n,
  seek k.1 k.2 data = Some n /\ (n <= length data)%nat /\
  Forall (fun k' => ~ before k k') (take n keys) /\ Forall (before k) (drop n keys).
Proof.
  induction 1 as [|x k' data keys Hx Hl IH]; intros Hs; [exists 0%nat; by repeat split|].
  apply StronglySorted_inv in Hs as [Hs Hall]. destruct Hx as (created & Hc & Ht & _). cbn [seek].
  rewrite Hc. cbn [mbind option_bind fst snd]. rewrite Ht. cbn [mbind option_bind].
  assert (Hb : (k'.1 <? k.1) || (k'.1 =? k.1) && String.ltb k'.2 k.2 = true <-> before k k').
  { unfold before. rewrite orb_true_iff, andb_true_iff, Z.ltb_lt, Z.eqb_eq, ltb_le. intuition. }
  destruct ((k'.1 <? k.1) || (k'.1 =? k.1) && String.ltb k'.2 k.2).
  - exists 0%nat. split; [done|]. split; [lia|]. split; [constructor|]. cbn [drop]. constructor; [by apply Hb|].
    apply (Forall_impl _ _ _ Hall). intros k'' Hk. transitivity k'; [by apply Hb|done].
  - destruct (IH Hs) as (n & -> & Hn & Hbefore & Hafter). exists (S n). split; [done|]. split; [cbn; lia|].
    split; [|exact Hafter]. cbn [take]. constructor; [|done]. rewrite <- Hb. done.
Qed.

Lemma collectionKey_valid raw created id : collectionKey raw = Some (created, id) -> ValidUUID id = true.
Proof.
  unfold collectionKey. destruct (unmarshal false key_fields ("", "") raw) as [[i c]|]; [|done].
  destruct (ValidUUID i) eqn:E; cbn [negb orb]; [|done]. destruct (c == ""); [done|]. intros [= <- <-]. done.
Qed.

Lemma cursorEncode_nonempty c : cursorEncode hmac cursorKey c <> "".
Proof.
  unfold cursorEncode. cbv zeta. intros H. apply (f_equal bytes_of) in H. rewrite !bytes_of_app in H.
  destruct (bytes_of (RawEncode URLAlphabet (json_encode (pageCursor_json c)))); done.
Qed.

Lemma query_get_cursor token q : query_get (<["cursor" := [token]]> q) "cursor" = token.
Proof. unfold query_get. by rewrite lookup_insert_eq. Qed.
Lemma query_get_size token q : query_get (<["cursor" := [token]]> q) "page_size" = query_get q "page_size".
Proof. unfold query_get. by rewrite lookup_insert_ne. Qed.
Lemma canonicalQuery_cursor token q : canonicalQuery (<["cursor" := [token]]> q) = canonicalQuery q.
Proof. unfold canonicalQuery. by rewrite delete_insert_eq. Qed.

(** The part of a listing a request selects, and the cursor it comes with. *)
Lemma write_page_spec r limit data keys n :
  1 <= limit -> Forall2 keyed data keys -> (n <= length data)%nat ->
  exists next, page_of (write_page hmac cursorKey r kind bank (canonicalQuery (rq_query r)) limit data n) =
    Some (take (Z.to_nat limit) (drop n data), next) /\
  match next with
  | None => (length (drop n data) <= Z.to_nat limit)%nat
  | Some token => (Z.to_nat limit < length (drop n data))%nat /\
      exists k, last (take (Z.to_nat limit) (drop n keys)) = Some k /\ resumes (with_cursor token r) (Some k)
  end.
Proof.
  intros Hlimit Hkeys Hn. unfold write_page. cbv zeta. set (L := Z.to_nat limit).
  assert (HL : (1 <= L)%nat) by (subst L; lia).
  assert (Htake : take (Nat.min (n + L) (length data) - n) (drop n data) = take L (drop n data)).
  { destruct (decide (n + L <= length data)%nat) as [Hle|Hgt].
    - rewrite Nat.min_l by done. f_equal. lia.
    - rewrite Nat.min_r by lia. rewrite !take_ge; [done|rewrite length_drop; lia..]. }
  rewrite Htake. destruct (Nat.ltb_spec (Nat.min (n + L) (length data)) (length data)) as [Hlt|Hge].
  - assert (Hlast : exists x, last (take L (drop n data)) = Some x).
    { destruct (last (take L (drop n data))) eqn:E; [eauto|]. apply last_None in E. apply (f_equal length) in E.
      rewrite length_take, length_drop in E. cbn in E. lia. }
    destruct Hlast as [x Hx]. rewrite Hx.
    assert (Hpage : Forall2 keyed (take L (drop n data)) (take L (drop n keys))) by (by apply Forall2_take, Forall2_drop).
    assert (Hk : exists k, last (take L (drop n keys)) = Some k /\ keyed x k).
    { rewrite last_lookup in Hx. destruct (Forall2_lookup_l _ _ _ _ _ Hpage Hx) as (k & Hk & Hxk). exists k. split; [|done].
      rewrite last_lookup. by rewrite <- (Forall2_length _ _ _ Hpage). }
    destruct Hk as (k & Hk & created & Hc & Ht & Hu). rewrite Hc. eexists. split; [done|].
    split; [rewrite length_drop; fold L; lia|]. exists k. split; [done|].
    exists created. cbn [rq_query with_cursor]. rewrite query_get_cursor, canonicalQuery_cursor.
    split; [done|]. split; [done|]. split; [done|]. by eapply collectionKey_valid.
  - exists None. split; [done|]. rewrite length_drop. lia.
Qed.

Lemma collection_start r limit data : page_limit (rq_query r) = Some limit -> resumes r None ->
  collection hmac cursorKey r kind bank data = write_page hmac cursorKey r kind bank (canonicalQuery (rq_query r)) limit data 0.
Proof. intros Hsize Hb. cbn in Hb. unfold collection. by rewrite Hsize, Hb. Qed.
Lemma collection_at r k limit data n : page_limit (rq_query r) = Some limit -> resumes r (Some k) -> seek k.1 k.2 data = Some n ->
  collection hmac cursorKey r kind bank data = write_page hmac cursorKey r kind bank (canonicalQuery (rq_query r)) limit data n.
Proof.
  intros Hsize (created & Hq & Ht & Hu & Hid) Hn. unfold collection. rewrite Hsize. cbv zeta. rewrite Hq.
  destruct (String.eqb_spec (cursorEncode hmac cursorKey (MkCursor kind bank (canonicalQuery (rq_query r)) created k.2)) "") as [E|_];
    [by apply cursorEncode_nonempty in E|].
  rewrite cursorDecode_encode; [|unfold cursor_utf8; cbn [pc_Kind pc_Bank pc_Filter pc_Created pc_ID];
    rewrite Hkind, Hbank, Hu, canonicalQuery_utf8, (ValidUUID_utf8 _ Hid); done|done].
  cbn [pc_Kind pc_Bank pc_Filter]. rewrite !String.eqb_refl. cbn [andb pc_Created pc_ID]. by rewrite Ht, Hn.
Qed.

(** One request: the next items in the order, and where the following one
    resumes. *)
Lemma collection_page r b limit data keys :
  page_limit (rq_query r) = Some limit -> 1 <= limit -> resumes r b -> Forall2 keyed data keys -> StronglySorted before keys ->
  exists n next, (n <= length data)%nat /\
  Forall (fun k => ~ after b k) (take n keys) /\ Forall (after b) (drop n keys) /\
  page_of (collection hmac cursorKey r kind bank data) = Some (take (Z.to_nat limit) (drop n data), next) /\
  match next with
  | None => (length (drop n data) <= Z.to_nat limit)%nat
  | Some token => (Z.to_nat limit < length (drop n data))%nat /\
      exists k, last (take (Z.to_nat limit) (drop n keys)) = Some k /\ resumes (with_cursor token r) (Some k)
  end.
Proof.
  intros Hsize Hlimit Hb Hkeys Hsorted. destruct b as [k|].
  - destruct (seek_spec k data keys Hkeys Hsorted) as (n & Hseek & Hn & Hbefore & Hafter).
    rewrite (collection_at r k limit data n) by done.
    destruct (write_page_spec r limit data keys n Hlimit Hkeys Hn) as (next & Hp & Hnext). exists n, next.
    by repeat (split; [done|]).
  - rewrite (collection_start r limit data) by done.
    destruct (write_page_spec r limit data keys 0 Hlimit Hkeys ltac:(lia)) as (next & Hp & Hnext). exists 0%nat, next.
    split; [lia|]. split; [constructor|]. split; [by apply Forall_true|]. by split.
Qed.

(** ** Following the cursors *)

(** Requests until there is no next cursor or no snapshot left: the collection
    as each request finds it.  The pages, and whether the end was reached. *)
Fixpoint walk (r : Request) (snapshots : list (list json)) : option (list (list json) * bool) :=
  match snapshots with
  | [] => Some ([], false)
  | data :: more =>
      p ← page_of (collection hmac cursorKey r kind bank data);
      match p.2 with
      | None => Some ([p.1], true)
      | Some token => w ← walk (with_cursor token r) more; Some (p.1 :: w.1, w.2)
      end
  end.

Lemma has_key_elem k data keys : Forall2 keyed data keys -> has_key k data <-> k ∈ keys.
Proof.
  intros H. split.
  - intros (x & Hx & Hk). apply list_elem_of_lookup in Hx as [i Hi].
    destruct (Forall2_lookup_l _ _ _ _ _ H Hi) as (k' & Hi' & Hk'). rewrite (keyed_unique x k k') by done.
    by apply list_elem_of_lookup_2 in Hi'.
  - intros Hk. apply list_elem_of_lookup in Hk as [i Hi].
    destruct (Forall2_lookup_r _ _ _ _ _ H Hi) as (x & Hi' & Hx). exists x. split; [by apply list_elem_of_lookup_2 in Hi'|done].
Qed.
Lemma has_key_app k a b : has_key k a \/ has_key k b -> has_key k (a ++ b).
Proof. intros [(x & Hx & Hk)|(x & Hx & Hk)]; exists x; (split; [apply elem_of_app; auto|done]). Qed.

Lemma sorted_last l k : StronglySorted before l -> last l = Some k -> forall k', k' ∈ l -> k' = k \/ before k' k.
Proof.
  intros Hs Hl k' Hk'. apply last_Some in Hl as [l' ->]. apply elem_of_app in Hk' as [Hk'|Hk'].
  - right. by eapply StronglySorted_app_1_elem_of; [exact Hs|exact Hk'|apply list_elem_of_singleton].
  - left. by apply list_elem_of_singleton in Hk'.
Qed.
Lemma last_elem {A} (l : list A) x : last l = Some x -> x ∈ l.
Proof. intros [l' ->]%last_Some. apply elem_of_app. right. by apply list_elem_of_singleton. Qed.

Lemma walk_from limit : 1 <= limit -> forall snapshots r b,
  page_limit (rq_query r) = Some limit -> resumes r b -> Forall in_order snapshots ->
  exists pages finished, walk r snapshots = Some (pages, finished) /\
  Forall2 (fun page data => (length page <= Z.to_nat limit)%nat /\ forall x, x ∈ page -> x ∈ data)
    pages (take (length pages) snapshots) /\
  (exists keys, Forall2 keyed (List.concat pages) keys /\ StronglySorted before keys /\ Forall (after b) keys) /\
  (finished = true -> forall k, after b k -> (forall data, data ∈ take (length pages) snapshots -> has_key k data) ->
    has_key k (List.concat pages)).
Proof.
  intros Hlimit. induction snapshots as [|data more IH]; intros r b Hsize Hb Hall.
  { exists [], false. split; [done|]. split; [constructor|]. split; [|done]. exists []. repeat split; constructor. }
  apply Forall_cons in Hall as [(keys & Hkeys & Hs) Hmore].
  destruct (collection_page r b limit data keys Hsize Hlimit Hb Hkeys Hs) as (n & next & Hn & Hbefore & Hafter & Hp & Hnext).
  cbn [walk]. rewrite Hp. cbn [mbind option_bind fst snd]. set (L := Z.to_nat limit) in *.
  set (P := take L (drop n data)) in *. set (KP := take L (drop n keys)) in *.
  assert (HP : Forall2 keyed P KP) by (by apply Forall2_take, Forall2_drop).
  assert (Hincl : (length P <= L)%nat /\ forall x, x ∈ P -> x ∈ data).
  { split; [subst P; rewrite length_take; lia|]. intros x Hx. subst P.
    rewrite <- (take_drop n data). apply elem_of_app. right. rewrite <- (take_drop L (drop n data)). apply elem_of_app. by left. }
  assert (Hsplit : keys = take n keys ++ KP ++ drop L (drop n keys)) by (subst KP; by rewrite take_drop, take_drop).
  assert (Hparts : StronglySorted before (KP ++ drop L (drop n keys))) by (rewrite Hsplit in Hs; by apply StronglySorted_app_1_r in Hs).
  assert (HKP : StronglySorted before KP) by (by apply StronglySorted_app_1_l in Hparts).
  assert (HKPafter : Forall (after b) KP) by (subst KP; by apply Forall_take).
  assert (Hwhere : forall k, after b k -> has_key k data -> k ∈ KP \/ k ∈ drop L (drop n keys)).
  { intros k Hk Hd. apply (has_key_elem k _ _ Hkeys) in Hd. rewrite Hsplit, !elem_of_app in Hd. destruct Hd as [Hd|Hd]; [|done].
    rewrite Forall_forall in Hbefore. by apply Hbefore in Hd. }
  destruct next as [token|].
  - destruct Hnext as (_ & k0 & Hlast & Hres).
    destruct (IH (with_cursor token r) (Some k0)) as (pages & finished & -> & Hpages & (ks & Hks & Hsks & Haks) & Hfin);
      [cbn [with_cursor rq_query]; unfold page_limit; by rewrite query_get_size|done|done|].
    exists (P :: pages), finished. split; [done|]. split; [by constructor|]. split.
    + exists (KP ++ ks). split; [by apply Forall2_app|]. split.
      * apply StronglySorted_app. split; [|done]. intros k1 k2 H1 H2. rewrite Forall_forall in Haks. specialize (Haks k2 H2).
        destruct (sorted_last KP k0 HKP Hlast k1 H1) as [->|H1']; [exact Haks|by transitivity k0].
      * apply Forall_app. split; [done|]. apply (Forall_impl _ _ _ Haks). intros k Hk. cbn in Hk.
        assert (H0 : after b k0) by (rewrite Forall_forall in HKPafter; apply HKPafter; by apply last_elem).
        destruct b as [kb|]; [|done]. exact (before_trans _ _ _ H0 Hk).
    + intros Hf k Hk Hk'. cbn [List.concat]. apply has_key_app. cbn [length take] in Hk'.
      destruct (Hwhere k Hk) as [Hin|Hin]; [apply Hk', elem_of_cons; by left|left; by apply (has_key_elem k P KP)|right].
      apply Hfin; [done| |].
      * change (before k0 k). eapply StronglySorted_app_1_elem_of; [exact Hparts|by apply last_elem|exact Hin].
      * intros d Hd. apply Hk', elem_of_cons. by right.
  - exists [P], true. split; [done|]. split; [constructor; [done|constructor]|]. cbn [List.concat]. rewrite app_nil_r.
    split; [by exists KP|]. intros _ k Hk Hd. apply (has_key_elem k P KP HP).
    destruct (Hwhere k Hk) as [Hin|Hin]; [apply Hd, elem_of_cons; by left|done|]. exfalso.
    apply (not_elem_of_nil k). rewrite (drop_ge (drop n keys)) in Hin; [done|]. fold L in Hnext.
    pose proof (Forall2_length _ _ _ (Forall2_drop _ _ _ n Hkeys)) as Hlen. rewrite <- Hlen. exact Hnext.
Qed.

(** A listing is cut by a key at one place. *)
Lemma cut_unique b keys n n' : (n <= length keys)%nat -> (n' <= length keys)%nat ->
  Forall (fun k => ~ after b k) (take n keys) -> Forall (after b) (drop n keys) ->
  Forall (fun k => ~ after b k) (take n' keys) -> Forall (after b) (drop n' keys) -> n = n'.
Proof.
  intros Hn Hn' H1 H2 H1' H2'. destruct (Nat.lt_trichotomy n n') as [H|[->|H]]; [|done|]; exfalso.
  - destruct (lookup_lt_is_Some_2 keys n ltac:(lia)) as [k Hk]. rewrite Forall_forall in H1', H2.
    apply (H1' k); [|apply H2]; apply list_elem_of_lookup; [exists n; by rewrite lookup_take_lt|exists 0%nat; by rewrite lookup_drop, Nat.add_0_r].
  - destruct (lookup_lt_is_Some_2 keys n' ltac:(lia)) as [k Hk]. rewrite Forall_forall in H1, H2'.
    apply (H1 k); [|apply H2']; apply list_elem_of_lookup; [exists n'; by rewrite lookup_take_lt|exists 0%nat; by rewrite lookup_drop, Nat.add_0_r].
Qed.

(** Over a collection that does not change, as many requests as it has items
    reach the end and give what is after the start. *)
Lemma walk_static limit data keys : 1 <= limit -> Forall2 keyed data keys -> StronglySorted before keys ->
  forall m r b n, page_limit (rq_query r) = Some limit -> resumes r b -> (n <= length data)%nat ->
  Forall (fun k => ~ after b k) (take n keys) -> Forall (after b) (drop n keys) -> (length data - n <= m)%nat -> (1 <= m)%nat ->
  exists pages, walk r (repeat data m) = Some (pages, true) /\ List.concat pages = drop n data.
Proof.
  intros Hlimit Hkeys Hs. induction m as [|m IH]; intros r b n Hsize Hb Hn Hbefore Hafter Hm Hm1; [lia|].
  pose proof (Forall2_length _ _ _ Hkeys) as Hlen.
  destruct (collection_page r b limit data keys Hsize Hlimit Hb Hkeys Hs) as (n' & next & Hn' & Hbefore' & Hafter' & Hp & Hnext).
  assert (n' = n) as -> by (apply (cut_unique b keys); lia || done).
  cbn [repeat walk]. rewrite Hp. cbn [mbind option_bind fst snd]. set (L := Z.to_nat limit) in *.
  assert (HL : (1 <= L)%nat) by (subst L; lia).
  destruct next as [token|].
  - destruct Hnext as (Hlong & k0 & Hlast & Hres). fold L in Hlong. rewrite length_drop in Hlong.
    assert (Hsn : StronglySorted before ((take n keys ++ take L (drop n keys)) ++ drop L (drop n keys)))
      by (by rewrite <- app_assoc, !take_drop).
    assert (Hlast2 : last (take n keys ++ take L (drop n keys)) = Some k0) by (by rewrite last_app, Hlast).
    destruct (IH (with_cursor token r) (Some k0) (n + L)%nat) as (pages & -> & Hpages); [|done|lia| | |lia|lia|].
    + cbn [with_cursor rq_query]. unfold page_limit. by rewrite query_get_size.
    + rewrite <- take_take_drop. apply Forall_forall. intros k Hk Hbad. cbn in Hbad.
      apply StronglySorted_app_1_l in Hsn.
      destruct (sorted_last _ _ Hsn Hlast2 k Hk) as [->|H1]; [by apply before_irrefl in Hbad|by apply (before_asym k k0)].
    + rewrite <- drop_drop. apply Forall_forall. intros k Hk. change (before k0 k).
      eapply StronglySorted_app_1_elem_of; [exact Hsn|by apply last_elem|exact Hk].
    + exists (take L (drop n data) :: pages). split; [done|]. cbn [List.concat]. rewrite Hpages, <- drop_drop. apply take_drop.
  - exists [take L (drop n data)]. split; [done|]. cbn [List.concat]. rewrite app_nil_r. by apply take_ge.
Qed.
End Walk.

Lemma page_limit_range q limit : page_limit q = Some limit -> 1 <= limit <= 200.
Proof.
  unfold page_limit. destruct (query_get q "page_size" == ""); [intros [= <-]; lia|].
  destruct (Atoi (query_get q "page_size")) as [v|]; [|done].
  destruct ((v <? 1) || (200 <? v)) eqn:E; [done|]. intros [= <-]. rewrite orb_false_iff, !Z.ltb_ge in E. lia.
Qed.

(** ** The theorems *)

(** C22: a cursor the server issued is accepted exactly for the collection, bank
    and filter it was issued for and gives back its position; and any cursor that
    is accepted carries the server's keyed hash of its payload and a position
    that names this collection, bank and filter. *)
Theorem cursor_bound hmac cursorKey :
  (forall c kind bank filter, cursor_utf8 c = true -> ValidUUID (pc_ID c) = true ->
    cursorDecode hmac cursorKey (cursorEncode hmac cursorKey c) kind bank filter =
    if (pc_Kind c == kind) && (pc_Bank c == bank) && (pc_Filter c == filter) then Some c else None) /\
  (forall token kind bank filter c, cursorDecode hmac cursorKey token kind bank filter = Some c ->
    pc_Kind c = kind /\ pc_Bank c = bank /\ pc_Filter c = filter /\ ValidUUID (pc_ID c) = true /\
    exists part0 part1 payload, split dot token = [part0; part1] /\ Decode URLAlphabet false part0 = Some payload /\
      Decode URLAlphabet false part1 = Some (hmac cursorKey payload) /\
      unmarshal false pageCursor_fields empty_cursor payload = Some c).
Proof. split; intros; [by apply cursorDecode_encode|by apply cursorDecode_some]. Qed.

(** C20: a client that follows [next_cursor], while the collection may change
    between its requests, is never refused; every page holds at most the requested
    number of items of the collection as the request found it; the items come
    newest first and none comes twice; and once there is no next cursor, every
    item that was in the collection at each of the requests was delivered. *)
Theorem pages_walk hmac cursorKey kind bank r limit snapshots :
  utf8_valid kind = true -> utf8_valid bank = true -> page_limit (rq_query r) = Some limit ->
  query_get (rq_query r) "cursor" = "" -> Forall in_order snapshots ->
  exists pages finished, walk hmac cursorKey kind bank r snapshots = Some (pages, finished) /\
  Forall2 (fun page data => (length page <= Z.to_nat limit)%nat /\ forall x, x ∈ page -> x ∈ data)
    pages (take (length pages) snapshots) /\
  in_order (List.concat pages) /\
  (finished = true -> forall k, (forall data, data ∈ take (length pages) snapshots -> has_key k data) ->
    has_key k (List.concat pages)).
Proof.
  intros Hkind Hbank Hsize Hstart Hall. pose proof (page_limit_range _ _ Hsize) as Hrange.
  destruct (walk_from hmac cursorKey kind bank Hkind Hbank limit ltac:(lia) snapshots r None Hsize Hstart Hall)
    as (pages & finished & Hw & Hp & (keys & Hk & Hs & _) & Hfin).
  exists pages, finished. split; [done|]. split; [done|]. split; [by exists keys|]. intros Hf k. by apply Hfin.
Qed.

(** Over a collection that stays as it is, as many requests as it has items
    reach the end and deliver exactly the collection. *)
Lemma pages_complete hmac cursorKey kind bank r limit data m :
  utf8_valid kind = true -> utf8_valid bank = true -> page_limit (rq_query r) = Some limit ->
  query_get (rq_query r) "cursor" = "" -> in_order data -> (length data <= m)%nat -> (1 <= m)%nat ->
  exists pages, walk hmac cursorKey kind bank r (repeat data m) = Some (pages, true) /\ List.concat pages = data.
Proof.
  intros Hkind Hbank Hsize Hstart (keys & Hk & Hs) Hm Hm1. pose proof (page_limit_range _ _ Hsize) as Hrange.
  destruct (walk_static hmac cursorKey kind bank Hkind Hbank limit data keys ltac:(lia) Hk Hs m r None 0%nat Hsize Hstart)
    as (pages & Hw & Hc); [lia|constructor|by apply Forall_true|lia|done|]. by exists pages.
Qed.

(** An item with a creation time of the years 0 to 9999 has its key. *)
Lemma keyed_object l id t : json_utf8 (JObj l) = true -> (nesting (JObj l) <= max_nesting)%nat ->
  decode_members false key_fields (List.map (fun p => (p.1, text_of p.2)) l) ("", "") = Some (id, rfc3339nano t) ->
  ValidUUID id = true -> valid_time t -> keyed (JObj l) (t, id).
Proof.
  intros Hu Hn Hd Hid Ht. exists (rfc3339nano t). unfold collectionKey. rewrite unmarshal_written, Hd by done.
  pose proof (rfc3339nano_parses t Ht) as Hp. cbn [fst snd].
  destruct (String.eqb_spec (rfc3339nano t) "") as [E|_]; [by rewrite E in Hp|]. rewrite Hid. cbn [negb orb].
  split; [done|]. split; [done|]. apply rfc3339nano_utf8.
Qed.

(** Two requests; between them one item is added in front and another removed. *)
Definition toy_item (id : string) (t : Z) : json := JObj [("id", JStr id); ("created_at", JTime t)].
Definition toy_id (c : string) : string := "00000000-0000-4000-8000-00000000000" +:+ c.
Definition two_per_page : Request := MkRequest "GET" "/v1/banks" {["page_size" := ["2"]]} ∅ "" "request".
Definition item_1 : json := toy_item (toy_id "1") 10.
Definition item_2 : json := toy_item (toy_id "2") 20.
Definition item_3 : json := toy_item (toy_id "3") 20.
Definition item_4 : json := toy_item (toy_id "4") 30.

Lemma toy_keyed c t : ValidUUID (toy_id c) = true -> utf8_valid (toy_id c) = true -> valid_time t ->
  keyed (toy_item (toy_id c) t) (t, toy_id c).
Proof.
  intros Hid Hu Ht. apply keyed_object; [cbn; by rewrite Hu|by apply max_nesting_large|reflexivity|done|done].
Qed.
Lemma item_1_keyed : keyed item_1 (10, toy_id "1").
Proof. apply toy_keyed; [by vm_compute..|by split; vm_compute]. Qed.
Lemma item_2_keyed : keyed item_2 (20, toy_id "2").
Proof. apply toy_keyed; [by vm_compute..|by split; vm_compute]. Qed.
Lemma item_3_keyed : keyed item_3 (20, toy_id "3").
Proof. apply toy_keyed; [by vm_compute..|by split; vm_compute]. Qed.
Lemma item_4_keyed : keyed item_4 (30, toy_id "4").
Proof. apply toy_keyed; [by vm_compute..|by split; vm_compute]. Qed.

Ltac order_keys :=
  repeat first [apply SSorted_cons | apply SSorted_nil | apply Forall_cons; split | apply Forall_nil_2];
  first [left; cbn; lia | right; cbn; split_and!; by vm_compute].

Lemma pages_walk_witness : exists pages,
  walk (fun key m => key +:+ m) "key" "cards" "bank" two_per_page [[item_3; item_2; item_1]; [item_4; item_3; item_1]]
    = Some (pages, true) /\ has_key (10, toy_id "1") (List.concat pages).
Proof.
  destruct (pages_walk (fun key m => key +:+ m) "key" "cards" "bank" two_per_page 2
    [[item_3; item_2; item_1]; [item_4; item_3; item_1]] ltac:(by vm_compute) ltac:(by vm_compute) ltac:(by vm_compute) ltac:(by vm_compute))
    as (pages & finished & Hw & _ & _ & Hall).
  - repeat constructor.
    + exists [(20, toy_id "3"); (20, toy_id "2"); (10, toy_id "1")].
      split; [by repeat constructor; eauto using item_1_keyed, item_2_keyed, item_3_keyed|].
      order_keys.
    + exists [(30, toy_id "4"); (20, toy_id "3"); (10, toy_id "1")].
      split; [by repeat constructor; eauto using item_1_keyed, item_3_keyed, item_4_keyed|].
      order_keys.
  - assert (Hf : walk (fun key m => key +:+ m) "key" "cards" "bank" two_per_page [[item_3; item_2; item_1]; [item_4; item_3; item_1]]
      = Some ([[item_3; item_2]; [item_1]], true)) by by vm_compute.
    rewrite Hf in Hw. injection Hw as <- <-. exists [[item_3; item_2]; [item_1]]. split; [exact Hf|]. apply Hall; [done|].
    intros data Hd. exists item_1. split; [|exact item_1_keyed]. cbn [length take] in Hd.
    apply elem_of_cons in Hd as [->|Hd]; [|apply list_elem_of_singleton in Hd as ->]; rewrite !elem_of_cons; auto.
Defined.
