(* ===== verification/Vault.v ===== *)
(** * Credential vault

    [internal/vault/vault.go] (the request and result types) and
    [internal/vault/memory.go] (the in-memory adapter).
    HMAC-SHA-256 under the vault's key is the parameter [hmac]. *)

From S2P Require Import Prelude Uuid.
Open Scope string_scope.
Open Scope list_scope.
Open Scope Z_scope.

Record ProvisionedCredential := MkProvisionedCredential {
  Cred_MaskedPAN : string;
  Cred_PAN : string;
  Cred_CVV : string
}.
Record VerificationResult := MkVerificationResult {
  Verif_CardID : string;
  Verif_Valid : bool
}.

(** The adapter's state: lookup token to card id, and the revoked card ids. *)
Record vault_state := VaultState {
  vault_cards : gmap string string;
  vault_revoked : gmap string bool
}.
#[export] Instance vault_state_eta : Settable vault_state :=
  fun r => VaultState (vault_cards r) (vault_revoked r).

Definition empty_vault : vault_state := VaultState ∅ ∅.

Definition is_digit (c : Ascii.ascii) : bool :=
  let n := Ascii.N_of_ascii c in (48 <=? n)%N && (n <=? 57)%N.

Definition all_digits (s : string) : bool := forallb is_digit (String.list_ascii_of_string s).

(** [fmt.Sprintf("%0*d", width, n)] for [0 <= n < 10^width], the only range it
    is called on. *)
Fixpoint dec_digits (width : nat) (n : Z) : list Ascii.ascii :=
  match width with
  | O => []
  | S w => dec_digits w (n / 10) ++ [hex_digit (n mod 10)]
  end.
Definition pad_digits (width : nat) (n : Z) : string :=
  String.string_of_list_ascii (dec_digits width n).

(** [decimal]: the bytes as a big-endian uint64. *)
Definition decimal (value : list Z) : Z :=
  fold_left (fun result b => Z.lor (Z.shiftl result 8 mod 2 ^ 64) b) value 0.

Definition maskPAN (pan : string) : string :=
  if bool_decide (String.length pan < 10)%nat then ""
  else String.substring 0 6 pan +:+ "******" +:+
       String.substring (String.length pan - 4) 4 pan.

Section InMemory.
Context (hmac : string -> string -> list Z).
Context (key : string).

Definition derive (value : string) : list Z := hmac key value.

Definition pan (cardID : string) : string :=
  "400000" +:+ pad_digits 10 (decimal (take 8 (derive ("pan:" +:+ cardID))) mod 10000000000).

Definition cvv (cardID : string) : string :=
  pad_digits 3 (decimal (take 4 (derive ("cvv:" +:+ cardID))) mod 1000).

Definition lookupToken (p : string) : string := hex_encode (derive ("lookup:" +:+ p)).

Definition Provision (cardID : string) (v : vault_state) : result ProvisionedCredential * vault_state :=
  if cardID == "" then (inl (ErrMsg "vault: card id is required"), v)
  else
    let p := pan cardID in
    (inr (MkProvisionedCredential (maskPAN p) p (cvv cardID)),
     v <| vault_cards ::= <[lookupToken p := cardID]> |>
       <| vault_revoked ::= delete cardID |>).

Definition Verify (p c : string) (v : vault_state) : VerificationResult :=
  if (p == "") || (c == "") then MkVerificationResult "" false
  else
    let '(cardID, found) := match vault_cards v !! lookupToken p with
                            | Some c => (c, true)
                            | None => ("", false)
                            end in
    let isRevoked := default false (vault_revoked v !! cardID) in
    if negb found || isRevoked || negb (cvv cardID == c)
    then MkVerificationResult "" false
    else MkVerificationResult cardID true.

Definition Revoke (cardID : string) (v : vault_state) : result unit * vault_state :=
  if cardID == "" then (inl (ErrMsg "vault: card id is required"), v)
  else (inr tt, v <| vault_revoked ::= <[cardID := true]> |>).

End InMemory.

#[global] Arguments pan : simpl never.
#[global] Arguments cvv : simpl never.
#[global] Arguments lookupToken : simpl never.

(** [NewInMemory]: the adapter is refused outside development and test, and a
    short key is refused. *)
Definition NewInMemory (environment key : string) : result vault_state :=
  if (environment != "development") && (environment != "test") then
    inl (ErrMsg "vault: in-memory adapter is restricted to development and test")
  else if (String.length key <? 32)%nat then
    inl (ErrMsg "vault: test key must contain at least 32 bytes")
  else inr empty_vault.

(** ** Lemmas *)

Lemma length_dec_digits (w : nat) (n : Z) : length (dec_digits w n) = w.
Proof. revert n. induction w as [|w IH]; intros n; simpl; [done|]. rewrite length_app, IH. simpl. lia. Qed.

Lemma hex_digit_decimal (n : Z) : 0 <= n < 10 -> is_digit (hex_digit n) = true.
Proof.
  intros Hn. unfold hex_digit. assert (Hk : (Z.to_nat n < 10)%nat) by lia. revert Hk. generalize (Z.to_nat n).
  intros k Hk. do 10 (destruct k as [|k]; [reflexivity|]). lia.
Qed.

Lemma dec_digits_digits (w : nat) (n : Z) : forallb is_digit (dec_digits w n) = true.
Proof.
  revert n. induction w as [|w IH]; intros n; simpl; [done|].
  rewrite forallb_app, IH. simpl. rewrite hex_digit_decimal; [done|]. apply Z.mod_pos_bound. lia.
Qed.

Lemma string_length_list (l : list Ascii.ascii) :
  String.length (String.string_of_list_ascii l) = length l.
Proof. induction l; simpl; congruence. Qed.

Lemma all_digits_of_list (l : list Ascii.ascii) :
  all_digits (String.string_of_list_ascii l) = forallb is_digit l.
Proof. unfold all_digits. by rewrite String.list_ascii_of_string_of_list_ascii. Qed.

(** The digit characters of a card's pan and of its cvv. *)
Lemma pan_chars hmac key cardID :
  exists l, pan hmac key cardID =
    String.string_of_list_ascii (String.list_ascii_of_string "400000" ++ l)
    /\ length l = 10%nat /\ forallb is_digit l = true.
Proof. eexists. split; [reflexivity|]. split; [apply length_dec_digits|apply dec_digits_digits]. Qed.

Lemma cvv_chars hmac key cardID :
  exists a b c, cvv hmac key cardID = String.string_of_list_ascii [a; b; c]
    /\ forallb is_digit [a; b; c] = true.
Proof.
  unfold cvv, pad_digits.
  set (n := _ mod 1000).
  pose proof (length_dec_digits 3 n) as Hl. pose proof (dec_digits_digits 3 n) as Hd.
  destruct (dec_digits 3 n) as [|a [|b [|c [|]]]]; simplify_eq/=. eauto.
Qed.

Lemma cvv_nonempty hmac key cardID : (cvv hmac key cardID == "") = false.
Proof. destruct (cvv_chars hmac key cardID) as (a & b & c & -> & _). reflexivity. Qed.

(** What a valid verification says about the state. *)
Lemma Verify_valid hmac key p c v :
  Verif_Valid (Verify hmac key p c v) = true ->
  vault_cards v !! lookupToken hmac key p = Some (Verif_CardID (Verify hmac key p c v)) /\
  default false (vault_revoked v !! Verif_CardID (Verify hmac key p c v)) = false /\
  cvv hmac key (Verif_CardID (Verify hmac key p c v)) = c.
Proof.
  unfold Verify. destruct ((p == "") || (c == "")); [done|].
  destruct (vault_cards v !! lookupToken hmac key p) as [card|] eqn:E; simpl; [|done].
  destruct (default false (vault_revoked v !! card)) eqn:Er; simpl; [done|].
  destruct (cvv hmac key card == c) eqn:Ec; simpl; [|done].
  apply String.eqb_eq in Ec. done.
Qed.

(** [vault_grants v p c cardID]: the pair verifies for the card. *)
Definition vault_grants hmac key (v : vault_state) (p c cardID : string) : Prop :=
  Verify hmac key p c v = MkVerificationResult cardID true.

Lemma vault_grants_intro hmac key v p c cardID :
  p <> "" -> c <> "" -> vault_cards v !! lookupToken hmac key p = Some cardID ->
  default false (vault_revoked v !! cardID) = false -> cvv hmac key cardID = c ->
  vault_grants hmac key v p c cardID.
Proof.
  intros Hp Hc Hl Hr <-. unfold vault_grants, Verify.
  apply String.eqb_neq in Hp, Hc. rewrite Hp, Hc, Hl. simpl. rewrite Hr. simpl.
  by rewrite String.eqb_refl.
Qed.

Lemma vault_grants_elim hmac key v p c cardID :
  vault_grants hmac key v p c cardID ->
  p <> "" /\ c <> "" /\ vault_cards v !! lookupToken hmac key p = Some cardID /\
  default false (vault_revoked v !! cardID) = false /\ cvv hmac key cardID = c.
Proof.
  unfold vault_grants. intros H.
  pose proof (Verify_valid hmac key p c v) as Hv. rewrite H in Hv. simpl in Hv.
  destruct (Hv eq_refl) as (? & ? & ?).
  unfold Verify in H. destruct (p == "") eqn:Ep; [done|]. destruct (c == "") eqn:Ec; [done|].
  apply String.eqb_neq in Ep, Ec. done.
Qed.

(** A provision followed by a revocation of the same card grants nothing that
    was not granted before: the compensation of a failed issuance. *)
Lemma provision_revoke_grants hmac key v cardID r v1 r' v2 p c card :
  Provision hmac key cardID v = (r, v1) -> Revoke cardID v1 = (r', v2) ->
  vault_grants hmac key v2 p c card -> vault_grants hmac key v p c card.
Proof.
  unfold Provision, Revoke. destruct (cardID == "") eqn:Ec; [naive_solver|].
  intros [= <- <-] [= <- <-] H.
  apply vault_grants_elim in H as (Hp & Hc & Hl & Hr & Hcvv). cbn in Hl, Hr.
  destruct (decide (card = cardID)) as [->|Hne].
  { by rewrite lookup_insert_eq in Hr. }
  rewrite lookup_insert_ne in Hr by done. rewrite lookup_delete_ne in Hr by done.
  apply vault_grants_intro; try done.
  destruct (decide (lookupToken hmac key (pan hmac key cardID) = lookupToken hmac key p)) as [He|He].
  - rewrite He, lookup_insert_eq in Hl. congruence.
  - by rewrite lookup_insert_ne in Hl.
Qed.

Lemma Provision_grants hmac key cardID v :
  cardID <> "" ->
  exists cred v', Provision hmac key cardID v = (inr cred, v') /\
    vault_grants hmac key v' (Cred_PAN cred) (Cred_CVV cred) cardID.
Proof.
  intros Hid. unfold Provision. apply String.eqb_neq in Hid. rewrite Hid.
  eexists _, _. split; [reflexivity|]. apply vault_grants_intro; cbn [Cred_PAN Cred_CVV].
  - destruct (pan_chars hmac key cardID) as (l & -> & _ & _). discriminate.
  - apply String.eqb_neq, cvv_nonempty.
  - cbn. by rewrite lookup_insert_eq.
  - cbn. by rewrite lookup_delete_eq.
  - reflexivity.
Qed.

(** A stand-in digest for the witnesses. *)
Definition toy_digest (key payload : string) : list Z :=
  List.map (fun a => Z.of_N (Ascii.N_of_ascii a)) (String.list_ascii_of_string (key +:+ payload)).

(** What [Provision] discloses verifies for the card it was provisioned for. *)
Theorem Provision_then_Verify hmac key cardID v (Hid : cardID <> "") :
  exists cred v', Provision hmac key cardID v = (inr cred, v') /\
    Verify hmac key (Cred_PAN cred) (Cred_CVV cred) v' = MkVerificationResult cardID true.
Proof. exact (Provision_grants hmac key cardID v Hid). Qed.

Lemma Provision_then_Verify_witness :
  exists cred v', Provision toy_digest "key" "card-1" empty_vault = (inr cred, v') /\
    Verify toy_digest "key" (Cred_PAN cred) (Cred_CVV cred) v' = MkVerificationResult "card-1" true.
Proof. exact (Provision_then_Verify toy_digest "key" "card-1" empty_vault ltac:(discriminate)). Defined.

(** A revoked card never verifies again until it is provisioned again. *)
Theorem Revoke_blocks_Verify hmac key cardID v (Hid : cardID <> "") (p c : string) :
  exists v', Revoke cardID v = (inr tt, v') /\
    Verif_CardID (Verify hmac key p c v') <> cardID.
Proof.
  unfold Revoke. pose proof Hid as Hid'. apply String.eqb_neq in Hid. rewrite Hid.
  eexists. split; [done|].
  destruct (Verif_Valid (Verify hmac key p c (v <| vault_revoked ::= <[cardID := true]> |>))) eqn:E.
  - apply Verify_valid in E as (_ & Hr & _). cbn in Hr. intros He.
    rewrite He, lookup_insert_eq in Hr. done.
  - unfold Verify in *. repeat case_match; simplify_eq/=; congruence.
Qed.

Lemma Revoke_blocks_Verify_witness :
  exists v', Revoke "card-1" (Provision toy_digest "key" "card-1" empty_vault).2 = (inr tt, v') /\
    Verif_CardID (Verify toy_digest "key" (pan toy_digest "key" "card-1") (cvv toy_digest "key" "card-1") v') <> "card-1".
Proof. exact (Revoke_blocks_Verify toy_digest "key" "card-1" _ ltac:(discriminate) _ _). Defined.

Lemma maskPAN_chars (pre l : list Ascii.ascii) :
  length pre = 6%nat -> length l = 10%nat ->
  exists w x y z rest, l = rest ++ [w; x; y; z] /\
  maskPAN (String.string_of_list_ascii (pre ++ l)) =
    String.string_of_list_ascii
      (pre ++ String.list_ascii_of_string "******" ++ [w; x; y; z]).
Proof.
  intros Hp Hl. do 6 (destruct pre as [|? pre]; [done|]). destruct pre; [|done].
  do 10 (destruct l as [|? l]; [done|]). destruct l; [|done].
  eexists _, _, _, _, [_; _; _; _; _; _]. split; reflexivity.
Qed.

(** The format the shard demands of a masked PAN: six digits, six stars, four
    digits. *)
Definition masked_format (s : string) : bool :=
  match String.list_ascii_of_string s with
  | [a; b; c; d; e; f; g; h; i; j; k; l; m; n; o; p] =>
      forallb is_digit [a; b; c; d; e; f; m; n; o; p] &&
      forallb (Ascii.eqb (Ascii.ascii_of_N 42)) [g; h; i; j; k; l]
  | _ => false
  end.

Lemma Provision_masked hmac key cardID v cred v' :
  Provision hmac key cardID v = (inr cred, v') -> masked_format (Cred_MaskedPAN cred) = true.
Proof.
  unfold Provision. destruct (cardID == ""); [done|]. intros [= <- <-]. cbn [Cred_MaskedPAN].
  destruct (pan_chars hmac key cardID) as (l & -> & Hl & Hd).
  destruct (maskPAN_chars (String.list_ascii_of_string "400000") l eq_refl Hl) as (w & x & y & z & rest & -> & Hm).
  cbn [String.list_ascii_of_string] in *. rewrite Hm.
  unfold masked_format. rewrite String.list_ascii_of_string_of_list_ascii. cbn [app String.list_ascii_of_string].
  rewrite forallb_app, andb_true_iff in Hd. destruct Hd as [_ Hd]. cbn [forallb] in *.
  rewrite !andb_true_iff in *. tauto.
Qed.
