(* ===== verification/World.v ===== *)
(** * World: the effects a request has, as a state and error monad

    The services of the program call PostgreSQL, a credential vault, the clock
    and the random generator.  A [world] is what they act on: the committed
    shard and control databases, the working copy of the open transaction of
    each, the vault, the clock, the random bytes still to be drawn and the
    faults still to come.  [M A] is a computation that reads and changes the
    world and returns an [A] or a Go error.

    A database or vault call takes the next [event] of its stream: the time it
    takes, whether it fails, and for a failed commit or vault call whether it
    took effect all the same (the reply was lost).  An exhausted stream is a
    quiet environment.  A failed statement aborts its transaction, as in
    PostgreSQL: the working copy is gone, later statements fail and so does the
    commit.  Theorems quantify over the streams, so a fault may come anywhere. *)

From S2P Require Import Prelude.
From S2P Require Import Stores.
From S2P Require Import Vault.
Open Scope string_scope.
Open Scope list_scope.
Open Scope Z_scope.

Record event := Event { ev_delay : N; ev_fault : option db_error; ev_applied : bool }.

Definition quiet : event := Event 0 None false.

Record world := World {
  w_shard : shard_db;
  w_shard_tx : option shard_db;
  w_control : control_db;
  w_control_tx : option control_db;
  w_vault : vault_state;
  w_clock : Z;
  w_tx_start : Z;
  w_events : list event;
  w_vault_events : list event;
  w_entropy : list (list Z);
  w_uuids : nat -> nat -> string;
  w_drawn : nat;
  w_locked : gset string
}.
#[export] Instance world_eta : Settable world :=
  fun w => World (w_shard w) (w_shard_tx w) (w_control w) (w_control_tx w) (w_vault w) (w_clock w)
    (w_tx_start w) (w_events w) (w_vault_events w) (w_entropy w) (w_uuids w) (w_drawn w) (w_locked w).

(** ** The monad *)

Definition M (A : Type) : Type := world -> result A * world.

#[export] Instance M_ret : MRet M := fun A a w => (inr a, w).
#[export] Instance M_bind : MBind M := fun A B k m w =>
  match m w with
  | (inl e, w') => (inl e, w')
  | (inr a, w') => k a w'
  end.

Definition throw {A} (e : error) : M A := fun w => (inl e, w).

(** A computation whose error is a value, for code that inspects [err]. *)
Definition try {A} (m : M A) : M (result A) := fun w => let (r, w') := m w in (inr r, w').

(** The result of a computation, returned. *)
Definition of_result {A} (r : result A) : M A := fun w => (r, w).

(** [fmt.Errorf("msg: %w", err)] on the error path. *)
Definition wrap {A} (msg : string) (m : M A) : M A := fun w =>
  match m w with
  | (inl e, w') => (inl (ErrWrap msg e), w')
  | r => r
  end.

(** [defer d()] around the rest of a function. *)
Definition with_defer {A} (d : M unit) (m : M A) : M A := fun w =>
  let (r, w') := m w in (r, (d w').2).

(** [defer func() { if !committed { d() } }()], where [committed] is set just
    before the successful return. *)
Definition with_compensation {A} (d : M unit) (m : M A) : M A := fun w =>
  match m w with
  | (inl e, w') => (inl e, (d w').2)
  | r => r
  end.

Fixpoint mapM_ {A} (f : A -> M unit) (l : list A) : M unit :=
  match l with
  | [] => mret tt
  | a :: l' => f a ;; mapM_ f l'
  end.

Fixpoint mapM_list {A B} (f : A -> M B) (l : list A) : M (list B) :=
  match l with
  | [] => mret []
  | a :: l' => b ← f a; bs ← mapM_list f l'; mret (b :: bs)
  end.

Definition when (b : bool) (m : M unit) : M unit := if b then m else mret tt.

(** ** Time and randomness *)

Definition time_now : M Z := fun w => (inr (w_clock w), w).

(** Sixteen bytes of [crypto/rand]; an exhausted source is its error. *)
Definition rand16 : M (list Z) := fun w =>
  match w_entropy w with
  | [] => (inl (ErrMsg "crypto/rand: read failed"), w)
  | bs :: rest => (inr bs, w <| w_entropy := rest |>)
  end.

(** ** Transactions *)

Definition pop_event (w : world) : event * world :=
  match w_events w with
  | [] => (quiet, w)
  | e :: es => (e, w <| w_events := es |> <| w_clock ::= Z.add (Z.of_N (ev_delay e)) |>)
  end.

(** What a statement may read besides the tables: [now()] (the start of the
    transaction), [clock_timestamp()], the values [gen_random_uuid()] returns in
    it, and the rows other transactions hold (what SKIP LOCKED skips). *)
Record sql_env := SqlEnv { now : Z; clock_timestamp : Z; gen_random_uuid : nat -> string; locked : gset string }.

Definition sql (D A : Type) : Type := sql_env -> D -> db_error + (A * D).

Definition sql_env_of (w : world) : sql_env :=
  SqlEnv (w_tx_start w) (w_clock w) (w_uuids w (w_drawn w)) (w_locked w).

(** An aborted or finished transaction refuses statements and commits. *)
Definition tx_aborted : error := ErrDb OtherDbError.

Definition shard_begin : M unit := fun w =>
  let (e, w1) := pop_event w in
  match ev_fault e with
  | Some err => (inl (ErrDb err), w1)
  | None => (inr tt, w1 <| w_shard_tx := Some (w_shard w1) |> <| w_tx_start := w_clock w1 |>)
  end.

Definition shard_exec {A} (f : sql shard_db A) : M A := fun w =>
  match w_shard_tx w with
  | None => (inl tx_aborted, w)
  | Some db =>
      let (e, w1) := pop_event w in
      match ev_fault e with
      | Some err => (inl (ErrDb err), w1 <| w_shard_tx := None |>)
      | None =>
          match f (sql_env_of w1) db with
          | inl err => (inl (ErrDb err), w1 <| w_shard_tx := None |>)
          | inr (a, db') => (inr a, w1 <| w_shard_tx := Some db' |> <| w_drawn ::= S |>)
          end
      end
  end.

Definition shard_commit : M unit := fun w =>
  match w_shard_tx w with
  | None => (inl tx_aborted, w)
  | Some db =>
      let (e, w1) := pop_event w in
      match ev_fault e with
      | Some err =>
          (inl (ErrDb err),
           w1 <| w_shard_tx := None |> <| w_shard := if ev_applied e then db else w_shard w1 |>)
      | None => (inr tt, w1 <| w_shard_tx := None |> <| w_shard := db |>)
      end
  end.

Definition shard_rollback : M unit := fun w => (inr tt, w <| w_shard_tx := None |>).

Definition control_begin : M unit := fun w =>
  let (e, w1) := pop_event w in
  match ev_fault e with
  | Some err => (inl (ErrDb err), w1)
  | None => (inr tt, w1 <| w_control_tx := Some (w_control w1) |> <| w_tx_start := w_clock w1 |>)
  end.

Definition control_exec {A} (f : sql control_db A) : M A := fun w =>
  match w_control_tx w with
  | None => (inl tx_aborted, w)
  | Some db =>
      let (e, w1) := pop_event w in
      match ev_fault e with
      | Some err => (inl (ErrDb err), w1 <| w_control_tx := None |>)
      | None =>
          match f (sql_env_of w1) db with
          | inl err => (inl (ErrDb err), w1 <| w_control_tx := None |>)
          | inr (a, db') => (inr a, w1 <| w_control_tx := Some db' |> <| w_drawn ::= S |>)
          end
      end
  end.

Definition control_commit : M unit := fun w =>
  match w_control_tx w with
  | None => (inl tx_aborted, w)
  | Some db =>
      let (e, w1) := pop_event w in
      match ev_fault e with
      | Some err =>
          (inl (ErrDb err),
           w1 <| w_control_tx := None |> <| w_control := if ev_applied e then db else w_control w1 |>)
      | None => (inr tt, w1 <| w_control_tx := None |> <| w_control := db |>)
      end
  end.

Definition control_rollback : M unit := fun w => (inr tt, w <| w_control_tx := None |>).

(** A statement outside a transaction commits by itself. *)
Definition control_auto {A} (f : sql control_db A) : M A := fun w =>
  let (e, w1) := pop_event w in
  match f (SqlEnv (w_clock w1) (w_clock w1) (w_uuids w1 (w_drawn w1)) (w_locked w1)) (w_control w1) with
  | inl err => (inl (ErrDb (default err (ev_fault e))), w1)
  | inr (a, db') =>
      match ev_fault e with
      | Some err => (inl (ErrDb err), if ev_applied e then w1 <| w_control := db' |> else w1)
      | None => (inr a, w1 <| w_control := db' |> <| w_drawn ::= S |>)
      end
  end.

(** [QueryRow(...).Scan(...)]: no row is [pgx.ErrNoRows], which does not abort
    the transaction. *)
Definition row {A} (m : M (option A)) : M A :=
  o ← m; match o with Some a => mret a | None => throw ErrNoRows end.

(** ** Vault calls *)

Definition vault_call {A} (f : vault_state -> result A * vault_state) : M A := fun w =>
  let (e, w1) :=
    match w_vault_events w with
    | [] => (quiet, w)
    | e :: es => (e, w <| w_vault_events := es |> <| w_clock ::= Z.add (Z.of_N (ev_delay e)) |>)
    end in
  let (r, v') := f (w_vault w1) in
  match ev_fault e with
  | Some err => (inl (ErrDb err), if ev_applied e then w1 <| w_vault := v' |> else w1)
  | None => (r, w1 <| w_vault := v' |>)
  end.

(** ** Reasoning

    [frames R m]: whatever [m] returns, the world before and after it are
    related by [R].  [fails R m]: the same when [m] returns an error.  Both are
    compositional for a preorder [R]; the rules are hints, so a workflow is
    framed by [auto] from the frames of its statements. *)

Definition frames {A} (R : world -> world -> Prop) (m : M A) : Prop :=
  forall w r w', m w = (r, w') -> R w w'.
Definition fails {A} (R : world -> world -> Prop) (m : M A) : Prop :=
  forall w e w', m w = (inl e, w') -> R w w'.

Section Frames.
Context (R : world -> world -> Prop) `{!PreOrder R}.

Lemma frames_ret {A} (a : A) : frames R (mret a).
Proof. intros w r w' [= <- <-]. reflexivity. Qed.
Lemma frames_throw {A} e : frames R (throw (A := A) e).
Proof. intros w r w' [= <- <-]. reflexivity. Qed.
Lemma frames_of_result {A} (x : result A) : frames R (of_result x).
Proof. intros w r w' [= <- <-]. reflexivity. Qed.
Lemma frames_time : frames R time_now.
Proof. intros w r w' [= <- <-]. reflexivity. Qed.
Lemma frames_bind {A B} (m : M A) (k : A -> M B) :
  frames R m -> (forall a, frames R (k a)) -> frames R (m ≫= k).
Proof.
  intros Hm Hk w r w'. unfold mbind, M_bind. destruct (m w) as [[e|a] w1] eqn:E.
  - intros [= <- <-]. by eapply Hm.
  - intros H. etrans; [by eapply Hm|by eapply Hk].
Qed.
Lemma frames_try {A} (m : M A) : frames R m -> frames R (try m).
Proof. intros Hm w r w'. unfold try. destruct (m w) eqn:E. intros [= _ <-]. by eapply Hm. Qed.
Lemma frames_wrap {A} s (m : M A) : frames R m -> frames R (wrap s m).
Proof.
  intros Hm w r w'. unfold wrap. destruct (m w) as [[]] eqn:E; intros [= _ <-]; by eapply Hm.
Qed.
Lemma frames_defer {A} d (m : M A) : frames R d -> frames R m -> frames R (with_defer d m).
Proof.
  intros Hd Hm w r w'. unfold with_defer. destruct (m w) as [x w1] eqn:E. intros [= _ <-].
  etrans; [by eapply Hm|]. destruct (d w1) eqn:E1. by eapply Hd.
Qed.
Lemma frames_compensation {A} d (m : M A) : frames R d -> frames R m -> frames R (with_compensation d m).
Proof.
  intros Hd Hm w r w'. unfold with_compensation. destruct (m w) as [[] w1] eqn:E; intros [= _ <-].
  - etrans; [by eapply Hm|]. destruct (d w1) eqn:E1. by eapply Hd.
  - by eapply Hm.
Qed.
Lemma frames_row {A} (m : M (option A)) : frames R m -> frames R (row m).
Proof. intros H. apply frames_bind; [done|]. intros [a|]; [apply frames_ret|apply frames_throw]. Qed.
Lemma frames_mapM_ {A} (f : A -> M unit) l : (forall a, frames R (f a)) -> frames R (mapM_ f l).
Proof.
  intros Hf. induction l; cbn [mapM_]; [apply frames_ret|]. apply frames_bind; auto.
Qed.
Lemma frames_mapM_list {A B} (f : A -> M B) l : (forall a, frames R (f a)) -> frames R (mapM_list f l).
Proof.
  intros Hf. induction l; cbn [mapM_list]; [apply frames_ret|].
  repeat (apply frames_bind; [auto|intros]). apply frames_ret.
Qed.
Lemma frames_when b m : frames R m -> frames R (when b m).
Proof. destruct b; cbn; [done|]. intros _. apply frames_ret. Qed.

Lemma frames_fails {A} (m : M A) : frames R m -> fails R m.
Proof. intros H w e w'. apply H. Qed.
Lemma fails_ret {A} (a : A) : fails R (mret a).
Proof. intros w r w' [=]. Qed.
Lemma fails_bind {A B} (m : M A) (k : A -> M B) :
  frames R m -> (forall a, fails R (k a)) -> fails R (m ≫= k).
Proof.
  intros Hm Hk w r w'. unfold mbind, M_bind. destruct (m w) as [[e|a] w1] eqn:E.
  - intros [= <- <-]. by eapply Hm.
  - intros H. etrans; [by eapply Hm|by eapply Hk].
Qed.
(** The last effect of a computation, followed by a pure return. *)
Lemma fails_last {A B} (m : M A) (k : A -> M B) :
  fails R m -> (forall a w e w', k a w = (inl e, w') -> False) -> fails R (m ≫= k).
Proof.
  intros Hm Hk w r w'. unfold mbind, M_bind. destruct (m w) as [[e|a] w1] eqn:E.
  - intros [= <- <-]. by eapply Hm.
  - intros H. exfalso. by eapply Hk.
Qed.
Lemma fails_wrap {A} s (m : M A) : fails R m -> fails R (wrap s m).
Proof.
  intros Hm w r w'. unfold wrap. destruct (m w) as [[]] eqn:E; intros [= _ <-]; by eapply Hm.
Qed.
Lemma fails_defer {A} d (m : M A) : frames R d -> fails R m -> fails R (with_defer d m).
Proof.
  intros Hd Hm w r w'. unfold with_defer. destruct (m w) as [x w1] eqn:E. intros [= -> <-].
  etrans; [by eapply Hm|]. destruct (d w1) eqn:E1. by eapply Hd.
Qed.
Lemma fails_compensation {A} d (m : M A) :
  frames R d -> fails R m -> fails R (with_compensation d m).
Proof.
  intros Hd Hm w r w'. unfold with_compensation. destruct (m w) as [[] w1] eqn:E; [|done].
  intros [= <- <-]. etrans; [by eapply Hm|]. destruct (d w1) eqn:E1. by eapply Hd.
Qed.
End Frames.

Create HintDb frames.
#[export] Hint Resolve frames_ret frames_throw frames_of_result frames_time : frames.
#[export] Hint Extern 2 (PreOrder _) => apply _ : frames.

(** Splits a computation into its effects, which the hints of [frames] and of
    the databases they refer to frame one by one. *)
Ltac frame_with leaf :=
  lazymatch goal with
  | |- forall _, _ => intro; frame_with leaf
  | |- frames _ (mbind _ _) => apply (frames_bind _); [frame_with leaf|intro; frame_with leaf]
  | |- frames _ (with_defer _ _) => apply (frames_defer _); frame_with leaf
  | |- frames _ (with_compensation _ _) => apply (frames_compensation _); frame_with leaf
  | |- frames _ (wrap _ _) => apply (frames_wrap _); frame_with leaf
  | |- frames _ (try _) => apply (frames_try _); frame_with leaf
  | |- frames _ (row _) => apply (frames_row _); frame_with leaf
  | |- frames _ (mapM_ _ _) => apply (frames_mapM_ _); frame_with leaf
  | |- frames _ (mapM_list _ _) => apply (frames_mapM_list _); frame_with leaf
  | |- frames _ (when _ _) => apply (frames_when _); frame_with leaf
  | |- frames _ (match ?x with _ => _ end) => destruct x; frame_with leaf
  | |- frames _ (let _ := _ in _) => cbv zeta; frame_with leaf
  | |- _ => leaf
  end.

(** Inversion of a successful run. *)
Lemma bind_inr {A B} (m : M A) (k : A -> M B) w b w' :
  (m ≫= k) w = (inr b, w') <-> exists a w1, m w = (inr a, w1) /\ k a w1 = (inr b, w').
Proof.
  unfold mbind, M_bind. split.
  - destruct (m w) as [[e|a] w1]; [done|]. eauto.
  - by intros (a & w1 & -> & ?).
Qed.
Lemma ret_inr {A} (a b : A) w w' : mret (M := M) a w = (inr b, w') <-> a = b /\ w = w'.
Proof. unfold mret, M_ret. naive_solver. Qed.
Lemma throw_inr {A} e (b : A) w w' : throw e w = (inr b, w') <-> False.
Proof. unfold throw. naive_solver. Qed.
Lemma wrap_inr {A} s (m : M A) w b w' : wrap s m w = (inr b, w') <-> m w = (inr b, w').
Proof. unfold wrap. destruct (m w) as [[]]; naive_solver. Qed.
Lemma try_inr {A} (m : M A) w r w' : try m w = (inr r, w') <-> m w = (r, w').
Proof. unfold try. destruct (m w). naive_solver. Qed.
Lemma time_inr w t w' : time_now w = (inr t, w') <-> t = w_clock w /\ w' = w.
Proof. unfold time_now. naive_solver. Qed.
Lemma row_inr {A} (m : M (option A)) w a w' :
  row m w = (inr a, w') <-> m w = (inr (Some a), w').
Proof.
  unfold row. rewrite bind_inr. split.
  - intros ([x|] & w1 & Hm & Hk).
    + apply ret_inr in Hk as [-> ->]. done.
    + by apply throw_inr in Hk.
  - intros Hm. exists (Some a), w'. split; [done|]. by apply ret_inr.
Qed.
Lemma defer_inr {A} d (m : M A) w a w' :
  with_defer d m w = (inr a, w') <-> exists w1, m w = (inr a, w1) /\ w' = (d w1).2.
Proof. unfold with_defer. destruct (m w) as [x w1]. naive_solver. Qed.
Lemma compensation_inr {A} d (m : M A) w a w' :
  with_compensation d m w = (inr a, w') <-> m w = (inr a, w').
Proof. unfold with_compensation. destruct (m w) as [[]]; naive_solver. Qed.

(** ** What the primitives change

    [shard_moves P]: the committed shard and the working copy only move along
    the preorder [P].  [shard_untouched]: without lost commit replies the
    committed shard is what it was; every primitive but a successful commit
    keeps it.  [control_moves] and [control_untouched] are the same for the
    control database, [vault_moves] for the vault, [later] for the clock. *)

Definition shard_moves (P : relation shard_db) : relation world := fun w w' =>
  (forall v, w_shard_tx w = Some v -> P (w_shard w) v) ->
  P (w_shard w) (w_shard w') /\ (forall v, w_shard_tx w' = Some v -> P (w_shard w') v).
Definition control_moves (P : relation control_db) : relation world := fun w w' =>
  (forall v, w_control_tx w = Some v -> P (w_control w) v) ->
  P (w_control w) (w_control w') /\ (forall v, w_control_tx w' = Some v -> P (w_control w') v).

(** No reply of a commit still to come is lost. *)
Definition no_lost_reply (w : world) : Prop := Forall (fun e => ev_applied e = false) (w_events w).

Definition shard_untouched : relation world := fun w w' =>
  no_lost_reply w -> w_shard w' = w_shard w /\ no_lost_reply w'.
Definition control_untouched : relation world := fun w w' =>
  no_lost_reply w -> w_control w' = w_control w /\ no_lost_reply w'.
Definition vault_moves (V : relation vault_state) : relation world := fun w w' => V (w_vault w) (w_vault w').
Definition later : relation world := fun w w' => w_clock w <= w_clock w'.

#[export] Instance shard_moves_preorder P `{!PreOrder P} : PreOrder (shard_moves P).
Proof.
  split; [intros w H; split; [reflexivity|done]|].
  intros w1 w2 w3 H1 H2 H. destruct (H1 H) as [Ha Hb]. destruct (H2 Hb) as [Hc Hd].
  split; [by etrans|done].
Qed.
#[export] Instance control_moves_preorder P `{!PreOrder P} : PreOrder (control_moves P).
Proof.
  split; [intros w H; split; [reflexivity|done]|].
  intros w1 w2 w3 H1 H2 H. destruct (H1 H) as [Ha Hb]. destruct (H2 Hb) as [Hc Hd].
  split; [by etrans|done].
Qed.
#[export] Instance shard_untouched_preorder : PreOrder shard_untouched.
Proof.
  split; [intros w H; done|]. intros w1 w2 w3 H1 H2 H. destruct (H1 H) as [<- Hb]. auto.
Qed.
#[export] Instance control_untouched_preorder : PreOrder control_untouched.
Proof.
  split; [intros w H; done|]. intros w1 w2 w3 H1 H2 H. destruct (H1 H) as [<- Hb]. auto.
Qed.
#[export] Instance vault_moves_preorder V `{!PreOrder V} : PreOrder (vault_moves V).
Proof. split; [intros w; red; reflexivity|]. intros w1 w2 w3 ??. red. by etrans. Qed.
#[export] Instance later_preorder : PreOrder later.
Proof. split; [intros w; red; lia|]. intros w1 w2 w3 ??. unfold later in *. lia. Qed.

(** What a statement does to the database it runs on. *)
Definition mono {D A} (P : relation D) (f : sql D A) : Prop :=
  forall env db a db', f env db = inr (a, db') -> P db db'.

Lemma mono_read {D A} P `{!PreOrder P} (f : sql D A) :
  (forall env db a db', f env db = inr (a, db') -> db' = db) -> mono P f.
Proof. intros H env db a db' Hf. apply H in Hf as ->. reflexivity. Qed.

(** The relations above, and what each primitive needs to be framed by one. *)
Class WorldRel (R : relation world) := {
  wr_preorder :: PreOrder R;
  wr_begin : frames R shard_begin;
  wr_rollback : frames R shard_rollback;
  wr_control_begin : frames R control_begin;
  wr_control_rollback : frames R control_rollback;
  wr_rand : frames R rand16
}.

Ltac world_cases :=
  intros ? ? ?;
  unfold shard_begin, shard_exec, shard_commit, shard_rollback, control_begin, control_exec, control_commit,
    control_rollback, control_auto, rand16, vault_call, pop_event;
  repeat case_match; intros; simplify_eq/=.
Ltac world_rel :=
  world_cases; unfold shard_moves, control_moves, shard_untouched, control_untouched, vault_moves, later,
    no_lost_reply in *; cbn in *;
  repeat match goal with H : w_events _ = _ :: _ |- _ => rewrite H in *; clear H end;
  try solve [lia | done | reflexivity | intros; split; [reflexivity|naive_solver]
    | rewrite ?Forall_cons; naive_solver | split; intros; simplify_eq; try reflexivity; naive_solver].

#[export] Instance shard_moves_rel P `{!PreOrder P} : WorldRel (shard_moves P).
Proof. split; [apply _|..]; world_rel. Qed.
#[export] Instance control_moves_rel P `{!PreOrder P} : WorldRel (control_moves P).
Proof. split; [apply _|..]; world_rel. Qed.
#[export] Instance shard_untouched_rel : WorldRel shard_untouched.
Proof. split; [apply _|..]; world_rel. Qed.
#[export] Instance control_untouched_rel : WorldRel control_untouched.
Proof. split; [apply _|..]; world_rel. Qed.
#[export] Instance vault_moves_rel V `{!PreOrder V} : WorldRel (vault_moves V).
Proof. split; [apply _|..]; world_rel. Qed.
#[export] Instance later_rel : WorldRel later.
Proof. split; [apply _|..]; world_rel. Qed.
#[export] Hint Resolve wr_begin wr_rollback wr_control_begin wr_control_rollback wr_rand : frames.
#[export] Hint Extern 2 (WorldRel _) => apply _ : frames.

Section Primitives.
Context {A : Type}.

Lemma moves_exec P `{!PreOrder P} (f : sql shard_db A) : mono P f -> frames (shard_moves P) (shard_exec f).
Proof.
  intros Hf. world_rel; (intros Hq; split; [reflexivity|]; intros ? [= <-]; etrans; [by eauto|by eapply Hf]).
Qed.
Lemma moves_commit P `{!PreOrder P} : frames (shard_moves P) shard_commit.
Proof. world_rel. Qed.
Lemma moves_control_exec P `{!PreOrder P} (f : sql control_db A) : frames (shard_moves P) (control_exec f).
Proof. world_rel. Qed.
Lemma moves_control_commit P `{!PreOrder P} : frames (shard_moves P) control_commit.
Proof. world_rel. Qed.
Lemma moves_control_auto P `{!PreOrder P} (f : sql control_db A) : frames (shard_moves P) (control_auto f).
Proof. world_rel. Qed.
Lemma moves_vault P `{!PreOrder P} (f : vault_state -> result A * vault_state) :
  frames (shard_moves P) (vault_call f).
Proof. world_rel. Qed.

Lemma cmoves_exec P `{!PreOrder P} (f : sql shard_db A) : frames (control_moves P) (shard_exec f).
Proof. world_rel. Qed.
Lemma cmoves_commit P `{!PreOrder P} : frames (control_moves P) shard_commit.
Proof. world_rel. Qed.
Lemma cmoves_control_exec P `{!PreOrder P} (f : sql control_db A) :
  mono P f -> frames (control_moves P) (control_exec f).
Proof.
  intros Hf. world_rel; (intros Hq; split; [reflexivity|]; intros ? [= <-]; etrans; [by eauto|by eapply Hf]).
Qed.
Lemma cmoves_control_commit P `{!PreOrder P} : frames (control_moves P) control_commit.
Proof. world_rel. Qed.
Lemma cmoves_vault P `{!PreOrder P} (f : vault_state -> result A * vault_state) :
  frames (control_moves P) (vault_call f).
Proof. world_rel. Qed.

Lemma untouched_exec (f : sql shard_db A) : frames shard_untouched (shard_exec f).
Proof. world_rel. Qed.
Lemma untouched_commit : fails shard_untouched shard_commit.
Proof. world_rel; intros [? ?]%Forall_cons; cbn in *; congruence. Qed.
Lemma untouched_control_exec (f : sql control_db A) : frames shard_untouched (control_exec f).
Proof. world_rel. Qed.
Lemma untouched_control_commit : frames shard_untouched control_commit.
Proof. world_rel. Qed.
Lemma untouched_vault (f : vault_state -> result A * vault_state) : frames shard_untouched (vault_call f).
Proof. world_rel. Qed.

Lemma cuntouched_exec (f : sql shard_db A) : frames control_untouched (shard_exec f).
Proof. world_rel. Qed.
Lemma cuntouched_control_exec (f : sql control_db A) : frames control_untouched (control_exec f).
Proof. world_rel. Qed.
Lemma cuntouched_control_commit : fails control_untouched control_commit.
Proof. world_rel; intros [? ?]%Forall_cons; cbn in *; congruence. Qed.

Lemma vmoves_exec V `{!PreOrder V} (f : sql shard_db A) : frames (vault_moves V) (shard_exec f).
Proof. world_rel. Qed.
Lemma vmoves_commit V `{!PreOrder V} : frames (vault_moves V) shard_commit.
Proof. world_rel. Qed.
Lemma vmoves_control_exec V `{!PreOrder V} (f : sql control_db A) : frames (vault_moves V) (control_exec f).
Proof. world_rel. Qed.
Lemma vmoves_control_commit V `{!PreOrder V} : frames (vault_moves V) control_commit.
Proof. world_rel. Qed.

Lemma later_exec (f : sql shard_db A) : frames later (shard_exec f).
Proof. world_rel. Qed.
Lemma later_commit : frames later shard_commit.
Proof. world_rel. Qed.
Lemma later_vault (f : vault_state -> result A * vault_state) : frames later (vault_call f).
Proof. world_rel. Qed.
End Primitives.

#[export] Hint Resolve moves_exec moves_commit moves_control_exec moves_control_commit moves_control_auto moves_vault
  cmoves_exec cmoves_commit cmoves_control_exec cmoves_control_commit cmoves_vault
  untouched_exec untouched_control_exec untouched_control_commit untouched_vault
  cuntouched_exec cuntouched_control_exec vmoves_exec vmoves_commit vmoves_control_exec vmoves_control_commit
  later_exec later_commit later_vault : frames.

(** Inversion of successful primitives. *)
Lemma exec_inr {A} (f : sql shard_db A) w a w' :
  shard_exec f w = (inr a, w') ->
  exists db db' env, w_shard_tx w = Some db /\ f env db = inr (a, db') /\
    now env = w_tx_start w /\ w_clock w <= clock_timestamp env /\ clock_timestamp env = w_clock w' /\
    locked env = w_locked w /\
    w_shard_tx w' = Some db' /\ w_shard w' = w_shard w /\ w_tx_start w' = w_tx_start w /\
    w_vault w' = w_vault w /\ w_locked w' = w_locked w /\ w_control w' = w_control w.
Proof.
  unfold shard_exec, pop_event, sql_env_of. repeat case_match; intros; simplify_eq/=;
  do 3 eexists; repeat split; first [eassumption | done | reflexivity | cbn; lia].
Qed.
Lemma begin_inr w w' :
  shard_begin w = (inr tt, w') ->
  w_shard_tx w' = Some (w_shard w) /\ w_shard w' = w_shard w /\ w_clock w <= w_clock w' /\
    w_tx_start w' = w_clock w' /\ w_vault w' = w_vault w /\ w_locked w' = w_locked w /\ w_control w' = w_control w.
Proof. unfold shard_begin, pop_event. repeat case_match; intros; simplify_eq/=; repeat split; done || lia. Qed.
Lemma commit_inr w w' :
  shard_commit w = (inr tt, w') ->
  exists db, w_shard_tx w = Some db /\ w_shard w' = db /\ w_shard_tx w' = None /\ w_clock w <= w_clock w' /\
    w_vault w' = w_vault w /\ w_locked w' = w_locked w /\ w_control w' = w_control w.
Proof.
  unfold shard_commit, pop_event. repeat case_match; intros; simplify_eq/=; eexists;
  repeat split; done || lia.
Qed.

(** A bind either fails in its first part or goes on. *)
Lemma bind_eq {A B} (m : M A) (k : A -> M B) w a w' : m w = (inr a, w') -> (m ≫= k) w = k a w'.
Proof. unfold mbind, M_bind. by intros ->. Qed.
Lemma bind_run {A B} (m : M A) (k : A -> M B) w r w' :
  (m ≫= k) w = (r, w') ->
  (exists e, r = inl e /\ m w = (inl e, w')) \/ (exists a w1, m w = (inr a, w1) /\ k a w1 = (r, w')).
Proof. unfold mbind, M_bind. destruct (m w) as [[e|a] w1] eqn:E; [intros [= <- <-]|]; eauto. Qed.

(** A statement of an open transaction. *)
Lemma exec_tx {A} (f : sql shard_db A) w db a w' :
  w_shard_tx w = Some db -> shard_exec f w = (inr a, w') ->
  exists env db', f env db = inr (a, db') /\ w_shard_tx w' = Some db' /\
    now env = w_tx_start w /\ w_clock w <= clock_timestamp env /\ clock_timestamp env = w_clock w' /\
    locked env = w_locked w /\ w_tx_start w' = w_tx_start w.
Proof.
  intros Hdb H. apply exec_inr in H as (db0 & db' & env & ? & ? & ? & ? & ? & ? & ? & ? & ? & ? & ? & ?).
  simplify_eq. eauto 10.
Qed.

(** [keeps]: the committed shard is untouched, as by everything but a commit. *)
Definition committed : relation world := fun w w' => w_shard w' = w_shard w.
#[export] Instance committed_preorder : PreOrder committed.
Proof. split; [done|]. unfold committed. intros a b c ??. congruence. Qed.
#[export] Instance committed_rel : WorldRel committed.
Proof. split; [apply _|..]; world_cases; done. Qed.
Lemma committed_exec {A} (f : sql shard_db A) : frames committed (shard_exec f).
Proof. world_cases; done. Qed.
Lemma committed_vault {A} (f : vault_state -> result A * vault_state) : frames committed (vault_call f).
Proof. world_cases; done. Qed.
Lemma committed_control {A} (f : sql control_db A) : frames committed (control_exec f).
Proof. world_cases; done. Qed.
Lemma committed_control_commit : frames committed control_commit.
Proof. world_cases; done. Qed.
#[export] Hint Resolve committed_exec committed_vault committed_control committed_control_commit : frames.

(** A commit that fails either changed nothing or published the working copy. *)
Lemma commit_run w r w' :
  shard_commit w = (r, w') ->
  w_shard w' = w_shard w \/ (exists db, w_shard_tx w = Some db /\ w_shard w' = db).
Proof. unfold shard_commit, pop_event. repeat case_match; intros; simplify_eq/=; eauto. Qed.

(** The relations every statement respects, whatever it does. *)
Class DbRel (R : relation world) := {
  dr_rel :: WorldRel R;
  dr_exec A (f : sql shard_db A) : frames R (shard_exec f)
}.
#[export] Instance committed_db : DbRel committed.
Proof. split; [apply _|intros; apply committed_exec]. Qed.
#[export] Instance untouched_db : DbRel shard_untouched.
Proof. split; [apply _|intros; apply untouched_exec]. Qed.
#[export] Instance vmoves_db V `{!PreOrder V} : DbRel (vault_moves V).
Proof. split; [apply _|intros; apply vmoves_exec, _]. Qed.
#[export] Instance later_db : DbRel later.
Proof. split; [apply _|intros; apply later_exec]. Qed.
#[export] Hint Resolve dr_exec : frames.
#[export] Hint Extern 2 (DbRel _) => apply _ : frames.
