(* ===== verification/Outcomes.v ===== *)
(** * Outcomes: what a computation returns and which errors it ends with

    [ensures P E m]: whatever the world, [m] returns a value with [P] or an error
    with [E].  [problems S] are the errors whose HTTP problem, if they carry one,
    has a status in [S]: every failure of a database, of the random source or of
    a sentinel is among them, so the statements of the stores need no case. *)

From S2P Require Import Prelude Stores World.
Open Scope string_scope.
Open Scope list_scope.
Open Scope Z_scope.

Definition ensures {A} (P : A -> Prop) (E : error -> Prop) (m : M A) : Prop :=
  forall w x w', m w = (x, w') -> match x with inr a => P a | inl e => E e end.

Definition one_of (S : list Z) (status : Z) : bool := existsb (Z.eqb status) S.
Definition problems (S : list Z) (e : error) : Prop :=
  match error_cause e with ErrProblem status _ _ => one_of S status = true | _ => True end.
(** The errors without an HTTP problem. *)
Abbreviation plain := (problems []).

Lemma one_of_app S T status : one_of S status = true \/ one_of T status = true -> one_of (S ++ T) status = true.
Proof. unfold one_of. rewrite existsb_app, orb_true_iff. auto. Qed.
Lemma one_of_incl S T status : forallb (one_of T) S = true -> one_of S status = true -> one_of T status = true.
Proof.
  intros HS (s & Hs & E)%existsb_exists. apply Z.eqb_eq in E as ->. rewrite forallb_forall in HS. by apply HS.
Qed.
Lemma problems_mono S T e : forallb (one_of T) S = true -> problems S e -> problems T e.
Proof. unfold problems. intros H. destruct (error_cause e); try done. by apply one_of_incl. Qed.
Lemma problems_wrap S s e : problems S e -> problems S (ErrWrap s e).
Proof. done. Qed.

(** ** Rules *)

Section Rules.
Context (E : error -> Prop).

Lemma ensures_ret {A} (P : A -> Prop) a : P a -> ensures P E (mret a).
Proof. by intros Ha w x w' [= <- <-]. Qed.
Lemma ensures_throw {A} (P : A -> Prop) e : E e -> ensures P E (throw e).
Proof. by intros He w x w' [= <- <-]. Qed.
Lemma ensures_bind {A B} (Q : A -> Prop) (P : B -> Prop) (m : M A) (k : A -> M B) :
  ensures Q E m -> (forall a, Q a -> ensures P E (k a)) -> ensures P E (m ≫= k).
Proof.
  intros Hm Hk w x w'. unfold mbind, M_bind. destruct (m w) as [[e|a] w1] eqn:Em; specialize (Hm _ _ _ Em).
  - by intros [= <- <-].
  - by apply Hk.
Qed.
Lemma ensures_then {A B} (P : B -> Prop) (m : M A) (k : A -> M B) :
  ensures (fun _ => True) E m -> (forall a, ensures P E (k a)) -> ensures P E (m ≫= k).
Proof. intros Hm Hk. eapply ensures_bind; [exact Hm|auto]. Qed.
Lemma ensures_try {A B} (P : B -> Prop) (m : M A) (k : result A -> M B) :
  ensures (fun _ => True) E m -> (forall e, E e -> ensures P E (k (inl e))) -> (forall a, ensures P E (k (inr a))) ->
  ensures P E (try m ≫= k).
Proof.
  intros Hm He Hk w x w'. unfold mbind, M_bind, try. destruct (m w) as [[e|a] w1] eqn:Em; specialize (Hm _ _ _ Em).
  - by apply He.
  - by apply Hk.
Qed.
Lemma ensures_defer {A} (P : A -> Prop) d (m : M A) : ensures P E m -> ensures P E (with_defer d m).
Proof.
  intros Hm w x w'. unfold with_defer. destruct (m w) as [r w1] eqn:Em. intros [= -> <-]. by eapply Hm.
Qed.
Lemma ensures_compensation {A} (P : A -> Prop) d (m : M A) : ensures P E m -> ensures P E (with_compensation d m).
Proof.
  intros Hm w x w'. unfold with_compensation. destruct (m w) as [[e|a] w1] eqn:Em; specialize (Hm _ _ _ Em); by intros [= <- <-].
Qed.
Lemma ensures_mono {A} (P Q : A -> Prop) (F : error -> Prop) (m : M A) :
  (forall a, P a -> Q a) -> (forall e, F e -> E e) -> ensures P F m -> ensures Q E m.
Proof. intros HPQ HF Hm w x w' Hrun. specialize (Hm _ _ _ Hrun). destruct x; auto. Qed.
Lemma ensures_of_result {A} (P : A -> Prop) (x : result A) :
  (forall e, x = inl e -> E e) -> (forall a, x = inr a -> P a) -> ensures P E (of_result x).
Proof. intros He Ha w y w'. unfold of_result. intros [= <- <-]. destruct x; auto. Qed.
Lemma ensures_when (P : unit -> Prop) b m : P tt -> ensures P E m -> ensures P E (when b m).
Proof. intros Hp Hm. destruct b; [done|by apply ensures_ret]. Qed.
Lemma ensures_mapM_ {A} (f : A -> M unit) l : (forall a, ensures (fun _ => True) E (f a)) -> ensures (fun _ => True) E (mapM_ f l).
Proof. intros Hf. induction l as [|a l IH]; cbn; [by apply ensures_ret|]. by apply ensures_then. Qed.
Lemma ensures_mapM_list {A B} (f : A -> M B) l :
  (forall a, ensures (fun _ => True) E (f a)) -> ensures (fun _ => True) E (mapM_list f l).
Proof.
  intros Hf. induction l as [|a l IH]; cbn; [by apply ensures_ret|]. apply ensures_then; [done|]. intros b.
  apply ensures_then; [done|]. intros bs. by apply ensures_ret.
Qed.
End Rules.
Lemma ensures_any {A} (m : M A) : ensures (fun _ => True) (fun _ => True) m.
Proof. intros w x w' _. by destruct x. Qed.
Lemma ensures_inr {A} (P : A -> Prop) E (m : M A) w a w' : ensures P E m -> m w = (inr a, w') -> P a.
Proof. intros Hm H. exact (Hm _ _ _ H). Qed.
(** Splits a computation whose errors are not at issue down to its last value;
    [draw] are the steps whose value matters. *)
Ltac returns_with draw := lazymatch goal with
  | |- ensures _ _ (mbind _ _) => first [draw; returns_with draw | apply ensures_then; [apply ensures_any|intro; returns_with draw]]
  | |- ensures _ _ (with_compensation _ _) => apply ensures_compensation; returns_with draw
  | |- ensures _ _ (with_defer _ _) => apply ensures_defer; returns_with draw
  | |- ensures _ _ (mret _) => apply ensures_ret; try done
  | |- ensures _ _ (throw _) => by apply ensures_throw
  | |- ensures _ _ (match ?x with _ => _ end) => destruct x; returns_with draw
  | |- ensures _ _ (let _ := _ in _) => cbv zeta; returns_with draw
  | |- _ => idtac
  end.
Ltac returns := returns_with fail.

(** ** Statements and calls *)

Section Leaves.
Context (S : list Z).
Abbreviation raises := (ensures (fun _ => True) (problems S)).
Ltac leaf := intros w x w'; unfold shard_begin, shard_exec, shard_commit, shard_rollback, control_begin, control_exec,
  control_commit, control_rollback, control_auto, rand16, time_now, pop_event; repeat case_match; intros; simplify_eq/=; done.

Lemma raises_time : raises time_now.
Proof. leaf. Qed.
Lemma raises_rand : raises rand16.
Proof. leaf. Qed.
Lemma raises_begin : raises shard_begin.
Proof. leaf. Qed.
Lemma raises_exec {A} (f : sql shard_db A) : raises (shard_exec f).
Proof. leaf. Qed.
Lemma raises_commit : raises shard_commit.
Proof. leaf. Qed.
Lemma raises_rollback : raises shard_rollback.
Proof. leaf. Qed.
Lemma raises_control_begin : raises control_begin.
Proof. leaf. Qed.
Lemma raises_control_exec {A} (f : sql control_db A) : raises (control_exec f).
Proof. leaf. Qed.
Lemma raises_control_commit : raises control_commit.
Proof. leaf. Qed.
Lemma raises_control_rollback : raises control_rollback.
Proof. leaf. Qed.
Lemma raises_control_auto {A} (f : sql control_db A) : raises (control_auto f).
Proof. leaf. Qed.
Lemma raises_row {A} (m : M (option A)) : raises m -> raises (row m).
Proof.
  intros Hm. unfold row. apply ensures_then; [done|]. intros [a|]; [by apply ensures_ret|by apply ensures_throw].
Qed.
Lemma raises_wrap {A} (P : A -> Prop) s (m : M A) : ensures P (problems S) m -> ensures P (problems S) (wrap s m).
Proof.
  intros Hm w x w'. unfold wrap. destruct (m w) as [[e|a] w1] eqn:Em; specialize (Hm _ _ _ Em); by intros [= <- <-].
Qed.
End Leaves.

Create HintDb raises.
#[export] Hint Resolve raises_time raises_rand raises_begin raises_exec raises_commit raises_rollback raises_control_begin
  raises_control_exec raises_control_commit raises_control_rollback raises_control_auto : raises.

(** Splits a computation: errors are thrown with a status of the list, passed
    on, or come from a leaf. *)
Ltac raise_with leaf :=
  lazymatch goal with
  | |- forall _, _ => intro; raise_with leaf
  | |- ensures _ _ (try _ ≫= _) => apply ensures_try; [raise_with leaf|intros ? ?; raise_with leaf|intro; raise_with leaf]
  | |- ensures _ _ (mbind _ _) => apply ensures_then; [raise_with leaf|intro; raise_with leaf]
  | |- ensures _ _ (with_defer _ _) => apply ensures_defer; raise_with leaf
  | |- ensures _ _ (with_compensation _ _) => apply ensures_compensation; raise_with leaf
  | |- ensures _ _ (wrap _ _) => apply raises_wrap; raise_with leaf
  | |- ensures _ _ (row _) => apply raises_row; raise_with leaf
  | |- ensures _ _ (mapM_ _ _) => apply ensures_mapM_; raise_with leaf
  | |- ensures _ _ (mapM_list _ _) => apply ensures_mapM_list; raise_with leaf
  | |- ensures _ _ (when _ _) => apply ensures_when; [exact I|raise_with leaf]
  | |- ensures _ _ (match ?x with _ => _ end) => destruct x; raise_with leaf
  | |- ensures _ _ (let _ := _ in _) => cbv zeta; raise_with leaf
  | |- ensures _ _ (mret _) => apply ensures_ret; first [exact I | leaf]
  | |- ensures _ _ (throw _) => apply ensures_throw; first [assumption | reflexivity | exact I | leaf]
  | |- _ => first [solve [auto with raises nocore] | leaf]
  end.
Ltac raise := raise_with idtac.
