(* ===== verification/ShardTx.v ===== *)
(** * ShardTx: the shard transaction every store shares

    [internal/repository/shard/transaction.go] (idempotency records) and the
    helpers of [reader.go] the commands are built from: the tenant transaction,
    the scans, and the inserts of operations, history and audit events.

    A statement is a function of its [sql_env] and the tables.  The constraints
    it checks here are the keys the commands rely on (primary keys, the unique
    operation of a history row and of a batch or run item); a violation of any
    other constraint is one of the faults a statement may meet. *)

From S2P Require Import Prelude Json Domain Stores World.
Open Scope string_scope.
Open Scope list_scope.
Open Scope Z_scope.

(** ** SQL helpers *)

(** SQLSTATEs: unique violation, and RAISE EXCEPTION in a trigger. *)
Definition unique_violation : db_error := PgError "23505".
Definition raise_exception : db_error := PgError "P0001".

(** A statement that only reads. *)
Definition query {D A} (g : sql_env -> D -> A) : sql D A := fun env db => inr (g env db, db).

(** INSERT with a primary key. *)
Definition insert_pk {K V} `{Countable K} (k : K) (v : V) (t : gmap K V) : db_error + gmap K V :=
  match t !! k with
  | Some _ => inl unique_violation
  | None => inr (<[k := v]> t)
  end.

(** ** Transactions *)

(** [beginTenant]: the tenant setting is a statement that reads nothing. *)
Definition beginTenant (bank : string) : M unit :=
  wrap "begin shard transaction" shard_begin ;;
  r ← try (shard_exec (query (fun _ _ => tt)));
  match r with
  | inl err => shard_rollback ;; throw (ErrWrap "set shard tenant context" err)
  | inr _ => mret tt
  end.

(** ** Idempotency records *)

Definition system_actor : string := "00000000-0000-4000-8000-000000000000".

Definition select_idempotency (bank scope key : string) : sql shard_db (option idem_row) :=
  query (fun _ db => idem db !! (bank, scope, key)).

Definition processing_body : json := JObj [("status", JStr "processing")].

(** The UPDATE that takes over an expired record. *)
Definition reclaim_idempotency (claim : ShardIdempotencyClaim) : sql shard_db (option string) :=
  fun _ db =>
    let k := (ShardIdempotencyClaim_Bank claim, ShardIdempotencyClaim_Scope claim, ShardIdempotencyClaim_Key claim) in
    match idem db !! k with
    | None => inr (None, db)
    | Some r =>
        inr (Some (id_id r),
             db <| idem ::= <[k := r <| id_request_fingerprint := ShardIdempotencyClaim_Fingerprint claim |>
                                     <| id_response_status := Some 202 |>
                                     <| id_response_body := Some (jsonb processing_body) |>
                                     <| id_result_reference := None |>
                                     <| id_status := "processing" |>
                                     <| id_expires_at := ShardIdempotencyClaim_ExpiresAt claim |>
                                     <| id_updated_by := system_actor |>]> |>)
    end.

(** INSERT ... ON CONFLICT DO NOTHING RETURNING id. *)
Definition insert_idempotency (claim : ShardIdempotencyClaim) : sql shard_db (option string) :=
  fun env db =>
    let k := (ShardIdempotencyClaim_Bank claim, ShardIdempotencyClaim_Scope claim, ShardIdempotencyClaim_Key claim) in
    match idem db !! k with
    | Some _ => inr (None, db)
    | None =>
        inr (Some (gen_random_uuid env 0),
             db <| idem ::= <[k := IdemRow (gen_random_uuid env 0) (ShardIdempotencyClaim_Fingerprint claim)
                                     "processing" (Some 202) (Some (jsonb processing_body)) None
                                     (ShardIdempotencyClaim_ExpiresAt claim) system_actor system_actor]> |>)
    end.

Definition no_replay (id : string) : ShardIdempotencyReplay := MkShardIdempotencyReplay id JNull 0 false.

(** The closure [load] of [ClaimIdempotency]. *)
Definition load_idempotency (claim : ShardIdempotencyClaim) : M ShardIdempotencyReplay :=
  r ← try (row (shard_exec (select_idempotency (ShardIdempotencyClaim_Bank claim)
                              (ShardIdempotencyClaim_Scope claim) (ShardIdempotencyClaim_Key claim))));
  match r with
  | inl err => if errors_is err ErrNoRows then mret (no_replay "") else throw err
  | inr r =>
      if ShardIdempotencyClaim_Now claim <? id_expires_at r then
        if id_request_fingerprint r != ShardIdempotencyClaim_Fingerprint claim then throw ErrIdempotencyConflict
        else match id_response_status r with
             | None => throw (ErrMsg "idempotency response status is missing")
             | Some status =>
                 mret (MkShardIdempotencyReplay (id_id r) (default JNull (id_response_body r)) status true)
             end
      else
        id ← row (shard_exec (reclaim_idempotency claim));
        mret (no_replay id)
  end.

Definition ClaimIdempotency (claim : ShardIdempotencyClaim) : M ShardIdempotencyReplay :=
  replay ← load_idempotency claim;
  if ShardIdempotencyReplay_Found replay || (ShardIdempotencyReplay_RecordID replay != "") then mret replay
  else
    r ← try (row (shard_exec (insert_idempotency claim)));
    match r with
    | inr id => mret (no_replay id)
    | inl err => if errors_is err ErrNoRows then load_idempotency claim else throw err
    end.

(** The UPDATE of [FinishIdempotency]; no row is no error. *)
Definition finish_idempotency (bank scope key : string) (status : Z) (response : json) (result : option string)
    (actor : string) : sql shard_db unit :=
  fun _ db =>
    match idem db !! (bank, scope, key) with
    | None => inr (tt, db)
    | Some r =>
        inr (tt, db <| idem ::= <[(bank, scope, key) :=
          r <| id_status := "succeeded" |> <| id_response_status := Some status |>
            <| id_response_body := Some (jsonb response) |> <| id_result_reference := result |>
            <| id_updated_by := actor |>]> |>)
    end.

Definition FinishIdempotency (bank scope key : string) (status : Z) (response : json) (result actor : string) : M unit :=
  let resultID := if result != "" then Some result else None in
  shard_exec (finish_idempotency bank scope key status response resultID actor).

(** ** Operations, history, audit *)

(** [scanCard] and the other scans: the record of a row and its key. *)
Definition scanCard (id : string) (c : card_row) : Card :=
  MkCard id (cd_client_id c) (cd_account_reference_id c) (cd_product_id c) (cd_status c) (cd_masked_pan c)
    (cd_predecessor_card_id c) (cd_issued_at c) (cd_activated_at c) (cd_suspended_at c) (cd_closed_at c)
    (cd_expires_at c) (cd_version c) (cd_created_at c) (cd_updated_at c).
Definition scanCardOperation (id : string) (o : operation_row) : CardOperation :=
  MkCardOperation id (op_card_id o) (op_action o) (op_status o) (op_reason o) (op_created_at o) (op_completed_at o).
Definition scanCardStatusHistory (h : history_row) : CardStatusHistory :=
  MkCardStatusHistory (hi_id h) (hi_previous_status h) (hi_new_status h) (hi_reason h) (hi_created_at h).
Definition scanCardStatusBatch (id : string) (b : batch_row) : CardStatusBatch :=
  MkCardStatusBatch id (ba_target_status b) (ba_reason b) (ba_requested_by b) (ba_requester_role b) (ba_status b)
    (ba_item_count b) (ba_applied_count b) (ba_ignored_count b) (ba_failure_code b) (ba_failure_summary b)
    (ba_retry_of_batch_id b) (ba_created_at b) (ba_updated_at b) (ba_completed_at b).
Definition scanCardStatusBatchItem (id : string) (i : item_row) (created_at : Z) : CardStatusBatchItem :=
  MkCardStatusBatchItem id (it_card_id i) (it_operation_id i) (it_previous_status i) (it_outcome i)
    (it_failure_code i) created_at.

(** Who acts, as every audit and history row records it. *)
Record actor := Actor {
  actor_user_id : option string;
  actor_role : string;
  actor_entity_id : option string;
  actor_executor : option string
}.

Definition operation_of (card action status reason request_id : string) (who : actor) (started completed : option Z)
    (by_user : option string) (env : sql_env) : operation_row :=
  OperationRow card action status reason (actor_user_id who) (actor_role who) (actor_entity_id who)
    (actor_executor who) request_id started completed None None (now env) (now env) by_user by_user.

Definition insert_operation (bank id : string) (mk : sql_env -> operation_row) : sql shard_db CardOperation :=
  fun env db =>
    match insert_pk (bank, id) (mk env) (operations db) with
    | inl err => inl err
    | inr t => inr (scanCardOperation id (mk env), db <| operations := t |>)
    end.

(** [UNIQUE (entity_id, operation_id)] of the history. *)
Definition insert_history (bank card operation previous new reason : string) (who : actor) : sql shard_db unit :=
  fun env db =>
    if existsb (fun h => (hi_entity_id h == bank) && (hi_operation_id h == operation)) (history db) then inl unique_violation
    else
      inr (tt, db <| history ::= fun l => l ++
        [HistoryRow bank (gen_random_uuid env 0) card operation previous new reason (actor_user_id who)
           (actor_role who) (actor_entity_id who) (actor_executor who) (now env)] |>).

Definition insert_audit (bank action resource_type resource_id outcome request_id : string) (who : actor)
    (details : json) : sql shard_db unit :=
  fun env db =>
    inr (tt, db <| audit ::= fun l => l ++
      [AuditRow bank (actor_user_id who) (actor_role who) (actor_entity_id who) (actor_executor who) action
         resource_type resource_id outcome request_id (now env) (jsonb details)] |>).

(** A user acting through the API. *)
Definition user_actor (id role entity : string) : actor := Actor (Some id) role (nullable entity) None.

(** [insertCardOperation]: a synchronous operation, recorded as succeeded. *)
Definition insertCardOperation (bank operationID cardID action reason actorID actorRole actorEntityID requestID : string)
    : M CardOperation :=
  shard_exec (insert_operation bank operationID (fun env =>
    operation_of cardID action "succeeded" reason requestID (user_actor actorID actorRole actorEntityID)
      (Some (clock_timestamp env)) (Some (clock_timestamp env)) (Some actorID) env)).

(** ** Lemmas *)

(** The tenant transaction works on the committed shard. *)
Lemma beginTenant_inr bank w w' :
  beginTenant bank w = (inr tt, w') ->
  w_shard_tx w' = Some (w_shard w) /\ w_shard w' = w_shard w /\ w_clock w <= w_clock w' /\
  w_clock w <= w_tx_start w' <= w_clock w' /\ w_vault w' = w_vault w /\ w_locked w' = w_locked w /\
  w_control w' = w_control w.
Proof.
  unfold beginTenant. intros H. apply bind_inr in H as ([] & w1 & H1 & H). rewrite wrap_inr in H1.
  apply begin_inr in H1 as (Htx & Hs & Hc & Hst & Hv & Hl & Hctl).
  apply bind_inr in H as (x & w2 & H2 & H). rewrite try_inr in H2. destruct x as [e|[]].
  { apply bind_inr in H as (? & ? & _ & H). by apply throw_inr in H. }
  apply ret_inr in H as [_ <-].
  apply exec_inr in H2 as (db & db' & env & Hdb & Hf & Hn & Hck & Hck' & Hlk & Hdb' & Hs' & Hst' & Hv' & Hl' & Hctl').
  injection Hf as <-. rewrite Htx in Hdb. injection Hdb as <-.
  repeat split; try congruence; lia.
Qed.

Ltac frame_leaf := try solve [auto with frames].

Section DbFrames.
Context (R : relation world) `{!DbRel R}.
Lemma db_beginTenant bank : frames R (beginTenant bank).
Proof. unfold beginTenant. frame_with ltac:(frame_leaf). Qed.
Lemma db_ClaimIdempotency c : frames R (ClaimIdempotency c).
Proof. unfold ClaimIdempotency, load_idempotency. frame_with ltac:(frame_leaf). Qed.
Lemma db_FinishIdempotency b s k st j r a : frames R (FinishIdempotency b s k st j r a).
Proof. unfold FinishIdempotency. frame_with ltac:(frame_leaf). Qed.
Lemma db_insertCardOperation b o c a r i ro e q : frames R (insertCardOperation b o c a r i ro e q).
Proof. unfold insertCardOperation. frame_with ltac:(frame_leaf). Qed.
End DbFrames.
#[export] Hint Resolve db_beginTenant db_ClaimIdempotency db_FinishIdempotency db_insertCardOperation : frames.

(** Splits a computation for [fails shard_untouched]: everything before the
    commit is framed, nothing after it fails. *)
Ltac fail_with leaf :=
  lazymatch goal with
  | |- forall _, _ => intro; fail_with leaf
  | |- fails _ (mbind _ shard_commit) =>
      apply (fails_last _); [apply untouched_commit|intros ? ? ? ? ?; done]
  | |- fails _ (mbind _ _) => apply (fails_bind _); [frame_with leaf|intro; fail_with leaf]
  | |- fails _ (with_defer _ _) => apply (fails_defer _); [frame_with leaf|fail_with leaf]
  | |- fails _ (with_compensation _ _) => apply (fails_compensation _); [frame_with leaf|fail_with leaf]
  | |- fails _ (wrap _ _) => apply (fails_wrap _); fail_with leaf
  | |- fails _ (mret _) => apply fails_ret
  | |- fails _ shard_commit => apply untouched_commit
  | |- fails _ (match ?x with _ => _ end) => destruct x; fail_with leaf
  | |- _ => first [apply frames_fails; frame_with leaf]
  end.

(** From [H : m w = (r, w')], that the committed shard is unchanged. *)
Ltac kept H :=
  match type of H with
  | ?m ?w = (?r, ?w') =>
      let K := fresh "K" in
      assert (K : w_shard w' = w_shard w) by
        (refine ((_ : frames committed m) w r w' H); frame_with ltac:(frame_leaf))
  end.

(** A tenant transaction that only writes through its commit either failed and
    left the committed shard as it was, or committed the working copy of its
    body, with or without the reply. *)
Lemma tx_outcome bank (body : M unit) w r w' :
  frames committed body ->
  (beginTenant bank ;; with_defer shard_rollback (body ;; shard_commit)) w = (r, w') ->
  (r <> inr tt /\ w_shard w' = w_shard w) \/
  exists w1 w2, beginTenant bank w = (inr tt, w1) /\ body w1 = (inr tt, w2) /\ w_shard_tx w2 = Some (w_shard w').
Proof.
  intros Hbody H. apply bind_run in H as [(e & -> & H)|([] & w1 & H1 & H)]; [left; kept H; done|].
  pose proof H1 as H1'. kept H1'. unfold with_defer in H.
  match type of H with context [let (_, _) := ?b in _] => destruct b as [r' w9] eqn:E end. injection H as <- <-. cbn.
  apply bind_run in E as [(e & -> & E)|([] & w2 & H2 & E)].
  { left. apply Hbody in E. red in E. split; [done|congruence]. }
  pose proof (Hbody _ _ _ H2) as Hc. red in Hc. destruct r' as [e|[]].
  - apply commit_run in E as [E|(db & Hdb & E)]; [left; split; [done|congruence]|right]. exists w1, w2. by rewrite E.
  - apply commit_inr in E as (db & Hdb & E & _). right. exists w1, w2. by rewrite E.
Qed.

(** ** Idempotency: what a claim does *)

(** A statement of a quiet environment that succeeds. *)
Lemma exec_quiet {A} (f : sql shard_db A) w db a db' :
  w_events w = [] -> w_shard_tx w = Some db -> f (sql_env_of w) db = inr (a, db') ->
  shard_exec f w = (inr a, w <| w_shard_tx := Some db' |> <| w_drawn ::= S |>).
Proof. intros He Hdb Hf. unfold shard_exec, pop_event. rewrite Hdb, He. cbn. by rewrite Hf. Qed.

(** A statement fails, or succeeds on the database it sees. *)
Lemma exec_either {A} (f : sql shard_db A) w r w' :
  shard_exec f w = (r, w') ->
  (exists e, r = inl (ErrDb e)) \/ (exists a, r = inr a).
Proof.
  unfold shard_exec, tx_aborted, pop_event. repeat case_match; intros; simplify_eq; eauto.
Qed.

Definition claim_key (c : ShardIdempotencyClaim) :=
  (ShardIdempotencyClaim_Bank c, ShardIdempotencyClaim_Scope c, ShardIdempotencyClaim_Key c).

(** The record a claim finds decides it. *)
Lemma load_found claim w db r :
  w_shard_tx w = Some db -> idem db !! claim_key claim = Some r ->
  ShardIdempotencyClaim_Now claim < id_expires_at r ->
  forall x w', load_idempotency claim w = (x, w') ->
  w_shard_tx w' = Some db /\
   x = (if id_request_fingerprint r != ShardIdempotencyClaim_Fingerprint claim then inl ErrIdempotencyConflict
        else match id_response_status r with
             | None => inl (ErrMsg "idempotency response status is missing")
             | Some st => inr (MkShardIdempotencyReplay (id_id r) (default JNull (id_response_body r)) st true)
             end)
  \/ (exists e, x = inl (ErrDb e)) /\ w_events w <> [].
Proof.
  intros Hdb Hr Hnow x w' H. unfold load_idempotency in H.
  apply bind_run in H as [(e & _ & H)|(q & w1 & Hq & H)].
  { unfold try in H. by destruct (row _ w). }
  rewrite try_inr in Hq. unfold row in Hq. apply bind_run in Hq as [(e & -> & Hq)|(o & w2 & Hq & Ho)].
  - right. split.
    + destruct (exec_either _ _ _ _ Hq) as [[e' [= ->]]|[a [=]]].
      unfold errors_is in H. rewrite bool_decide_eq_false_2 in H by done. cbn in H. injection H as <- <-. eauto.
    + intros Hev. rewrite (exec_quiet _ _ db (idem db !! claim_key claim) db) in Hq by done. done.
  - apply (exec_tx _ _ db) in Hq as (env & db' & Hf & Htx & _); [|done]. injection Hf as <- <-.
    fold (claim_key claim) in Ho. rewrite Hr in Ho. injection Ho as <- <-.
    apply Z.ltb_lt in Hnow. rewrite Hnow in H. left.
    destruct (id_request_fingerprint r != _); [injection H as <- <-; done|].
    destruct (id_response_status r); injection H as <- <-; done.
Qed.

Lemma claim_found claim w db r :
  w_shard_tx w = Some db -> idem db !! claim_key claim = Some r ->
  ShardIdempotencyClaim_Now claim < id_expires_at r ->
  forall x w', ClaimIdempotency claim w = (x, w') ->
  w_shard_tx w' = Some db /\
   x = (if id_request_fingerprint r != ShardIdempotencyClaim_Fingerprint claim then inl ErrIdempotencyConflict
        else match id_response_status r with
             | None => inl (ErrMsg "idempotency response status is missing")
             | Some st => inr (MkShardIdempotencyReplay (id_id r) (default JNull (id_response_body r)) st true)
             end)
  \/ (exists e, x = inl (ErrDb e)) /\ w_events w <> [].
Proof.
  intros Hdb Hr Hnow x w' H. unfold ClaimIdempotency in H.
  apply bind_run in H as [(e & -> & H)|(q & w1 & Hq & H)].
  - eapply load_found in H as [[? H]|[H ?]]; eauto.
  - eapply load_found in Hq as [[Htx Hq]|[[e [=]] _]]; eauto. left.
    destruct (id_request_fingerprint r != _); [done|]. destruct (id_response_status r) as [st|]; [|done].
    injection Hq as ->. cbn in H. injection H as <- <-. done.
Qed.

(** What a claim that found nothing to replay leaves: a record in processing
    under the request's fingerprint, until the claim's expiry. *)
Definition claimed (claim : ShardIdempotencyClaim) (id : string) (db db' : shard_db) : Prop :=
  exists r, db' = db <| idem ::= <[claim_key claim := r]> |> /\ id_id r = id /\
    id_request_fingerprint r = ShardIdempotencyClaim_Fingerprint claim /\ id_status r = "processing" /\
    id_expires_at r = ShardIdempotencyClaim_ExpiresAt claim.

Lemma reclaim_claimed claim env db id db' :
  reclaim_idempotency claim env db = inr (Some id, db') -> claimed claim id db db'.
Proof.
  unfold reclaim_idempotency. cbv zeta. fold (claim_key claim). case_match; [|done]. intros [= <- <-].
  eexists. repeat split.
Qed.
Lemma insert_claimed claim env db id db' :
  insert_idempotency claim env db = inr (Some id, db') -> claimed claim id db db'.
Proof.
  unfold insert_idempotency. cbv zeta. fold (claim_key claim). case_match; [done|]. intros [= <- <-].
  eexists. repeat split.
Qed.
Lemma claimed_again claim id id' db db1 db2 :
  claimed claim id db db1 -> claimed claim id' db1 db2 -> claimed claim id' db db2.
Proof.
  intros (r & -> & _) (r' & -> & H). exists r'. split; [|done]. destruct db. unfold set_field. cbn. f_equal.
  apply insert_insert_eq.
Qed.

Lemma load_fresh claim w db x w' :
  w_shard_tx w = Some db -> load_idempotency claim w = (inr x, w') -> ShardIdempotencyReplay_Found x = false ->
  exists db', w_shard_tx w' = Some db' /\
    (db' = db /\ x = no_replay "" /\ idem db !! claim_key claim = None \/ claimed claim (ShardIdempotencyReplay_RecordID x) db db').
Proof.
  intros Hdb H Hf. unfold load_idempotency in H. apply bind_inr in H as (q & w1 & Hq & H). rewrite try_inr in Hq.
  destruct q as [err|r].
  - destruct (errors_is err ErrNoRows) eqn:Ee; [|by apply throw_inr in H]. apply ret_inr in H as [<- <-].
    exists db. unfold row in Hq. apply bind_run in Hq as [(e & [= ->] & Hq)|(o & w2 & Hq & Ho)].
    + exfalso. destruct (exec_either _ _ _ _ Hq) as [[e' [= ->]]|[a [=]]].
      unfold errors_is in Ee. by rewrite bool_decide_eq_false_2 in Ee.
    + apply (exec_tx _ _ db) in Hq as (env & db' & Hf' & Htx & _); [|done]. injection Hf' as <- <-.
      fold (claim_key claim) in Ho. destruct (idem db !! _) eqn:E; [done|]. unfold throw in Ho.
      split; [congruence|auto].
  - rewrite row_inr in Hq. apply (exec_tx _ _ db) in Hq as (env & db' & Hf' & Htx & _); [|done]. injection Hf' as Hf' <-.
    destruct (_ <? _).
    + destruct (_ != _); [by apply throw_inr in H|]. destruct (id_response_status r); [|by apply throw_inr in H].
      apply ret_inr in H as [<- <-]. done.
    + apply bind_inr in H as (id & w2 & Hid & H). apply ret_inr in H as [<- <-]. rewrite row_inr in Hid.
      apply (exec_tx _ _ db) in Hid as (env2 & db2 & Hf2 & Htx2 & _); [|done].
      exists db2. split; [done|]. right. cbn. by eapply reclaim_claimed.
Qed.

Lemma claim_fresh claim w db x w' :
  w_shard_tx w = Some db -> ClaimIdempotency claim w = (inr x, w') -> ShardIdempotencyReplay_Found x = false ->
  exists db', w_shard_tx w' = Some db' /\ claimed claim (ShardIdempotencyReplay_RecordID x) db db'.
Proof.
  intros Hdb H Hf. unfold ClaimIdempotency in H. apply bind_inr in H as (q & w1 & Hq & H).
  destruct (ShardIdempotencyReplay_Found q) eqn:Eq; cbn in H.
  { apply ret_inr in H as [<- <-]. congruence. }
  eapply load_fresh in Hq as (db1 & Htx1 & Hcase); [|eassumption|done].
  destruct (ShardIdempotencyReplay_RecordID q != "") eqn:Eid.
  { apply ret_inr in H as [<- <-]. exists db1. split; [done|]. destruct Hcase as [(-> & -> & _)|?]; done. }
  assert (Hone : forall db2 id, claimed claim id db1 db2 -> claimed claim id db db2).
  { intros db2 id H2. destruct Hcase as [(-> & _)|Hc]; [done|]. by eapply claimed_again. }
  apply bind_inr in H as (r & w2 & Hr & H). rewrite try_inr in Hr. destruct r as [err|id].
  - destruct (errors_is err ErrNoRows) eqn:Ee; [|by apply throw_inr in H].
    unfold row in Hr. apply bind_run in Hr as [(e & [= ->] & Hr)|(o & w3 & Hr & Ho)].
    { destruct (exec_either _ _ _ _ Hr) as [[e' [= ->]]|[a [=]]].
      unfold errors_is in Ee. by rewrite bool_decide_eq_false_2 in Ee. }
    apply (exec_tx _ _ db1) in Hr as (env & db' & Hf' & Htx & _); [|done].
    destruct o; [done|]. unfold throw in Ho. injection Ho as _ <-.
    unfold insert_idempotency in Hf'. cbv zeta in Hf'. fold (claim_key claim) in Hf'.
    destruct (idem db1 !! _) eqn:E; [|done]. injection Hf' as <-.
    destruct (load_fresh _ _ _ _ _ Htx H Hf) as (db3 & Htx3 & [(_ & _ & Hn)|Hc]); [congruence|].
    exists db3. split; [done|]. by apply Hone.
  - rewrite row_inr in Hr. apply (exec_tx _ _ db1) in Hr as (env & db' & Hf' & Htx & _); [|done].
    apply ret_inr in H as [<- <-]. exists db'. split; [done|]. cbn. apply Hone. by eapply insert_claimed.
Qed.

(** A finished record answers the next request. *)
Lemma finish_record bank scope key st j res act env db a db' r :
  finish_idempotency bank scope key st j res act env db = inr (a, db') -> idem db !! (bank, scope, key) = Some r ->
  exists r', db' = db <| idem ::= <[(bank, scope, key) := r']> |> /\ id_id r' = id_id r /\
    id_request_fingerprint r' = id_request_fingerprint r /\ id_expires_at r' = id_expires_at r /\
    id_status r' = "succeeded" /\ id_response_status r' = Some st /\ id_response_body r' = Some (jsonb j).
Proof. unfold finish_idempotency. intros H Hr. rewrite Hr in H. injection H as _ <-. eexists. repeat split. Qed.

Lemma beginTenant_quiet bank w :
  w_events w = [] ->
  exists w1, beginTenant bank w = (inr tt, w1) /\ w_shard_tx w1 = Some (w_shard w) /\ w_events w1 = [] /\
    w_clock w1 = w_clock w /\ w_shard w1 = w_shard w /\ w_vault w1 = w_vault w.
Proof.
  intros He. unfold beginTenant, wrap, try, mbind, M_bind, shard_begin, shard_exec, pop_event. rewrite He. cbn.
  rewrite He. cbn. eexists. split; [reflexivity|]. cbn. done.
Qed.

(** The first use of a key is never a repetition. *)
Lemma load_missing claim w db x w' :
  w_shard_tx w = Some db -> idem db !! claim_key claim = None -> load_idempotency claim w = (inr x, w') ->
  x = no_replay "" /\ w_shard_tx w' = Some db.
Proof.
  intros Hdb Hn H. unfold load_idempotency in H. apply bind_inr in H as (q & w1 & Hq & H). rewrite try_inr in Hq.
  unfold row in Hq. apply bind_run in Hq as [(e & -> & Hq)|(o & w2 & Hq & Ho)].
  - destruct (exec_either _ _ _ _ Hq) as [[e' [= ->]]|[a [=]]].
    unfold errors_is in H. rewrite bool_decide_eq_false_2 in H by done. by apply throw_inr in H.
  - apply (exec_tx _ _ db) in Hq as (env & db' & Hf' & Htx & _); [|done]. injection Hf' as <- <-.
    fold (claim_key claim) in Ho. rewrite Hn in Ho. injection Ho as <- <-. cbn in H.
    apply ret_inr in H as [<- <-]. done.
Qed.
Lemma claim_new claim w db x w' :
  w_shard_tx w = Some db -> idem db !! claim_key claim = None -> ClaimIdempotency claim w = (inr x, w') ->
  ShardIdempotencyReplay_Found x = false.
Proof.
  intros Hdb Hn H. unfold ClaimIdempotency in H. apply bind_inr in H as (q & w1 & Hq & H).
  destruct (load_missing _ _ _ _ _ Hdb Hn Hq) as [-> Htx]. cbn in H.
  apply bind_inr in H as (r & w2 & Hr & H). rewrite try_inr in Hr. destruct r as [err|id].
  - unfold row in Hr. apply bind_run in Hr as [(e & [= ->] & Hr)|(o & w3 & Hr & Ho)].
    + destruct (exec_either _ _ _ _ Hr) as [[e' [= ->]]|[a [=]]].
      unfold errors_is in H. rewrite bool_decide_eq_false_2 in H by done. by apply throw_inr in H.
    + apply (exec_tx _ _ db) in Hr as (env & db' & Hf' & _); [|done].
      unfold insert_idempotency in Hf'. cbv zeta in Hf'. fold (claim_key claim) in Hf'. rewrite Hn in Hf'.
      injection Hf' as <- _. done.
  - by apply ret_inr in H as [<- _].
Qed.

(** A replayed answer is the record's, and a record taken over keeps its identifier. *)
Lemma load_record claim w db x w' :
  w_shard_tx w = Some db -> load_idempotency claim w = (inr x, w') ->
  match idem db !! claim_key claim with
  | None => ShardIdempotencyReplay_Found x = false
  | Some r => if ShardIdempotencyReplay_Found x then id_response_status r = Some (ShardIdempotencyReplay_Status x)
      else id_id r = ShardIdempotencyReplay_RecordID x
  end.
Proof.
  intros Hdb H. unfold load_idempotency in H. apply bind_inr in H as (q & w1 & Hq & H). rewrite try_inr in Hq.
  destruct q as [err|r].
  - destruct (errors_is err ErrNoRows) eqn:Ee; [|by apply throw_inr in H]. apply ret_inr in H as [<- _]. cbn.
    unfold row in Hq. apply bind_run in Hq as [(e & [= ->] & Hq)|(o & w2 & Hq & Ho)].
    + destruct (exec_either _ _ _ _ Hq) as [[e' [= ->]]|[a [=]]]. unfold errors_is in Ee. by rewrite bool_decide_eq_false_2 in Ee.
    + apply (exec_tx _ _ db) in Hq as (env & db' & Hf' & _); [|done]. injection Hf' as <- _.
      fold (claim_key claim) in Ho. by destruct (idem db !! _).
  - rewrite row_inr in Hq. apply (exec_tx _ _ db) in Hq as (env & db' & Hf' & Htx & _); [|done]. injection Hf' as Hf' <-.
    fold (claim_key claim) in Hf'. rewrite Hf'. destruct (_ <? _).
    + destruct (_ != _); [by apply throw_inr in H|]. destruct (id_response_status r) eqn:Es; [|by apply throw_inr in H].
      by apply ret_inr in H as [<- _].
    + apply bind_inr in H as (id & w2 & Hid & H). apply ret_inr in H as [<- _]. rewrite row_inr in Hid.
      apply (exec_tx _ _ db) in Hid as (env2 & db2 & Hf2 & _); [|done]. unfold reclaim_idempotency in Hf2. cbv zeta in Hf2.
      fold (claim_key claim) in Hf2. rewrite Hf' in Hf2. by injection Hf2 as <- _.
Qed.
(** The identifiers of the records are not empty. *)
Definition idempotency_named (db : shard_db) : Prop := forall k r, idem db !! k = Some r -> id_id r <> "".
Lemma claim_replayed claim w db x w' : idempotency_named db ->
  w_shard_tx w = Some db -> ClaimIdempotency claim w = (inr x, w') -> ShardIdempotencyReplay_Found x = true ->
  exists r, idem db !! claim_key claim = Some r /\ id_response_status r = Some (ShardIdempotencyReplay_Status x).
Proof.
  intros Hnamed Hdb H Hf. destruct (idem db !! claim_key claim) as [r|] eqn:Hr.
  2: { pose proof (claim_new claim _ _ _ _ Hdb Hr H). congruence. }
  exists r. split; [done|]. unfold ClaimIdempotency in H. apply bind_inr in H as (q & w1 & Hq & H).
  pose proof (load_record _ _ _ _ _ Hdb Hq) as Hload. rewrite Hr in Hload.
  destruct (ShardIdempotencyReplay_Found q) eqn:Eq; cbn in H; [by apply ret_inr in H as [<- _]|].
  rewrite <- Hload in H. destruct (String.eqb_spec (id_id r) "") as [E|_]; [by apply Hnamed in Hr|]. apply ret_inr in H as [<- _]. congruence.
Qed.
