(* ===== verification/Guards.v ===== *)
(** * Guards: the state machines the shard's triggers enforce

    The BEFORE triggers of [database/migrations/shard/001_initial.sql] on
    batches, batch items, expiry runs and expiry items, as boolean functions of
    the old and the new row, and the UPDATE and INSERT statements that run
    them.  The second half turns each guard into a preorder on rows, and lifts
    it to the database: whatever a statement does, a batch and an expiry item
    only move along their machine. *)

From S2P Require Import Prelude Json Domain Stores Vault World ShardTx.
Open Scope string_scope.
Open Scope list_scope.
Open Scope Z_scope.

(** ** Batches *)

(** [btrim(s)=''], false on NULL. *)
Definition blank (o : option string) : bool :=
  match o with
  | Some s => forallb (Ascii.eqb (Ascii.ascii_of_N 32)) (String.list_ascii_of_string s)
  | None => false
  end.

(** [t<=clock], false on NULL. *)
Definition reached (clock : Z) (o : option Z) : bool :=
  match o with Some t => t <=? clock | None => false end.

Definition count_outcome (p : string -> bool) (outcomes : list string) : Z :=
  Z.of_nat (length (filter (fun o => p o = true) outcomes)).

Definition terminal_batch (status : string) : bool :=
  (status == "succeeded") || (status == "failed") || (status == "cancelled").

(** [guard_batch_request]. *)
Definition guard_batch_request (old new : batch_row) : bool :=
  (ba_target_status new == ba_target_status old) && (ba_reason new == ba_reason old)
  && (ba_requested_by new == ba_requested_by old) && (ba_requester_role new == ba_requester_role old)
  && bool_decide (ba_requester_entity_id new = ba_requester_entity_id old)
  && (ba_request_id new == ba_request_id old) && (ba_idempotency_record_id new == ba_idempotency_record_id old)
  && (ba_item_count new =? ba_item_count old)
  && bool_decide (ba_retry_of_batch_id new = ba_retry_of_batch_id old).

(** The CASE of [guard_batch_state]. *)
Definition batch_edge (old new : string) : bool :=
  if old == "draft" then (new == "queued") || (new == "cancelled")
  else if old == "queued" then (new == "processing") || (new == "cancelled")
  else if old == "processing" then (new == "queued") || (new == "succeeded") || (new == "failed")
  else false.

(** [guard_batch_state]: [outcomes] are those of the batch's items. *)
Definition guard_batch_state (clock : Z) (outcomes : list string) (old new : batch_row) : bool :=
  if ba_status new == ba_status old then
    negb ((ba_status new == "processing") &&
          (negb (bool_decide (ba_lease_owner new = ba_lease_owner old))
           || negb (ba_lease_version new =? ba_lease_version old)))
    && negb ((ba_status new == "processing") &&
             (blank (ba_lease_owner new) || reached clock (ba_lease_expires_at new)))
    && negb (terminal_batch (ba_status new) &&
             negb ((ba_applied_count new =? ba_applied_count old) && (ba_ignored_count new =? ba_ignored_count old)
                   && bool_decide (ba_completed_at new = ba_completed_at old)
                   && bool_decide (ba_failure_code new = ba_failure_code old)
                   && bool_decide (ba_failure_summary new = ba_failure_summary old)))
  else
    batch_edge (ba_status old) (ba_status new)
    && (if ba_status new == "processing" then
          (ba_lease_version new =? ba_lease_version old + 1) && negb (blank (ba_lease_owner new))
          && negb (reached clock (ba_lease_expires_at new))
        else bool_decide (ba_lease_owner new = None) && bool_decide (ba_lease_expires_at new = None))
    && (if (ba_status old == "draft") && (ba_status new == "queued") then
          (Z.of_nat (length outcomes) =? ba_item_count new) && (ba_applied_count new =? 0) && (ba_ignored_count new =? 0)
        else true)
    && (if ba_status new == "succeeded" then
          let applied := count_outcome (fun o => o == "applied") outcomes in
          let ignored := count_outcome (fun o => o == "ignored") outcomes in
          let unresolved := count_outcome (fun o => negb ((o == "applied") || (o == "ignored"))) outcomes in
          (applied =? ba_applied_count new) && (ignored =? ba_ignored_count new) && (unresolved =? 0)
          && (applied + ignored =? ba_item_count new) && negb (bool_decide (ba_completed_at new = None))
        else if ba_status new == "failed" then
          let ignored := count_outcome (fun o => o == "ignored") outcomes in
          let unresolved := count_outcome (fun o => negb ((o == "ignored") || (o == "not_applied"))) outcomes in
          (ba_applied_count new =? 0) && (ba_ignored_count new =? ignored) && (unresolved =? 0)
          && negb (bool_decide (ba_completed_at new = None))
        else if ba_status new == "cancelled" then
          (ba_applied_count new =? 0) && (ba_ignored_count new =? 0) && negb (bool_decide (ba_completed_at new = None))
        else true).

(** The items of a batch, by id. *)
Definition items_of_batch (bank batch : string) (db : shard_db) : list (string * item_row) :=
  filter (fun p => it_batch_id p.2 = batch) (bank_rows bank (batch_items db)).
Definition batch_outcomes (bank batch : string) (db : shard_db) : list string :=
  List.map (fun p => it_outcome p.2) (items_of_batch bank batch db).

(** UPDATE of one batch by id with a condition: the rows affected. *)
Definition update_batch (bank id : string) (where_ : sql_env -> batch_row -> bool)
    (set : sql_env -> batch_row -> batch_row) : sql shard_db Z := fun env db =>
  match batches db !! (bank, id) with
  | None => inr (0, db)
  | Some old =>
      if where_ env old then
        let new := (set env old) <| ba_updated_at := clock_timestamp env |> in
        if guard_batch_request old new && guard_batch_state (clock_timestamp env) (batch_outcomes bank id db) old new
        then inr (1, db <| batches ::= <[(bank, id) := new]> |>)
        else inl raise_exception
      else inr (0, db)
  end.

(** ** Batch items *)

(** [guard_batch_item] and [guard_batch_item_result]. *)
Definition guard_batch_item (batch_status : option string) (old new : item_row) : bool :=
  (it_batch_id new == it_batch_id old) && (it_card_id new == it_card_id old)
  && (it_operation_id new == it_operation_id old)
  && (if bool_decide (it_outcome new = it_outcome old) && bool_decide (it_previous_status new = it_previous_status old)
         && bool_decide (it_failure_code new = it_failure_code old)
      then true
      else bool_decide (batch_status = Some "processing") && (it_outcome old == "pending")
           && ((it_outcome new == "applied") || (it_outcome new == "not_applied") || (it_outcome new == "ignored"))).

Definition update_item_row (bank id : string) (where_ : item_row -> bool) (set : item_row -> item_row)
    (db : shard_db) : db_error + (Z * shard_db) :=
  match batch_items db !! (bank, id) with
  | None => inr (0, db)
  | Some old =>
      if where_ old then
        let new := set old in
        if guard_batch_item (ba_status <$> batches db !! (bank, it_batch_id new)) old new
        then inr (1, db <| batch_items ::= <[(bank, id) := new]> |>)
        else inl raise_exception
      else inr (0, db)
  end.

Definition update_item (bank id : string) (where_ : item_row -> bool) (set : item_row -> item_row) : sql shard_db Z :=
  fun _ db => update_item_row bank id where_ set db.

(** ** Cards and operations *)

(** [guard_masked_pan] (006_authorization_vault.sql): immutable once set, and
    six digits, six stars, four digits. *)
Definition guard_masked_pan (old new : card_row) : bool :=
  negb (negb (bool_decide (cd_masked_pan old = None)) && negb (bool_decide (cd_masked_pan new = cd_masked_pan old)))
  && match cd_masked_pan new with None => true | Some p => masked_format p end.

Definition update_card (bank id : string) (where_ : card_row -> bool) (set : sql_env -> card_row -> card_row)
    : sql shard_db Z := fun env db =>
  match cards db !! (bank, id) with
  | None => inr (0, db)
  | Some old =>
      if where_ old then
        let new := (set env old) <| cd_updated_at := clock_timestamp env |> in
        if guard_masked_pan old new then inr (1, db <| cards ::= <[(bank, id) := new]> |>) else inl raise_exception
      else inr (0, db)
  end.

Definition update_operation (bank id : string) (where_ : operation_row -> bool)
    (set : sql_env -> operation_row -> operation_row) : sql shard_db Z := fun env db =>
  match operations db !! (bank, id) with
  | None => inr (0, db)
  | Some old =>
      if where_ old then
        let new := (set env old) <| op_updated_at := clock_timestamp env |> in
        inr (1, db <| operations ::= <[(bank, id) := new]> |>)
      else inr (0, db)
  end.

(** One statement that updates several rows by id: the rows affected. *)
Fixpoint each_row {D} (f : string -> sql D Z) (ids : list string) : sql D Z := fun env db =>
  match ids with
  | [] => inr (0, db)
  | id :: rest =>
      match f id env db with
      | inl err => inl err
      | inr (n, db1) =>
          match each_row f rest env db1 with
          | inl err => inl err
          | inr (m, db2) => inr (n + m, db2)
          end
      end
  end.

(** ** Expiry runs and items *)

Definition terminal_expiry (status : string) : bool :=
  (status == "expired") || (status == "skipped_already_expired") || (status == "manual_retry_required").

(** [guard_expiry_run]; [statuses] are those of the run's items. *)
Definition guard_expiry_run (statuses : list string) (old new : run_row) : bool :=
  (ru_run_date new =? ru_run_date old) && (ru_executor_identity new == ru_executor_identity old)
  && negb ((ru_status new == "completed") && (ru_status new == ru_status old) &&
           negb ((ru_item_count new =? ru_item_count old) && (ru_expired_count new =? ru_expired_count old)
                 && (ru_skipped_already_expired_count new =? ru_skipped_already_expired_count old)
                 && (ru_manual_retry_required_count new =? ru_manual_retry_required_count old)
                 && bool_decide (ru_completed_at new = ru_completed_at old)))
  && ((ru_status new == ru_status old)
      || ((ru_status old == "processing") && (ru_status new == "completed"))
      || ((ru_status old == "completed") && (ru_status new == "processing")))
  && (if ru_status new == "completed" then
        let expired := count_outcome (fun s => s == "expired") statuses in
        let skipped := count_outcome (fun s => s == "skipped_already_expired") statuses in
        let manual := count_outcome (fun s => s == "manual_retry_required") statuses in
        let unresolved := count_outcome (fun s => negb (terminal_expiry s)) statuses in
        (ru_expired_count new =? expired) && (ru_skipped_already_expired_count new =? skipped)
        && (ru_manual_retry_required_count new =? manual) && (unresolved =? 0)
        && (expired + skipped + manual =? ru_item_count new) && negb (bool_decide (ru_completed_at new = None))
      else true).

(** [guard_expiry_run_item]. *)
Definition guard_expiry_item (clock : Z) (run_status card_status : option string) (old new : expiry_row) : bool :=
  (ex_expiry_run_id new == ex_expiry_run_id old) && (ex_card_id new == ex_card_id old)
  && (ex_operation_id new == ex_operation_id old)
  && (if ex_status new == ex_status old then
        negb ((ex_status new == "processing") &&
              (negb (bool_decide (ex_lease_owner new = ex_lease_owner old))
               || negb (ex_lease_version new =? ex_lease_version old)))
        && negb ((ex_status new == "processing") &&
                 (blank (ex_lease_owner new) || reached clock (ex_lease_expires_at new)))
        && negb (terminal_expiry (ex_status new) &&
                 negb ((ex_attempt_count new =? ex_attempt_count old)
                       && (ex_automatic_retry_count new =? ex_automatic_retry_count old)
                       && (ex_manual_retry_count new =? ex_manual_retry_count old)
                       && bool_decide (ex_failure_code new = ex_failure_code old)
                       && bool_decide (ex_manual_retry_by new = ex_manual_retry_by old)
                       && bool_decide (ex_manual_retry_at new = ex_manual_retry_at old)))
      else
        bool_decide (run_status = Some "processing")
        && (if ex_status new == "processing" then
              negb (bool_decide (card_status = Some "expired"))
              && (ex_status old == "pending") && (ex_lease_version new =? ex_lease_version old + 1)
            else if ex_status new == "pending" then
              if ex_status old == "processing" then
                (ex_automatic_retry_count new =? ex_automatic_retry_count old + 1)
                && (ex_automatic_retry_count new <=? 3) && (ex_attempt_count new =? ex_attempt_count old + 1)
              else if ex_status old == "manual_retry_required" then
                negb (bool_decide (card_status = Some "expired"))
                && (ex_automatic_retry_count new =? ex_automatic_retry_count old)
                && (ex_manual_retry_count new =? ex_manual_retry_count old + 1)
                && negb (bool_decide (ex_manual_retry_by new = None))
                && negb (bool_decide (ex_manual_retry_at new = None))
              else false
            else if ex_status new == "manual_retry_required" then
              (ex_status old == "processing") && (ex_automatic_retry_count new =? 3)
              && (ex_attempt_count new =? ex_attempt_count old + 1)
            else if (ex_status new == "expired") || (ex_status new == "skipped_already_expired") then
              ((ex_status old == "pending") || (ex_status old == "processing"))
              && (if ex_status old == "processing" then ex_attempt_count new =? ex_attempt_count old + 1 else true)
            else false)
        && (if ex_status new != "processing"
            then bool_decide (ex_lease_owner new = None) && bool_decide (ex_lease_expires_at new = None)
            else true)).

(** The CHECK on [automatic_retry_count]. *)
Definition check_automatic_retry (e : expiry_row) : bool :=
  (0 <=? ex_automatic_retry_count e) && (ex_automatic_retry_count e <=? 3).

Definition items_of_run (bank run : string) (db : shard_db) : list (string * expiry_row) :=
  filter (fun p => ex_expiry_run_id p.2 = run) (bank_rows bank (expiry_items db)).
Definition run_item_statuses (bank run : string) (db : shard_db) : list string :=
  List.map (fun p => ex_status p.2) (items_of_run bank run db).

Definition update_run (bank id : string) (where_ : shard_db -> run_row -> bool)
    (set : sql_env -> shard_db -> run_row -> run_row) : sql shard_db Z := fun env db =>
  match expiry_runs db !! (bank, id) with
  | None => inr (0, db)
  | Some old =>
      if where_ db old then
        let new := (set env db old) <| ru_updated_at := clock_timestamp env |> in
        if guard_expiry_run (run_item_statuses bank id db) old new
        then inr (1, db <| expiry_runs ::= <[(bank, id) := new]> |>)
        else inl raise_exception
      else inr (0, db)
  end.

Definition check_violation : db_error := PgError "23514".

Definition update_expiry_row (bank id : string) (where_ : sql_env -> shard_db -> expiry_row -> bool)
    (set : sql_env -> expiry_row -> expiry_row) (env : sql_env) (db : shard_db) : db_error + (Z * shard_db) :=
  match expiry_items db !! (bank, id) with
  | None => inr (0, db)
  | Some old =>
      if where_ env db old then
        let new := (set env old) <| ex_updated_at := clock_timestamp env |> in
        if guard_expiry_item (clock_timestamp env) (ru_status <$> expiry_runs db !! (bank, ex_expiry_run_id new))
             (cd_status <$> cards db !! (bank, ex_card_id new)) old new
        then if check_automatic_retry new
             then inr (1, db <| expiry_items ::= <[(bank, id) := new]> |>)
             else inl check_violation
        else inl raise_exception
      else inr (0, db)
  end.

(** ** Inserts *)

(** INSERT INTO card_status_batches: the primary key and the unique
    idempotency record; [guard_batch_insert] accepts only a fresh draft, which
    is what the inserts make, and [guard_batch_retry_provenance] checks the
    source of a retry. *)
Definition guard_batch_insert (b : batch_row) : bool :=
  (ba_status b == "draft") && (ba_applied_count b =? 0) && (ba_ignored_count b =? 0) && (ba_attempt_count b =? 0)
  && bool_decide (ba_lease_owner b = None) && bool_decide (ba_lease_expires_at b = None) && (ba_lease_version b =? 0)
  && bool_decide (ba_started_at b = None) && bool_decide (ba_completed_at b = None)
  && bool_decide (ba_failure_code b = None) && bool_decide (ba_failure_summary b = None).

Definition guard_batch_retry_provenance (bank id : string) (b : batch_row) (db : shard_db) : bool :=
  match ba_retry_of_batch_id b with
  | None => true
  | Some source =>
      (source != id) &&
      match batches db !! (bank, source) with
      | None => false
      | Some s =>
          ((ba_status s == "failed") || (ba_status s == "cancelled")) && (ba_status b == "draft")
          && (ba_target_status b == ba_target_status s) && (ba_reason b == ba_reason s)
      end
  end.

Definition insert_batch (bank id : string) (mk : sql_env -> batch_row) : sql shard_db CardStatusBatch := fun env db =>
  let b := mk env in
  if guard_batch_insert b && guard_batch_retry_provenance bank id b db then
    if existsb (fun p => ba_idempotency_record_id p.2 == ba_idempotency_record_id b) (bank_rows bank (batches db))
    then inl unique_violation
    else match insert_pk (bank, id) b (batches db) with
         | inl err => inl err
         | inr t => inr (scanCardStatusBatch id b, db <| batches := t |>)
         end
  else inl raise_exception.

(** INSERT INTO card_status_batch_items with [guard_batch_item_insert] and the
    unique (batch, card) and operation. *)
Definition insert_item (bank batch card operation : string) : sql shard_db (option string) := fun env db =>
  let id := gen_random_uuid env 0 in
  if bool_decide (ba_status <$> batches db !! (bank, batch) = Some "draft") then
    if existsb (fun p => (it_batch_id p.2 == batch) && (it_card_id p.2 == card) || (it_operation_id p.2 == operation))
         (bank_rows bank (batch_items db))
    then inl unique_violation
    else match insert_pk (bank, id) (ItemRow batch card operation None "pending" None) (batch_items db) with
         | inl err => inl err
         | inr t => inr (Some id, db <| batch_items := t |>)
         end
  else inl raise_exception.

(** INSERT INTO card_expiry_run_items ... ON CONFLICT (run, card) DO NOTHING,
    with [guard_expiry_run_item_insert] and the unique operation. *)
Definition insert_expiry_item (bank run card operation : string) : sql shard_db unit := fun env db =>
  let id := gen_random_uuid env 0 in
  if bool_decide (ru_status <$> expiry_runs db !! (bank, run) = Some "processing")
     && match operations db !! (bank, operation) with
        | Some o => (op_card_id o == card) && (op_action o == "expire") && (op_actor_role o == "system")
        | None => false
        end
  then
    if existsb (fun p => (ex_expiry_run_id p.2 == run) && (ex_card_id p.2 == card)) (bank_rows bank (expiry_items db))
    then inr (tt, db)
    else if existsb (fun p => ex_operation_id p.2 == operation) (bank_rows bank (expiry_items db))
    then inl unique_violation
    else match insert_pk (bank, id)
                 (ExpiryRow run card operation "pending" 0 0 0 (now env) None None 0 None None None (now env) (now env))
                 (expiry_items db) with
         | inl err => inl err
         | inr t => inr (tt, db <| expiry_items := t |>)
         end
  else inl raise_exception.

(** ** Lemmas *)

(** What a batch may become. The accepted request never changes; a terminal
    status and its results stay; the lease version never decreases, and a batch
    processing under a version it already had was processing under it, for the
    same owner. *)
Definition batch_request (b : batch_row) :=
  (ba_target_status b, ba_reason b, ba_requested_by b, ba_requester_role b, ba_requester_entity_id b,
   ba_request_id b, ba_idempotency_record_id b, ba_item_count b, ba_retry_of_batch_id b).
Definition batch_results (b : batch_row) :=
  (ba_applied_count b, ba_ignored_count b, ba_completed_at b, ba_failure_code b, ba_failure_summary b).

Definition batch_le (old new : batch_row) : Prop :=
  batch_request new = batch_request old /\
  (terminal_batch (ba_status old) = true -> ba_status new = ba_status old /\ batch_results new = batch_results old) /\
  ba_lease_version old <= ba_lease_version new /\
  (ba_lease_version new = ba_lease_version old -> ba_status new = "processing" ->
   ba_status old = "processing" /\ ba_lease_owner new = ba_lease_owner old).

#[export] Instance batch_le_preorder : PreOrder batch_le.
Proof.
  split; [by intros b; repeat split; try lia|].
  intros a b c (Hr & Ht & Hv & Hl) (Hr' & Ht' & Hv' & Hl'). repeat split.
  - by rewrite Hr', Hr.
  - destruct (Ht H) as [Hs _]. rewrite <- Hs in H. destruct (Ht' H) as [-> _]. done.
  - destruct (Ht H) as [Hs <-]. rewrite <- Hs in H. by destruct (Ht' H) as [_ ->].
  - lia.
  - apply Hl; [lia|]. by apply Hl'; [lia|].
  - destruct (Hl' ltac:(lia) H0) as [Hp ->]. by apply Hl; [lia|].
Qed.

(** A relation on rows, lifted to a table that only grows. *)
Definition table_le {K A} `{Countable K} (R : relation A) (t t' : gmap K A) : Prop :=
  forall k a, t !! k = Some a -> exists a', t' !! k = Some a' /\ R a a'.
#[export] Instance table_le_preorder {K A} `{Countable K} (R : relation A) `{!PreOrder R} :
  PreOrder (table_le (K := K) R).
Proof.
  split; [intros t k a Hk; exists a; split; [done|reflexivity]|].
  intros t1 t2 t3 H1 H2 k a Hk. destruct (H1 k a Hk) as (b & Hb & ?).
  destruct (H2 k b Hb) as (c & Hc & ?). exists c. split; [done|by etrans].
Qed.
Lemma table_le_insert {K A} `{Countable K} (R : relation A) `{!PreOrder R} (t : gmap K A) k a :
  (forall b, t !! k = Some b -> R b a) -> table_le R t (<[k := a]> t).
Proof.
  intros Hab k' b Hb. destruct (decide (k' = k)) as [->|Hne].
  - exists a. rewrite lookup_insert_eq. eauto.
  - exists b. rewrite lookup_insert_ne by done. split; [done|reflexivity].
Qed.
Lemma insert_pk_inr {K V} `{Countable K} (k : K) (v : V) t t' :
  insert_pk k v t = inr t' -> t !! k = None /\ t' = <[k := v]> t.
Proof. unfold insert_pk. case_match; [done|]. by intros [= <-]. Qed.

(** Boolean hypotheses into propositions. *)
Ltac bools :=
  repeat match goal with
  | H : context [(_ == _) = true] |- _ => rewrite String.eqb_eq in H
  | H : context [(_ == _) = false] |- _ => rewrite String.eqb_neq in H
  end;
  rewrite ?andb_true_iff, ?orb_true_iff, ?negb_true_iff, ?Z.eqb_eq, ?Z.leb_le, ?bool_decide_eq_true,
    ?bool_decide_eq_false, ?String.eqb_eq, ?String.eqb_neq in *.

Lemma guard_batch_request_spec old new :
  guard_batch_request old new = true -> batch_request new = batch_request old.
Proof. unfold guard_batch_request, batch_request. intros H. bools. intuition congruence. Qed.

Lemma batch_edge_terminal old new : batch_edge old new = true -> terminal_batch old = false.
Proof.
  unfold batch_edge, terminal_batch. repeat case_match; bools; subst; try done; reflexivity.
Qed.

(** The guard and a lease version that does not decrease give the machine. *)
Lemma guard_batch_le clock outcomes old new :
  guard_batch_request old new && guard_batch_state clock outcomes old new = true ->
  ba_lease_version old <= ba_lease_version new -> batch_le old new.
Proof.
  intros [Hr Hs]%andb_true_iff Hv. apply guard_batch_request_spec in Hr. unfold guard_batch_state in Hs.
  destruct (ba_status new == ba_status old) eqn:E.
  - apply String.eqb_eq in E. rewrite !andb_true_iff, !negb_true_iff in Hs. destruct Hs as [[H1 _] H3].
    repeat split; try done.
    + rewrite E, H in H3. cbn in H3. rewrite negb_false_iff, !andb_true_iff, !Z.eqb_eq, !bool_decide_eq_true in H3.
      unfold batch_results. intuition congruence.
    + congruence.
    + apply String.eqb_eq in H0. rewrite H0 in H1. cbn in H1.
      apply orb_false_iff in H1 as [H1 _]. by rewrite negb_false_iff, bool_decide_eq_true in H1.
  - rewrite !andb_true_iff in Hs. destruct Hs as [[[He Hl] _] _].
    apply batch_edge_terminal in He.
    repeat split; try done; try congruence.
    all: apply String.eqb_eq in H0; rewrite H0 in Hl; rewrite !andb_true_iff, Z.eqb_eq in Hl; lia.
Qed.

(** What an expiry item may become: its membership never changes, a finished
    item stays as it is, the counters and the lease version never decrease, and
    a lease once lost is not regained under the same version. *)
Definition expiry_membership (e : expiry_row) := (ex_expiry_run_id e, ex_card_id e, ex_operation_id e).
Definition finished_expiry (status : string) : bool := (status == "expired") || (status == "skipped_already_expired").

Definition expiry_le (old new : expiry_row) : Prop :=
  expiry_membership new = expiry_membership old /\
  (finished_expiry (ex_status old) = true -> ex_status new = ex_status old) /\
  ex_lease_version old <= ex_lease_version new /\
  ex_automatic_retry_count old <= ex_automatic_retry_count new /\
  ex_attempt_count old <= ex_attempt_count new /\
  (ex_lease_version new = ex_lease_version old -> ex_status new = "processing" ->
   ex_status old = "processing" /\ ex_lease_owner new = ex_lease_owner old).

#[export] Instance expiry_le_preorder : PreOrder expiry_le.
Proof.
  split; [by intros b; repeat split; try lia|].
  intros a b c (Hr & Ht & Hv & Ha & Hc & Hl) (Hr' & Ht' & Hv' & Ha' & Hc' & Hl'). repeat split; try lia.
  - by rewrite Hr', Hr.
  - intros H. pose proof (Ht H) as Hs. rewrite <- Hs in H. rewrite (Ht' H). done.
  - apply Hl; [lia|]. by apply Hl'; [lia|].
  - destruct (Hl' ltac:(lia) H0) as [Hp ->]. by apply Hl; [lia|].
Qed.

Lemma guard_expiry_le clock run card old new :
  guard_expiry_item clock run card old new = true ->
  ex_lease_version old <= ex_lease_version new ->
  ex_automatic_retry_count old <= ex_automatic_retry_count new ->
  ex_attempt_count old <= ex_attempt_count new -> expiry_le old new.
Proof.
  intros Hg Hv Ha Hc. unfold guard_expiry_item in Hg. rewrite !andb_true_iff, !String.eqb_eq in Hg.
  destruct Hg as [[[Hm1 Hm2] Hm3] Hs].
  split; [unfold expiry_membership; congruence|].
  destruct (ex_status new == ex_status old) eqn:E.
  - apply String.eqb_eq in E. rewrite !andb_true_iff, !negb_true_iff in Hs. destruct Hs as [[H1 _] _].
    repeat split; try done; [congruence|].
    apply String.eqb_eq in H0. rewrite H0 in H1. cbn in H1.
    apply orb_false_iff in H1 as [H1 _]. by rewrite negb_false_iff, bool_decide_eq_true in H1.
  - rewrite !andb_true_iff in Hs. destruct Hs as [[_ He] _].
    repeat split; try done; unfold finished_expiry in *.
    + rewrite orb_true_iff, !String.eqb_eq. intros Hf; exfalso.
      repeat (case_match; bools; simplify_eq/=; try done); intuition congruence.
    + apply String.eqb_eq in H0. rewrite H0 in He. cbn in He. rewrite !andb_true_iff, Z.eqb_eq in He. lia.
    + apply String.eqb_eq in H0. rewrite H0 in He. cbn in He. rewrite !andb_true_iff, Z.eqb_eq in He. lia.
Qed.

(** The outcome of a batch item is written once. *)
Definition item_le (old new : item_row) : Prop :=
  it_batch_id new = it_batch_id old /\ it_card_id new = it_card_id old /\ it_operation_id new = it_operation_id old /\
  (it_outcome old <> "pending" -> it_outcome new = it_outcome old /\ it_previous_status new = it_previous_status old).
#[export] Instance item_le_preorder : PreOrder item_le.
Proof.
  split; [by intros b|]. intros a b c (H1 & H2 & H3 & H4) (H1' & H2' & H3' & H4').
  repeat split; try congruence; destruct (H4 H) as [Ho Hp]; rewrite <- Ho in H; destruct (H4' H); congruence.
Qed.
Lemma guard_item_le s old new : guard_batch_item s old new = true -> item_le old new.
Proof.
  unfold guard_batch_item. intros H. rewrite !andb_true_iff, !String.eqb_eq in H. destruct H as [[[??]?] H].
  repeat split; try done; case_match; bools; intuition congruence.
Qed.

Lemma each_row_mono {D} P `{!PreOrder P} (f : string -> sql D Z) ids :
  (forall id, mono P (f id)) -> mono P (each_row f ids).
Proof.
  intros Hf. induction ids as [|id rest IH]; intros env db a db'; cbn [each_row].
  - intros [= _ <-]. reflexivity.
  - destruct (f id env db) as [|[n db1]] eqn:E; [done|].
    destruct (each_row f rest env db1) as [|[m db2]] eqn:E2; [done|]. intros [= _ <-].
    etrans; [by eapply Hf|by eapply IH].
Qed.

(** What an UPDATE of one batch did when it affected a row. *)
Lemma update_batch_one bank id wh set env db db' :
  update_batch bank id wh set env db = inr (1, db') ->
  exists old, let new := (set env old) <| ba_updated_at := clock_timestamp env |> in
    batches db !! (bank, id) = Some old /\ wh env old = true /\
    guard_batch_request old new = true /\
    guard_batch_state (clock_timestamp env) (batch_outcomes bank id db) old new = true /\
    db' = db <| batches ::= <[(bank, id) := new]> |>.
Proof.
  unfold update_batch. case_match eqn:E; [|done]. case_match eqn:Ew; [|done].
  match goal with |- context [if ?g then _ else _] => destruct g eqn:Eg end; [|done].
  intros [= <-]. apply andb_true_iff in Eg as [Eg1 Eg2]. eauto 10.
Qed.

(** The counts of a batch the guard lets succeed. *)
Lemma guard_succeeded clock outcomes old new :
  guard_batch_state clock outcomes old new = true -> ba_status old = "processing" -> ba_status new = "succeeded" ->
  ba_applied_count new = count_outcome (fun o => o == "applied") outcomes /\
  ba_ignored_count new = count_outcome (fun o => o == "ignored") outcomes /\
  ba_applied_count new + ba_ignored_count new = ba_item_count new /\
  Forall (fun o => o = "applied" \/ o = "ignored") outcomes.
Proof.
  intros H Ho Hn. unfold guard_batch_state in H. rewrite Ho, Hn in H. cbn in H.
  rewrite !andb_true_iff, !Z.eqb_eq in H. destruct H as [[_ _] [[[[Ha Hi] Hu] Hc] _]].
  split; [done|]. split; [done|]. split; [lia|].
  apply Forall_forall. intros o Hin. destruct (o == "applied") eqn:E1; [left; by apply String.eqb_eq|].
  destruct (o == "ignored") eqn:E2; [right; by apply String.eqb_eq|]. exfalso.
  unfold count_outcome in Hu.
  assert (Hf : o ∈ filter (fun o => negb ((o == "applied") || (o == "ignored")) = true) outcomes).
  { apply list_elem_of_filter. by rewrite E1, E2. }
  destruct (filter _ outcomes); [by apply elem_of_nil in Hf|]. cbn in Hu. lia.
Qed.

Lemma items_of_batch_spec bank batch db id i :
  (id, i) ∈ items_of_batch bank batch db <-> batch_items db !! (bank, id) = Some i /\ it_batch_id i = batch.
Proof. unfold items_of_batch. rewrite list_elem_of_filter, bank_rows_spec. cbn. tauto. Qed.
