(* ===== verification/ShardOrder.v ===== *)
(** * ShardOrder: what a statement of one bank may do to the shard

    [shard_le bank]: batches, items, expiry items, cards, operations and
    authorization decisions move only along their orders, the histories only
    grow, and nothing of another bank changes.  Every statement of the
    repositories is shown to respect it once; a transaction then respects it by
    composition, whatever faults interrupt it. *)

From S2P Require Import Prelude Json Domain Stores Vault World ShardTx Guards.
Open Scope string_scope.
Open Scope list_scope.
Open Scope Z_scope.

(** A card keeps its references; a stored masked PAN and the predecessor stay;
    every change increments the version. *)
Definition card_identity (c : card_row) :=
  (cd_client_id c, cd_account_reference_id c, cd_product_id c, cd_predecessor_card_id c, cd_issued_at c,
   cd_created_at c, cd_created_by c).
Definition card_le (old new : card_row) : Prop :=
  card_identity new = card_identity old /\
  (is_Some (cd_masked_pan old) -> cd_masked_pan new = cd_masked_pan old) /\
  (new = old \/ cd_version old < cd_version new).
#[export] Instance card_le_preorder : PreOrder card_le.
Proof.
  split; [by intros c; repeat split; auto|]. intros a b c (H1 & H2 & H3) (H1' & H2' & H3').
  repeat split; [congruence| |].
  - intros H. rewrite H2'; [auto|]. by rewrite H2.
  - destruct H3 as [->|], H3' as [->|]; auto. right. lia.
Qed.

(** An accepted operation keeps what was asked and who asked it. *)
Definition operation_request (o : operation_row) :=
  (op_card_id o, op_action o, op_reason o, op_actor_user_id o, op_actor_role o, op_actor_entity_id o,
   op_request_id o, op_created_at o, op_created_by o).
Definition operation_le (old new : operation_row) : Prop := operation_request new = operation_request old.
#[export] Instance operation_le_preorder : PreOrder operation_le.
Proof. split; [by intros o|]. intros a b c ??. unfold operation_le in *. congruence. Qed.

Definition idem_le (old new : idem_row) : Prop := id_id new = id_id old.
#[export] Instance idem_le_preorder : PreOrder idem_le.
Proof. split; [by intros o|]. intros a b c ??. unfold idem_le in *. congruence. Qed.

Definition run_le (old new : run_row) : Prop :=
  ru_run_date new = ru_run_date old /\ ru_executor_identity new = ru_executor_identity old.
#[export] Instance run_le_preorder : PreOrder run_le.
Proof. split; [by intros o|]. intros a b c [??] [??]. split; congruence. Qed.

(** The external keys are immutable ([guard_public_reference_keys]). *)
Definition entity_le (old new : entity_row) : Prop := en_bank_reference new = en_bank_reference old.
Definition client_le (old new : client_row) : Prop := cl_external_client_ref new = cl_external_client_ref old.
Definition account_le (old new : account_row) : Prop := ac_external_account_ref new = ac_external_account_ref old.
Definition product_le (old new : product_row) : Prop :=
  pr_product_code new = pr_product_code old /\ pr_configuration_version old <= pr_configuration_version new.
#[export] Instance entity_le_preorder : PreOrder entity_le.
Proof. split; [by intros o|]. intros a b c ??. unfold entity_le in *. congruence. Qed.
#[export] Instance client_le_preorder : PreOrder client_le.
Proof. split; [by intros o|]. intros a b c ??. unfold client_le in *. congruence. Qed.
#[export] Instance account_le_preorder : PreOrder account_le.
Proof. split; [by intros o|]. intros a b c ??. unfold account_le in *. congruence. Qed.
#[export] Instance product_le_preorder : PreOrder product_le.
Proof. split; [intros o; split; [done|lia]|]. intros a b c [??] [??]. split; [congruence|lia]. Qed.

(** The rows of a table that belong to other banks. *)
Definition others {A} (bank : string) (t t' : gmap key A) : Prop :=
  forall b id, b <> bank -> t' !! (b, id) = t !! (b, id).
#[export] Instance others_preorder {A} bank : PreOrder (others (A := A) bank).
Proof. split; [by intros t b id|]. intros a b c H1 H2 x id Hx. by rewrite H2, H1. Qed.
Lemma others_insert {A} (bank : string) (t : gmap key A) (id : string) (a : A) : others bank t (<[(bank, id) := a]> t).
Proof. intros b id' Hb. apply lookup_insert_ne. congruence. Qed.

Record shard_le (bank : string) (db db' : shard_db) : Prop := ShardLe {
  sl_entities : table_le entity_le (entities db) (entities db');
  sl_clients : table_le client_le (clients db) (clients db');
  sl_accounts : table_le account_le (accounts db) (accounts db');
  sl_products : table_le product_le (products db) (products db');
  sl_cards : table_le card_le (cards db) (cards db');
  sl_operations : table_le operation_le (operations db) (operations db');
  sl_history : exists l, history db' = history db ++ l /\ Forall (fun h => hi_entity_id h = bank) l;
  sl_audit : exists l, audit db' = audit db ++ l /\ Forall (fun a => au_entity_id a = bank) l;
  sl_idem : table_le idem_le (idem db) (idem db');
  sl_batches : table_le batch_le (batches db) (batches db');
  sl_items : table_le item_le (batch_items db) (batch_items db');
  sl_runs : table_le run_le (expiry_runs db) (expiry_runs db');
  sl_expiry : table_le expiry_le (expiry_items db) (expiry_items db');
  sl_authz : table_le eq (authz db) (authz db');
  sl_others : others bank (clients db) (clients db') /\ others bank (accounts db) (accounts db') /\
    others bank (products db) (products db') /\ others bank (cards db) (cards db') /\
    others bank (operations db) (operations db') /\ others bank (batches db) (batches db') /\
    others bank (batch_items db) (batch_items db') /\ others bank (expiry_runs db) (expiry_runs db') /\
    others bank (expiry_items db) (expiry_items db') /\ others bank (authz db) (authz db');
  sl_other_entities : forall b, b <> bank -> entities db' !! b = entities db !! b;
  sl_other_idem : forall b s k, b <> bank -> idem db' !! (b, s, k) = idem db !! (b, s, k)
}.

Lemma appended_refl {A} (P : A -> Prop) (l : list A) : exists l', l = l ++ l' /\ Forall P l'.
Proof. exists []. by rewrite app_nil_r. Qed.
#[export] Hint Resolve appended_refl : core.
Lemma appended_trans {A} (P : A -> Prop) (a b c : list A) :
  (exists l, b = a ++ l /\ Forall P l) -> (exists l, c = b ++ l /\ Forall P l) -> exists l, c = a ++ l /\ Forall P l.
Proof.
  intros (l1 & -> & H1) (l2 & -> & H2). exists (l1 ++ l2). rewrite <- app_assoc. split; [done|by apply Forall_app].
Qed.

#[export] Instance shard_le_preorder bank : PreOrder (shard_le bank).
Proof.
  split.
  - intros db. split; try reflexivity; try done; auto; repeat split; reflexivity.
  - intros a b c [] []. split; try (etrans; eassumption); try (eapply appended_trans; eassumption).
    + repeat match goal with H : _ /\ _ |- _ => destruct H end. repeat split; etrans; eassumption.
    + intros x Hx. transitivity (entities b !! x); auto.
    + intros x s k Hx. transitivity (idem b !! (x, s, k)); auto.
Qed.
#[export] Hint Extern 0 (shard_le _ ?a ?a) => reflexivity : core.

(** Writing one row of the bank. *)
Section SetRow.
Context (bank : string) (db : shard_db).

Ltac set_row :=
  intros; split; try reflexivity; try done; auto;
  [apply table_le_insert; [apply _|done]
  |repeat split; first [reflexivity | apply others_insert]].

Lemma sl_set_client id c : (forall c0, clients db !! (bank, id) = Some c0 -> client_le c0 c) ->
  shard_le bank db (db <| clients ::= <[(bank, id) := c]> |>).
Proof. set_row. Qed.
Lemma sl_set_account id c : (forall c0, accounts db !! (bank, id) = Some c0 -> account_le c0 c) ->
  shard_le bank db (db <| accounts ::= <[(bank, id) := c]> |>).
Proof. set_row. Qed.
Lemma sl_set_product id c : (forall c0, products db !! (bank, id) = Some c0 -> product_le c0 c) ->
  shard_le bank db (db <| products ::= <[(bank, id) := c]> |>).
Proof. set_row. Qed.
Lemma sl_set_card id c : (forall c0, cards db !! (bank, id) = Some c0 -> card_le c0 c) ->
  shard_le bank db (db <| cards ::= <[(bank, id) := c]> |>).
Proof. set_row. Qed.
Lemma sl_set_operation id c : (forall c0, operations db !! (bank, id) = Some c0 -> operation_le c0 c) ->
  shard_le bank db (db <| operations ::= <[(bank, id) := c]> |>).
Proof. set_row. Qed.
Lemma sl_set_batch id c : (forall c0, batches db !! (bank, id) = Some c0 -> batch_le c0 c) ->
  shard_le bank db (db <| batches ::= <[(bank, id) := c]> |>).
Proof. set_row. Qed.
Lemma sl_set_item id c : (forall c0, batch_items db !! (bank, id) = Some c0 -> item_le c0 c) ->
  shard_le bank db (db <| batch_items ::= <[(bank, id) := c]> |>).
Proof. set_row. Qed.
Lemma sl_set_run id c : (forall c0, expiry_runs db !! (bank, id) = Some c0 -> run_le c0 c) ->
  shard_le bank db (db <| expiry_runs ::= <[(bank, id) := c]> |>).
Proof. set_row. Qed.
Lemma sl_set_expiry id c : (forall c0, expiry_items db !! (bank, id) = Some c0 -> expiry_le c0 c) ->
  shard_le bank db (db <| expiry_items ::= <[(bank, id) := c]> |>).
Proof. set_row. Qed.
Lemma sl_set_authz id c : authz db !! (bank, id) = None ->
  shard_le bank db (db <| authz ::= <[(bank, id) := c]> |>).
Proof. intros Hn. assert (forall c0, authz db !! (bank, id) = Some c0 -> c0 = c) by congruence. set_row. Qed.
Lemma sl_set_entity c : (forall c0, entities db !! bank = Some c0 -> entity_le c0 c) ->
  shard_le bank db (db <| entities ::= <[bank := c]> |>).
Proof.
  intros; split; try reflexivity; try done; auto.
  - apply table_le_insert; [apply _|done].
  - intros b Hb. cbn. apply lookup_insert_ne. congruence.
Qed.
Lemma sl_set_idem s k c : (forall c0, idem db !! (bank, s, k) = Some c0 -> idem_le c0 c) ->
  shard_le bank db (db <| idem ::= <[(bank, s, k) := c]> |>).
Proof.
  intros; split; try reflexivity; try done; auto.
  - apply table_le_insert; [apply _|done].
  - intros b s' k' Hb. cbn. apply lookup_insert_ne. congruence.
Qed.
Lemma sl_add_history h : hi_entity_id h = bank -> shard_le bank db (db <| history ::= fun l => l ++ [h] |>).
Proof. intros; split; try reflexivity; try done; auto; eauto. Qed.
Lemma sl_add_audit h : au_entity_id h = bank -> shard_le bank db (db <| audit ::= fun l => l ++ [h] |>).
Proof. intros; split; try reflexivity; try done; auto; eauto. Qed.
End SetRow.

(** ** The statements *)

Section Statements.
Context (bank : string).

Lemma sl_query {A} (g : sql_env -> shard_db -> A) : mono (shard_le bank) (query g).
Proof. intros env db a db' [= _ <-]. reflexivity. Qed.

Lemma sl_insert_operation id mk : mono (shard_le bank) (insert_operation bank id mk).
Proof.
  intros env db a db'. unfold insert_operation. case_match eqn:E; [done|]. intros [= _ <-].
  apply insert_pk_inr in E as [E ->]. apply sl_set_operation. congruence.
Qed.
Lemma sl_insert_history c o p n r who : mono (shard_le bank) (insert_history bank c o p n r who).
Proof. intros env db a db'. unfold insert_history. case_match; [done|]. intros [= _ <-]. by apply sl_add_history. Qed.
Lemma sl_insert_audit a t r o q who d : mono (shard_le bank) (insert_audit bank a t r o q who d).
Proof. intros env db x db' [= _ <-]. by apply sl_add_audit. Qed.

Lemma sl_finish_idempotency s k st r res act : mono (shard_le bank) (finish_idempotency bank s k st r res act).
Proof.
  intros env db a db'. unfold finish_idempotency. case_match eqn:E; intros [= _ <-]; [|done].
  apply sl_set_idem. intros c0 H0. rewrite E in H0. by injection H0 as <-.
Qed.
Lemma sl_insert_idempotency c :
  ShardIdempotencyClaim_Bank c = bank -> mono (shard_le bank) (insert_idempotency c).
Proof.
  intros <- env db a db'. unfold insert_idempotency. case_match eqn:E; intros [= _ <-]; [done|].
  apply sl_set_idem. intros c0 H0. congruence.
Qed.
Lemma sl_reclaim_idempotency c :
  ShardIdempotencyClaim_Bank c = bank -> mono (shard_le bank) (reclaim_idempotency c).
Proof.
  intros <- env db a db'. unfold reclaim_idempotency. case_match eqn:E; intros [= _ <-]; [|done].
  apply sl_set_idem. intros c0 H0. rewrite E in H0. by injection H0 as <-.
Qed.

Lemma sl_update_batch id wh set :
  (forall env b, wh env b = true -> ba_lease_version b <= ba_lease_version (set env b)) ->
  mono (shard_le bank) (update_batch bank id wh set).
Proof.
  intros Hset env db a db'. unfold update_batch.
  case_match eqn:E; [|intros [= _ <-]; done]. case_match eqn:Ew; [|intros [= _ <-]; done].
  match goal with |- context [if ?g then _ else _] => destruct g eqn:Eg end; [|done].
  intros [= _ <-]. apply sl_set_batch. intros c0 H0. rewrite E in H0. injection H0 as <-.
  apply (guard_batch_le _ _ _ _ Eg). cbn. auto.
Qed.
Lemma sl_insert_batch id mk : mono (shard_le bank) (insert_batch bank id mk).
Proof.
  intros env db a db'. unfold insert_batch. case_match; [|done]. case_match; [done|].
  case_match eqn:E; [done|]. intros [= _ <-]. apply insert_pk_inr in E as [E ->].
  apply sl_set_batch. congruence.
Qed.
Lemma sl_update_item_row id wh set db a db' :
  update_item_row bank id wh set db = inr (a, db') -> shard_le bank db db'.
Proof.
  unfold update_item_row. case_match eqn:E; [|intros [= _ <-]; done]. case_match eqn:Ew; [|intros [= _ <-]; done].
  match goal with |- context [if ?g then _ else _] => destruct g eqn:Eg end; [|done].
  intros [= _ <-]. apply sl_set_item. intros c0 H0. rewrite E in H0. injection H0 as <-.
  by eapply guard_item_le.
Qed.
Lemma sl_update_item id wh set : mono (shard_le bank) (update_item bank id wh set).
Proof. intros env db a db'. apply sl_update_item_row. Qed.
Lemma sl_insert_item b c o : mono (shard_le bank) (insert_item bank b c o).
Proof.
  intros env db a db'. unfold insert_item. case_match; [|done]. case_match; [done|].
  case_match eqn:E; [done|]. intros [= _ <-]. apply insert_pk_inr in E as [E ->].
  apply sl_set_item. congruence.
Qed.

Lemma sl_update_card id wh set :
  (forall env c, wh c = true -> card_identity (set env c) = card_identity c /\ cd_version c < cd_version (set env c)) ->
  mono (shard_le bank) (update_card bank id wh set).
Proof.
  intros Hset env db a db'. unfold update_card.
  case_match eqn:E; [|intros [= _ <-]; done]. case_match eqn:Ew; [|intros [= _ <-]; done].
  match goal with |- context [if ?g then _ else _] => destruct g eqn:Eg end; [|done].
  intros [= _ <-]. apply sl_set_card. intros c0 H0. rewrite E in H0. injection H0 as <-.
  destruct (Hset env _ Ew) as [Hi Hv]. split; [exact Hi|]. split; [|by right].
  intros [m Hm]. unfold guard_masked_pan in Eg. apply andb_true_iff in Eg as [Eg _].
  rewrite Hm in Eg. rewrite negb_true_iff, andb_false_iff in Eg. destruct Eg as [Eg|Eg].
  - rewrite negb_false_iff, bool_decide_eq_true in Eg. done.
  - rewrite negb_false_iff, bool_decide_eq_true in Eg. by rewrite Hm.
Qed.
Lemma sl_insert_card id (c : sql_env -> card_row) env db t :
  insert_pk (bank, id) (c env) (cards db) = inr t -> shard_le bank db (db <| cards := t |>).
Proof. intros [E ->]%insert_pk_inr. apply (sl_set_card bank db id). congruence. Qed.

Lemma sl_update_operation id wh set :
  (forall env o, wh o = true -> operation_request (set env o) = operation_request o) ->
  mono (shard_le bank) (update_operation bank id wh set).
Proof.
  intros Hset env db a db'. unfold update_operation.
  case_match eqn:E; [|intros [= _ <-]; done]. case_match eqn:Ew; intros [= _ <-]; [|done].
  apply sl_set_operation. intros c0 H0. rewrite E in H0. injection H0 as <-. red. by rewrite <- (Hset env _ Ew).
Qed.

Lemma sl_update_run id wh set : mono (shard_le bank) (update_run bank id wh set).
Proof.
  intros env db a db'. unfold update_run.
  case_match eqn:E; [|intros [= _ <-]; done]. case_match eqn:Ew; [|intros [= _ <-]; done].
  match goal with |- context [if ?g then _ else _] => destruct g eqn:Eg end; [|done].
  intros [= _ <-]. apply sl_set_run. intros c0 H0. rewrite E in H0. injection H0 as <-.
  unfold guard_expiry_run in Eg. rewrite !andb_true_iff, Z.eqb_eq, String.eqb_eq in Eg. split; tauto.
Qed.

Lemma sl_update_expiry id wh set :
  (forall env db e, wh env db e = true ->
     ex_lease_version e <= ex_lease_version (set env e) /\
     ex_automatic_retry_count e <= ex_automatic_retry_count (set env e) /\
     ex_attempt_count e <= ex_attempt_count (set env e)) ->
  mono (shard_le bank) (update_expiry_row bank id wh set).
Proof.
  intros Hset env db a db'. unfold update_expiry_row.
  case_match eqn:E; [|intros [= _ <-]; done]. case_match eqn:Ew; [|intros [= _ <-]; done].
  match goal with |- context [if ?g then _ else _] => destruct g eqn:Eg end; [|done].
  case_match; [|done].
  intros [= _ <-]. apply sl_set_expiry. intros c0 H0. rewrite E in H0. injection H0 as <-.
  destruct (Hset env db _ Ew) as (?&?&?). by eapply guard_expiry_le.
Qed.
Lemma sl_insert_expiry r c o : mono (shard_le bank) (insert_expiry_item bank r c o).
Proof.
  intros env db a db'. unfold insert_expiry_item.
  match goal with |- context [if ?g then _ else _] => destruct g end; [|done].
  case_match; [intros [= _ <-]; done|]. case_match; [done|].
  case_match eqn:E; [done|]. intros [= _ <-]. apply insert_pk_inr in E as [E ->].
  apply sl_set_expiry. congruence.
Qed.
End Statements.

Create HintDb shard.
#[export] Hint Resolve sl_query sl_insert_operation sl_insert_history sl_insert_audit sl_finish_idempotency
  sl_insert_idempotency sl_reclaim_idempotency sl_insert_batch sl_update_item sl_insert_item sl_update_run
  sl_insert_expiry : shard.
(** The side conditions of the updates: the SET clause is a record. *)
#[export] Hint Extern 2 (mono _ (update_batch _ _ _ _)) => apply sl_update_batch; intros; cbn; lia : shard.
#[export] Hint Extern 2 (mono _ (update_card _ _ _ _)) =>
  apply sl_update_card; intros; cbn; split; [reflexivity|lia] : shard.
#[export] Hint Extern 2 (mono _ (update_operation _ _ _ _)) => apply sl_update_operation; intros; reflexivity : shard.
#[export] Hint Extern 2 (mono _ (update_expiry_row _ _ _ _)) =>
  apply sl_update_expiry; intros; cbn; repeat split; try lia; case_match; lia : shard.
#[export] Hint Extern 1 (PreOrder _) => apply _ : shard.

(** ** What a statement writes *)

(** A history row without its author. *)
Definition history_line (h : history_row) := (hi_card_id h, hi_operation_id h, hi_previous_status h, hi_new_status h).

Lemma update_item_tables bank id wh set env db a db' :
  update_item bank id wh set env db = inr (a, db') ->
  batches db' = batches db /\ cards db' = cards db /\ history db' = history db.
Proof. unfold update_item, update_item_row. repeat case_match; intros; simplify_eq/=; done. Qed.
Lemma update_operation_tables bank id wh set env db a db' :
  update_operation bank id wh set env db = inr (a, db') ->
  batches db' = batches db /\ cards db' = cards db /\ history db' = history db.
Proof. unfold update_operation. repeat case_match; intros; simplify_eq/=; done. Qed.
Lemma insert_audit_tables bank x t r o q who d env db a db' :
  insert_audit bank x t r o q who d env db = inr (a, db') ->
  batches db' = batches db /\ cards db' = cards db /\ history db' = history db.
Proof. unfold insert_audit. intros; simplify_eq/=; done. Qed.
Lemma insert_history_tables bank c o p n r who env db a db' :
  insert_history bank c o p n r who env db = inr (a, db') ->
  batches db' = batches db /\ cards db' = cards db /\
  exists h, history db' = history db ++ [h] /\ history_line h = (c, o, p, n).
Proof. unfold insert_history. case_match; [done|]. intros [= _ <-]. cbn. eauto. Qed.
Lemma update_card_tables bank id wh set env db a db' :
  update_card bank id wh set env db = inr (a, db') ->
  batches db' = batches db /\ history db' = history db /\
  (forall k, k <> (bank, id) -> cards db' !! k = cards db !! k) /\
  (forall c, cards db !! (bank, id) = Some c -> wh c = true ->
     cards db' !! (bank, id) = Some ((set env c) <| cd_updated_at := clock_timestamp env |>)) /\
  (cards db !! (bank, id) = None -> cards db' = cards db).
Proof.
  unfold update_card. case_match eqn:E.
  - case_match eqn:Ew; [case_match; [|done]|]; intros [= _ <-]; cbn.
    + repeat split; try done; [intros; by rewrite lookup_insert_ne by congruence|].
      intros c0 [= <-] _. by rewrite lookup_insert_eq.
    + repeat split; try done. intros c0 [= <-]. congruence.
  - intros [= _ <-]. repeat split; done.
Qed.

Ltac run_exec H db :=
  let env := fresh "env" in let db' := fresh "db" in let Hf := fresh "Hf" in let Ht := fresh "Ht" in
  eapply exec_tx in H as (env & db' & Hf & Ht & _ & _ & _ & _); [|eassumption].
