(* ===== verification/ExecutorStore.v ===== *)
(** * ExecutorStore: claims, leases and outcomes of asynchronous work

    [internal/repository/shard/executor_store.go] and the ports of
    [internal/executor/ports.go]: one definition per method, each statement
    with its WHERE clause.  A lease duration or a delay is in nanoseconds; the
    day of an expiry run is its number since 1970-01-01. *)

From S2P Require Import Prelude Json Domain Stores Vault World ShardTx Guards.
Open Scope string_scope.
Open Scope list_scope.
Open Scope Z_scope.

(** ** ports.go *)

Record Batch := MkBatch {
  Batch_ID : string;
  Batch_BankID : string;
  Batch_TargetStatus : string;
  Batch_Reason : string;
  Batch_RequestedBy : string;
  Batch_RequesterRole : string;
  Batch_RequesterBankID : string;
  Batch_RequestID : string;
  Batch_ItemCount : Z;
  Batch_AttemptCount : Z;
  Batch_LeaseVersion : Z;
}.
Record ExpiryItem := MkExpiryItem {
  ExpiryItem_ID : string;
  ExpiryItem_RunID : string;
  ExpiryItem_BankID : string;
  ExpiryItem_CardID : string;
  ExpiryItem_OperationID : string;
  ExpiryItem_LeaseVersion : Z;
  ExpiryItem_AutomaticRetry : Z;
}.
Record Claim := MkClaim {
  Claim_BankID : string;
  Claim_Owner : string;
  Claim_LeaseDuration : Z;
}.

(** ** Shared statements *)

(** [ORDER BY next_attempt_at, id ... LIMIT 1] of rows sorted by id. *)
Fixpoint earliest {A} (at_ : A -> Z) (l : list (string * A)) : option (string * A) :=
  match l with
  | [] => None
  | p :: rest =>
      match earliest at_ rest with
      | Some q => if at_ q.2 <? at_ p.2 then Some q else Some p
      | None => Some p
      end
  end.

(** The rows a FOR UPDATE SKIP LOCKED sees. *)
Definition unlocked {A} (env : sql_env) (l : list (string * A)) : list (string * A) :=
  filter (fun p => p.1 ∉ locked env) l.

(** UPDATE ... RETURNING of one row. *)
Definition returning {A} (f : sql shard_db Z) (g : shard_db -> option A) : sql shard_db (option A) := fun env db =>
  match f env db with
  | inl err => inl err
  | inr (n, db') => inr (if n =? 1 then g db' else None, db')
  end.

(** [status='processing' AND lease_owner=$3 AND lease_version=$4 AND
    lease_expires_at>clock_timestamp()]. *)
Definition holds_batch_lease (owner : string) (version : Z) (env : sql_env) (b : batch_row) : bool :=
  (ba_status b == "processing") && sql_eq (ba_lease_owner b) owner && (ba_lease_version b =? version)
  && match ba_lease_expires_at b with Some t => clock_timestamp env <? t | None => false end.

Definition holds_expiry_lease (owner : string) (version : Z) (env : sql_env) (e : expiry_row) : bool :=
  (ex_status e == "processing") && sql_eq (ex_lease_owner e) owner && (ex_lease_version e =? version)
  && match ex_lease_expires_at e with Some t => clock_timestamp env <? t | None => false end.

(** ** Batches *)

Definition select_batch_claim (bank : string) : sql shard_db (option (string * batch_row)) :=
  query (fun env db =>
    earliest ba_next_attempt_at
      (filter (fun p => ba_status p.2 = "queued" /\ ba_next_attempt_at p.2 <= clock_timestamp env)
         (unlocked env (bank_rows bank (batches db))))).

Definition claim_batch (claim : Claim) (id : string) : sql shard_db Z :=
  update_batch (Claim_BankID claim) id (fun _ b => ba_status b == "queued") (fun env b =>
    b <| ba_status := "processing" |> <| ba_lease_owner := Some (Claim_Owner claim) |>
      <| ba_lease_expires_at := Some (clock_timestamp env + Claim_LeaseDuration claim) |>
      <| ba_lease_version := ba_lease_version b + 1 |> <| ba_attempt_count := ba_attempt_count b + 1 |>
      <| ba_started_at := Some (default (clock_timestamp env) (ba_started_at b)) |>).

Definition ClaimBatch (claim : Claim) : M (option Batch) :=
  let bank := Claim_BankID claim in
  beginTenant bank ;;
  with_defer shard_rollback (
    r ← try (row (shard_exec (select_batch_claim bank)));
    match r with
    | inl err =>
        if errors_is err ErrNoRows then shard_commit ;; mret None
        else throw (ErrWrap "select batch claim" err)
    | inr (id, b) =>
        vn ← wrap "claim batch" (row (shard_exec (returning (claim_batch claim id) (fun db =>
               (fun b => (ba_lease_version b, ba_attempt_count b)) <$> batches db !! (bank, id)))));
        wrap "commit batch claim" shard_commit ;;
        mret (Some (MkBatch id bank (ba_target_status b) (ba_reason b) (ba_requested_by b) (ba_requester_role b)
                      (default "" (ba_requester_entity_id b)) (ba_request_id b) (ba_item_count b) vn.2 vn.1))
    end).

Definition recover_batches (bank : string) : sql shard_db Z := fun env db =>
  let expired := filter (fun p => ba_status p.2 = "processing" /\ reached (clock_timestamp env) (ba_lease_expires_at p.2) = true)
                   (unlocked env (bank_rows bank (batches db))) in
  each_row (fun id => update_batch bank id (fun _ _ => true) (fun env b =>
    b <| ba_status := "queued" |> <| ba_lease_owner := None |> <| ba_lease_expires_at := None |>
      <| ba_lease_version := ba_lease_version b + 1 |> <| ba_next_attempt_at := clock_timestamp env |>))
    (List.map fst expired) env db.

Definition RecoverBatches (claim : Claim) : M Z :=
  beginTenant (Claim_BankID claim) ;;
  with_defer shard_rollback (
    n ← wrap "recover batch leases" (shard_exec (recover_batches (Claim_BankID claim)));
    shard_commit ;; mret n).

(** [verifyBatchLease]. *)
Definition verifyBatchLease (batch : Batch) (owner : string) : M unit :=
  exists_ ← shard_exec (query (fun env db =>
    match batches db !! (Batch_BankID batch, Batch_ID batch) with
    | Some b => holds_batch_lease owner (Batch_LeaseVersion batch) env b
    | None => false
    end));
  if exists_ : bool then mret tt else throw ErrStale.

(** The rows of the batch joined with their cards, ordered by card id. *)
Definition joined_cards (bank batch : string) (db : shard_db) : list (string * item_row * string) :=
  concat (List.map (fun c =>
    List.map (fun i => (i.1, i.2, cd_status c.2))
      (filter (fun i => it_card_id i.2 = c.1) (items_of_batch bank batch db)))
    (bank_rows bank (cards db))).
Definition select_batch_cards (bank batch : string) : sql shard_db (list (string * item_row * string)) :=
  query (fun _ db => joined_cards bank batch db).

(** The local type [item] of [ApplyBatch]. *)
Record apply_item := ApplyItem {
  api_id : string; api_cardID : string; api_operationID : string; api_status : string; api_ignored : bool
}.

(** The scan loop: the first invalid transition ends it. *)
Fixpoint scan_batch_cards (target : string) (rows : list (string * item_row * string)) : result (list apply_item) :=
  match rows with
  | [] => inr []
  | (id, i, status) :: rest =>
      let '(valid, ignored) := Lifecycle.CanTransition status target in
      if negb valid then inl (ErrMsg "invalid batch transition")
      else match scan_batch_cards target rest with
           | inl err => inl err
           | inr items => inr (ApplyItem id (it_card_id i) (it_operation_id i) status ignored :: items)
           end
  end.

(** The requester, recorded by the executor on audit rows, and on history rows
    without the executor's identity. *)
Definition requester (batch : Batch) : actor :=
  user_actor (Batch_RequestedBy batch) (Batch_RequesterRole batch) (Batch_RequesterBankID batch).
Definition requester_by (batch : Batch) (owner : string) : actor :=
  Actor (Some (Batch_RequestedBy batch)) (Batch_RequesterRole batch) (nullable (Batch_RequesterBankID batch)) (Some owner).

Definition set_batch_card (batch : Batch) (env : sql_env) (c : card_row) : card_row :=
  let target := Batch_TargetStatus batch in
  c <| cd_status := target |>
    <| cd_activated_at := if target == "active" then Some (clock_timestamp env) else cd_activated_at c |>
    <| cd_suspended_at := if target == "suspended" then Some (clock_timestamp env) else cd_suspended_at c |>
    <| cd_closed_at := if target == "closed" then Some (clock_timestamp env) else cd_closed_at c |>
    <| cd_version := cd_version c + 1 |> <| cd_updated_by := Batch_RequestedBy batch |>.

Definition complete_operation (batch : Batch) (owner id : string) : M Z :=
  shard_exec (update_operation (Batch_BankID batch) id (fun o => op_status o == "queued") (fun env o =>
    o <| op_status := "succeeded" |> <| op_executor_identity := Some owner |>
      <| op_started_at := Some (clock_timestamp env) |> <| op_completed_at := Some (clock_timestamp env) |>
      <| op_updated_by := Some (Batch_RequestedBy batch) |>)).

Definition audit_batch_card (batch : Batch) (owner card : string) (details : json) : M unit :=
  shard_exec (insert_audit (Batch_BankID batch) "batch.apply" "card" card "succeeded" (Batch_RequestID batch)
    (requester_by batch owner) details).

(** One turn of the loop over the items. *)
Definition apply_ignored (batch : Batch) (owner : string) (item : apply_item) : M unit :=
  let bank := Batch_BankID batch in
  shard_exec (update_item bank (api_id item) (fun i => it_outcome i == "pending") (fun i => i <| it_outcome := "ignored" |>)) ;;
  complete_operation batch owner (api_operationID item) ;;
  audit_batch_card batch owner (api_cardID item) (JObj [("ignored", JBool true)]).

Definition apply_card (batch : Batch) (owner : string) (item : apply_item) : M unit :=
  let bank := Batch_BankID batch in
  wrap "apply batch card" (shard_exec (update_card bank (api_cardID item) (fun _ => true) (set_batch_card batch))) ;;
  complete_operation batch owner (api_operationID item) ;;
  shard_exec (insert_history bank (api_cardID item) (api_operationID item) (api_status item) (Batch_TargetStatus batch)
    (Batch_Reason batch) (requester batch)) ;;
  shard_exec (update_item bank (api_id item) (fun i => it_outcome i == "pending")
    (fun i => i <| it_outcome := "applied" |> <| it_previous_status := Some (api_status item) |>)) ;;
  audit_batch_card batch owner (api_cardID item) (JObj []).

(** The loop, with the counters [applied] and [ignored]. *)
Fixpoint apply_items (batch : Batch) (owner : string) (items : list apply_item) (applied ignored : Z) : M (Z * Z) :=
  match items with
  | [] => mret (applied, ignored)
  | item :: rest =>
      if api_ignored item then
        apply_ignored batch owner item ;; apply_items batch owner rest applied (ignored + 1)
      else
        apply_card batch owner item ;; apply_items batch owner rest (applied + 1) ignored
  end.

Definition succeed_batch (batch : Batch) (owner : string) (applied ignored : Z) : sql shard_db Z :=
  update_batch (Batch_BankID batch) (Batch_ID batch) (holds_batch_lease owner (Batch_LeaseVersion batch)) (fun env b =>
    b <| ba_status := "succeeded" |> <| ba_applied_count := applied |> <| ba_ignored_count := ignored |>
      <| ba_completed_at := Some (clock_timestamp env) |> <| ba_lease_owner := None |> <| ba_lease_expires_at := None |>).

(** [if tag.RowsAffected() != 1 { return executor.ErrStale }]. *)
Definition expect_one (n : Z) : M unit := if n =? 1 then mret tt else throw ErrStale.

Definition ApplyBatch (batch : Batch) (owner : string) : M unit :=
  beginTenant (Batch_BankID batch) ;;
  with_defer shard_rollback (
    verifyBatchLease batch owner ;;
    rows ← wrap "lock batch cards" (shard_exec (select_batch_cards (Batch_BankID batch) (Batch_ID batch)));
    items ← of_result (scan_batch_cards (Batch_TargetStatus batch) rows);
    counts ← apply_items batch owner items 0 0;
    n ← shard_exec (succeed_batch batch owner counts.1 counts.2);
    expect_one n ;;
    wrap "commit batch outcome" shard_commit).

(** [safeBatchCode]. *)
Definition safeBatchCode (code : string) : string :=
  if (code == "authorization_revoked") || (code == "retry_exhausted") || (code == "invalid_transition")
     || (code == "control_unavailable") || (code == "dependency_unavailable")
  then code else "dependency_unavailable".

Definition requeue_summary (code : string) : string :=
  if code == "control_unavailable" then "Authorization dependency is temporarily unavailable."
  else if code == "dependency_unavailable" then "A temporary dependency failure occurred."
  else "The batch will be retried.".

(** [updateBatchLease]: the SET clause is the caller's. *)
Definition updateBatchLease (batch : Batch) (owner : string) (set : string -> sql_env -> batch_row -> batch_row)
    (code : string) : M unit :=
  beginTenant (Batch_BankID batch) ;;
  with_defer shard_rollback (
    n ← shard_exec (update_batch (Batch_BankID batch) (Batch_ID batch)
          (holds_batch_lease owner (Batch_LeaseVersion batch)) (set (safeBatchCode code)));
    expect_one n ;;
    shard_commit).

Definition RequeueBatch (batch : Batch) (owner code : string) (delay : Z) : M unit :=
  updateBatchLease batch owner (fun code env b =>
    b <| ba_status := "queued" |> <| ba_lease_owner := None |> <| ba_lease_expires_at := None |>
      <| ba_next_attempt_at := clock_timestamp env + delay |> <| ba_failure_code := Some code |>
      <| ba_failure_summary := Some (requeue_summary code) |>) code.

Definition fail_summary (code : string) : string :=
  if code == "authorization_revoked" then "The requester is no longer authorized."
  else if code == "retry_exhausted" then "The retry limit was reached."
  else if code == "invalid_transition" then "One or more card transitions are not allowed."
  else "The batch could not be completed.".

(** UPDATE of the pending items, joined with their cards. *)
Definition fail_items (batch : Batch) (code : string) : sql shard_db Z := fun env db =>
  let bank := Batch_BankID batch in
  let pending := filter (fun i => it_outcome i.2 = "pending" /\ is_Some (cards db !! (bank, it_card_id i.2)))
                   (items_of_batch bank (Batch_ID batch) db) in
  let reached_target i := bool_decide (cd_status <$> cards db !! (bank, it_card_id i) = Some (Batch_TargetStatus batch)) in
  each_row (fun id => update_item bank id (fun _ => true) (fun i =>
    i <| it_outcome := if reached_target i then "ignored" else "not_applied" |> <| it_previous_status := None |>
      <| it_failure_code := if reached_target i then None else Some code |>))
    (List.map fst pending) env db.

(** UPDATE of the queued operations of the items. *)
Definition fail_operations (batch : Batch) (owner code : string) : sql shard_db Z := fun env db =>
  let bank := Batch_BankID batch in
  each_row (fun id => update_operation bank id (fun o => op_status o == "queued") (fun env o =>
    o <| op_status := "failed" |> <| op_executor_identity := Some owner |>
      <| op_started_at := Some (clock_timestamp env) |> <| op_completed_at := Some (clock_timestamp env) |>
      <| op_failure_code := Some code |> <| op_failure_summary := Some "The batch could not be completed." |>))
    (List.map (fun i => it_operation_id i.2) (items_of_batch bank (Batch_ID batch) db)) env db.

Definition fail_batch (batch : Batch) (owner code : string) (ignored : Z) : sql shard_db Z :=
  update_batch (Batch_BankID batch) (Batch_ID batch) (holds_batch_lease owner (Batch_LeaseVersion batch)) (fun env b =>
    b <| ba_status := "failed" |> <| ba_applied_count := 0 |> <| ba_ignored_count := ignored |>
      <| ba_failure_code := Some code |> <| ba_failure_summary := Some (fail_summary code) |>
      <| ba_completed_at := Some (clock_timestamp env) |> <| ba_lease_owner := None |> <| ba_lease_expires_at := None |>).

Definition FailBatch (batch : Batch) (owner code : string) : M unit :=
  let bank := Batch_BankID batch in
  beginTenant bank ;;
  with_defer shard_rollback (
    verifyBatchLease batch owner ;;
    shard_exec (fail_items batch (safeBatchCode code)) ;;
    shard_exec (fail_operations batch owner (safeBatchCode code)) ;;
    shard_exec (insert_audit bank "batch.apply" "card_status_batch" (Batch_ID batch) "failed" (Batch_RequestID batch)
      (requester_by batch owner) (JObj [])) ;;
    ignored ← shard_exec (query (fun _ db => count_outcome (fun o => o == "ignored") (batch_outcomes bank (Batch_ID batch) db)));
    n ← shard_exec (fail_batch batch owner (safeBatchCode code) ignored);
    expect_one n ;;
    shard_commit).

(** ** Expiry runs *)

Definition expiryScheduleBatchSize : nat := 200.

(** INSERT ... ON CONFLICT (entity_id, run_date) DO UPDATE SET
    updated_at=updated_at RETURNING id. *)
Definition upsert_run (bank : string) (run_date : Z) (owner : string) : sql shard_db (option string) := fun env db =>
  match list_find (fun p => ru_run_date p.2 = run_date) (bank_rows bank (expiry_runs db)) with
  | Some (_, (id, _)) =>
      match update_run bank id (fun _ _ => true) (fun _ _ r => r) env db with
      | inl err => inl err
      | inr (_, db') => inr (Some id, db')
      end
  | None =>
      let id := gen_random_uuid env 0 in
      match insert_pk (bank, id) (RunRow run_date "processing" 0 0 0 0 owner (now env) (now env) None) (expiry_runs db) with
      | inl err => inl err
      | inr t => inr (Some id, db <| expiry_runs := t |>)
      end
  end.

(** [expires_at < $2::date + INTERVAL '1 day'], false on NULL. *)
Definition expires_by (run_date : Z) (o : option Z) : bool :=
  match o with Some t => t <? (run_date + 1) * day | None => false end.

Definition expirable (status : string) : bool :=
  (status == "pending") || (status == "issued") || (status == "active") || (status == "suspended").

Definition select_expiring (bank : string) (run_date : Z) (run : string) : sql shard_db (list string) :=
  query (fun env db =>
    take expiryScheduleBatchSize (List.map fst (filter (fun c =>
      expirable (cd_status c.2) && expires_by run_date (cd_expires_at c.2)
      && negb (existsb (fun i => ex_card_id i.2 == c.1) (items_of_run bank run db)) = true)
      (unlocked env (bank_rows bank (cards db)))))).

Definition system_by (owner : string) : actor := Actor None "system" None (Some owner).

(** One turn of the loop over the expiring cards. *)
Definition schedule_card (bank run owner cardID : string) : M unit :=
  operationID ← row (shard_exec (fun env db =>
    let id := gen_random_uuid env 0 in
    match insert_operation bank id (fun env =>
            operation_of cardID "expire" "queued" "scheduled expiry" (gen_random_uuid env 1) (system_by owner)
              (Some (clock_timestamp env)) None None env) env db with
    | inl err => inl err
    | inr (_, db') => inr (Some id, db')
    end));
  shard_exec (insert_expiry_item bank run cardID operationID).

Definition EnsureExpiryRun (bank : string) (today : Z) (owner : string) : M unit :=
  let run_date := today / day in
  beginTenant bank ;;
  with_defer shard_rollback (
    runID ← row (shard_exec (upsert_run bank run_date owner));
    cardIDs ← shard_exec (select_expiring bank run_date runID);
    when (0 <? Z.of_nat (length cardIDs)) (
      shard_exec (update_run bank runID (fun _ r => ru_status r == "completed")
        (fun _ _ r => r <| ru_status := "processing" |> <| ru_completed_at := None |>)) ;; mret tt) ;;
    mapM_ (schedule_card bank runID owner) cardIDs ;;
    shard_exec (update_run bank runID (fun _ _ => true)
      (fun _ db r => r <| ru_item_count := Z.of_nat (length (items_of_run bank runID db)) |>)) ;;
    shard_commit).

Definition select_expiry_claim (bank : string) : sql shard_db (option (string * expiry_row)) :=
  query (fun env db =>
    earliest ex_next_attempt_at
      (filter (fun p => ex_status p.2 = "pending" /\ ex_next_attempt_at p.2 <= clock_timestamp env)
         (unlocked env (bank_rows bank (expiry_items db))))).

Definition claim_expiry (claim : Claim) (id : string) : sql shard_db Z :=
  update_expiry_row (Claim_BankID claim) id (fun _ _ e => ex_status e == "pending") (fun env e =>
    e <| ex_status := "processing" |> <| ex_lease_owner := Some (Claim_Owner claim) |>
      <| ex_lease_expires_at := Some (clock_timestamp env + Claim_LeaseDuration claim) |>
      <| ex_lease_version := ex_lease_version e + 1 |>).

Definition ClaimExpiryItem (claim : Claim) : M (option ExpiryItem) :=
  let bank := Claim_BankID claim in
  beginTenant bank ;;
  with_defer shard_rollback (
    r ← try (row (shard_exec (select_expiry_claim bank)));
    match r with
    | inl err => if errors_is err ErrNoRows then shard_commit ;; mret None else throw err
    | inr (id, e) =>
        v ← row (shard_exec (returning (claim_expiry claim id) (fun db => ex_lease_version <$> expiry_items db !! (bank, id))));
        shard_commit ;;
        mret (Some (MkExpiryItem id (ex_expiry_run_id e) bank (ex_card_id e) (ex_operation_id e) v (ex_automatic_retry_count e)))
    end).

(** [completeExpiryRun]: only when no item of the run is still open. *)
Definition complete_run (bank run : string) : sql shard_db Z :=
  update_run bank run
    (fun db r => (ru_status r == "processing")
       && negb (existsb (fun s => (s == "pending") || (s == "processing")) (run_item_statuses bank run db)))
    (fun env db r =>
       let count s := count_outcome (fun x => x == s) (run_item_statuses bank run db) in
       r <| ru_status := "completed" |> <| ru_expired_count := count "expired" |>
         <| ru_skipped_already_expired_count := count "skipped_already_expired" |>
         <| ru_manual_retry_required_count := count "manual_retry_required" |>
         <| ru_completed_at := Some (clock_timestamp env) |>).

Definition completeExpiryRun (bank run : string) : M unit := shard_exec (complete_run bank run) ;; mret tt.

(** The expired leases, and the runs of their items (RETURNING). *)
Definition recover_expiry (bank : string) : sql shard_db (list string) := fun env db =>
  let expired := filter (fun p => ex_status p.2 = "processing" /\ reached (clock_timestamp env) (ex_lease_expires_at p.2) = true)
                   (unlocked env (bank_rows bank (expiry_items db))) in
  match each_row (fun id => update_expiry_row bank id (fun _ _ _ => true) (fun env e =>
          e <| ex_status := if 3 <=? ex_automatic_retry_count e then "manual_retry_required" else "pending" |>
            <| ex_attempt_count := ex_attempt_count e + 1 |>
            <| ex_automatic_retry_count := ex_automatic_retry_count e + (if 3 <=? ex_automatic_retry_count e then 0 else 1) |>
            <| ex_lease_owner := None |> <| ex_lease_expires_at := None |>
            <| ex_lease_version := ex_lease_version e + 1 |> <| ex_next_attempt_at := clock_timestamp env |>
            <| ex_failure_code := Some "expiry_failed" |>))
          (List.map fst expired) env db with
  | inl err => inl err
  | inr (_, db') => inr (List.map (fun p => ex_expiry_run_id p.2) expired, db')
  end.

Definition RecoverExpiryItems (claim : Claim) : M Z :=
  let bank := Claim_BankID claim in
  beginTenant bank ;;
  with_defer shard_rollback (
    runs ← wrap "recover expiry leases" (shard_exec (recover_expiry bank));
    mapM_ (completeExpiryRun bank) runs ;;
    shard_commit ;;
    mret (Z.of_nat (length runs))).

(** [verifyExpiryLease]. *)
Definition verifyExpiryLease (item : ExpiryItem) (owner : string) : M unit :=
  exists_ ← shard_exec (query (fun env db =>
    match expiry_items db !! (ExpiryItem_BankID item, ExpiryItem_ID item) with
    | Some e => holds_expiry_lease owner (ExpiryItem_LeaseVersion item) env e
    | None => false
    end));
  if exists_ : bool then mret tt else throw ErrStale.

Definition expire_card (item : ExpiryItem) (owner status : string) : M unit :=
  let bank := ExpiryItem_BankID item in
  shard_exec (update_card bank (ExpiryItem_CardID item) (fun _ => true) (fun env c =>
    c <| cd_status := "expired" |> <| cd_expires_at := Some (default (clock_timestamp env) (cd_expires_at c)) |>
      <| cd_version := cd_version c + 1 |>)) ;;
  shard_exec (insert_history bank (ExpiryItem_CardID item) (ExpiryItem_OperationID item) status "expired"
    "scheduled expiry" (system_by owner)).

Definition finish_expiry_item (item : ExpiryItem) (owner result_ : string) : sql shard_db Z :=
  update_expiry_row (ExpiryItem_BankID item) (ExpiryItem_ID item)
    (fun env _ e => holds_expiry_lease owner (ExpiryItem_LeaseVersion item) env e) (fun env e =>
    e <| ex_status := result_ |> <| ex_attempt_count := ex_attempt_count e + 1 |>
      <| ex_lease_owner := None |> <| ex_lease_expires_at := None |> <| ex_failure_code := None |>).

(** [ApplyExpiryItem] between the start of its transaction and its commit. *)
Definition apply_expiry (item : ExpiryItem) (owner : string) : M unit :=
  let bank := ExpiryItem_BankID item in
  verifyExpiryLease item owner ;;
  status ← row (shard_exec (query (fun _ db => cd_status <$> cards db !! (bank, ExpiryItem_CardID item))));
  result_ ←
    (if status == "expired" then mret "skipped_already_expired"
     else
       let '(_, valid, _) := Lifecycle.Transition status "expire" in
       if negb valid then throw (ErrMsg "invalid expiry transition")
       else expire_card item owner status ;; mret "expired");
  shard_exec (update_operation bank (ExpiryItem_OperationID item) (fun _ => true) (fun env o =>
    o <| op_status := "succeeded" |> <| op_executor_identity := Some owner |>
      <| op_completed_at := Some (clock_timestamp env) |>)) ;;
  shard_exec (fun env db => insert_audit bank "card.expire" "card" (ExpiryItem_CardID item) "succeeded"
    (gen_random_uuid env 0) (system_by owner) (JObj []) env db) ;;
  n ← shard_exec (finish_expiry_item item owner result_);
  expect_one n ;;
  completeExpiryRun bank (ExpiryItem_RunID item).

Definition ApplyExpiryItem (item : ExpiryItem) (owner : string) : M unit :=
  beginTenant (ExpiryItem_BankID item) ;;
  with_defer shard_rollback (apply_expiry item owner ;; shard_commit).

Definition requeue_expiry (item : ExpiryItem) (owner status : string) (delay : Z) : sql shard_db Z :=
  update_expiry_row (ExpiryItem_BankID item) (ExpiryItem_ID item)
    (fun env _ e => holds_expiry_lease owner (ExpiryItem_LeaseVersion item) env e) (fun env e =>
    e <| ex_status := status |> <| ex_attempt_count := ex_attempt_count e + 1 |>
      <| ex_automatic_retry_count := ex_automatic_retry_count e + (if status == "pending" then 1 else 0) |>
      <| ex_lease_owner := None |> <| ex_lease_expires_at := None |>
      <| ex_next_attempt_at := clock_timestamp env + delay |> <| ex_failure_code := Some "expiry_failed" |>).

Definition RequeueExpiryItem (item : ExpiryItem) (owner : string) (delay : Z) : M unit :=
  let bank := ExpiryItem_BankID item in
  beginTenant bank ;;
  with_defer shard_rollback ((
    let status := if 3 <=? ExpiryItem_AutomaticRetry item then "manual_retry_required" else "pending" in
    n ← shard_exec (requeue_expiry item owner status delay);
    expect_one n ;;
    completeExpiryRun bank (ExpiryItem_RunID item)) ;;
    shard_commit).

Definition FailExpiryItem (item : ExpiryItem) (owner : string) : M unit := RequeueExpiryItem item owner second.
