(* ===== verification/Idempotency.v ===== *)
(** * Idempotency: keyed fingerprints and the records that carry them

    [internal/idempotency/fingerprint.go]. HMAC-SHA-256 is the parameter
    [hmac]: a key and a payload to a digest.  Then what a first claim of a key
    and its completion do to the idempotency table, for the services whose
    commands answer a repetition from it. *)

From S2P Require Import Prelude Json Domain Stores World ShardTx.
Open Scope string_scope.
Open Scope list_scope.
Open Scope Z_scope.

Definition minimumKeyLength : nat := 32.

Record Fingerprinter := MkFingerprinter { fp_key : string }.

Definition NewFingerprinter (key : string) : result Fingerprinter :=
  if (String.length key <? minimumKeyLength)%nat then
    inl (ErrMsg "idempotency HMAC key must be at least 32 bytes")
  else inr (MkFingerprinter key).

Definition Fingerprint (hmac : string -> string -> string) (f : Fingerprinter) (payload : string) : string :=
  hmac (fp_key f) payload.

(** ** The record a shard command leaves *)

(** A record written twice is written once. *)
Lemma idem_again k (r r' : idem_row) db :
  (db <| idem ::= <[k := r]> |>) <| idem ::= <[k := r']> |> = db <| idem ::= <[k := r']> |>.
Proof. destruct db. unfold set_field. cbn. f_equal. apply insert_insert_eq. Qed.

Section Replies.
Context (hmac : string -> string -> string) (fp : Fingerprinter).

(** The record [r] answers repetitions of [body] with [status] and [raw]. *)
Definition answers (body : string) (status : Z) (raw : json) (r : idem_row) : Prop :=
  id_request_fingerprint r = Fingerprint hmac fp body /\ id_status r = "succeeded" /\
  id_response_status r = Some status /\ id_response_body r = Some (jsonb raw).

(** The claim of a key nobody used. *)
Lemma first_claim bank scope key body t expires w db x w' :
  w_shard_tx w = Some db -> idem db !! (bank, scope, key) = None ->
  ClaimIdempotency (MkShardIdempotencyClaim bank scope key (Fingerprint hmac fp body) t expires) w = (inr x, w') ->
  ShardIdempotencyReplay_Found x = false /\
  exists r, w_shard_tx w' = Some (db <| idem ::= <[(bank, scope, key) := r]> |>) /\
    id_request_fingerprint r = Fingerprint hmac fp body /\ id_id r = ShardIdempotencyReplay_RecordID x.
Proof.
  intros Hdb Hn Hq. assert (Hf : ShardIdempotencyReplay_Found x = false).
  { eapply (claim_new (MkShardIdempotencyClaim _ _ _ _ _ _) _ _ _ _ Hdb); [|exact Hq]. exact Hn. }
  split; [done|].
  apply (claim_fresh _ _ _ _ _ Hdb) in Hq as (db' & Htx & r & -> & ? & ? & _); [|done].
  exists r. split; [exact Htx|]. done.
Qed.

(** The completion of a claimed key. *)
Lemma finished_reply bank scope key st raw res user w db r body w' :
  w_shard_tx w = Some db -> idem db !! (bank, scope, key) = Some r ->
  id_request_fingerprint r = Fingerprint hmac fp body ->
  FinishIdempotency bank scope key st raw res user w = (inr tt, w') ->
  exists r', w_shard_tx w' = Some (db <| idem ::= <[(bank, scope, key) := r']> |>) /\ answers body st raw r' /\ id_id r' = id_id r.
Proof.
  intros Hdb Hr Hfp H1. unfold FinishIdempotency in H1. cbv zeta in H1.
  apply (exec_tx _ _ _ _ _ Hdb) in H1 as (env & db1 & Hf & Htx & _).
  destruct (finish_record _ _ _ _ _ _ _ _ _ _ _ _ Hf Hr) as (r' & -> & ? & ? & ? & ? & ? & ?).
  exists r'. split; [done|]. split; [|done]. unfold answers. repeat split; congruence.
Qed.
End Replies.
