(* ===== verification/AuthTypes.v ===== *)
(** * AuthTypes: identities and records of the authentication domain

    [internal/auth/types.go], [repository.go] and the [UserRecord] of
    [service.go]. *)

From S2P Require Import Prelude.
Open Scope string_scope.
Open Scope list_scope.
Open Scope Z_scope.

Record UserSummary := MkUserSummary { sum_Username : string; sum_Status : string; sum_Role : string }.

Record Claims := MkClaims {
  claims_UserSummary : UserSummary;
  claims_UserID : string;
  claims_SessionID : string;
  claims_EntityID : string
}.

Record Principal := MkPrincipal {
  Principal_UserID : string;
  Principal_Username : string;
  Principal_Role : string;
  Principal_EntityID : string
}.

(** [Claims.Principal]. *)
Definition claims_Principal (c : Claims) : Principal :=
  MkPrincipal (claims_UserID c) (sum_Username (claims_UserSummary c)) (sum_Role (claims_UserSummary c)) (claims_EntityID c).

Record TokenResponse := MkTokenResponse {
  tr_AccessToken : string;
  tr_TokenType : string;
  tr_ExpiresAt : string;
  tr_User : UserSummary
}.

Record RefreshLookup := MkRefreshLookup { rl_TokenID : string; rl_SessionID : string; rl_UserID : string }.
Record SessionRecord := MkSessionRecord {
  sr_ID : string; sr_AuthVersion : Z; sr_ExpiresAt : Z; sr_Revoked : bool
}.
Record RefreshTokenRecord := MkRefreshTokenRecord { rt_ID : string; rt_ExpiresAt : Z; rt_Consumed : bool }.
Record AuditEvent := MkAuditEvent {
  ae_EventType : string; ae_Outcome : string; ae_ActorID : string; ae_SubjectID : string; ae_EntityID : string;
  ae_SessionID : string; ae_RequestID : string; ae_Details : option (list (string * string))
}.

Record UserRecord := MkUserRecord {
  ur_ID : string; ur_Username : string; ur_PasswordHash : string; ur_Role : string; ur_EntityID : string;
  ur_Status : string; ur_AuthVersion : Z
}.

(** [UserRecord.summary]. *)
Definition summary (u : UserRecord) : UserSummary := MkUserSummary (ur_Username u) (ur_Status u) (ur_Role u).

(** [actorEntityID], written in the packages card, batch and catalog: only a
    bank operator acts for its bank. *)
Definition actorEntityID (p : Principal) : string :=
  if Principal_Role p == "bank_operator" then Principal_EntityID p else "".
