(* ===== verification/Scenario.v ===== *)
(** * Scenario: a concrete bank

    A small shard, a quiet world on it and the parameters of the development
    instantiated, for the witnesses: the hypotheses of a theorem are discharged
    here by evaluation. *)

From stdpp Require Import pretty.
From S2P Require Import Prelude Json Domain Stores Uuid Vault World ShardTx Guards ExecutorStore Idempotency AuthTypes.
Open Scope string_scope.
Open Scope list_scope.
Open Scope Z_scope.

(** A stand-in for HMAC-SHA-256, and a fingerprinter with a key of 32 bytes. *)
Definition toy_hmac (key payload : string) : string := key +:+ ":" +:+ payload.
Definition toy_fp : Fingerprinter := MkFingerprinter "0123456789abcdef0123456789abcdef".

Definition toy_uuid (drawn n : nat) : string := "uuid-" +:+ pretty drawn +:+ "-" +:+ pretty n.
Definition toy_bytes (b : Z) : list Z := List.map (fun i => (b + Z.of_nat i) mod 256) (seq 0 16).

Definition mk_card (status : string) (pan predecessor : option string) (expires : option Z) : card_row :=
  CardRow "client" "account" "product" status pan predecessor (Some 5) None None None expires 1 5 5 "user" "user".
Definition mk_operation (card action role : string) : operation_row :=
  OperationRow card action "queued" "reason" (Some "user") role None None "request" None None None None 5 5 (Some "user")
    (Some "user").
Definition mk_batch (target status : string) (count : Z) : batch_row :=
  BatchRow target "reason" "user" "issuer_operator" None "request" "record" status count 0 0 0 0 None None 0 None None None
    None None 5 5 "user" "user".

(** A bank with an issued card, an active one, an active one that is about to
    expire and the issued replacement of the active one; a queued batch that
    activates the replacement and the issued card and finds the third active. *)
Definition bank1 : string := "bank-1".
Definition toy_shard : shard_db :=
  empty_shard
    <| entities := {[ bank1 := EntityRow "REF" "Bank" "active" 1 1 "user" "user" ]} |>
    <| clients := {[ (bank1, "client") := ClientRow "ext" None 1 1 "user" "user" ]} |>
    <| accounts := {[ (bank1, "account") := AccountRow "client" "ext" 1 1 "user" "user" ]} |>
    <| products := {[ (bank1, "product") := ProductRow "code" "Product" "active" (JObj []) 1 1 1 "user" "user" ]} |>
    <| cards := list_to_map
         [((bank1, "card-1"), mk_card "issued" (Some "400000******0001") None None);
          ((bank1, "card-2"), mk_card "active" (Some "400000******0002") None None);
          ((bank1, "card-3"), mk_card "active" (Some "400000******0003") None (Some (day / 2)));
          ((bank1, "card-4"), mk_card "issued" (Some "400000******0004") (Some "card-2") None)] |>
    <| operations := list_to_map
         [((bank1, "op-1"), mk_operation "card-1" "activate" "issuer_operator");
          ((bank1, "op-3"), mk_operation "card-3" "activate" "issuer_operator");
          ((bank1, "op-4"), mk_operation "card-4" "activate" "issuer_operator")] |>
    <| batches := {[ (bank1, "batch-1") := mk_batch "active" "queued" 3 ]} |>
    <| batch_items := list_to_map
         [((bank1, "item-1"), ItemRow "batch-1" "card-1" "op-1" None "pending" None);
          ((bank1, "item-3"), ItemRow "batch-1" "card-3" "op-3" None "pending" None);
          ((bank1, "item-4"), ItemRow "batch-1" "card-4" "op-4" None "pending" None)] |>.

Definition toy_world (db : shard_db) (clock : Z) : world :=
  World db None empty_control None empty_vault clock 0 [] [] [toy_bytes 1; toy_bytes 20; toy_bytes 40; toy_bytes 60]
    toy_uuid 0 ∅.

Definition toy_principal : Principal := MkPrincipal "user" "operator" "issuer_operator" "".

(** A run by its result. *)
Lemma run_result {A} (x : result A * world) r : x.1 = r -> x = (r, x.2).
Proof. destruct x. cbn. by intros ->. Qed.

(** The claim of the batch, and what it returns. *)
Definition toy_claim : Claim := MkClaim bank1 "worker-1" 1000.
Definition toy_batch : Batch :=
  MkBatch "batch-1" bank1 "active" "reason" "user" "issuer_operator" "" "request" 3 1 1.
Definition claimed_world : world := (ClaimBatch toy_claim (toy_world toy_shard 100)).2.

Example claim_batch_1 : (ClaimBatch toy_claim (toy_world toy_shard 100)).1 = inr (Some toy_batch).
Proof. by vm_compute. Qed.
Example apply_batch_1 :
  let w' := (ApplyBatch toy_batch "worker-1" claimed_world).2 in
  (ApplyBatch toy_batch "worker-1" claimed_world).1 = inr tt /\
  (cd_status <$> cards (w_shard w') !! (bank1, "card-1")) = Some "active" /\
  (cd_status <$> cards (w_shard w') !! (bank1, "card-4")) = Some "active" /\
  (ba_ignored_count <$> batches (w_shard w') !! (bank1, "batch-1")) = Some 1.
Proof. by vm_compute. Qed.
