(* ===== verification/ExecutorSafety.v ===== *)
(** * ExecutorSafety: leases fence, and outcomes are final

    Every operation of the executor moves the shard along [shard_le]: a batch
    along its machine ([batch_le]) and an expiry item along its own
    ([expiry_le]), whatever faults it meets; so does a whole run of the system,
    in any interleaving of transactions of any number of executors. *)

From S2P Require Import Prelude Json Domain Stores Vault World ShardTx Guards ShardOrder ExecutorStore.
Open Scope string_scope.
Open Scope list_scope.
Open Scope Z_scope.

Ltac frame := frame_with ltac:(try solve [auto with frames shard]).

Section Frames.
Context (bank : string).
Abbreviation moves := (shard_moves (shard_le bank)).

Lemma moves_beginTenant b : frames moves (beginTenant b).
Proof. unfold beginTenant. frame. Qed.

Lemma sl_returning {A} (f : sql shard_db Z) (g : shard_db -> option A) :
  mono (shard_le bank) f -> mono (shard_le bank) (returning f g).
Proof.
  intros Hf env db a db'. unfold returning. destruct (f env db) as [|[n db1]] eqn:E; [done|].
  intros [= _ <-]. by eapply Hf.
Qed.
Lemma sl_claim_batch c id : Claim_BankID c = bank -> mono (shard_le bank) (claim_batch c id).
Proof. intros <-. unfold claim_batch. auto with shard. Qed.
Lemma sl_recover_batches : mono (shard_le bank) (recover_batches bank).
Proof. intros env db a db'. apply each_row_mono; [apply _|]. auto with shard. Qed.
Lemma sl_succeed_batch b o a i : Batch_BankID b = bank -> mono (shard_le bank) (succeed_batch b o a i).
Proof. intros <-. unfold succeed_batch. auto with shard. Qed.
Lemma sl_fail_batch b o c i : Batch_BankID b = bank -> mono (shard_le bank) (fail_batch b o c i).
Proof. intros <-. unfold fail_batch. auto with shard. Qed.
Lemma sl_fail_items b c : Batch_BankID b = bank -> mono (shard_le bank) (fail_items b c).
Proof. intros <- env db a db'. apply each_row_mono; [apply _|]. auto with shard. Qed.
Lemma sl_fail_operations b o c : Batch_BankID b = bank -> mono (shard_le bank) (fail_operations b o c).
Proof. intros <- env db a db'. apply each_row_mono; [apply _|]. auto with shard. Qed.

Lemma sl_upsert_run d o : mono (shard_le bank) (upsert_run bank d o).
Proof.
  intros env db a db'. unfold upsert_run. case_match eqn:E; [destruct p as [? [? ?]]|].
  - case_match eqn:Eu; [done|]. destruct p as [? ?]. intros [= _ <-]. by eapply sl_update_run.
  - case_match eqn:Ei; [done|]. intros [= _ <-]. apply insert_pk_inr in Ei as [Ei ->].
    apply sl_set_run. congruence.
Qed.
Lemma sl_schedule_operation (mk : sql_env -> sql_env -> operation_row) :
  mono (shard_le bank) (fun env db =>
    match insert_operation bank (gen_random_uuid env 0) (mk env) env db with
    | inl err => inl err
    | inr (_, db') => inr (Some (gen_random_uuid env 0), db')
    end).
Proof.
  intros env db a db'. case_match eqn:E; [done|]. destruct p as [? ?]. intros [= _ <-].
  by eapply sl_insert_operation.
Qed.
Lemma sl_claim_expiry c id : Claim_BankID c = bank -> mono (shard_le bank) (claim_expiry c id).
Proof. intros <-. unfold claim_expiry. auto with shard. Qed.
Lemma sl_recover_expiry : mono (shard_le bank) (recover_expiry bank).
Proof.
  intros env db a db'. unfold recover_expiry. case_match eqn:E; [done|]. destruct p as [? ?]. intros [= _ <-].
  revert E. apply each_row_mono; [apply _|]. auto with shard.
Qed.
Lemma sl_finish_expiry i o r : ExpiryItem_BankID i = bank -> mono (shard_le bank) (finish_expiry_item i o r).
Proof. intros <-. unfold finish_expiry_item. auto with shard. Qed.
Lemma sl_requeue_expiry i o r d : ExpiryItem_BankID i = bank -> mono (shard_le bank) (requeue_expiry i o r d).
Proof. intros <-. unfold requeue_expiry. auto with shard. Qed.
Lemma sl_complete_run r : mono (shard_le bank) (complete_run bank r).
Proof. unfold complete_run. auto with shard. Qed.
Lemma sl_audit_env a t r o who d (q : sql_env -> string) :
  mono (shard_le bank) (fun env db => insert_audit bank a t r o (q env) who d env db).
Proof. intros env db x db'. apply sl_insert_audit. Qed.
End Frames.
#[export] Hint Resolve moves_beginTenant sl_returning sl_claim_batch sl_recover_batches sl_succeed_batch sl_fail_batch
  sl_fail_items sl_fail_operations sl_upsert_run sl_schedule_operation sl_claim_expiry sl_recover_expiry
  sl_finish_expiry sl_requeue_expiry sl_complete_run sl_audit_env : shard.

(** ** Every operation *)

Abbreviation moves bank := (shard_moves (shard_le bank)).

Lemma moves_ClaimBatch c : frames (moves (Claim_BankID c)) (ClaimBatch c).
Proof. unfold ClaimBatch, select_batch_claim. frame. Qed.
Lemma moves_RecoverBatches c : frames (moves (Claim_BankID c)) (RecoverBatches c).
Proof. unfold RecoverBatches. frame. Qed.
Lemma moves_apply_items b o items : forall x y, frames (moves (Batch_BankID b)) (apply_items b o items x y).
Proof.
  induction items as [|i items IH]; intros x y; cbn [apply_items]; [frame|].
  unfold apply_ignored, apply_card, complete_operation, audit_batch_card, set_batch_card. frame.
Qed.
#[export] Hint Resolve moves_apply_items : shard.
Lemma moves_ApplyBatch b o : frames (moves (Batch_BankID b)) (ApplyBatch b o).
Proof. unfold ApplyBatch, verifyBatchLease, select_batch_cards, expect_one. frame. Qed.
Lemma moves_RequeueBatch b o c d : frames (moves (Batch_BankID b)) (RequeueBatch b o c d).
Proof. unfold RequeueBatch, updateBatchLease, expect_one. frame. Qed.
Lemma moves_FailBatch b o c : frames (moves (Batch_BankID b)) (FailBatch b o c).
Proof. unfold FailBatch, verifyBatchLease, expect_one. frame. Qed.
Lemma moves_EnsureExpiryRun bank t o : frames (moves bank) (EnsureExpiryRun bank t o).
Proof. unfold EnsureExpiryRun, schedule_card, select_expiring. frame. Qed.
Lemma moves_ClaimExpiryItem c : frames (moves (Claim_BankID c)) (ClaimExpiryItem c).
Proof. unfold ClaimExpiryItem, select_expiry_claim. frame. Qed.
Lemma moves_RecoverExpiryItems c : frames (moves (Claim_BankID c)) (RecoverExpiryItems c).
Proof. unfold RecoverExpiryItems, completeExpiryRun. frame. Qed.
Lemma moves_ApplyExpiryItem i o : frames (moves (ExpiryItem_BankID i)) (ApplyExpiryItem i o).
Proof. unfold ApplyExpiryItem, apply_expiry, verifyExpiryLease, expire_card, completeExpiryRun, expect_one. frame. Qed.
Lemma moves_RequeueExpiryItem i o d : frames (moves (ExpiryItem_BankID i)) (RequeueExpiryItem i o d).
Proof. unfold RequeueExpiryItem, completeExpiryRun, expect_one. frame. Qed.
Lemma moves_FailExpiryItem i o : frames (moves (ExpiryItem_BankID i)) (FailExpiryItem i o).
Proof. apply moves_RequeueExpiryItem. Qed.

(** ** Claims *)

Lemma earliest_mem {A} (at_ : A -> Z) l p : earliest at_ l = Some p -> p ∈ l.
Proof.
  revert p. induction l as [|q l IH]; intros p; cbn [earliest]; [done|].
  destruct (earliest at_ l) as [x|]; [case_match|]; intros [= <-]; rewrite elem_of_cons; auto.
Qed.
