(* ===== verification/ApplyBatchSpec.v ===== *)
(** * ApplyBatchSpec: what applying a batch does

    The effect of [ExecutorStore.ApplyBatch] as one transaction: every card of
    the batch ends in the target status by a valid transition, each applied
    card leaves one history row, and the batch's counts are exact. *)

From S2P Require Import Prelude Json Domain Stores Vault World ShardTx Guards ShardOrder ExecutorStore Scenario ExecutorSafety.
Open Scope string_scope.
Open Scope list_scope.
Open Scope Z_scope.

(** ** One item *)

Definition applied_items (items : list apply_item) : list apply_item :=
  filter (fun i => api_ignored i = false) items.

Lemma applied_cons i items : api_ignored i = false -> applied_items (i :: items) = i :: applied_items items.
Proof. intros H. unfold applied_items. by rewrite filter_cons_True. Qed.
Lemma applied_skip i items : api_ignored i = true -> applied_items (i :: items) = applied_items items.
Proof. intros H. unfold applied_items. rewrite filter_cons_False; [done|congruence]. Qed.

Definition item_line (target : string) (i : apply_item) := (api_cardID i, api_operationID i, api_status i, target).

(** The effect of the loop on the working copy. *)
Record items_applied (batch : Batch) (items : list apply_item) (db db' : shard_db) : Prop := ItemsApplied {
  ia_batches : batches db' = batches db;
  ia_others : forall k, k ∉ List.map (fun i => (Batch_BankID batch, api_cardID i)) (applied_items items) ->
    cards db' !! k = cards db !! k;
  ia_cards : forall i c, i ∈ applied_items items -> cards db !! (Batch_BankID batch, api_cardID i) = Some c ->
    exists c', cards db' !! (Batch_BankID batch, api_cardID i) = Some c' /\ card_le c c' /\
      cd_status c' = Batch_TargetStatus batch /\ cd_version c < cd_version c';
  ia_history : exists l, history db' = history db ++ l /\
    List.map history_line l = List.map (item_line (Batch_TargetStatus batch)) (applied_items items)
}.

(** Membership in explicit lists. *)
Ltac mem := rewrite ?not_elem_of_cons, ?elem_of_cons, ?elem_of_nil in *; intuition (congruence || eauto).

Lemma apply_ignored_tx batch owner i w db w' :
  w_shard_tx w = Some db -> apply_ignored batch owner i w = (inr tt, w') ->
  exists db', w_shard_tx w' = Some db' /\ batches db' = batches db /\ cards db' = cards db /\ history db' = history db.
Proof.
  intros Hdb H. unfold apply_ignored, complete_operation, audit_batch_card in H.
  apply bind_inr in H as (? & w1 & H1 & H). apply bind_inr in H as (? & w2 & H2 & H3).
  run_exec H1 db. run_exec H2 db0. run_exec H3 db1.
  apply update_item_tables in Hf as (?&?&?). apply update_operation_tables in Hf0 as (?&?&?).
  apply insert_audit_tables in Hf1 as (?&?&?).
  eexists. split; [eassumption|]. repeat split; congruence.
Qed.

Lemma apply_card_tx batch owner i w db w' :
  api_ignored i = false ->
  w_shard_tx w = Some db -> apply_card batch owner i w = (inr tt, w') ->
  exists db', w_shard_tx w' = Some db' /\ items_applied batch [i] db db'.
Proof.
  intros Hi Hdb H. unfold apply_card, complete_operation, audit_batch_card in H.
  apply bind_inr in H as (? & w1 & H1 & H). rewrite wrap_inr in H1.
  apply bind_inr in H as (? & w2 & H2 & H). apply bind_inr in H as (? & w3 & H3 & H).
  apply bind_inr in H as (? & w4 & H4 & H5).
  run_exec H1 db. run_exec H2 db0. run_exec H3 db1. run_exec H4 db2. run_exec H5 db3.
  apply update_card_tables in Hf as (Hb&Hh&Hc&Hs&Hn).
  apply update_operation_tables in Hf0 as (?&Hc0&?).
  apply insert_history_tables in Hf1 as (?&Hc1&h&Hh1&Hline).
  apply update_item_tables in Hf2 as (?&Hc2&?). apply insert_audit_tables in Hf3 as (?&Hc3&?).
  eexists. split; [eassumption|].
  assert (Hcards : cards db4 = cards db0) by congruence.
  split; rewrite ?applied_cons by done; cbn.
  - congruence.
  - intros k Hk. rewrite Hcards. apply Hc. mem.
  - intros i' c Hi' Hcard. assert (i' = i) as -> by mem.
    pose proof (Hs c Hcard eq_refl) as Hnew. rewrite Hcards, Hnew. eexists. split; [reflexivity|].
    assert (Hv : cd_version c < cd_version c + 1) by lia.
    split; [|split; [done|exact Hv]].
    split; [done|]. split; [done|]. right. exact Hv.
  - exists [h]. split; [congruence|]. cbn. by rewrite Hline.
Qed.

Lemma items_applied_nil batch db : items_applied batch [] db db.
Proof.
  split; [done|done|intros i c Hi; by apply elem_of_nil in Hi|]. exists []. by rewrite app_nil_r.
Qed.
Lemma items_applied_skip batch i items db db1 db' :
  api_ignored i = true -> batches db1 = batches db -> cards db1 = cards db -> history db1 = history db ->
  items_applied batch items db1 db' -> items_applied batch (i :: items) db db'.
Proof.
  intros Hi Hb Hc Hh []. split; rewrite ?applied_skip by done; rewrite <- ?Hb, <- ?Hc, <- ?Hh; done.
Qed.
Lemma items_applied_cons batch i items db db1 db' :
  api_ignored i = false -> items_applied batch [i] db db1 -> items_applied batch items db1 db' ->
  items_applied batch (i :: items) db db'.
Proof.
  intros Hi [B1 O1 C1 (l1 & H1 & L1)] [B2 O2 C2 (l2 & H2 & L2)].
  rewrite (applied_cons i []) in O1, C1, L1 by done. cbn in O1, C1, L1.
  split; rewrite ?(applied_cons i items) by done; cbn.
  - congruence.
  - intros k Hk. rewrite O2 by mem. apply O1. mem.
  - intros j c Hj Hc.
    assert (Hstep : exists c1, cards db1 !! (Batch_BankID batch, api_cardID j) = Some c1 /\ card_le c c1 /\
      (c1 = c \/ cd_status c1 = Batch_TargetStatus batch /\ cd_version c < cd_version c1)).
    { destruct (decide (api_cardID j = api_cardID i)) as [He|He].
      - rewrite He in *. destruct (C1 i c ltac:(mem) Hc) as (c1 & ? & ? & ? & ?). eauto 10.
      - exists c. rewrite O1; [|mem]. split; [done|]. split; [reflexivity|by left]. }
    destruct Hstep as (c1 & Hc1 & Hle & Hcase).
    destruct (decide ((Batch_BankID batch, api_cardID j) ∈
      List.map (fun i => (Batch_BankID batch, api_cardID i)) (applied_items items))) as [Hin|Hout].
    + apply list_elem_of_In, in_map_iff in Hin as (j' & He & Hj'). injection He as He.
      apply list_elem_of_In in Hj'. rewrite <- He in Hc1.
      destruct (C2 j' c1 Hj' Hc1) as (c' & Hc' & Hle' & Hst & Hv). rewrite He in Hc'.
      exists c'. split; [done|]. split; [by etrans|]. split; [done|].
      destruct Hle as (_ & _ & [->|Hlt]); lia.
    + rewrite O2 by done. exists c1. split; [done|]. split; [done|].
      destruct Hcase as [->|[? ?]]; [|done].
      exfalso. apply Hout. apply list_elem_of_In, in_map_iff.
      apply elem_of_cons in Hj as [->|Hj]; [|exists j; split; [done|by apply list_elem_of_In]].
      exfalso. destruct (C1 i c ltac:(mem) Hc) as (c' & Hc' & _ & _ & Hv).
      rewrite Hc1 in Hc'. injection Hc' as <-. lia.
  - exists (l1 ++ l2). rewrite H2, H1, app_assoc. split; [done|]. rewrite map_app, L1, L2. done.
Qed.

(** ** The loop, the scan, and the transaction *)

Definition count_where (p : apply_item -> bool) (items : list apply_item) : Z :=
  Z.of_nat (length (filter (fun i => p i = true) items)).

Lemma apply_items_tx batch owner items : forall w db x y r w',
  w_shard_tx w = Some db -> apply_items batch owner items x y w = (inr r, w') ->
  exists db', w_shard_tx w' = Some db' /\ items_applied batch items db db' /\
    r = (x + Z.of_nat (length (applied_items items)), y + count_where api_ignored items).
Proof.
  induction items as [|i items IH]; intros w db x y r w' Hdb H; cbn [apply_items] in H.
  - apply ret_inr in H as [<- <-]. exists db. split; [done|]. split; [apply items_applied_nil|]. unfold count_where. cbn. f_equal; lia.
  - unfold count_where. destruct (api_ignored i) eqn:Hi; apply bind_inr in H as ([] & w1 & H1 & H).
    + apply (apply_ignored_tx _ _ _ _ db) in H1 as (db1 & Hdb1 & Hb & Hc & Hh); [|done].
      apply (IH _ db1) in H as (db' & Hdb' & Hspec & ->); [|done].
      exists db'. split; [done|]. split; [by eapply items_applied_skip|].
      rewrite applied_skip, filter_cons_True by done. unfold count_where. cbn. f_equal; lia.
    + apply (apply_card_tx _ _ _ _ db) in H1 as (db1 & Hdb1 & Hspec1); [|done..].
      apply (IH _ db1) in H as (db' & Hdb' & Hspec & ->); [|done].
      exists db'. split; [done|]. split; [by eapply items_applied_cons|].
      rewrite applied_cons, filter_cons_False by (done || congruence). unfold count_where. cbn. f_equal; lia.
Qed.

(** The scan keeps the rows in order and checks every transition. *)
Lemma scan_batch_cards_spec target rows items :
  scan_batch_cards target rows = inr items ->
  items = List.map (fun r => ApplyItem r.1.1 (it_card_id r.1.2) (it_operation_id r.1.2) r.2 (r.2 == target)) rows /\
  Forall (fun r => r.2 = target \/ Lifecycle.CanTransition r.2 target = (true, false)) rows.
Proof.
  revert items. induction rows as [|[[id i] status] rest IH]; intros items; cbn [scan_batch_cards].
  - intros [= <-]. done.
  - destruct (Lifecycle.CanTransition status target) as [valid ignored] eqn:E. destruct valid; cbn [negb]; [|done].
    destruct (scan_batch_cards target rest) as [|its] eqn:Es; [done|]. intros [= <-].
    destruct (IH its eq_refl) as [-> Hrest]. cbn.
    unfold Lifecycle.CanTransition in E. destruct (status == target) eqn:Est.
    + injection E as <-. split; [done|]. constructor; [left; by apply String.eqb_eq|done].
    + pose proof (Lifecycle.can_transition_loop_ignored _ _ _ _ _ E) as ->.
      split; [done|]. constructor; [right; cbn; by rewrite Lifecycle.CanTransition_loop|done].
Qed.

Lemma joined_cards_spec bank batch db id i status :
  (id, i, status) ∈ joined_cards bank batch db <->
  batch_items db !! (bank, id) = Some i /\ it_batch_id i = batch /\
  exists c, cards db !! (bank, it_card_id i) = Some c /\ cd_status c = status.
Proof.
  unfold joined_cards. rewrite list_elem_of_In, in_concat. split.
  - intros (l & Hl & Hin). apply in_map_iff in Hl as ([cid c] & <- & Hc).
    apply in_map_iff in Hin as ([id' i'] & [= -> -> <-] & Hi).
    apply list_elem_of_In in Hc, Hi. apply list_elem_of_filter in Hi as [Hcard Hi]. cbn in *.
    apply items_of_batch_spec in Hi as [??]. apply bank_rows_spec in Hc. subst cid. eauto.
  - intros (Hi & Hb & c & Hc & <-). eexists. split.
    + apply in_map_iff. exists (it_card_id i, c). split; [reflexivity|].
      apply list_elem_of_In, bank_rows_spec, Hc.
    + apply in_map_iff. exists (id, i). split; [done|].
      apply list_elem_of_In, list_elem_of_filter. cbn. rewrite items_of_batch_spec. auto.
Qed.

(** The rows of a batch whose card is not in the target status yet. *)
Definition applied_rows (target : string) (rows : list (string * item_row * string)) :=
  filter (fun r => r.2 <> target) rows.
Definition row_line (target : string) (r : string * item_row * string) :=
  (it_card_id r.1.2, it_operation_id r.1.2, r.2, target).

(** The effect of applying a batch on the committed shard. *)
Record batch_applied (batch : Batch) (owner : string) (db db' : shard_db) : Prop := BatchApplied {
  bap_lease : exists row, batches db !! (Batch_BankID batch, Batch_ID batch) = Some row /\
    ba_status row = "processing" /\ ba_lease_owner row = Some owner /\
    ba_lease_version row = Batch_LeaseVersion batch;
  bap_row : exists row', batches db' !! (Batch_BankID batch, Batch_ID batch) = Some row' /\
    ba_status row' = "succeeded" /\ ba_lease_owner row' = None /\
    ba_applied_count row' = Z.of_nat (length (applied_rows (Batch_TargetStatus batch)
                                (joined_cards (Batch_BankID batch) (Batch_ID batch) db))) /\
    ba_applied_count row' + ba_ignored_count row' = ba_item_count row';
  bap_members : forall id i c, batch_items db !! (Batch_BankID batch, id) = Some i -> it_batch_id i = Batch_ID batch ->
    cards db !! (Batch_BankID batch, it_card_id i) = Some c ->
    (cd_status c = Batch_TargetStatus batch /\ cards db' !! (Batch_BankID batch, it_card_id i) = Some c) \/
    (Lifecycle.CanTransition (cd_status c) (Batch_TargetStatus batch) = (true, false) /\
     exists c', cards db' !! (Batch_BankID batch, it_card_id i) = Some c' /\ card_le c c' /\
       cd_status c' = Batch_TargetStatus batch /\ cd_version c < cd_version c');
  bap_others : forall k, (forall id i, batch_items db !! (Batch_BankID batch, id) = Some i ->
      it_batch_id i = Batch_ID batch -> k <> (Batch_BankID batch, it_card_id i)) ->
    cards db' !! k = cards db !! k;
  bap_history : exists l, history db' = history db ++ l /\
    List.map history_line l = List.map (row_line (Batch_TargetStatus batch))
      (applied_rows (Batch_TargetStatus batch) (joined_cards (Batch_BankID batch) (Batch_ID batch) db))
}.

Lemma applied_items_rows target rows :
  applied_items (List.map (fun r => ApplyItem r.1.1 (it_card_id r.1.2) (it_operation_id r.1.2) r.2 (r.2 == target)) rows) =
  List.map (fun r => ApplyItem r.1.1 (it_card_id r.1.2) (it_operation_id r.1.2) r.2 false) (applied_rows target rows).
Proof.
  induction rows as [|r rows IH]; [done|]. cbn [List.map]. unfold applied_rows.
  destruct (r.2 == target) eqn:E.
  - rewrite applied_skip, filter_cons_False; [done| |done]. apply String.eqb_eq in E. auto.
  - rewrite applied_cons, filter_cons_True; [|by apply String.eqb_neq in E|done]. cbn [List.map]. f_equal. exact IH.
Qed.

Lemma committed_apply_items batch owner items : forall x y, frames committed (apply_items batch owner items x y).
Proof.
  induction items as [|i items IH]; intros x y; cbn [apply_items];
    unfold apply_ignored, apply_card, complete_operation, audit_batch_card; frame_with ltac:(frame_leaf); auto.
Qed.
#[export] Hint Resolve committed_apply_items : frames.

(** Where the working copy of a successful run comes from. *)
Lemma ApplyBatch_tx batch owner w w1 counts w2 rows items n w3 w4 w5 :
  beginTenant (Batch_BankID batch) w = (inr tt, w1) ->
  verifyBatchLease batch owner w1 = (inr tt, w2) ->
  wrap "lock batch cards" (shard_exec (select_batch_cards (Batch_BankID batch) (Batch_ID batch))) w2 = (inr rows, w3) ->
  scan_batch_cards (Batch_TargetStatus batch) rows = inr items ->
  apply_items batch owner items 0 0 w3 = (inr counts, w4) ->
  shard_exec (succeed_batch batch owner counts.1 counts.2) w4 = (inr n, w5) -> n = 1 ->
  exists db', w_shard_tx w5 = Some db' /\ batch_applied batch owner (w_shard w) db'.
Proof.
  intros H1 H2 H3 Hscan H4 H5 ->.
  apply beginTenant_inr in H1 as (Htx & _).
  unfold verifyBatchLease in H2. apply bind_inr in H2 as (b & ? & H2 & Hb).
  run_exec H2 (w_shard w). injection Hf as Hf <-. destruct b; [|by apply throw_inr in Hb]. apply ret_inr in Hb as [_ ->].
  rewrite wrap_inr in H3. run_exec H3 (w_shard w). injection Hf0 as <- <-.
  apply scan_batch_cards_spec in Hscan as [-> Hvalid].
  apply (apply_items_tx _ _ _ _ (w_shard w)) in H4 as (db1 & Htx1 & Hspec & ->); [|done].
  apply (exec_tx _ _ db1) in H5 as (env5 & db5 & Hf5 & Htx5 & _ & _ & _ & _ & _); [|done].
  exists db5. split; [done|].
  destruct Hspec as [Sb So Sc Sh]. rewrite applied_items_rows in So, Sc, Sh.
  apply update_batch_one in Hf5 as (row & Hrow & Hwh & Hreq & Hg & ->).
  rewrite Sb in Hrow. unfold holds_batch_lease in Hwh.
  rewrite !andb_true_iff, String.eqb_eq, sql_eq_true, Z.eqb_eq in Hwh. destruct Hwh as [[[Hst Hown] Hver] _].
  apply guard_succeeded in Hg as (Ha & Hi & Hc & _); [|done..].
  set (rows := joined_cards (Batch_BankID batch) (Batch_ID batch) (w_shard w)) in *.
  split.
  - eauto.
  - cbn. rewrite lookup_insert_eq. eexists. split; [reflexivity|].
    cbn in Hc |- *. rewrite applied_items_rows, length_map in *. repeat split; try done; lia.
  - intros id i c Hid Hb Hcard. cbn.
    assert (Hin : (id, i, cd_status c) ∈ rows) by (apply joined_cards_spec; eauto).
    destruct (decide (cd_status c = Batch_TargetStatus batch)) as [He|He].
    + left. split; [done|]. rewrite So; [done|].
      rewrite List.map_map. intros (r & Hr & Hin')%list_elem_of_In%in_map_iff.
      apply list_elem_of_In, list_elem_of_filter in Hin' as [Hne Hin'].
      destruct r as [[id' i'] st']. apply joined_cards_spec in Hin' as (_ & _ & c' & Hc' & <-).
      cbn in *. injection Hr as Hr. rewrite Hr in Hc'. congruence.
    + right. rewrite Forall_forall in Hvalid. specialize (Hvalid _ Hin) as [Hv|Hv]; [done|]. split; [done|].
      apply (Sc (ApplyItem id (it_card_id i) (it_operation_id i) (cd_status c) false)); [|done].
      apply list_elem_of_In, in_map_iff. exists (id, i, cd_status c). split; [done|].
      apply list_elem_of_In, list_elem_of_filter. done.
  - intros k Hk. cbn. apply So. rewrite List.map_map. intros (r & <- & Hin')%list_elem_of_In%in_map_iff.
    apply list_elem_of_In, list_elem_of_filter in Hin' as [_ Hin']. destruct r as [[id i] st].
    apply joined_cards_spec in Hin' as (Hi' & Hb' & _). by apply (Hk id i).
  - destruct Sh as (l & Hl & Hm). exists l. split; [done|]. rewrite Hm, List.map_map. done.
Qed.

(** Either a run leaves the committed shard as it was, or it applied the batch:
    also when the commit succeeded and its reply was lost. *)
Lemma ApplyBatch_run batch owner w r w' :
  ApplyBatch batch owner w = (r, w') ->
  (r <> inr tt /\ w_shard w' = w_shard w) \/ batch_applied batch owner (w_shard w) (w_shard w').
Proof.
  intros H. unfold ApplyBatch in H.
  apply bind_run in H as [(e & -> & H)|([] & w1 & H1 & H)]; [left; kept H; done|].
  unfold with_defer in H. match type of H with context [let (_, _) := ?b in _] => destruct b as [r' w6] eqn:E end.
  injection H as <- <-. cbn.
  assert (Hs1 : w_shard w1 = w_shard w) by (kept H1; done).
  apply bind_run in E as [(e & -> & E)|([] & w2 & H2 & E)].
  { left. unfold verifyBatchLease in E. kept E. split; [done|congruence]. }
  pose proof H2 as H2'. unfold verifyBatchLease in H2'. kept H2'.
  apply bind_run in E as [(e & -> & E)|(rows & w3 & H3 & E)]; [left; kept E; split; [done|congruence]|].
  kept H3.
  apply bind_run in E as [(e & -> & E)|(items & w3' & H4 & E)]; [left; kept E; split; [done|congruence]|].
  injection H4 as Hscan <-.
  apply bind_run in E as [(e & -> & E)|(counts & w4 & H5 & E)]; [left; kept E; split; [done|congruence]|].
  kept H5.
  apply bind_run in E as [(e & -> & E)|(n & w5 & H6 & E)]; [left; kept E; split; [done|congruence]|].
  kept H6. unfold expect_one in E.
  destruct (n =? 1) eqn:En; [|injection E as <- <-; left; split; [done|congruence]].
  apply Z.eqb_eq in En. apply bind_run in E as [(e & -> & E)|([] & w5' & H7 & E)]; [discriminate E|].
  injection H7 as <-. pose proof (ApplyBatch_tx _ _ _ _ _ _ _ _ _ _ _ _ H1 H2 H3 Hscan H5 H6 En) as (db' & Htx & Hspec).
  unfold wrap in E. destruct (shard_commit w5) as [rc w7] eqn:Ec.
  destruct rc as [e|[]]; injection E as <- <-.
  - apply commit_run in Ec as [Hc|(db & Hdb & Hc)]; [left; split; [done|congruence]|right].
    rewrite Hc. assert (db = db') as -> by congruence. done.
  - right. apply commit_inr in Ec as (db & Hdb & -> & _). assert (db = db') as -> by congruence. done.
Qed.

(** ** Properties *)

(** C1: Applying a batch is all or nothing.  Whatever faults the environment
    holds, a call that fails left the shard as it was, or it lost only the reply
    of its commit; and when the batch was applied, its worker held the lease,
    every card of the batch that exists stood in the target status already or
    moved to it by an allowed, not ignored transition with a greater version, no
    other card of the shard changed, the history gained exactly one line per
    moved card, and the batch is succeeded with exact counts. *)
Theorem ApplyBatch_all_or_nothing batch owner w :
  let (r, w') := ApplyBatch batch owner w in
  (r <> inr tt /\ w_shard w' = w_shard w) \/ batch_applied batch owner (w_shard w) (w_shard w').
Proof. destruct (ApplyBatch batch owner w) as [r w'] eqn:E. by eapply ApplyBatch_run. Qed.

(** A batch that activates an issued replacement leaves the card it replaces
    as it is, when that card is not itself in the batch. *)
Theorem ApplyBatch_leaves_predecessor batch owner w w' id i c p
    (Hrun : ApplyBatch batch owner w = (inr tt, w'))
    (Htarget : Batch_TargetStatus batch = "active")
    (Hitem : batch_items (w_shard w) !! (Batch_BankID batch, id) = Some i) (Hin : it_batch_id i = Batch_ID batch)
    (Hcard : cards (w_shard w) !! (Batch_BankID batch, it_card_id i) = Some c)
    (Hissued : cd_status c = "issued") (Hpred : cd_predecessor_card_id c = Some p)
    (Hout : forall id' i', batch_items (w_shard w) !! (Batch_BankID batch, id') = Some i' ->
       it_batch_id i' = Batch_ID batch -> it_card_id i' <> p) :
  (exists c', cards (w_shard w') !! (Batch_BankID batch, it_card_id i) = Some c' /\
     cd_status c' = "active" /\ cd_predecessor_card_id c' = Some p) /\
  cards (w_shard w') !! (Batch_BankID batch, p) = cards (w_shard w) !! (Batch_BankID batch, p).
Proof.
  apply ApplyBatch_run in Hrun as [[? _]|[_ _ Hm Ho _]]; [done|]. split.
  - destruct (Hm _ _ _ Hitem Hin Hcard) as [[Hs _]|(_ & c' & Hc' & (Hid & _) & Hs & _)]; [congruence|].
    exists c'. split; [done|]. split; [congruence|]. unfold card_identity in Hid. congruence.
  - apply Ho. intros id' i' H1 H2 [=]. by eapply Hout.
Qed.
Lemma ApplyBatch_leaves_predecessor_witness :
  let w' := (ApplyBatch toy_batch "worker-1" claimed_world).2 in
  (exists c', cards (w_shard w') !! (bank1, "card-4") = Some c' /\ cd_status c' = "active" /\
     cd_predecessor_card_id c' = Some "card-2") /\
  cards (w_shard w') !! (bank1, "card-2") = cards (w_shard claimed_world) !! (bank1, "card-2").
Proof.
  refine (ApplyBatch_leaves_predecessor toy_batch "worker-1" claimed_world (ApplyBatch toy_batch "worker-1" claimed_world).2
    "item-4" (ItemRow "batch-1" "card-4" "op-4" None "pending" None)
    (mk_card "issued" (Some "400000******0004") (Some "card-2") None) "card-2" _ eq_refl _ eq_refl _ eq_refl eq_refl _).
  - apply run_result. by vm_compute.
  - by vm_compute.
  - by vm_compute.
  - intros id' i' H _. pose proof (proj2 (bank_rows_spec bank1 (batch_items (w_shard claimed_world)) id' i') H) as Hi.
    clear H. vm_compute in Hi. repeat (apply elem_of_cons in Hi as [[= -> ->]|Hi]; [done|]). by apply elem_of_nil in Hi.
Defined.
