(* ===== verification/ExecutorSystem.v ===== *)
(** * ExecutorSystem: any number of executors, any interleaving

    A step of the system is one call of an executor's store, with whatever
    faults its environment holds, or a transaction of the API or a change of
    the environment, of which only [shard_le] is known.  Transactions are the
    atoms: row locks and the conditions on leases make them serial. *)

From S2P Require Import Prelude Json Domain Stores Vault World ShardTx Guards ShardOrder ExecutorStore Scenario ExecutorSafety ApplyBatchSpec.
Open Scope string_scope.
Open Scope list_scope.
Open Scope Z_scope.

Inductive exec_call :=
  | CallClaimBatch (c : Claim)
  | CallRecoverBatches (c : Claim)
  | CallApplyBatch (b : Batch) (owner : string)
  | CallRequeueBatch (b : Batch) (owner code : string) (delay : Z)
  | CallFailBatch (b : Batch) (owner code : string)
  | CallEnsureExpiryRun (bank : string) (today : Z) (owner : string)
  | CallClaimExpiryItem (c : Claim)
  | CallRecoverExpiryItems (c : Claim)
  | CallApplyExpiryItem (i : ExpiryItem) (owner : string)
  | CallRequeueExpiryItem (i : ExpiryItem) (owner : string) (delay : Z)
  | CallFailExpiryItem (i : ExpiryItem) (owner : string).

(** The world after a call. *)
Definition after (c : exec_call) (w : world) : world :=
  match c with
  | CallClaimBatch c => (ClaimBatch c w).2
  | CallRecoverBatches c => (RecoverBatches c w).2
  | CallApplyBatch b o => (ApplyBatch b o w).2
  | CallRequeueBatch b o c d => (RequeueBatch b o c d w).2
  | CallFailBatch b o c => (FailBatch b o c w).2
  | CallEnsureExpiryRun b t o => (EnsureExpiryRun b t o w).2
  | CallClaimExpiryItem c => (ClaimExpiryItem c w).2
  | CallRecoverExpiryItems c => (RecoverExpiryItems c w).2
  | CallApplyExpiryItem i o => (ApplyExpiryItem i o w).2
  | CallRequeueExpiryItem i o d => (RequeueExpiryItem i o d w).2
  | CallFailExpiryItem i o => (FailExpiryItem i o w).2
  end.

Definition call_bank (c : exec_call) : string :=
  match c with
  | CallClaimBatch c | CallRecoverBatches c | CallClaimExpiryItem c | CallRecoverExpiryItems c => Claim_BankID c
  | CallApplyBatch b _ | CallRequeueBatch b _ _ _ | CallFailBatch b _ _ => Batch_BankID b
  | CallEnsureExpiryRun b _ _ => b
  | CallApplyExpiryItem i _ | CallRequeueExpiryItem i _ _ | CallFailExpiryItem i _ => ExpiryItem_BankID i
  end.

(** A run of the system and the log of its calls, each with the worlds before
    and after it. *)
Inductive steps : world -> list (world * exec_call * world) -> world -> Prop :=
  | steps_nil w : steps w [] w
  | steps_call w log w1 c :
      steps w log w1 -> steps w (log ++ [(w1, c, after c w1)]) (after c w1)
  | steps_other w log w1 w2 bank :
      steps w log w1 -> shard_le bank (w_shard w1) (w_shard w2) -> w_shard_tx w2 = None ->
      w_clock w1 <= w_clock w2 -> steps w log w2.

(** ** Calls keep the order and close their transaction *)

Lemma tenant_closes {A} bank (m : M A) w r w' :
  w_shard_tx w = None -> (beginTenant bank ;; with_defer shard_rollback m) w = (r, w') -> w_shard_tx w' = None.
Proof.
  intros Hn H. apply bind_run in H as [(e & -> & H)|([] & w1 & H1 & H)].
  - unfold beginTenant in H. apply bind_run in H as [(e' & _ & H)|([] & w1 & H1 & H)].
    + unfold wrap, shard_begin, pop_event in H. repeat case_match; simplify_eq/=; done.
    + apply bind_run in H as [(e' & _ & H)|(x & w2 & H2 & H)].
      { unfold try in H. by destruct (shard_exec _ w1). }
      destruct x as [err|]; [|done]. unfold mbind, M_bind, throw in H. cbn in H. by injection H as <- <-.
  - unfold with_defer in H. destruct (m w1) as [x w2]. by injection H as <- <-.
Qed.

Lemma after_closes c w : w_shard_tx w = None -> w_shard_tx (after c w) = None.
Proof.
  intros Hn. destruct c; cbn [after]; unfold FailExpiryItem;
  match goal with |- w_shard_tx (?m w).2 = None => destruct (m w) as [r w'] eqn:E end; cbn;
  cbv beta zeta delta [ClaimBatch RecoverBatches ApplyBatch RequeueBatch FailBatch updateBatchLease EnsureExpiryRun
    ClaimExpiryItem RecoverExpiryItems ApplyExpiryItem RequeueExpiryItem] in E;
  (eapply tenant_closes; [exact Hn|exact E]).
Qed.

Lemma after_moves c w : w_shard_tx w = None -> shard_le (call_bank c) (w_shard w) (w_shard (after c w)).
Proof.
  intros Hn.
  assert (Hm : shard_moves (shard_le (call_bank c)) w (after c w)).
  { destruct c; cbn [after call_bank];
    match goal with |- shard_moves _ w (?m w).2 => destruct (m w) as [r w'] eqn:E end; cbn;
    [eapply moves_ClaimBatch|eapply moves_RecoverBatches|eapply moves_ApplyBatch|eapply moves_RequeueBatch
    |eapply moves_FailBatch|eapply moves_EnsureExpiryRun|eapply moves_ClaimExpiryItem|eapply moves_RecoverExpiryItems
    |eapply moves_ApplyExpiryItem|eapply moves_RequeueExpiryItem|eapply moves_FailExpiryItem]; first [exact E|done]. }
  apply Hm. by rewrite Hn.
Qed.

(** What every step of any bank keeps. *)
Definition shard_grows (db db' : shard_db) : Prop :=
  table_le batch_le (batches db) (batches db') /\ table_le expiry_le (expiry_items db) (expiry_items db') /\
  table_le card_le (cards db) (cards db').
#[export] Instance shard_grows_preorder : PreOrder shard_grows.
Proof.
  split; [intros db; repeat split; reflexivity|].
  intros a b c (?&?&?) (?&?&?). repeat split; etrans; eassumption.
Qed.
Lemma shard_le_grows bank db db' : shard_le bank db db' -> shard_grows db db'.
Proof. intros []. repeat split; done. Qed.

Lemma steps_closed w log w' : steps w log w' -> w_shard_tx w = None -> w_shard_tx w' = None.
Proof. induction 1; intros Hn; [done|apply after_closes; auto|done]. Qed.

Lemma steps_grows w log w' : steps w log w' -> w_shard_tx w = None -> shard_grows (w_shard w) (w_shard w').
Proof.
  induction 1 as [w|w log w1 c Hs IH|w log w1 w2 bank Hs IH Hle]; intros Hn; [reflexivity|..]; (etrans; [by apply IH|]).
  - eapply shard_le_grows, after_moves, steps_closed; eassumption.
  - by eapply shard_le_grows.
Qed.

(** A call of the log ran on the world before it, and the run went on from its
    result. *)
Lemma steps_at w log w' :
  steps w log w' -> w_shard_tx w = None ->
  forall i pre c post, log !! i = Some (pre, c, post) ->
  post = after c pre /\ w_shard_tx pre = None /\ shard_grows (w_shard post) (w_shard w').
Proof.
  induction 1 as [w|w log w1 c0 Hs IH|w log w1 w2 bank Hs IH Hle Htx Hck]; intros Hn i pre c post Hi.
  - by rewrite lookup_nil in Hi.
  - pose proof (steps_closed _ _ _ Hs Hn) as Hn1.
    pose proof (shard_le_grows _ _ _ (after_moves c0 w1 Hn1)) as Hg.
    apply lookup_app_Some in Hi as [Hi|[_ Hi]].
    + destruct (IH Hn _ _ _ _ Hi) as (-> & ? & Hpost). split; [done|]. split; [done|]. etrans; eassumption.
    + destruct (i - length log)%nat; [|done]. injection Hi as <- <- <-. split; [done|]. split; [done|reflexivity].
  - destruct (IH Hn _ _ _ _ Hi) as (-> & ? & Hpost). apply shard_le_grows in Hle.
    split; [done|]. split; [done|]. etrans; eassumption.
Qed.

Lemma steps_between w log w' :
  steps w log w' -> w_shard_tx w = None ->
  forall i j pre c post pre' c' post', (i < j)%nat -> log !! i = Some (pre, c, post) -> log !! j = Some (pre', c', post') ->
  shard_grows (w_shard post) (w_shard pre').
Proof.
  induction 1 as [w|w log w1 c0 Hs IH|]; intros Hn i j pre c post pre' c' post' Hij Hi Hj; [done| |by eauto].
  apply lookup_app_Some in Hj as [Hj|[Hlen Hj]].
  - apply lookup_lt_Some in Hj as Hl. rewrite lookup_app_l in Hi by lia. exact (IH Hn _ _ _ _ _ _ _ _ Hij Hi Hj).
  - destruct (j - length log)%nat eqn:Ej; [|done]. injection Hj as <- <- <-.
    rewrite lookup_app_l in Hi by lia. by eapply steps_at in Hi as (_ & _ & ?).
Qed.

(** ** Settling a batch *)

(** The next effect of [E : (x ← m; k x) w = (r, w')]: a failure changed
    nothing, else go on. *)
Ltac next E x w1 H :=
  let e := fresh "e" in
  apply bind_run in E as [(e & -> & E)|(x & w1 & H & E)]; [left; kept E; congruence|].

Lemma verifyBatchLease_inr batch owner w w' db :
  w_shard_tx w = Some db -> verifyBatchLease batch owner w = (inr tt, w') ->
  w_shard_tx w' = Some db /\ exists row, batches db !! (Batch_BankID batch, Batch_ID batch) = Some row /\
    ba_status row = "processing" /\ ba_lease_owner row = Some owner /\ ba_lease_version row = Batch_LeaseVersion batch.
Proof.
  intros Hdb H. unfold verifyBatchLease in H. apply bind_inr in H as (b & w1 & H & Hb).
  apply (exec_tx _ _ db) in H as (env & db' & Hf & Htx & _); [|done]. injection Hf as Hf <-.
  destruct b; [|by apply throw_inr in Hb]. apply ret_inr in Hb as [_ <-]. split; [done|].
  destruct (batches db !! _) as [row|]; [|done]. exists row. split; [done|].
  unfold holds_batch_lease in Hf. rewrite !andb_true_iff, String.eqb_eq, sql_eq_true, Z.eqb_eq in Hf. tauto.
Qed.

Lemma FailBatch_run batch owner code w r w' :
  FailBatch batch owner code w = (r, w') ->
  w_shard w' = w_shard w \/
  (exists row row', batches (w_shard w) !! (Batch_BankID batch, Batch_ID batch) = Some row /\
     ba_status row = "processing" /\ ba_lease_owner row = Some owner /\ ba_lease_version row = Batch_LeaseVersion batch /\
     batches (w_shard w') !! (Batch_BankID batch, Batch_ID batch) = Some row' /\ ba_status row' = "failed").
Proof.
  intros H. unfold FailBatch in H. cbv zeta in H. next H x w1 H1. destruct x. kept H1.
  unfold with_defer in H. match type of H with context [let (_, _) := ?b in _] => destruct b as [r' w6] eqn:E end.
  injection H as <- <-. cbn.
  apply bind_run in E as [(e & -> & E)|([] & w2 & H2 & E)]; [left; unfold verifyBatchLease in E; kept E; congruence|].
  pose proof H2 as H2'. unfold verifyBatchLease in H2'. kept H2'.
  next E n1 w3 H3. kept H3. next E n2 w4 H4. kept H4. next E u w5 H5. kept H5.
  next E ignored w7 H7. kept H7. next E n w8 H8. kept H8.
  unfold expect_one in E. destruct (n =? 1) eqn:En; [|injection E as <- <-; left; congruence].
  apply Z.eqb_eq in En as ->. next E u' w8' H9. injection H9 as <- <-.
  apply beginTenant_inr in H1 as (Htx & _).
  apply (verifyBatchLease_inr _ _ _ _ (w_shard w)) in H2 as (Htx2 & row & Hrow & Hst & Hown & Hver); [|done].
  apply (exec_tx _ _ (w_shard w)) in H3 as (env3 & db3 & Hf3 & Htx3 & _); [|done].
  apply (exec_tx _ _ db3) in H4 as (env4 & db4 & Hf4 & Htx4 & _); [|done].
  apply (exec_tx _ _ db4) in H5 as (env5 & db5 & Hf5 & Htx5 & _); [|done].
  apply (exec_tx _ _ db5) in H7 as (env7 & db7 & Hf7 & Htx7 & _); [|done].
  apply (exec_tx _ _ db7) in H8 as (env8 & db8 & Hf8 & Htx8 & _); [|done].
  apply update_batch_one in Hf8 as (old & Hold & _ & _ & _ & Hdb8).
  apply commit_run in E as [E|(db & Hdb & E)]; [left; congruence|right].
  assert (db = db8) as -> by congruence. exists row. eexists. rewrite E, Hdb8. cbn. rewrite lookup_insert_eq.
  repeat split; eauto.
Qed.

(** The row of a batch after a call of the log settled it. *)
Definition settles (bank id : string) (x : world * exec_call * world) : Prop :=
  let '(pre, c, post) := x in
  w_shard post <> w_shard pre /\
  match c with
  | CallApplyBatch b _ | CallFailBatch b _ _ => Batch_BankID b = bank /\ Batch_ID b = id
  | _ => False
  end.

Lemma settles_rows bank id pre c :
  settles bank id (pre, c, after c pre) ->
  (exists row, batches (w_shard pre) !! (bank, id) = Some row /\ ba_status row = "processing") /\
  (exists row, batches (w_shard (after c pre)) !! (bank, id) = Some row /\ terminal_batch (ba_status row) = true).
Proof.
  intros [Hne Hc]. destruct c; try done; destruct Hc as [<- <-]; cbn [after] in *.
  - destruct (ApplyBatch b owner pre) as [r w'] eqn:E. cbn in *.
    apply ApplyBatch_run in E as [[_ E]|[(row & ?&?&?) (row' & Hr' & Hs & _) _ _ _]]; [done|].
    split; [by eauto|]. exists row'. split; [done|]. by rewrite Hs.
  - destruct (FailBatch b owner code pre) as [r w'] eqn:E. cbn in *.
    apply FailBatch_run in E as [E|(row & row' & ? & ? & ? & ? & ? & Hs)]; [done|].
    split; [by eauto|]. exists row'. split; [done|]. by rewrite Hs.
Qed.

(** A batch settled once is never settled again. *)
Lemma settled_forever bank id w log w' i j x y :
  steps w log w' -> w_shard_tx w = None -> (i < j)%nat -> log !! i = Some x -> log !! j = Some y ->
  settles bank id x -> settles bank id y -> False.
Proof.
  intros Hs Hn Hij Hi Hj Hx Hy. destruct x as [[pre c] post], y as [[pre' c'] post'].
  destruct (steps_at _ _ _ Hs Hn _ _ _ _ Hi) as (-> & _ & _).
  destruct (steps_at _ _ _ Hs Hn _ _ _ _ Hj) as (-> & _ & _).
  destruct (steps_between _ _ _ Hs Hn _ _ _ _ _ _ _ _ Hij Hi Hj) as (Hb & _ & _).
  apply settles_rows in Hx as [_ (row & Hrow & Ht)]. apply settles_rows in Hy as [(row' & Hrow' & Hp) _].
  destruct (Hb _ _ Hrow) as (row2 & Hrow2 & (_ & Hterm & _)). destruct (Hterm Ht) as [Hst _].
  assert (row2 = row') as -> by congruence. rewrite Hp in Hst. by rewrite <- Hst in Ht.
Qed.

(** ** Claims *)

Lemma earliest_least {A} (at_ : A -> Z) l p : earliest at_ l = Some p -> forall q, q ∈ l -> at_ p.2 <= at_ q.2.
Proof.
  revert p. induction l as [|x l IH]; intros p; cbn [earliest]; [done|].
  destruct (earliest at_ l) as [y|] eqn:E.
  - case_match eqn:Elt; intros [= <-] q; rewrite elem_of_cons; intros [->|Hq].
    + apply Z.ltb_lt in Elt. lia.
    + by apply IH.
    + lia.
    + apply Z.ltb_ge in Elt. specialize (IH _ eq_refl _ Hq). lia.
  - destruct l as [|z l]; [|cbn in E; repeat case_match; done].
    intros [= <-] q. rewrite elem_of_cons, elem_of_nil. intros [->|[]]. lia.
Qed.

(** A claim returns the row it leased, under a version no lease had before. *)
Lemma ClaimBatch_run c w b w' :
  ClaimBatch c w = (inr (Some b), w') ->
  Batch_BankID b = Claim_BankID c /\
  exists row row', batches (w_shard w) !! (Claim_BankID c, Batch_ID b) = Some row /\ ba_status row = "queued" /\
    batches (w_shard w') !! (Claim_BankID c, Batch_ID b) = Some row' /\ ba_status row' = "processing" /\
    ba_lease_owner row' = Some (Claim_Owner c) /\ ba_lease_version row' = Batch_LeaseVersion b /\
    ba_lease_version row' = ba_lease_version row + 1 /\ ba_attempt_count row' = Batch_AttemptCount b /\
    ba_target_status row = Batch_TargetStatus b /\ ba_item_count row = Batch_ItemCount b.
Proof.
  intros H. unfold ClaimBatch in H. cbv zeta in H. apply bind_inr in H as ([] & w1 & H1 & H).
  apply defer_inr in H as (w2 & H & ->). cbn.
  apply bind_inr in H as (r & w3 & H3 & H). rewrite try_inr in H3.
  apply beginTenant_inr in H1 as (Htx & Hs & _).
  destruct r as [err|[id row]].
  { destruct (errors_is err ErrNoRows); [|by apply throw_inr in H].
    apply bind_inr in H as ([] & ? & ? & H). by apply ret_inr in H as [? _]. }
  rewrite row_inr in H3. apply (exec_tx _ _ (w_shard w)) in H3 as (env & db & Hf & Htx3 & _); [|done].
  injection Hf as Hf <-. apply earliest_mem in Hf. apply list_elem_of_filter in Hf as [[Hst _] Hf].
  unfold unlocked in Hf. apply list_elem_of_filter in Hf as [_ Hf]. apply bank_rows_spec in Hf. cbn in Hst.
  apply bind_inr in H as ([v n] & w4 & H4 & H). rewrite wrap_inr, row_inr in H4.
  apply (exec_tx _ _ (w_shard w)) in H4 as (env4 & db4 & Hf4 & Htx4 & _); [|done].
  apply bind_inr in H as ([] & w5 & H5 & H). rewrite wrap_inr in H5. apply ret_inr in H as [[= <-] <-].
  apply commit_inr in H5 as (db5 & Hdb5 & -> & _). assert (db5 = db4) as -> by congruence.
  unfold returning in Hf4. destruct (claim_batch c id env4 (w_shard w)) as [|[k db6]] eqn:Ec; [done|].
  destruct (k =? 1) eqn:Ek; [|done]. apply Z.eqb_eq in Ek as ->. injection Hf4 as Hv <-.
  apply update_batch_one in Ec as (old & Hold & _ & _ & _ & ->).
  assert (old = row) as -> by congruence. cbn in Hv. rewrite lookup_insert_eq in Hv. cbn in Hv. injection Hv as <- <-.
  cbn. split; [done|]. exists row. eexists. rewrite lookup_insert_eq. repeat split; eauto.
Qed.

(** [claimed_at log i b]: entry [i] of the log is a claim that returned [b]. *)
Definition claimed_at (log : list (world * exec_call * world)) (i : nat) (b : Batch) : Prop :=
  exists pre c post, log !! i = Some (pre, CallClaimBatch c, post) /\ (ClaimBatch c pre).1 = inr (Some b).

Lemma claimed_row w log w' i b :
  steps w log w' -> w_shard_tx w = None -> claimed_at log i b ->
  exists pre c post row row', log !! i = Some (pre, c, post) /\
    batches (w_shard pre) !! (Batch_BankID b, Batch_ID b) = Some row /\
    batches (w_shard post) !! (Batch_BankID b, Batch_ID b) = Some row' /\
    ba_lease_version row < Batch_LeaseVersion b /\ ba_lease_version row' = Batch_LeaseVersion b.
Proof.
  intros Hs Hn (pre & c & post & Hi & Hc).
  destruct (steps_at _ _ _ Hs Hn _ _ _ _ Hi) as (-> & _ & _).
  destruct (ClaimBatch c pre) as [r w1] eqn:E. cbn in Hc. subst r.
  destruct (ClaimBatch_run _ _ _ _ E) as (Hb & row & row' & H1 & _ & H2 & _ & _ & Hv & Hv' & _).
  exists pre, (CallClaimBatch c), (after (CallClaimBatch c) pre), row, row'. cbn [after]. cbn [after] in Hi. rewrite E in Hi |- *. rewrite Hb. cbn in Hi |- *.
  repeat split; try done; lia.
Qed.

(** After a later claim of the batch, an earlier claim can no longer apply or
    fail it. *)
Lemma stale_powerless w log w' i j k b b' x :
  steps w log w' -> w_shard_tx w = None -> claimed_at log i b -> claimed_at log j b' ->
  Batch_BankID b' = Batch_BankID b -> Batch_ID b' = Batch_ID b -> (i < j < k)%nat -> log !! k = Some x ->
  Batch_LeaseVersion b < Batch_LeaseVersion b' /\
  (forall o code pre post, x = (pre, CallApplyBatch b o, post) \/ x = (pre, CallFailBatch b o code, post) ->
     w_shard post = w_shard pre).
Proof.
  intros Hs Hn Hb Hb' Hbank Hid Hijk Hk.
  destruct (claimed_row _ _ _ _ _ Hs Hn Hb) as (p1 & c1 & q1 & r1 & r1' & Hi & _ & Hr1' & _ & Hv1).
  destruct (claimed_row _ _ _ _ _ Hs Hn Hb') as (p2 & c2 & q2 & r2 & r2' & Hj & Hr2 & Hr2' & Hv2 & Hv2').
  rewrite Hbank, Hid in *.
  destruct (steps_between _ _ _ Hs Hn _ _ _ _ _ _ _ _ (proj1 Hijk) Hi Hj) as (Hg & _).
  destruct (Hg _ _ Hr1') as (r & Hr & (_ & _ & Hle & _)). assert (r = r2) as -> by congruence.
  split; [lia|]. intros o code pre post Hx.
  assert (Hstale : forall row, batches (w_shard pre) !! (Batch_BankID b, Batch_ID b) = Some row ->
    ba_lease_version row <> Batch_LeaseVersion b).
  { assert (Hkx : exists c, log !! k = Some (pre, c, post)) by (destruct Hx as [-> | ->]; eauto).
    destruct Hkx as [c Hkx].
    destruct (steps_between _ _ _ Hs Hn _ _ _ _ _ _ _ _ (proj2 Hijk) Hj Hkx) as (Hg' & _).
    destruct (Hg' _ _ Hr2') as (r & Hr3 & (_ & _ & Hle' & _)). intros row Hrow.
    assert (row = r) as -> by congruence. lia. }
  destruct Hx as [-> | ->]; destruct (steps_at _ _ _ Hs Hn _ _ _ _ Hk) as (-> & _ & _); cbn [after].
  - destruct (ApplyBatch b o pre) as [r w1] eqn:E. cbn.
    apply ApplyBatch_run in E as [[_ E]|[(row & Hrow & _ & _ & Hv) _ _ _ _]]; [done|]. exfalso. by apply (Hstale row).
  - destruct (FailBatch b o code pre) as [r w1] eqn:E. cbn.
    apply FailBatch_run in E as [E|(row & row' & Hrow & _ & _ & Hv & _)]; [done|]. exfalso. by apply (Hstale row).
Qed.

(** ** Properties *)

(** C2: In any interleaving of any number of executors and of anything else that
    respects the machine of the shard, under any faults, a batch is settled
    (succeeded by [ApplyBatch], failed by [FailBatch]) at most once: two calls of
    one run that settle the same batch are the same call. *)
Theorem batch_settled_once bank id w log w' i j x y
    (Hrun : steps w log w') (Hidle : w_shard_tx w = None)
    (Hi : log !! i = Some x) (Hj : log !! j = Some y)
    (Hx : settles bank id x) (Hy : settles bank id y) : i = j.
Proof.
  destruct (Nat.lt_trichotomy i j) as [Hlt|[->|Hlt]]; [exfalso|done|exfalso].
  - exact (settled_forever _ _ _ _ _ _ _ _ _ Hrun Hidle Hlt Hi Hj Hx Hy).
  - exact (settled_forever _ _ _ _ _ _ _ _ _ Hrun Hidle Hlt Hj Hi Hy Hx).
Qed.

(** The run of the witnesses: worker 1 loses its lease, worker 2 claims the
    batch anew; worker 1's attempt comes too late and worker 2 applies it. *)
Definition toy_batch_again : Batch :=
  MkBatch "batch-1" bank1 "active" "reason" "user" "issuer_operator" "" "request" 3 2 3.
Definition run_0 := toy_world toy_shard 100.
Definition run_1 := after (CallClaimBatch toy_claim) run_0.
Definition run_2 := run_1 <| w_clock := 2000 |>.
Definition run_3 := after (CallRecoverBatches toy_claim) run_2.
Definition run_4 := after (CallClaimBatch (MkClaim bank1 "worker-2" 1000)) run_3.
Definition run_5 := after (CallApplyBatch toy_batch "worker-1") run_4.
Definition run_6 := after (CallApplyBatch toy_batch_again "worker-2") run_5.
Definition run_log :=
  [(run_0, CallClaimBatch toy_claim, run_1); (run_2, CallRecoverBatches toy_claim, run_3);
   (run_3, CallClaimBatch (MkClaim bank1 "worker-2" 1000), run_4); (run_4, CallApplyBatch toy_batch "worker-1", run_5);
   (run_5, CallApplyBatch toy_batch_again "worker-2", run_6)].
Lemma steps_wait w log w1 t :
  steps w log w1 -> w_shard_tx w1 = None -> w_clock w1 <= t -> steps w log (w1 <| w_clock := t |>).
Proof. intros Hs Hn Ht. eapply (steps_other _ _ _ _ ""); [exact Hs|cbn; reflexivity|done|done]. Qed.
Lemma run_steps : steps run_0 run_log run_6.
Proof.
  refine (steps_call _ [_; _; _; _] _ _ (steps_call _ [_; _; _] _ _ (steps_call _ [_; _] _ _ (steps_call _ [_] run_2 _ _)))).
  refine (steps_wait _ _ _ _ (steps_call _ [] _ _ (steps_nil _)) _ _); by vm_compute.
Qed.
Lemma run_settled : settles bank1 "batch-1" (run_5, CallApplyBatch toy_batch_again "worker-2", run_6).
Proof.
  split; [|done]. intros H. apply (f_equal (fun db => ba_status <$> batches db !! (bank1, "batch-1"))) in H.
  by vm_compute in H.
Qed.

Lemma batch_settled_once_witness : (4 = 4)%nat.
Proof.
  exact (batch_settled_once bank1 "batch-1" _ _ _ 4 4 _ _ run_steps eq_refl eq_refl eq_refl run_settled run_settled).
Defined.

(** C11: A lease fences its holder.  Once a batch is claimed again (its first lease
    expired and was recovered), the second claim has a greater lease version, and
    no later [ApplyBatch] or [FailBatch] under the first claim changes the shard,
    whatever happens between and whatever owner it names. *)
Theorem stale_claim_powerless w log w' i j k b b' x
    (Hrun : steps w log w') (Hidle : w_shard_tx w = None)
    (Hfirst : claimed_at log i b) (Hsecond : claimed_at log j b')
    (Hbank : Batch_BankID b' = Batch_BankID b) (Hid : Batch_ID b' = Batch_ID b)
    (Horder : (i < j < k)%nat) (Hk : log !! k = Some x) :
  Batch_LeaseVersion b < Batch_LeaseVersion b' /\
  (forall o code pre post, x = (pre, CallApplyBatch b o, post) \/ x = (pre, CallFailBatch b o code, post) ->
     w_shard post = w_shard pre).
Proof. exact (stale_powerless _ _ _ _ _ _ _ _ _ Hrun Hidle Hfirst Hsecond Hbank Hid Horder Hk). Qed.
Lemma stale_claim_powerless_witness : w_shard run_5 = w_shard run_4.
Proof.
  refine (proj2 (stale_claim_powerless _ _ _ 0 2 3 toy_batch toy_batch_again _ run_steps eq_refl _ _ eq_refl eq_refl _ eq_refl)
            "worker-1" "" run_4 _ (or_introl eq_refl)); [..|lia].
  - exists run_0, toy_claim, run_1. split; [reflexivity|]. by vm_compute.
  - exists run_3, (MkClaim bank1 "worker-2" 1000), run_4. split; [reflexivity|]. by vm_compute.
Defined.

(** C19: Every call of an executor confines itself to its bank and only moves rows
    along their machines: no row of another bank changes, history and audit only
    grow (by events of the bank), cards keep their identity and masked number
    and gain versions, operations and batches keep their request, terminal
    outcomes stay and lease versions and retry counters never decrease. *)
Theorem executor_call_confined c w (Hidle : w_shard_tx w = None) :
  shard_le (call_bank c) (w_shard w) (w_shard (after c w)).
Proof. by apply after_moves. Qed.
Lemma executor_call_confined_witness :
  shard_le bank1 (w_shard claimed_world) (w_shard (after (CallApplyBatch toy_batch "worker-1") claimed_world)).
Proof. exact (executor_call_confined (CallApplyBatch toy_batch "worker-1") claimed_world eq_refl). Defined.
