(* ===== verification/ExpirySpec.v ===== *)
(** * ExpirySpec: what the expiry worker does to a card

    The effect of [ApplyExpiryItem] and [RequeueExpiryItem] as one transaction
    each, and the claim that can not succeed. *)

From S2P Require Import Prelude Json Domain Stores Vault World ShardTx Guards ShardOrder ExecutorStore Scenario ExecutorSafety ApplyBatchSpec.
Open Scope string_scope.
Open Scope list_scope.
Open Scope Z_scope.

(** ** Applying an item *)

Definition item_key (item : ExpiryItem) : key := (ExpiryItem_BankID item, ExpiryItem_ID item).
Definition item_card (item : ExpiryItem) : key := (ExpiryItem_BankID item, ExpiryItem_CardID item).

(** The card and the history line of an item, by the status the card had. *)
Definition card_expired (item : ExpiryItem) (status : string) (db db' : shard_db) : Prop :=
  if status == "expired" then cards db' = cards db /\ history db' = history db
  else
    Lifecycle.Transition status "expire" = ("expired", true, false) /\
    (forall k, k <> item_card item -> cards db' !! k = cards db !! k) /\
    (forall c, cards db !! item_card item = Some c ->
       exists c', cards db' !! item_card item = Some c' /\ card_le c c' /\ cd_status c' = "expired" /\
         is_Some (cd_expires_at c') /\ cd_version c' = cd_version c + 1) /\
    exists h, history db' = history db ++ [h] /\
      history_line h = (ExpiryItem_CardID item, ExpiryItem_OperationID item, status, "expired").

Record expiry_applied (item : ExpiryItem) (owner : string) (db db' : shard_db) : Prop := ExpiryApplied {
  exa_lease : exists e, expiry_items db !! item_key item = Some e /\ ex_status e = "processing" /\
    ex_lease_owner e = Some owner /\ ex_lease_version e = ExpiryItem_LeaseVersion item;
  exa_card : exists c, cards db !! item_card item = Some c /\ card_expired item (cd_status c) db db' /\
    exists e', expiry_items db' !! item_key item = Some e' /\ ex_lease_owner e' = None /\
      ex_status e' = (if cd_status c == "expired" then "skipped_already_expired" else "expired");
  exa_others : forall k, k <> item_key item -> expiry_items db' !! k = expiry_items db !! k;
  exa_batches : batches db' = batches db
}.

Lemma update_expiry_one bank id wh set env db db' :
  update_expiry_row bank id wh set env db = inr (1, db') ->
  exists old, let new := (set env old) <| ex_updated_at := clock_timestamp env |> in
    expiry_items db !! (bank, id) = Some old /\ wh env db old = true /\
    guard_expiry_item (clock_timestamp env) (ru_status <$> expiry_runs db !! (bank, ex_expiry_run_id new))
      (cd_status <$> cards db !! (bank, ex_card_id new)) old new = true /\
    check_automatic_retry new = true /\ db' = db <| expiry_items ::= <[(bank, id) := new]> |>.
Proof.
  unfold update_expiry_row. case_match eqn:E; [|done]. case_match eqn:Ew; [|done].
  match goal with |- context [if ?g then _ else _] => destruct g eqn:Eg end; [|done].
  case_match eqn:Ec; [|done]. intros [= <-]. eauto 10.
Qed.

Lemma complete_run_tables bank run env db n db' :
  complete_run bank run env db = inr (n, db') ->
  cards db' = cards db /\ history db' = history db /\ expiry_items db' = expiry_items db /\ batches db' = batches db.
Proof. unfold complete_run, update_run. repeat case_match; intros; simplify_eq/=; done. Qed.

Lemma holds_expiry_inr owner v env e :
  holds_expiry_lease owner v env e = true ->
  ex_status e = "processing" /\ ex_lease_owner e = Some owner /\ ex_lease_version e = v.
Proof. unfold holds_expiry_lease. rewrite !andb_true_iff, String.eqb_eq, sql_eq_true, Z.eqb_eq. tauto. Qed.

Lemma verifyExpiryLease_inr item owner w w' db :
  w_shard_tx w = Some db -> verifyExpiryLease item owner w = (inr tt, w') ->
  w_shard_tx w' = Some db /\ exists e, expiry_items db !! item_key item = Some e /\ ex_status e = "processing" /\
    ex_lease_owner e = Some owner /\ ex_lease_version e = ExpiryItem_LeaseVersion item.
Proof.
  intros Hdb H. unfold verifyExpiryLease in H. apply bind_inr in H as (b & w1 & H & Hb).
  apply (exec_tx _ _ db) in H as (env & db' & Hf & Htx & _); [|done]. injection Hf as Hf <-.
  destruct b; [|by apply throw_inr in Hb]. apply ret_inr in Hb as [_ <-]. split; [done|].
  fold (item_key item) in Hf. destruct (expiry_items db !! _) as [e|]; [|done]. apply holds_expiry_inr in Hf. eauto.
Qed.

Lemma expire_card_tx item owner status w db w' :
  w_shard_tx w = Some db -> (status == "expired") = false -> Lifecycle.Transition status "expire" = ("expired", true, false) ->
  expire_card item owner status w = (inr tt, w') ->
  exists db', w_shard_tx w' = Some db' /\ card_expired item status db db' /\
    expiry_items db' = expiry_items db /\ batches db' = batches db.
Proof.
  intros Hdb Hst Ht H. unfold expire_card in H. apply bind_inr in H as (n & w1 & H1 & H2).
  run_exec H1 db. run_exec H2 db0.
  assert (Hx : expiry_items db0 = expiry_items db) by (revert Hf; unfold update_card; repeat case_match; intros; simplify_eq/=; done).
  assert (Hx1 : expiry_items db1 = expiry_items db0) by (revert Hf0; unfold insert_history; repeat case_match; intros; simplify_eq/=; done).
  apply update_card_tables in Hf as (Hb & Hh & Ho & Hc & _).
  apply insert_history_tables in Hf0 as (Hb1 & Hc1 & h & Hh1 & Hl).
  eexists. split; [eassumption|]. split; [|split; congruence].
  unfold card_expired. rewrite Hst, Hc1. split; [done|]. split; [exact Ho|]. split; [|exists h; split; [congruence|done]].
  intros c Hcard. specialize (Hc c Hcard eq_refl). eexists. split; [exact Hc|].
  split; [|cbn; eauto]. split; [done|]. split; [done|]. right. cbn. lia.
Qed.

(** ** The worker's calls, whatever faults they meet *)

Lemma finish_tx_expiry item owner result_ w db w' n :
  w_shard_tx w = Some db -> shard_exec (finish_expiry_item item owner result_) w = (inr n, w') -> n = 1 ->
  exists e, expiry_items db !! item_key item = Some e /\ ex_status e = "processing" /\
    exists e', w_shard_tx w' = Some (db <| expiry_items ::= <[item_key item := e']> |>) /\
      ex_status e' = result_ /\ ex_lease_owner e' = None /\ ex_attempt_count e' = ex_attempt_count e + 1.
Proof.
  intros Hdb H ->. run_exec H db. apply update_expiry_one in Hf as (e & He & Hw & _ & _ & ->).
  apply holds_expiry_inr in Hw as (? & _ & _). exists e. split; [done|]. split; [done|]. eexists. split; [eassumption|]. done.
Qed.

(** The new status of an item and the card it leaves. *)
Lemma card_step item owner c w db w' result_ :
  w_shard_tx w = Some db ->
  (if cd_status c == "expired" then mret "skipped_already_expired"
   else let '(_, valid, _) := Lifecycle.Transition (cd_status c) "expire" in
        if negb valid then throw (ErrMsg "invalid expiry transition")
        else expire_card item owner (cd_status c) ;; mret "expired") w = (inr result_, w') ->
  exists db', w_shard_tx w' = Some db' /\ card_expired item (cd_status c) db db' /\
    expiry_items db' = expiry_items db /\ batches db' = batches db /\
    result_ = (if cd_status c == "expired" then "skipped_already_expired" else "expired").
Proof.
  intros Hdb H. destruct (cd_status c == "expired") eqn:Es.
  - apply ret_inr in H as [<- <-]. exists db. split; [done|]. split; [|done]. unfold card_expired. by rewrite Es.
  - destruct (Lifecycle.Transition (cd_status c) "expire") as [[t valid] ign] eqn:Et.
    destruct valid; cbn in H; [|by apply throw_inr in H].
    apply bind_inr in H as ([] & w5 & H4 & H5). apply ret_inr in H5 as [<- <-].
    eapply expire_card_tx in H4 as (db4 & ? & ? & ? & ?); [eauto 10|eassumption|done|].
    revert Et. unfold Lifecycle.Transition. cbn. rewrite Es. by intros [= <- -> <-].
Qed.

Lemma apply_expiry_tx item owner w w' db' :
  w_shard_tx w = Some (w_shard w) -> apply_expiry item owner w = (inr tt, w') -> w_shard_tx w' = Some db' ->
  expiry_applied item owner (w_shard w) db'.
Proof.
  intros Htx H Htx'. unfold apply_expiry in H. cbv zeta in H.
  apply bind_inr in H as ([] & w1 & H1 & H). apply (verifyExpiryLease_inr _ _ _ _ _ Htx) in H1 as (Htx1 & Hlease).
  apply bind_inr in H as (status & w2 & H2 & H). rewrite row_inr in H2. run_exec H2 (w_shard w). injection Hf as Hst <-.
  destruct (cards (w_shard w) !! (ExpiryItem_BankID item, ExpiryItem_CardID item)) as [c|] eqn:Hc; [|done].
  injection Hst as <-.
  apply bind_inr in H as (result_ & w3 & H3 & H). eapply card_step in H3 as (db3 & Htx3 & Hcard & Hx3 & Hb3 & ->); [|exact Ht].
  apply bind_inr in H as (n4 & w4 & H4 & H). apply bind_inr in H as (u5 & w5 & H5 & H).
  apply bind_inr in H as (n & w6 & H6 & H). run_exec H4 db3. run_exec H5 db.
  unfold expect_one in H. destruct (n =? 1) eqn:En; [|by apply bind_inr in H as (? & ? & H & _); apply throw_inr in H].
  apply Z.eqb_eq in En. apply bind_inr in H as ([] & ? & [_ <-]%ret_inr & H).
  apply (finish_tx_expiry _ _ _ _ _ _ _ Ht1) in H6 as (e & He & _ & e' & Htx6 & Hst' & Hown & _); [|done].
  unfold completeExpiryRun in H. apply bind_inr in H as (m & w7 & H7 & H8). apply ret_inr in H8 as [_ <-].
  eapply exec_tx in H7 as (env7 & db7 & Hf7 & Htx7 & _); [|exact Htx6]. rewrite Htx' in Htx7. injection Htx7 as <-.
  assert (Hx : expiry_items db = expiry_items db3) by (revert Hf; unfold update_operation; repeat case_match; intros; by simplify_eq/=).
  apply update_operation_tables in Hf as (B1 & C1 & Hh1).
  assert (Hx1 : expiry_items db0 = expiry_items db) by (revert Hf0; unfold insert_audit; intros; by simplify_eq/=).
  apply insert_audit_tables in Hf0 as (B2 & C2 & Hh2). apply complete_run_tables in Hf7 as (C7 & Hh7 & Hx7 & B7). cbn in *.
  split; [done| |intros k Hk; rewrite Hx7, lookup_insert_ne by done; congruence|congruence].
  exists c. split; [exact Hc|]. split.
  - revert Hcard. unfold card_expired. by rewrite C7, Hh7, C2, Hh2, C1, Hh1.
  - exists e'. rewrite Hx7, lookup_insert_eq, Hst'. done.
Qed.

Lemma ApplyExpiryItem_run item owner w r w' :
  ApplyExpiryItem item owner w = (r, w') ->
  (r <> inr tt /\ w_shard w' = w_shard w) \/ expiry_applied item owner (w_shard w) (w_shard w').
Proof.
  intros H. apply tx_outcome in H as [?|(w1 & w2 & H1 & H2 & Htx)]; [by left| |].
  - right. apply beginTenant_inr in H1 as (Htx1 & Hs1 & _). rewrite <- Hs1 in Htx1 |- *. by eapply apply_expiry_tx.
  - unfold apply_expiry, expire_card, verifyExpiryLease, completeExpiryRun, expect_one. cbv zeta. frame_with ltac:(frame_leaf).
Qed.

(** What a requeued item becomes. *)
Definition expiry_requeued (item : ExpiryItem) (owner : string) (db db' : shard_db) : Prop :=
  cards db' = cards db /\ history db' = history db /\
  (forall k, k <> item_key item -> expiry_items db' !! k = expiry_items db !! k) /\
  exists e e', expiry_items db !! item_key item = Some e /\ ex_status e = "processing" /\
    ex_lease_owner e = Some owner /\ ex_lease_version e = ExpiryItem_LeaseVersion item /\
    expiry_items db' !! item_key item = Some e' /\ ex_lease_owner e' = None /\
    ex_attempt_count e' = ex_attempt_count e + 1 /\
    ((ex_status e' = "pending" /\ ex_automatic_retry_count e' = ex_automatic_retry_count e + 1 /\
      ex_automatic_retry_count e' <= 3) \/
     (ex_status e' = "manual_retry_required" /\ ex_automatic_retry_count e' = ex_automatic_retry_count e /\
      ex_automatic_retry_count e' = 3)).

Lemma requeue_expiry_tx item owner status delay w db w' n :
  status = "pending" \/ status = "manual_retry_required" ->
  w_shard_tx w = Some db -> shard_exec (requeue_expiry item owner status delay) w = (inr n, w') -> n = 1 ->
  exists db', w_shard_tx w' = Some db' /\ expiry_requeued item owner db db'.
Proof.
  intros Hst Hdb H ->. run_exec H db. eexists. split; [eassumption|].
  apply update_expiry_one in Hf as (e & He & Hw & Hg & Hck & ->).
  apply holds_expiry_inr in Hw as (Hs & Ho & Hv). unfold expiry_requeued. cbn.
  split; [done|]. split; [done|]. split; [intros k Hk; by rewrite lookup_insert_ne|].
  eexists e, _. rewrite lookup_insert_eq. repeat (split; [done|]). cbn.
  unfold guard_expiry_item in Hg. cbn in Hg. rewrite Hs in Hg. rewrite !andb_true_iff in Hg. destruct Hg as [_ Hg].
  destruct Hst as [-> | ->]; cbn in Hg |- *; rewrite !andb_true_iff, ?Z.eqb_eq, ?Z.leb_le in Hg;
  [left|right]; repeat split; try done; lia.
Qed.

Lemma RequeueExpiryItem_run item owner delay w r w' :
  RequeueExpiryItem item owner delay w = (r, w') ->
  (r <> inr tt /\ w_shard w' = w_shard w) \/ expiry_requeued item owner (w_shard w) (w_shard w').
Proof.
  intros H. unfold RequeueExpiryItem in H. cbv zeta in H.
  apply tx_outcome in H as [?|(w1 & w2 & H1 & H2 & Htx)]; [by left|right|].
  - apply beginTenant_inr in H1 as (Htx1 & _). apply bind_inr in H2 as (n & w3 & H2 & H).
    unfold expect_one in H. destruct (n =? 1) eqn:En; [|by apply bind_inr in H as (? & ? & H & _); apply throw_inr in H].
    apply Z.eqb_eq in En. apply bind_inr in H as ([] & ? & [_ <-]%ret_inr & H).
    eapply requeue_expiry_tx in H2 as (db3 & Htx3 & Hq); [|by destruct (3 <=? _); auto|exact Htx1|done].
    unfold completeExpiryRun in H. apply bind_inr in H as (m & w4 & H & H4). apply ret_inr in H4 as [_ <-].
    run_exec H db3. apply complete_run_tables in Hf as (C & Hh & Hx & _).
    unfold expiry_requeued in *. assert (db = w_shard w') as <- by congruence. rewrite C, Hh, Hx. exact Hq.
  - unfold completeExpiryRun, expect_one. frame_with ltac:(frame_leaf).
Qed.

(** ** The claim that can not succeed *)

(** The row a claim selects is the one it then updates, and the guard refuses it
    when its card is expired. *)
Lemma claim_expiry_refused claim id e env env' db :
  select_expiry_claim (Claim_BankID claim) env' db = inr (Some (id, e), db) ->
  cd_status <$> cards db !! (Claim_BankID claim, ex_card_id e) = Some "expired" ->
  claim_expiry claim id env db = inl raise_exception.
Proof.
  intros Hsel Hcard. injection Hsel as Hsel. apply earliest_mem in Hsel.
  apply list_elem_of_filter in Hsel as [[Hst _] Hin]. unfold unlocked in Hin. apply list_elem_of_filter in Hin as [_ Hin].
  apply bank_rows_spec in Hin. unfold claim_expiry, update_expiry_row. rewrite Hin. cbn in Hst. rewrite Hst. cbn.
  unfold guard_expiry_item. cbn. rewrite Hst, Hcard. cbn. by rewrite !andb_false_r.
Qed.

Lemma claim_expiry_stuck claim w id e env :
  w_events w = [] -> clock_timestamp env = w_clock w -> locked env = w_locked w ->
  select_expiry_claim (Claim_BankID claim) env (w_shard w) = inr (Some (id, e), w_shard w) ->
  cd_status <$> cards (w_shard w) !! (Claim_BankID claim, ex_card_id e) = Some "expired" ->
  let (r, w') := ClaimExpiryItem claim w in r = inl (ErrDb raise_exception) /\ w_shard w' = w_shard w.
Proof.
  intros Hq Hck Hlk Hsel Hcard. destruct (beginTenant_quiet (Claim_BankID claim) w Hq) as (w1 & H1 & Htx & Hq1 & Hc1 & Hs1 & _).
  assert (Hl1 : w_locked w1 = w_locked w) by by apply beginTenant_inr in H1 as (_ & _ & _ & _ & _ & Hl & _).
  unfold ClaimExpiryItem. cbv zeta. rewrite (bind_eq _ _ _ _ _ H1).
  assert (Hsel1 : select_expiry_claim (Claim_BankID claim) (sql_env_of w1) (w_shard w) = inr (Some (id, e), w_shard w)).
  { injection Hsel as Hsel. unfold select_expiry_claim, query, unlocked in *. cbn. by rewrite Hl1, Hc1, <- Hck, <- Hlk, Hsel. }
  set (w2 := w1 <| w_shard_tx := Some (w_shard w) |> <| w_drawn ::= S |>).
  pose proof (exec_quiet _ _ _ _ _ Hq1 Htx Hsel1) as He. fold w2 in He.
  assert (Hrow : try (row (shard_exec (select_expiry_claim (Claim_BankID claim)))) w1 = (inr (inr (id, e)), w2)).
  { unfold try, row. by rewrite (bind_eq _ _ _ _ _ He). }
  unfold with_defer. rewrite (bind_eq _ _ _ _ _ Hrow). cbn.
  unfold row, returning, mbind, M_bind, shard_exec, pop_event. cbn. rewrite Hq1. cbn.
  rewrite (claim_expiry_refused _ _ _ _ _ _ Hsel Hcard). cbn. done.
Qed.

(** ** Properties *)

(** C18: Expiring a card is all or nothing, under any faults.  A call that fails
    left the shard as it was, or lost only the reply of its commit; else the
    worker held the item's lease, and either the card had expired already and
    nothing but the item changed, or the lifecycle allowed its expiry and it is
    expired with the next version and one history line; no other card and no
    batch changed, and the lease is released. *)
Theorem ApplyExpiryItem_all_or_nothing item owner w :
  let (r, w') := ApplyExpiryItem item owner w in
  (r <> inr tt /\ w_shard w' = w_shard w) \/ expiry_applied item owner (w_shard w) (w_shard w').
Proof. destruct (ApplyExpiryItem item owner w) as [r w'] eqn:E. by eapply ApplyExpiryItem_run. Qed.

(** Automatic retries of an expiry are bounded: a requeue (and so a failure)
    either fails without effect, or counts the attempt, releases the lease and
    leaves the item pending with at most its third automatic retry or, after the
    third, waiting for an operator; no card changes. *)
Theorem RequeueExpiryItem_bounded item owner delay w :
  let (r, w') := RequeueExpiryItem item owner delay w in
  (r <> inr tt /\ w_shard w' = w_shard w) \/ expiry_requeued item owner (w_shard w) (w_shard w').
Proof. destruct (RequeueExpiryItem item owner delay w) as [r w'] eqn:E. by eapply RequeueExpiryItem_run. Qed.

(** A pending expiry item whose card is expired already can not be claimed:
    when it is the earliest, every claim of its bank fails in the trigger of the
    item table and leaves the item as it is, so the next claim selects it again. *)
Theorem ClaimExpiryItem_stuck claim w id e env
    (Hquiet : w_events w = []) (Hclock : clock_timestamp env = w_clock w) (Hlocked : locked env = w_locked w)
    (Hselected : select_expiry_claim (Claim_BankID claim) env (w_shard w) = inr (Some (id, e), w_shard w))
    (Hexpired : cd_status <$> cards (w_shard w) !! (Claim_BankID claim, ex_card_id e) = Some "expired") :
  let (r, w') := ClaimExpiryItem claim w in r = inl (ErrDb raise_exception) /\ w_shard w' = w_shard w.
Proof. exact (claim_expiry_stuck _ _ _ _ _ Hquiet Hclock Hlocked Hselected Hexpired). Qed.

(** Two days' runs schedule the same card before the first of them expires it. *)
Definition expiry_claim : Claim := MkClaim bank1 "worker-1" hour.
Definition scheduled_world : world :=
  let w1 := (EnsureExpiryRun bank1 (day - second) "worker-1" (toy_world toy_shard (day - second))).2 in
  (EnsureExpiryRun bank1 (day + second) "worker-1" (w1 <| w_clock := day + second |>)).2.
Definition poison_world : world :=
  match ClaimExpiryItem expiry_claim scheduled_world with
  | (inr (Some item), w) => (ApplyExpiryItem item "worker-1" w).2
  | (_, w) => w
  end.
Definition poison_item : option (string * expiry_row) :=
  match select_expiry_claim bank1 (sql_env_of poison_world) (w_shard poison_world) with
  | inr (found, _) => found
  | inl _ => None
  end.
Definition poison_card : option string := x ← poison_item; cd_status <$> cards (w_shard poison_world) !! (bank1, ex_card_id x.2).
Example poisoned : poison_card = Some "expired".
Proof. by vm_compute. Qed.

Definition found_item : string * expiry_row :=
  default ("", ExpiryRow "" "" "" "" 0 0 0 0 None None 0 None None None 0 0) poison_item.
Lemma poison_selected :
  select_expiry_claim bank1 (sql_env_of poison_world) (w_shard poison_world) = inr (Some found_item, w_shard poison_world).
Proof.
  unfold found_item, poison_item, select_expiry_claim, query.
  destruct (earliest _ _) as [x|] eqn:E; [done|]. exfalso.
  assert (Hx : poison_card = None) by (unfold poison_card, poison_item, select_expiry_claim, query; by rewrite E).
  by rewrite poisoned in Hx.
Qed.
Lemma ClaimExpiryItem_stuck_witness :
  (ClaimExpiryItem expiry_claim poison_world).1 = inl (ErrDb raise_exception).
Proof.
  pose proof (ClaimExpiryItem_stuck expiry_claim poison_world found_item.1 found_item.2 (sql_env_of poison_world)) as H.
  destruct (ClaimExpiryItem expiry_claim poison_world) as [r w']. apply H; [by vm_compute|done|done|..|by vm_compute].
  pose proof poison_selected as Hs. by destruct found_item.
Defined.
