(* ===== verification/CardStore.v ===== *)
(** * CardStore: the card commands of the shard transaction

    The card part of [internal/repository/shard/reader.go] and
    [card_store.go]: reads, issuance, replacement, lifecycle commands and the
    manual retry of an expiry item. *)

From S2P Require Import Prelude Json Domain Stores Vault World ShardTx Guards ShardOrder.
Open Scope string_scope.
Open Scope list_scope.
Open Scope Z_scope.

(** ** Reads *)

(** A read transaction: the tenant context, one query, a commit. *)
Definition read_rows {A} (bank what : string) (q : shard_db -> A) : M A :=
  beginTenant bank ;;
  with_defer shard_rollback (
    rows ← wrap ("list " +:+ what +:+ "s") (shard_exec (query (fun _ db => q db)));
    wrap ("commit " +:+ what +:+ " list") shard_commit ;;
    mret rows).
Definition read_row {A} (bank what : string) (q : shard_db -> option A) : M A :=
  beginTenant bank ;;
  with_defer shard_rollback (
    v ← wrap ("get " +:+ what) (row (shard_exec (query (fun _ db => q db))));
    wrap ("commit " +:+ what +:+ " read") shard_commit ;;
    mret v).

Definition reader_Entity (id : string) : M Entity :=
  read_row id "bank entity" (fun db =>
    (fun e => MkEntity id (en_bank_reference e) (en_name e) (en_status e) (en_created_at e) (en_updated_at e)) <$>
    entities db !! id).

Definition reader_Card (bank id : string) : M Card :=
  read_row bank "card" (fun db => scanCard id <$> cards db !! (bank, id)).

(** [($2::uuid IS NULL OR col=$2)]. *)
Definition filter_matches (f : string) (v : string) : bool :=
  match nullable f with None => true | Some f => v == f end.

Definition reader_Cards (bank : string) (f : CardFilter) : M (list Card) :=
  read_rows bank "card" (fun db =>
    List.map (fun p => scanCard p.1 p.2)
      (newest_first cd_created_at (filter (fun p =>
         filter_matches (CardFilter_ClientID f) (cd_client_id p.2)
         && filter_matches (CardFilter_AccountID f) (cd_account_reference_id p.2)
         && filter_matches (CardFilter_ProductID f) (cd_product_id p.2)
         && filter_matches (CardFilter_Status f) (cd_status p.2) = true) (bank_rows bank (cards db))))).

Definition reader_CardOperations (bank card : string) : M (list CardOperation) :=
  read_rows bank "card operation" (fun db =>
    List.map (fun p => scanCardOperation p.1 p.2)
      (newest_first op_created_at (filter (fun p => op_card_id p.2 = card) (bank_rows bank (operations db))))).

Definition reader_CardStatusHistory (bank card : string) : M (list CardStatusHistory) :=
  read_rows bank "card status history" (fun db =>
    List.map (fun p => scanCardStatusHistory p.2)
      (newest_first hi_created_at
         (merge_sort (fun p q : string * history_row => String.le p.1 q.1)
           (List.map (fun h => (hi_id h, h))
             (filter (fun h => hi_entity_id h = bank /\ hi_card_id h = card) (history db)))))).

(** ** Issuance *)

Definition IssueReferencesValid (bank clientID accountID productID : string) : M bool :=
  shard_exec (query (fun _ db =>
    match accounts db !! (bank, accountID), products db !! (bank, productID) with
    | Some a, Some p => (ac_client_id a == clientID) && (pr_status p == "active")
    | _, _ => false
    end)).

(** INSERT INTO bank.cards of an issued card; the credential is only its masked
    number. *)
Definition insert_card (bank id client account product masked : string) (predecessor : option string) (by_user : string)
    : sql shard_db Card := fun env db =>
  let c := CardRow client account product "issued" (Some masked) predecessor (Some (clock_timestamp env))
             None None None None 1 (now env) (now env) by_user by_user in
  match insert_pk (bank, id) c (cards db) with
  | inl err => inl err
  | inr t => inr (scanCard id c, db <| cards := t |>)
  end.

Definition IssueCard (bank : string) (input : CardIssue) : M (Card * CardOperation) :=
  let who := user_actor (CardIssue_ActorID input) (CardIssue_ActorRole input) (CardIssue_ActorEntityID input) in
  card ← shard_exec (insert_card bank (CardIssue_CardID input) (CardIssue_ClientID input)
           (CardIssue_AccountReferenceID input) (CardIssue_ProductID input) (CardIssue_MaskedPAN input) None
           (CardIssue_ActorID input));
  operation ← insertCardOperation bank (CardIssue_OperationID input) (CardIssue_CardID input) "issue"
                (CardIssue_Reason input) (CardIssue_ActorID input) (CardIssue_ActorRole input)
                (CardIssue_ActorEntityID input) (CardIssue_RequestID input);
  shard_exec (insert_history bank (CardIssue_CardID input) (CardIssue_OperationID input) "pending" "issued"
    (CardIssue_Reason input) who) ;;
  shard_exec (insert_audit bank "card.issue" "card" (CardIssue_CardID input) "succeeded" (CardIssue_RequestID input)
    who (JObj [])) ;;
  mret (card, operation).

Definition LockCard (bank id : string) : M CardState :=
  r ← try (row (shard_exec (query (fun _ db =>
        (fun c => MkCardState (cd_status c) (cd_client_id c) (cd_account_reference_id c) (cd_product_id c)) <$>
        cards db !! (bank, id)))));
  match r with
  | inl err => if errors_is err ErrNoRows then throw ErrNotFound else throw err
  | inr state => mret state
  end.

Definition ReplacementPending (bank predecessorID : string) : M bool :=
  shard_exec (query (fun _ db =>
    existsb (fun p => sql_eq (cd_predecessor_card_id p.2) predecessorID && (cd_status p.2 == "issued"))
      (bank_rows bank (cards db)))).

Definition ReplaceCard (bank : string) (input : CardReplacement) : M (Card * CardOperation) :=
  let who := user_actor (CardReplacement_ActorID input) (CardReplacement_ActorRole input) (CardReplacement_ActorEntityID input) in
  card ← shard_exec (insert_card bank (CardReplacement_SuccessorID input) (CardReplacement_ClientID input)
           (CardReplacement_AccountReferenceID input) (CardReplacement_ProductID input)
           (CardReplacement_MaskedPAN input) (Some (CardReplacement_PredecessorID input)) (CardReplacement_ActorID input));
  operation ← insertCardOperation bank (CardReplacement_OperationID input) (CardReplacement_SuccessorID input) "replace"
                (CardReplacement_Reason input) (CardReplacement_ActorID input) (CardReplacement_ActorRole input)
                (CardReplacement_ActorEntityID input) (CardReplacement_RequestID input);
  shard_exec (insert_history bank (CardReplacement_SuccessorID input) (CardReplacement_OperationID input) "pending"
    "issued" (CardReplacement_Reason input) who) ;;
  shard_exec (insert_audit bank "card.replace" "card" (CardReplacement_SuccessorID input) "succeeded"
    (CardReplacement_RequestID input) who (JObj [])) ;;
  mret (card, operation).

(** ** Lifecycle commands *)

(** [updateCardStatus]: the timestamp the action sets. *)
Definition updateCardStatus (action bank id status actor : string) : M unit :=
  let set (touch : sql_env -> card_row -> card_row) : M unit :=
    shard_exec (update_card bank id (fun _ => true) (fun env c =>
      (touch env c) <| cd_status := status |> <| cd_version := cd_version c + 1 |> <| cd_updated_by := actor |>)) ;;
    mret tt in
  if action == "activate" then set (fun env c => c <| cd_activated_at := Some (clock_timestamp env) |>)
  else if action == "suspend" then set (fun env c => c <| cd_suspended_at := Some (clock_timestamp env) |>)
  else if action == "close" then set (fun env c => c <| cd_closed_at := Some (clock_timestamp env) |>)
  else if action == "resume" then set (fun _ c => c)
  else throw (ErrMsg "unsupported card transition action").

(** [closePredecessorOnActivation]. *)
Definition closePredecessorOnActivation (bank : string) (input : CardCommand) : M unit :=
  let who := user_actor (CardCommand_ActorID input) (CardCommand_ActorRole input) (CardCommand_ActorEntityID input) in
  r ← try (row (shard_exec (query (fun _ db =>
        cards db !! (bank, CardCommand_CardID input) ≫= fun successor =>
        cd_predecessor_card_id successor ≫= fun p =>
        (fun c => (p, cd_status c)) <$> cards db !! (bank, p)))));
  match r with
  | inl err => if errors_is err ErrNoRows then mret tt else throw err
  | inr (predecessorID, predecessorStatus) =>
      if (predecessorStatus != "active") && (predecessorStatus != "suspended") then mret tt
      else
        shard_exec (update_card bank predecessorID
          (fun c => (cd_status c == "active") || (cd_status c == "suspended")) (fun env c =>
          c <| cd_status := "closed" |> <| cd_closed_at := Some (clock_timestamp env) |>
            <| cd_version := cd_version c + 1 |> <| cd_updated_by := CardCommand_ActorID input |>)) ;;
        insertCardOperation bank (CardCommand_PredecessorOperationID input) predecessorID "close"
          (CardCommand_Reason input) (CardCommand_ActorID input) (CardCommand_ActorRole input)
          (CardCommand_ActorEntityID input) (CardCommand_RequestID input) ;;
        shard_exec (insert_history bank predecessorID (CardCommand_PredecessorOperationID input) predecessorStatus
          "closed" (CardCommand_Reason input) who)
  end.

Definition ApplyCardCommand (bank : string) (input : CardCommand) : M (Card * CardOperation) :=
  let who := user_actor (CardCommand_ActorID input) (CardCommand_ActorRole input) (CardCommand_ActorEntityID input) in
  operation ← insertCardOperation bank (CardCommand_OperationID input) (CardCommand_CardID input)
                (CardCommand_Action input) (CardCommand_Reason input) (CardCommand_ActorID input)
                (CardCommand_ActorRole input) (CardCommand_ActorEntityID input) (CardCommand_RequestID input);
  when (negb (CardCommand_Ignored input)) (
    updateCardStatus (CardCommand_Action input) bank (CardCommand_CardID input) (CardCommand_TargetStatus input)
      (CardCommand_ActorID input) ;;
    shard_exec (insert_history bank (CardCommand_CardID input) (CardCommand_OperationID input)
      (CardCommand_PreviousStatus input) (CardCommand_TargetStatus input) (CardCommand_Reason input) who) ;;
    when (CardCommand_Action input == "activate") (closePredecessorOnActivation bank input)) ;;
  shard_exec (insert_audit bank ("card." +:+ CardCommand_Action input) "card" (CardCommand_CardID input) "succeeded"
    (CardCommand_RequestID input) who (JObj [("ignored", JBool (CardCommand_Ignored input))])) ;;
  card ← row (shard_exec (query (fun _ db =>
           scanCard (CardCommand_CardID input) <$> cards db !! (bank, CardCommand_CardID input))));
  mret (card, operation).

(** ** Manual retry of an expiry item *)

Definition reopen_run (bank run item : string) : sql shard_db Z :=
  update_run bank run (fun db r =>
    (ru_status r == "completed") &&
    match expiry_items db !! (bank, item) with
    | Some i => (ex_expiry_run_id i == run) && (ex_status i == "manual_retry_required")
    | None => false
    end)
    (fun _ _ r => r <| ru_status := "processing" |> <| ru_completed_at := None |>).

Definition retry_item (bank run item actor : string) : sql shard_db Z :=
  update_expiry_row bank item (fun _ db i =>
    (ex_expiry_run_id i == run) && (ex_status i == "manual_retry_required") &&
    match cards db !! (bank, ex_card_id i) with Some c => cd_status c != "expired" | None => false end)
    (fun env i =>
      i <| ex_status := "pending" |> <| ex_manual_retry_count := ex_manual_retry_count i + 1 |>
        <| ex_manual_retry_by := Some actor |> <| ex_manual_retry_at := Some (clock_timestamp env) |>
        <| ex_next_attempt_at := clock_timestamp env |>).

Definition RetryExpiryItem (bank run item actor : string) : M bool :=
  shard_exec (reopen_run bank run item) ;;
  n ← shard_exec (retry_item bank run item actor);
  mret (n =? 1).

Definition RecordExpiryRetryAudit (bank item actor requestID : string) : M unit :=
  shard_exec (insert_audit bank "expiry_retry" "expiry_item" item "succeeded" requestID
    (Actor (Some actor) "issuer_operator" None None) (JObj [("reason", JStr "manual_retry")])).
