(* ===== verification/CardService.v ===== *)
(** * CardService: issuance, lifecycle commands, replacement and expiry retry

    [internal/card/service.go]. The credential vault is the interface
    [CredentialVault]; the configured vault may be missing, as the source
    allows. *)

From S2P Require Import Prelude Json Domain Stores Uuid Vault World ShardTx Guards ShardOrder Idempotency AuthTypes CardStore.
Open Scope string_scope.
Open Scope list_scope.
Open Scope Z_scope.

(** ** The vault interface

    [vault.CredentialVault], and the laws the workflows rely on: a call changes
    nothing but the vault (and takes time), and revoking a card provisioned
    before takes back what the provision granted. *)

Class CredentialVault := {
  cv_Provision : string -> M ProvisionedCredential;
  cv_Verify : string -> string -> M VerificationResult;
  cv_Revoke : string -> M unit;
  cv_grants : vault_state -> string -> string -> string -> Prop
}.

(** What a vault call leaves alone. *)
Definition vault_only : relation world := fun w w' =>
  w_shard w' = w_shard w /\ w_shard_tx w' = w_shard_tx w /\ w_events w' = w_events w /\
  w_control w' = w_control w /\ w_control_tx w' = w_control_tx w /\ w_entropy w' = w_entropy w /\
  w_clock w <= w_clock w'.
#[export] Instance vault_only_preorder : PreOrder vault_only.
Proof.
  split; [intros w; repeat split; lia|]. intros a b c (?&?&?&?&?&?&?) (?&?&?&?&?&?&?). repeat split; congruence || lia.
Qed.

Class VaultLaws (V : CredentialVault) := {
  provision_frame id : frames vault_only (cv_Provision id);
  verify_frame p c : frames vault_only (cv_Verify p c);
  revoke_frame id : frames vault_only (cv_Revoke id);
  (** A vault that fails to provision granted nothing, unless its reply was lost. *)
  provision_fails id w e w' : w_vault_events w = [] -> cv_Provision id w = (inl e, w') ->
    w_vault_events w' = [] /\ w_vault w' = w_vault w;
  provision_quiet id w r w' : w_vault_events w = [] -> cv_Provision id w = (r, w') -> w_vault_events w' = [];
  revoke_quiet id w r w' : w_vault_events w = [] -> cv_Revoke id w = (r, w') -> w_vault_events w' = [];
  (** A pair is reported valid when it is granted, for the one card it is granted
      for; verifying changes nothing. *)
  verify_grants p c w r w' : cv_Verify p c w = (inr r, w') ->
    w_vault w' = w_vault w /\
    if Verif_Valid r then cv_grants (w_vault w) p c (Verif_CardID r) else forall card, ~ cv_grants (w_vault w) p c card;
  grants_one v p c card card' : cv_grants v p c card -> cv_grants v p c card' -> card = card';
  (** What was disclosed verifies. *)
  provision_grants id w cred w1 : id <> "" -> cv_Provision id w = (inr cred, w1) ->
    cv_grants (w_vault w1) (Cred_PAN cred) (Cred_CVV cred) id;
  (** Revoking what was provisioned leaves no new grant. *)
  provision_revoke id w cred w1 w2 r w3 p c card :
    cv_Provision id w = (inr cred, w1) -> w_vault w2 = w_vault w1 -> w_vault_events w2 = [] ->
    cv_Revoke id w2 = (r, w3) -> cv_grants (w_vault w3) p c card -> cv_grants (w_vault w) p c card
}.

(** The in-memory adapter behind a call that may fail. *)
#[export] Instance memory_vault (hmac : string -> string -> list Z) (key : string) : CredentialVault := {
  cv_Provision id := vault_call (Provision hmac key id);
  cv_Verify p c := vault_call (fun v => (inr (Verify hmac key p c v), v));
  cv_Revoke id := vault_call (Revoke id);
  cv_grants := vault_grants hmac key
}.

#[export] Instance memory_laws hmac key : VaultLaws (memory_vault hmac key).
Proof.
  assert (Hf : forall A (f : vault_state -> result A * vault_state), frames vault_only (vault_call f)).
  { intros A f w r w'. unfold vault_call, vault_only. repeat case_match; intros; simplify_eq/=; repeat split; lia. }
  split; intros; try apply Hf; cbn in *; unfold vault_call in *.
  - rewrite H in *. destruct (Provision _ _ _ _) as [r v'] eqn:E. cbn in *. injection H0 as -> <-. cbn.
    split; [done|]. unfold Provision in E. case_match; congruence.
  - rewrite H in *. destruct (Provision _ _ _ _) as [r' v'] eqn:E. cbn in *. injection H0 as _ <-. done.
  - rewrite H in *. destruct (Revoke _ _) as [r' v'] eqn:E. cbn in *. injection H0 as _ <-. done.
  - destruct (match w_vault_events w with [] => _ | _ => _ end) as [e w0] eqn:Ee.
    assert (Hw0 : w_vault w0 = w_vault w) by (destruct (w_vault_events w); injection Ee as <- <-; done).
    cbn in H. destruct (ev_fault e); [done|]. injection H as <- <-. cbn. rewrite Hw0. split; [done|].
    unfold vault_grants. destruct (Verify hmac key p c (w_vault w)) as [card [|]]; cbn; [done|]. intros card' [=].
  - unfold vault_grants in *. congruence.
  - destruct (match w_vault_events w with [] => _ | _ => _ end) as [e w0] eqn:Ee.
    destruct (Provision_grants hmac key id (w_vault w0) H) as (cred' & v' & Hp & Hg). rewrite Hp in H0.
    destruct (ev_fault e); [done|]. injection H0 as <- <-. exact Hg.
  - rewrite H1 in *. destruct (Revoke id (w_vault w2)) as [r' v'] eqn:E. cbn in *. injection H2 as <- <-.
    destruct (match w_vault_events w with [] => _ | _ => _ end) as [e w0] eqn:Ee.
    assert (Hw0 : w_vault w0 = w_vault w) by (destruct (w_vault_events w); injection Ee as <- <-; done).
    destruct (Provision hmac key id (w_vault w0)) as [rp vp] eqn:Ep.
    destruct (ev_fault e); [done|]. injection H as -> <-. cbn in H0. rewrite H0 in E. rewrite <- Hw0.
    eapply provision_revoke_grants; eassumption.
Qed.

(** ** service.go *)

Definition replayLifetime : Z := 7 * 24 * hour.
Definition statusOK : Z := 200.
Definition statusCreated : Z := 201.
Definition statusAccepted : Z := 202.
Definition statusNotFound : Z := 404.
Definition statusConflict : Z := 409.
Definition statusUnprocessable : Z := 422.

Definition problem (status : Z) (code detail : string) : error := ErrProblem status code detail.

Definition newUUID : M string := b ← rand16; mret (card_newUUID b).

Definition combined (card : Card) (operation : CardOperation) : json :=
  JObj [("card", Card_json card); ("operation", CardOperation_json operation)].

Definition issuanceResponse (card : Card) (operation : CardOperation) (credentials : ProvisionedCredential) : json :=
  JObj [("card", Card_json card);
        ("credentials", JObj [("cvv", JStr (Cred_CVV credentials)); ("pan", JStr (Cred_PAN credentials))]);
        ("operation", CardOperation_json operation)].

Section Service.
Context (hmac : string -> string -> string) (fingerprinter : Fingerprinter).
Context `{!CredentialVault}.
(** Whether [s.vault] is configured. *)
Context (vault_configured : bool).

(** [claim]: response, status, found. *)
Definition claim (bank scope key body : string) : M (json * Z * bool) :=
  now ← time_now;
  r ← try (ClaimIdempotency (MkShardIdempotencyClaim bank scope key (Fingerprint hmac fingerprinter body) now
             (now + replayLifetime)));
  match r with
  | inl err =>
      if errors_is err ErrIdempotencyConflict then
        throw (problem statusConflict "idempotency_conflict" "Idempotency-Key was previously used for a different request.")
      else throw err
  | inr replay =>
      mret (ShardIdempotencyReplay_Response replay, ShardIdempotencyReplay_Status replay, ShardIdempotencyReplay_Found replay)
  end.

(** [IssueCardWorkflow] after the idempotency key is claimed. *)
Definition issue_claimed (principal : Principal) (bank key scope clientID accountID productID reason requestID : string) : M json :=
  valid ← IssueReferencesValid bank clientID accountID productID;
  if negb valid then
    throw (problem statusUnprocessable "invalid_reference" "The card references are not active and bank-consistent.")
  else
    cardID ← newUUID;
    operationID ← newUUID;
    if negb vault_configured then throw (ErrMsg "card: credential vault is not configured")
    else
      credentials ← wrap "provision card credentials" (cv_Provision cardID);
      with_compensation (cv_Revoke cardID) (
        co ← IssueCard bank (MkCardIssue cardID operationID clientID accountID productID (Cred_MaskedPAN credentials)
               reason (Principal_UserID principal) (Principal_Role principal) (actorEntityID principal) requestID);
        FinishIdempotency bank scope key statusCreated (combined co.1 co.2) operationID (Principal_UserID principal) ;;
        shard_commit ;;
        mret (issuanceResponse co.1 co.2 credentials)).

Definition IssueCardWorkflow (principal : Principal) (bank key body clientID accountID productID reason requestID : string) : M json :=
  beginTenant bank ;;
  with_defer shard_rollback (
    let scope := "cards.issue.actor." +:+ Principal_UserID principal in
    rsf ← claim bank scope key body;
    let '(replay, _, found) := rsf in
    if found : bool then mret replay
    else issue_claimed principal bank key scope clientID accountID productID reason requestID).

Definition replace (principal : Principal) (bank id scope key reason requestID : string) (state : CardState) : M (json * Z) :=
  if (CardState_Status state != "active") && (CardState_Status state != "suspended") then
    throw (problem statusUnprocessable "invalid_card_transition" "The card cannot be replaced in its current status.")
  else
    pending ← ReplacementPending bank id;
    if pending : bool then
      throw (problem statusConflict "replacement_pending" "The card already has an issued replacement.")
    else
      successor ← newUUID;
      operationID ← newUUID;
      if negb vault_configured then throw (ErrMsg "card: credential vault is not configured")
      else
        credentials ← wrap "provision replacement credentials" (cv_Provision successor);
        with_compensation (cv_Revoke successor) (
          co ← ReplaceCard bank (MkCardReplacement successor operationID id (CardState_ClientID state)
                 (CardState_AccountReferenceID state) (CardState_ProductID state) (Cred_MaskedPAN credentials) reason
                 (Principal_UserID principal) (Principal_Role principal) (actorEntityID principal) requestID);
          FinishIdempotency bank scope key statusCreated (combined co.1 co.2) operationID (Principal_UserID principal) ;;
          shard_commit ;;
          mret (issuanceResponse co.1 co.2 credentials, statusCreated)).

(** A lifecycle command on a locked card. *)
Definition command_locked (principal : Principal) (bank id action scope key reason requestID : string) (state : CardState)
    : M (json * Z) :=
  let '(target, valid, ignored) := Lifecycle.Transition (CardState_Status state) action in
  if negb valid then
    throw (problem statusUnprocessable "invalid_card_transition" "The requested card transition is not allowed.")
  else
    operationID ← newUUID;
    predecessorOperationID ← (if (action == "activate") && negb ignored then newUUID else mret "");
    co ← ApplyCardCommand bank (MkCardCommand id operationID predecessorOperationID action (CardState_Status state)
           target ignored reason (Principal_UserID principal) (Principal_Role principal) (actorEntityID principal) requestID);
    FinishIdempotency bank scope key statusOK (combined co.1 co.2) operationID (Principal_UserID principal) ;;
    shard_commit ;;
    mret (combined co.1 co.2, statusOK).

Definition CardCommandWorkflow (principal : Principal) (bank id action key body reason requestID : string) : M (json * Z) :=
  beginTenant bank ;;
  with_defer shard_rollback (
    let scope := "cards." +:+ action +:+ "." +:+ id +:+ ".actor." +:+ Principal_UserID principal in
    rsf ← claim bank scope key body;
    let '(replay, status, found) := rsf in
    if found : bool then mret (replay, status)
    else
      r ← try (LockCard bank id);
      match r with
      | inl err =>
          if errors_is err ErrNotFound then
            throw (problem statusNotFound "not_found" "The requested resource does not exist.")
          else throw err
      | inr state =>
          if action == "replace" then replace principal bank id scope key reason requestID state
          else command_locked principal bank id action scope key reason requestID state
      end).

Definition RetryExpiryWorkflow (principal : Principal) (bank runID itemID key body requestID : string) : M unit :=
  beginTenant bank ;;
  with_defer shard_rollback (
    let scope := "expiry.retry." +:+ runID +:+ "." +:+ itemID +:+ ".actor." +:+ Principal_UserID principal in
    rsf ← claim bank scope key body;
    if rsf.2 : bool then shard_commit
    else
      retryable ← RetryExpiryItem bank runID itemID (Principal_UserID principal);
      if negb retryable then
        throw (problem statusConflict "expiry_item_not_retryable" "The expiry item is not eligible for manual retry.")
      else
        RecordExpiryRetryAudit bank itemID (Principal_UserID principal) requestID ;;
        FinishIdempotency bank scope key statusAccepted (JObj [("id", JStr itemID); ("status", JStr "pending")]) itemID
          (Principal_UserID principal) ;;
        shard_commit).
End Service.

(** ** Reads *)

Definition marshalItems {A} (encode : A -> json) (m : M (list A)) : M (list json) :=
  items ← m; mret (List.map encode items).
Definition ListCards (bank clientID accountID productID status : string) : M (list json) :=
  marshalItems Card_json (reader_Cards bank (MkCardFilter clientID accountID productID status)).
Definition GetCard (bank id : string) : M json := value ← reader_Card bank id; mret (Card_json value).
Definition ListCardOperations (bank id : string) : M (list json) :=
  marshalItems CardOperation_json (reader_CardOperations bank id).
Definition ListCardStatusHistory (bank id : string) : M (list json) :=
  marshalItems CardStatusHistory_json (reader_CardStatusHistory bank id).
