(* ===== verification/VaultTransport.v ===== *)
(** * VaultTransport: the development transport of the credential vault

    [internal/vault/development/development.go]: the handler in front of a vault
    and the client that reaches it, from bytes to bytes.  [send] is the exchange
    of one request over the network, [None] when it fails. *)

From S2P Require Import Prelude Text Json JsonText JsonRoundtrip Http Stores Uuid Vault World ShardTx CardService Pagination PaginationSafety Scenario.
Open Scope string_scope.
Open Scope list_scope.
Open Scope Z_scope.

Definition maxBodyBytes : nat := Z.to_nat 2048.
Definition errUnavailable : error := ErrMsg "vault: development vault unavailable".
(** [digits] of development.go: nonempty and only decimal digits. *)
Definition dev_digits (value : string) : bool := if value == "" then false else all_digits value.

(** ** The handler *)

Definition card_fields : fields string := [("card_id", string_field (fun s _ => s))].
Definition pair_fields : fields (string * string) :=
  [("pan", string_field (fun s p => (s, p.2))); ("cvv", string_field (fun s p => (p.1, s)))].
(** A body over the limit is read to no end. *)
Definition vault_decode {R} (fs : fields R) (zero : R) (body : string) : option R :=
  if (maxBodyBytes <? length (bytes_of body))%nat then None else unmarshal true fs zero body.

Definition credential_json (c : ProvisionedCredential) : json :=
  JObj [("masked_pan", JStr (Cred_MaskedPAN c)); ("pan", JStr (Cred_PAN c)); ("cvv", JStr (Cred_CVV c))].
Definition result_json (r : VerificationResult) : json :=
  JObj [("card_id", JStr (Verif_CardID r)); ("valid", JBool (Verif_Valid r))].
Definition vault_writeJSON (status : Z) (value : json) : http_response := Response status "application/json" true (Json value).
Definition vault_writeError (status : Z) : http_response := vault_writeJSON status (JObj [("error", JStr "vault request failed")]).

Section Handler.
Context {V : CredentialVault}.
Definition answer_vault {A} (m : M A) (ok : A -> http_response) : M http_response :=
  r ← try m; mret (match r with inl _ => vault_writeError 503 | inr a => ok a end).
Definition vault_ServeHTTP (method path body : string) : M http_response :=
  if method != "POST" then mret (vault_writeError 404)
  else if path == "/v1/provision" then
    match vault_decode card_fields "" body with
    | Some cardID =>
        if trim_space cardID == "" then mret (vault_writeError 400)
        else answer_vault (cv_Provision cardID) (fun disclosure => vault_writeJSON 200 (credential_json disclosure))
    | None => mret (vault_writeError 400)
    end
  else if path == "/v1/verify" then
    match vault_decode pair_fields ("", "") body with
    | Some (pan, cvv) =>
        if negb (dev_digits pan) || negb (dev_digits cvv) then mret (vault_writeError 400)
        else answer_vault (cv_Verify pan cvv) (fun result => vault_writeJSON 200 (result_json result))
    | None => mret (vault_writeError 400)
    end
  else if path == "/v1/revoke" then
    match vault_decode card_fields "" body with
    | Some cardID =>
        if trim_space cardID == "" then mret (vault_writeError 400)
        else answer_vault (cv_Revoke cardID) (fun _ => Response 204 "" true (Text ""))
    | None => mret (vault_writeError 400)
    end
  else mret (vault_writeError 404).
End Handler.

(** ** The client *)

(** The bytes of a body; the encoder ends a value with a newline. *)
Definition body_text (b : http_body) : string := match b with Json value => json_encode value +:+ of_bytes [10%N] | Text s => s end.

Definition bool_pointer_field {R} (put : option bool -> R -> R) (t : jtext) (r : R) : option R :=
  match t with TBool b => Some (put (Some b) r) | TNull => Some (put None r) | _ => None end.
Record credential_response := CredentialResponse { cr_MaskedPAN : option string; cr_PAN : option string; cr_CVV : option string }.
Definition credential_response_fields : fields credential_response :=
  [("masked_pan", pointer_field (fun s r => CredentialResponse s (cr_PAN r) (cr_CVV r)));
   ("pan", pointer_field (fun s r => CredentialResponse (cr_MaskedPAN r) s (cr_CVV r)));
   ("cvv", pointer_field (fun s r => CredentialResponse (cr_MaskedPAN r) (cr_PAN r) s))].
Record result_response := ResultResponse { rr_CardID : option string; rr_Valid : option bool }.
Definition result_response_fields : fields result_response :=
  [("card_id", pointer_field (fun s r => ResultResponse s (rr_Valid r)));
   ("valid", bool_pointer_field (fun b r => ResultResponse (rr_CardID r) b))].

Section Client.
Context (send : string -> string -> M (option http_response)).
(** [Client.post] without an output, and with one: what lies past the limit of
    the reader is not seen. *)
Definition exchange (path : string) (input : json) : M http_response :=
  response ← send path (json_encode input);
  match response with
  | Some r => if (rs_status r =? 200) || (rs_status r =? 204) then mret r else throw errUnavailable
  | None => throw errUnavailable
  end.
Definition post {R} (path : string) (input : json) (fs : fields R) (zero : R) : M R :=
  r ← exchange path input;
  if negb (String.prefix "application/json" (rs_content_type r)) then throw errUnavailable
  else match unmarshal true fs zero (of_bytes (take maxBodyBytes (bytes_of (body_text (rs_body r))))) with
  | Some output => mret output
  | None => throw errUnavailable
  end.

Definition checked_credential (r : credential_response) : option ProvisionedCredential :=
  masked ← cr_MaskedPAN r; pan ← cr_PAN r; cvv ← cr_CVV r;
  let n := String.length pan in
  let k := String.length cvv in
  if (masked == "") || (n <? 13)%nat || (19 <? n)%nat || negb (dev_digits pan) || (negb (k =? 3)%nat && negb (k =? 4)%nat) || negb (dev_digits cvv)
  then None else Some (MkProvisionedCredential masked pan cvv).
Definition checked_result (r : result_response) : option VerificationResult :=
  cardID ← rr_CardID r; valid ← rr_Valid r;
  if (valid && (trim_space cardID == "")) || (negb valid && (cardID != "")) then None else Some (MkVerificationResult cardID valid).
Definition found_or_unavailable {A} (o : option A) : M A := match o with Some a => mret a | None => throw errUnavailable end.

Definition client_Provision (cardID : string) : M ProvisionedCredential :=
  response ← post "/v1/provision" (JObj [("card_id", JStr cardID)]) credential_response_fields (CredentialResponse None None None);
  found_or_unavailable (checked_credential response).
Definition client_Verify (pan cvv : string) : M VerificationResult :=
  response ← post "/v1/verify" (JObj [("pan", JStr pan); ("cvv", JStr cvv)]) result_response_fields (ResultResponse None None);
  found_or_unavailable (checked_result response).
Definition client_Revoke (cardID : string) : M unit :=
  exchange "/v1/revoke" (JObj [("card_id", JStr cardID)]) ;; mret tt.
End Client.

(** ** Plain strings: written as they are *)

Definition plain_string (s : string) : Prop := Forall (fun c => plain c = true) (bytes_of s).
Lemma plain_word s : forallb plain (bytes_of s) = true -> plain_string s.
Proof. rewrite forallb_forall. intros H. apply Forall_forall. intros c Hc. apply H. by apply list_elem_of_In. Qed.
Lemma plain_encode s : plain_string s -> encode_string s = quote +:+ s +:+ quote.
Proof. intros H. unfold encode_string. by rewrite escape_plain, of_bytes_of. Qed.
Lemma encode_length s : plain_string s -> String.length (encode_string s) = (String.length s + 2)%nat.
Proof. intros H. rewrite plain_encode by done. rewrite !length_append. cbn. lia. Qed.
Lemma plain_utf8 s : plain_string s -> utf8_valid s = true.
Proof.
  intros H. apply ascii_utf8. unfold ascii_only. apply forallb_forall. intros c Hc. unfold plain_string in H. rewrite Forall_forall in H.
  specialize (H c ltac:(by apply list_elem_of_In)). unfold plain in H. rewrite !andb_true_iff in H. tauto.
Qed.
Lemma digits_plain_string s : all_digits s = true -> plain_string s.
Proof.
  unfold all_digits, plain_string, bytes_of. rewrite forallb_forall. intros H. apply Forall_fmap, Forall_forall. intros c Hc.
  specialize (H c ltac:(by apply list_elem_of_In)). unfold is_digit in H. rewrite andb_true_iff, !N.leb_le in H. cbn. unfold plain.
  rewrite !andb_true_iff, !negb_true_iff, !N.eqb_neq, N.leb_le, N.ltb_lt. lia.
Qed.
Lemma uuid_plain s : ValidUUID s = true -> plain_string s.
Proof.
  intros H. unfold plain_string, bytes_of. apply Forall_fmap. eapply ValidUUID_all; [done| |done]. intros c Hc. cbn. unfold uuid_hex_char in Hc.
  rewrite orb_true_iff, !andb_true_iff, !N.leb_le in Hc. unfold plain. rewrite !andb_true_iff, !negb_true_iff, !N.eqb_neq, N.leb_le, N.ltb_lt. lia.
Qed.

(** Nothing is trimmed of visible characters. *)
Definition visible (c : N) : bool := ((33 <=? c) && (c <? 128))%N.
Lemma visible_prefix c l : visible c = true -> space_prefix (c :: l) = 0%nat.
Proof.
  unfold visible. rewrite andb_true_iff, N.leb_le, N.ltb_lt. intros Hc. unfold space_prefix.
  assert (H1 : ((9 <=? c) && (c <=? 13) || (c =? 32))%N = false) by (rewrite orb_false_iff, andb_false_iff, N.eqb_neq, !N.leb_gt; lia).
  assert (Hn : forall n, (128 <= n)%N -> (c =? n)%N = false) by (intros n Hn; apply N.eqb_neq; lia).
  rewrite H1, (Hn 194%N), (Hn 225%N), (Hn 226%N), (Hn 227%N) by lia. cbn [andb]. by repeat case_match.
Qed.
Lemma visible_suffix c l : Forall (fun x => visible x = true) (c :: l) -> space_suffix_rev (c :: l) = 0%nat.
Proof.
  intros H. assert (Hp : forall x y, visible x = true -> space_prefix (x :: y) = 0%nat) by (intros; by apply visible_prefix).
  apply Forall_cons in H as [Hc H]. unfold space_suffix_rev. destruct l as [|b [|d l]]; [by apply Hp|..];
    repeat (apply Forall_cons in H as [? H]); by rewrite !Hp by done.
Qed.
Lemma trim_none width l : (forall c r, l = c :: r -> width l = 0%nat) -> trim_with width (length l) l = l.
Proof. intros H. destruct l as [|c r]; [done|]. cbn. by rewrite (H c r). Qed.
Lemma trim_visible s : Forall (fun c => visible c = true) (bytes_of s) -> trim_space s = s.
Proof.
  intros H. unfold trim_space. rewrite trim_none.
  - rewrite <- (length_rev (bytes_of s)), trim_none; [by rewrite rev_involutive, of_bytes_of|].
    intros c r E. rewrite E. apply visible_suffix. rewrite <- E. by apply Forall_rev.
  - intros c r E. rewrite E in *. apply Forall_cons in H as [? _]. by apply visible_prefix.
Qed.
Lemma uuid_visible s : ValidUUID s = true -> trim_space s = s.
Proof.
  intros H. apply trim_visible. unfold bytes_of. apply Forall_fmap. eapply ValidUUID_all; [done| |done]. intros c Hc. cbn. unfold uuid_hex_char in Hc.
  rewrite orb_true_iff, !andb_true_iff, !N.leb_le in Hc. unfold visible. rewrite andb_true_iff, N.leb_le, N.ltb_lt. lia.
Qed.

(** ** The transport over a vault *)

(** A network that delivers every request to the handler and its response. *)
Definition deliver {V : CredentialVault} (path body : string) : M (option http_response) := r ← vault_ServeHTTP "POST" path body; mret (Some r).
(** What the client tells of an error. *)
Definition unavailable {A} (r : result A) : result A := match r with inl _ => inl errUnavailable | inr a => inr a end.

(** Bytes the handler and the client write are read back within their limit. *)
Definition fits (l : list (string * json)) : Prop := (String.length (json_encode (JObj l)) < maxBodyBytes)%nat.
Lemma decode_written {R} (fs : fields R) zero l : json_utf8 (JObj l) = true -> (nesting (JObj l) <= 50)%nat -> fits l ->
  vault_decode fs zero (json_encode (JObj l)) = decode_members true fs (List.map (fun p => (p.1, text_of p.2)) l) zero.
Proof.
  intros Hu Hn Hf. unfold vault_decode. rewrite length_bytes. unfold fits in Hf.
  rewrite (proj2 (Nat.ltb_ge _ _)) by lia. rewrite unmarshal_written; [done|done|]. apply max_nesting_large. by apply Nat.leb_le.
Qed.
(** A newline after an object changes nothing. *)
Lemma unmarshal_line {R} (fs : fields R) zero l : json_utf8 (JObj l) = true -> (nesting (JObj l) <= 50)%nat ->
  unmarshal true fs zero (json_encode (JObj l) +:+ of_bytes [10%N]) = decode_members true fs (List.map (fun p => (p.1, text_of p.2)) l) zero.
Proof.
  intros Hu Hn. unfold unmarshal, parse_json. rewrite bytes_of_app, object_read; [done|done|]. apply max_nesting_large. by apply Nat.leb_le.
Qed.
(** A disclosure the client accepts. *)
Record disclosable (c : ProvisionedCredential) : Prop := Disclosable {
  ds_masked : plain_string (Cred_MaskedPAN c) /\ (0 < String.length (Cred_MaskedPAN c) <= 64)%nat;
  ds_pan : all_digits (Cred_PAN c) = true /\ (13 <= String.length (Cred_PAN c) <= 19)%nat;
  ds_cvv : all_digits (Cred_CVV c) = true /\ (String.length (Cred_CVV c) = 3 \/ String.length (Cred_CVV c) = 4)%nat
}.
Lemma length_positive s : (0 < String.length s)%nat -> (s == "") = false.
Proof. intros H. apply String.eqb_neq. intros ->. cbn in H. lia. Qed.
(** The lengths of literals. *)
Ltac is_number n := lazymatch n with O => idtac | S ?m => is_number m end.
Ltac lengths :=
  repeat match goal with |- context [String.length ?s] =>
    let n := eval vm_compute in (String.length s) in is_number n; change (String.length s) with n end;
  unfold maxBodyBytes; lia.
Lemma disclosure_read c : disclosable c ->
  unmarshal true credential_response_fields (CredentialResponse None None None)
    (of_bytes (take maxBodyBytes (bytes_of (body_text (Json (credential_json c)))))) ≫= checked_credential = Some c.
Proof.
  intros [[Hm Hml] [Hp Hpl] [Hc Hcl]]. pose proof (digits_plain_string _ Hp) as Hpp. pose proof (digits_plain_string _ Hc) as Hcc.
  assert (Hlen : (length (bytes_of (body_text (Json (credential_json c)))) <= maxBodyBytes)%nat).
  { rewrite length_bytes. unfold body_text, credential_json. cbn [json_encode List.map String.concat fst snd].
    rewrite !length_append, (encode_length (Cred_MaskedPAN c)), (encode_length (Cred_PAN c)), (encode_length (Cred_CVV c)) by done. lengths. }
  rewrite take_ge, of_bytes_of by done. unfold body_text, credential_json. rewrite unmarshal_line.
  2: { cbn [json_utf8 forallb fst snd]. by rewrite (plain_utf8 (Cred_MaskedPAN c)), (plain_utf8 (Cred_PAN c)), (plain_utf8 (Cred_CVV c)). }
  2: { cbn. lia. }
  change (decode_members _ _ _ _) with (Some (CredentialResponse (Some (Cred_MaskedPAN c)) (Some (Cred_PAN c)) (Some (Cred_CVV c)))).
  cbn [mbind option_bind]. unfold checked_credential. cbn [cr_MaskedPAN cr_PAN cr_CVV mbind option_bind].
  unfold dev_digits. rewrite Hp, Hc, !length_positive by lia.
  rewrite (proj2 (Nat.ltb_ge _ _)), (proj2 (Nat.ltb_ge 19 _)) by lia. by destruct Hcl as [-> | ->], c.
Qed.
(** A result the client accepts: a card that is a UUID, or none. *)
Definition reportable (r : VerificationResult) : Prop :=
  Verif_Valid r = true /\ ValidUUID (Verif_CardID r) = true \/ r = MkVerificationResult "" false.
Lemma result_read r : reportable r ->
  unmarshal true result_response_fields (ResultResponse None None)
    (of_bytes (take maxBodyBytes (bytes_of (body_text (Json (result_json r)))))) ≫= checked_result = Some r.
Proof.
  assert (Hu : plain_string (Verif_CardID r) -> (String.length (Verif_CardID r) <= 64)%nat ->
    unmarshal true result_response_fields (ResultResponse None None)
      (of_bytes (take maxBodyBytes (bytes_of (body_text (Json (result_json r)))))) = Some (ResultResponse (Some (Verif_CardID r)) (Some (Verif_Valid r)))).
  { intros Hp Hl. assert (Hlen : (length (bytes_of (body_text (Json (result_json r)))) <= maxBodyBytes)%nat).
    { rewrite length_bytes. unfold body_text, result_json. cbn [json_encode List.map String.concat fst snd].
      rewrite !length_append, (encode_length (Verif_CardID r)) by done. destruct (Verif_Valid r); lengths. }
    rewrite take_ge, of_bytes_of by done. unfold body_text, result_json. rewrite unmarshal_line; [done| |cbn; lia].
    cbn [json_utf8 forallb fst snd]. by rewrite (plain_utf8 (Verif_CardID r)). }
  intros [[Hv Hid]| ->]; [|by vm_compute]. rewrite Hu by (by apply uuid_plain || rewrite ValidUUID_length; lia || done).
  cbn [mbind option_bind]. unfold checked_result. cbn [rr_CardID rr_Valid mbind option_bind]. rewrite uuid_visible, Hv by done. cbn [negb andb].
  rewrite length_positive by (rewrite ValidUUID_length; lia || done). by destruct r; cbn in *; subst.
Qed.

(** ** The in-memory vault behind the transport *)

Lemma digit_plain c : is_digit c = true -> plain (Ascii.N_of_ascii c) = true.
Proof.
  unfold is_digit, plain. rewrite !andb_true_iff, !negb_true_iff, !N.eqb_neq, !N.leb_le, N.ltb_lt. lia.
Qed.
Lemma star_plain c : Ascii.eqb (Ascii.ascii_of_N 42) c = true -> plain (Ascii.N_of_ascii c) = true.
Proof. by intros <-%Ascii.eqb_eq. Qed.
Lemma masked_plain s : masked_format s = true -> plain_string s /\ String.length s = 16%nat.
Proof.
  unfold masked_format, plain_string, bytes_of. intros H. rewrite <- (String.string_of_list_ascii_of_string s) at 2. rewrite string_length_list. revert H.
  destruct (String.list_ascii_of_string s) as [|a [|b [|c [|d [|e [|f [|g [|h [|i [|j [|k [|l [|m [|n [|o [|p [|]]]]]]]]]]]]]]]]]; try done.
  cbn [forallb]. rewrite !andb_true_iff. intros H. split; [|done]. destruct_and!. cbn.
  repeat (constructor; [first [by apply digit_plain | by apply star_plain]|]). constructor.
Qed.
Lemma Provision_disclosable hmac key id v c v' : Provision hmac key id v = (inr c, v') -> disclosable c.
Proof.
  intros H. pose proof (Provision_masked _ _ _ _ _ _ H) as [Hm Hml]%masked_plain. unfold Provision in H. destruct (id == ""); [done|]. injection H as <- _.
  cbn [Cred_MaskedPAN] in *. destruct (pan_chars hmac key id) as (l & Hp & Hl & Hd). destruct (cvv_chars hmac key id) as (x & y & z & Hc & Hcd).
  split; cbn [Cred_MaskedPAN Cred_PAN Cred_CVV].
  - split; [done|lia].
  - rewrite Hp, all_digits_of_list, string_length_list, forallb_app, Hd, length_app, Hl. split; [done|cbn; lia].
  - rewrite Hc, all_digits_of_list, string_length_list. split; [done|by left].
Qed.

(** Every stored card is a UUID, as the card service provisions them. *)
Definition uuid_cards (v : vault_state) : Prop := forall token id, vault_cards v !! token = Some id -> ValidUUID id = true.
Lemma Verify_reportable hmac key p c v : uuid_cards v -> reportable (Verify hmac key p c v).
Proof.
  intros Hv. destruct (Verif_Valid (Verify hmac key p c v)) eqn:E.
  - left. split; [done|]. apply Verify_valid in E as (Hl & _). by eapply Hv.
  - right. unfold Verify in *. by repeat case_match.
Qed.
Lemma Provision_uuid_cards hmac key id v : ValidUUID id = true -> uuid_cards v -> uuid_cards (Provision hmac key id v).2.
Proof.
  intros Hid Hv token i. unfold Provision. destruct (id == ""); [apply Hv|]. cbn. intros [[_ <-]|[_ H]]%lookup_insert_Some; [done|by eapply Hv].
Qed.
Lemma Revoke_uuid_cards id v : uuid_cards v -> uuid_cards (Revoke id v).2.
Proof. intros Hv token i. unfold Revoke. destruct (id == ""); [apply Hv|]. cbn. apply Hv. Qed.

Section Refinement.
Context (hmac : string -> string -> list Z) (key : string).
#[local] Instance dev_vault : CredentialVault := memory_vault hmac key.

Lemma exchange_answered {A} path input (m : M A) ok w :
  vault_ServeHTTP "POST" path (json_encode input) = answer_vault m ok -> (forall a, rs_status (ok a) = 200 \/ rs_status (ok a) = 204) ->
  exchange deliver path input w = match m w with (inl _, w') => (inl errUnavailable, w') | (inr a, w') => (inr (ok a), w') end.
Proof.
  intros Hserve Hok. unfold exchange, deliver. rewrite Hserve. unfold answer_vault, mbind, M_bind, mret, M_ret, try.
  destruct (m w) as [[e|a] w']; [done|]. by destruct (Hok a) as [-> | ->].
Qed.
Lemma post_answered {A B R} path input (m : M A) ok (fs : fields R) zero (checked : R -> option B) (f : A -> B) w :
  vault_ServeHTTP "POST" path (json_encode input) = answer_vault m (fun a => vault_writeJSON 200 (ok a)) ->
  (forall a w', m w = (inr a, w') ->
     unmarshal true fs zero (of_bytes (take maxBodyBytes (bytes_of (body_text (Json (ok a)))))) ≫= checked = Some (f a)) ->
  (response ← post deliver path input fs zero; found_or_unavailable (checked response)) w =
  match m w with (inl _, w') => (inl errUnavailable, w') | (inr a, w') => (inr (f a), w') end.
Proof.
  intros Hserve Hread. unfold post. unfold mbind at 1 2. unfold M_bind.
  rewrite (exchange_answered path input m _ w Hserve) by (intros; by left). destruct (m w) as [[e|a] w'] eqn:E; [done|].
  specialize (Hread a w' eq_refl). cbn [rs_content_type rs_body vault_writeJSON]. change (String.prefix "application/json" "application/json") with true.
  cbn [negb]. destruct (unmarshal _ _ _ _) as [output|]; [|done]. cbn [mbind option_bind] in Hread. unfold mret, M_ret. by rewrite Hread.
Qed.

(** A call as the caller of the client sees it. *)
Definition told {A} (x : result A * world) : result A * world := (unavailable x.1, x.2).

Lemma Provision_served id : ValidUUID id = true ->
  vault_ServeHTTP "POST" "/v1/provision" (json_encode (JObj [("card_id", JStr id)])) =
  answer_vault (cv_Provision id) (fun c => vault_writeJSON 200 (credential_json c)).
Proof.
  intros Hid. unfold vault_ServeHTTP. cbn [String.eqb Ascii.eqb Bool.eqb negb]. rewrite decode_written; [|..].
  - cbn [decode_members List.map fst snd text_of]. change (find_field card_fields "card_id") with (Some (string_field (R := string) (fun s _ => s))).
    cbn [string_field mbind option_bind]. rewrite uuid_visible by done. destruct (String.eqb_spec id "") as [->|_]; done.
  - cbn [json_utf8 forallb fst snd]. by rewrite (plain_utf8 id (uuid_plain _ Hid)).
  - cbn. lia.
  - unfold fits. cbn [json_encode List.map String.concat fst snd]. rewrite !length_append, (encode_length id (uuid_plain _ Hid)), (ValidUUID_length id Hid). lengths.
Qed.
Lemma Revoke_served id : ValidUUID id = true ->
  vault_ServeHTTP "POST" "/v1/revoke" (json_encode (JObj [("card_id", JStr id)])) =
  answer_vault (cv_Revoke id) (fun _ => Response 204 "" true (Text "")).
Proof.
  intros Hid. unfold vault_ServeHTTP. cbn [String.eqb Ascii.eqb Bool.eqb negb]. rewrite decode_written; [|..].
  - cbn [decode_members List.map fst snd text_of]. change (find_field card_fields "card_id") with (Some (string_field (R := string) (fun s _ => s))).
    cbn [string_field mbind option_bind]. rewrite uuid_visible by done. destruct (String.eqb_spec id "") as [->|_]; done.
  - cbn [json_utf8 forallb fst snd]. by rewrite (plain_utf8 id (uuid_plain _ Hid)).
  - cbn. lia.
  - unfold fits. cbn [json_encode List.map String.concat fst snd]. rewrite !length_append, (encode_length id (uuid_plain _ Hid)), (ValidUUID_length id Hid). lengths.
Qed.
(** A pair of numbers that fits a request. *)
Definition sendable (p c : string) : Prop :=
  dev_digits p = true /\ dev_digits c = true /\ (String.length p + String.length c <= 1024)%nat.
Lemma Verify_served p c : sendable p c ->
  vault_ServeHTTP "POST" "/v1/verify" (json_encode (JObj [("pan", JStr p); ("cvv", JStr c)])) =
  answer_vault (cv_Verify p c) (fun r => vault_writeJSON 200 (result_json r)).
Proof.
  intros (Hp & Hc & Hl). assert (Hpp : plain_string p /\ plain_string c).
  { unfold dev_digits in *. repeat case_match; try done. split; by apply digits_plain_string. }
  destruct Hpp as [Hpp Hcc]. unfold vault_ServeHTTP. cbn [String.eqb Ascii.eqb Bool.eqb negb]. rewrite decode_written; [|..].
  - change (decode_members true pair_fields (List.map _ _) ("", "")) with (Some (p, c)). cbv iota beta. by rewrite Hp, Hc.
  - cbn [json_utf8 forallb fst snd]. by rewrite (plain_utf8 p Hpp), (plain_utf8 c Hcc).
  - cbn. lia.
  - unfold fits. cbn [json_encode List.map String.concat fst snd]. rewrite !length_append, (encode_length p Hpp), (encode_length c Hcc). lengths.
Qed.

Lemma vault_call_run {A} (f : vault_state -> result A * vault_state) w x w' : vault_call f w = (x, w') ->
  (w_vault w' = w_vault w \/ w_vault w' = (f (w_vault w)).2) /\ forall a, x = inr a -> (f (w_vault w)).1 = inr a.
Proof.
  unfold vault_call. destruct (w_vault_events w) as [|ev evs]; cbn.
  - destruct (f (w_vault w)) as [y v']. intros [= <- <-]. split; [by right|auto].
  - destruct (f (w_vault w)) as [y v']. destruct (ev_fault ev); [|intros [= <- <-]; split; [by right|auto]].
    intros [= <- <-]. split; [|done]. destruct (ev_applied ev); [by right|by left].
Qed.
Lemma keeps_uuid_cards {A} (f : vault_state -> result A * vault_state) w : uuid_cards (w_vault w) -> uuid_cards (f (w_vault w)).2 ->
  uuid_cards (w_vault (told (vault_call f w)).2).
Proof.
  intros Hw Hf. unfold told. destruct (vault_call f w) as [x w'] eqn:E. apply vault_call_run in E as [[H|H] _]; cbn [snd]; by rewrite H.
Qed.

Lemma client_Provision_told id w : ValidUUID id = true -> client_Provision deliver id w = told (cv_Provision id w).
Proof.
  intros Hid. unfold client_Provision. erewrite (post_answered _ _ _ _ _ _ _ (fun c => c) w (Provision_served id Hid)).
  - unfold told. by destruct (cv_Provision id w) as [[e|c] w'].
  - intros c w' Hrun. apply vault_call_run in Hrun as [_ Hf]. specialize (Hf c eq_refl).
    destruct (Provision hmac key id (w_vault w)) as [y v'] eqn:E. cbn in Hf. subst y. eapply disclosure_read, Provision_disclosable, E.
Qed.
Lemma client_Revoke_told id w : ValidUUID id = true -> client_Revoke deliver id w = told (cv_Revoke id w).
Proof.
  intros Hid. unfold client_Revoke. unfold mbind, M_bind. erewrite exchange_answered by (apply Revoke_served, Hid || by right).
  unfold told. by destruct (cv_Revoke id w) as [[e|[]] w'].
Qed.
Lemma client_Verify_told p c w : sendable p c -> uuid_cards (w_vault w) -> client_Verify deliver p c w = told (cv_Verify p c w).
Proof.
  intros Hs Hw. unfold client_Verify. erewrite (post_answered _ _ _ _ _ _ _ (fun r => r) w (Verify_served p c Hs)).
  - unfold told. by destruct (cv_Verify p c w) as [[e|r] w'].
  - intros r w' Hrun. apply vault_call_run in Hrun as [_ Hf]. specialize (Hf r eq_refl). injection Hf as <-.
    by apply result_read, Verify_reportable.
Qed.

(** C14: the development transport is transparent.  For the identifiers the card
    service draws and pairs of decimal numbers, calling the vault through the
    client, the network and the handler has exactly the effect of calling it
    directly and returns exactly its result, an error of the vault becoming
    "unavailable"; and the vault goes on holding such identifiers only. *)
Theorem transport_transparent w : uuid_cards (w_vault w) ->
  (forall id, ValidUUID id = true ->
     client_Provision deliver id w = told (cv_Provision id w) /\ uuid_cards (w_vault (client_Provision deliver id w).2) /\
     client_Revoke deliver id w = told (cv_Revoke id w) /\ uuid_cards (w_vault (client_Revoke deliver id w).2)) /\
  (forall p c, sendable p c ->
     client_Verify deliver p c w = told (cv_Verify p c w) /\ uuid_cards (w_vault (client_Verify deliver p c w).2)).
Proof.
  intros Hw. split.
  - intros id Hid. rewrite client_Provision_told, client_Revoke_told by done. split; [done|]. split; [|split; [done|]].
    + apply keeps_uuid_cards; [done|]. by apply Provision_uuid_cards.
    + apply keeps_uuid_cards; [done|]. by apply Revoke_uuid_cards.
  - intros p c Hs. rewrite client_Verify_told by done. split; [done|]. by apply keeps_uuid_cards.
Qed.
End Refinement.

(** ** Witness *)

Definition toy_card : string := "123e4567-e89b-42d3-a456-426614174000".
#[local] Instance toy_dev_vault : CredentialVault := memory_vault toy_digest "key".
Definition toy_vault_world : world := (cv_Provision toy_card (toy_world empty_shard 0)).2.
Lemma transport_transparent_witness :
  client_Verify deliver (pan toy_digest "key" toy_card) (cvv toy_digest "key" toy_card) toy_vault_world =
    (inr (MkVerificationResult toy_card true), toy_vault_world).
Proof.
  assert (Hcards : uuid_cards (w_vault toy_vault_world)).
  { intros token i H. change (w_vault toy_vault_world) with (Provision toy_digest "key" toy_card empty_vault).2 in H.
    revert token i H. apply Provision_uuid_cards; [by vm_compute|]. intros token i H. cbn in H. by rewrite lookup_empty in H. }
  assert (Hs : sendable (pan toy_digest "key" toy_card) (cvv toy_digest "key" toy_card)).
  { split; [by vm_compute|]. split; [by vm_compute|]. apply Nat.leb_le. by vm_compute. }
  destruct (proj2 (transport_transparent toy_digest "key" toy_vault_world Hcards) _ _ Hs) as [H _].
  etrans; [exact H|]. apply pair_equal_spec. split; by vm_compute.
Defined.
