(* ===== verification/CardSafety.v ===== *)
(** * CardSafety: what a card workflow leaves behind

    A failed issuance or replacement changes nothing in the shard and takes
    back the credential it provisioned; a successful one stores the masked
    number only; a repeated request is answered from its record; a command
    moves a card along the lifecycle. *)

From S2P Require Import Prelude Json Domain Stores Uuid Vault World ShardTx Guards ShardOrder Idempotency AuthTypes CardStore CardService Scenario.
Open Scope string_scope.
Open Scope list_scope.
Open Scope Z_scope.

(** ** Frames *)

Section DbFrames.
Context (R : relation world) `{!DbRel R}.
Ltac go := frame_with ltac:(frame_leaf).

Lemma db_IssueReferencesValid b c a p : frames R (IssueReferencesValid b c a p).
Proof. unfold IssueReferencesValid. go. Qed.
Lemma db_IssueCard b i : frames R (IssueCard b i).
Proof. unfold IssueCard. cbv zeta. go. Qed.
Lemma db_LockCard b i : frames R (LockCard b i).
Proof. unfold LockCard. go. Qed.
Lemma db_ReplacementPending b i : frames R (ReplacementPending b i).
Proof. unfold ReplacementPending. go. Qed.
Lemma db_ReplaceCard b i : frames R (ReplaceCard b i).
Proof. unfold ReplaceCard. cbv zeta. go. Qed.
Lemma db_updateCardStatus a b i s u : frames R (updateCardStatus a b i s u).
Proof. unfold updateCardStatus. cbv zeta. go. Qed.
Lemma db_closePredecessor b i : frames R (closePredecessorOnActivation b i).
Proof. unfold closePredecessorOnActivation. cbv zeta. go. Qed.
Lemma db_ApplyCardCommand b i : frames R (ApplyCardCommand b i).
Proof.
  unfold ApplyCardCommand. cbv zeta.
  frame_with ltac:(try solve [auto with frames | apply db_updateCardStatus | apply db_closePredecessor]).
Qed.
Lemma db_RetryExpiryItem b r i a : frames R (RetryExpiryItem b r i a).
Proof. unfold RetryExpiryItem. go. Qed.
Lemma db_RecordExpiryRetryAudit b i a q : frames R (RecordExpiryRetryAudit b i a q).
Proof. unfold RecordExpiryRetryAudit. go. Qed.
Lemma db_newUUID : frames R newUUID.
Proof. unfold newUUID. go. Qed.
Lemma db_claim hmac f b s k body : frames R (claim hmac f b s k body).
Proof. unfold claim. go. Qed.
End DbFrames.
#[export] Hint Resolve db_IssueReferencesValid db_IssueCard db_LockCard db_ReplacementPending db_ReplaceCard
  db_ApplyCardCommand db_RetryExpiryItem db_RecordExpiryRetryAudit db_newUUID db_claim : frames.

(** Vault calls keep the shard. *)
Lemma frames_mono {A} (R S : relation world) (m : M A) : (forall a b, R a b -> S a b) -> frames R m -> frames S m.
Proof. intros H Hm w r w' E. eapply H, Hm, E. Qed.
Section VaultFrames.
Context `{!CredentialVault} `{!VaultLaws _}.
Lemma vault_only_untouched a b : vault_only a b -> shard_untouched a b.
Proof. intros (Hs & _ & He & _). unfold shard_untouched, no_lost_reply. by rewrite He. Qed.
Lemma untouched_Provision id : frames shard_untouched (cv_Provision id).
Proof. eapply frames_mono; [apply vault_only_untouched|apply provision_frame]. Qed.
Lemma untouched_Revoke id : frames shard_untouched (cv_Revoke id).
Proof. eapply frames_mono; [apply vault_only_untouched|apply revoke_frame]. Qed.
End VaultFrames.
#[export] Hint Resolve untouched_Provision untouched_Revoke : frames.

(** ** Failure *)

Section Failure.
Context (hmac : string -> string -> string) (fp : Fingerprinter) `{!CredentialVault} `{!VaultLaws _} (configured : bool).

Lemma issue_fails p b k body c a pr reason rq :
  fails shard_untouched (IssueCardWorkflow hmac fp configured p b k body c a pr reason rq).
Proof. unfold IssueCardWorkflow, issue_claimed. cbv zeta. fail_with ltac:(frame_leaf). Qed.
Lemma command_fails p b id action k body reason rq :
  fails shard_untouched (CardCommandWorkflow hmac fp configured p b id action k body reason rq).
Proof. unfold CardCommandWorkflow, replace, command_locked. cbv zeta. fail_with ltac:(frame_leaf). Qed.
Lemma retry_fails p b r i k body rq : fails shard_untouched (RetryExpiryWorkflow hmac fp p b r i k body rq).
Proof. unfold RetryExpiryWorkflow. cbv zeta. fail_with ltac:(frame_leaf). Qed.
End Failure.

(** ** The vault after a failure *)

Definition vault_same : relation world := fun w w' =>
  w_vault w' = w_vault w /\ w_vault_events w' = w_vault_events w.
#[export] Instance vault_same_preorder : PreOrder vault_same.
Proof. split; [done|]. intros a b c [??] [??]. split; congruence. Qed.
#[export] Instance vault_same_rel : WorldRel vault_same.
Proof. split; [apply _|..]; world_cases; done. Qed.
#[export] Instance vault_same_db : DbRel vault_same.
Proof. split; [apply _|]. intros A f. world_cases; done. Qed.
Lemma vault_same_commit : frames vault_same shard_commit.
Proof. world_cases; done. Qed.
#[export] Hint Resolve vault_same_commit : frames.

Section Grants.
Context `{!CredentialVault} `{!VaultLaws _}.

(** With a vault that answers every call, nothing is granted that was not. *)
Definition no_new_grant : relation world := fun w w' =>
  w_vault_events w = [] ->
  w_vault_events w' = [] /\ forall p c card, cv_grants (w_vault w') p c card -> cv_grants (w_vault w) p c card.
Instance no_new_grant_preorder : PreOrder no_new_grant.
Proof.
  split; [intros w Hq; auto|]. intros a b c Hab Hbc Ha. destruct (Hab Ha) as [He Hg]. destruct (Hbc He) as [? ?]. auto.
Qed.
Lemma vault_same_no_new a b : vault_same a b -> no_new_grant a b.
Proof. intros [Hv He] Hq. rewrite Hv, He. auto. Qed.
Lemma no_new_frames {A} (m : M A) : frames vault_same m -> frames no_new_grant m.
Proof. apply frames_mono, vault_same_no_new. Qed.

Lemma provision_compensated {A} s id (body : ProvisionedCredential -> M A) :
  (forall cred, frames vault_same (body cred)) ->
  fails no_new_grant (cred ← wrap s (cv_Provision id); with_compensation (cv_Revoke id) (body cred)).
Proof.
  intros Hb w e w' Hm He. apply bind_run in Hm as [(e' & _ & Hm)|(cred & w1 & H1 & Hm)].
  - unfold wrap in Hm. destruct (cv_Provision id w) as [[e2|] w1] eqn:E; [|done]. injection Hm as _ <-.
    destruct (provision_fails _ _ _ _ He E) as [-> ->]. auto.
  - rewrite wrap_inr in H1. pose proof (provision_quiet _ _ _ _ He H1) as He1.
    unfold with_compensation in Hm. destruct (body cred w1) as [[e2|] w2] eqn:E; [|done]. injection Hm as _ <-.
    destruct (Hb cred _ _ _ E) as [Hv2 He2]. rewrite He1 in He2.
    destruct (cv_Revoke id w2) as [r w3] eqn:Er. cbn. split; [by eapply revoke_quiet|].
    intros p c card. eapply provision_revoke; eauto.
Qed.

Ltac no_new := apply no_new_frames; frame_with ltac:(frame_leaf).

Lemma issue_no_new_grant hmac fp configured p b k body c a pr reason rq :
  fails no_new_grant (IssueCardWorkflow hmac fp configured p b k body c a pr reason rq).
Proof.
  unfold IssueCardWorkflow, issue_claimed. cbv zeta.
  apply (fails_bind _); [no_new|intros _]. apply (fails_defer _); [no_new|].
  apply (fails_bind _); [no_new|intros [[replay status] found]]. destruct found; [apply fails_ret|].
  apply (fails_bind _); [no_new|intros valid]. destruct (negb valid); [apply frames_fails; no_new|].
  apply (fails_bind _); [no_new|intros cardID]. apply (fails_bind _); [no_new|intros operationID].
  destruct (negb configured); [apply frames_fails; no_new|].
  apply provision_compensated. intros cred. frame_with ltac:(frame_leaf).
Qed.

Lemma replace_no_new_grant configured p b id s k reason rq st :
  fails no_new_grant (replace configured p b id s k reason rq st).
Proof.
  unfold replace. destruct (_ && _); [apply frames_fails; no_new|].
  apply (fails_bind _); [no_new|intros pending]. destruct pending; [apply frames_fails; no_new|].
  apply (fails_bind _); [no_new|intros successor]. apply (fails_bind _); [no_new|intros operationID].
  destruct (negb configured); [apply frames_fails; no_new|].
  apply provision_compensated. intros cred. frame_with ltac:(frame_leaf).
Qed.

Lemma command_no_new_grant hmac fp configured p b id action k body reason rq :
  fails no_new_grant (CardCommandWorkflow hmac fp configured p b id action k body reason rq).
Proof.
  unfold CardCommandWorkflow. cbv zeta.
  apply (fails_bind _); [no_new|intros _]. apply (fails_defer _); [no_new|].
  apply (fails_bind _); [no_new|intros [[replay status] found]]. destruct found; [apply fails_ret|].
  apply (fails_bind _); [no_new|intros [err|state]]; [destruct (errors_is _ _); apply frames_fails; no_new|].
  destruct (action == "replace"); [apply replace_no_new_grant|].
  apply frames_fails. unfold command_locked. no_new.
Qed.
End Grants.

(** ** Success *)

Lemma insert_card_inr bank id cl ac pr m pre u env db card db' :
  insert_card bank id cl ac pr m pre u env db = inr (card, db') ->
  cards db !! (bank, id) = None /\
  exists row, db' = db <| cards ::= <[(bank, id) := row]> |> /\ card = scanCard id row /\ cd_status row = "issued" /\
    cd_masked_pan row = Some m /\ cd_client_id row = cl /\ cd_account_reference_id row = ac /\
    cd_product_id row = pr /\ cd_predecessor_card_id row = pre /\ cd_version row = 1.
Proof.
  unfold insert_card. case_match eqn:E; [done|]. intros [= <- <-]. apply insert_pk_inr in E as [E ->].
  split; [done|]. eexists. repeat split.
Qed.
Lemma insert_operation_inr bank id mk env db o db' :
  insert_operation bank id mk env db = inr (o, db') ->
  operations db !! (bank, id) = None /\ db' = db <| operations ::= <[(bank, id) := mk env]> |> /\
  o = scanCardOperation id (mk env).
Proof.
  unfold insert_operation. case_match eqn:E; [done|]. intros [= <- <-]. by apply insert_pk_inr in E as [E ->].
Qed.
Lemma insert_history_inr bank c o p n r who env db a db' :
  insert_history bank c o p n r who env db = inr (a, db') ->
  exists h, db' = db <| history ::= fun l => l ++ [h] |> /\
    hi_card_id h = c /\ hi_operation_id h = o /\ hi_previous_status h = p /\ hi_new_status h = n.
Proof. unfold insert_history. case_match; [done|]. intros [= _ <-]. eexists. repeat split. Qed.

(** The working copy after an issuance. *)
Definition card_issued (bank cardID operationID masked : string) (predecessor : option string) (card : Card)
    (operation : CardOperation) (db db' : shard_db) : Prop :=
  cards db !! (bank, cardID) = None /\ operations db !! (bank, operationID) = None /\
  exists row op h, cards db' = <[(bank, cardID) := row]> (cards db) /\
    operations db' = <[(bank, operationID) := op]> (operations db) /\
    card = scanCard cardID row /\ operation = scanCardOperation operationID op /\
    cd_status row = "issued" /\ cd_masked_pan row = Some masked /\ cd_predecessor_card_id row = predecessor /\
    op_card_id op = cardID /\ op_status op = "succeeded" /\
    history db' = history db ++ [h] /\ hi_card_id h = cardID /\ hi_operation_id h = operationID /\
    hi_previous_status h = "pending" /\ hi_new_status h = "issued" /\
    batches db' = batches db /\ batch_items db' = batch_items db.

Lemma issuance_tx bank id cl ac pr m pre u oid action reason ro e rq w w1 w2 w3 w4 db card operation :
  w_shard_tx w = Some db ->
  shard_exec (insert_card bank id cl ac pr m pre u) w = (inr card, w1) ->
  insertCardOperation bank oid id action reason u ro e rq w1 = (inr operation, w2) ->
  shard_exec (insert_history bank id oid "pending" "issued" reason (user_actor u ro e)) w2 = (inr tt, w3) ->
  shard_exec (insert_audit bank ("card." +:+ action) "card" id "succeeded" rq (user_actor u ro e) (JObj [])) w3 = (inr tt, w4) ->
  exists db', w_shard_tx w4 = Some db' /\ card_issued bank id oid m pre card operation db db' /\ idem db' = idem db.
Proof.
  intros Hdb H1 H2 H3 H4. unfold insertCardOperation in H2.
  apply (exec_tx _ _ db) in H1 as (env1 & db1 & Hf1 & Htx1 & _); [|done].
  apply (exec_tx _ _ db1) in H2 as (env2 & db2 & Hf2 & Htx2 & _); [|done].
  apply (exec_tx _ _ db2) in H3 as (env3 & db3 & Hf3 & Htx3 & _); [|done].
  apply (exec_tx _ _ db3) in H4 as (env4 & db4 & Hf4 & Htx4 & _); [|done].
  apply insert_card_inr in Hf1 as (Hn & row & -> & -> & ? & ? & ? & ? & ? & ? & ?).
  apply insert_operation_inr in Hf2 as (Hn2 & -> & ->).
  apply insert_history_inr in Hf3 as (h & -> & ? & ? & ? & ?). injection Hf4 as <-.
  eexists. split; [exact Htx4|]. split; [|done]. split; [done|]. split; [done|].
  eexists _, _, _. repeat split; done.
Qed.

Lemma IssueCard_tx bank i w db card operation w' :
  w_shard_tx w = Some db -> IssueCard bank i w = (inr (card, operation), w') ->
  exists db', w_shard_tx w' = Some db' /\ idem db' = idem db /\
    card_issued bank (CardIssue_CardID i) (CardIssue_OperationID i) (CardIssue_MaskedPAN i) None card operation db db'.
Proof.
  intros Hdb H. unfold IssueCard in H. cbv zeta in H.
  apply bind_inr in H as (c & w1 & H1 & H). apply bind_inr in H as (o & w2 & H2 & H).
  apply bind_inr in H as ([] & w3 & H3 & H). apply bind_inr in H as ([] & w4 & H4 & H).
  apply ret_inr in H as [[= <- <-] <-].
  destruct (issuance_tx _ _ _ _ _ _ _ _ _ "issue" _ _ _ _ _ _ _ _ _ _ _ _ Hdb H1 H2 H3 H4) as (db' & ? & ? & ?). eauto.
Qed.
Lemma ReplaceCard_tx bank i w db card operation w' :
  w_shard_tx w = Some db -> ReplaceCard bank i w = (inr (card, operation), w') ->
  exists db', w_shard_tx w' = Some db' /\ idem db' = idem db /\
    card_issued bank (CardReplacement_SuccessorID i) (CardReplacement_OperationID i) (CardReplacement_MaskedPAN i)
      (Some (CardReplacement_PredecessorID i)) card operation db db'.
Proof.
  intros Hdb H. unfold ReplaceCard in H. cbv zeta in H.
  apply bind_inr in H as (c & w1 & H1 & H). apply bind_inr in H as (o & w2 & H2 & H).
  apply bind_inr in H as ([] & w3 & H3 & H). apply bind_inr in H as ([] & w4 & H4 & H).
  apply ret_inr in H as [[= <- <-] <-].
  destruct (issuance_tx _ _ _ _ _ _ _ _ _ "replace" _ _ _ _ _ _ _ _ _ _ _ _ Hdb H1 H2 H3 H4) as (db' & ? & ? & ?). eauto.
Qed.

Lemma service_claim_fresh hmac fp bank scope key body w db resp st w' :
  w_shard_tx w = Some db -> claim hmac fp bank scope key body w = (inr (resp, st, false), w') ->
  exists r, w_shard_tx w' = Some (db <| idem ::= <[(bank, scope, key) := r]> |>) /\
    id_request_fingerprint r = Fingerprint hmac fp body /\ id_expires_at r = w_clock w + replayLifetime.
Proof.
  intros Hdb H. unfold claim in H. apply bind_inr in H as (t & w1 & Ht & H). apply time_inr in Ht as [-> ->].
  apply bind_inr in H as (q & w2 & Hq & H). rewrite try_inr in Hq. destruct q as [err|x].
  { destruct (errors_is _ _); by apply throw_inr in H. }
  apply ret_inr in H as [[= <- <- Hf] <-].
  apply (claim_fresh _ _ db) in Hq as (db' & Htx & r & -> & _ & Hfp & _ & He); [|done..].
  exists r. split; [exact Htx|]. done.
Qed.

(** A found record is returned as it is, without another effect. *)
Lemma service_claim_found hmac fp bank scope key body w db r :
  w_events w = [] -> w_shard_tx w = Some db -> idem db !! (bank, scope, key) = Some r ->
  w_clock w < id_expires_at r ->
  (claim hmac fp bank scope key body w).1 =
    (if id_request_fingerprint r != Fingerprint hmac fp body then
       inl (problem statusConflict "idempotency_conflict" "Idempotency-Key was previously used for a different request.")
     else match id_response_status r with
          | None => inl (ErrMsg "idempotency response status is missing")
          | Some st => inr (default JNull (id_response_body r), st, true)
          end).
Proof.
  intros He Hdb Hr Hc. unfold claim, mbind, M_bind, time_now, try. cbn.
  destruct (ClaimIdempotency _ w) as [x w'] eqn:E.
  eapply claim_found in E as [[_ ->]|[_ Hne]]; [|done|exact Hdb|exact Hr|exact Hc]. cbn.
  destruct (id_request_fingerprint r != _); [done|]. destruct (id_response_status r); done.
Qed.

Section Issued.
Context (hmac : string -> string -> string) (fp : Fingerprinter) `{!CredentialVault} `{!VaultLaws _} (configured : bool).

Lemma finish_tx bank scope key st j res act w db r w' :
  w_shard_tx w = Some db -> idem db !! (bank, scope, key) = Some r ->
  FinishIdempotency bank scope key st j res act w = (inr tt, w') ->
  exists r', w_shard_tx w' = Some (db <| idem ::= <[(bank, scope, key) := r']> |>) /\
    id_request_fingerprint r' = id_request_fingerprint r /\ id_expires_at r' = id_expires_at r /\
    id_status r' = "succeeded" /\ id_response_status r' = Some st /\ id_response_body r' = Some (jsonb j).
Proof.
  intros Hdb Hr H2. unfold FinishIdempotency in H2. cbv zeta in H2.
  apply (exec_tx _ _ db) in H2 as (env & db' & Hf & Htx & _); [|done].
  destruct (finish_record _ _ _ _ _ _ _ _ _ _ _ _ Hf Hr) as (r' & -> & ? & ? & ? & ? & ? & ?). eauto 10.
Qed.

(** What a request that was not a repetition leaves: an issued card, its
    operation and history, a record that answers repetitions without the
    credential, and a credential that verifies. *)
Definition issue_effect (bank key scope body : string) (status : Z) (predecessor : option string)
    (w w' : world) (resp : json) : Prop :=
  exists cardID operationID cred card operation r,
    card_issued bank cardID operationID (Cred_MaskedPAN cred) predecessor card operation (w_shard w) (w_shard w') /\
    resp = issuanceResponse card operation cred /\ idem (w_shard w') !! (bank, scope, key) = Some r /\
    id_request_fingerprint r = Fingerprint hmac fp body /\
    w_clock w + replayLifetime <= id_expires_at r <= w_clock w' + replayLifetime /\
    id_status r = "succeeded" /\ id_response_status r = Some status /\
    id_response_body r = Some (jsonb (combined card operation)) /\
    cv_grants (w_vault w') (Cred_PAN cred) (Cred_CVV cred) cardID.

Lemma newUUID_nonempty w id w' : newUUID w = (inr id, w') -> id <> "".
Proof.
  unfold newUUID. intros Hn. apply bind_inr in Hn as (b & w1 & _ & Hn). apply ret_inr in Hn as [<- _].
  unfold card_newUUID, dashed. by destruct (String.substring 0 8 _).
Qed.

(** The part shared by issuance and replacement, from the claimed record on. *)
Lemma provisioned_tx bank key scope body status predecessor (w0 w : world) r s cardID operationID
    (build : string -> M (Card * CardOperation)) user resp w' :
  cardID <> "" ->
  (forall m w db card operation w', w_shard_tx w = Some db -> build m w = (inr (card, operation), w') ->
     exists db', w_shard_tx w' = Some db' /\ idem db' = idem db /\
       card_issued bank cardID operationID m predecessor card operation db db') ->
  (forall m, frames vault_same (build m)) -> (forall m, frames later (build m)) ->
  w_shard_tx w = Some ((w_shard w0) <| idem ::= <[(bank, scope, key) := r]> |>) ->
  id_request_fingerprint r = Fingerprint hmac fp body ->
  w_clock w0 + replayLifetime <= id_expires_at r <= w_clock w + replayLifetime ->
  (cred ← wrap s (cv_Provision cardID);
   with_compensation (cv_Revoke cardID) (
     co ← build (Cred_MaskedPAN cred);
     FinishIdempotency bank scope key status (combined co.1 co.2) operationID user ;;
     shard_commit ;;
     mret (issuanceResponse co.1 co.2 cred))) w = (inr resp, w') ->
  issue_effect bank key scope body status predecessor w0 w' resp.
Proof.
  intros Hid Hbuild Hvs Hlt Hdb Hfp Hexp Hm.
  apply bind_inr in Hm as (cred & w1 & Hp & Hm). rewrite wrap_inr in Hp.
  pose proof (provision_frame _ _ _ _ Hp) as (_ & Htx1 & _ & _ & _ & Hc1).
  rewrite compensation_inr in Hm. apply bind_inr in Hm as ([card operation] & w2 & Hb & Hm).
  destruct (Hvs _ _ _ _ Hb) as [Hv2 _]. pose proof (Hlt _ _ _ _ Hb) as Hc2. red in Hc2.
  destruct (Hbuild _ _ _ _ _ _ (eq_trans Htx1 Hdb) Hb) as (db2 & Htx2 & Hidem & Hissued).
  cbn in Hidem.
  apply bind_inr in Hm as ([] & w3 & Hf & Hm). pose proof Hf as Hf'.
  apply (finish_tx _ _ _ _ _ _ _ _ db2 r) in Hf as (r' & Htx3 & ? & He' & ? & ? & ?);
    [|done|by rewrite Hidem, lookup_insert_eq].
  assert (vault_same w2 w3 /\ later w2 w3) as [[Hv3 _] Hc3].
  { split; revert Hf'; apply db_FinishIdempotency; apply _. }
  apply bind_inr in Hm as ([] & w4 & Hc & Hm). apply ret_inr in Hm as [<- <-].
  apply commit_inr in Hc as (db4 & Hdb4 & Hs4 & _ & Hc4 & Hv4 & _). rewrite Htx3 in Hdb4. injection Hdb4 as <-.
  red in Hc3. exists cardID, operationID, cred, card, operation, r'. rewrite Hs4.
  split; [exact Hissued|]. split; [done|]. split; [cbn; by rewrite lookup_insert_eq|].
  split; [congruence|]. split; [lia|]. repeat (split; [done|]).
  rewrite Hv4, Hv3, Hv2. by eapply provision_grants.
Qed.

Lemma rollback_committed w :
  let w' := (shard_rollback w).2 in
  w_shard w' = w_shard w /\ w_clock w' = w_clock w /\ w_vault w' = w_vault w /\ w_shard_tx w' = None.
Proof. done. Qed.

Definition issue_scope (p : Principal) : string := "cards.issue.actor." +:+ Principal_UserID p.

Lemma service_claim_new bank scope key body w db resp st found w' :
  w_shard_tx w = Some db -> idem db !! (bank, scope, key) = None ->
  claim hmac fp bank scope key body w = (inr (resp, st, found), w') -> found = false.
Proof.
  intros Hdb Hn Hm. unfold claim in Hm. apply bind_inr in Hm as (t & w1 & Ht & Hm). apply time_inr in Ht as [-> ->].
  apply bind_inr in Hm as (q & w2 & Hq & Hm). rewrite try_inr in Hq. destruct q as [err|x].
  { destruct (errors_is _ _); by apply throw_inr in Hm. }
  apply ret_inr in Hm as [[= <- <- <-] <-].
  eapply (claim_new (MkShardIdempotencyClaim _ _ _ _ _ _) _ _ _ _ Hdb); [|exact Hq]. exact Hn.
Qed.

Lemma issue_inr p bank key body c a pr reason rq w resp w' :
  IssueCardWorkflow hmac fp configured p bank key body c a pr reason rq w = (inr resp, w') ->
  idem (w_shard w) !! (bank, issue_scope p, key) = None ->
  issue_effect bank key (issue_scope p) body statusCreated None w w' resp.
Proof.
  intros Hm Hnew. unfold IssueCardWorkflow in Hm. cbv zeta in Hm. fold (issue_scope p) in Hm.
  apply bind_inr in Hm as ([] & w1 & H1 & Hm). apply beginTenant_inr in H1 as (Htx & Hs1 & Hc1 & _).
  apply defer_inr in Hm as (w6 & Hm & ->).
  apply bind_inr in Hm as ([[replay st] found] & w2 & H2 & Hm).
  assert (Hn1 : idem (w_shard w1) !! (bank, issue_scope p, key) = None) by by rewrite Hs1.
  rewrite <- Hs1 in Htx. pose proof (service_claim_new _ _ _ _ _ _ _ _ _ _ Htx Hn1 H2) as ->.
  pose proof (db_claim later hmac fp bank (issue_scope p) key body _ _ _ H2) as Hc2.
  apply (service_claim_fresh _ _ _ _ _ _ _ _ _ _ _ Htx) in H2 as (r & Htx2 & Hfp & Hexp).
  unfold issue_claimed in Hm.
  apply bind_inr in Hm as (valid & w3 & H3 & Hm). destruct (negb valid); [by apply throw_inr in Hm|].
  pose proof (db_IssueReferencesValid later _ _ _ _ _ _ _ H3) as Hc3.
  apply (exec_tx _ _ _ _ _ Htx2) in H3 as (env & db3 & Hf3 & Htx3 & _). injection Hf3 as _ <-.
  apply bind_inr in Hm as (cardID & w4 & H4 & Hm). apply bind_inr in Hm as (operationID & w5 & H5 & Hm).
  pose proof (newUUID_nonempty _ _ _ H4) as Hid.
  assert (Htx5 : w_shard_tx w5 = w_shard_tx w3 /\ w_clock w5 = w_clock w3).
  { unfold newUUID in H4, H5. apply bind_inr in H4 as (? & ? & H4 & [_ <-]%ret_inr).
    apply bind_inr in H5 as (? & ? & H5 & [_ <-]%ret_inr).
    revert H4 H5. unfold rand16. repeat case_match; intros; simplify_eq/=; done. }
  destruct Htx5 as [Htx5 Hc5]. rewrite Htx3 in Htx5.
  destruct (negb configured); [by apply throw_inr in Hm|].
  red in Hc2, Hc3. rewrite Hs1 in Htx5.
  enough (issue_effect bank key (issue_scope p) body statusCreated None w w6 resp) as He.
  { destruct (rollback_committed w6) as (Hs & Hc & Hv & _). unfold issue_effect. by rewrite Hs, Hc, Hv. }
  eapply (provisioned_tx bank key (issue_scope p) body statusCreated None w w5 r _ cardID operationID
    (fun m => IssueCard bank (MkCardIssue cardID operationID c a pr m reason _ _ _ rq)) (Principal_UserID p) resp w6 Hid);
    [..|exact Hm].
  - intros m w7 db card op w8 Hdb Hb. exact (IssueCard_tx _ _ _ _ _ _ _ Hdb Hb).
  - intros m. apply db_IssueCard, _.
  - intros m. apply db_IssueCard, _.
  - exact Htx5.
  - exact Hfp.
  - lia.
Qed.

(** A repetition within the lifetime of the record: the stored response, and
    not the credential; a different body under the same key is a conflict. *)
Lemma issue_repeated p bank key body c a pr reason rq w r st :
  w_events w = [] -> idem (w_shard w) !! (bank, issue_scope p, key) = Some r -> w_clock w < id_expires_at r ->
  id_response_status r = Some st ->
  let out := IssueCardWorkflow hmac fp configured p bank key body c a pr reason rq w in
  out.1 = (if id_request_fingerprint r != Fingerprint hmac fp body then
             inl (problem statusConflict "idempotency_conflict" "Idempotency-Key was previously used for a different request.")
           else inr (default JNull (id_response_body r))) /\
  w_shard out.2 = w_shard w /\ w_vault out.2 = w_vault w.
Proof.
  intros He Hr Hc Hst. cbv zeta.
  destruct (beginTenant_quiet bank w He) as (w1 & H1 & Htx & He1 & Hc1 & Hs1 & Hv1).
  pose proof (service_claim_found hmac fp bank (issue_scope p) key body w1 (w_shard w) r He1 Htx Hr ltac:(lia)) as Hout.
  destruct (claim hmac fp bank (issue_scope p) key body w1) as [x w2] eqn:E.
  assert (committed w1 w2 /\ vault_same w1 w2) as [Hcm [Hvs _]] by (split; revert E; apply db_claim; apply _).
  cbn in Hout. rewrite Hst in Hout. red in Hcm.
  destruct (IssueCardWorkflow _ _ _ _ _ _ _ _ _ _ _ _ w) as [y w3] eqn:Ew.
  unfold IssueCardWorkflow in Ew. cbv zeta in Ew. fold (issue_scope p) in Ew.
  rewrite (bind_eq _ _ _ _ _ H1) in Ew. unfold with_defer in Ew. unfold mbind, M_bind in Ew. rewrite E in Ew. subst x.
  destruct (id_request_fingerprint r != _); cbn in Ew; injection Ew as <- <-; cbn; repeat split; congruence.
Qed.
End Issued.

(** ** Commands *)

Section Commands.
Context (bank : string).

(** The card an activation closes: the predecessor, when it is in use. *)
Definition closes (action : string) (c : card_row) (db : shard_db) : option (string * card_row) :=
  if action == "activate" then
    p ← cd_predecessor_card_id c; x ← cards db !! (bank, p);
    if (cd_status x == "active") || (cd_status x == "suspended") then Some (p, x) else None
  else None.

(** What a command did to a card that is not already in its target status. *)
Definition card_moved (action id target : string) (c : card_row) (db db' : shard_db) : Prop :=
  (exists c', cards db' !! (bank, id) = Some c' /\ card_le c c' /\ cd_status c' = target /\
     cd_version c' = cd_version c + 1) /\
  exists h, history_line h = (id, hi_operation_id h, cd_status c, target) /\
  match closes action c db with
  | None => (forall k, k <> (bank, id) -> cards db' !! k = cards db !! k) /\ history db' = history db ++ [h]
  | Some (p, x) =>
      (exists x', cards db' !! (bank, p) = Some x' /\ card_le x x' /\ cd_status x' = "closed" /\
         cd_version x' = cd_version x + 1) /\
      (forall k, k <> (bank, id) -> k <> (bank, p) -> cards db' !! k = cards db !! k) /\
      exists h2, history db' = history db ++ [h; h2] /\
        history_line h2 = (p, hi_operation_id h2, cd_status x, "closed")
  end.

Definition card_commanded (action id : string) (db db' : shard_db) : Prop :=
  exists c, cards db !! (bank, id) = Some c /\ batches db' = batches db /\
  match Lifecycle.Transition (cd_status c) action with
  | (target, true, false) => card_moved action id target c db db'
  | (_, true, true) => cards db' = cards db /\ history db' = history db
  | (_, false, _) => False
  end.

Lemma insert_operation_tables id mk env db a db' :
  insert_operation bank id mk env db = inr (a, db') ->
  batches db' = batches db /\ cards db' = cards db /\ history db' = history db /\ idem db' = idem db.
Proof. intros H. by apply insert_operation_inr in H as (_ & -> & _). Qed.

(** The touch of a status change leaves what identifies a card. *)
Lemma updateCardStatus_tx action id status actor w db w' c :
  w_shard_tx w = Some db -> cards db !! (bank, id) = Some c ->
  updateCardStatus action bank id status actor w = (inr tt, w') ->
  exists c', w_shard_tx w' = Some (db <| cards ::= <[(bank, id) := c']> |>) /\ card_le c c' /\
    cd_status c' = status /\ cd_version c' = cd_version c + 1.
Proof.
  intros Hdb Hc H.
  assert (Hset : forall touch : sql_env -> card_row -> card_row,
    (forall env, card_identity (touch env c) = card_identity c /\ cd_masked_pan (touch env c) = cd_masked_pan c /\
       cd_version (touch env c) = cd_version c) ->
    forall w', (shard_exec (update_card bank id (fun _ => true) (fun env c =>
      (touch env c) <| cd_status := status |> <| cd_version := cd_version c + 1 |> <| cd_updated_by := actor |>)) ;;
      mret tt) w = (inr tt, w') ->
    exists c', w_shard_tx w' = Some (db <| cards ::= <[(bank, id) := c']> |>) /\ card_le c c' /\
      cd_status c' = status /\ cd_version c' = cd_version c + 1).
  { intros touch Ht w2 Hm. apply bind_inr in Hm as (n & w1 & Hm & Hr). apply ret_inr in Hr as [_ <-].
    apply (exec_tx _ _ db) in Hm as (env & db' & Hf & Htx & _); [|done]. unfold update_card in Hf. rewrite Hc in Hf.
    cbn in Hf. case_match; [|done]. injection Hf as _ <-. destruct (Ht env) as (Hi & Hp & Hv). eexists. split; [exact Htx|].
    split; [|done]. split; [exact Hi|]. split; [intros _; exact Hp|]. right. cbn. lia. }
  unfold updateCardStatus in H. cbv zeta in H.
  repeat (destruct (action == _); [revert H; apply Hset; done|]). by apply throw_inr in H.
Qed.

(** [closePredecessorOnActivation] on the working copy of an activation. *)
Lemma closePredecessor_tx i w db w' c' :
  w_shard_tx w = Some db -> cards db !! (bank, CardCommand_CardID i) = Some c' ->
  closePredecessorOnActivation bank i w = (inr tt, w') ->
  exists db', w_shard_tx w' = Some db' /\ batches db' = batches db /\ idem db' = idem db /\
  match closes "activate" c' db with
  | None => cards db' = cards db /\ history db' = history db
  | Some (p, x) =>
      (exists x', cards db' = <[(bank, p) := x']> (cards db) /\ card_le x x' /\ cd_status x' = "closed" /\
         cd_version x' = cd_version x + 1) /\
      exists h, history db' = history db ++ [h] /\ history_line h = (p, hi_operation_id h, cd_status x, "closed")
  end.
Proof.
  intros Hdb Hc H. unfold closePredecessorOnActivation in H. cbv zeta in H.
  apply bind_inr in H as (r & w1 & H1 & H). rewrite try_inr in H1. unfold row in H1.
  apply bind_run in H1 as [(e & -> & H1)|(o & w2 & H1 & Ho)].
  { destruct (exec_either _ _ _ _ H1) as [[e' [= ->]]|[a [=]]]. by apply throw_inr in H. }
  run_exec H1 db. injection Hf as <- <-. rewrite Hc in Ho. unfold closes. cbn in Ho |- *.
  destruct (cd_predecessor_card_id c') as [p|]; cbn in Ho |- *;
    [destruct (cards db !! (bank, p)) as [x|] eqn:Hx; cbn in Ho |- *|];
    [|injection Ho as <- <-; apply ret_inr in H as [_ <-]; eauto 10..].
  injection Ho as <- <-. destruct (cd_status x == "active") eqn:Ea, (cd_status x == "suspended") eqn:Es; cbn in H |- *;
    [| | |apply ret_inr in H as [_ <-]; eauto 10]; clear Hc.
  all: apply bind_inr in H as (n & w3 & H3 & H); apply bind_inr in H as (o & w4 & H4 & H5); unfold insertCardOperation in H4;
    run_exec H3 db; run_exec H4 db0; run_exec H5 db1; unfold update_card in Hf; rewrite Hx in Hf; cbn in Hf;
    rewrite Ea, Es in Hf; cbn in Hf; case_match; [|done]; injection Hf as _ <-;
    apply insert_operation_tables in Hf0 as (B & C & Hh & I);
    assert (I2 : idem db2 = idem db1) by (revert Hf1; unfold insert_history; case_match; intros; by simplify_eq/=);
    apply insert_history_tables in Hf1 as (B2 & C2 & h & Hh2 & Hl);
    exists db2; split; [done|]; split; [rewrite B2, B; done|]; split; [rewrite I2, I; done|];
    (split; [eexists; split; [rewrite C2, C; reflexivity|]; split; [|done]; split; [done|]; split; [done|]; right; cbn; lia
            |exists h; rewrite Hh2, Hh; split; [done|unfold history_line in *; congruence]]).
Qed.

(** The status change of a command and what it entails. *)
Lemma command_moved_tx i w db c w' :
  w_shard_tx w = Some db -> cards db !! (bank, CardCommand_CardID i) = Some c ->
  cd_predecessor_card_id c <> Some (CardCommand_CardID i) -> CardCommand_PreviousStatus i = cd_status c ->
  (updateCardStatus (CardCommand_Action i) bank (CardCommand_CardID i) (CardCommand_TargetStatus i)
      (CardCommand_ActorID i) ;;
   shard_exec (insert_history bank (CardCommand_CardID i) (CardCommand_OperationID i)
      (CardCommand_PreviousStatus i) (CardCommand_TargetStatus i) (CardCommand_Reason i)
      (user_actor (CardCommand_ActorID i) (CardCommand_ActorRole i) (CardCommand_ActorEntityID i))) ;;
   when (CardCommand_Action i == "activate") (closePredecessorOnActivation bank i)) w = (inr tt, w') ->
  exists db', w_shard_tx w' = Some db' /\ batches db' = batches db /\
    card_moved (CardCommand_Action i) (CardCommand_CardID i) (CardCommand_TargetStatus i) c db db'.
Proof.
  intros Hdb Hc Hself Hprev H.
  apply bind_inr in H as ([] & w5 & H5 & H2).
  destruct (updateCardStatus_tx _ _ _ _ _ _ _ _ Hdb Hc H5) as (c' & Htx5 & Hle & Hst & Hv).
  apply bind_inr in H2 as ([] & w6 & H6 & H2). eapply exec_tx in H6 as (env6 & db6 & Hf6 & Htx6 & _); [|exact Htx5].
  apply insert_history_tables in Hf6 as (B6 & C6 & h & Hh6 & Hl). cbn in B6, C6, Hh6. rewrite Hprev in Hl.
  assert (Hl' : history_line h = (CardCommand_CardID i, hi_operation_id h, cd_status c, CardCommand_TargetStatus i))
    by (unfold history_line in *; congruence).
  assert (Hc6 : cards db6 !! (bank, CardCommand_CardID i) = Some c') by by rewrite C6, lookup_insert_eq.
  assert (Hpred : cd_predecessor_card_id c' = cd_predecessor_card_id c).
  { destruct Hle as (Hi & _). unfold card_identity in Hi. congruence. }
  assert (Hcl : forall a, closes a c' db6 = closes a c db).
  { intros a. unfold closes. rewrite Hpred. destruct (a == "activate"); [|done].
    destruct (cd_predecessor_card_id c) as [p|] eqn:Ep; cbn; [|done]. rewrite C6, lookup_insert_ne; [done|congruence]. }
  unfold card_moved. destruct (CardCommand_Action i == "activate") eqn:Ea; cbn in H2.
  - apply String.eqb_eq in Ea. destruct (closePredecessor_tx _ _ _ _ _ Htx6 Hc6 H2) as (db2 & Htx2 & B2 & _ & Hm).
    exists db2. split; [done|]. split; [congruence|]. rewrite Hcl, <- Ea in Hm.
    destruct (closes (CardCommand_Action i) c db) as [[p x]|] eqn:Ecl.
    + destruct Hm as [(x' & C2 & Hlex & Hsx & Hvx) (h2 & Hh2 & Hl2)].
      assert (p <> CardCommand_CardID i).
      { unfold closes in Ecl. rewrite Ea in Ecl. cbn in Ecl. destruct (cd_predecessor_card_id c) as [q|]; [|done].
        cbn in Ecl. destruct (cards db !! (bank, q)); cbn in Ecl; [|done]. case_match; congruence. }
      split; [exists c'; rewrite C2, lookup_insert_ne by congruence; done|]. exists h. split; [done|].
      split; [exists x'; rewrite C2, lookup_insert_eq; done|].
      split; [intros k Hk Hk2; by rewrite C2, lookup_insert_ne, C6, lookup_insert_ne|].
      exists h2. split; [rewrite Hh2, Hh6, <- app_assoc; done|done].
    + destruct Hm as [C2 Hh2]. split; [exists c'; rewrite C2; done|]. exists h. split; [done|].
      split; [intros k Hk; by rewrite C2, C6, lookup_insert_ne|congruence].
  - apply ret_inr in H2 as [_ <-]. exists db6. split; [done|]. split; [congruence|].
    split; [exists c'; done|]. exists h. split; [done|]. unfold closes. rewrite Ea.
    split; [intros k Hk; by rewrite C6, lookup_insert_ne|congruence].
Qed.

(** [ApplyCardCommand] does what the lifecycle says. *)
Lemma ApplyCardCommand_tx i w db c card op w' :
  w_shard_tx w = Some db -> cards db !! (bank, CardCommand_CardID i) = Some c ->
  cd_predecessor_card_id c <> Some (CardCommand_CardID i) -> CardCommand_PreviousStatus i = cd_status c ->
  ApplyCardCommand bank i w = (inr (card, op), w') ->
  exists db', w_shard_tx w' = Some db' /\ batches db' = batches db /\
    (exists row, cards db' !! (bank, CardCommand_CardID i) = Some row /\ card = scanCard (CardCommand_CardID i) row) /\
    if CardCommand_Ignored i then cards db' = cards db /\ history db' = history db
    else card_moved (CardCommand_Action i) (CardCommand_CardID i) (CardCommand_TargetStatus i) c db db'.
Proof.
  intros Hdb Hc Hself Hprev H. unfold ApplyCardCommand in H. cbv zeta in H.
  apply bind_inr in H as (o & w1 & H1 & H). unfold insertCardOperation in H1. run_exec H1 db.
  apply insert_operation_tables in Hf as (B1 & C1 & Hh1 & _).
  apply bind_inr in H as ([] & w2 & H2 & H). apply bind_inr in H as ([] & w3 & H3 & H).
  apply bind_inr in H as (card' & w4 & H4 & H). apply ret_inr in H as [[= -> ->] ->]. rewrite row_inr in H4.
  assert (Hmid : exists db2, w_shard_tx w2 = Some db2 /\ batches db2 = batches db /\
    if CardCommand_Ignored i then cards db2 = cards db /\ history db2 = history db
    else card_moved (CardCommand_Action i) (CardCommand_CardID i) (CardCommand_TargetStatus i) c db db2).
  { destruct (CardCommand_Ignored i); cbn in H2; [apply ret_inr in H2 as [_ <-]; eauto 10|]. rewrite <- C1 in Hc.
    apply (command_moved_tx _ _ _ _ _ Ht Hc Hself Hprev) in H2 as (db2 & Htx2 & B2 & Hm). exists db2.
    split; [done|]. split; [congruence|]. revert Hm. unfold card_moved, closes. by rewrite C1, Hh1. }
  destruct Hmid as (db2 & Htx2 & B2 & Hm).
  run_exec H3 db2. apply insert_audit_tables in Hf as (B3 & C3 & Hh3). run_exec H4 db1. injection Hf as Hcard <-.
  exists db1. split; [done|]. split; [congruence|]. split.
  - destruct (cards db1 !! _) as [row|] eqn:Er; [|done]. injection Hcard as <-. by exists row.
  - revert Hm. unfold card_moved. by rewrite C3, Hh3.
Qed.
End Commands.

(** ** A command, end to end *)

Definition command_scope (p : Principal) (id action : string) : string :=
  "cards." +:+ action +:+ "." +:+ id +:+ ".actor." +:+ Principal_UserID p.

Lemma finish_tables bank s k st j res act env db a db' :
  finish_idempotency bank s k st j res act env db = inr (a, db') ->
  cards db' = cards db /\ history db' = history db /\ batches db' = batches db.
Proof. unfold finish_idempotency. case_match; intros [= _ <-]; done. Qed.

Lemma command_tx p bank id action scope key reason rq st w db c resp code w' :
  w_shard_tx w = Some db -> cards db !! (bank, id) = Some c -> cd_predecessor_card_id c <> Some id ->
  CardState_Status st = cd_status c ->
  command_locked p bank id action scope key reason rq st w = (inr (resp, code), w') ->
  card_commanded bank action id db (w_shard w') /\
  exists row op, cards (w_shard w') !! (bank, id) = Some row /\ resp = combined (scanCard id row) op.
Proof.
  intros Hdb Hc Hself Hst H. unfold command_locked in H. rewrite Hst in H.
  destruct (Lifecycle.Transition (cd_status c) action) as [[target valid] ignored] eqn:Et.
  destruct valid; cbn in H; [|by apply throw_inr in H].
  apply bind_inr in H as (oid & w1 & H1 & H). apply bind_inr in H as (pid & w2 & H2 & H).
  apply bind_inr in H as ([card op] & w3 & H3 & H). apply bind_inr in H as ([] & w4 & H4 & H).
  apply bind_inr in H as ([] & w5 & H5 & H). apply ret_inr in H as [[= <- <-] <-].
  assert (Huuid : forall w id w', newUUID w = (inr id, w') -> w_shard_tx w' = w_shard_tx w).
  { intros x u x' Hu. unfold newUUID in Hu. apply bind_inr in Hu as (? & ? & Hu & [_ <-]%ret_inr).
    revert Hu. unfold rand16. repeat case_match; intros; simplify_eq/=; done. }
  apply Huuid in H1. assert (Htx2 : w_shard_tx w2 = Some db).
  { destruct (_ && _); [apply Huuid in H2|apply ret_inr in H2 as [_ <-]]; congruence. }
  eapply ApplyCardCommand_tx in H3 as (db3 & Htx3 & B3 & (row & Hrow & ->) & Hm); [|exact Htx2|exact Hc|exact Hself|done].
  unfold FinishIdempotency in H4. cbv zeta in H4. run_exec H4 db3. apply finish_tables in Hf as (C4 & Hh4 & B4).
  apply commit_inr in H5 as (db5 & Hdb5 & Hs5 & _). rewrite Ht in Hdb5. injection Hdb5 as <-. rewrite Hs5.
  split; [|exists row, op; rewrite C4; done].
  exists c. split; [done|]. split; [congruence|]. rewrite Et. cbn in Hm. unfold card_moved in Hm |- *. rewrite C4, Hh4.
  destruct ignored; exact Hm.
Qed.

Lemma command_inr hmac fp `{!CredentialVault} configured p bank id action key body reason rq w resp st w' :
  CardCommandWorkflow hmac fp configured p bank id action key body reason rq w = (inr (resp, st), w') ->
  action <> "replace" -> idem (w_shard w) !! (bank, command_scope p id action, key) = None ->
  (forall c, cards (w_shard w) !! (bank, id) = Some c -> cd_predecessor_card_id c <> Some id) ->
  card_commanded bank action id (w_shard w) (w_shard w') /\
  exists row op, cards (w_shard w') !! (bank, id) = Some row /\ resp = combined (scanCard id row) op.
Proof.
  intros Hm Hact Hnew Hself. unfold CardCommandWorkflow in Hm. cbv zeta in Hm. fold (command_scope p id action) in Hm.
  apply bind_inr in Hm as ([] & w1 & H1 & Hm). apply beginTenant_inr in H1 as (Htx & Hs1 & _).
  apply defer_inr in Hm as (w6 & Hm & ->). destruct (rollback_committed w6) as (-> & _).
  apply bind_inr in Hm as ([[replay code] found] & w2 & H2 & Hm).
  pose proof (service_claim_new _ _ _ _ _ _ _ _ _ _ _ _ Htx Hnew H2) as ->.
  apply (service_claim_fresh _ _ _ _ _ _ _ _ _ _ _ Htx) in H2 as (r & Htx2 & _ & _).
  apply bind_inr in Hm as (q & w3 & H3 & Hm). rewrite try_inr in H3.
  destruct q as [err|state]; [destruct (errors_is _ _); by apply throw_inr in Hm|].
  apply String.eqb_neq in Hact. rewrite Hact in Hm.
  unfold LockCard in H3. apply bind_inr in H3 as (q & w4 & H3 & H4). rewrite try_inr in H3.
  destruct q as [err|state']; [destruct (errors_is _ _); by apply throw_inr in H4|]. apply ret_inr in H4 as [-> <-].
  rewrite row_inr in H3. eapply exec_tx in H3 as (env3 & db3 & Hf3 & Htx3 & _); [|exact Htx2]. injection Hf3 as Hst <-.
  cbn in Hst. destruct (cards (w_shard w) !! (bank, id)) as [c|] eqn:Hc; [|done]. injection Hst as <-.
  eapply command_tx in Hm as [(c0 & Hc0 & Hb & Hcm) Hresp]; [|exact Htx3|exact Hc|by apply Hself|done].
  split; [|exact Hresp]. exists c0. split; [exact Hc0|]. split; [exact Hb|]. exact Hcm.
Qed.

(** ** Secrecy of the credentials *)

(** Two computations that differ in what they return, and in nothing else. *)
Definition alike {A} (m m' : M A) : Prop := forall w,
  match m w, m' w with
  | (inl e, w1), (inl e', w2) => e = e' /\ w1 = w2
  | (inr _, w1), (inr _, w2) => w1 = w2
  | _, _ => False
  end.

Lemma alike_refl {A} (m : M A) : alike m m.
Proof. intros w. by destruct (m w) as [[] ?]. Qed.
Lemma alike_ret {A} (a b : A) : alike (mret a) (mret b).
Proof. by intros w. Qed.
Lemma alike_bind {A B} (m : M A) (k k' : A -> M B) : (forall a, alike (k a) (k' a)) -> alike (m ≫= k) (m ≫= k').
Proof. intros Hk w. unfold mbind, M_bind. destruct (m w) as [[e|a] w1]; [done|]. apply Hk. Qed.
Lemma alike_defer {A} d (m m' : M A) : alike m m' -> alike (with_defer d m) (with_defer d m').
Proof.
  intros Hm w. specialize (Hm w). unfold with_defer. destruct (m w) as [[] w1], (m' w) as [[] w2]; try done.
  - by destruct Hm as [-> ->].
  - by subst.
Qed.
Lemma alike_compensation {A} d (m m' : M A) : alike m m' -> alike (with_compensation d m) (with_compensation d m').
Proof.
  intros Hm w. specialize (Hm w). unfold with_compensation. destruct (m w) as [[] w1], (m' w) as [[] w2]; try done.
  by destruct Hm as [-> ->].
Qed.

(** A vault that discloses nothing: the masked number is what is left. *)
Definition blind (cred : ProvisionedCredential) : ProvisionedCredential :=
  MkProvisionedCredential (Cred_MaskedPAN cred) "" "".
Definition blind_vault (V : CredentialVault) : CredentialVault := {|
  cv_Provision id := cred ← cv_Provision id; mret (blind cred);
  cv_Verify := cv_Verify;
  cv_Revoke := cv_Revoke;
  cv_grants := cv_grants
|}.

Lemma alike_provision {V : CredentialVault} {A} s id (k k' : ProvisionedCredential -> M A) :
  (forall cred, alike (k (blind cred)) (k' cred)) ->
  alike (wrap s (cv_Provision (CredentialVault := blind_vault V) id) ≫= k) (wrap s (cv_Provision id) ≫= k').
Proof.
  intros Hk w. unfold wrap, mbind, M_bind. cbn. unfold mbind, M_bind.
  destruct (cv_Provision id w) as [[e|cred] w1]; [done|]. cbn. apply Hk.
Qed.

Ltac alike_step :=
  lazymatch goal with
  | |- alike (wrap _ (cv_Provision _) ≫= _) _ => apply alike_provision; intro
  | |- alike (_ ≫= _) _ => apply alike_bind; intro
  | |- alike (with_defer _ _) _ => apply alike_defer
  | |- alike (with_compensation _ _) _ => apply alike_compensation
  | |- alike (match ?x with _ => _ end) _ => destruct x
  | |- alike _ _ => first [apply alike_refl | apply alike_ret]
  end.

Lemma issue_blind hmac fp V configured p bank key body c a pr reason rq :
  alike (IssueCardWorkflow hmac fp (H := blind_vault V) configured p bank key body c a pr reason rq)
        (IssueCardWorkflow hmac fp configured p bank key body c a pr reason rq).
Proof. unfold IssueCardWorkflow, issue_claimed. cbv zeta. repeat alike_step. Qed.
Lemma command_blind hmac fp V configured p bank id action key body reason rq :
  alike (CardCommandWorkflow hmac fp (H := blind_vault V) configured p bank id action key body reason rq)
        (CardCommandWorkflow hmac fp configured p bank id action key body reason rq).
Proof. unfold CardCommandWorkflow, replace. cbv zeta. repeat alike_step. Qed.

(** ** Properties *)

(** The vault of the witnesses: the in-memory adapter. *)
#[local] Instance toy_vault : CredentialVault := memory_vault toy_digest "vault-key".
Abbreviation toy_issue body w :=
  (IssueCardWorkflow toy_hmac toy_fp true toy_principal bank1 "key-1" body "client" "account" "product" "reason" "request" w).
Abbreviation toy_command action id w :=
  (CardCommandWorkflow toy_hmac toy_fp true toy_principal bank1 id action "key-1" "body" "reason" "request" w).
Definition issued_world : world := (toy_issue "body" (toy_world toy_shard 100)).2.

(** C3: Issuing a card under a fresh idempotency key: exactly one issued card, one
    succeeded operation and one history row from pending to issued are added under
    identifiers not used before; only the masked number is stored; the response
    holds the card, the operation and the credential, which the vault then
    verifies for the card; and the idempotency record, kept for seven days, holds
    the response without the credential. *)
Theorem issue_card_effect hmac fp `{!CredentialVault} `{!VaultLaws _} configured p bank key body c a pr reason rq w resp w'
    (Hrun : IssueCardWorkflow hmac fp configured p bank key body c a pr reason rq w = (inr resp, w'))
    (Hnew : idem (w_shard w) !! (bank, issue_scope p, key) = None) :
  issue_effect hmac fp bank key (issue_scope p) body statusCreated None w w' resp.
Proof. exact (issue_inr _ _ _ _ _ _ _ _ _ _ _ _ _ _ _ Hrun Hnew). Qed.
Lemma issue_card_effect_witness :
  exists resp w', issue_effect toy_hmac toy_fp bank1 "key-1" (issue_scope toy_principal) "body" statusCreated None
    (toy_world toy_shard 100) w' resp.
Proof.
  destruct (toy_issue "body" (toy_world toy_shard 100)).1 as [e|resp] eqn:E; [exfalso; by vm_compute in E|].
  exists resp, (toy_issue "body" (toy_world toy_shard 100)).2.
  apply (issue_card_effect toy_hmac toy_fp true toy_principal bank1 "key-1" "body" "client" "account" "product"
    "reason" "request" (toy_world toy_shard 100) resp); [exact (run_result _ _ E)|by vm_compute].
Defined.

(** A repetition of an issuance within the lifetime of its record is answered
    from the record: the same body gives the stored response, without the
    credential, another body under the same key is a conflict, and neither
    changes the shard or the vault. *)
Theorem issue_card_repeated hmac fp `{!CredentialVault} `{!VaultLaws _} configured p bank key body c a pr reason rq w r st
    (Hquiet : w_events w = []) (Hfound : idem (w_shard w) !! (bank, issue_scope p, key) = Some r)
    (Hlive : w_clock w < id_expires_at r) (Hstatus : id_response_status r = Some st) :
  let out := IssueCardWorkflow hmac fp configured p bank key body c a pr reason rq w in
  out.1 = (if id_request_fingerprint r != Fingerprint hmac fp body then
             inl (problem statusConflict "idempotency_conflict" "Idempotency-Key was previously used for a different request.")
           else inr (default JNull (id_response_body r))) /\
  w_shard out.2 = w_shard w /\ w_vault out.2 = w_vault w.
Proof. exact (issue_repeated hmac fp configured p bank key body c a pr reason rq w r st Hquiet Hfound Hlive Hstatus). Qed.
Lemma issue_card_repeated_witness :
  (toy_issue "another body" issued_world).1 =
    inl (problem statusConflict "idempotency_conflict" "Idempotency-Key was previously used for a different request.").
Proof.
  destruct (idem (w_shard issued_world) !! (bank1, issue_scope toy_principal, "key-1")) as [r|] eqn:E;
    [|exfalso; by vm_compute in E].
  assert (Hr : Some (w_clock issued_world <? id_expires_at r, id_response_status r,
    id_request_fingerprint r != Fingerprint toy_hmac toy_fp "another body") = Some (true, Some statusCreated, true)).
  { transitivity ((fun r => (w_clock issued_world <? id_expires_at r, id_response_status r,
      id_request_fingerprint r != Fingerprint toy_hmac toy_fp "another body")) <$>
      idem (w_shard issued_world) !! (bank1, issue_scope toy_principal, "key-1")); [by rewrite E|by vm_compute]. }
  injection Hr as Hlive Hst Hfp.
  destruct (issue_card_repeated toy_hmac toy_fp true toy_principal bank1 "key-1" "another body" "client" "account" "product"
    "reason" "request" issued_world r statusCreated) as [H _]; [by vm_compute|exact E|by apply Z.ltb_lt|exact Hst|].
  rewrite Hfp in H. exact H.
Defined.

(** Nothing stored, unless the reply of a commit was lost; nothing granted, unless
    a call of the vault failed. *)
Definition left_clean `{!CredentialVault} (w w' : world) : Prop :=
  (no_lost_reply w -> w_shard w' = w_shard w) /\
  (w_vault_events w = [] -> forall pan cvv card, cv_grants (w_vault w') pan cvv card -> cv_grants (w_vault w) pan cvv card).

(** C12: A card workflow that fails, wherever the database failed, leaves nothing
    behind, on two conditions.  When no reply of a commit was lost, the shard is
    as it was.  When every call of the vault was answered, the revocation
    included, no credential verifies that did not before, even if the reply of
    the commit was lost: what the workflow provisioned is revoked.  Without the
    first the card stays, issued, without a credential
    ([lost_reply_leaves_card]); without the second the credential stays
    ([failed_revoke_leaves_credential]). *)
Theorem failed_card_workflow_is_clean hmac fp `{!CredentialVault} `{!VaultLaws _} configured p bank id action key body
    c a pr reason rq w :
  (forall e w', IssueCardWorkflow hmac fp configured p bank key body c a pr reason rq w = (inl e, w') -> left_clean w w') /\
  (forall e w', CardCommandWorkflow hmac fp configured p bank id action key body reason rq w = (inl e, w') -> left_clean w w').
Proof.
  split; intros e w' Hrun; split; intros Hw.
  - by eapply issue_fails.
  - by eapply issue_no_new_grant.
  - by eapply command_fails.
  - by eapply command_no_new_grant.
Qed.
(** The database fails at the history row, after the credential is provisioned. *)
Definition faulty_world : world :=
  (toy_world toy_shard 100) <| w_events := repeat quiet 7 ++ [Event 3 (Some OtherDbError) false] |>.
Lemma failed_card_workflow_is_clean_witness :
  exists e, (toy_issue "body" faulty_world).1 = inl e /\ w_shard (toy_issue "body" faulty_world).2 = w_shard faulty_world /\
    (forall pan cvv card, cv_grants (w_vault (toy_issue "body" faulty_world).2) pan cvv card -> cv_grants (w_vault faulty_world) pan cvv card) /\
    size (vault_revoked (w_vault (toy_issue "body" faulty_world).2)) = 1%nat.
Proof.
  destruct (toy_issue "body" faulty_world).1 as [e|] eqn:E; [|exfalso; by vm_compute in E].
  exists e. split; [done|].
  destruct (proj1 (failed_card_workflow_is_clean toy_hmac toy_fp true toy_principal bank1 "id" "close" "key-1" "body" "client"
    "account" "product" "reason" "request" faulty_world) e _ (run_result _ _ E)) as [Hs Hg].
  split; [apply Hs; unfold no_lost_reply; repeat constructor|]. split; [by apply Hg|]. by vm_compute.
Defined.

(** What an issuance leaves: the cards of the shard, the credentials and those
    that are revoked. *)
Definition issue_leaves (w : world) : bool * nat * nat * nat :=
  let '(r, w') := toy_issue "body" w in
  (if r then true else false, (size (cards (w_shard w')) - size (cards (w_shard w)))%nat,
   size (vault_cards (w_vault w')), size (vault_revoked (w_vault w'))).
(** The reply of the commit is lost: the request fails, the card is issued and
    its credential revoked; a repetition is answered as a success from the record. *)
Definition lost_world : world :=
  (toy_world toy_shard 100) <| w_events := repeat quiet 10 ++ [Event 3 (Some OtherDbError) true] |>.
Example lost_reply_leaves_card :
  issue_leaves lost_world = (true, 1, 1, 1)%nat /\
  (if (toy_issue "body" (toy_issue "body" lost_world).2).1 then false else true) = true.
Proof. split; by vm_compute. Qed.
(** The database fails, and the vault at the revocation: the credential stays. *)
Example failed_revoke_leaves_credential :
  issue_leaves (faulty_world <| w_vault_events := [quiet; Event 3 (Some OtherDbError) false] |>) = (true, 0, 1, 0)%nat.
Proof. by vm_compute. Qed.

(** C13: The full number and the CVV of a card reach nothing but the response: with
    a vault that discloses only masked numbers, every card workflow fails alike
    and leaves the same world (database, audit, history, idempotency record,
    vault), whatever the environment. *)
Theorem credentials_never_stored hmac fp V configured p bank id action key body c a pr reason rq :
  alike (IssueCardWorkflow hmac fp (H := blind_vault V) configured p bank key body c a pr reason rq)
        (IssueCardWorkflow hmac fp configured p bank key body c a pr reason rq) /\
  alike (CardCommandWorkflow hmac fp (H := blind_vault V) configured p bank id action key body reason rq)
        (CardCommandWorkflow hmac fp configured p bank id action key body reason rq).
Proof. split; [apply issue_blind|apply command_blind]. Qed.

(** C4: A lifecycle command that succeeds did what the lifecycle says: the card
    existed and the action was allowed in its status; a repeated action changes
    no card and no history; else the card is in the target status with the next
    version and one history row, the activation of a replacement closes the card
    it replaces when that is active or suspended (with its own history row), and
    no other card and no batch changes; the response shows the card as stored. *)
Theorem card_command_effect hmac fp `{!CredentialVault} configured p bank id action key body reason rq w resp st w'
    (Hrun : CardCommandWorkflow hmac fp configured p bank id action key body reason rq w = (inr (resp, st), w'))
    (Haction : action <> "replace") (Hnew : idem (w_shard w) !! (bank, command_scope p id action, key) = None)
    (Hself : forall c, cards (w_shard w) !! (bank, id) = Some c -> cd_predecessor_card_id c <> Some id) :
  card_commanded bank action id (w_shard w) (w_shard w') /\
  exists row op, cards (w_shard w') !! (bank, id) = Some row /\ resp = combined (scanCard id row) op.
Proof. exact (command_inr _ _ _ _ _ _ _ _ _ _ _ _ _ _ _ Hrun Haction Hnew Hself). Qed.
Lemma card_command_effect_witness :
  exists w', card_commanded bank1 "activate" "card-4" toy_shard (w_shard w') /\
    (cd_status <$> cards (w_shard w') !! (bank1, "card-2")) = Some "closed".
Proof.
  destruct (toy_command "activate" "card-4" (toy_world toy_shard 100)).1 as [e|[resp st]] eqn:E; [exfalso; by vm_compute in E|].
  exists (toy_command "activate" "card-4" (toy_world toy_shard 100)).2. split; [|by vm_compute].
  apply (card_command_effect toy_hmac toy_fp true toy_principal bank1 "card-4" "activate" "key-1" "body" "reason" "request"
    (toy_world toy_shard 100) resp st); [exact (run_result _ _ E)|done|by vm_compute|].
  intros c Hc Hp. apply (f_equal (fmap cd_predecessor_card_id)) in Hc. cbn [fmap option_fmap option_map] in Hc. rewrite Hp in Hc.
  by vm_compute in Hc.
Defined.
