(* ===== verification/ControlStore.v ===== *)
(** * ControlStore: users, routes and idempotency records of the control database,
    and the banks a principal reaches through its routes

    [internal/repository/control/store.go], [internal/repository/routing/store.go]
    and the triggers of [database/migrations/control/001_initial.sql] on users,
    sessions and refresh tokens.  A read outside a transaction is a
    [control_read]; the statements of a transaction run on its working copy.  Last,
    [internal/tenant/service.go]: a bank is reachable through its route to the
    shard of this process; a lookup that fails counts as no route. *)

From S2P Require Import Prelude Json Domain Stores World ShardTx Guards AuthTypes.
Open Scope string_scope.
Open Scope list_scope.
Open Scope Z_scope.

(** [pool.Query] and [pool.QueryRow]. *)
Definition control_read {A} (g : sql_env -> control_db -> A) : M A := control_auto (query g).

(** ** Triggers and constraints *)

Definition btrim (s : string) : string :=
  let strip := fix strip l := match l with
    | c :: rest => if Ascii.eqb c (Ascii.ascii_of_N 32) then strip rest else l
    | [] => []
    end in
  String.string_of_list_ascii (rev (strip (rev (strip (String.list_ascii_of_string s))))).

Definition bank_role (role : string) : bool := (role == "bank_operator") || (role == "bank_readonly").
Definition issuer_role (role : string) : bool := (role == "issuer_operator") || (role == "issuer_readonly").

(** The CHECKs on role, status and entity. *)
Definition check_user (u : user_row) : bool :=
  (issuer_role (us_role u) || bank_role (us_role u)) && ((us_status u == "enabled") || (us_status u == "disabled"))
  && Bool.eqb (bank_role (us_role u)) (negb (bool_decide (us_entity_id u = None))).

(** What a change of authorization is: [guard_user] then gives a new version. *)
Definition authorization (u : user_row) := (us_password_hash u, us_role u, us_entity_id u, us_status u).

Definition guard_user (clock : Z) (old new : user_row) : option user_row :=
  if us_auth_version new <? us_auth_version old then None
  else
    let new := new <| us_normalized_username := to_lower (btrim (us_normalized_username new)) |> in
    let new := if bool_decide (authorization new = authorization old) then new
               else new <| us_auth_version := Z.max (us_auth_version new) (us_auth_version old + 1) |> in
    Some (new <| us_updated_at := clock |>).

Definition update_user (id : string) (set : user_row -> user_row) : sql control_db Z := fun env db =>
  match users db !! id with
  | None => inr (0, db)
  | Some old =>
      match guard_user (clock_timestamp env) old (set old) with
      | None => inl raise_exception
      | Some new => if check_user new then inr (1, db <| users ::= <[id := new]> |>) else inl check_violation
      end
  end.

Definition insert_user (username hash role : string) (entity : option string) (actor : string)
    : sql control_db (option string) := fun env db =>
  let u := UserRow (to_lower (btrim username)) hash role entity "enabled" 1 (now env) (now env) (Some actor) (Some actor) in
  let id := gen_random_uuid env 0 in
  if check_user u then
    if existsb (fun p => us_normalized_username p.2 == us_normalized_username u) (map_to_list (users db))
    then inl unique_violation
    else match insert_pk id u (users db) with
         | inl err => inl err
         | inr t => inr (Some id, db <| users := t |>)
         end
  else inl check_violation.

(** [guard_session] and the CHECKs on the session's instants. *)
Definition guard_session (old new : session_row) : bool :=
  (se_user_id new == se_user_id old) && (se_auth_version new =? se_auth_version old)
  && (se_created_at new =? se_created_at old) && (se_expires_at new =? se_expires_at old)
  && (bool_decide (se_revoked_at old = None)
      || bool_decide (se_revoked_at new = se_revoked_at old) && bool_decide (se_revocation_reason new = se_revocation_reason old)).
Definition check_session (s : session_row) : bool :=
  (se_created_at s <=? se_last_refreshed_at s) && (se_last_refreshed_at s <=? se_expires_at s)
  && Bool.eqb (bool_decide (se_revoked_at s = None)) (bool_decide (se_revocation_reason s = None)).

Definition update_session (id : string) (where_ : session_row -> bool) (set : session_row -> session_row)
    : sql control_db Z := fun env db =>
  match sessions db !! id with
  | None => inr (0, db)
  | Some old =>
      if where_ old then
        if guard_session old (set old) then
          if check_session (set old) then inr (1, db <| sessions ::= <[id := set old]> |>) else inl check_violation
        else inl raise_exception
      else inr (0, db)
  end.

(** [guard_refresh_token] and the CHECK on consumption. *)
Definition guard_refresh_token (old new : token_row) : bool :=
  (to_session_id new == to_session_id old) && (to_token_hash new == to_token_hash old)
  && bool_decide (to_parent_token_id new = to_parent_token_id old) && (to_issued_at new =? to_issued_at old)
  && (to_expires_at new =? to_expires_at old)
  && (bool_decide (to_consumed_at old = None) || bool_decide (to_consumed_at new = to_consumed_at old)).
Definition check_token (t : token_row) : bool :=
  (to_issued_at t <? to_expires_at t)
  && match to_consumed_at t with None => true | Some c => to_issued_at t <=? c end.

Definition update_token (id : string) (where_ : token_row -> bool) (set : token_row -> token_row)
    : sql control_db Z := fun env db =>
  match tokens db !! id with
  | None => inr (0, db)
  | Some old =>
      if where_ old then
        if guard_refresh_token old (set old) then
          if check_token (set old) then inr (1, db <| tokens ::= <[id := set old]> |>) else inl check_violation
        else inl raise_exception
      else inr (0, db)
  end.

(** The insert branch of the trigger, the unique hash, the unique successor of a
    token and the one root of a session. *)
Definition token_fits (t : token_row) (db : control_db) : bool :=
  match sessions db !! to_session_id t with
  | None => false
  | Some family =>
      (to_expires_at t <=? se_expires_at family) && (se_created_at family <=? to_issued_at t)
      && bool_decide (se_revoked_at family = None)
      && match to_parent_token_id t with
         | None => true
         | Some parent =>
             match tokens db !! parent with
             | Some p => (to_session_id p == to_session_id t) && (to_issued_at p <=? to_issued_at t)
             | None => false
             end
         end
  end.
Definition token_unique (t : token_row) (db : control_db) : bool :=
  negb (existsb (fun p => (to_token_hash p.2 == to_token_hash t)
           || (if bool_decide (to_parent_token_id t = None)
               then bool_decide (to_parent_token_id p.2 = None) && (to_session_id p.2 == to_session_id t)
               else bool_decide (to_parent_token_id p.2 = to_parent_token_id t)))
         (map_to_list (tokens db))).

Definition insert_token (id : string) (mk : sql_env -> token_row) : sql control_db unit := fun env db =>
  let t := mk env in
  if token_fits t db then
    if check_token t then
      if token_unique t db then
        match insert_pk id t (tokens db) with
        | inl err => inl err
        | inr tbl => inr (tt, db <| tokens := tbl |>)
        end
      else inl unique_violation
    else inl check_violation
  else inl raise_exception.

(** ** Users *)

Definition scanDirectoryUser (id : string) (u : user_row) : DirectoryUser :=
  MkDirectoryUser id (us_normalized_username u) (us_role u) (default "" (us_entity_id u)) (us_status u)
    (us_created_at u) (us_updated_at u).

(** The rows of a table by id. *)
Definition rows_of {A} (t : gmap string A) : list (string * A) :=
  omap (fun i => (i,.) <$> t !! i) (sort_strings (List.map fst (map_to_list t))).

Definition Users : M (list DirectoryUser) :=
  wrap "list staff users" (control_read (fun _ db =>
    List.map (fun p => scanDirectoryUser p.1 p.2) (newest_first us_created_at (rows_of (users db))))).

Definition User (id : string) : M DirectoryUser :=
  wrap "get staff user" (row (control_read (fun _ db => scanDirectoryUser id <$> users db !! id))).

Definition userByID (id : string) : M DirectoryUser :=
  row (control_exec (query (fun _ db => scanDirectoryUser id <$> users db !! id))).

Definition CreateUser (input : StaffUserCreate) : M DirectoryUser :=
  id ← row (control_exec (insert_user (StaffUserCreate_Username input) (StaffUserCreate_PasswordHash input)
         (StaffUserCreate_Role input) (nullable (StaffUserCreate_EntityID input)) (StaffUserCreate_ActorID input)));
  userByID id.

(** An UPDATE of one user and the row it leaves; [None] when there is no user. *)
Definition change_user (id : string) (set : user_row -> user_row) : M (option DirectoryUser) :=
  n ← control_exec (update_user id set);
  if n =? 1 then user ← userByID id; mret (Some user) else mret None.

Definition UpdateUserRole (id role entityID actorID : string) : M (option DirectoryUser) :=
  change_user id (fun u => u <| us_role := role |> <| us_entity_id := nullable entityID |> <| us_updated_by := Some actorID |>).
Definition UpdateUserStatus (id status actorID : string) : M (option DirectoryUser) :=
  change_user id (fun u => u <| us_status := status |> <| us_updated_by := Some actorID |>).
Definition UpdateUserPassword (id passwordHash actorID : string) : M (option DirectoryUser) :=
  change_user id (fun u => u <| us_password_hash := passwordHash |> <| us_updated_by := Some actorID |>).

Definition insert_auth_audit (mk : sql_env -> auth_audit_row) : sql control_db unit := fun env db =>
  inr (tt, db <| auth_audit ::= fun l => l ++ [mk env] |>).

Definition RecordAuthenticationAudit (event : AuthenticationAudit) : M unit :=
  control_exec (insert_auth_audit (fun env =>
    AuthAuditRow (AuthenticationAudit_EventType event) "succeeded" (Some (AuthenticationAudit_ActorUserID event))
      (Some (AuthenticationAudit_SubjectUserID event)) (nullable (AuthenticationAudit_EntityID event)) None
      (AuthenticationAudit_RequestID event) (now env) (JObj []))).

(** ** Transactions *)

(** [transaction]. *)
Definition control_transaction : M unit := wrap "begin control transaction" control_begin.

(** ** Idempotency of commands *)

Definition central_key (claim : CentralIdempotencyClaim) : key :=
  (CentralIdempotencyClaim_Scope claim, CentralIdempotencyClaim_Key claim).
Definition fresh_command (claim : CentralIdempotencyClaim) : command_row :=
  CommandRow (CentralIdempotencyClaim_Fingerprint claim) 202 (JObj []) None (CentralIdempotencyClaim_ExpiresAt claim).
Definition claim_command (claim : CentralIdempotencyClaim) (insert : bool) : sql control_db unit := fun env db =>
  match commands db !! central_key claim with
  | Some _ => if insert then inl unique_violation else inr (tt, db <| commands ::= <[central_key claim := fresh_command claim]> |>)
  | None => if insert then inr (tt, db <| commands ::= <[central_key claim := fresh_command claim]> |>) else inr (tt, db)
  end.

Definition CentralClaimIdempotency (claim : CentralIdempotencyClaim) : M CentralIdempotencyReplay :=
  r ← try (row (control_exec (query (fun _ db => commands db !! central_key claim))));
  match r with
  | inr r =>
      if CentralIdempotencyClaim_Now claim <? cm_expires_at r then
        if cm_request_fingerprint r != CentralIdempotencyClaim_Fingerprint claim then throw ErrIdempotencyConflict
        else mret (MkCentralIdempotencyReplay (cm_response_body r) true)
      else
        control_exec (claim_command claim false) ;; mret (MkCentralIdempotencyReplay JNull false)
  | inl err =>
      if errors_is err ErrNoRows then
        control_exec (claim_command claim true) ;; mret (MkCentralIdempotencyReplay JNull false)
      else throw err
  end.

Definition finish_command (scope key : string) (status : Z) (response : json) (result : option string)
    : sql control_db unit := fun env db =>
  match commands db !! (scope, key) with
  | None => inr (tt, db)
  | Some r => inr (tt, db <| commands ::= <[(scope, key) := r <| cm_response_status := status |>
                             <| cm_response_body := jsonb response |> <| cm_result_reference := result |>]> |>)
  end.
Definition CentralFinishIdempotency (scope key : string) (status : Z) (response : json) (resultID : string) : M unit :=
  control_exec (finish_command scope key status response (nullable resultID)).

(** ** Bank routes *)

Definition insert_route (entityID shardID : string) : sql control_db unit := fun env db =>
  match insert_pk entityID (RouteRow shardID "provisioning" (now env) (now env)) (routes db) with
  | inl err => inl err
  | inr t => inr (tt, db <| routes := t |>)
  end.
Definition update_route (entityID : string) (where_ : route_row -> bool) (status : string) : sql control_db unit :=
  fun env db =>
  match routes db !! entityID with
  | Some r =>
      if where_ r then
        inr (tt, db <| routes ::= <[entityID := r <| ro_placement_status := status |>
                                                   <| ro_updated_at := clock_timestamp env |>]> |>)
      else inr (tt, db)
  | None => inr (tt, db)
  end.

Definition CreateBankRoute (entityID shardID : string) : M unit := control_exec (insert_route entityID shardID).
Definition SetBankRouteStatus (entityID shardID status : string) : M unit :=
  control_exec (update_route entityID (fun r => ro_shard_id r == shardID) status).
Definition SetBankRouteStatusForEntity (entityID status : string) : M unit :=
  control_exec (update_route entityID (fun _ => true) status).

(** routing/store.go *)
Definition Banks : M (list Route) :=
  wrap "list bank routes" (control_read (fun _ db =>
    List.map (fun p => MkRoute p.1 (ro_shard_id p.2) (ro_placement_status p.2) (ro_created_at p.2))
      (newest_first ro_created_at (rows_of (routes db))))).

Definition has_route (entityID shardID : string) (visible : string -> bool) : control_db -> bool := fun db =>
  match routes db !! entityID with
  | Some r => (ro_shard_id r == shardID) && visible (ro_placement_status r)
  | None => false
  end.
Definition HasActiveRoute (entityID shardID : string) : M bool :=
  wrap "check active bank route" (control_read (fun _ db => has_route entityID shardID (fun s => s == "active") db)).
Definition HasActiveOrProvisioningRoute (entityID shardID : string) : M bool :=
  wrap "check visible bank route" (control_read (fun _ db =>
    has_route entityID shardID (fun s => (s == "active") || (s == "paused") || (s == "provisioning")) db)).

(** ** The rows of a table *)

Lemma rows_of_spec {A} (t : gmap string A) id a : (id, a) ∈ rows_of t <-> t !! id = Some a.
Proof.
  unfold rows_of, sort_strings. rewrite list_elem_of_omap. split.
  - intros (i & _ & H). destruct (t !! i) eqn:E; [|done]. cbn in H. congruence.
  - intros Ha. exists id. rewrite merge_sort_Permutation, Ha. split; [|done].
    apply list_elem_of_In, in_map_iff. exists (id, a). split; [done|]. by apply list_elem_of_In, elem_of_map_to_list.
Qed.
Lemma rows_of_NoDup {A} (t : gmap string A) : NoDup (fst <$> rows_of t).
Proof.
  unfold rows_of. set (ids := sort_strings _).
  assert (Hids : NoDup ids).
  { subst ids. unfold sort_strings. rewrite merge_sort_Permutation. apply NoDup_fst_map_to_list. }
  clearbody ids. induction Hids as [|i ids Hi Hids IH]; cbn; [constructor|].
  destruct (t !! i); cbn; [|done]. constructor; [|done]. intros Hin. apply Hi.
  apply list_elem_of_fmap in Hin as ([i' a'] & Heq & Hin). cbn in Heq. subst i'.
  apply list_elem_of_omap in Hin as (j & Hj & H). destruct (t !! j); [|done]. cbn in H. congruence.
Qed.

(** ** Which banks a principal reaches (internal/tenant/service.go) *)

(** [err == nil && ok]. *)
Definition holds (m : M bool) : M bool :=
  r ← try m; mret (match r with inr ok => ok | inl _ => false end).

Section Tenant.
Context (shardID : string).

Definition Active (bankID : string) : M bool := holds (HasActiveRoute bankID shardID).
Definition ActiveOrProvisioning (bankID : string) : M bool := holds (HasActiveOrProvisioningRoute bankID shardID).

Definition CanRead (principal : Principal) (bankID : string) : M bool :=
  if (Principal_Role principal == "issuer_operator") || (Principal_Role principal == "issuer_readonly") then Active bankID
  else if Principal_EntityID principal == bankID then Active bankID
  else mret false.
Definition CanReadBank (principal : Principal) (bankID : string) : M bool := CanRead principal bankID.
End Tenant.
