(* ===== verification/Password.v ===== *)
(** * Password: policy, hashing and verification

    [internal/auth/password.go]. [argon2.IDKey] is the parameter [IDKey], from
    the password, the salt and the cost (iterations, memory, parallelism, key
    length) to a key; the classes of the package [unicode] are parameters too. *)

From S2P Require Import Prelude Text Base64 Stores World Scenario.
Open Scope string_scope.
Open Scope list_scope.
Open Scope Z_scope.

Definition MaxPasswordBytes : nat := 1024.
Definition argonMemory : Z := 19456.
Definition argonIterations : Z := 2.
Definition argonParallelism : Z := 1.
Definition argonKeyLength : Z := 32.

(** [strconv.ParseUint(value, 10, 32)]. *)
Fixpoint parse_digits (l : list N) (acc : Z) : option Z :=
  match l with
  | [] => Some acc
  | c :: rest =>
      if (48 <=? c)%N && (c <=? 57)%N then
        let v := acc * 10 + Z.of_N (c - 48) in if 4294967295 <? v then None else parse_digits rest v
      else None
  end.
Definition ParseUint32 (value : string) : option Z :=
  if value == "" then None else parse_digits (bytes_of value) 0.

Definition dollar : Ascii.ascii := chr 36.
Definition comma : Ascii.ascii := chr 44.
Definition equals : Ascii.ascii := chr 61.

(** The loop that fills [values]; a later parameter of the same name wins. *)
Fixpoint parse_params (params : list string) (values : list (string * Z)) : option (list (string * Z)) :=
  match params with
  | [] => Some values
  | parameter :: rest =>
      kv ← cut equals parameter; parsed ← ParseUint32 kv.2; parse_params rest ((kv.1, parsed) :: values)
  end.
(** A missing key of a Go map is zero. *)
Fixpoint lookup_param (values : list (string * Z)) (key : string) : Z :=
  match values with
  | [] => 0
  | (k, v) :: rest => if k == key then v else lookup_param rest key
  end.

(** [decodePasswordPart]. *)
Definition decodePasswordPart (value : string) : option string :=
  match Decode StdAlphabet false value with
  | Some decoded => Some decoded
  | None => Decode StdAlphabet true value
  end.

Section Passwords.
Context (IsUpper IsNumber IsPunct IsSymbol : N -> bool).
Context (IDKey : string -> string -> Z -> Z -> Z -> Z -> string).

(** The loop over the runes with its three flags. *)
Fixpoint policy_loop (l : list N) (upper number symbol : bool) : bool * bool * bool :=
  match l with
  | [] => (upper, number, symbol)
  | r :: rest => policy_loop rest (upper || IsUpper r) (number || IsNumber r) (symbol || IsPunct r || IsSymbol r)
  end.

Definition ValidateNewPassword (password : string) : result unit :=
  if (MaxPasswordBytes <? String.length password)%nat || (utf8RuneCount password <? 13)%nat then inl ErrPasswordPolicy
  else
    let '(upper, number, symbol) := policy_loop (runes password) false false false in
    if negb upper || negb number || negb symbol then inl ErrPasswordPolicy else inr tt.

(** [HashPassword] with its salt. *)
Definition format_hash (salt hash : string) : string :=
  "$argon2id$v=19$m=19456,t=2,p=1$" +:+ RawEncode StdAlphabet salt +:+ "$" +:+ RawEncode StdAlphabet hash.
Definition hash_with (salt password : string) : string :=
  format_hash salt (IDKey password salt argonIterations argonMemory argonParallelism argonKeyLength).
Definition HashPassword (password : string) : M string :=
  if (MaxPasswordBytes <? String.length password)%nat then throw ErrPasswordPolicy
  else salt ← rand16; mret (hash_with (of_bytes (List.map Z.to_N salt)) password).

Definition invalid_hash : error := ErrMsg "invalid password hash".

Definition VerifyPassword (encoded password : string) : result bool :=
  match split dollar encoded with
  | [p0; p1; p2; p3; p4; p5] =>
      if (p0 != "") || (p1 != "argon2id") || (p2 != "v=19") then inl invalid_hash
      else
        let params := split comma p3 in
        if negb (length params =? 3)%nat then inl invalid_hash
        else match parse_params params [] with
        | None => inl invalid_hash
        | Some values =>
            let memory := lookup_param values "m" in
            let iterations := lookup_param values "t" in
            let parallelism := lookup_param values "p" in
            if (memory =? 0) || (65536 <? memory) || (iterations =? 0) || (8 <? iterations)
               || (parallelism =? 0) || (4 <? parallelism)
            then inl (ErrMsg "unsupported password hash")
            else match decodePasswordPart p4 with
            | None => inl invalid_hash
            | Some salt =>
                if (String.length salt <? 8)%nat then inl invalid_hash
                else match decodePasswordPart p5 with
                | None => inl invalid_hash
                | Some want =>
                    if (String.length want <? 16)%nat || (64 <? String.length want)%nat then inl invalid_hash
                    else inr (IDKey password salt iterations memory parallelism (Z.of_nat (String.length want)) == want)
                end
            end
        end
  | _ => inl invalid_hash
  end.

(** ** Round trip *)

Lemma encode_no_dollar s : Forall (fun c => Ascii.eqb c dollar = false) (String.list_ascii_of_string (RawEncode StdAlphabet s)).
Proof. apply encode_free; by vm_compute. Qed.

Lemma verify_hash salt password other :
  (8 <= String.length salt)%nat ->
  (forall p s, String.length (IDKey p s argonIterations argonMemory argonParallelism argonKeyLength) = 32%nat) ->
  VerifyPassword (hash_with salt password) other =
  inr (IDKey other salt argonIterations argonMemory argonParallelism argonKeyLength
       == IDKey password salt argonIterations argonMemory argonParallelism argonKeyLength).
Proof.
  intros Hsalt Hlen. unfold VerifyPassword, hash_with, format_hash, split.
  set (want := IDKey password salt argonIterations argonMemory argonParallelism argonKeyLength).
  assert (Hw : String.length want = 32%nat) by apply Hlen.
  rewrite !string_app_list. set (e1 := String.list_ascii_of_string (RawEncode StdAlphabet salt)).
  set (e2 := String.list_ascii_of_string (RawEncode StdAlphabet want)).
  assert (H1 : Forall (fun c => Ascii.eqb c dollar = false) e1) by apply encode_no_dollar.
  assert (H2 : Forall (fun c => Ascii.eqb c dollar = false) e2) by apply encode_no_dollar.
  assert (Hs : split_chars dollar (String.list_ascii_of_string "$argon2id$v=19$m=19456,t=2,p=1$" ++ e1 ++
      String.list_ascii_of_string "$" ++ e2) =
    [[]; String.list_ascii_of_string "argon2id"; String.list_ascii_of_string "v=19";
     String.list_ascii_of_string "m=19456,t=2,p=1"; e1; e2]).
  { transitivity (split_chars dollar ([] ++ dollar :: (String.list_ascii_of_string "argon2id" ++ dollar ::
      (String.list_ascii_of_string "v=19" ++ dollar :: (String.list_ascii_of_string "m=19456,t=2,p=1" ++ dollar ::
        (e1 ++ dollar :: e2)))))); [reflexivity|].
    rewrite !split_chars_app by (first [done | by repeat constructor]). by rewrite split_chars_none. }
  rewrite Hs. unfold e1, e2.
  cbn [List.map]. rewrite !String.string_of_list_ascii_of_string.
  change (split_chars comma (String.list_ascii_of_string "m=19456,t=2,p=1")) with
    (split_chars comma (String.list_ascii_of_string "m=19456,t=2,p=1")).
  set (params := parse_params _ _). assert (Hp : params = Some [("p", 1); ("t", 2); ("m", 19456)]) by by vm_compute.
  rewrite Hp. unfold decodePasswordPart. rewrite !(Decode_RawEncode StdAlphabet) by apply std_ok.
  replace (String.length salt <? 8)%nat with false by (symmetry; apply Nat.ltb_ge; lia). rewrite Hw. reflexivity.
Qed.

(** C30: a password that [HashPassword] accepts verifies against the hash it
    returned, and another password verifies exactly when it has the same Argon2
    key under the drawn salt: the textual form of the hash loses nothing. *)
Theorem HashPassword_roundtrip w password encoded w' :
  (forall p s, String.length (IDKey p s argonIterations argonMemory argonParallelism argonKeyLength) = 32%nat) ->
  Forall (fun chunk => length chunk = 16%nat) (w_entropy w) ->
  HashPassword password w = (inr encoded, w') ->
  VerifyPassword encoded password = inr true /\
  exists salt, String.length salt = 16%nat /\ forall other,
    VerifyPassword encoded other =
    inr (IDKey other salt argonIterations argonMemory argonParallelism argonKeyLength
         == IDKey password salt argonIterations argonMemory argonParallelism argonKeyLength).
Proof.
  intros Hlen Hsrc. unfold HashPassword. case_match; [by intros ?%throw_inr|].
  rewrite bind_inr. intros (salt & w1 & Hr & [<- <-]%ret_inr).
  assert (Hs : String.length (of_bytes (List.map Z.to_N salt)) = 16%nat).
  { unfold rand16 in Hr. destruct (w_entropy w) as [|chunk rest]; simplify_eq.
    inversion_clear Hsrc. unfold of_bytes. by rewrite length_of_ascii, !List.length_map. }
  assert (Hv := fun other => verify_hash _ password other ltac:(rewrite Hs; lia) Hlen).
  split; [rewrite Hv; f_equal; apply String.eqb_refl|]. by exists (of_bytes (List.map Z.to_N salt)).
Qed.
End Passwords.

(** Parsed parameters are not negative. *)
Lemma parse_digits_nonneg l : forall acc v, 0 <= acc -> parse_digits l acc = Some v -> 0 <= v.
Proof.
  induction l as [|c l IH]; cbn; intros acc v Ha; [intros [= <-]; done|].
  repeat case_match; try done. apply IH. lia.
Qed.
Lemma ParseUint32_nonneg s v : ParseUint32 s = Some v -> 0 <= v.
Proof. unfold ParseUint32. case_match; [done|]. apply parse_digits_nonneg. lia. Qed.
Lemma parse_params_nonneg l : forall acc values, Forall (fun kv => 0 <= kv.2) acc ->
  parse_params l acc = Some values -> Forall (fun kv => 0 <= kv.2) values.
Proof.
  induction l as [|p l IH]; cbn; intros acc values Ha; [by intros [= <-]|].
  intros (kv & _ & (v & Hv & H)%bind_Some)%bind_Some. eapply IH; [|exact H].
  constructor; [|done]. by eapply ParseUint32_nonneg.
Qed.
Lemma lookup_param_nonneg values key : Forall (fun kv => 0 <= kv.2) values -> 0 <= lookup_param values key.
Proof. induction 1 as [|[k v] l Hv _ IH]; cbn; [done|]. by case_match. Qed.

(** Whatever hash string is stored, verification runs Argon2 only within the
    bounds of the code: two key functions that agree on passwords at most 64 MiB
    of memory, 8 iterations, 4 lanes, a salt of at least 8 bytes and a key of 16
    to 64 bytes verify alike. *)
Theorem VerifyPassword_bounded_work IDKey IDKey' encoded password :
  (forall salt t m p n, 1 <= t <= 8 -> 1 <= m <= 65536 -> 1 <= p <= 4 -> 16 <= n <= 64 ->
    (8 <= String.length salt)%nat -> IDKey password salt t m p n = IDKey' password salt t m p n) ->
  VerifyPassword IDKey encoded password = VerifyPassword IDKey' encoded password.
Proof.
  intros Hagree. unfold VerifyPassword. repeat case_match; try done. do 2 f_equal.
  repeat match goal with
    | H : (_ || _)%bool = false |- _ => apply orb_false_iff in H as [? ?]
    | H : (_ <? _) = false |- _ => apply Z.ltb_ge in H
    | H : (_ <? _)%nat = false |- _ => apply Nat.ltb_ge in H
    | H : (_ =? _) = false |- _ => apply Z.eqb_neq in H
    | H : parse_params _ [] = Some _ |- _ => apply parse_params_nonneg in H; [|constructor]
    end.
  apply Hagree; try lia.
  all: match goal with |- context [lookup_param ?v ?k] => pose proof (lookup_param_nonneg v k); intuition lia end.
Qed.

(** A key function for the witnesses: 32 bytes of the password and the salt. *)
Definition toy_key (password salt : string) (t m p n : Z) : string :=
  String.substring 0 (Z.to_nat n) (password +:+ salt +:+ "................................................................").

Example toy_policy_ok : ValidateNewPassword (fun r => (65 <=? r)%N && (r <=? 90)%N) (fun r => (48 <=? r)%N && (r <=? 57)%N)
  (fun r => (r =? 33)%N) (fun _ => false) "Correct-horse!9" = inr tt.
Proof. reflexivity. Qed.

Example toy_verify : VerifyPassword toy_key (hash_with toy_key "0123456789abcdef" "Secret") "Secret" = inr true /\
  VerifyPassword toy_key (hash_with toy_key "0123456789abcdef" "Secret") "secret" = inr false.
Proof. split; reflexivity. Qed.

Lemma VerifyPassword_bounded_work_witness :
  let other := fun p s t m l n => if 65536 <? m then "" else toy_key p s t m l n in
  VerifyPassword toy_key "$argon2id$v=19$m=99999999,t=2,p=1$MDEyMzQ1Njc4OWFiY2RlZg$MDEyMzQ1Njc4OWFiY2RlZg" "Secret" =
  VerifyPassword other "$argon2id$v=19$m=99999999,t=2,p=1$MDEyMzQ1Njc4OWFiY2RlZg$MDEyMzQ1Njc4OWFiY2RlZg" "Secret".
Proof.
  intros other. apply (VerifyPassword_bounded_work toy_key other). intros salt t m p n _ Hm _ _ _.
  unfold other. case_match; [|done]. rewrite Z.ltb_lt in *. lia.
Defined.

Lemma length_prefix n : forall s, (n <= String.length s)%nat -> String.length (String.substring 0 n s) = n.
Proof. induction n as [|n IH]; intros [|c s] H; cbn in *; try lia. rewrite IH; lia. Qed.

Lemma HashPassword_roundtrip_witness :
  VerifyPassword toy_key (hash_with toy_key (of_bytes (List.map Z.to_N (toy_bytes 1))) "Secret") "Secret" = inr true.
Proof.
  refine (proj1 (HashPassword_roundtrip toy_key (toy_world empty_shard 100) "Secret" _
    (HashPassword toy_key "Secret" (toy_world empty_shard 100)).2 _ _ _)).
  - intros p s. apply length_prefix. rewrite !length_append. cbn. lia.
  - repeat constructor.
  - apply run_result. reflexivity.
Defined.
