(* ===== verification/AuthStore.v ===== *)
(** * AuthStore: users, sessions and refresh tokens

    [internal/repository/auth/store.go]: the statements of the authentication
    transaction, over the triggers and constraints of [ControlStore].  FOR
    UPDATE takes a row lock and changes nothing; [mapNotFound] is [found]. *)

From S2P Require Import Prelude Json Domain Stores World ShardTx Guards AuthTypes ControlStore.
Open Scope string_scope.
Open Scope list_scope.
Open Scope Z_scope.

(** [mapNotFound] around a scan. *)
Definition mapNotFound (err : error) : error := if errors_is err ErrNoRows then ErrAuthNotFound else err.
Definition found {A} (m : M (option A)) : M A :=
  r ← try (row m); match r with inl err => throw (mapNotFound err) | inr a => mret a end.

Definition auth_Begin : M unit := wrap "begin auth transaction" control_begin.
Definition auth_Commit : M unit := control_commit.
Definition auth_Rollback : M unit := control_rollback.

(** The row a unique text column selects. *)
Definition find_row {A} (p : A -> bool) (t : gmap string A) : option (string * A) :=
  head (List.filter (fun r => p r.2) (rows_of t)).

Definition lookup_refresh (hash : string) (db : control_db) : option RefreshLookup :=
  t ← find_row (fun t => to_token_hash t == hash) (tokens db);
  s ← sessions db !! to_session_id t.2;
  Some (MkRefreshLookup t.1 (to_session_id t.2) (se_user_id s)).

Definition LookupRefresh (hash : string) : M RefreshLookup :=
  r ← try (row (control_read (fun _ db => lookup_refresh hash db)));
  match r with
  | inr lookup => mret lookup
  | inl err => if errors_is err ErrNoRows then throw ErrAuthNotFound else throw (ErrWrap "lookup refresh token" err)
  end.

Definition scanUser (id : string) (u : user_row) : UserRecord :=
  MkUserRecord id (us_normalized_username u) (us_password_hash u) (us_role u) (default "" (us_entity_id u))
    (us_status u) (us_auth_version u).

Definition user_by_name (username : string) (db : control_db) : option UserRecord :=
  (fun r => scanUser r.1 r.2) <$> find_row (fun u => us_normalized_username u == username) (users db).
Definition UserByUsername (username : string) (lock : bool) : M UserRecord :=
  found (control_exec (query (fun _ db => user_by_name username db))).
Definition UserByID (id : string) (lock : bool) : M UserRecord :=
  found (control_exec (query (fun _ db => scanUser id <$> users db !! id))).

Definition session_record (id : string) (s : session_row) : SessionRecord :=
  MkSessionRecord id (se_auth_version s) (se_expires_at s) (negb (bool_decide (se_revoked_at s = None))).
Definition Session (id : string) (lock : bool) : M SessionRecord :=
  found (control_exec (query (fun _ db => session_record id <$> sessions db !! id))).

Definition token_record (id : string) (t : token_row) : RefreshTokenRecord :=
  MkRefreshTokenRecord id (to_expires_at t) (negb (bool_decide (to_consumed_at t = None))).
Definition RefreshToken (id sessionID : string) (lock : bool) : M RefreshTokenRecord :=
  found (control_exec (query (fun _ db =>
    t ← tokens db !! id; if to_session_id t == sessionID then Some (token_record id t) else None))).

(** The defaults of the table: the session lives for seven days. *)
Definition foreign_key_violation : db_error := PgError "23503".
Definition insert_session (id userID : string) (version : Z) : sql control_db (option Z) := fun env db =>
  let expires := now env + 7 * day in
  let s := SessionRow userID version (now env) expires (now env) None None in
  match users db !! userID with
  | None => inl foreign_key_violation
  | Some _ =>
      if 0 <? version then
        match insert_pk id s (sessions db) with
        | inl err => inl err
        | inr t => inr (Some expires, db <| sessions := t |>)
        end
      else inl check_violation
  end.
Definition CreateSession (id userID : string) (version : Z) : M Z :=
  row (control_exec (insert_session id userID version)).

Definition new_token (sessionID hash : string) (parent : option string) (expiresAt : Z) (env : sql_env) : token_row :=
  TokenRow sessionID hash parent (now env) expiresAt None.
Definition CreateRefreshToken (id sessionID hash parentID : string) (expiresAt : Z) : M unit :=
  if parentID == "" then control_exec (insert_token id (new_token sessionID hash None expiresAt))
  else control_exec (insert_token id (new_token sessionID hash (Some parentID) expiresAt)).

(** An UPDATE whose row count is not read. *)
Definition exec_update (f : sql control_db Z) : M unit := control_exec f ;; mret tt.

Definition unrevoked (s : session_row) : bool := bool_decide (se_revoked_at s = None).
Definition RevokeSession (id : string) (at_ : Z) (reason : string) : M unit :=
  exec_update (update_session id unrevoked
    (fun s => s <| se_revoked_at := Some at_ |> <| se_revocation_reason := Some reason |>)).
Definition unconsumed (t : token_row) : bool := bool_decide (to_consumed_at t = None).
Definition ConsumeRefreshToken (id : string) (at_ : Z) : M unit :=
  exec_update (update_token id unconsumed (fun t => t <| to_consumed_at := Some at_ |>)).
Definition TouchSession (id : string) (at_ : Z) : M unit :=
  exec_update (update_session id (fun _ => true) (fun s => s <| se_last_refreshed_at := at_ |>)).
Definition UpdatePassword (id hash : string) : M unit :=
  exec_update (update_user id (fun u => u <| us_password_hash := hash |> <| us_updated_by := Some id |>)).

(** The details of an event are a JSON object of strings. *)
Definition audit_details (event : AuditEvent) : json :=
  match ae_Details event with
  | None => JObj []
  | Some l => JObj (List.map (fun p => (p.1, JStr p.2)) l)
  end.
Definition auth_event_row (event : AuditEvent) (env : sql_env) : auth_audit_row :=
  AuthAuditRow (ae_EventType event) (ae_Outcome event) (nullable (ae_ActorID event)) (nullable (ae_SubjectID event))
    (nullable (ae_EntityID event)) (nullable (ae_SessionID event)) (ae_RequestID event) (now env)
    (jsonb (audit_details event)).
Definition RecordAudit (event : AuditEvent) : M unit := control_exec (insert_auth_audit (auth_event_row event)).
