(* ===== verification/ControlOrder.v ===== *)
(** * ControlOrder: what a statement may do to the control database

    [control_le]: users, sessions and refresh tokens are never deleted; a
    change of a user's authorization raises its version; the identity, the
    captured version and the end of a session never change and a revocation
    stays; the identity and the end of a token never change and a consumption
    stays; token hashes stay unique; the audit log only grows.  Every statement
    of the control stores respects it, so a request does, under any faults. *)

From S2P Require Import Prelude Json Domain Stores World ShardTx Guards AuthTypes ControlStore AuthStore.
Open Scope string_scope.
Open Scope list_scope.
Open Scope Z_scope.

Definition user_le (old new : user_row) : Prop :=
  us_auth_version old <= us_auth_version new /\
  (us_auth_version new = us_auth_version old -> authorization new = authorization old).
#[export] Instance user_le_preorder : PreOrder user_le.
Proof.
  split; [intros u; by split|]. intros a b c [H1 H2] [H3 H4]. split; [lia|]. intros H.
  rewrite H4 by lia. apply H2. lia.
Qed.

Definition session_identity (s : session_row) := (se_user_id s, se_auth_version s, se_created_at s, se_expires_at s).
Definition session_le (old new : session_row) : Prop :=
  session_identity new = session_identity old /\
  (is_Some (se_revoked_at old) ->
   se_revoked_at new = se_revoked_at old /\ se_revocation_reason new = se_revocation_reason old).
#[export] Instance session_le_preorder : PreOrder session_le.
Proof.
  split; [by intros s|]. intros a b c [H1 H2] [H3 H4]. split; [congruence|]. intros H.
  destruct (H2 H) as [Hr Hs]. destruct H4 as [??]; [by rewrite Hr|]. split; congruence.
Qed.

Definition token_identity (t : token_row) :=
  (to_session_id t, to_token_hash t, to_parent_token_id t, to_issued_at t, to_expires_at t).
Definition token_le (old new : token_row) : Prop :=
  token_identity new = token_identity old /\ (is_Some (to_consumed_at old) -> to_consumed_at new = to_consumed_at old).
#[export] Instance token_le_preorder : PreOrder token_le.
Proof.
  split; [by intros t|]. intros a b c [H1 H2] [H3 H4]. split; [congruence|]. intros H.
  rewrite H4 by (by rewrite H2). auto.
Qed.

(** UNIQUE (token_hash). *)
Definition unique_hashes (t : gmap string token_row) : Prop :=
  forall i j a b, t !! i = Some a -> t !! j = Some b -> to_token_hash a = to_token_hash b -> i = j.

Record control_le (db db' : control_db) : Prop := ControlLe {
  cl_users : table_le user_le (users db) (users db');
  cl_sessions : table_le session_le (sessions db) (sessions db');
  cl_tokens : table_le token_le (tokens db) (tokens db');
  cl_unique : unique_hashes (tokens db) -> unique_hashes (tokens db');
  cl_audit : exists l, auth_audit db' = auth_audit db ++ l
}.

#[export] Instance control_le_preorder : PreOrder control_le.
Proof.
  split.
  - intros db. split; try reflexivity; [done|]. exists []. by rewrite app_nil_r.
  - intros a b c [] []. split; try (etrans; eassumption); [auto|].
    destruct cl_audit0 as [l Hl], cl_audit1 as [l' Hl']. exists (l ++ l'). by rewrite app_assoc, <- Hl.
Qed.

(** ** Statements *)

Lemma control_le_sessions db t : table_le session_le (sessions db) t -> control_le db (db <| sessions := t |>).
Proof. intros H. split; cbn; try reflexivity; try done. exists []. by rewrite app_nil_r. Qed.
Lemma control_le_users db t : table_le user_le (users db) t -> control_le db (db <| users := t |>).
Proof. intros H. split; cbn; try reflexivity; try done. exists []. by rewrite app_nil_r. Qed.
Lemma control_le_tokens db t :
  table_le token_le (tokens db) t -> (unique_hashes (tokens db) -> unique_hashes t) -> control_le db (db <| tokens := t |>).
Proof. intros H Hu. split; cbn; try reflexivity; try done. exists []. by rewrite app_nil_r. Qed.
Lemma control_le_routes db t : control_le db (db <| routes := t |>).
Proof. split; cbn; try reflexivity; try done. exists []. by rewrite app_nil_r. Qed.
Lemma control_le_commands db t : control_le db (db <| commands := t |>).
Proof. split; cbn; try reflexivity; try done. exists []. by rewrite app_nil_r. Qed.

Lemma mono_query {A} (g : sql_env -> control_db -> A) : mono control_le (query g).
Proof. intros env db a db' [= <- <-]. reflexivity. Qed.

Lemma mono_update_user id set : mono control_le (update_user id set).
Proof.
  intros env db a db'. unfold update_user. destruct (users db !! id) as [old|] eqn:E; [|by intros [= _ <-]].
  destruct (guard_user _ old (set old)) as [new|] eqn:G; [|done]. case_match; [|done]. intros [= _ <-].
  apply control_le_users; refine (table_le_insert _ _ _ _ _); intros b Hb; rewrite E in Hb; injection Hb as <-.
  unfold guard_user in G. destruct (_ <? _) eqn:Hv; [done|]. injection G as <-. apply Z.ltb_ge in Hv.
  case_bool_decide as Ha; unfold user_le, authorization in *; cbn in *; [split; [done|congruence]|split; lia].
Qed.

Lemma mono_update_session id where_ set : mono control_le (update_session id where_ set).
Proof.
  intros env db a db'. unfold update_session. destruct (sessions db !! id) as [old|] eqn:E; [|by intros [= _ <-]].
  destruct (where_ old); [|by intros [= _ <-]]. destruct (guard_session old (set old)) eqn:G; [|done].
  case_match; [|done]. intros [= _ <-]. apply control_le_sessions; refine (table_le_insert _ _ _ _ _); intros b Hb; rewrite E in Hb; injection Hb as <-.
  unfold guard_session in G. rewrite !andb_true_iff, !orb_true_iff, !andb_true_iff, !bool_decide_eq_true, !Z.eqb_eq, !String.eqb_eq in G.
  destruct G as [[[[G1 G2] G3] G4] G5]. split; [unfold session_identity; congruence|].
  intros [r Hr]. destruct G5 as [?|[??]]; [congruence|done].
Qed.

Lemma mono_update_token id where_ set : mono control_le (update_token id where_ set).
Proof.
  intros env db a db'. unfold update_token. destruct (tokens db !! id) as [old|] eqn:E; [|by intros [= _ <-]].
  destruct (where_ old); [|by intros [= _ <-]]. destruct (guard_refresh_token old (set old)) eqn:G; [|done].
  case_match; [|done]. intros [= _ <-].
  unfold guard_refresh_token in G. rewrite !andb_true_iff, !orb_true_iff, !bool_decide_eq_true, !Z.eqb_eq, !String.eqb_eq in G.
  destruct G as [[[[[G1 G2] G3] G4] G5] G6]. apply control_le_tokens.
  - refine (table_le_insert _ _ _ _ _); intros b Hb; rewrite E in Hb; injection Hb as <-. split; [unfold token_identity; congruence|].
    intros [c Hc]. destruct G6 as [?|?]; [congruence|done].
  - intros Hu i j x y Hi Hj Hh. rewrite lookup_insert_Some in Hi, Hj.
    destruct Hi as [[-> <-]|[? Hi]], Hj as [[-> <-]|[? Hj]]; [done|..].
    + apply (Hu _ _ _ _ E Hj). congruence.
    + apply (Hu _ _ _ _ Hi E). congruence.
    + by eapply Hu.
Qed.

Lemma mono_insert_user name hash role entity actor : mono control_le (insert_user name hash role entity actor).
Proof.
  intros env db a db'. unfold insert_user, insert_pk. repeat case_match; try done. intros [= _ <-]. simplify_eq.
  apply control_le_users. refine (table_le_insert _ _ _ _ _); congruence.
Qed.
Lemma mono_insert_session id user version : mono control_le (insert_session id user version).
Proof.
  intros env db a db'. unfold insert_session, insert_pk. repeat case_match; try done. intros [= _ <-]. simplify_eq.
  apply control_le_sessions. refine (table_le_insert _ _ _ _ _); congruence.
Qed.
Lemma mono_insert_token id mk : mono control_le (insert_token id mk).
Proof.
  intros env db a db'. unfold insert_token, insert_pk. destruct (token_fits _ _); [|done].
  destruct (check_token _); [|done]. destruct (token_unique _ _) eqn:U; [|done].
  destruct (tokens db !! id) eqn:E; [done|]. intros [= _ <-]. apply control_le_tokens; [refine (table_le_insert _ _ _ _ _); congruence|].
  intros Hu i j x y Hi Hj Hh. unfold token_unique in U. rewrite negb_true_iff in U.
  assert (Hfresh : forall k z, tokens db !! k = Some z -> to_token_hash z <> to_token_hash (mk env)).
  { intros k z Hz Heq. apply not_true_iff_false in U. apply U. apply existsb_exists. exists (k, z).
    split; [by apply list_elem_of_In, elem_of_map_to_list|].
    cbn. by rewrite Heq, String.eqb_refl. }
  rewrite lookup_insert_Some in Hi, Hj. destruct Hi as [[-> <-]|[? Hi]], Hj as [[-> <-]|[? Hj]]; try done.
  - by destruct (Hfresh _ _ Hj).
  - by destruct (Hfresh _ _ Hi).
  - by eapply Hu.
Qed.
Lemma mono_insert_auth_audit mk : mono control_le (insert_auth_audit mk).
Proof. intros env db a db' [= _ <-]. split; cbn; try reflexivity; [done|]. eauto. Qed.
Lemma mono_claim_command c b : mono control_le (claim_command c b).
Proof.
  intros env db a db'. unfold claim_command. repeat case_match; try done; intros [= _ <-]; try reflexivity; apply control_le_commands.
Qed.
Lemma mono_finish_command s k st j r : mono control_le (finish_command s k st j r).
Proof. intros env db a db'. unfold finish_command. case_match; intros [= _ <-]; [apply control_le_commands|done]. Qed.
Lemma mono_insert_route e s : mono control_le (insert_route e s).
Proof.
  intros env db a db'. unfold insert_route, insert_pk. repeat case_match; try done; intros [= _ <-]; simplify_eq. apply control_le_routes.
Qed.
Lemma mono_update_route e p s : mono control_le (update_route e p s).
Proof.
  intros env db a db'. unfold update_route. repeat case_match; intros [= _ <-]; try reflexivity; apply control_le_routes.
Qed.

#[export] Hint Resolve mono_query mono_update_user mono_update_session mono_update_token mono_insert_user
  mono_insert_session mono_insert_token mono_insert_auth_audit mono_claim_command mono_finish_command
  mono_insert_route mono_update_route : frames.

(** ** Transactions *)

(** A read changes no table. *)
Lemma control_read_run {A} (g : sql_env -> control_db -> A) w r w' :
  control_read g w = (r, w') ->
  w_control w' = w_control w /\ w_control_tx w' = w_control_tx w /\ w_clock w <= w_clock w' /\
  ((exists e, r = inl (ErrDb e)) \/ exists env, r = inr (g env (w_control w))).
Proof.
  unfold control_read, control_auto, query, pop_event. repeat case_match; intros; simplify_eq/=; split_and!; eauto; lia.
Qed.
Lemma cmoves_control_read P `{!PreOrder P} {A} (g : sql_env -> control_db -> A) : frames (control_moves P) (control_read g).
Proof. intros w r w' (Hc & Htx & _)%control_read_run Hq. rewrite Hc, Htx. by split. Qed.
#[export] Hint Resolve cmoves_control_read : frames.

Ltac control_leaf := unfold exec_update, auth_Commit, auth_Rollback, auth_Begin in *; auto 6 with frames.

Section Store.
Abbreviation R := (control_moves control_le).
Lemma le_found {A} (m : M (option A)) : frames R m -> frames R (found m).
Proof. intros H. unfold found. frame_with ltac:(control_leaf). Qed.
Lemma le_auth_Begin : frames R auth_Begin.
Proof. unfold auth_Begin. frame_with ltac:(control_leaf). Qed.
Lemma le_LookupRefresh h : frames R (LookupRefresh h).
Proof. unfold LookupRefresh. frame_with ltac:(control_leaf). Qed.
Lemma le_UserByUsername n l : frames R (UserByUsername n l).
Proof. apply le_found. control_leaf. Qed.
Lemma le_UserByID n l : frames R (UserByID n l).
Proof. apply le_found. control_leaf. Qed.
Lemma le_Session n l : frames R (Session n l).
Proof. apply le_found. control_leaf. Qed.
Lemma le_RefreshToken n s l : frames R (RefreshToken n s l).
Proof. apply le_found. control_leaf. Qed.
Lemma le_CreateSession i u v : frames R (CreateSession i u v).
Proof. unfold CreateSession. frame_with ltac:(control_leaf). Qed.
Lemma le_CreateRefreshToken i s h p e : frames R (CreateRefreshToken i s h p e).
Proof. unfold CreateRefreshToken. frame_with ltac:(control_leaf). Qed.
Lemma le_RevokeSession i t r : frames R (RevokeSession i t r).
Proof. unfold RevokeSession, exec_update. frame_with ltac:(control_leaf). Qed.
Lemma le_ConsumeRefreshToken i t : frames R (ConsumeRefreshToken i t).
Proof. unfold ConsumeRefreshToken, exec_update. frame_with ltac:(control_leaf). Qed.
Lemma le_TouchSession i t : frames R (TouchSession i t).
Proof. unfold TouchSession, exec_update. frame_with ltac:(control_leaf). Qed.
Lemma le_UpdatePassword i h : frames R (UpdatePassword i h).
Proof. unfold UpdatePassword, exec_update. frame_with ltac:(control_leaf). Qed.
Lemma le_RecordAudit e : frames R (RecordAudit e).
Proof. unfold RecordAudit. control_leaf. Qed.
End Store.
#[export] Hint Resolve le_auth_Begin le_LookupRefresh le_UserByUsername le_UserByID le_Session le_RefreshToken
  le_CreateSession le_CreateRefreshToken le_RevokeSession le_ConsumeRefreshToken le_TouchSession le_UpdatePassword
  le_RecordAudit : frames.

(** ** Inversion *)

Lemma cexec_inr {A} (f : sql control_db A) w a w' :
  control_exec f w = (inr a, w') ->
  exists db db' env, w_control_tx w = Some db /\ f env db = inr (a, db') /\ now env = w_tx_start w /\
    clock_timestamp env = w_clock w' /\ w_clock w <= w_clock w' /\
    w_control_tx w' = Some db' /\ w_control w' = w_control w /\ w_tx_start w' = w_tx_start w.
Proof.
  unfold control_exec, pop_event, sql_env_of. repeat case_match; intros; simplify_eq/=;
  do 3 eexists; repeat split; first [eassumption | done | cbn; lia].
Qed.
Lemma cbegin_inr w w' :
  auth_Begin w = (inr tt, w') ->
  w_control_tx w' = Some (w_control w) /\ w_control w' = w_control w /\ w_clock w <= w_clock w' /\ w_tx_start w' = w_clock w'.
Proof.
  unfold auth_Begin. rewrite wrap_inr. unfold control_begin, pop_event.
  repeat case_match; intros; simplify_eq/=; repeat split; done || lia.
Qed.
Lemma ccommit_inr w w' :
  auth_Commit w = (inr tt, w') -> w_control_tx w = Some (w_control w') /\ w_control_tx w' = None /\ w_clock w <= w_clock w'.
Proof. unfold auth_Commit, control_commit, pop_event. repeat case_match; intros; simplify_eq/=; repeat split; done || lia. Qed.
(** A commit that fails published its working copy or nothing. *)
Lemma ccommit_run w r w' :
  auth_Commit w = (r, w') -> w_control w' = w_control w \/ w_control_tx w = Some (w_control w').
Proof. unfold auth_Commit, control_commit, pop_event. repeat case_match; intros; simplify_eq/=; eauto. Qed.

Lemma found_inr {A} (m : M (option A)) w a w' : found m w = (inr a, w') <-> m w = (inr (Some a), w').
Proof.
  unfold found. rewrite bind_inr. split.
  - intros ([e|x] & w1 & H & Hk); [by apply throw_inr in Hk|]. apply ret_inr in Hk as [-> ->].
    rewrite try_inr in H. by apply row_inr in H.
  - intros H. exists (inr a), w'. rewrite try_inr, row_inr. split; [done|by apply ret_inr].
Qed.
Lemma found_query {A} (g : control_db -> option A) w a w' :
  found (control_exec (query (fun _ db => g db))) w = (inr a, w') ->
  exists db, w_control_tx w = Some db /\ g db = Some a /\ w_control_tx w' = Some db /\ w_control w' = w_control w /\
    w_clock w <= w_clock w' /\ w_tx_start w' = w_tx_start w.
Proof.
  rewrite found_inr. intros (db & db' & env & Hdb & [= Ha ->] & _ & _ & Hc & Htx & Hcm & Hs)%cexec_inr. eauto 10.
Qed.
