(* ===== verification/AuthService.v ===== *)
(** * AuthService: login, refresh, logout, password change

    [internal/auth/service.go] and [internal/auth/jwt.go].  [sha256],
    [ed25519.Sign], [ed25519.NewKeyFromSeed], [argon2.IDKey] and the classes of
    [unicode] are parameters.  Access tokens are issued here; [AccessToken] holds
    their validation. *)

From stdpp Require Import pretty.
From S2P Require Import Prelude Json Stores Uuid World ShardTx AuthTypes Base64 Password ControlStore AuthStore.
Open Scope string_scope.
Open Scope list_scope.
Open Scope Z_scope.

Definition accessLifetime : Z := 15 * minute.
Definition dummyPasswordHash : string :=
  "$argon2id$v=19$m=19456,t=2,p=1$a5cSmLw26Ij1Grx1duyRbg$4TkbMQuIpUQA9uLWupb1Hz87cmt/Na1GIAD9hf97qWk".

(** [newUUID] of jwt.go. *)
Definition draw_uuid : M string := wrap "generate random UUID" (bs ← rand16; mret (auth_newUUID bs)).

(** Thirty-two random bytes. *)
Definition rand32 : M (list Z) := a ← rand16; b ← rand16; mret (a ++ b).
Definition newRefreshToken : M string :=
  bs ← rand32; mret (RawEncode URLAlphabet (of_bytes (List.map Z.to_N bs))).

Definition normalizeUsername (value : string) : string := to_lower (trim_space value).

(** ** Access tokens *)

Record Signer := MkSigner { sg_privateKey : string; sg_issuer : string; sg_audience : string }.

Record jwtClaims := MkJwtClaims {
  jc_Subject : string; jc_Username : string; jc_Role : string; jc_Status : string; jc_EntityID : string;
  jc_SessionID : string; jc_Issuer : string; jc_Audience : string; jc_IssuedAt : Z; jc_ExpiresAt : Z; jc_JWTID : string
}.

Definition jwtClaims_json (c : jwtClaims) : json :=
  JObj ([("sub", JStr (jc_Subject c)); ("username", JStr (jc_Username c)); ("role", JStr (jc_Role c));
         ("status", JStr (jc_Status c))]
        ++ (if jc_EntityID c == "" then [] else [("entity_id", JStr (jc_EntityID c))])
        ++ [("sid", JStr (jc_SessionID c)); ("iss", JStr (jc_Issuer c)); ("aud", JStr (jc_Audience c));
            ("iat", JNum (jc_IssuedAt c)); ("exp", JNum (jc_ExpiresAt c)); ("jti", JStr (jc_JWTID c))]).
Definition jwtHeader_json : json := JObj [("alg", JStr "EdDSA"); ("typ", JStr "JWT")].

(** [time.Time.Unix]. *)
Definition unix (t : Z) : Z := t / second.
(** [Format(time.RFC3339)]: whole seconds. *)
Definition rfc3339 (t : Z) : string := rfc3339nano (unix t * second).

Definition issue_claims (s : Signer) (user : UserRecord) (sessionID jwtID : string) (issued : Z) : jwtClaims :=
  MkJwtClaims (ur_ID user) (ur_Username user) (ur_Role user) (ur_Status user) (ur_EntityID user) sessionID
    (sg_issuer s) (sg_audience s) (unix issued) (unix (issued + accessLifetime)) jwtID.

Definition validRole (role : string) : bool :=
  (role == "issuer_operator") || (role == "issuer_readonly") || (role == "bank_operator") || (role == "bank_readonly").

Definition validClaims (claims : jwtClaims) (issuer audience : string) (now : Z) : bool :=
  if negb (validUUID (jc_Subject claims)) || (jc_Username claims == "") || negb (validUUID (jc_SessionID claims))
     || negb (validUUID (jc_JWTID claims)) || (jc_Issuer claims != issuer) || (jc_Audience claims != audience)
     || (jc_IssuedAt claims <=? 0) || (jc_ExpiresAt claims <=? jc_IssuedAt claims)
     || (jc_ExpiresAt claims <=? unix now) || (jc_Status claims != "enabled") || negb (validRole (jc_Role claims))
  then false
  else
    let bankRole := (jc_Role claims == "bank_operator") || (jc_Role claims == "bank_readonly") in
    Bool.eqb bankRole (jc_EntityID claims != "") && (negb bankRole || validUUID (jc_EntityID claims)).

Section Service.
Context (sha256 : string -> string) (ed25519_Sign : string -> string -> string) (NewKeyFromSeed : string -> string).
Context (IsUpper IsNumber IsPunct IsSymbol : N -> bool).
Context (IDKey : string -> string -> Z -> Z -> Z -> Z -> string).

Definition NewSigner (privateKey issuer audience : string) : result Signer :=
  if negb (String.length privateKey =? 64)%nat || (privateKey != NewKeyFromSeed (String.substring 0 32 privateKey))
     || (issuer == "") || (audience == "")
  then inl (ErrMsg "invalid JWT signing configuration")
  else inr (MkSigner privateKey issuer audience).

Definition Issue (s : Signer) (user : UserRecord) (sessionID : string) : M TokenResponse :=
  issued ← time_now;
  jwtID ← draw_uuid;
  let payload := json_encode (jwtClaims_json (issue_claims s user sessionID jwtID issued)) in
  let signingInput := RawEncode URLAlphabet (json_encode jwtHeader_json) +:+ "." +:+ RawEncode URLAlphabet payload in
  let signature := ed25519_Sign (sg_privateKey s) signingInput in
  mret (MkTokenResponse (signingInput +:+ "." +:+ RawEncode URLAlphabet signature) "Bearer"
          (rfc3339 (issued + accessLifetime)) (summary user)).

Definition tokenHash (token : string) : string := sha256 token.

(** ** Login *)

Definition reason (r : string) : option (list (string * string)) := Some [("reason", r)].
(** An event about an unknown subject, and one about a user. *)
Definition anonymous_event (kind outcome requestID why : string) : AuditEvent :=
  MkAuditEvent kind outcome "" "" "" "" requestID (reason why).
Definition user_event (kind outcome : string) (user : UserRecord) (sessionID requestID : string)
    (details : option (list (string * string))) : AuditEvent :=
  MkAuditEvent kind outcome (ur_ID user) (ur_ID user) (ur_EntityID user) sessionID requestID details.

(** The body of a refusal: an event, the commit and the error. *)
Definition refuse {A} (event : AuditEvent) (err : error) : M A := RecordAudit event ;; auth_Commit ;; throw err.

Definition login_unknown {A} (password requestID : string) : M A :=
  of_result (VerifyPassword IDKey dummyPasswordHash password) ;;
  refuse (anonymous_event "login" "failed" requestID "invalid_credentials") ErrInvalidCredentials.

Definition login_user (s : Signer) (user : UserRecord) (password requestID : string) : M (TokenResponse * string * Z) :=
  valid ← of_result (VerifyPassword IDKey (ur_PasswordHash user) password);
  if negb valid then
    refuse (user_event "login" "failed" user "" requestID (reason "invalid_credentials")) ErrInvalidCredentials
  else
    sessionID ← draw_uuid;
    rawToken ← newRefreshToken;
    expiresAt ← CreateSession sessionID (ur_ID user) (ur_AuthVersion user);
    refreshID ← draw_uuid;
    CreateRefreshToken refreshID sessionID (tokenHash rawToken) "" expiresAt ;;
    RecordAudit (user_event "login" "succeeded" user sessionID requestID None) ;;
    auth_Commit ;;
    response ← Issue s user sessionID;
    mret (response, rawToken, expiresAt).

Definition Login (s : Signer) (username password requestID : string) : M (TokenResponse * string * Z) :=
  auth_Begin ;;
  with_defer auth_Rollback (
    r ← try (UserByUsername (normalizeUsername username) true);
    match r with
    | inr user => if ur_Status user != "enabled" then login_unknown password requestID
                  else login_user s user password requestID
    | inl _ => login_unknown password requestID
    end).

(** ** Refresh *)

Definition recordUnknownRefresh (requestID : string) : M unit :=
  auth_Begin ;;
  with_defer auth_Rollback (
    RecordAudit (anonymous_event "refresh" "failed" requestID "invalid_refresh_token") ;;
    auth_Commit).

(** Whether the token may no longer be exchanged. *)
Definition refresh_refused (user : UserRecord) (session : SessionRecord) (token : RefreshTokenRecord) (now : Z) : bool :=
  rt_Consumed token || sr_Revoked session || (ur_Status user != "enabled")
  || negb (ur_AuthVersion user =? sr_AuthVersion session) || (sr_ExpiresAt session <=? now) || (rt_ExpiresAt token <=? now).

Definition refresh_refusal {A} (user : UserRecord) (session : SessionRecord) (token : RefreshTokenRecord) (now : Z)
    (requestID : string) : M A :=
  (if rt_Consumed token && negb (sr_Revoked session) then
     RevokeSession (sr_ID session) now "refresh_token_reuse" ;;
     RecordAudit (user_event "refresh_replay" "rejected" user (sr_ID session) requestID None)
   else
     RecordAudit (user_event "refresh" "failed" user (sr_ID session) requestID (reason "invalid_refresh_token"))) ;;
  auth_Commit ;;
  throw ErrInvalidRefresh.

Definition refresh_rotate (s : Signer) (user : UserRecord) (session : SessionRecord) (token : RefreshTokenRecord)
    (now : Z) (requestID : string) : M (TokenResponse * string * Z) :=
  newToken ← newRefreshToken;
  ConsumeRefreshToken (rt_ID token) now ;;
  TouchSession (sr_ID session) now ;;
  refreshID ← draw_uuid;
  CreateRefreshToken refreshID (sr_ID session) (tokenHash newToken) (rt_ID token) (sr_ExpiresAt session) ;;
  RecordAudit (user_event "refresh" "succeeded" user (sr_ID session) requestID None) ;;
  auth_Commit ;;
  response ← Issue s user (sr_ID session);
  mret (response, newToken, sr_ExpiresAt session).

Definition Refresh (s : Signer) (rawToken requestID : string) : M (TokenResponse * string * Z) :=
  r ← try (LookupRefresh (tokenHash rawToken));
  match r with
  | inl err =>
      if errors_is err ErrAuthNotFound then recordUnknownRefresh requestID ;; throw ErrInvalidRefresh else throw err
  | inr lookup =>
      auth_Begin ;;
      with_defer auth_Rollback (
        user ← UserByID (rl_UserID lookup) true;
        session ← Session (rl_SessionID lookup) true;
        token ← RefreshToken (rl_TokenID lookup) (rl_SessionID lookup) true;
        now ← time_now;
        if refresh_refused user session token now then refresh_refusal user session token now requestID
        else refresh_rotate s user session token now requestID)
  end.

(** ** Logout *)

Definition Logout (rawToken requestID : string) : M unit :=
  r ← try (LookupRefresh (tokenHash rawToken));
  match r with
  | inl err => if errors_is err ErrAuthNotFound then mret tt else throw err
  | inr lookup =>
      auth_Begin ;;
      with_defer auth_Rollback (
        user ← UserByID (rl_UserID lookup) true;
        session ← Session (rl_SessionID lookup) true;
        token ← RefreshToken (rl_TokenID lookup) (rl_SessionID lookup) true;
        when (negb (sr_Revoked session)) (
          now ← time_now;
          RevokeSession (sr_ID session) now "logout" ;;
          RecordAudit (user_event "logout" "succeeded" user (sr_ID session) requestID None)) ;;
        auth_Commit)
  end.

(** ** Password change *)

Definition change_password (user : UserRecord) (currentPassword newPassword requestID : string) : M unit :=
  if ur_Status user != "enabled" then
    refuse (user_event "password_change" "rejected" user "" requestID (reason "invalid_current_password"))
      ErrInvalidPassword
  else
    valid ← of_result (VerifyPassword IDKey (ur_PasswordHash user) currentPassword);
    if negb valid then
      refuse (user_event "password_change" "failed" user "" requestID (reason "invalid_current_password"))
        ErrInvalidPassword
    else
      hash ← HashPassword IDKey newPassword;
      UpdatePassword (ur_ID user) hash ;;
      RecordAudit (user_event "password_change" "succeeded" user "" requestID None) ;;
      auth_Commit.

Definition ChangePassword (claims : Claims) (currentPassword newPassword requestID : string) : M unit :=
  of_result (ValidateNewPassword IsUpper IsNumber IsPunct IsSymbol newPassword) ;;
  auth_Begin ;;
  with_defer auth_Rollback (
    r ← try (UserByID (claims_UserID claims) true);
    match r with
    | inl err =>
        if errors_is err ErrAuthNotFound then
          refuse (anonymous_event "password_change" "rejected" requestID "invalid_current_password") ErrInvalidPassword
        else throw err
    | inr user => change_password user currentPassword newPassword requestID
    end).
End Service.
