(* ===== verification/AuthSafety.v ===== *)
(** * AuthSafety: sessions and refresh tokens

    What a successful refresh, logout, login and password change did; that a
    refresh token buys at most one refresh and its reuse revokes the session;
    that a revoked session, or one opened before a change of its user's
    authorization, never refreshes again, in any sequence of requests under any
    faults; and how long an access token is valid. *)

From S2P Require Import Prelude Json Stores Uuid World ShardTx Guards AuthTypes Base64 Password ControlStore AuthStore ControlOrder AuthService Scenario.
From stdpp Require Import relations.
Open Scope string_scope.
Open Scope list_scope.
Open Scope Z_scope.

(** ** Rows by a unique column *)

Lemma find_row_some {A} (p : A -> bool) (t : gmap string A) i a :
  find_row p t = Some (i, a) -> t !! i = Some a /\ p a = true.
Proof.
  unfold find_row. intros H. apply head_Some_elem_of in H. apply list_elem_of_In, filter_In in H as [Hin Hp].
  split; [by apply rows_of_spec, list_elem_of_In|done].
Qed.
Lemma find_row_none {A} (p : A -> bool) (t : gmap string A) i a : find_row p t = None -> t !! i = Some a -> p a = false.
Proof.
  unfold find_row. intros H Ha. apply head_None in H. apply not_true_iff_false. intros Hp.
  assert (Hin : In (i, a) (List.filter (fun r => p r.2) (rows_of t))).
  { apply filter_In. split; [by apply list_elem_of_In, rows_of_spec|done]. }
  by rewrite H in Hin.
Qed.

(** ** Draws and statements *)

(** Nothing of the control database moves. *)
Definition same_control : relation world := fun w w' =>
  w_control w' = w_control w /\ w_control_tx w' = w_control_tx w /\ w_tx_start w' = w_tx_start w /\ w_clock w' = w_clock w.
#[export] Instance same_control_preorder : PreOrder same_control.
Proof. split; [by intros w|]. unfold same_control. intros a b c. intuition congruence. Qed.
Lemma same_rand16 : frames same_control rand16.
Proof. intros w r w'. unfold rand16. case_match; intros [= <- <-]; done. Qed.
#[export] Hint Resolve same_rand16 : frames.
Lemma same_draw_uuid : frames same_control draw_uuid.
Proof. unfold draw_uuid. frame_with ltac:(auto with frames). Qed.
Lemma same_newRefreshToken : frames same_control newRefreshToken.
Proof. unfold newRefreshToken, rand32. frame_with ltac:(auto with frames). Qed.
#[export] Hint Resolve same_draw_uuid same_newRefreshToken : frames.
Lemma same_Issue sign s u i : frames same_control (Issue sign s u i).
Proof. unfold Issue. cbv zeta. frame_with ltac:(auto with frames). Qed.
#[export] Hint Resolve same_Issue : frames.

Lemma draw_inr {A} (m : M A) w a w' : frames same_control m -> m w = (inr a, w') -> same_control w w'.
Proof. intros Hm. apply Hm. Qed.

(** An UPDATE of a row that is there. *)
Lemma exec_update_inr f w w' :
  exec_update f w = (inr tt, w') ->
  exists db db' n env, w_control_tx w = Some db /\ f env db = inr (n, db') /\ w_control_tx w' = Some db' /\
    w_control w' = w_control w /\ w_clock w <= w_clock w' /\ w_tx_start w' = w_tx_start w.
Proof.
  unfold exec_update. intros (n & w1 & H & [_ <-]%ret_inr)%bind_inr.
  apply cexec_inr in H as (db & db' & env & ? & ? & _ & _ & ? & ? & ? & ?). eauto 12.
Qed.
Lemma update_session_inr env id p set db old n db' :
  sessions db !! id = Some old -> p old = true -> update_session id p set env db = inr (n, db') ->
  db' = db <| sessions ::= <[id := set old]> |>.
Proof. unfold update_session. intros -> ->. repeat case_match; try done. by intros [= _ <-]. Qed.
Lemma update_token_inr env id p set db old n db' :
  tokens db !! id = Some old -> p old = true -> update_token id p set env db = inr (n, db') ->
  db' = db <| tokens ::= <[id := set old]> |>.
Proof. unfold update_token. intros -> ->. repeat case_match; try done. by intros [= _ <-]. Qed.
Lemma update_user_inr env id set db old n db' :
  users db !! id = Some old -> update_user id set env db = inr (n, db') ->
  exists new, guard_user (clock_timestamp env) old (set old) = Some new /\ db' = db <| users ::= <[id := new]> |>.
Proof. unfold update_user. intros ->. repeat case_match; try done. intros [= _ <-]. eauto. Qed.
Lemma guard_user_password clock old new hash by_ :
  guard_user clock old (old <| us_password_hash := hash |> <| us_updated_by := by_ |>) = Some new ->
  us_password_hash new = hash /\ (hash <> us_password_hash old -> us_auth_version old < us_auth_version new).
Proof.
  unfold guard_user. cbn. rewrite Z.ltb_irrefl. intros [= <-].
  case_bool_decide as Ha; cbn; (split; [done|]); [unfold authorization in Ha; cbn in Ha; congruence|lia].
Qed.
Lemma insert_token_inr env id mk db a db' :
  insert_token id mk env db = inr (a, db') ->
  tokens db !! id = None /\ db' = db <| tokens ::= <[id := mk env]> |>.
Proof.
  unfold insert_token. repeat case_match; try done. intros [= _ <-].
  match goal with H : insert_pk _ _ _ = inr _ |- _ => apply insert_pk_inr in H as [? ->] end. done.
Qed.
(** Statements and commits fail with an error of the database. *)
Lemma cexec_fault {A} (f : sql control_db A) w e w' : control_exec f w = (inl e, w') -> exists d, e = ErrDb d.
Proof. unfold control_exec, tx_aborted. repeat case_match; intros; simplify_eq; eauto. Qed.
Lemma exec_update_fault f w e w' : exec_update f w = (inl e, w') -> exists d, e = ErrDb d.
Proof. unfold exec_update. intros [(? & [= <-] & H)|(? & ? & _ & [=])]%bind_run. by apply cexec_fault in H. Qed.
Lemma RecordAudit_fault ev w e w' : RecordAudit ev w = (inl e, w') -> exists d, e = ErrDb d.
Proof. apply cexec_fault. Qed.
Lemma ccommit_fault w e w' : auth_Commit w = (inl e, w') -> exists d, e = ErrDb d.
Proof. unfold auth_Commit, control_commit, tx_aborted. repeat case_match; intros; simplify_eq; eauto. Qed.

Lemma RecordAudit_inr e w w' :
  RecordAudit e w = (inr tt, w') ->
  exists db env, w_control_tx w = Some db /\ w_control_tx w' = Some (db <| auth_audit ::= fun l => l ++ [auth_event_row e env] |>) /\
    w_control w' = w_control w /\ w_clock w <= w_clock w'.
Proof. intros (db & db' & env & Hdb & [= <-] & _ & _ & Hc & Htx & Hcm & _)%cexec_inr. eauto 10. Qed.

(** ** The system *)

Section Auth.
Context (sha256 : string -> string) (sign : string -> string -> string).
Context (IsUpper IsNumber IsPunct IsSymbol : N -> bool).
Context (IDKey : string -> string -> Z -> Z -> Z -> Z -> string).

Inductive auth_call :=
  | CallLogin (s : Signer) (username password requestID : string)
  | CallRefresh (s : Signer) (rawToken requestID : string)
  | CallLogout (rawToken requestID : string)
  | CallChangePassword (claims : Claims) (currentPassword newPassword requestID : string).

Definition run_auth (c : auth_call) (w : world) : world :=
  match c with
  | CallLogin s u p q => (Login sha256 sign IDKey s u p q w).2
  | CallRefresh s t q => (Refresh sha256 sign s t q w).2
  | CallLogout t q => (Logout sha256 t q w).2
  | CallChangePassword c p n q => (ChangePassword IsUpper IsNumber IsPunct IsSymbol IDKey c p n q w).2
  end.

(** A request, or anything that happens between requests without touching the
    control database. *)
Inductive auth_step : relation world :=
  | step_call c w : auth_step w (run_auth c w)
  | step_elsewhere w w' : w_control w' = w_control w -> w_control_tx w' = w_control_tx w -> auth_step w w'.

Ltac le_leaf := unfold refuse in *; auto 8 with frames.
Abbreviation LE := (control_moves control_le).
Lemma le_refuse {A} ev e : frames LE (refuse (A := A) ev e).
Proof. unfold refuse. frame_with ltac:(control_leaf). Qed.
Hint Resolve le_refuse : frames.
Lemma le_draw_uuid : frames LE draw_uuid.
Proof. unfold draw_uuid. frame_with ltac:(control_leaf). Qed.
Lemma le_newRefreshToken : frames LE newRefreshToken.
Proof. unfold newRefreshToken, rand32. frame_with ltac:(control_leaf). Qed.
Hint Resolve le_draw_uuid le_newRefreshToken : frames.
Lemma le_Issue s u i : frames LE (Issue sign s u i).
Proof. unfold Issue. cbv zeta. frame_with ltac:(control_leaf). Qed.
Hint Resolve le_Issue : frames.
Lemma le_Login s u p q : frames LE (Login sha256 sign IDKey s u p q).
Proof. unfold Login, login_unknown, login_user. frame_with ltac:(control_leaf). Qed.
Lemma le_Refresh s t q : frames LE (Refresh sha256 sign s t q).
Proof. unfold Refresh, recordUnknownRefresh, refresh_refusal, refresh_rotate. frame_with ltac:(control_leaf). Qed.
Lemma le_Logout t q : frames LE (Logout sha256 t q).
Proof. unfold Logout. frame_with ltac:(control_leaf). Qed.
Lemma le_ChangePassword c p n q : frames LE (ChangePassword IsUpper IsNumber IsPunct IsSymbol IDKey c p n q).
Proof. unfold ChangePassword, change_password, HashPassword. frame_with ltac:(control_leaf). Qed.
Hint Resolve le_Login le_Refresh le_Logout le_ChangePassword : frames.

Lemma step_le w w' : auth_step w w' -> LE w w'.
Proof.
  intros [c w0|w0 w1 Hc Ht]; [|intros H; rewrite Hc, Ht; by split].
  destruct c; cbn [run_auth];
    match goal with |- LE _ (?m w0).2 => destruct (m w0) as [r w1] eqn:E; cbn; refine ((_ : frames LE m) _ _ _ E); auto with frames end.
Qed.
Lemma steps_le w w' : rtc auth_step w w' -> LE w w'.
Proof. induction 1 as [|a b c H _ IH]; [reflexivity|]. etrans; [by apply step_le|done]. Qed.

(** ** Refresh *)

Lemma LookupRefresh_inr h w l w' :
  LookupRefresh h w = (inr l, w') ->
  lookup_refresh h (w_control w) = Some l /\ w_control w' = w_control w /\ w_control_tx w' = w_control_tx w /\
  w_clock w <= w_clock w'.
Proof.
  unfold LookupRefresh. intros ([err|l'] & w1 & Hr & H)%bind_inr; rewrite try_inr in Hr.
  { destruct (errors_is err ErrNoRows); by apply throw_inr in H. }
  apply ret_inr in H as [-> ->]. rewrite row_inr in Hr.
  apply control_read_run in Hr as (? & ? & ? & [[e He]|[env He]]); [done|]. injection He as He. done.
Qed.
Lemma lookup_refresh_some h db l :
  lookup_refresh h db = Some l ->
  exists t s, tokens db !! rl_TokenID l = Some t /\ to_token_hash t = h /\ to_session_id t = rl_SessionID l /\
    sessions db !! rl_SessionID l = Some s /\ se_user_id s = rl_UserID l.
Proof.
  unfold lookup_refresh. intros ([i t] & Hf & (s & Hs & [= <-])%bind_Some)%bind_Some.
  apply find_row_some in Hf as [Ht Hh]. apply String.eqb_eq in Hh. cbn in *. by exists t, s.
Qed.
Lemma lookup_refresh_unique h db i t s :
  unique_hashes (tokens db) -> tokens db !! i = Some t -> to_token_hash t = h -> sessions db !! to_session_id t = Some s ->
  lookup_refresh h db = Some (MkRefreshLookup i (to_session_id t) (se_user_id s)).
Proof.
  intros Hu Ht Hh Hs. unfold lookup_refresh. destruct (find_row _ _) as [[j t']|] eqn:E.
  - apply find_row_some in E as [Ht' Hh']. apply String.eqb_eq in Hh'.
    assert (j = i) as -> by (eapply Hu; [done|done|congruence]). simplify_eq/=. by rewrite Hs.
  - apply (find_row_none _ _ _ _ E) in Ht. apply String.eqb_neq in Ht. congruence.
Qed.

(** What the transaction of a refresh or a logout has read. *)
Definition fetched_rows (db : control_db) (l : RefreshLookup) user session token : Prop :=
  exists u s t, users db !! rl_UserID l = Some u /\ user = scanUser (rl_UserID l) u /\
    sessions db !! rl_SessionID l = Some s /\ session = session_record (rl_SessionID l) s /\
    tokens db !! rl_TokenID l = Some t /\ token = token_record (rl_TokenID l) t /\ to_session_id t = rl_SessionID l.

(** The errors of a read. *)
Definition read_error (e : error) : Prop := e = ErrAuthNotFound \/ exists d, e = ErrDb d.
Lemma found_run {A} (g : control_db -> option A) w r w' :
  found (control_exec (query (fun _ db => g db))) w = (r, w') -> (exists e, r = inl e /\ read_error e) \/ exists a, r = inr a.
Proof.
  unfold found. intros [(e & -> & H)|(x & w1 & H & Hk)]%bind_run.
  { unfold try in H. by destruct (row _ w). }
  rewrite try_inr in H. destruct x as [e|a]; [|injection Hk as <- _; eauto].
  injection Hk as <- _. left. eexists. split; [done|]. unfold row in H.
  apply bind_run in H as [(e' & [= <-] & H)|([a|] & w2 & _ & Hk)]; [..|by injection Hk as <- _; left].
  - unfold control_exec, tx_aborted in H. unfold read_error, mapNotFound, errors_is.
    assert (Hd : exists d, e = ErrDb d) by (repeat case_match; simplify_eq; eauto).
    destruct Hd as [d ->]. rewrite bool_decide_eq_false_2; eauto.
  - done.
Qed.

Lemma fetched_rows_run {A} l (k : UserRecord -> SessionRecord -> RefreshTokenRecord -> M A) w r w' db :
  w_control_tx w = Some db ->
  (user ← UserByID (rl_UserID l) true; session ← Session (rl_SessionID l) true;
   token ← RefreshToken (rl_TokenID l) (rl_SessionID l) true; k user session token) w = (r, w') ->
  (exists e, r = inl e /\ read_error e) \/
  exists user session token w1, fetched_rows db l user session token /\ k user session token w1 = (r, w') /\
    w_control_tx w1 = Some db /\ w_control w1 = w_control w /\ w_clock w <= w_clock w1 /\ w_tx_start w1 = w_tx_start w.
Proof.
  intros Hdb [(e & -> & Hu)|(user & w1 & Hu & H)]%bind_run.
  { left. apply found_run in Hu as [(? & [= <-] & ?)|[? [=]]]. eauto. }
  apply bind_run in H as [(e & -> & Hs)|(session & w2 & Hs & H)].
  { left. apply (found_run (fun db => session_record (rl_SessionID l) <$> sessions db !! rl_SessionID l)) in Hs
      as [(? & [= <-] & ?)|[? [=]]]. eauto. }
  apply bind_run in H as [(e & -> & Ht)|(token & w3 & Ht & H)].
  { left. apply (found_run (fun db => t ← tokens db !! rl_TokenID l;
      if to_session_id t == rl_SessionID l then Some (token_record (rl_TokenID l) t) else None)) in Ht
      as [(? & [= <-] & ?)|[? [=]]]. eauto. }
  right. apply found_query in Hu as (d1 & E1 & Hu & T1 & C1 & K1 & S1).
  apply (found_query (fun db => session_record (rl_SessionID l) <$> sessions db !! rl_SessionID l)) in Hs
    as (d2 & E2 & Hs & T2 & C2 & K2 & S2).
  apply (found_query (fun db => t ← tokens db !! rl_TokenID l;
    if to_session_id t == rl_SessionID l then Some (token_record (rl_TokenID l) t) else None)) in Ht
    as (d3 & E3 & Ht & T3 & C3 & K3 & S3).
  rewrite Hdb in E1. injection E1 as <-. rewrite T1 in E2. injection E2 as <-. rewrite T2 in E3. injection E3 as <-.
  apply fmap_Some in Hu as (u & Hu & ->), Hs as (se & Hs & ->). apply bind_Some in Ht as (t & Ht & Hif).
  destruct (_ == _) eqn:Es; [|done]. apply String.eqb_eq in Es. injection Hif as <-.
  do 4 eexists. split; [by exists u, se, t|]. split; [exact H|]. split_and!; [done|congruence|lia|congruence].
Qed.

(** A refresh of the token [i] of the session [sid] at the instant [at_]: the
    old token is consumed, its successor takes its place in the family and ends
    with the session, and nothing else changes but the log. *)
Record refreshed (raw : string) (db db' : control_db) (at_ : Z) (newToken : string) (expires : Z)
    (i : string) (t : token_row) (s : session_row) (u : user_row) : Prop := Refreshed {
  re_token : tokens db !! i = Some t /\ to_token_hash t = sha256 raw /\ to_consumed_at t = None /\ at_ < to_expires_at t;
  re_session : sessions db !! to_session_id t = Some s /\ se_revoked_at s = None /\ at_ < se_expires_at s /\ expires = se_expires_at s;
  re_user : users db !! se_user_id s = Some u /\ us_status u = "enabled" /\ us_auth_version u = se_auth_version s;
  re_tokens : exists j issued, j <> i /\ tokens db !! j = None /\ issued <= at_ /\ tokens db' =
    <[j := TokenRow (to_session_id t) (sha256 newToken) (nullable i) issued expires None]>
      (<[i := t <| to_consumed_at := Some at_ |>]> (tokens db));
  re_sessions : sessions db' = <[to_session_id t := s <| se_last_refreshed_at := at_ |>]> (sessions db);
  re_users : users db' = users db;
  re_log : exists a, auth_audit db' = auth_audit db ++ [a] /\ aa_event_type a = "refresh" /\ aa_outcome a = "succeeded"
}.

Lemma refresh_rotate_inr s user session token at_ q db w resp newToken expires w' :
  w_control_tx w = Some db -> w_tx_start w <= at_ ->
  refresh_rotate sha256 sign s user session token at_ q w = (inr (resp, newToken, expires), w') ->
  forall t se, tokens db !! rt_ID token = Some t -> to_consumed_at t = None ->
  sessions db !! sr_ID session = Some se -> se_revoked_at se = None ->
  expires = sr_ExpiresAt session /\ tr_User resp = summary user /\ w_clock w <= w_clock w' /\
  (exists j issued, j <> rt_ID token /\ tokens db !! j = None /\ issued <= at_ /\ tokens (w_control w') =
    <[j := TokenRow (sr_ID session) (sha256 newToken) (nullable (rt_ID token)) issued expires None]>
      (<[rt_ID token := t <| to_consumed_at := Some at_ |>]> (tokens db))) /\
  sessions (w_control w') = <[sr_ID session := se <| se_last_refreshed_at := at_ |>]> (sessions db) /\
  users (w_control w') = users db /\
  (exists a, auth_audit (w_control w') = auth_audit db ++ [a] /\ aa_event_type a = "refresh" /\ aa_outcome a = "succeeded").
Proof.
  intros Hdb Hat H t se Ht Hc Hs Hr. unfold refresh_rotate in H.
  apply bind_inr in H as (new & w1 & H1 & H). apply same_newRefreshToken in H1 as (C1 & T1 & S1 & K1).
  apply bind_inr in H as ([] & w2 & H2 & H).
  apply exec_update_inr in H2 as (d1 & d1' & n1 & e1 & X1 & U1 & T2 & C2 & K2 & S2).
  rewrite T1, Hdb in X1. injection X1 as <-.
  apply (update_token_inr _ _ _ _ _ t) in U1 as ->; [|done|by unfold unconsumed; rewrite Hc].
  apply bind_inr in H as ([] & w3 & H3 & H).
  apply exec_update_inr in H3 as (d2 & d2' & n2 & e2 & X2 & U2 & T3 & C3 & K3 & S3).
  rewrite T2 in X2. injection X2 as <-.
  apply (update_session_inr _ _ _ _ _ se) in U2 as ->; [|done|done].
  apply bind_inr in H as (j & w4 & H4 & H). apply same_draw_uuid in H4 as (C4 & T4 & S4 & K4).
  apply bind_inr in H as ([] & w5 & H5 & H).
  assert (Hins : control_exec (insert_token j (new_token (sr_ID session) (sha256 new) (nullable (rt_ID token)) (sr_ExpiresAt session))) w4
                 = (inr tt, w5)).
  { unfold CreateRefreshToken, nullable in *. destruct (_ == _) eqn:E.
    - apply String.eqb_eq in E. by rewrite bool_decide_eq_true_2.
    - apply String.eqb_neq in E. by rewrite bool_decide_eq_false_2. }
  clear H5. apply cexec_inr in Hins as (d3 & d3' & e3 & X3 & U3 & N3 & _ & K5 & T5 & C5 & S5).
  rewrite T4, T3 in X3. injection X3 as <-. apply insert_token_inr in U3 as [Hj ->].
  apply bind_inr in H as ([] & w6 & H6 & H). apply RecordAudit_inr in H6 as (d4 & e4 & X4 & T6 & C6 & K6).
  rewrite T5 in X4. injection X4 as <-.
  apply bind_inr in H as ([] & w7 & H7 & H). apply ccommit_inr in H7 as (T7 & _ & K7). rewrite T6 in T7. injection T7 as T7.
  apply bind_inr in H as (resp' & w8 & H8 & H). pose proof H8 as H8'. apply same_Issue in H8 as (C8 & _ & _ & K8).
  apply ret_inr in H as [[= -> -> <-] <-]. rewrite C8, <- T7. cbn.
  unfold Issue in H8'. apply bind_inr in H8' as (? & ? & _ & (? & ? & _ & [<- _]%ret_inr)%bind_inr). cbn.
  cbn in Hj. apply lookup_insert_None in Hj as [Hj Hne].
  repeat (split; [first [done | lia]|]). split; [|eauto 8].
  exists j, (now e3). split; [congruence|]. split; [done|]. split; [|done]. lia.
Qed.

Lemma Refresh_inr s raw q w resp newToken expires w' :
  Refresh sha256 sign s raw q w = (inr (resp, newToken, expires), w') ->
  w_control_tx w' = None /\ exists at_ i t se u, w_clock w <= at_ <= w_clock w' /\
    refreshed raw (w_control w) (w_control w') at_ newToken expires i t se u /\
    tr_User resp = MkUserSummary (us_normalized_username u) "enabled" (us_role u).
Proof.
  unfold Refresh. intros (r & w1 & Hl & H)%bind_inr. rewrite try_inr in Hl. destruct r as [err|l].
  { destruct (errors_is _ _); [|by apply throw_inr in H]. by apply bind_inr in H as (? & ? & _ & ?%throw_inr). }
  apply LookupRefresh_inr in Hl as (Hl & C1 & T1 & K1). apply lookup_refresh_some in Hl as (t & se & Ht & Hh & Hsid & Hse & Huid).
  apply bind_inr in H as ([] & w2 & Hb & H). apply cbegin_inr in Hb as (T2 & C2 & K2 & S2).
  rewrite C1 in T2. apply defer_inr in H as (w3 & H & ->). cbn. split; [done|].
  apply (fetched_rows_run l _ _ _ _ _ T2) in H as [(? & [=] & _)|(user & session & token & w4 & Hrows & H & T4 & C4 & K4 & S4)].
  destruct Hrows as (u & se' & t' & Hu & -> & Hse' & -> & Ht' & -> & Hsid'). simplify_eq/=.
  apply bind_inr in H as (at_ & w5 & [-> ->]%time_inr & H).
  destruct (refresh_refused _ _ _ _) eqn:Hok.
  { unfold refresh_refusal in H. apply bind_inr in H as (? & ? & _ & (? & ? & _ & ?%throw_inr)%bind_inr). done. }
  unfold refresh_refused in Hok. rewrite !orb_false_iff in Hok. cbn in Hok.
  destruct Hok as [[[[[O1 O2] O3] O4] O5] O6]. apply negb_false_iff in O1, O2, O3, O4.
  apply bool_decide_eq_true in O1, O2. apply String.eqb_eq in O3. apply Z.eqb_eq in O4. apply Z.leb_gt in O5, O6.
  assert (Hstart : w_tx_start w4 <= w_clock w4) by lia.
  destruct (refresh_rotate_inr _ _ _ _ _ _ _ _ _ _ _ _ T4 Hstart H t se Ht O1 Hse O2)
    as (Hexp & Hsum & K6 & Htok & Hses & Husr & Hlog). cbn in *.
  exists (w_clock w4), (rl_TokenID l), t, se, u. split; [lia|]. split; [|by rewrite Hsum, <- O3].
  split; rewrite ?Hsid', ?Huid; eauto 10.
Qed.

(** A session that can no longer be refreshed: revoked, or opened before a
    change of its user's authorization. *)
Definition ended (db : control_db) (sid : string) : Prop :=
  exists s, sessions db !! sid = Some s /\
    (is_Some (se_revoked_at s) \/ exists u, users db !! se_user_id s = Some u /\ se_auth_version s < us_auth_version u).

Lemma ended_le db db' sid : control_le db db' -> ended db sid -> ended db' sid.
Proof.
  intros Hle (s & Hs & He). destruct (cl_sessions _ _ Hle _ _ Hs) as (s' & Hs' & Hid & Hrev).
  exists s'. split; [done|]. injection Hid as Hu Hv _ _. destruct He as [Hr|(u & Hu' & Hlt)].
  - left. destruct (Hrev Hr) as [-> _]. done.
  - right. destruct (cl_users _ _ Hle _ _ Hu') as (u' & Hu'' & Hv' & _). exists u'. split; [congruence|lia].
Qed.
Lemma refreshed_alive raw db db' at_ n e i t s u : refreshed raw db db' at_ n e i t s u -> ~ ended db (to_session_id t).
Proof.
  intros [_ (Hs & Hr & _) (Hu & _ & Hv) _ _ _ _] (s' & Hs' & He). simplify_eq.
  destruct He as [[? ?]|(u' & Hu' & Hlt)]; [congruence|]. simplify_eq. lia.
Qed.
Lemma token_kept db db' i t : control_le db db' -> tokens db !! i = Some t ->
  exists t', tokens db' !! i = Some t' /\ to_token_hash t' = to_token_hash t /\ to_session_id t' = to_session_id t /\
    (is_Some (to_consumed_at t) -> to_consumed_at t' = to_consumed_at t).
Proof.
  intros Hle Ht. destruct (cl_tokens _ _ Hle _ _ Ht) as (t' & Ht' & Hid & Hc). injection Hid as ? ? _ _ _. eauto 8.
Qed.

(** A refresh that answers a token exchanged an unconsumed token of an
    unrevoked session, before the end of both, for an enabled user whose
    authorization has not changed since the session was opened; it consumed the
    token, stored the hash of the new one as its only successor, with the end of
    the session unchanged, and told the user's own summary. *)
Theorem refresh_effect s raw q w resp newToken expires w' :
  Refresh sha256 sign s raw q w = (inr (resp, newToken, expires), w') ->
  w_control_tx w' = None /\ exists at_ i t se u, w_clock w <= at_ <= w_clock w' /\
    refreshed raw (w_control w) (w_control w') at_ newToken expires i t se u /\
    tr_User resp = MkUserSummary (us_normalized_username u) "enabled" (us_role u).
Proof. apply Refresh_inr. Qed.

(** After a refresh with a token, whatever moves the database along its order,
    the token is not exchanged again. *)
Lemma exchanged_once s raw q w x w1 w2 s' q' r w3 :
  w_control_tx w = None -> unique_hashes (tokens (w_control w)) ->
  Refresh sha256 sign s raw q w = (inr x, w1) -> LE w1 w2 ->
  Refresh sha256 sign s' raw q' w2 = (r, w3) -> exists e, r = inl e.
Proof.
  intros Htx Hu H1 Hsteps H2. destruct x as [[resp new] exp], r as [e|[[resp' new'] exp']]; [by exists e|exfalso].
  pose proof (le_Refresh _ _ _ _ _ _ H1 ltac:(by rewrite Htx)) as [L1 _].
  apply Refresh_inr in H1 as (Htx1 & at_ & i & t & se & u & _ & Hre & _).
  destruct (Hsteps ltac:(by rewrite Htx1)) as [L2 _].
  apply Refresh_inr in H2 as (_ & at2 & i2 & t2 & se2 & u2 & _ & Hre2 & _).
  destruct Hre as [(Ht & Hh & _) _ _ (j & iss & Hj & _ & _ & Htok) _ _ _].
  destruct Hre2 as [(Ht2 & Hh2 & Hc2 & _) _ _ _ _ _ _].
  assert (Ht1 : tokens (w_control w1) !! i = Some (t <| to_consumed_at := Some at_ |>)).
  { rewrite Htok, lookup_insert_ne, lookup_insert_eq; done. }
  destruct (token_kept _ _ _ _ L2 Ht1) as (t' & Ht' & Hh' & _ & Hc'). cbn in *.
  assert (i2 = i) as -> by (eapply (cl_unique _ _ L2 (cl_unique _ _ L1 Hu)); [done|done|congruence]).
  simplify_eq. rewrite Hc2 in Hc'. by specialize (Hc' ltac:(eauto)).
Qed.

(** A refresh token is exchanged at most once: after a refresh with it, no
    request in any later sequence of requests, under any faults, exchanges it
    again. *)
Theorem refresh_single_use s raw q w x w1 w2 s' q' r w3 :
  w_control_tx w = None -> unique_hashes (tokens (w_control w)) ->
  Refresh sha256 sign s raw q w = (inr x, w1) -> rtc auth_step w1 w2 ->
  Refresh sha256 sign s' raw q' w2 = (r, w3) -> exists e, r = inl e.
Proof. intros Htx Hu H1 Hsteps H2. eapply exchanged_once; [done|done|exact H1|by apply steps_le|exact H2]. Qed.

(** Once a session is revoked, or the authorization of its user has changed
    since it was opened, none of its tokens is ever exchanged again, in any
    sequence of requests under any faults. *)
Theorem ended_session_never_refreshes sid w w' i t s raw q r w'' :
  w_control_tx w = None -> unique_hashes (tokens (w_control w)) -> ended (w_control w) sid ->
  rtc auth_step w w' -> tokens (w_control w') !! i = Some t -> to_session_id t = sid -> to_token_hash t = sha256 raw ->
  Refresh sha256 sign s raw q w' = (r, w'') -> exists e, r = inl e.
Proof.
  intros Htx Hu He Hsteps Ht Hsid Hh H. destruct r as [e|[[resp new] exp]]; [by exists e|exfalso].
  destruct (steps_le _ _ Hsteps ltac:(by rewrite Htx)) as [L _]. apply (ended_le _ _ _ L) in He.
  apply Refresh_inr in H as (_ & at_ & i' & t' & se & u & _ & Hre & _).
  pose proof (refreshed_alive _ _ _ _ _ _ _ _ _ _ Hre) as Halive. destruct Hre as [(Ht' & Hh' & _) _ _ _ _ _ _].
  assert (i' = i) as -> by (eapply (cl_unique _ _ L Hu); [done|done|congruence]). simplify_eq. done.
Qed.

(** ** Reuse and logout *)

Lemma lookup_run h w r w' l :
  lookup_refresh h (w_control w) = Some l -> LookupRefresh h w = (r, w') ->
  w_control w' = w_control w /\ (r = inr l \/ exists e, r = inl (ErrWrap "lookup refresh token" (ErrDb e))).
Proof.
  intros Hl H. unfold LookupRefresh, try, row, mbind, M_bind in H.
  destruct (control_read _ w) as [x w1] eqn:E. apply control_read_run in E as (Hc & _ & _ & [[e ->]|[env ->]]).
  - cbn in H. injection H as <- <-. eauto.
  - rewrite Hl in H. cbn in H. injection H as <- <-. eauto.
Qed.

(** A session revoked in the working copy. *)
Lemma revoke_inr sid at_ why w w' db s :
  w_control_tx w = Some db -> sessions db !! sid = Some s -> se_revoked_at s = None ->
  RevokeSession sid at_ why w = (inr tt, w') ->
  w_control_tx w' = Some (db <| sessions ::= <[sid := s <| se_revoked_at := Some at_ |> <| se_revocation_reason := Some why |>]> |>).
Proof.
  intros Hdb Hs Hr H. apply exec_update_inr in H as (d & d' & n & env & X & U & T & _).
  rewrite Hdb in X. injection X as <-. rewrite T.
  apply (update_session_inr _ _ _ _ _ s) in U as ->; [done|done|by unfold unrevoked; rewrite Hr].
Qed.

(** C23: presenting a consumed token never yields a new one; unless the request
    fails on a fault of the database, it is refused and the whole session is
    revoked. *)
Theorem refresh_reuse_revokes s raw q w r w' i t se :
  w_control_tx w = None -> unique_hashes (tokens (w_control w)) ->
  tokens (w_control w) !! i = Some t -> to_token_hash t = sha256 raw -> is_Some (to_consumed_at t) ->
  sessions (w_control w) !! to_session_id t = Some se ->
  Refresh sha256 sign s raw q w = (r, w') ->
  exists e, r = inl e /\ (e = ErrInvalidRefresh -> ended (w_control w') (to_session_id t)).
Proof.
  intros Htx Hu Ht Hh Hc Hs H. pose proof H as Hrun. pose proof (lookup_refresh_unique _ _ _ _ _ Hu Ht Hh Hs) as Hl.
  destruct r as [e|[[resp new] exp]]; [exists e; split; [done|]|].
  2: { apply Refresh_inr in H as (_ & at_ & i' & t' & se' & u & _ & [(Ht' & Hh' & Hc' & _) _ _ _ _ _ _] & _).
       assert (i' = i) as -> by (eapply Hu; [done|done|congruence]). simplify_eq. rewrite Hc' in Hc. by destruct Hc. }
  intros ->. unfold Refresh in H. apply bind_run in H as [(e & [= <-] & H)|(rl & w1 & Hlk & H)].
  { unfold try in H. by destruct (LookupRefresh _ w). }
  rewrite try_inr in Hlk. destruct (lookup_run _ _ _ _ _ Hl Hlk) as [C1 [->|[e ->]]]; [|done].
  apply bind_run in H as [(e & [= <-] & H)|([] & w2 & Hb & H)].
  { unfold auth_Begin, wrap, control_begin, pop_event in H. by repeat case_match. }
  apply cbegin_inr in Hb as (T2 & _). rewrite C1 in T2. unfold with_defer in H.
  match type of H with context [let (_, _) := ?b in _] => destruct b as [r' w3] eqn:E end. injection H as -> <-. cbn.
  apply (fetched_rows_run _ _ _ _ _ _ T2) in E as [(e & [= <-] & [[=]|[? [=]]])|(user & session & token & w4 & Hrows & E & T4 & _)].
  destruct Hrows as (u & se' & t' & Hu' & -> & Hse' & -> & Ht' & -> & Hsid'). cbn in *. simplify_eq.
  rewrite (bind_eq _ _ _ (w_clock w4) w4) in E by done. unfold refresh_refused in E. cbn in E.
  rewrite (bool_decide_eq_false_2 (to_consumed_at t = None)) in E by (by destruct Hc as [? ->]). cbn [negb orb] in E.
  destruct (decide (se_revoked_at se = None)) as [Hr|Hr].
  2: { apply (ended_le (w_control w)).
       - destruct (le_Refresh s raw q w _ _ Hrun) as [L _]; [by rewrite Htx|exact L].
       - exists se. split; [done|]. left. by destruct (se_revoked_at se). }
  unfold refresh_refusal in E. cbn in E.
  rewrite (bool_decide_eq_false_2 (to_consumed_at t = None)), (bool_decide_eq_true_2 (se_revoked_at se = None)) in E
    by (done || by destruct Hc as [? ->]). cbn in E.
  apply bind_run in E as [(e & [= <-] & E)|([] & w5 & E5 & E)].
  { apply bind_run in E as [(e & [= <-] & E)|([] & w5 & _ & E)]; [by apply exec_update_fault in E as [? [=]]|by apply RecordAudit_fault in E as [? [=]]]. }
  apply bind_inr in E5 as ([] & w6 & E6 & E7). apply (revoke_inr _ _ _ _ _ _ _ T4 Hs Hr) in E6.
  apply RecordAudit_inr in E7 as (d7 & env7 & X7 & T7 & _). rewrite E6 in X7. injection X7 as <-.
  apply bind_run in E as [(e & [= <-] & E)|([] & w8 & E8 & [= <-])]; [by apply ccommit_fault in E as [? [=]]|].
  apply ccommit_inr in E8 as (T8 & _). rewrite T7 in T8. injection T8 as <-.
  eexists. cbn. rewrite lookup_insert_eq. split; [done|]. left. cbn. eauto.
Qed.

(** A logout that answers success has revoked the session of the token it
    was given: none of the session's tokens is exchanged any more. *)
Theorem logout_ends_session raw q w w' i t se :
  unique_hashes (tokens (w_control w)) ->
  tokens (w_control w) !! i = Some t -> to_token_hash t = sha256 raw -> sessions (w_control w) !! to_session_id t = Some se ->
  Logout sha256 raw q w = (inr tt, w') ->
  ended (w_control w') (to_session_id t) /\ tokens (w_control w') = tokens (w_control w).
Proof.
  intros Hu Ht Hh Hs H. pose proof (lookup_refresh_unique _ _ _ _ _ Hu Ht Hh Hs) as Hl. unfold Logout in H.
  apply bind_inr in H as (rl & w1 & Hlk & H). rewrite try_inr in Hlk.
  destruct (lookup_run _ _ _ _ _ Hl Hlk) as [C1 [->|[e ->]]].
  2: { cbn in H. by apply throw_inr in H. }
  apply bind_inr in H as ([] & w2 & Hb & H). apply cbegin_inr in Hb as (T2 & _). rewrite C1 in T2.
  apply defer_inr in H as (w3 & H & ->). cbn.
  apply (fetched_rows_run _ _ _ _ _ _ T2) in H as [(? & [=] & _)|(user & session & token & w4 & Hrows & H & T4 & _)].
  destruct Hrows as (u & se' & t' & Hu' & -> & Hse' & -> & Ht' & -> & Hsid'). cbn in *. simplify_eq.
  apply bind_inr in H as ([] & w5 & H5 & H). apply ccommit_inr in H as (T5 & _).
  destruct (decide (se_revoked_at se = None)) as [Hr|Hr].
  - rewrite (bool_decide_eq_true_2 _ Hr) in H5. cbn in H5. apply bind_inr in H5 as (at_ & w6 & [-> ->]%time_inr & H5).
    apply bind_inr in H5 as ([] & w7 & H7 & H5). apply (revoke_inr _ _ _ _ _ _ _ T4 Hs Hr) in H7.
    apply RecordAudit_inr in H5 as (d & env & X & T8 & _). rewrite H7 in X. injection X as <-.
    rewrite T5 in T8. injection T8 as ->. cbn. split; [|done]. eexists. cbn. rewrite lookup_insert_eq. split; [done|]. left. cbn. eauto.
  - rewrite (bool_decide_eq_false_2 _ Hr) in H5. cbn in H5. injection H5 as <-. rewrite T4 in T5. injection T5 as <-.
    split; [|done]. exists se. split; [done|]. left. by destruct (se_revoked_at se).
Qed.

(** ** Password change *)

(** A password change that answers success checked the current password of
    an enabled user and the policy on the new one, stored a hash of the new
    password under a fresh salt, and ended every session of the user (a collision
    of the two hashes apart). *)
Theorem password_change_effect claims current new q w w' :
  ChangePassword IsUpper IsNumber IsPunct IsSymbol IDKey claims current new q w = (inr tt, w') ->
  exists u salt hash, users (w_control w) !! claims_UserID claims = Some u /\ us_status u = "enabled" /\
    VerifyPassword IDKey (us_password_hash u) current = inr true /\
    ValidateNewPassword IsUpper IsNumber IsPunct IsSymbol new = inr tt /\
    hash = hash_with IDKey salt new /\
    us_password_hash <$> users (w_control w') !! claims_UserID claims = Some hash /\
    (forall id, id <> claims_UserID claims -> users (w_control w') !! id = users (w_control w) !! id) /\
    (hash <> us_password_hash u -> forall sid s, sessions (w_control w) !! sid = Some s ->
      se_user_id s = claims_UserID claims -> se_auth_version s <= us_auth_version u -> ended (w_control w') sid).
Proof.
  unfold ChangePassword. intros ([] & w1 & Hp & H)%bind_inr. injection Hp as Hp <-.
  apply bind_inr in H as ([] & w2 & Hb & H). apply cbegin_inr in Hb as (T2 & _).
  apply defer_inr in H as (w3 & H & ->). cbn. apply bind_inr in H as (r & w4 & Hr & H). rewrite try_inr in Hr.
  destruct r as [err|user].
  { destruct (errors_is _ _); [|by apply throw_inr in H]. unfold refuse in H.
    by apply bind_inr in H as (? & ? & _ & (? & ? & _ & ?%throw_inr)%bind_inr). }
  apply found_query in Hr as (db & X & Hu & T4 & _). rewrite T2 in X. injection X as <-.
  apply fmap_Some in Hu as (u & Hu & ->). unfold change_password in H. cbn in H.
  destruct (us_status u == "enabled") eqn:Hst; cbn in H.
  2: { unfold refuse in H. by apply bind_inr in H as (? & ? & _ & (? & ? & _ & ?%throw_inr)%bind_inr). }
  apply String.eqb_eq in Hst. apply bind_inr in H as (valid & w5 & Hv & H). injection Hv as Hv <-.
  destruct valid; cbn in H.
  2: { unfold refuse in H. by apply bind_inr in H as (? & ? & _ & (? & ? & _ & ?%throw_inr)%bind_inr). }
  apply bind_inr in H as (hash & w6 & Hh & H). unfold HashPassword in Hh. destruct (_ <? _)%nat; [done|].
  apply bind_inr in Hh as (bs & w7 & Hrand & [<- <-]%ret_inr). apply same_rand16 in Hrand as (_ & T7 & _).
  apply bind_inr in H as ([] & w8 & H8 & H). apply exec_update_inr in H8 as (d & d' & n & env & X & U & T8 & _).
  rewrite T7, T4 in X. injection X as <-.
  apply bind_inr in H as ([] & w9 & H9 & H). apply RecordAudit_inr in H9 as (d9 & e9 & X & T9 & _).
  rewrite T8 in X. injection X as <-. apply ccommit_inr in H as (T & _). rewrite T9 in T. injection T as T. rewrite <- T. cbn.
  exists u, (of_bytes (List.map Z.to_N bs)), (hash_with IDKey (of_bytes (List.map Z.to_N bs)) new).
  apply (update_user_inr _ _ _ _ u) in U as (u' & G & ->); [|done]. apply guard_user_password in G as [Gh Gv].
  cbn. rewrite lookup_insert_eq. cbn. rewrite Gh. do 6 (split; [done|]). split.
  - intros id Hid. by rewrite lookup_insert_ne.
  - intros Hne sid s Hs Hsu Hsv. exists s. split; [done|]. right. exists u'. rewrite Hsu. cbn. rewrite lookup_insert_eq.
    split; [done|]. specialize (Gv Hne). lia.
Qed.

(** ** Login *)

(** Who may log in with the password. *)
Definition may_login (db : control_db) (username password : string) (id : string) (u : user_row) : Prop :=
  users db !! id = Some u /\ us_normalized_username u = normalizeUsername username /\ us_status u = "enabled" /\
  VerifyPassword IDKey (us_password_hash u) password = inr true.

Lemma user_by_name_some name db user :
  user_by_name name db = Some user ->
  exists u, users db !! ur_ID user = Some u /\ user = scanUser (ur_ID user) u /\ us_normalized_username u = name.
Proof.
  unfold user_by_name. intros ([i u] & Hf & ->)%fmap_Some. apply find_row_some in Hf as [Hu Hn].
  apply String.eqb_eq in Hn. cbn in *. eauto.
Qed.

(** A session with its first token, and nothing else but the log. *)
Record logged_in (db db' : control_db) (id : string) (u : user_row) (raw : string) (expires : Z) (sid tid : string) : Prop := LoggedIn {
  li_session : exists opened, expires = opened + 7 * day /\ sessions db !! sid = None /\
    sessions db' = <[sid := SessionRow id (us_auth_version u) opened expires opened None None]> (sessions db) /\
    tokens db !! tid = None /\
    tokens db' = <[tid := TokenRow sid (sha256 raw) None opened expires None]> (tokens db);
  li_users : users db' = users db;
  li_log : exists a, auth_audit db' = auth_audit db ++ [a] /\ aa_event_type a = "login" /\ aa_outcome a = "succeeded"
}.

Lemma insert_session_inr env id user version db o db' :
  insert_session id user version env db = inr (o, db') ->
  o = Some (now env + 7 * day) /\ sessions db !! id = None /\
  db' = db <| sessions ::= <[id := SessionRow user version (now env) (now env + 7 * day) (now env) None None]> |>.
Proof.
  unfold insert_session. repeat case_match; try done. intros [= <- <-].
  match goal with H : insert_pk _ _ _ = inr _ |- _ => apply insert_pk_inr in H as [? ->] end. done.
Qed.

Lemma login_user_inr s user password q db w resp raw expires w' id u :
  w_control_tx w = Some db -> user = scanUser id u ->
  login_user sha256 sign IDKey s user password q w = (inr (resp, raw, expires), w') ->
  VerifyPassword IDKey (us_password_hash u) password = inr true /\ tr_User resp = summary user /\
  exists sid tid, logged_in db (w_control w') id u raw expires sid tid.
Proof.
  intros Hdb -> H. unfold login_user in H. apply bind_inr in H as (valid & w1 & Hv & H). injection Hv as Hv <-.
  destruct valid; cbn [negb] in H.
  2: { unfold refuse in H. by apply bind_inr in H as (? & ? & _ & (? & ? & _ & ?%throw_inr)%bind_inr). }
  split; [done|]. apply bind_inr in H as (sid & w2 & H2 & H). apply same_draw_uuid in H2 as (C2 & T2 & S2 & K2).
  apply bind_inr in H as (raw' & w3 & H3 & H). apply same_newRefreshToken in H3 as (C3 & T3 & S3 & K3).
  apply bind_inr in H as (exp & w4 & H4 & H). apply row_inr in H4.
  apply cexec_inr in H4 as (d & d' & env & X & U & N & _ & _ & T4 & C4 & S4). rewrite T3, T2, Hdb in X. injection X as <-.
  apply insert_session_inr in U as ([= ->] & Hnew & ->).
  apply bind_inr in H as (tid & w5 & H5 & H). apply same_draw_uuid in H5 as (C5 & T5 & S5 & K5).
  apply bind_inr in H as ([] & w6 & H6 & H). cbn in H6.
  apply cexec_inr in H6 as (d2 & d2' & env2 & X & U & N2 & _ & _ & T6 & C6 & S6). rewrite T5, T4 in X. injection X as <-.
  apply insert_token_inr in U as [Htid ->]. apply bind_inr in H as ([] & w7 & H7 & H).
  apply RecordAudit_inr in H7 as (d3 & env3 & X & T7 & _). rewrite T6 in X. injection X as <-.
  apply bind_inr in H as ([] & w8 & H8 & H). apply ccommit_inr in H8 as (T8 & _). rewrite T7 in T8. injection T8 as T8.
  apply bind_inr in H as (resp' & w9 & H9 & H). pose proof H9 as H9'. apply same_Issue in H9 as (C9 & _).
  apply ret_inr in H as [[= -> -> <-] <-]. unfold Issue in H9'.
  apply bind_inr in H9' as (? & ? & _ & (? & ? & _ & [<- _]%ret_inr)%bind_inr). split; [done|].
  exists sid, tid. rewrite C9, <- T8. cbn in *. split; cbn; [|done|eauto 8].
  exists (now env). repeat (split; [done|]). unfold new_token, tokenHash.
  replace (now env2) with (now env) by congruence. done.
Qed.

Lemma login_succeeds s username password q w resp raw expires w' :
  Login sha256 sign IDKey s username password q w = (inr (resp, raw, expires), w') ->
  exists id u sid tid, may_login (w_control w) username password id u /\
    logged_in (w_control w) (w_control w') id u raw expires sid tid /\
    tr_User resp = MkUserSummary (us_normalized_username u) "enabled" (us_role u).
Proof.
  unfold Login. intros ([] & w1 & Hb & H)%bind_inr. apply cbegin_inr in Hb as (T1 & _).
  apply defer_inr in H as (w2 & H & ->). cbn. apply bind_inr in H as (r & w3 & Hr & H). rewrite try_inr in Hr.
  destruct r as [err|user].
  { unfold login_unknown, refuse in H. by apply bind_inr in H as (? & ? & _ & (? & ? & _ & (? & ? & _ & ?%throw_inr)%bind_inr)%bind_inr). }
  apply (found_query (user_by_name _)) in Hr as (db & X & Hu & T3 & _). rewrite T1 in X. injection X as <-.
  apply user_by_name_some in Hu as (u & Hu & Huser & Hn).
  destruct (ur_Status user == "enabled") eqn:Hst; cbn [negb] in H.
  2: { unfold login_unknown, refuse in H. by apply bind_inr in H as (? & ? & _ & (? & ? & _ & (? & ? & _ & ?%throw_inr)%bind_inr)%bind_inr). }
  apply String.eqb_eq in Hst. rewrite Huser in Hst. cbn in Hst.
  destruct (login_user_inr _ _ _ _ _ _ _ _ _ _ _ _ T3 Huser H) as (Hv & Hsum & sid & tid & Hli).
  exists (ur_ID user), u, sid, tid. repeat (split; [done|]). rewrite Hsum, Huser. unfold summary. cbn. by rewrite Hst.
Qed.

(** A login that answers tokens checked the password of an enabled user of
    that name, and opened one session of seven days with one token whose hash is
    stored. *)
Theorem login_effect s username password q w resp raw expires w' :
  Login sha256 sign IDKey s username password q w = (inr (resp, raw, expires), w') ->
  exists id u sid tid, may_login (w_control w) username password id u /\
    logged_in (w_control w) (w_control w') id u raw expires sid tid /\
    tr_User resp = MkUserSummary (us_normalized_username u) "enabled" (us_role u).
Proof. apply login_succeeds. Qed.

(** Only the log may change. *)
Definition only_log (db db' : control_db) : Prop :=
  users db' = users db /\ sessions db' = sessions db /\ tokens db' = tokens db.
#[local] Instance only_log_preorder : PreOrder only_log.
Proof. split; [by intros db|]. unfold only_log. intros a b c. intuition congruence. Qed.
Lemma only_log_query {A} (g : sql_env -> control_db -> A) : mono only_log (query g).
Proof. intros env db a db' [= <- <-]. done. Qed.
Lemma only_log_audit mk : mono only_log (insert_auth_audit mk).
Proof. intros env db a db' [= _ <-]. done. Qed.
Hint Resolve only_log_query only_log_audit : frames.
Lemma only_log_refuse {A} ev e : frames (control_moves only_log) (refuse (A := A) ev e).
Proof. unfold refuse, RecordAudit. frame_with ltac:(control_leaf). Qed.
Hint Resolve only_log_refuse : frames.

(** A name or a password that admits no enabled user opens no session and
    changes nothing but the log, whatever faults occur. *)
Theorem login_denied s username password q w r w' :
  w_control_tx w = None -> (forall id u, ~ may_login (w_control w) username password id u) ->
  Login sha256 sign IDKey s username password q w = (r, w') ->
  (exists e, r = inl e) /\ only_log (w_control w) (w_control w').
Proof.
  intros Htx Hno H.
  assert (Hframe : frames (control_moves only_log) auth_Begin) by (unfold auth_Begin; frame_with ltac:(control_leaf)).
  assert (Hread : forall n, frames (control_moves only_log) (UserByUsername n true))
    by (intros n; unfold UserByUsername, found; frame_with ltac:(control_leaf)).
  assert (Hunknown : frames (control_moves only_log) (login_unknown (A := TokenResponse * string * Z) IDKey password q))
    by (unfold login_unknown; frame_with ltac:(control_leaf)).
  unfold Login in H. apply bind_run in H as [(e & -> & Hb)|([] & w1 & Hb & H)].
  { split; [by eexists|]. apply Hframe in Hb. destruct Hb as [L _]; [by rewrite Htx|exact L]. }
  pose proof (Hframe _ _ _ Hb ltac:(by rewrite Htx)) as [L1 P1]. apply cbegin_inr in Hb as (T1 & _).
  unfold with_defer in H. match type of H with context [let (_, _) := ?b in _] => destruct b as [r' w2] eqn:E end.
  injection H as -> <-. cbn. apply bind_run in E as [(e & _ & E)|(x & w3 & Hr & E)].
  { unfold try in E. by destruct (UserByUsername _ _ w1). }
  rewrite try_inr in Hr. pose proof (Hread _ _ _ _ Hr P1) as [L3 P3].
  assert (Hend : forall (m : M (TokenResponse * string * Z)), frames (control_moves only_log) m ->
    (forall a w4, m w3 <> (inr a, w4)) -> m w3 = (r, w2) -> (exists e, r = inl e) /\ only_log (w_control w) (w_control w2)).
  { intros m Hm Hne Hrun. split; [destruct r; [eauto|by apply Hne in Hrun]|].
    destruct (Hm _ _ _ Hrun P3) as [L4 _]. by etrans; [etrans|]. }
  assert (Hnever : forall ev er a w4 w5, refuse (A := TokenResponse * string * Z) ev er w4 <> (inr a, w5)).
  { intros ev er a w4 w5 Hc. unfold refuse in Hc. by apply bind_inr in Hc as (? & ? & _ & (? & ? & _ & ?%throw_inr)%bind_inr). }
  assert (Hnever' : forall a w4, login_unknown (A := TokenResponse * string * Z) IDKey password q w3 <> (inr a, w4)).
  { intros a w4 Hc. unfold login_unknown in Hc. apply bind_inr in Hc as (? & ? & _ & Hc). by apply Hnever in Hc. }
  destruct x as [err|user]; [by apply (Hend _ Hunknown Hnever' E)|].
  apply (found_query (user_by_name _)) in Hr as (db & X & Hu & T3 & _). rewrite T1 in X. injection X as <-.
  apply user_by_name_some in Hu as (u & Hu & Huser & Hn).
  destruct (ur_Status user == "enabled") eqn:Hst; cbn [negb] in E; [|by apply (Hend _ Hunknown Hnever' E)].
  apply String.eqb_eq in Hst. rewrite Huser in Hst. cbn in Hst.
  unfold login_user in E. apply bind_run in E as [(e & -> & E)|(valid & w4 & Hv & E)].
  { split; [by eexists|]. injection E as _ <-. by etrans. }
  injection Hv as Hv <-. destruct valid; cbn [negb] in E.
  { exfalso. apply (Hno (ur_ID user) u). rewrite Huser in Hv. done. }
  refine (Hend _ (only_log_refuse _ _) (fun a w5 => Hnever _ _ a w3 w5) E).
Qed.
End Auth.

(** ** Access tokens *)

(** The claims of an access token issued to an enabled user are accepted by
    its issuer and audience exactly while fewer than 900 seconds have passed
    since the second it was issued in. *)
Theorem issued_claims_lifetime s user sid chunk issued at_ :
  validUUID (ur_ID user) = true -> validUUID sid = true -> random_bytes chunk -> ur_Username user <> "" ->
  ur_Status user = "enabled" -> validRole (ur_Role user) = true ->
  bank_role (ur_Role user) = (ur_EntityID user != "") ->
  (bank_role (ur_Role user) = true -> validUUID (ur_EntityID user) = true) ->
  0 < unix issued ->
  validClaims (issue_claims s user sid (auth_newUUID chunk) issued) (sg_issuer s) (sg_audience s) at_ =
  (unix at_ <? unix issued + 900).
Proof.
  intros Hid Hsid [Hlen _] Hname Hst Hrole Hbank Hent Hpos.
  assert (Hjti : validUUID (auth_newUUID chunk) = true)
    by (apply formatUUID_valid; by rewrite set_version_length).
  assert (Hexp : unix (issued + accessLifetime) = unix issued + 900).
  { unfold unix, accessLifetime, minute, second. by rewrite <- (Z.div_add issued 900) by lia. }
  unfold validClaims, issue_claims. cbn. rewrite Hid, Hsid, Hjti, Hexp, Hst, Hrole, !String.eqb_refl.
  apply String.eqb_neq in Hname. rewrite Hname. fold (bank_role (ur_Role user)). rewrite Hbank.
  replace (unix issued <=? 0) with false by lia. replace (unix issued + 900 <=? unix issued) with false by lia. cbn.
  destruct (unix issued + 900 <=? unix at_) eqn:E; cbn; [lia|].
  rewrite eqb_reflx. cbn. destruct (ur_EntityID user == "") eqn:Ee; cbn; [lia|].
  rewrite Hbank in Hent. rewrite Hent by done. lia.
Qed.

(** ** Witnesses *)

Definition toy_sha (s : string) : string := "sha256:" +:+ s.
Definition toy_sign (key msg : string) : string := key.
Definition toy_class (lo hi : N) (r : N) : bool := (lo <=? r)%N && (r <=? hi)%N.
Definition toy_id : string := "00000000-0000-4000-8000-000000000001".
Definition toy_user : user_row :=
  UserRow "alice" (hash_with toy_key "0123456789abcdef" "Secret") "issuer_operator" None "enabled" 1 1 1 None None.
Definition auth_world (chunks : list Z) : world :=
  (toy_world empty_shard (100 * day)) <| w_control := empty_control <| users := {[ toy_id := toy_user ]} |> |>
    <| w_entropy := List.map toy_bytes chunks |>.
Definition toy_signer : Signer := MkSigner "key" "issuer" "audience".
Definition toy_raw : string := RawEncode URLAlphabet (of_bytes (List.map Z.to_N (toy_bytes 20 ++ toy_bytes 40))).

(** Alice logs in and holds [toy_raw]; then she refreshes it. *)
Abbreviation login_run := (Login toy_sha toy_sign toy_key toy_signer " Alice " "Secret" "request" (auth_world [1; 20; 40; 60; 80; 100; 120; 140; 160])).
Abbreviation refresh_run := (Refresh toy_sha toy_sign toy_signer toy_raw "request" login_run.2).
Abbreviation replay_run := (Refresh toy_sha toy_sign toy_signer toy_raw "request" refresh_run.2).
Abbreviation logout_run := (Logout toy_sha toy_raw "request" login_run.2).
Abbreviation toy_change := (ChangePassword (toy_class 65 90) (toy_class 48 57) (toy_class 33 33) (toy_class 33 33) toy_key).
Abbreviation change_run := (toy_change (MkClaims (MkUserSummary "alice" "enabled" "issuer_operator") toy_id "" "")
  "Secret" "Correct-horse-battery!9" "request" login_run.2).

Definition answers {A} (x : result A * world) : bool := match x.1 with inr _ => true | inl _ => false end.
Lemma answers_run {A} (x : result A * world) : answers x = true -> exists a, x = (inr a, x.2).
Proof. destruct x as [[e|a] w]; [done|]. eauto. Qed.

Example login_answers : answers login_run = true.
Proof. by vm_compute. Qed.
Example refresh_answers : answers refresh_run = true.
Proof. by vm_compute. Qed.
Example replay_refused : replay_run.1 = inl ErrInvalidRefresh.
Proof. by vm_compute. Qed.
Example logout_answers : logout_run.1 = inr tt.
Proof. by vm_compute. Qed.
Example change_answers : change_run.1 = inr tt.
Proof. by vm_compute. Qed.


Lemma run_pair {A} (x : result A * world) : x = (x.1, x.2).
Proof. by destruct x. Qed.

(** Hashes are unique after the login, and after the refresh. *)
Lemma toy_unique : unique_hashes (tokens (w_control login_run.2)).
Proof.
  destruct (le_Login toy_sha toy_sign toy_key _ _ _ _ _ _ _ (run_pair login_run)) as [L _]; [done|].
  apply (cl_unique _ _ L). intros i j a b Hi. cbn in Hi. by rewrite lookup_empty in Hi.
Qed.
Lemma toy_unique_refreshed : unique_hashes (tokens (w_control refresh_run.2)).
Proof.
  destruct (le_Refresh toy_sha toy_sign _ _ _ _ _ _ (run_pair refresh_run)) as [L _]; [by vm_compute|].
  apply (cl_unique _ _ L). apply toy_unique.
Qed.

(** The rows of the token that was presented, found by its hash. *)
Definition presented (w : world) : option (string * token_row * session_row) :=
  '(i, t) ← find_row (fun t => to_token_hash t == toy_sha toy_raw) (tokens (w_control w));
  s ← sessions (w_control w) !! to_session_id t; Some (i, t, s).
Lemma presented_rows w i t s : presented w = Some (i, t, s) ->
  tokens (w_control w) !! i = Some t /\ to_token_hash t = toy_sha toy_raw /\ sessions (w_control w) !! to_session_id t = Some s.
Proof.
  unfold presented. intros ([j t'] & Hf & (s' & Hs & [= <- <- <-])%bind_Some)%bind_Some.
  apply find_row_some in Hf as [Ht Hh]. apply String.eqb_eq in Hh. done.
Qed.
Definition consumed (w : world) : option bool :=
  (fun p => negb (bool_decide (to_consumed_at p.1.2 = None))) <$> presented w.
Lemma presented_some w b : consumed w = Some b -> exists i t s, presented w = Some (i, t, s) /\
  b = negb (bool_decide (to_consumed_at t = None)).
Proof. unfold consumed. intros ([[i t] s] & H & ->)%fmap_Some. eauto. Qed.

Lemma refresh_effect_witness : exists at_ i t se u resp new exp, answers refresh_run = true /\
  refreshed toy_sha toy_raw (w_control login_run.2) (w_control refresh_run.2) at_ new exp i t se u /\
  tr_User resp = MkUserSummary (us_normalized_username u) "enabled" (us_role u).
Proof.
  destruct (answers_run _ refresh_answers) as [[[resp new] exp] H].
  destruct (refresh_effect _ _ _ _ _ _ _ _ _ _ H) as (_ & at_ & i & t & se & u & _ & Hre & Hsum).
  exists at_, i, t, se, u, resp, new, exp. split; [exact refresh_answers|]. split; [exact Hre|exact Hsum].
Defined.

Lemma refresh_single_use_witness : answers refresh_run = true /\ exists e, replay_run.1 = inl e.
Proof.
  split; [exact refresh_answers|]. destruct (answers_run _ refresh_answers) as [x H].
  assert (Htx : w_control_tx login_run.2 = None) by by vm_compute.
  exact (refresh_single_use toy_sha toy_sign (toy_class 65 90) (toy_class 48 57) (toy_class 33 33) (toy_class 33 33) toy_key
    toy_signer toy_raw "request" login_run.2 x refresh_run.2 refresh_run.2 toy_signer "request" replay_run.1 replay_run.2
    Htx toy_unique H (rtc_refl _ _) (run_pair replay_run)).
Defined.

Lemma refresh_reuse_revokes_witness :
  exists i t se, presented refresh_run.2 = Some (i, t, se) /\ ended (w_control replay_run.2) (to_session_id t).
Proof.
  destruct (presented_some refresh_run.2 true) as (i & t & se & Hp & Hc); [by vm_compute|].
  destruct (presented_rows _ _ _ _ Hp) as (Ht & Hh & Hs). exists i, t, se. split; [exact Hp|].
  assert (Htx : w_control_tx refresh_run.2 = None) by by vm_compute.
  assert (Hused : is_Some (to_consumed_at t)) by (clear - Hc; destruct (to_consumed_at t); [by eexists|done]).
  destruct (refresh_reuse_revokes toy_sha toy_sign toy_signer toy_raw "request" refresh_run.2 replay_run.1 replay_run.2
    i t se Htx toy_unique_refreshed Ht Hh Hused Hs (run_pair replay_run)) as (e & He & Hend).
  apply Hend. rewrite replay_refused in He. by injection He.
Defined.

Lemma logout_ends_session_witness :
  exists i t se, presented login_run.2 = Some (i, t, se) /\ ended (w_control logout_run.2) (to_session_id t).
Proof.
  destruct (presented_some login_run.2 false) as (i & t & se & Hp & Hc); [by vm_compute|].
  destruct (presented_rows _ _ _ _ Hp) as (Ht & Hh & Hs). exists i, t, se. split; [exact Hp|].
  pose proof (logout_ends_session toy_sha toy_raw "request" login_run.2 logout_run.2 i t se toy_unique Ht Hh Hs) as H.
  destruct (H (run_result logout_run (inr tt) logout_answers)) as [He _]. exact He.
Defined.

(** After the logout the same token is refused. *)
Lemma ended_session_never_refreshes_witness :
  exists e, (Refresh toy_sha toy_sign toy_signer toy_raw "request" logout_run.2).1 = inl e.
Proof.
  destruct (presented_some logout_run.2 false) as (i & t & se & Hp & Hc); [by vm_compute|].
  destruct (presented_rows _ _ _ _ Hp) as (Ht & Hh & Hs).
  assert (Hu : unique_hashes (tokens (w_control logout_run.2))).
  { destruct (le_Logout toy_sha _ _ _ _ _ (run_pair logout_run)) as [L _]; [by vm_compute|].
    apply (cl_unique _ _ L). apply toy_unique. }
  assert (Hr : is_Some (se_revoked_at se)).
  { assert (Hb : match presented logout_run.2 with Some p => bool_decide (is_Some (se_revoked_at p.2)) | None => false end = true)
      by by vm_compute. rewrite Hp in Hb. by apply bool_decide_eq_true in Hb. }
  assert (Htx : w_control_tx logout_run.2 = None) by by vm_compute.
  assert (Hend : ended (w_control logout_run.2) (to_session_id t)) by (exists se; split; [exact Hs|left; exact Hr]).
  exact (ended_session_never_refreshes toy_sha toy_sign (toy_class 65 90) (toy_class 48 57) (toy_class 33 33) (toy_class 33 33) toy_key
    (to_session_id t) logout_run.2 logout_run.2 i t toy_signer toy_raw "request" _ _ Htx Hu Hend (rtc_refl _ _) Ht eq_refl Hh (run_pair _)).
Defined.

Lemma password_change_effect_witness :
  answers change_run = true /\ exists u salt, users (w_control login_run.2) !! toy_id = Some u /\
    us_password_hash <$> users (w_control change_run.2) !! toy_id = Some (hash_with toy_key salt "Correct-horse-battery!9").
Proof.
  split; [by vm_compute|].
  destruct (password_change_effect _ _ _ _ _ _ _ _ _ _ _ (run_result change_run (inr tt) change_answers))
    as (u & salt & hash & Hu & _ & _ & _ & -> & Hh & _).
  exists u, salt. split; [exact Hu|exact Hh].
Defined.

Lemma login_effect_witness : exists id u sid tid raw exp, answers login_run = true /\
  logged_in toy_sha (w_control (auth_world [1; 20; 40; 60; 80; 100; 120; 140; 160])) (w_control login_run.2) id u raw exp sid tid.
Proof.
  destruct (answers_run _ login_answers) as [[[resp raw] exp] H].
  destruct (login_effect _ _ _ _ _ _ _ _ _ _ _ _ H) as (id & u & sid & tid & _ & Hli & _).
  exists id, u, sid, tid, raw, exp. split; [exact login_answers|exact Hli].
Defined.

Lemma login_denied_witness :
  let w := auth_world [1; 20; 40; 60; 80] in
  only_log (w_control w) (w_control (Login toy_sha toy_sign toy_key toy_signer "alice" "secret" "request" w).2).
Proof.
  intros w. refine (proj2 (login_denied toy_sha toy_sign toy_key toy_signer "alice" "secret" "request" w _ _ _ _ (run_pair _)));
    [reflexivity|].
  intros id u (Hu & _ & _ & Hv). cbn in Hu. apply lookup_singleton_Some in Hu as [_ <-]. by vm_compute in Hv.
Defined.

Lemma issued_claims_lifetime_witness :
  let user := scanUser toy_id toy_user in
  validClaims (issue_claims toy_signer user toy_id (auth_newUUID (toy_bytes 1)) (100 * day)) (sg_issuer toy_signer)
    (sg_audience toy_signer) (100 * day + 14 * minute) = true.
Proof.
  intros user. rewrite (issued_claims_lifetime toy_signer user toy_id (toy_bytes 1) (100 * day) (100 * day + 14 * minute)).
  all: try done; try by vm_compute. split; [done|]. repeat constructor; by vm_compute.
Defined.
