(* ===== verification/ExecutorService.v ===== *)
(** * ExecutorService: the loop and the workers of an executor

    [internal/executor/service.go] and [batchBackoff] of [config.go].  The loop
    and each worker goroutine is a [prog]: a sequence of actions on the store,
    the directory, the clock, the mutex-protected slots and the counters.
    [sys_step] interleaves the loop of [Run], without bound on its ticks, any
    number of workers, the ticker, the timer, the context and the rest of the
    world; [run_alone] runs one thread by itself. *)

From stdpp Require Import pretty.
From S2P Require Import Prelude Json Domain Stores World ShardTx ExecutorStore ControlStore.
Open Scope string_scope.
Open Scope list_scope.
Open Scope Z_scope.

(** ** Configuration *)

Record Config := MkConfig {
  cf_Identity : string;
  cf_OperationalAddress : string;
  cf_ControlURL : string;
  cf_ShardURL : string;
  cf_ShardID : string;
  cf_PollInterval : Z;
  cf_MaxClaims : Z;
  cf_PerBankConcurrency : Z;
  cf_LeaseDuration : Z;
  cf_BatchMaxAttempts : Z;
  cf_BatchInitialBackoff : Z;
  cf_BatchMaximumBackoff : Z;
  cf_BatchSizeCap : Z;
  cf_ExpiryInitialBackoff : Z;
  cf_DrainTimeout : Z;
}.

(** The loop of [batchBackoff], on int64 durations; [/] truncates. *)
Fixpoint backoff_loop (n : nat) (maximum value : Z) : Z :=
  match n with
  | O => value
  | S n' => if Z.quot maximum 2 <=? value then maximum else backoff_loop n' maximum (wrap64 (value * 2))
  end.
Definition batchBackoff (initial maximum attempt : Z) : Z :=
  if attempt <=? 1 then initial else backoff_loop (Z.to_nat (attempt - 1)) maximum initial.

(** ** Errors *)

Definition Canceled : error := ErrMsg "context canceled".

(** [errors.As] finds the database error at the end of the chain. *)
Definition IsTransient (err : error) : bool :=
  match error_cause err with
  | ErrDb (PgError code) =>
      if (code == "40001") || (code == "40P01") || (code == "55P03") || (code == "57P01") then true
      else (2 <=? String.length code)%nat && (String.substring 0 2 code == "08")
  | ErrDb (NetError timeout temporary) => timeout || temporary
  | _ => false
  end.

(** ** Actions *)

(** The ports [Store] and [Directory] of ports.go. *)
Inductive exec_op : Set -> Type :=
  | OpClaimBatch (c : Claim) : exec_op (option Batch)
  | OpRecoverBatches (c : Claim) : exec_op Z
  | OpApplyBatch (b : Batch) (owner : string) : exec_op unit
  | OpRequeueBatch (b : Batch) (owner code : string) (delay : Z) : exec_op unit
  | OpFailBatch (b : Batch) (owner code : string) : exec_op unit
  | OpEnsureExpiryRun (bank : string) (today : Z) (owner : string) : exec_op unit
  | OpRecoverExpiryItems (c : Claim) : exec_op Z
  | OpClaimExpiryItem (c : Claim) : exec_op (option ExpiryItem)
  | OpApplyExpiryItem (i : ExpiryItem) (owner : string) : exec_op unit
  | OpRequeueExpiryItem (i : ExpiryItem) (owner : string) (delay : Z) : exec_op unit
  | OpFailExpiryItem (i : ExpiryItem) (owner : string) : exec_op unit
  | OpUser (id : string) : exec_op DirectoryUser
  | OpBanks : exec_op (list Route).

Definition run_op {X : Set} (op : exec_op X) : M X :=
  match op with
  | OpClaimBatch c => ClaimBatch c
  | OpRecoverBatches c => RecoverBatches c
  | OpApplyBatch b o => ApplyBatch b o
  | OpRequeueBatch b o c d => RequeueBatch b o c d
  | OpFailBatch b o c => FailBatch b o c
  | OpEnsureExpiryRun b t o => EnsureExpiryRun b t o
  | OpRecoverExpiryItems c => RecoverExpiryItems c
  | OpClaimExpiryItem c => ClaimExpiryItem c
  | OpApplyExpiryItem i o => ApplyExpiryItem i o
  | OpRequeueExpiryItem i o d => RequeueExpiryItem i o d
  | OpFailExpiryItem i o => FailExpiryItem i o
  | OpUser id => User id
  | OpBanks => Banks
  end.

Inductive task := TaskBatch (b : Batch) | TaskExpiry (i : ExpiryItem).
Definition task_bank (t : task) : string :=
  match t with TaskBatch b => Batch_BankID b | TaskExpiry i => ExpiryItem_BankID i end.

Inductive counter := Claims_ | Retries | Recoveries | Succeeded | Failed | LoopOK.

Inductive action : Set -> Type :=
  | AStore {X : Set} (op : exec_op X) : action (error + X)%type
  | ANow : action Z
  | AReserve (bank : string) : action bool
  | ARelease (bank : string) : action unit
  | ARotate (banks : list string) : action (list string)
  | ACount (c : counter) (n : Z) : action unit
  | ASpawn (t : task) : action unit.

Inductive prog (A : Type) : Type :=
  | Ret (a : A)
  | Act {X : Set} (a : action X) (k : X -> prog A).
#[global] Arguments Ret {A} _.
#[global] Arguments Act {A X} _ _.

Fixpoint prog_bind {A B} (p : prog A) (f : A -> prog B) : prog B :=
  match p with Ret a => f a | Act a k => Act a (fun x => prog_bind (k x) f) end.
#[export] Instance prog_mret : MRet prog := fun A a => Ret a.
#[export] Instance prog_mbind : MBind prog := fun A B f p => prog_bind p f.
Definition act {X : Set} (a : action X) : prog X := Act a Ret.
Definition call {X : Set} (op : exec_op X) : prog (result X) := act (AStore op).

(** ** The service *)

Record metrics := Metrics_ {
  mt_claims : Z; mt_retries : Z; mt_recoveries : Z; mt_succeeded : Z; mt_failed : Z; mt_loopOK : Z
}.
#[export] Instance metrics_eta : Settable metrics :=
  fun m => Metrics_ (mt_claims m) (mt_retries m) (mt_recoveries m) (mt_succeeded m) (mt_failed m) (mt_loopOK m).

(** The mutable fields of [Service], and the world. *)
Record service := Service_ {
  sv_rotation : Z; sv_byBank : gmap string Z; sv_inFlight : Z; sv_metrics : metrics; sv_world : world
}.
#[export] Instance service_eta : Settable service :=
  fun s => Service_ (sv_rotation s) (sv_byBank s) (sv_inFlight s) (sv_metrics s) (sv_world s).

Definition New (w : world) : service := Service_ 0 ∅ 0 (Metrics_ 0 0 0 0 0 0) w.

Record Snapshot := MkSnapshot {
  sn_Claims : Z; sn_Retries : Z; sn_Recoveries : Z; sn_Succeeded : Z; sn_Failed : Z; sn_Loops : Z; sn_InFlight : Z
}.
Definition Metrics (s : service) : Snapshot :=
  let m := sv_metrics s in
  MkSnapshot (mt_claims m) (mt_retries m) (mt_recoveries m) (mt_succeeded m) (mt_failed m) (mt_loopOK m) (sv_inFlight s).

(** A missing key of a Go map is zero. *)
Definition by_bank (s : service) (bank : string) : Z := default 0 (sv_byBank s !! bank).

(** [atomic.Int64.Add]. *)
Definition add64 (n x : Z) : Z := wrap64 (x + n).
Definition count (c : counter) (n : Z) (m : metrics) : metrics :=
  match c with
  | Claims_ => m <| mt_claims ::= add64 n |>
  | Retries => m <| mt_retries ::= add64 n |>
  | Recoveries => m <| mt_recoveries ::= add64 n |>
  | Succeeded => m <| mt_succeeded ::= add64 n |>
  | Failed => m <| mt_failed ::= add64 n |>
  | LoopOK => m <| mt_loopOK ::= add64 n |>
  end.

Section Executor.
Context (config : Config).

(** The slots, under the mutex. *)
Definition reserve (bank : string) (s : service) : bool * service :=
  if (cf_MaxClaims config <=? sv_inFlight s) || (cf_PerBankConcurrency config <=? by_bank s bank) then (false, s)
  else (true, s <| sv_inFlight ::= Z.add 1 |> <| sv_byBank ::= <[bank := by_bank s bank + 1]> |>).
Definition release (bank : string) (s : service) : service :=
  s <| sv_inFlight ::= fun n => n - 1 |> <| sv_byBank ::= <[bank := by_bank s bank - 1]> |>.

Definition rotate (banks : list string) (s : service) : list string * service :=
  let n := Z.of_nat (length banks) in
  if n <? 2 then (banks, s)
  else
    let start := Z.rem (sv_rotation s) n in
    (drop (Z.to_nat start) banks ++ take (Z.to_nat start) banks, s <| sv_rotation := Z.rem (sv_rotation s + 1) n |>).

(** What an action answers, leaves and starts. *)
Definition do_action {X : Set} (a : action X) (s : service) : X * service * list task :=
  match a in action X return X * service * list task with
  | AStore op => let (r, w) := run_op op (sv_world s) in (r, s <| sv_world := w |>, [])
  | ANow => (w_clock (sv_world s), s, [])
  | AReserve bank => (reserve bank s, [])
  | ARelease bank => (tt, release bank s, [])
  | ARotate banks => (rotate banks s, [])
  | ACount c n => (tt, s <| sv_metrics ::= count c n |>, [])
  | ASpawn t => (tt, s, [t])
  end.

Definition claim_of (bank : string) : Claim := MkClaim bank (cf_Identity config) (cf_LeaseDuration config).

(** ** Workers *)

(** [authorized]: allowed and retryable. *)
Definition route_active (bank : string) (route : Route) : bool :=
  (Route_EntityID route == bank) && (Route_ShardID route == cf_ShardID config) && (Route_PlacementStatus route == "active").
Definition authorized (batch : Batch) : prog (bool * bool) :=
  u ← call (OpUser (Batch_RequestedBy batch));
  match u with
  | inl err => if errors_is err ErrNoRows then mret (false, false) else mret (false, true)
  | inr user =>
      r ← call OpBanks;
      match r with
      | inl _ => mret (false, true)
      | inr routes =>
          if DirectoryUser_Status user != "enabled" then mret (false, false)
          else if (DirectoryUser_Role user == "bank_operator") && (DirectoryUser_EntityID user != Batch_BankID batch)
          then mret (false, false)
          else if (DirectoryUser_Role user != "issuer_operator") && (DirectoryUser_Role user != "bank_operator")
          then mret (false, false)
          else mret (existsb (route_active (Batch_BankID batch)) routes, false)
      end
  end.

Definition fail_batch_with (batch : Batch) (code : string) : prog unit :=
  call (OpFailBatch batch (cf_Identity config) code) ≫= fun _ => act (ACount Failed 1).

Definition retryBatch (batch : Batch) (code : string) : prog unit :=
  if cf_BatchMaxAttempts config <=? Batch_AttemptCount batch then fail_batch_with batch "retry_exhausted"
  else
    r ← call (OpRequeueBatch batch (cf_Identity config) code
           (batchBackoff (cf_BatchInitialBackoff config) (cf_BatchMaximumBackoff config) (Batch_AttemptCount batch)));
    match r with inr _ => act (ACount Retries 1) | inl _ => mret tt end.

(** The body of [runBatch] before its deferred calls. *)
Definition batch_work (batch : Batch) : prog unit :=
  if cf_BatchSizeCap config <? Batch_ItemCount batch then fail_batch_with batch "invalid_transition"
  else
    '(allowed, retryable) ← authorized batch;
    if (retryable : bool) then retryBatch batch "control_unavailable"
    else if negb allowed then fail_batch_with batch "authorization_revoked"
    else
      r ← call (OpApplyBatch batch (cf_Identity config));
      match r with
      | inr _ => act (ACount Succeeded 1)
      | inl err =>
          if errors_is err ErrRetryable || IsTransient err then retryBatch batch "dependency_unavailable"
          else if errors_is err ErrStale then mret tt
          else fail_batch_with batch "invalid_transition"
      end.
Definition runBatch (batch : Batch) : prog unit := batch_work batch ≫= fun _ => act (ARelease (Batch_BankID batch)).

Definition expiry_work (item : ExpiryItem) : prog unit :=
  r ← call (OpApplyExpiryItem item (cf_Identity config));
  match r with
  | inr _ => act (ACount Succeeded 1)
  | inl err =>
      if errors_is err ErrRetryable || IsTransient err then
        q ← call (OpRequeueExpiryItem item (cf_Identity config) (cf_ExpiryInitialBackoff config));
        match q with inr _ => act (ACount Retries 1) | inl _ => mret tt end
      else if errors_is err ErrStale then mret tt
      else call (OpFailExpiryItem item (cf_Identity config)) ≫= fun _ => act (ACount Failed 1)
  end.
Definition runExpiry (item : ExpiryItem) : prog unit := expiry_work item ≫= fun _ => act (ARelease (ExpiryItem_BankID item)).

Definition worker (t : task) : prog unit := match t with TaskBatch b => runBatch b | TaskExpiry i => runExpiry i end.

(** ** The loop *)

Definition activeBanks : prog (result (list string)) :=
  r ← call OpBanks;
  match r with
  | inl err => mret (inl err)
  | inr routes =>
      mret (inr (sort_strings (List.map Route_EntityID
        (List.filter (fun route => (Route_ShardID route == cf_ShardID config) && (Route_PlacementStatus route == "active")) routes))))
  end.

(** The first loop of [cycle]: the day's run and expired leases. *)
Fixpoint maintain (today : Z) (banks : list string) : prog (result unit) :=
  match banks with
  | [] => mret (inr tt)
  | bank :: rest =>
      e ← call (OpEnsureExpiryRun bank today (cf_Identity config));
      match e with
      | inl err => mret (inl (ErrWrap "ensure expiry run" err))
      | inr _ =>
          b ← call (OpRecoverBatches (claim_of bank));
          match b with
          | inl err => mret (inl (ErrWrap "recover batch leases" err))
          | inr n =>
              act (ACount Recoveries n) ;;
              i ← call (OpRecoverExpiryItems (claim_of bank));
              match i with
              | inl err => mret (inl (ErrWrap "recover expiry leases" err))
              | inr n => act (ACount Recoveries n) ;; maintain today rest
              end
          end
      end
  end.

(** What follows a claim: a worker that holds the slot, or the slot is free. *)
Definition start (bank : string) (t : option task) : prog unit :=
  match t with
  | Some t => act (ACount Claims_ 1) ;; act (ASpawn t)
  | None => act (ARelease bank)
  end.

(** The second loop: at most one batch and one expiry item of each bank. *)
Definition serve_expiry (bank : string) (rest : prog (result unit)) : prog (result unit) :=
  ok ← act (AReserve bank);
  if negb ok then rest
  else
    i ← call (OpClaimExpiryItem (claim_of bank));
    match i with
    | inl err => act (ARelease bank) ;; mret (inl (ErrWrap "claim expiry item" err))
    | inr item => start bank (TaskExpiry <$> item) ;; rest
    end.
Fixpoint serve (banks : list string) : prog (result unit) :=
  match banks with
  | [] => mret (inr tt)
  | bank :: rest =>
      ok ← act (AReserve bank);
      if negb ok then serve rest
      else
        c ← call (OpClaimBatch (claim_of bank));
        match c with
        | inl err => act (ARelease bank) ;; mret (inl (ErrWrap "claim batch" err))
        | inr batch => start bank (TaskBatch <$> batch) ;; serve_expiry bank (serve rest)
        end
  end.

Definition cycle : prog (result unit) :=
  r ← activeBanks;
  match r with
  | inl err => mret (inl err)
  | inr routes =>
      t ← act ANow;
      m ← maintain (t / day * day) routes;
      match m with
      | inl err => mret (inl err)
      | inr _ =>
          banks ← act (ARotate routes);
          s ← serve banks;
          match s with
          | inl err => mret (inl err)
          | inr _ => act (ACount LoopOK 1) ;; mret (inr tt)
          end
      end
  end.

(** ** Threads *)

(** One action of a thread. *)
Definition advance {A} (p : prog A) (s : service) : option (prog A * service * list task) :=
  match p with
  | Ret _ => None
  | Act a k => let '(x, s', started) := do_action a s in Some (k x, s', started)
  end.

(** [Run]: in a cycle, in its [select], waiting for the workers since a time,
    or returned. *)
Inductive loop :=
  | Cycling (p : prog (result unit))
  | Selecting
  | Draining (since : Z)
  | Returned (r : result unit).
(** A cycle that fails stops the loop, unless its context was cancelled. *)
Definition after_cycle (r : result unit) : loop :=
  match r with
  | inl err => if negb (errors_is err Canceled) then Returned (inl err) else Selecting
  | inr _ => Selecting
  end.

(** The service, whether its context is done, the goroutine of [Run] and those
    it started. *)
Record system := System { sy_service : service; sy_cancelled : bool; sy_loop : loop; sy_workers : list (prog unit) }.
Definition Run (w : world) : system := System (New w) false (Cycling cycle) [].

(** A worker is known by its place. *)
Inductive actor := TheLoop | AWorker (i : nat) | WorkerDone | TheTicker | TheTimer | TheContext | Elsewhere.

(** Who may move, and how.  [select] takes any case that is ready, so a tick may
    win over a context that is done; the calls of a cycle whose context is done
    may fail, as those of any cycle.  Nothing else touches the fields of the
    service. *)
Inductive sys_step (outside : relation world) : actor -> relation system :=
  | step_loop s c p ws p' s' started :
      advance p s = Some (p', s', started) ->
      sys_step outside TheLoop (System s c (Cycling p) ws) (System s' c (Cycling p') (ws ++ List.map worker started))
  | step_cycled s c r ws :
      sys_step outside TheLoop (System s c (Cycling (Ret r)) ws) (System s c (after_cycle r) ws)
  | step_tick s c ws :
      sys_step outside TheTicker (System s c Selecting ws) (System s c (Cycling cycle) ws)
  | step_stop s ws :
      sys_step outside TheLoop (System s true Selecting ws) (System s true (Draining (w_clock (sv_world s))) ws)
  | step_drained s c since :
      sys_step outside TheLoop (System s c (Draining since) []) (System s c (Returned (inr tt)) [])
  | step_timeout s c since ws :
      since + cf_DrainTimeout config <= w_clock (sv_world s) ->
      sys_step outside TheTimer (System s c (Draining since) ws) (System s c (Returned (inr tt)) ws)
  | step_cancel s c l ws : sys_step outside TheContext (System s c l ws) (System s true l ws)
  | step_worker s c l ws1 q ws2 q' s' started :
      advance q s = Some (q', s', started) ->
      sys_step outside (AWorker (length ws1)) (System s c l (ws1 ++ q :: ws2)) (System s' c l (ws1 ++ q' :: ws2 ++ List.map worker started))
  | step_done s c l ws1 ws2 :
      sys_step outside WorkerDone (System s c l (ws1 ++ Ret tt :: ws2)) (System s c l (ws1 ++ ws2))
  | step_outside s c l ws w :
      outside (sv_world s) w -> sys_step outside Elsewhere (System s c l ws) (System (s <| sv_world := w |>) c l ws).

(** A run, with who moved. *)
Inductive sys_run (outside : relation world) : list actor -> relation system :=
  | run_nil y : sys_run outside [] y y
  | run_cons a tr y1 y2 y3 : sys_step outside a y1 y2 -> sys_run outside tr y2 y3 -> sys_run outside (a :: tr) y1 y3.

(** One thread by itself: its result and the tasks it started. *)
Fixpoint run_alone {A} (p : prog A) (s : service) : A * service * list task :=
  match p with
  | Ret a => (a, s, [])
  | Act a k =>
      let '(x, s', started) := do_action a s in
      let '(r, s'', more) := run_alone (k x) s' in (r, s'', started ++ more)
  end.
End Executor.
