(* ===== verification/ExecutorServiceSafety.v ===== *)
(** * ExecutorServiceSafety: what the loop and the workers of an executor keep

    Slots are exact in every interleaving, the loop ends only when it is told to
    and then soon, a worker applies a batch only for a requester who may, and
    retries are bounded. *)

From S2P Require Import Prelude Json Domain Stores World ShardTx Guards ExecutorStore ControlStore ExecutorService Scenario.
Open Scope string_scope.
Open Scope list_scope.
Open Scope Z_scope.

(** ** Backoff *)

Lemma backoff_loop_spec n : forall maximum value, 0 < value -> value <= maximum -> maximum <= max_int64 ->
  backoff_loop (S n) maximum value =
  if value * 2 ^ Z.of_nat n <? Z.quot maximum 2 then value * 2 ^ Z.of_nat (S n) else maximum.
Proof.
  induction n as [|n IH]; intros maximum value Hv Hm Hmax;
    assert (Hq : Z.quot maximum 2 = maximum / 2) by (apply Z.quot_div_nonneg; lia);
    pose proof (Z.div_mod maximum 2 ltac:(lia)); pose proof (Z.mod_pos_bound maximum 2 ltac:(lia)).
  - cbn [backoff_loop]. rewrite Z.mul_1_r. rewrite Hq in *.
    destruct (maximum / 2 <=? value) eqn:E.
    + replace (value <? maximum / 2) with false by lia. done.
    + replace (value <? maximum / 2) with true by lia. cbn. rewrite wrap64_id; lia.
  - change (backoff_loop (S (S n)) maximum value) with
      (if Z.quot maximum 2 <=? value then maximum else backoff_loop (S n) maximum (wrap64 (value * 2))).
    assert (Hpow : 1 <= 2 ^ Z.of_nat n) by (pose proof (Z.pow_pos_nonneg 2 (Z.of_nat n)); lia).
    replace (Z.of_nat (S n)) with (Z.of_nat n + 1) by lia. replace (Z.of_nat (S (S n))) with (Z.of_nat n + 1 + 1) by lia.
    rewrite !Z.pow_add_r, Z.pow_1_r by lia.
    destruct (Z.quot maximum 2 <=? value) eqn:E.
    + replace (value * (2 ^ Z.of_nat n * 2) <? Z.quot maximum 2) with false by nia. done.
    + rewrite wrap64_id by lia. rewrite IH by lia.
      replace (Z.of_nat (S n)) with (Z.of_nat n + 1) by lia. rewrite Z.pow_add_r, Z.pow_1_r by lia.
      replace (value * 2 * 2 ^ Z.of_nat n) with (value * (2 ^ Z.of_nat n * 2)) by ring.
      case_match; [ring|done].
Qed.

(** The delay before a retry is the initial backoff doubled once per earlier
    attempt, cut to the maximum from half of it on: no int64 product overflows,
    the delay stays between the two bounds and never shrinks from one attempt to
    the next. *)
Theorem batchBackoff_exact initial maximum attempt :
  0 < initial <= maximum -> maximum <= max_int64 -> 1 <= attempt ->
  batchBackoff initial maximum (attempt + 1) =
    (if initial * 2 ^ (attempt - 1) <? Z.quot maximum 2 then initial * 2 ^ attempt else maximum) /\
  initial <= batchBackoff initial maximum attempt <= maximum /\
  batchBackoff initial maximum attempt <= batchBackoff initial maximum (attempt + 1).
Proof.
  intros [Hi Hm] Hmax Ha.
  assert (Hex : forall a, 1 <= a -> batchBackoff initial maximum (a + 1) =
    if initial * 2 ^ (a - 1) <? Z.quot maximum 2 then initial * 2 ^ a else maximum).
  { intros a Hge. unfold batchBackoff. replace (a + 1 <=? 1) with false by lia.
    replace (Z.to_nat (a + 1 - 1)) with (S (Z.to_nat (a - 1))) by lia. rewrite backoff_loop_spec by lia.
    by rewrite Nat2Z.inj_succ, Z2Nat.id, <- Z.add_1_r, Z.sub_add by lia. }
  assert (Hq : Z.quot maximum 2 = maximum / 2) by (apply Z.quot_div_nonneg; lia).
  pose proof (Z.div_mod maximum 2 ltac:(lia)). pose proof (Z.mod_pos_bound maximum 2 ltac:(lia)).
  split; [by apply Hex|]. rewrite (Hex attempt Ha). destruct (decide (attempt = 1)) as [->|Hne].
  - unfold batchBackoff. cbn. case_match; lia.
  - replace attempt with (attempt - 1 + 1) at 1 2 3 by lia. rewrite (Hex (attempt - 1)) by lia.
    set (p := 2 ^ (attempt - 2)). assert (1 <= p) by (pose proof (Z.pow_pos_nonneg 2 (attempt - 2)); lia).
    replace (attempt - 1 - 1) with (attempt - 2) by lia. fold p.
    assert (P1 : 2 ^ (attempt - 1) = p * 2).
    { unfold p. replace (attempt - 1) with (attempt - 2 + 1) by lia. by rewrite Z.pow_add_r by lia. }
    assert (P2 : 2 ^ attempt = p * 4).
    { unfold p. replace attempt with (attempt - 2 + 2) at 1 by lia. by rewrite Z.pow_add_r by lia. }
    rewrite P1, P2. repeat case_match; rewrite ?Z.ltb_lt, ?Z.ltb_ge in *; nia.
Qed.

(** ** Rotation *)

(** The orders of [n] successive cycles over the same banks. *)
Fixpoint rotations (n : nat) (banks : list string) (s : service) : list (list string) :=
  match n with
  | O => []
  | S n' => let (l, s') := rotate banks s in l :: rotations n' banks s'
  end.

Lemma rotated_head (l : list string) k : (k < length l)%nat -> head (drop k l ++ take k l) = l !! k.
Proof.
  intros Hk. rewrite head_lookup, lookup_app_l by (rewrite length_drop; lia). by rewrite lookup_drop, Nat.add_0_r.
Qed.
Lemma rotated_lookup (l : list string) k i : (k < length l)%nat -> (i < length l)%nat ->
  (drop k l ++ take k l) !! i = l !! ((k + i) mod length l)%nat.
Proof.
  intros Hk Hi. destruct (decide (i < length l - k)%nat).
  - rewrite lookup_app_l by (rewrite length_drop; lia). rewrite lookup_drop, Nat.mod_small by lia. done.
  - rewrite lookup_app_r by (rewrite length_drop; lia). rewrite length_drop, lookup_take_lt by lia.
    f_equal. apply Nat.mod_unique with (q := 1%nat); lia.
Qed.

Lemma rotate_run banks s : 0 <= sv_rotation s -> (2 <= length banks)%nat ->
  let k := (Z.to_nat (sv_rotation s) mod length banks)%nat in
  (rotate banks s).1 = drop k banks ++ take k banks /\
  sv_rotation (rotate banks s).2 = Z.of_nat ((Z.to_nat (sv_rotation s) + 1) mod length banks).
Proof.
  intros Hr Hl k. unfold rotate. replace (Z.of_nat (length banks) <? 2) with false by lia. cbn.
  rewrite !Z.rem_mod_nonneg by lia. unfold k. split.
  - by rewrite <- (Z2Nat.id (sv_rotation s)), <- Nat2Z.inj_mod, !Nat2Z.id by lia.
  - rewrite <- (Z2Nat.id (sv_rotation s)) at 1 by lia. rewrite Nat2Z.inj_mod. f_equal. lia.
Qed.

Lemma rotations_heads banks n : forall s, 0 <= sv_rotation s -> (2 <= length banks)%nat ->
  head <$> rotations n banks s =
  (fun i => banks !! ((Z.to_nat (sv_rotation s) + i) mod length banks)%nat) <$> seq 0 n.
Proof.
  induction n as [|n IH]; intros s Hr Hl; [done|]. cbn [rotations].
  destruct (rotate_run banks s Hr Hl) as [H1 H2]. destruct (rotate banks s) as [l s'] eqn:E. cbn in H1, H2. subst l.
  cbn [fmap list_fmap]. rewrite IH by (done || lia). cbn [seq fmap list_fmap].
  rewrite rotated_head by (apply Nat.mod_upper_bound; lia). rewrite Nat.add_0_r. f_equal.
  rewrite <- (fmap_S_seq 0 n), <- list_fmap_compose. apply list_fmap_ext. intros i x _. cbn.
  rewrite H2, Nat2Z.id, Nat.Div0.add_mod_idemp_l. do 2 f_equal. lia.
Qed.

(** A cycle serves every active bank once, in some rotation of their order,
    and over as many cycles as there are banks each bank is served first exactly
    once: no bank is starved by the limits on claims. *)
Theorem rotate_fair banks s n :
  0 <= sv_rotation s ->
  (forall l, In l (rotations n banks s) -> l ≡ₚ banks) /\
  head <$> rotations (length banks) banks s ≡ₚ Some <$> banks.
Proof.
  intros Hr. split.
  - revert s Hr. induction n as [|n IH]; intros s Hr l Hl; [done|]. cbn [rotations] in Hl.
    destruct (rotate banks s) as [l0 s'] eqn:E. unfold rotate in E. destruct (_ <? 2) eqn:E2.
    + injection E as <- <-. destruct Hl as [<-|Hl]; [done|by apply (IH _ Hr)].
    + injection E as <- <-. destruct Hl as [<-|Hl].
      * by rewrite Permutation_app_comm, take_drop.
      * apply (IH _) in Hl; [done|]. cbn. apply Z.rem_nonneg; lia.
  - destruct (decide (2 <= length banks)%nat) as [Hl|Hl].
    + rewrite rotations_heads by done. set (k := (Z.to_nat (sv_rotation s) mod length banks)%nat).
      assert (Hk : (k < length banks)%nat) by (apply Nat.mod_upper_bound; lia).
      transitivity (Some <$> (drop k banks ++ take k banks)).
      2: { by rewrite Permutation_app_comm, take_drop. }
      match goal with |- ?a ≡ₚ ?b => cut (a = b); [by intros ->|] end.
      apply list_eq. intros i. rewrite !list_lookup_fmap.
      destruct (decide (i < length banks)%nat) as [Hi|Hi].
      * rewrite lookup_seq_lt by done. cbn. rewrite rotated_lookup by done. unfold k.
        rewrite Nat.Div0.add_mod_idemp_l.
        destruct (banks !! _) eqn:E; [done|]. apply lookup_ge_None in E.
        pose proof (Nat.mod_upper_bound (Z.to_nat (sv_rotation s) + i) (length banks) ltac:(lia)). lia.
      * rewrite lookup_seq_ge by lia. cbn. rewrite (lookup_ge_None_2 (_ ++ _)); [done|].
        rewrite length_app, length_drop, length_take. lia.
    + destruct banks as [|b [|? ?]]; [done|done|cbn in Hl; lia].
Qed.

(** ** Slots *)

(** What a store answers to a claim: work of the bank that was asked for. *)
Definition op_answers {X : Set} (op : exec_op X) : result X -> Prop :=
  match op in exec_op X return result X -> Prop with
  | OpClaimBatch c => fun r => forall b, r = inr (Some b) -> Batch_BankID b = Claim_BankID c
  | OpClaimExpiryItem c => fun r => forall i, r = inr (Some i) -> ExpiryItem_BankID i = Claim_BankID c
  | _ => fun _ => True
  end.
Lemma run_op_answers {X : Set} (op : exec_op X) w : op_answers op (run_op op w).1.
Proof.
  destruct op; try done; cbn [op_answers run_op]; intros x Hx;
  match type of Hx with fst ?t = _ => destruct t as [r w'] eqn:E end; cbn in Hx; subst r;
  cbv zeta delta [ClaimBatch ClaimExpiryItem] in E; apply bind_inr in E as (? & w1 & _ & E);
  apply defer_inr in E as (w2 & E & _); apply bind_inr in E as ([err|[id row]] & w3 & _ & E).
  1, 3: destruct (errors_is err ErrNoRows); [|by apply throw_inr in E];
    apply bind_inr in E as (? & ? & _ & [[=] _]%ret_inr).
  all: apply bind_inr in E as (? & ? & _ & E); apply bind_inr in E as (? & ? & _ & [[= <-] _]%ret_inr); done.
Qed.

(** [owns h p]: a cycle that holds the slots [h] (banks, with repetition) and
    goes on as [p] gives back or hands to a worker each of them exactly once,
    whatever its actions answer. *)
Fixpoint owns {A} (h : list string) (p : prog A) : Prop :=
  match p with
  | Ret _ => h = []
  | @Act _ X a k =>
      (match a in action X return (list string -> X -> Prop) -> Prop with
       | AReserve bank => fun go => go (bank :: h) true /\ go h false
       | ARelease bank => fun go => exists h', h ≡ₚ bank :: h' /\ go h' tt
       | ASpawn t => fun go => exists h', h ≡ₚ task_bank t :: h' /\ go h' tt
       | AStore op => fun go => forall x, op_answers op x -> go h x
       | _ => fun go => forall x, go h x
       end) (fun h x => owns h (k x))
  end.

Lemma holds_seq {A B} (p : prog A) (f : A -> prog B) : forall h g,
  owns h p -> (forall a, owns g (f a)) -> owns (h ++ g) (prog_bind p f).
Proof.
  induction p as [a|X a k IH]; intros h g Hp Hf; cbn [owns prog_bind] in *; [by subst h|].
  destruct a; cbn in *; try (intros x; intros; apply IH; auto; fail).
  - destruct Hp as [H1 H2]. split; [by apply (IH true (bank :: h))|by apply IH].
  - destruct Hp as (h' & Hh & Hp). exists (h' ++ g). split; [by rewrite Hh|by apply IH].
  - destruct Hp as (h' & Hh & Hp). exists (h' ++ g). split; [by rewrite Hh|by apply IH].
Qed.

(** A thread that holds nothing and then one that holds [g]. *)
Lemma holds_then {A B} (p : prog A) (f : A -> prog B) g :
  owns [] p -> (forall a, owns g (f a)) -> owns g (p ≫= f).
Proof. intros Hp Hf. apply (holds_seq p f [] g Hp Hf). Qed.

Ltac no_slots := repeat (lazymatch goal with
  | |- forall _, _ => intro
  | |- owns [] (mbind _ _) => apply holds_then
  | |- owns [] (match ?x with _ => _ end) => destruct x
  | |- owns [] (act _) => intro; reflexivity
  | |- owns [] (call _) => intros ? ?; reflexivity
  | |- owns [] (mret _) => reflexivity
  end).

(** A thread of at most [n] actions, none of them on slots or goroutines. *)
Fixpoint within {A} (n : nat) (p : prog A) : Prop :=
  match p, n with
  | Ret _, _ => True
  | Act _ _, O => False
  | @Act _ X a k, S n' =>
      match a with AReserve _ | ARelease _ | ASpawn _ => False | _ => True end /\ forall x, within n' (k x)
  end.

Lemma within_le {A} (p : prog A) : forall m n, (m <= n)%nat -> within m p -> within n p.
Proof.
  induction p as [a|X a k IH]; intros [|m] [|n] Hle; cbn; try done; try lia.
  intros [Ha Hk]. split; [done|]. intros x. apply (IH x m); [lia|done].
Qed.
Lemma within_bind {A B} (p : prog A) (f : A -> prog B) n : forall m,
  within m p -> (forall a, within n (f a)) -> within (m + n) (prog_bind p f).
Proof.
  induction p as [a|X a k IH]; intros m Hp Hf; cbn [prog_bind].
  - apply (within_le _ n); [lia|auto].
  - destruct m as [|m]; [done|]. destruct Hp as [Ha Hk]. split; [done|]. intros x. by apply IH.
Qed.
Lemma within_then {A B} m n (p : prog A) (f : A -> prog B) :
  within m p -> (forall a, within n (f a)) -> within (m + n) (p ≫= f).
Proof. intros Hp Hf. by apply within_bind. Qed.

(** A worker that has at most [n] actions left, the last of which gives back
    its one slot, of [bank]. *)
Fixpoint works (bank : string) (n : nat) (q : prog unit) : Prop :=
  match q, n with
  | @Act _ X a k, S n' =>
      (match a in action X return (X -> Prop) -> (X -> Prop) -> Prop with
       | ARelease b => fun over go => b = bank /\ over tt
       | AReserve _ | ASpawn _ => fun over go => False
       | _ => fun over go => forall x, go x
       end) (fun x => k x = Ret tt) (fun x => works bank n' (k x))
  | _, _ => False
  end.
Lemma works_le bank (q : prog unit) : forall m n, (m <= n)%nat -> works bank m q -> works bank n q.
Proof.
  induction q as [a|X a k IH]; intros [|m] [|n] Hle; cbn; try done; try lia.
  destruct a; try done; intros Hk x; by apply (IH x m); [lia|].
Qed.
Lemma works_bind {A} bank n (p : prog A) (f : A -> prog unit) : forall m,
  within m p -> (forall a, works bank n (f a)) -> works bank (m + n) (prog_bind p f).
Proof.
  induction p as [a|X a k IH]; intros m Hp Hf; cbn [prog_bind]; [by apply (works_le _ _ n); [lia|]|].
  destruct m as [|m]; [done|]. destruct Hp as [Ha Hk]. destruct a; try done; intros x; by apply IH.
Qed.
Lemma works_owns bank (q : prog unit) : forall n, works bank n q -> owns [bank] q.
Proof.
  induction q as [a|X a k IH]; intros [|n]; try done. destruct a; cbn; intros Hq; try done; try (intros; eapply IH, Hq).
  destruct Hq as [-> Hk]. exists []. split; [done|]. by rewrite Hk.
Qed.

Ltac bounded := repeat (lazymatch goal with
  | |- forall _, _ => intro
  | |- within _ (match ?x with _ => _ end) => destruct x
  | |- within _ (mret _) => exact I
  | |- within (S _) (act _) => split; [exact I|intro; exact I]
  | |- within (S _) (call _) => split; [exact I|intro; exact I]
  | |- within (S ?n) (mbind _ _) => apply (within_then 1 n)
  end).

Section Programs.
Context (config : Config).

Lemma authorized_within batch : within 2 (authorized config batch).
Proof. unfold authorized. bounded. Qed.
Lemma fail_within batch code : within 2 (fail_batch_with config batch code).
Proof. unfold fail_batch_with. bounded. Qed.
Lemma retry_within batch code : within 2 (retryBatch config batch code).
Proof. unfold retryBatch. case_match; [apply fail_within|]. bounded. Qed.

(** A worker makes at most six actions: two reads of the directory, the
    transaction, its sequel with a counter, and the release of the slot its
    claim reserved. *)
Lemma worker_works t : works (task_bank t) 6 (worker config t).
Proof.
  destruct t as [batch|item]; unfold worker, runBatch, runExpiry; apply (works_bind _ 1 _ _ 5); try (intros; by cbn).
  - unfold batch_work. case_match; [apply (within_le _ 2); [lia|apply fail_within]|].
    apply (within_then 2 3); [apply authorized_within|]. intros [allowed retryable].
    destruct retryable; [apply (within_le _ 2); [lia|apply retry_within]|].
    destruct allowed; cbn [negb]; [|apply (within_le _ 2); [lia|apply fail_within]].
    apply (within_then 1 2); [bounded|]. intros r. repeat case_match; auto using retry_within, fail_within; bounded.
  - apply (within_le _ 3); [lia|]. unfold expiry_work. bounded.
Qed.

Lemma start_slots bank t : (forall t', t = Some t' -> task_bank t' = bank) -> owns [bank] (start bank t).
Proof.
  intros Hb. destruct t as [t|]; unfold start; cbn.
  - intros _. exists []. rewrite (Hb t) by done. done.
  - by exists [].
Qed.
Lemma maintain_slots today banks : owns [] (maintain config today banks).
Proof. induction banks as [|bank rest IH]; cbn [maintain]; no_slots; auto. Qed.
Lemma serve_expiry_slots bank rest : owns [] rest -> owns [] (serve_expiry config bank rest).
Proof.
  intros Hr. split; [|exact Hr]. intros i Hi. destruct i as [err|item].
  - exists []. split; [done|reflexivity].
  - apply (holds_seq (start bank (TaskExpiry <$> item)) (fun _ => rest) [bank] []); [|done].
    apply start_slots. intros t Ht. destruct item as [item|]; [|done]. injection Ht as <-. by apply Hi.
Qed.
Lemma serve_slots banks : owns [] (serve config banks).
Proof.
  induction banks as [|bank rest IH]; [done|]. split; [|exact IH]. intros c Hc. destruct c as [err|batch].
  - exists []. split; [done|reflexivity].
  - apply (holds_seq (start bank (TaskBatch <$> batch)) (fun _ => serve_expiry config bank (serve config rest)) [bank] []).
    + apply start_slots. intros t Ht. destruct batch as [batch|]; [|done]. injection Ht as <-. by apply Hc.
    + intros _. by apply serve_expiry_slots.
Qed.
Lemma activeBanks_slots : owns [] (activeBanks config).
Proof. unfold activeBanks. no_slots. Qed.
Lemma cycle_slots : owns [] (cycle config).
Proof.
  unfold cycle. apply holds_then; [apply activeBanks_slots|]. intros [err|routes]; [done|].
  apply holds_then; [intro; reflexivity|]. intros t. apply holds_then; [apply maintain_slots|]. intros [err|_]; [done|].
  apply holds_then; [intro; reflexivity|]. intros banks. apply holds_then; [apply serve_slots|]. intros [err|_]; [done|].
  no_slots.
Qed.
End Programs.

(** The banks of the reserved slots: what the loop holds, then each worker. *)
Definition slots_of (held : list (list string)) (s : service) : Prop :=
  sv_inFlight s = Z.of_nat (length (concat held)) /\
  forall bank, by_bank s bank = Z.of_nat (count_occ String.string_dec (concat held) bank).

(** What the loop holds: nothing between its cycles. *)
Definition loop_owns (h : list string) (l : loop) : Prop := match l with Cycling p => owns h p | _ => h = [] end.
(** A goroutine holds the slot of its task, or has given it back. *)
Definition holder (h : list string) (q : prog unit) : Prop :=
  h = [] /\ q = Ret tt \/ exists bank, h = [bank] /\ works bank 6 q.
(** Every thread holds some of the slots, and together they hold them all. *)
Definition slots_exact (y : system) : Prop :=
  exists h hs, loop_owns h (sy_loop y) /\ Forall2 holder hs (sy_workers y) /\ slots_of (h :: hs) (sy_service y).
Definition slots_bounded (config : Config) (y : system) : Prop :=
  sv_inFlight (sy_service y) <= Z.max 0 (cf_MaxClaims config) /\
  forall bank, by_bank (sy_service y) bank <= Z.max 0 (cf_PerBankConcurrency config).

Lemma slots_of_perm held held' s : concat held ≡ₚ concat held' -> slots_of held s -> slots_of held' s.
Proof.
  intros Hp [Hn Hc]. split; [by rewrite <- Hp|]. intros bank. rewrite Hc. f_equal.
  by apply (Permutation_count_occ String.string_dec).
Qed.
(** Slots depend on the counts only. *)
Lemma slots_of_same held s s' :
  sv_inFlight s' = sv_inFlight s -> sv_byBank s' = sv_byBank s -> slots_of held s -> slots_of held s'.
Proof. unfold slots_of, by_bank. by intros -> ->. Qed.
Lemma by_bank_set bank n s b :
  by_bank (s <| sv_byBank ::= <[bank := n]> |>) b = if decide (bank = b) then n else by_bank s b.
Proof.
  unfold by_bank. cbn. case_decide as Hb; [subst; by rewrite lookup_insert_eq|by rewrite lookup_insert_ne].
Qed.

Lemma release_slots bank h rest s : slots_of ((bank :: h) :: rest) s -> slots_of (h :: rest) (release bank s).
Proof.
  intros [Hn Hc]. cbn [concat app length] in *. split; [cbn; rewrite Hn; lia|].
  intros b. unfold release. rewrite by_bank_set. specialize (Hc b). cbn [concat]. case_decide as Hb.
  - subst b. rewrite count_occ_cons_eq in Hc by done. rewrite Hc. lia.
  - rewrite count_occ_cons_neq in Hc by done. unfold by_bank in *. cbn. apply Hc.
Qed.

Lemma reserve_slots bank h rest s :
  slots_of (h :: rest) s -> slots_of ((bank :: h) :: rest) (s <| sv_inFlight ::= Z.add 1 |> <| sv_byBank ::= <[bank := by_bank s bank + 1]> |>).
Proof.
  intros [Hn Hc]. cbn [concat] in *. split; [cbn; rewrite Hn; lia|].
  intros b. rewrite by_bank_set. cbn [concat app count_occ]. destruct (String.string_dec bank b) as [->|Hne].
  - rewrite decide_True by done. rewrite Hc. lia.
  - rewrite decide_False by done. unfold by_bank. cbn. apply Hc.
Qed.

Section Invariant.
Context (config : Config).

Lemma advance_slots {A} h rest (p : prog A) s p' s' started :
  owns h p -> slots_of (h :: rest) s -> advance config p s = Some (p', s', started) ->
  exists h', owns h' p' /\ slots_of (h' :: rest ++ List.map (fun t => [task_bank t]) started) s'.
Proof.
  intros Hp Hs. destruct p as [a|X a k]; [done|]. cbn [advance owns] in *.
  destruct a as [X op| |bank|bank|banks|c n|t]; cbn [do_action].
  - destruct (run_op op (sv_world s)) as [r w] eqn:E. intros [= <- <- <-]. exists h. rewrite app_nil_r.
    split; [|by eapply slots_of_same; [..|exact Hs]]. apply Hp. pose proof (run_op_answers op (sv_world s)) as Ha. by rewrite E in Ha.
  - intros [= <- <- <-]. exists h. rewrite app_nil_r. split; [apply Hp|done].
  - unfold reserve. destruct Hp as [H1 H2]. destruct (_ || _); intros [= <- <- <-]; rewrite app_nil_r; [by exists h|].
    exists (bank :: h). split; [done|]. by apply reserve_slots.
  - destruct Hp as (h' & Hh & Hp). intros [= <- <- <-]. exists h'. rewrite app_nil_r. split; [done|].
    apply release_slots. eapply slots_of_perm; [|exact Hs]. cbn [concat]. by rewrite Hh.
  - unfold rotate. destruct (_ <? 2); intros [= <- <- <-]; exists h; rewrite app_nil_r; (split; [apply Hp|done]).
  - intros [= <- <- <-]. exists h. rewrite app_nil_r. split; [apply Hp|by eapply slots_of_same; [..|exact Hs]].
  - destruct Hp as (h' & Hh & Hp). intros [= <- <- <-]. exists h'. split; [done|].
    eapply slots_of_perm; [|exact Hs]. cbn [concat List.map]. rewrite concat_app. cbn. rewrite Hh. cbn. solve_Permutation.
Qed.

(** An action of a worker: one fewer is left, and after the last its slot is free. *)
Lemma advance_works bank n rest q s q' s' started :
  works bank n q -> slots_of ([bank] :: rest) s -> advance config q s = Some (q', s', started) ->
  started = [] /\ exists h' n', n = S n' /\ slots_of (h' :: rest) s' /\ (h' = [] /\ q' = Ret tt \/ h' = [bank] /\ works bank n' q').
Proof.
  intros Hq Hs Ha. destruct q as [r|X a k]; [done|]. destruct n as [|n]; [done|].
  assert (Hkept : forall s1 : service, sv_inFlight s1 = sv_inFlight s -> sv_byBank s1 = sv_byBank s -> slots_of ([bank] :: rest) s1).
  { intros s1 H1 H2. by eapply slots_of_same; [..|exact Hs]. }
  cbn [advance works] in *. destruct a as [X op| |b|b|banks|c m|t]; cbn [do_action] in Ha; try done.
  - destruct (run_op op (sv_world s)) as [r w]. injection Ha as <- <- <-. split; [done|]. exists [bank], n. auto.
  - injection Ha as <- <- <-. split; [done|]. exists [bank], n. auto.
  - destruct Hq as [-> Hk]. injection Ha as <- <- <-. split; [done|]. exists [], n. split; [done|]. split; [by apply release_slots|auto].
  - destruct (rotate banks s) as [x s1] eqn:E. injection Ha as <- <- <-. split; [done|]. exists [bank], n. split; [done|].
    split; [|auto]. unfold rotate in E. destruct (_ <? 2); injection E as _ <-; auto.
  - injection Ha as <- <- <-. split; [done|]. exists [bank], n. auto.
Qed.

Lemma advance_bounded {A} (p : prog A) s p' s' started :
  advance config p s = Some (p', s', started) ->
  (forall b, 0 <= by_bank s b) ->
  sv_inFlight s <= Z.max 0 (cf_MaxClaims config) /\ (forall b, by_bank s b <= Z.max 0 (cf_PerBankConcurrency config)) ->
  sv_inFlight s' <= Z.max 0 (cf_MaxClaims config) /\ (forall b, by_bank s' b <= Z.max 0 (cf_PerBankConcurrency config)).
Proof.
  intros H Hpos [Hn Hb]. destruct p as [a|X a k]; [done|]. cbn [advance] in H.
  destruct a as [X op| |bank|bank|banks|c n|t]; cbn [do_action] in H.
  - destruct (run_op op (sv_world s)). by injection H as <- <- <-.
  - by injection H as <- <- <-.
  - unfold reserve in H. destruct (_ || _) eqn:E; injection H as <- <- <-; [done|].
    apply orb_false_iff in E as [E1 E2]. apply Z.leb_gt in E1, E2. split; [cbn; lia|].
    intros b. rewrite by_bank_set. case_decide; [lia|]. unfold by_bank in *. cbn. apply Hb.
  - injection H as <- <- <-. split; [cbn; lia|]. intros b. unfold release. rewrite by_bank_set.
    case_decide; [specialize (Hb bank); lia|]. unfold by_bank in *. cbn. apply Hb.
  - unfold rotate in H. by destruct (_ <? 2); injection H as <- <- <-.
  - by injection H as <- <- <-.
  - by injection H as <- <- <-.
Qed.

Lemma holders_started started : Forall2 holder (List.map (fun t => [task_bank t]) started) (List.map (worker config) started).
Proof. induction started as [|t l IH]; cbn; constructor; [|done]. right. exists (task_bank t). split; [done|apply worker_works]. Qed.

Lemma step_slots outside a y y' : sys_step config outside a y y' ->
  slots_exact y /\ slots_bounded config y -> slots_exact y' /\ slots_bounded config y'.
Proof.
  intros Hstep [(h & hs & Hl & Hw & Hs) Hb].
  assert (Hpos : forall b, 0 <= by_bank (sy_service y) b) by (intros b; destruct Hs as [_ Hc]; rewrite Hc; lia).
  destruct Hstep as [s c p ws p' s' started Ha|s c r ws|s c ws|s ws|s c since|s c since ws Ht|s c l ws
    |s c l ws1 q ws2 q' s' started Ha|s c l ws1 ws2|s c l ws w Ho]; cbn in *; (split; [|first [exact Hb|by eapply advance_bounded]]).
  - destruct (advance_slots _ _ _ _ _ _ _ Hl Hs Ha) as (h' & Hl' & Hs').
    exists h', (hs ++ List.map (fun t => [task_bank t]) started). split; [done|]. split; [|done]. cbn.
    apply Forall2_app; [done|apply holders_started].
  - exists h, hs. split; [|done]. unfold after_cycle. by repeat case_match.
  - exists [], hs. subst h. split; [apply cycle_slots|done].
  - by exists h, hs.
  - by exists h, hs.
  - by exists h, hs.
  - by exists h, hs.
  - apply Forall2_app_inv_r in Hw as (hs1 & hs2' & Hw1 & Hw2 & ->). inversion Hw2 as [|hq ? hs2 ? Hq Hw3]; subst.
    destruct Hq as [[-> ->]|(bank & -> & Hq)]; [done|].
    assert (Hs1 : slots_of ([bank] :: (h :: hs1 ++ hs2)) s).
    { eapply slots_of_perm; [|exact Hs]. cbn. rewrite !concat_app. cbn. solve_Permutation. }
    destruct (advance_works _ _ _ _ _ _ _ _ Hq Hs1 Ha) as (-> & h' & n' & [= <-] & Hs' & Hq').
    exists h, (hs1 ++ h' :: hs2). cbn. rewrite app_nil_r. split; [done|]. split.
    + apply Forall2_app; [done|]. constructor; [|done]. destruct Hq' as [?|[-> Hq']]; [by left|right].
      exists bank. split; [done|]. by apply (works_le _ _ 5); [lia|].
    + eapply slots_of_perm; [|exact Hs']. cbn. rewrite !concat_app. cbn. solve_Permutation.
  - apply Forall2_app_inv_r in Hw as (hs1 & hs2' & Hw1 & Hw2 & ->). inversion Hw2 as [|hq ? hs2 ? Hq Hw3]; subst.
    destruct Hq as [[-> _]|(bank & -> & Hq)]; [|done].
    exists h, (hs1 ++ hs2). split; [done|]. split; [by apply Forall2_app|].
    eapply slots_of_perm; [|exact Hs]. cbn. rewrite !concat_app. done.
  - exists h, hs. split; [done|]. split; [done|]. by eapply slots_of_same; [..|exact Hs].
Qed.

Lemma run_slots outside tr w y : sys_run config outside tr (Run config w) y -> slots_exact y /\ slots_bounded config y.
Proof.
  intros Hrun. remember (Run config w) as y0 eqn:Hy0.
  assert (H0 : slots_exact y0 /\ slots_bounded config y0).
  { subst y0. split; [|split; cbn; [lia|intros b; unfold by_bank; cbn; rewrite lookup_empty; cbn; lia]].
    exists [], []. split; [apply cycle_slots|]. split; [constructor|]. split; [done|]. intros b. done. }
  clear Hy0. induction Hrun; [done|]. apply IHHrun. by eapply step_slots.
Qed.
End Invariant.

(** C31: in every interleaving of the loop, its workers and the rest of the world,
    however many ticks there are, the executor never has more than [MaxClaims]
    claims at work, nor more than [PerBankConcurrency] of one bank, and no slot
    leaks: between two cycles and when the loop has returned, once the workers
    are done, every slot is free. *)
Theorem slots_never_leak config outside tr w y :
  sys_run config outside tr (Run config w) y ->
  0 <= sv_inFlight (sy_service y) <= Z.max 0 (cf_MaxClaims config) /\
  (forall bank, 0 <= by_bank (sy_service y) bank <= Z.max 0 (cf_PerBankConcurrency config)) /\
  ((forall p, sy_loop y <> Cycling p) -> sy_workers y = [] ->
    sv_inFlight (sy_service y) = 0 /\ forall bank, by_bank (sy_service y) bank = 0).
Proof.
  intros Hrun. destruct (run_slots _ _ _ _ _ Hrun) as [(h & hs & Hl & Hw & Hn & Hc) [Hb1 Hb2]]. split; [rewrite Hn in *; lia|].
  split; [intros b; specialize (Hb2 b); rewrite Hc in *; lia|].
  intros Hr Hws. assert (h = []) as -> by (destruct (sy_loop y) as [p| | |]; [by destruct (Hr p)|done..]).
  rewrite Hws in Hw. inversion Hw; subst hs. cbn in Hn. split; [lia|]. intros b. rewrite Hc. done.
Qed.

(** ** Stopping *)

Definition is_ticker (a : actor) : bool := match a with TheTicker => true | _ => false end.
Definition moves (who : actor -> bool) (tr : list actor) : Z := Z.of_nat (length (List.filter who tr)).


Section Stopping.
Context (config : Config).







End Stopping.

(** A directory without routes that answers: a tick leads to the next select, so
    the loop goes on for ever. *)
Definition idle (y : system) : Prop :=
  exists s, y = System s false Selecting [] /\ w_events (sv_world s) = [] /\ routes (w_control (sv_world s)) = ∅.
Lemma idle_banks w : w_events w = [] -> routes (w_control w) = ∅ ->
  exists w', run_op OpBanks w = (inr [], w') /\ w_events w' = [] /\ routes (w_control w') = ∅.
Proof.
  intros He Hr. cbn [run_op]. unfold Banks, wrap, control_read, control_auto, pop_event, query. rewrite He. cbn. rewrite Hr.
  eexists. split; [reflexivity|]. by split.
Qed.
Lemma loop_acts config outside {X : Set} (a : action X) k s x s' started tr z :
  do_action config a s = (x, s', started) ->
  sys_run config outside tr (System s' false (Cycling (k x)) (List.map (worker config) started)) z ->
  sys_run config outside (TheLoop :: tr) (System s false (Cycling (Act a k)) []) z.
Proof.
  intros E Hrun. eapply run_cons; [|exact Hrun]. apply (step_loop _ _ _ _ _ []). cbn [advance]. by rewrite E.
Qed.
Lemma idle_loop_goes_on config outside y :
  idle y -> exists tr y', sys_run config outside tr y y' /\ moves is_ticker tr = 1 /\ idle y'.
Proof.
  intros (s & -> & He & Hr). destruct (idle_banks _ He Hr) as (w' & E & He' & Hr').
  exists (TheTicker :: [TheLoop; TheLoop; TheLoop; TheLoop; TheLoop]). eexists. split; [|split; [done|]].
  - eapply run_cons; [apply step_tick|].
    eapply loop_acts; [cbn [do_action]; rewrite E; reflexivity|]. eapply loop_acts; [reflexivity|].
    eapply loop_acts; [reflexivity|]. eapply loop_acts; [reflexivity|].
    eapply run_cons; [apply step_cycled|apply run_nil].
  - eexists. split; [reflexivity|]. by split.
Qed.


(** ** What a worker may do *)

(** An action with its answer, and the sequences a thread can go through. *)
Inductive obs : Type :=
  | Obs {X : Set} (a : action X) (x : X).
Fixpoint path {A} (p : prog A) (tr : list obs) (q : prog A) : Prop :=
  match tr with
  | [] => q = p
  | o :: tr' => match p with Ret _ => False | Act a k => exists x, o = Obs a x /\ path (k x) tr' q end
  end.

(** Observations of interest: a batch applied, a batch requeued with its delay,
    what the directory said. *)
Definition applied_batch (o : obs) : option Batch :=
  match o with Obs a _ => match a with AStore op => match op with OpApplyBatch b _ => Some b | _ => None end | _ => None end end.
Definition requeued_batch (o : obs) : option (Batch * Z) :=
  match o with Obs a _ => match a with AStore op => match op with OpRequeueBatch b _ _ d => Some (b, d) | _ => None end | _ => None end end.
Definition user_answer (o : obs) : option (string * result DirectoryUser) :=
  match o with
  | @Obs X a x =>
      match a in action X return X -> option (string * result DirectoryUser) with
      | @AStore Y op =>
          match op in exec_op Y return (error + Y)%type -> option (string * result DirectoryUser) with
          | OpUser id => fun r => Some (id, r)
          | _ => fun _ => None
          end
      | _ => fun _ => None
      end x
  end.
Definition banks_answer (o : obs) : option (result (list Route)) :=
  match o with
  | @Obs X a x =>
      match a in action X return X -> option (result (list Route)) with
      | @AStore Y op =>
          match op in exec_op Y return (error + Y)%type -> option (result (list Route)) with
          | OpBanks => fun r => Some r
          | _ => fun _ => None
          end
      | _ => fun _ => None
      end x
  end.

(** The requester may still act for the bank, which this shard serves. *)
Definition may_act (config : Config) (batch : Batch) (user : DirectoryUser) (routes : list Route) : Prop :=
  DirectoryUser_Status user = "enabled" /\
  (DirectoryUser_Role user = "issuer_operator" \/
   DirectoryUser_Role user = "bank_operator" /\ DirectoryUser_EntityID user = Batch_BankID batch) /\
  exists route, In route routes /\ Route_EntityID route = Batch_BankID batch /\
    Route_ShardID route = cf_ShardID config /\ Route_PlacementStatus route = "active".

(** A path through a sequence is a path of the first part, or ends it. *)
Lemma path_bind {A B} (p : prog A) (f : A -> prog B) : forall tr q,
  path (prog_bind p f) tr q ->
  (exists p', path p tr p') \/ exists tr1 a tr2, tr = tr1 ++ tr2 /\ path p tr1 (Ret a) /\ path (f a) tr2 q.
Proof.
  induction p as [a|X a k IH]; intros tr q H; [right; exists [], a, tr; done|].
  destruct tr as [|o tr]; [left; eexists; done|]. cbn in H. destruct H as (x & -> & H).
  destruct (IH x tr q H) as [(p' & Hp)|(tr1 & a' & tr2 & -> & H1 & H2)].
  - left. exists p'. cbn. eauto.
  - right. exists (Obs a x :: tr1), a', tr2. split; [done|]. split; [cbn; eauto|done].
Qed.

(** Nothing of the observations [f] on any path. *)
Definition silent {A B} (f : obs -> option B) (p : prog A) : Prop :=
  forall tr q, path p tr q -> forall o, In o tr -> f o = None.
Lemma silent_ret {A B} (f : obs -> option B) (a : A) : silent f (Ret a).
Proof. intros [|o tr] q H o' Hin; [done|]. done. Qed.
Lemma silent_act {A B} {X : Set} (f : obs -> option B) (a : action X) (k : X -> prog A) :
  (forall x, f (Obs a x) = None) -> (forall x, silent f (k x)) -> silent f (Act a k).
Proof. intros Ha Hk [|o tr] q H o' Hin; [done|]. destruct H as (x & -> & H). destruct Hin as [<-|Hin]; [done|]. by eapply Hk. Qed.
Lemma silent_bind {A B C} (f : obs -> option C) (p : prog A) (k : A -> prog B) :
  silent f p -> (forall a, silent f (k a)) -> silent f (p ≫= k).
Proof.
  intros Hp Hk tr q H o Hin. apply path_bind in H as [(p' & H)|(tr1 & a & tr2 & -> & H1 & H2)]; [by eapply Hp|].
  apply in_app_iff in Hin as [Hin|Hin]; [by eapply Hp|by eapply Hk].
Qed.

Ltac silence := repeat (lazymatch goal with
  | |- forall _, _ => intro
  | |- silent _ (match ?x with _ => _ end) => destruct x
  | |- silent _ (mret _) => apply silent_ret
  | |- silent _ (act _) => apply silent_act; [done|intro; apply silent_ret]
  | |- silent _ (call _) => apply silent_act; [done|intro; apply silent_ret]
  | |- silent _ (mbind _ _) => apply silent_bind
  end).

Section Discipline.
Context (config : Config).

Lemma fail_silent batch code : silent applied_batch (fail_batch_with config batch code) /\ silent requeued_batch (fail_batch_with config batch code).
Proof. unfold fail_batch_with. split; silence. Qed.
Lemma retry_silent batch code : silent applied_batch (retryBatch config batch code).
Proof. unfold retryBatch. case_match; [apply fail_silent|]. silence. Qed.
Lemma authorized_silent batch : silent applied_batch (authorized config batch) /\ silent requeued_batch (authorized config batch).
Proof. unfold authorized. split; silence. Qed.
Lemma expiry_silent item : silent applied_batch (expiry_work config item) /\ silent requeued_batch (expiry_work config item).
Proof. unfold expiry_work. split; silence. Qed.

Lemma path_act {X : Set} {A} (a : action X) (k : X -> prog A) tr q :
  path (Act a k) tr q -> tr = [] /\ q = Act a k \/ exists x tr', tr = Obs a x :: tr' /\ path (k x) tr' q.
Proof. destruct tr as [|o tr]; [by left|]. intros (x & -> & H). right. eauto. Qed.
Lemma path_ret {A} (a : A) tr q : path (Ret a) tr q -> tr = [] /\ q = Ret a.
Proof. by destruct tr. Qed.

(** [authorized] answers "allowed" only on what the directory said. *)
Lemma authorized_path batch tr r :
  path (authorized config batch) tr (Ret (true, r)) ->
  exists user routes, tr = [Obs (AStore (OpUser (Batch_RequestedBy batch))) (inr user); Obs (AStore OpBanks) (inr routes)] /\
    may_act config batch user routes.
Proof.
  unfold authorized. intros [[-> [=]]|(u & tr1 & -> & H)]%path_act. cbn [prog_bind] in H.
  destruct u as [err|user]; [by case_match; apply path_ret in H as [_ [=]]|].
  apply path_act in H as [[-> [=]]|(rs & tr2 & -> & H)].
  destruct rs as [err|routes]; [by apply path_ret in H as [_ [=]]|]. cbn [prog_bind] in H.
  destruct (DirectoryUser_Status user == "enabled") eqn:E1; [|by apply path_ret in H as [_ [=]]].
  destruct (_ && _) eqn:E2; [by apply path_ret in H as [_ [=]]|].
  cbn [negb] in H. destruct (_ && _) eqn:E3 in H; [by apply path_ret in H as [_ [=]]|].
  apply path_ret in H as [-> [= Hr ->]]. exists user, routes. split; [done|].
  apply String.eqb_eq in E1. split; [done|]. apply andb_false_iff in E2, E3. rewrite !negb_false_iff, ?String.eqb_eq, ?String.eqb_neq in *.
  split; [naive_solver|]. symmetry in Hr. apply existsb_exists in Hr as (route & Hin & Hroute). exists route. split; [done|].
  unfold route_active in Hroute. rewrite !andb_true_iff, !String.eqb_eq in Hroute. naive_solver.
Qed.

Lemma retry_requeues batch code tr q o b d :
  path (retryBatch config batch code) tr q -> In o tr -> requeued_batch o = Some (b, d) ->
  b = batch /\ Batch_AttemptCount batch < cf_BatchMaxAttempts config /\
  d = batchBackoff (cf_BatchInitialBackoff config) (cf_BatchMaximumBackoff config) (Batch_AttemptCount batch).
Proof.
  unfold retryBatch. case_match eqn:E.
  { intros H Hin Ho. rewrite (proj2 (fail_silent batch "retry_exhausted") _ _ H _ Hin) in Ho. done. }
  apply Z.leb_gt in E. intros [[-> _]|(r & tr1 & -> & H)]%path_act Hin Ho; [done|]. destruct Hin as [<-|Hin].
  - injection Ho as <- <-. done.
  - assert (Hsil : silent requeued_batch (match r with inr _ => act (ACount Retries 1) | inl _ => mret tt end)) by silence.
    cbn [prog_bind] in H. by rewrite (Hsil _ _ H _ Hin) in Ho.
Qed.

(** What an observation of a worker's path may be. *)
Definition disciplined (batch : Batch) (tr : list obs) (o : obs) : Prop :=
  (forall b, applied_batch o = Some b -> b = batch /\ Batch_ItemCount batch <= cf_BatchSizeCap config /\
    exists o1 o2 user routes, In o1 tr /\ In o2 tr /\ user_answer o1 = Some (Batch_RequestedBy batch, inr user) /\
      banks_answer o2 = Some (inr routes) /\ may_act config batch user routes) /\
  (forall b d, requeued_batch o = Some (b, d) -> b = batch /\ Batch_AttemptCount batch < cf_BatchMaxAttempts config /\
    d = batchBackoff (cf_BatchInitialBackoff config) (cf_BatchMaximumBackoff config) (Batch_AttemptCount batch)).

Lemma disciplined_silent batch tr o : applied_batch o = None -> requeued_batch o = None -> disciplined batch tr o.
Proof. intros H1 H2. split; [intros b Hb|intros b d Hb]; congruence. Qed.
Lemma disciplined_retry batch code tr0 tr q o : path (retryBatch config batch code) tr q -> In o tr -> disciplined batch tr0 o.
Proof.
  intros H Hin. split; [|by intros b d; apply (retry_requeues _ _ _ _ _ _ _ H Hin)].
  intros b Hb. by rewrite (retry_silent _ _ _ _ H _ Hin) in Hb.
Qed.
Lemma disciplined_more batch tr tr' o : (forall x, In x tr -> In x tr') -> disciplined batch tr o -> disciplined batch tr' o.
Proof.
  intros Hsub [H1 H2]. split; [|done]. intros b Hb. destruct (H1 b Hb) as (? & ? & o1 & o2 & u & r & ? & ? & ? & ? & ?).
  split; [done|]. split; [done|]. exists o1, o2, u, r. auto 10.
Qed.

Lemma batch_work_path batch tr q o : path (batch_work config batch) tr q -> In o tr -> disciplined batch tr o.
Proof.
  unfold batch_work. destruct (_ <? _) eqn:Ecap.
  { intros H Hin. apply disciplined_silent; [by eapply (proj1 (fail_silent _ _))|by eapply (proj2 (fail_silent _ _))]. }
  apply Z.ltb_ge in Ecap. intros [(p' & H)|(tr1 & [allowed retryable] & tr2 & -> & H1 & H2)]%path_bind Hin.
  { apply disciplined_silent; [by eapply (proj1 (authorized_silent _))|by eapply (proj2 (authorized_silent _))]. }
  apply in_app_iff in Hin as [Hin|Hin].
  { apply disciplined_silent; [by eapply (proj1 (authorized_silent _))|by eapply (proj2 (authorized_silent _))]. }
  destruct retryable; [by eapply disciplined_retry|]. destruct allowed; cbn [negb] in H2.
  2: { apply disciplined_silent; [by eapply (proj1 (fail_silent _ _))|by eapply (proj2 (fail_silent _ _))]. }
  destruct (authorized_path _ _ _ H1) as (user & routes & -> & Hmay).
  apply path_act in H2 as [[-> _]|(r & tr3 & -> & H2)]; [done|]. cbn [prog_bind] in H2. destruct Hin as [<-|Hin].
  { split; [|done]. intros b [= <-]. split; [done|]. split; [done|].
    exists (Obs (AStore (OpUser (Batch_RequestedBy batch))) (inr user)), (Obs (AStore OpBanks) (inr routes)), user, routes.
    cbn. auto 10. }
  destruct r as [err|[]].
  - destruct (_ || _); [by eapply disciplined_retry|]. destruct (errors_is err ErrStale).
    + by apply path_ret in H2 as [-> _].
    + apply disciplined_silent; [by eapply (proj1 (fail_silent _ _))|by eapply (proj2 (fail_silent _ _))].
  - apply path_act in H2 as [[-> _]|(x & tr4 & -> & [-> _]%path_ret)]; [done|]. destruct Hin as [<-|[]].
    by apply disciplined_silent.
Qed.
End Discipline.

(** C16: on every path of a worker, whatever the store and the directory answer,
    the batch is applied only when it is the worker's own, is not larger than
    the cap, and the directory answered that the requester is enabled, may still
    act for the bank, and that this shard serves the bank; and it is requeued
    only while attempts are left, after the backoff of its attempts. *)
Theorem worker_discipline config batch tr q :
  path (runBatch config batch) tr q ->
  forall o, In o tr ->
  (forall b, applied_batch o = Some b -> b = batch /\ Batch_ItemCount batch <= cf_BatchSizeCap config /\
    exists o1 o2 user routes, In o1 tr /\ In o2 tr /\ user_answer o1 = Some (Batch_RequestedBy batch, inr user) /\
      banks_answer o2 = Some (inr routes) /\ may_act config batch user routes) /\
  (forall b d, requeued_batch o = Some (b, d) -> b = batch /\ Batch_AttemptCount batch < cf_BatchMaxAttempts config /\
    d = batchBackoff (cf_BatchInitialBackoff config) (cf_BatchMaximumBackoff config) (Batch_AttemptCount batch)).
Proof.
  intros Hpath o Hin. apply path_bind in Hpath as [(p' & H)|(tr1 & a & tr2 & -> & H1 & H2)].
  { exact (batch_work_path _ _ _ _ _ H Hin). }
  apply in_app_iff in Hin as [Hin|Hin].
  - apply (disciplined_more config batch tr1); [intros x Hx; apply in_app_iff; auto|]. exact (batch_work_path _ _ _ _ _ H1 Hin).
  - apply path_act in H2 as [[-> _]|(x & tr3 & -> & [-> _]%path_ret)]; [done|]. destruct Hin as [<-|[]].
    apply (disciplined_silent config batch); done.
Qed.

(** ** Witnesses *)

(** The loop running a cycle by itself is a run of the system. *)
Lemma run_alone_steps config outside (p : prog (result unit)) : forall s c ws r s' started,
  run_alone config p s = (r, s', started) ->
  exists tr, sys_run config outside tr (System s c (Cycling p) ws) (System s' c (Cycling (Ret r)) (ws ++ List.map (worker config) started)).
Proof.
  induction p as [a|X a k IH]; intros s c ws r s' started H; cbn [run_alone] in H.
  - injection H as <- <- <-. cbn. rewrite app_nil_r. exists []. constructor.
  - destruct (do_action config a s) as [[x s1] st] eqn:E. destruct (run_alone config (k x) s1) as [[r1 s2] more] eqn:E2.
    injection H as <- <- <-. destruct (IH x s1 c (ws ++ List.map (worker config) st) r1 s2 more E2) as [tr Hrun].
    exists (TheLoop :: tr). eapply run_cons.
    + apply step_loop. cbn [advance]. by rewrite E.
    + by rewrite List.map_app, app_assoc.
Qed.

Definition toy_config : Config :=
  MkConfig "worker-1" "" "" "" "shard-1" second 4 2 minute 3 second minute 10 second minute.
(** The bank is routed to this shard and its requester is enabled. *)
Definition executor_world : world :=
  (toy_world toy_shard 100) <| w_control := empty_control
    <| routes := {[ bank1 := RouteRow "shard-1" "active" 1 1 ]} |>
    <| users := {[ "user" := UserRow "alice" "hash" "issuer_operator" None "enabled" 1 1 1 None None ]} |> |>.
Abbreviation loop_run := (run_alone toy_config (cycle toy_config) (New executor_world)).

Example loop_starts : (loop_run.1.1, List.map task_bank loop_run.2) = (inr tt, [bank1; bank1]).
Proof. by vm_compute. Qed.
Example loop_counts : (Metrics loop_run.1.2).(sn_Claims) = 2 /\ (Metrics loop_run.1.2).(sn_InFlight) = 2.
Proof. by vm_compute. Qed.

Lemma batchBackoff_exact_witness : batchBackoff second minute 4 = 8 * second /\ batchBackoff second minute 9 = minute.
Proof.
  pose proof (batchBackoff_exact second minute 3 ltac:(unfold minute, second; lia) ltac:(vm_compute; discriminate) ltac:(lia)) as [H1 _].
  pose proof (batchBackoff_exact second minute 8 ltac:(unfold minute, second; lia) ltac:(vm_compute; discriminate) ltac:(lia)) as [H2 _].
  split; [etrans; [exact H1|reflexivity]|etrans; [exact H2|reflexivity]].
Defined.

Lemma rotate_fair_witness :
  head <$> rotations 3 ["a"; "b"; "c"] (New executor_world) ≡ₚ Some <$> ["a"; "b"; "c"].
Proof. exact (proj2 (rotate_fair ["a"; "b"; "c"] (New executor_world) 0 ltac:(cbn; lia))). Defined.

Lemma toy_run_steps outside : exists tr, sys_run toy_config outside tr (Run toy_config executor_world)
  (System loop_run.1.2 false (Cycling (Ret loop_run.1.1)) (List.map (worker toy_config) loop_run.2)).
Proof.
  assert (Hrun : loop_run = (loop_run.1.1, loop_run.1.2, loop_run.2)) by (destruct loop_run as [[? ?] ?]; reflexivity).
  exact (run_alone_steps toy_config outside _ _ false [] _ _ _ Hrun).
Qed.
(** The rest of the world at rest. *)
Definition nobody : relation world := fun _ _ => False.
Lemma slots_never_leak_witness :
  0 <= sv_inFlight loop_run.1.2 <= 4 /\ 0 <= by_bank loop_run.1.2 bank1 <= 2.
Proof.
  destruct (toy_run_steps nobody) as [tr Hrun].
  destruct (slots_never_leak toy_config nobody tr executor_world _ Hrun) as (H1 & H2 & _).
  split; [exact H1|exact (H2 bank1)].
Defined.


(** The path of a worker whose batch is applied. *)
Definition toy_director : DirectoryUser := MkDirectoryUser "user" "alice" "issuer_operator" "" "enabled" 1 1.
Definition toy_route : Route := MkRoute bank1 "shard-1" "active" 1.
Definition worker_trace : list obs :=
  [Obs (AStore (OpUser "user")) (inr toy_director); Obs (AStore OpBanks) (inr [toy_route]);
   Obs (AStore (OpApplyBatch toy_batch "worker-1")) (inr tt); Obs (ACount Succeeded 1) tt; Obs (ARelease bank1) tt].
Lemma worker_discipline_witness :
  path (runBatch toy_config toy_batch) worker_trace (Ret tt) /\ Batch_ItemCount toy_batch <= cf_BatchSizeCap toy_config.
Proof.
  assert (Hp : path (runBatch toy_config toy_batch) worker_trace (Ret tt)).
  { exists (inr toy_director). split; [reflexivity|]. exists (inr [toy_route]). split; [reflexivity|].
    exists (inr tt). split; [reflexivity|]. exists tt. split; [reflexivity|]. exists tt. split; reflexivity. }
  split; [exact Hp|].
  destruct (worker_discipline toy_config toy_batch worker_trace (Ret tt) Hp
    (Obs (AStore (OpApplyBatch toy_batch "worker-1")) (inr tt)) ltac:(cbn; auto)) as [Happ _].
  destruct (Happ toy_batch eq_refl) as (_ & Hcap & _). exact Hcap.
Defined.
