(* ===== verification/ExecutorRefinement.v ===== *)
(** * ExecutorRefinement: what an executor promises, and that the service keeps it

    [ex_step] is the abstract executor: the banks the directory last named and a
    list of tasks, each at a stage.  The loop and the workers of
    [ExecutorService] are simulated by it in every interleaving, action for
    action ([logged]), and its calls are a run of the system of
    [ExecutorSystem]. *)

From S2P Require Import Prelude Json Domain Stores World ShardTx Guards ShardOrder ExecutorStore ControlStore ControlOrder ExecutorSystem ExecutorService ExecutorServiceSafety Scenario.
Open Scope string_scope.
Open Scope list_scope.
Open Scope Z_scope.

(** ** The promise

    The slots, the counters, the goroutines and the order of their actions are
    gone: an executor knows the banks the directory last named and the day, and
    has tasks, each at a stage.  [ex_step] is all it may do. *)

(** A task: claimed; its requester looked up, and admitted or not; cleared to be
    applied; refused; unanswered by the directory; tried in vain; over. *)
Inductive stage := Held | Known (admitted : bool) | Cleared | Refused | Unanswered | Tried (transient : bool) | Over.

Record executor := Executor { ex_world : world; ex_banks : list string; ex_day : Z; ex_tasks : list (task * stage) }.

(** What the API and other executors do between two actions. *)
Definition elsewhere : relation world := fun w w' =>
  exists bank, shard_le bank (w_shard w) (w_shard w') /\ w_shard_tx w' = None /\ w_clock w <= w_clock w'.
(** Reading the directory leaves the shard alone. *)
Definition shard_same : relation world := fun w w' =>
  w_shard w' = w_shard w /\ w_shard_tx w' = w_shard_tx w /\ w_clock w <= w_clock w'.

(** What is seen of an executor: its calls to the store, its questions to the
    directory, asked by the loop or by a worker, and what others do; each between
    the world it finds and the world it leaves. *)
Inductive deed := Called (c : exec_call) | AskedUser (id : string) | AskedBanks (worker : bool) | Otherwise.
Abbreviation log := (list (world * deed * world)).
Definition calls (l : log) : list (world * exec_call * world) :=
  omap (fun e => match e.1.2 with Called c => Some (e.1.1, c, e.2) | _ => None end) l.

Section Promise.
Context (config : Config).

(** This shard serves the bank. *)
Definition served (co : control_db) (bank : string) : bool :=
  match routes co !! bank with
  | Some r => (ro_shard_id r == cf_ShardID config) && (ro_placement_status r == "active")
  | None => false
  end.
(** The requester is enabled and may act for the bank. *)
Definition vouched (co : control_db) (b : Batch) : bool :=
  match users co !! Batch_RequestedBy b with
  | Some u => (us_status u == "enabled") &&
      ((us_role u == "issuer_operator") || (us_role u == "bank_operator") && (default "" (us_entity_id u) == Batch_BankID b))
  | None => false
  end.
(** The stage after the transaction of a task. *)
Definition tried (r : result unit) : stage :=
  match r with
  | inr _ => Over
  | inl err => if errors_is err ErrRetryable || IsTransient err then Tried true else if errors_is err ErrStale then Over else Tried false
  end.

(** The calls that keep a bank going. *)
Inductive maintains (banks : list string) (today : Z) : exec_call -> Prop :=
  | maintains_run bank : In bank banks -> maintains banks today (CallEnsureExpiryRun bank today (cf_Identity config))
  | maintains_batches bank : In bank banks -> maintains banks today (CallRecoverBatches (claim_of config bank))
  | maintains_items bank : In bank banks -> maintains banks today (CallRecoverExpiryItems (claim_of config bank)).

(** The calls that end a task: a requeue after the backoff while attempts are
    left, or a failure for its reason. *)
Inductive ends : task -> stage -> exec_call -> Prop :=
  | ends_unanswered b :
      Batch_AttemptCount b < cf_BatchMaxAttempts config ->
      ends (TaskBatch b) Unanswered (CallRequeueBatch b (cf_Identity config) "control_unavailable"
        (batchBackoff (cf_BatchInitialBackoff config) (cf_BatchMaximumBackoff config) (Batch_AttemptCount b)))
  | ends_retried b :
      Batch_AttemptCount b < cf_BatchMaxAttempts config ->
      ends (TaskBatch b) (Tried true) (CallRequeueBatch b (cf_Identity config) "dependency_unavailable"
        (batchBackoff (cf_BatchInitialBackoff config) (cf_BatchMaximumBackoff config) (Batch_AttemptCount b)))
  | ends_exhausted b st :
      st = Unanswered \/ st = Tried true -> cf_BatchMaxAttempts config <= Batch_AttemptCount b ->
      ends (TaskBatch b) st (CallFailBatch b (cf_Identity config) "retry_exhausted")
  | ends_refused b : ends (TaskBatch b) Refused (CallFailBatch b (cf_Identity config) "authorization_revoked")
  | ends_invalid b st :
      st = Held /\ cf_BatchSizeCap config < Batch_ItemCount b \/ st = Tried false ->
      ends (TaskBatch b) st (CallFailBatch b (cf_Identity config) "invalid_transition")
  | ends_item i : ends (TaskExpiry i) (Tried true) (CallRequeueExpiryItem i (cf_Identity config) (cf_ExpiryInitialBackoff config))
  | ends_item_failed i : ends (TaskExpiry i) (Tried false) (CallFailExpiryItem i (cf_Identity config)).

(** There is room for one more task of the bank. *)
Definition banks_of (ts : list (task * stage)) : list string := List.map (fun t => task_bank t.1) ts.
Definition room (bank : string) (ts : list (task * stage)) : Prop :=
  Z.of_nat (length ts) < cf_MaxClaims config /\
  Z.of_nat (count_occ String.string_dec (banks_of ts) bank) < cf_PerBankConcurrency config.

Inductive ex_step (outside : relation world) : executor -> log -> executor -> Prop :=
  (** the directory names the banks that are served *)
  | ex_directory w bs bs' d ts w' routes :
      Banks w = (inr routes, w') -> (forall bank, In bank bs' <-> served (w_control w) bank = true) ->
      ex_step outside (Executor w bs d ts) [(w, AskedBanks false, w')] (Executor w' bs' d ts)
  | ex_directory_fails w bs d ts w' e :
      Banks w = (inl e, w') -> ex_step outside (Executor w bs d ts) [(w, AskedBanks false, w')] (Executor w' bs d ts)
  | ex_new_day w bs d ts : ex_step outside (Executor w bs d ts) [] (Executor w bs (w_clock w / day * day) ts)
  | ex_maintain w bs d ts c :
      maintains bs d c -> ex_step outside (Executor w bs d ts) [(w, Called c, after c w)] (Executor (after c w) bs d ts)
  | ex_claim_batch w bs d ts bank r w' :
      In bank bs -> room bank ts -> ClaimBatch (claim_of config bank) w = (r, w') ->
      ex_step outside (Executor w bs d ts) [(w, Called (CallClaimBatch (claim_of config bank)), w')]
        (Executor w' bs d (ts ++ match r with inr (Some b) => [(TaskBatch b, Held)] | _ => [] end))
  | ex_claim_item w bs d ts bank r w' :
      In bank bs -> room bank ts -> ClaimExpiryItem (claim_of config bank) w = (r, w') ->
      ex_step outside (Executor w bs d ts) [(w, Called (CallClaimExpiryItem (claim_of config bank)), w')]
        (Executor w' bs d (ts ++ match r with inr (Some i) => [(TaskExpiry i, Held)] | _ => [] end))
  (** the directory is asked about the requester of a batch that is not too big,
      and then about its bank *)
  | ex_user w bs d ts1 b ts2 r w' :
      Batch_ItemCount b <= cf_BatchSizeCap config -> User (Batch_RequestedBy b) w = (r, w') ->
      ex_step outside (Executor w bs d (ts1 ++ (TaskBatch b, Held) :: ts2)) [(w, AskedUser (Batch_RequestedBy b), w')]
        (Executor w' bs d (ts1 ++ (TaskBatch b,
          match r with inr _ => Known (vouched (w_control w) b) | inl e => if errors_is e ErrNoRows then Refused else Unanswered end) :: ts2))
  | ex_route w bs d ts1 b admitted ts2 r w' :
      Banks w = (r, w') ->
      ex_step outside (Executor w bs d (ts1 ++ (TaskBatch b, Known admitted) :: ts2)) [(w, AskedBanks true, w')]
        (Executor w' bs d (ts1 ++ (TaskBatch b,
          match r with inr _ => if admitted && served (w_control w) (Batch_BankID b) then Cleared else Refused | inl _ => Unanswered end) :: ts2))
  (** the transaction of a task *)
  | ex_apply w bs d ts1 b ts2 r w' :
      ApplyBatch b (cf_Identity config) w = (r, w') ->
      ex_step outside (Executor w bs d (ts1 ++ (TaskBatch b, Cleared) :: ts2)) [(w, Called (CallApplyBatch b (cf_Identity config)), w')]
        (Executor w' bs d (ts1 ++ (TaskBatch b, tried r) :: ts2))
  | ex_expire w bs d ts1 i ts2 r w' :
      ApplyExpiryItem i (cf_Identity config) w = (r, w') ->
      ex_step outside (Executor w bs d (ts1 ++ (TaskExpiry i, Held) :: ts2)) [(w, Called (CallApplyExpiryItem i (cf_Identity config)), w')]
        (Executor w' bs d (ts1 ++ (TaskExpiry i, tried r) :: ts2))
  (** its sequel, and its end *)
  | ex_end w bs d ts1 t st ts2 c :
      ends t st c -> ex_step outside (Executor w bs d (ts1 ++ (t, st) :: ts2)) [(w, Called c, after c w)]
        (Executor (after c w) bs d (ts1 ++ (t, Over) :: ts2))
  | ex_over w bs d ts1 t ts2 :
      ex_step outside (Executor w bs d (ts1 ++ (t, Over) :: ts2)) [] (Executor w bs d (ts1 ++ ts2))
  | ex_outside w bs d ts w' : outside w w' -> ex_step outside (Executor w bs d ts) [(w, Otherwise, w')] (Executor w' bs d ts).

Inductive ex_run (outside : relation world) : executor -> log -> executor -> Prop :=
  | ex_nil E : ex_run outside E [] E
  | ex_snoc E log1 E1 log2 E2 : ex_run outside E log1 E1 -> ex_step outside E1 log2 E2 -> ex_run outside E (log1 ++ log2) E2.
End Promise.

(** What is seen of a run of the service. *)
Definition deed_of {X : Set} (worker : bool) (op : exec_op X) : deed :=
  match op with
  | OpClaimBatch c => Called (CallClaimBatch c)
  | OpRecoverBatches c => Called (CallRecoverBatches c)
  | OpApplyBatch b o => Called (CallApplyBatch b o)
  | OpRequeueBatch b o c d => Called (CallRequeueBatch b o c d)
  | OpFailBatch b o c => Called (CallFailBatch b o c)
  | OpEnsureExpiryRun b t o => Called (CallEnsureExpiryRun b t o)
  | OpRecoverExpiryItems c => Called (CallRecoverExpiryItems c)
  | OpClaimExpiryItem c => Called (CallClaimExpiryItem c)
  | OpApplyExpiryItem i o => Called (CallApplyExpiryItem i o)
  | OpRequeueExpiryItem i o d => Called (CallRequeueExpiryItem i o d)
  | OpFailExpiryItem i o => Called (CallFailExpiryItem i o)
  | OpUser id => AskedUser id
  | OpBanks => AskedBanks worker
  end.
Definition next_deed {A} (worker : bool) (p : prog A) : option deed :=
  match p with Act (AStore op) _ => Some (deed_of worker op) | _ => None end.
(** What the actor does next. *)
Definition deed_by (y : system) (a : actor) : option deed :=
  match a with
  | TheLoop => match sy_loop y with Cycling p => next_deed false p | _ => None end
  | AWorker i => q ← sy_workers y !! i; next_deed true q
  | Elsewhere => Some Otherwise
  | _ => None
  end.
Definition entry (s : service) (d : option deed) (s' : service) : log :=
  match d with Some d => [(sv_world s, d, sv_world s')] | None => [] end.
(** A run, with what is seen of it. *)
Inductive logged (config : Config) (outside : relation world) : log -> relation system :=
  | logged_nil y : logged config outside [] y y
  | logged_cons a y1 y2 l y3 :
      sys_step config outside a y1 y2 -> logged config outside l y2 y3 ->
      logged config outside (entry (sy_service y1) (deed_by y1 a) (sy_service y2) ++ l) y1 y3.
Lemma sys_run_logged config outside tr y y' : sys_run config outside tr y y' -> exists l, logged config outside l y y'.
Proof. induction 1 as [y|a tr y1 y2 y3 Hs _ [l IH]]; [exists []; constructor|]. eexists. by econstructor. Qed.

(** ** What the directory answers *)

#[local] Instance shard_same_preorder : PreOrder shard_same.
Proof. split; [intros w; split; [done|split; [done|lia]]|]. intros a b c (?&?&?) (?&?&?). split; [congruence|split; [congruence|lia]]. Qed.
Lemma shard_same_read {A} (g : sql_env -> control_db -> A) : frames shard_same (control_read g).
Proof.
  intros w r w'. unfold control_read, control_auto, query, pop_event. repeat case_match; intros; simplify_eq/=;
  unfold shard_same; cbn; repeat split; lia.
Qed.
#[local] Hint Resolve shard_same_read : frames.
Lemma User_reads id w r w' : User id w = (r, w') -> shard_same w w'.
Proof. intros H. refine ((_ : frames shard_same (User id)) _ _ _ H). unfold User. frame_with ltac:(auto with frames). Qed.
Lemma Banks_reads w r w' : Banks w = (r, w') -> shard_same w w'.
Proof. intros H. refine ((_ : frames shard_same Banks) _ _ _ H). unfold Banks. frame_with ltac:(auto with frames). Qed.

(** What the directory answers. *)
Lemma control_read_inr {A} (g : sql_env -> control_db -> A) w a w' :
  control_read g w = (inr a, w') -> exists env, a = g env (w_control w).
Proof. unfold control_read, control_auto, query, pop_event. repeat case_match; intros; simplify_eq/=; eauto. Qed.
Lemma User_inr id w u w' : User id w = (inr u, w') -> exists row, users (w_control w) !! id = Some row /\ u = scanDirectoryUser id row.
Proof.
  unfold User. rewrite wrap_inr, row_inr. intros (env & Ha)%control_read_inr.
  destruct (users (w_control w) !! id) as [row|]; [|done]. injection Ha as ->. eauto.
Qed.
Lemma Banks_inr w routes' w' id shard status t : Banks w = (inr routes', w') ->
  In (MkRoute id shard status t) routes' <->
  exists r, routes (w_control w) !! id = Some r /\ shard = ro_shard_id r /\ status = ro_placement_status r /\ t = ro_created_at r.
Proof.
  unfold Banks. rewrite wrap_inr. intros (env & ->)%control_read_inr. rewrite in_map_iff. split.
  - intros ([i r] & [= <- <- <- <-] & Hin%list_elem_of_In). unfold newest_first in Hin. rewrite merge_sort_Permutation in Hin.
    apply rows_of_spec in Hin. eauto.
  - intros (r & Hr & -> & -> & ->). exists (id, r). split; [done|]. apply list_elem_of_In. unfold newest_first.
    rewrite merge_sort_Permutation. by apply rows_of_spec.
Qed.

Section Refinement.
Context (config : Config) (outside : relation world).

Lemma served_routes w rs w' bank : Banks w = (inr rs, w') -> existsb (route_active config bank) rs = served config (w_control w) bank.
Proof.
  intros H. apply Bool.eq_iff_eq_true. rewrite existsb_exists. unfold served. split.
  - intros ([i sh st t] & Hin & Hact). apply (Banks_inr _ _ _ _ _ _ _ H) in Hin as (r & Hr & -> & -> & ->).
    unfold route_active in Hact. cbn in Hact. rewrite !andb_true_iff, String.eqb_eq in Hact. destruct Hact as [[-> H1] H2].
    by rewrite Hr, H1, H2.
  - destruct (routes (w_control w) !! bank) as [r|] eqn:Er; [|done]. intros Hact.
    exists (MkRoute bank (ro_shard_id r) (ro_placement_status r) (ro_created_at r)). split.
    + apply (Banks_inr _ _ _ _ _ _ _ H). eauto.
    + unfold route_active. cbn. rewrite String.eqb_refl. exact Hact.
Qed.
Definition active_of (rs : list Route) : list string :=
  sort_strings (List.map Route_EntityID
    (List.filter (fun route => (Route_ShardID route == cf_ShardID config) && (Route_PlacementStatus route == "active")) rs)).
Lemma active_served w rs w' bank : Banks w = (inr rs, w') -> In bank (active_of rs) <-> served config (w_control w) bank = true.
Proof.
  intros H. rewrite <- (served_routes _ _ _ _ H), existsb_exists. unfold active_of, sort_strings.
  rewrite <- list_elem_of_In, merge_sort_Permutation, list_elem_of_In, in_map_iff. unfold route_active. split.
  - intros (r & <- & Hin%filter_In). exists r. rewrite String.eqb_refl. cbn. tauto.
  - intros (r & Hin & Hr). rewrite <- andb_assoc, andb_true_iff, String.eqb_eq in Hr. exists r. rewrite filter_In. tauto.
Qed.
Definition admits (b : Batch) (u : DirectoryUser) : bool :=
  (DirectoryUser_Status u == "enabled") &&
  ((DirectoryUser_Role u == "issuer_operator") || (DirectoryUser_Role u == "bank_operator") && (DirectoryUser_EntityID u == Batch_BankID b)).
Lemma admits_vouched b w u w' : User (Batch_RequestedBy b) w = (inr u, w') -> admits b u = vouched (w_control w) b.
Proof. intros (row & Hr & ->)%User_inr. unfold vouched. by rewrite Hr. Qed.

(** ** A worker keeps its task *)

Definition told_user (b : Batch) (x : result DirectoryUser) : stage :=
  match x with inr u => Known (admits b u) | inl e => if errors_is e ErrNoRows then Refused else Unanswered end.
Definition told_routes (b : Batch) (admitted : bool) (x : result (list Route)) : stage :=
  match x with
  | inr rs => if admitted && existsb (route_active config (Batch_BankID b)) rs then Cleared else Refused
  | inl _ => Unanswered
  end.
Definition op_minds {X : Set} (t : task) (st : stage) (op : exec_op X) : (stage -> result X -> Prop) -> Prop :=
  match op in exec_op X return (stage -> result X -> Prop) -> Prop with
  | OpUser id => fun go => exists b, t = TaskBatch b /\ st = Held /\ id = Batch_RequestedBy b /\
      Batch_ItemCount b <= cf_BatchSizeCap config /\ forall x, go (told_user b x) x
  | OpBanks => fun go => exists b admitted, t = TaskBatch b /\ st = Known admitted /\ forall x, go (told_routes b admitted x) x
  | OpApplyBatch b o => fun go => t = TaskBatch b /\ st = Cleared /\ o = cf_Identity config /\ forall x, go (tried x) x
  | OpApplyExpiryItem i o => fun go => t = TaskExpiry i /\ st = Held /\ o = cf_Identity config /\ forall x, go (tried x) x
  | OpRequeueBatch b o c d => fun go => ends config t st (CallRequeueBatch b o c d) /\ forall x, go Over x
  | OpFailBatch b o c => fun go => ends config t st (CallFailBatch b o c) /\ forall x, go Over x
  | OpRequeueExpiryItem i o d => fun go => ends config t st (CallRequeueExpiryItem i o d) /\ forall x, go Over x
  | OpFailExpiryItem i o => fun go => ends config t st (CallFailExpiryItem i o) /\ forall x, go Over x
  | _ => fun _ => False
  end.
Fixpoint minds (t : task) (st : stage) (q : prog unit) : Prop :=
  match q with
  | Ret _ => False
  | @Act _ X a k =>
      (match a in action X return (X -> Prop) -> (stage -> X -> Prop) -> Prop with
       | AStore op => fun _ go => op_minds t st op go
       | ACount _ _ => fun _ go => go st tt
       | ARelease bank => fun over _ => bank = task_bank t /\ st = Over /\ over tt
       | _ => fun _ _ => False
       end) (fun x => k x = Ret tt) (fun st' x => minds t st' (k x))
  end.

Lemma release_minds t : minds t Over (act (ARelease (task_bank t))).
Proof. by cbn. Qed.
(** A failure or a requeue, a counter, and the release. *)
Lemma fail_minds b st code :
  ends config (TaskBatch b) st (CallFailBatch b (cf_Identity config) code) ->
  minds (TaskBatch b) st (fail_batch_with config b code ≫= fun _ => act (ARelease (Batch_BankID b))).
Proof. intros H. split; [exact H|]. intros x. by cbn. Qed.
Lemma retry_minds b st code :
  st = Unanswered /\ code = "control_unavailable" \/ st = Tried true /\ code = "dependency_unavailable" ->
  minds (TaskBatch b) st (retryBatch config b code ≫= fun _ => act (ARelease (Batch_BankID b))).
Proof.
  intros H. unfold retryBatch. destruct (cf_BatchMaxAttempts config <=? Batch_AttemptCount b) eqn:E.
  - apply fail_minds. constructor; [naive_solver|by apply Z.leb_le].
  - apply Z.leb_gt in E. split; [destruct H as [[-> ->]|[-> ->]]; by constructor|]. intros [e|x]; by cbn.
Qed.
Ltac thread := cbn [prog_mbind mbind prog_bind mret prog_mret told_user told_routes tried negb andb orb].
Ltac refuse b := apply (fail_minds b Refused "authorization_revoked"); constructor.
Ltac unanswer b := apply (retry_minds b Unanswered "control_unavailable"); by left.
Lemma worker_minds t : minds t Held (worker config t).
Proof.
  destruct t as [b|i]; unfold worker, runBatch, runExpiry.
  - unfold batch_work. destruct (cf_BatchSizeCap config <? Batch_ItemCount b) eqn:Ecap.
    { apply fail_minds. constructor. left. split; [done|by apply Z.ltb_lt]. }
    apply Z.ltb_ge in Ecap. exists b. repeat (split; [done|]). intros [e|u]; thread.
    { destruct (errors_is e ErrNoRows); thread; [refuse b|unanswer b]. }
    exists b, (admits b u). split; [done|]. split; [done|]. intros [e|rs]; thread; [unanswer b|]. unfold admits.
    destruct (DirectoryUser_Status u == "enabled"); thread; [|refuse b].
    destruct (String.eqb_spec (DirectoryUser_Role u) "bank_operator") as [Hb|_],
      (String.eqb_spec (DirectoryUser_Role u) "issuer_operator") as [Hi|_]; [by rewrite Hb in Hi|..];
      destruct (DirectoryUser_EntityID u == Batch_BankID b); thread; try refuse b;
      (destruct (existsb _ rs); thread; [|refuse b]);
      (split; [done|]; split; [done|]; split; [done|]; intros [e|[]]; thread; [|by cbn]);
      (destruct (errors_is e ErrRetryable || IsTransient e); [apply (retry_minds b (Tried true)); by right|]);
      (destruct (errors_is e ErrStale); [by cbn|apply (fail_minds b (Tried false) "invalid_transition"); constructor; by right]).
  - split; [done|]. split; [done|]. split; [done|]. intros [e|[]]; thread; [|by cbn].
    destruct (errors_is e ErrRetryable || IsTransient e).
    { split; [constructor|]. intros [e'|x]; by cbn. }
    destruct (errors_is e ErrStale); [by cbn|]. split; [constructor|]. intros x. by cbn.
Qed.

(** ** The loop claims only for the banks it read *)

(** The loop knows the banks [bs] and the day [d]; it may hold a slot [h], or a
    claimed task [pend] whose goroutine it has still to start. *)
Definition op_leads {X : Set} (bs : list string) (d : Z) (h : option string) (pend : option task) (op : exec_op X) :
    (list string -> option string -> option task -> result X -> Prop) -> Prop :=
  match op in exec_op X return (list string -> option string -> option task -> result X -> Prop) -> Prop with
  | OpBanks => fun go => forall x, go (match x with inr rs => active_of rs | inl _ => bs end) h pend x
  | OpEnsureExpiryRun bank today o => fun go => maintains config bs d (CallEnsureExpiryRun bank today o) /\ forall x, go bs h pend x
  | OpRecoverBatches c => fun go => maintains config bs d (CallRecoverBatches c) /\ forall x, go bs h pend x
  | OpRecoverExpiryItems c => fun go => maintains config bs d (CallRecoverExpiryItems c) /\ forall x, go bs h pend x
  | OpClaimBatch c => fun go => exists bank, h = Some bank /\ pend = None /\ In bank bs /\ c = claim_of config bank /\
      forall x, op_answers (OpClaimBatch c) x ->
        match x with inr (Some b) => go bs None (Some (TaskBatch b)) x | _ => go bs h None x end
  | OpClaimExpiryItem c => fun go => exists bank, h = Some bank /\ pend = None /\ In bank bs /\ c = claim_of config bank /\
      forall x, op_answers (OpClaimExpiryItem c) x ->
        match x with inr (Some i) => go bs None (Some (TaskExpiry i)) x | _ => go bs h None x end
  | _ => fun _ => False
  end.
Fixpoint leads {A} (bs : list string) (d : Z) (h : option string) (pend : option task) (p : prog A) : Prop :=
  match p with
  | Ret _ => h = None /\ pend = None
  | @Act _ X a k =>
      (match a in action X return (list string -> Z -> option string -> option task -> X -> Prop) -> Prop with
       | AStore op => fun go => op_leads bs d h pend op (fun bs' h' pend' x => go bs' d h' pend' x)
       | ANow => fun go => forall t, go bs (t / day * day) h pend t
       | AReserve bank => fun go => h = None /\ pend = None /\ go bs d (Some bank) None true /\ go bs d None None false
       | ARelease bank => fun go => h = Some bank /\ pend = None /\ go bs d None None tt
       | ARotate banks => fun go => forall x, x ≡ₚ banks -> go bs d h pend x
       | ACount _ _ => fun go => go bs d h pend tt
       | ASpawn t => fun go => h = None /\ pend = Some t /\ go bs d None None tt
       end) (fun bs' d' h' pend' x => leads bs' d' h' pend' (k x))
  end.

Lemma maintain_leads bs d : forall banks (f : result unit -> prog (result unit)),
  (forall bank, In bank banks -> In bank bs) -> (forall x, leads bs d None None (f x)) ->
  leads bs d None None (maintain config d banks ≫= f).
Proof.
  induction banks as [|bank rest IH]; intros f Hin Hf; [apply Hf|]. cbn [maintain].
  assert (Hb : In bank bs) by (apply Hin; by left).
  split; [by constructor|]. intros [e|[]]; thread; [apply Hf|].
  split; [by constructor|]. intros [e|n]; thread; [apply Hf|].
  split; [by constructor|]. intros [e|m]; thread; [apply Hf|]. apply IH; auto. intros b Hb'. apply Hin. by right.
Qed.
Lemma serve_expiry_leads bs d bank rest (f : result unit -> prog (result unit)) :
  In bank bs -> (forall x, leads bs d None None (f x)) -> leads bs d None None (rest ≫= f) ->
  leads bs d None None (serve_expiry config bank rest ≫= f).
Proof.
  intros Hb Hf Hrest. split; [done|]. split; [done|]. split; [|exact Hrest]. thread.
  exists bank. repeat (split; [done|]). intros [e|[item|]] Hx; thread.
  - split; [done|]. split; [done|]. apply Hf.
  - split; [done|]. split; [done|]. exact Hrest.
  - split; [done|]. split; [done|]. exact Hrest.
Qed.
Lemma serve_leads bs d : forall banks (f : result unit -> prog (result unit)),
  (forall bank, In bank banks -> In bank bs) -> (forall x, leads bs d None None (f x)) ->
  leads bs d None None (serve config banks ≫= f).
Proof.
  induction banks as [|bank rest IH]; intros f Hin Hf; [apply Hf|].
  assert (Hb : In bank bs) by (apply Hin; by left).
  assert (Hrest : leads bs d None None (serve config rest ≫= f)) by (apply IH; auto; intros b Hb'; apply Hin; by right).
  pose proof (serve_expiry_leads bs d bank _ f Hb Hf Hrest) as Hexp.
  split; [done|]. split; [done|]. split; [|exact Hrest]. thread.
  exists bank. repeat (split; [done|]). intros [e|[b|]] Hx; thread.
  - split; [done|]. split; [done|]. apply Hf.
  - split; [done|]. split; [done|]. exact Hexp.
  - split; [done|]. split; [done|]. exact Hexp.
Qed.
Lemma cycle_leads bs d : leads bs d None None (cycle config).
Proof.
  intros [e|rs]; thread; [done|]. fold (active_of rs). intros t. thread.
  apply maintain_leads; [done|]. intros [e|[]]; thread; [done|]. intros banks Hp. thread.
  apply serve_leads; [intros bank Hb; by rewrite <- Hp|]. by intros [e|[]].
Qed.

(** ** The simulation *)

Definition held_slot (h : option string) : list string := match h with Some bank => [bank] | None => [] end.
Definition held_task (pend : option task) : list (task * stage) := match pend with Some t => [(t, Held)] | None => [] end.
Definition svc_bounded (s : service) : Prop :=
  sv_inFlight s <= Z.max 0 (cf_MaxClaims config) /\ forall b, by_bank s b <= Z.max 0 (cf_PerBankConcurrency config).
(** The service and what the executor promises: a task for each goroutine that
    has not given back its slot, and for the one to start. *)
Definition agree (s : service) (h : option string) (pend : option task) (l : list (option (task * stage))) (E : executor) : Prop :=
  ex_world E = sv_world s /\ svc_bounded s /\ ex_tasks E = omap id l ++ held_task pend /\
  slots_of [held_slot h; banks_of (ex_tasks E)] s.
Definition matches (o : option (task * stage)) (q : prog unit) : Prop :=
  match o with None => q = Ret tt | Some (t, st) => minds t st q end.
Definition leads_loop (bs : list string) (d : Z) (h : option string) (pend : option task) (lp : loop) : Prop :=
  match lp with Cycling p => leads bs d h pend p | _ => h = None /\ pend = None end.
Definition related (y : system) (E : executor) : Prop :=
  exists h pend l, agree (sy_service y) h pend l E /\ leads_loop (ex_banks E) (ex_day E) h pend (sy_loop y) /\
    Forall2 matches l (sy_workers y).

Abbreviation estep := (ex_step config outside).
Abbreviation erun := (ex_run config outside).
Lemma ex_one E log E' : estep E log E' -> erun E log E'.
Proof. intros H. apply (ex_snoc _ _ _ [] E log E'); [constructor|exact H]. Qed.
Lemma banks_of_app ts ts' : banks_of (ts ++ ts') = banks_of ts ++ banks_of ts'.
Proof. apply List.map_app. Qed.

Lemma banks_of_cons t ts : banks_of (t :: ts) = task_bank t.1 :: banks_of ts.
Proof. done. Qed.

(** A bounded service with a slot reserved has room. *)
Lemma reserved_room bank ts s : svc_bounded s -> slots_of [[bank]; banks_of ts] s -> room config bank ts.
Proof.
  intros [Hn Hb] [Hn' Hb']. specialize (Hb bank). rewrite Hb' in Hb. rewrite Hn' in Hn.
  cbn [concat] in *. rewrite app_nil_r in *. cbn [app length] in Hn. unfold banks_of in Hn. rewrite length_map in Hn.
  cbn [app] in Hb. rewrite count_occ_cons_eq in Hb by done. split; lia.
Qed.
Lemma advance_bound {A} (p : prog A) s p' s' started hs :
  advance config p s = Some (p', s', started) -> slots_of hs s -> svc_bounded s -> svc_bounded s'.
Proof. intros Ha [_ Hc] Hb. eapply advance_bounded; [exact Ha| |exact Hb]. intros b. rewrite Hc. lia. Qed.
Lemma agree_world s s' h pend l E w E' :
  agree s h pend l E -> sv_world s' = w -> svc_bounded s' -> sv_inFlight s' = sv_inFlight s -> sv_byBank s' = sv_byBank s ->
  ex_world E' = w -> ex_tasks E' = ex_tasks E -> agree s' h pend l E'.
Proof.
  intros (_ & _ & Ht & Hs) Hw Hb H1 H2 Hw' Ht'. split; [congruence|]. split; [done|]. rewrite Ht'. split; [done|].
  by eapply slots_of_same; [..|exact Hs].
Qed.
Lemma rotate_perm banks s : (rotate banks s).1 ≡ₚ banks.
Proof. unfold rotate. destruct (_ <? 2); [done|]. cbn. by rewrite Permutation_app_comm, take_drop. Qed.

Lemma loop_store {X : Set} (op : exec_op X) s h pend l E x w' go :
  agree s h pend l E -> run_op op (sv_world s) = (x, w') -> svc_bounded (s <| sv_world := w' |>) ->
  op_leads (ex_banks E) (ex_day E) h pend op go ->
  exists E' h' pend', erun E [(sv_world s, deed_of false op, w')] E' /\ agree (s <| sv_world := w' |>) h' pend' l E' /\
    ex_day E' = ex_day E /\ go (ex_banks E') h' pend' x.
Proof.
  intros Hag E1 Hb' Hgo. pose proof (run_op_answers op (sv_world s)) as Hans. rewrite E1 in Hans. cbn [fst] in Hans.
  pose proof Hag as (Hw & Hb & Ht & Hs). destruct E as [w bs d ts]. cbn [ex_world ex_banks ex_day ex_tasks] in *. subst w.
  assert (Hkeep : forall bs', agree (s <| sv_world := w' |>) h pend l (Executor w' bs' d ts)).
  { intros bs'. by eapply agree_world; [exact Hag|..]. }
  destruct op; cbn [op_leads run_op deed_of] in *; try done.
  - destruct Hgo as (bank & -> & -> & Hin & -> & Hgo). specialize (Hgo x Hans).
    pose proof (reserved_room _ _ _ Hb Hs) as Hroom.
    assert (Hstep := ex_claim_batch config outside _ bs d ts bank x w' Hin Hroom E1). destruct x as [e|[b|]].
    + rewrite app_nil_r in Hstep. do 3 eexists. split; [exact (ex_one _ _ _ Hstep)|]. split; [apply Hkeep|]. split; [done|first [exact Hgo|apply Hgo]].
    + do 3 eexists. split; [exact (ex_one _ _ _ Hstep)|]. split; [|split; [reflexivity|exact Hgo]].
      split; [done|]. split; [done|]. cbn [ex_tasks held_task]. split; [by rewrite Ht, app_nil_r|].
      eapply slots_of_perm; [|by eapply slots_of_same; [..|exact Hs]]. cbn. rewrite banks_of_app. cbn.
      rewrite (Hans b eq_refl). cbn. rewrite !app_nil_r. apply Permutation_cons_append.
    + rewrite app_nil_r in Hstep. do 3 eexists. split; [exact (ex_one _ _ _ Hstep)|]. split; [apply Hkeep|]. split; [done|first [exact Hgo|apply Hgo]].
  - destruct Hgo as [Hc Hgo]. do 3 eexists. split; [pose proof (ex_one _ _ _ (ex_maintain config outside (sv_world s) bs d ts _ Hc)) as Hrun; cbn [after] in Hrun; rewrite E1 in Hrun; exact Hrun|].
    split; [apply Hkeep|]. split; [done|first [exact Hgo|apply Hgo]].
  - destruct Hgo as [Hc Hgo]. do 3 eexists. split; [pose proof (ex_one _ _ _ (ex_maintain config outside (sv_world s) bs d ts _ Hc)) as Hrun; cbn [after] in Hrun; rewrite E1 in Hrun; exact Hrun|].
    split; [apply Hkeep|]. split; [done|first [exact Hgo|apply Hgo]].
  - destruct Hgo as [Hc Hgo]. do 3 eexists. split; [pose proof (ex_one _ _ _ (ex_maintain config outside (sv_world s) bs d ts _ Hc)) as Hrun; cbn [after] in Hrun; rewrite E1 in Hrun; exact Hrun|].
    split; [apply Hkeep|]. split; [done|first [exact Hgo|apply Hgo]].
  - destruct Hgo as (bank & -> & -> & Hin & -> & Hgo). specialize (Hgo x Hans).
    pose proof (reserved_room _ _ _ Hb Hs) as Hroom.
    assert (Hstep := ex_claim_item config outside _ bs d ts bank x w' Hin Hroom E1). destruct x as [e|[i|]].
    + rewrite app_nil_r in Hstep. do 3 eexists. split; [exact (ex_one _ _ _ Hstep)|]. split; [apply Hkeep|]. split; [done|first [exact Hgo|apply Hgo]].
    + do 3 eexists. split; [exact (ex_one _ _ _ Hstep)|]. split; [|split; [reflexivity|exact Hgo]].
      split; [done|]. split; [done|]. cbn [ex_tasks held_task]. split; [by rewrite Ht, app_nil_r|].
      eapply slots_of_perm; [|by eapply slots_of_same; [..|exact Hs]]. cbn. rewrite banks_of_app. cbn.
      rewrite (Hans i eq_refl). cbn. rewrite !app_nil_r. apply Permutation_cons_append.
    + rewrite app_nil_r in Hstep. do 3 eexists. split; [exact (ex_one _ _ _ Hstep)|]. split; [apply Hkeep|]. split; [done|first [exact Hgo|apply Hgo]].
  - specialize (Hgo x). destruct x as [e|rs].
    + do 3 eexists. split; [eapply ex_one, ex_directory_fails, E1|]. split; [apply Hkeep|]. split; [done|first [exact Hgo|apply Hgo]].
    + do 3 eexists. split; [eapply ex_one, ex_directory; [exact E1|intros bank; by eapply active_served]|]. split; [apply Hkeep|]. split; [done|first [exact Hgo|apply Hgo]].
Qed.

Lemma loop_sim s h pend l E (p : prog (result unit)) p' s' started :
  agree s h pend l E -> leads (ex_banks E) (ex_day E) h pend p -> advance config p s = Some (p', s', started) ->
  exists E' h' pend' l', erun E (entry s (next_deed false p) s') E' /\ agree s' h' pend' (l ++ l') E' /\
    leads (ex_banks E') (ex_day E') h' pend' p' /\ Forall2 matches l' (List.map (worker config) started).
Proof.
  intros Hag Hp Ha. pose proof Hag as (Hw & Hb & Ht & Hs). pose proof (advance_bound _ _ _ _ _ _ Ha Hs Hb) as Hb'.
  assert (Hstill : forall h' pend', next_deed false p = None -> agree s' h' pend' l E -> started = [] -> leads (ex_banks E) (ex_day E) h' pend' p' ->
    exists E' h' pend' l', erun E (entry s (next_deed false p) s') E' /\ agree s' h' pend' (l ++ l') E' /\
      leads (ex_banks E') (ex_day E') h' pend' p' /\ Forall2 matches l' (List.map (worker config) started)).
  { intros h' pend' -> Hag' -> Hp'. exists E, h', pend', []. rewrite app_nil_r. split; [constructor|]. split; [done|]. split; [done|constructor]. }
  destruct p as [a|X a k]; [done|]. cbn [advance leads next_deed] in *.
  destruct a as [X op| |bank|bank|banks|c n|t]; cbn [do_action] in Ha.
  - destruct (run_op op (sv_world s)) as [x w'] eqn:E1. injection Ha as <- <- <-.
    destruct (loop_store op s h pend l E x w' _ Hag E1 Hb' Hp) as (E' & h' & pend' & Hrun & Hag' & Hd & Hp').
    exists E', h', pend', []. rewrite app_nil_r, Hd. split; [done|]. split; [done|]. split; [done|constructor].
  - injection Ha as <- <- <-. destruct E as [w bs d ts]. cbn in *. subst w.
    exists (Executor (sv_world s) bs (w_clock (sv_world s) / day * day) ts), h, pend, []. rewrite app_nil_r.
    split; [apply ex_one, ex_new_day|]. split; [|split; [apply Hp|constructor]].
    by eapply agree_world; [exact Hag|..].
  - destruct Hp as (-> & -> & H1 & H2). destruct (reserve config bank s) as [ok s1] eqn:E1. injection Ha as <- <- <-.
    unfold reserve in E1. destruct (_ || _); injection E1 as <- <-; [by apply (Hstill None None eq_refl)|].
    apply (Hstill (Some bank) None eq_refl); [|done|done]. split; [done|]. split; [done|]. split; [done|].
    by apply (reserve_slots bank [] [banks_of (ex_tasks E)]).
  - destruct Hp as (-> & -> & Hp). injection Ha as <- <- <-. apply (Hstill None None eq_refl); [|done|done].
    split; [done|]. split; [done|]. split; [done|]. by apply release_slots.
  - pose proof (rotate_perm banks s) as Hperm. destruct (rotate banks s) as [x s1] eqn:E1. injection Ha as <- <- <-.
    apply (Hstill h pend eq_refl); [|done|by apply Hp].
    unfold rotate in E1. destruct (_ <? 2); injection E1 as _ <-; by eapply agree_world; [exact Hag|..].
  - injection Ha as <- <- <-. apply (Hstill h pend eq_refl); [|done|done]. by eapply agree_world; [exact Hag|..].
  - destruct Hp as (-> & -> & Hp). injection Ha as <- <- <-. exists E, None, None, [Some (t, Held)].
    split; [constructor|]. split; [|split; [exact Hp|constructor; [apply worker_minds|constructor]]].
    split; [done|]. split; [done|]. split; [|done]. rewrite Ht, omap_app. cbn. by rewrite app_nil_r.
Qed.

(** A task is alike in the list of the tasks. *)
Lemma tasks_at l1 o l2 pend : omap id (l1 ++ Some o :: l2) ++ held_task pend = omap id l1 ++ (o : task * stage) :: (omap id l2 ++ held_task pend).
Proof. rewrite omap_app. cbn. by rewrite <- app_assoc. Qed.
Lemma worker_store {X : Set} (op : exec_op X) s h pend l1 t st l2 E x w' go :
  agree s h pend (l1 ++ Some (t, st) :: l2) E -> run_op op (sv_world s) = (x, w') -> svc_bounded (s <| sv_world := w' |>) ->
  op_minds t st op go ->
  exists E' st', erun E [(sv_world s, deed_of true op, w')] E' /\ agree (s <| sv_world := w' |>) h pend (l1 ++ Some (t, st') :: l2) E' /\
    ex_banks E' = ex_banks E /\ ex_day E' = ex_day E /\ go st' x.
Proof.
  intros Hag E1 Hb' Hgo. pose proof Hag as (Hw & Hb & Ht & Hs). destruct E as [w bs d ts].
  cbn [ex_world ex_banks ex_day ex_tasks] in *. subst w. rewrite tasks_at in Ht. subst ts.
  set (ts1 := omap id l1) in *. set (ts2 := omap id l2 ++ held_task pend) in *.
  assert (Hnew : forall st', estep (Executor (sv_world s) bs d (ts1 ++ (t, st) :: ts2)) [(sv_world s, deed_of true op, w')] (Executor w' bs d (ts1 ++ (t, st') :: ts2)) ->
    go st' x -> exists E' st', erun (Executor (sv_world s) bs d (ts1 ++ (t, st) :: ts2)) [(sv_world s, deed_of true op, w')] E' /\
      agree (s <| sv_world := w' |>) h pend (l1 ++ Some (t, st') :: l2) E' /\ ex_banks E' = bs /\ ex_day E' = d /\ go st' x).
  { intros st' Hstep Hx. exists (Executor w' bs d (ts1 ++ (t, st') :: ts2)), st'. split; [by apply ex_one|].
    split; [|done]. split; [done|]. split; [done|]. cbn [ex_tasks]. split; [by rewrite tasks_at|].
    eapply slots_of_perm; [|by eapply slots_of_same; [..|exact Hs]]. cbn. unfold banks_of. rewrite !List.map_app. done. }
  assert (Hend : forall c, ends config t st c -> (run_op op (sv_world s)).2 = after c (sv_world s) ->
    estep (Executor (sv_world s) bs d (ts1 ++ (t, st) :: ts2)) [(sv_world s, Called c, w')] (Executor w' bs d (ts1 ++ (t, Over) :: ts2))).
  { intros c Hc Hw. rewrite E1 in Hw. cbn in Hw. rewrite Hw. by constructor. }
  destruct op; cbn [op_minds run_op deed_of] in *; try done.
  - destruct Hgo as (-> & -> & -> & Hgo). eapply Hnew; [by eapply ex_apply|apply Hgo].
  - destruct Hgo as [Hc Hgo]. eapply Hnew; [by eapply Hend|apply Hgo].
  - destruct Hgo as [Hc Hgo]. eapply Hnew; [by eapply Hend|apply Hgo].
  - destruct Hgo as (-> & -> & -> & Hgo). eapply Hnew; [by eapply ex_expire|apply Hgo].
  - destruct Hgo as [Hc Hgo]. eapply Hnew; [by eapply Hend|apply Hgo].
  - destruct Hgo as [Hc Hgo]. eapply Hnew; [by eapply Hend|apply Hgo].
  - destruct Hgo as (b & -> & -> & -> & Hcap & Hgo). specialize (Hgo x). eapply Hnew; [|exact Hgo].
    pose proof (ex_user config outside (sv_world s) bs d ts1 b ts2 x w' Hcap E1) as Hstep.
    destruct x as [e|u]; [exact Hstep|]. cbn [told_user]. by rewrite (admits_vouched _ _ _ _ E1).
  - destruct Hgo as (b & g & -> & -> & Hgo). specialize (Hgo x). eapply Hnew; [|exact Hgo].
    pose proof (ex_route config outside (sv_world s) bs d ts1 b g ts2 x w' E1) as Hstep.
    destruct x as [e|rs]; [exact Hstep|]. cbn [told_routes]. by rewrite (served_routes _ _ _ _ E1).
Qed.

Lemma worker_sim s h pend l1 t st l2 E (q : prog unit) q' s' started :
  agree s h pend (l1 ++ Some (t, st) :: l2) E -> minds t st q -> advance config q s = Some (q', s', started) ->
  started = [] /\ exists E' o, erun E (entry s (next_deed true q) s') E' /\ agree s' h pend (l1 ++ o :: l2) E' /\
    ex_banks E' = ex_banks E /\ ex_day E' = ex_day E /\ matches o q'.
Proof.
  intros Hag Hq Ha. pose proof Hag as (Hw & Hb & Ht & Hs). pose proof (advance_bound _ _ _ _ _ _ Ha Hs Hb) as Hb'.
  destruct q as [r|X a k]; [done|]. cbn [advance minds next_deed] in *.
  destruct a as [X op| |bank|bank|banks|c n|tk]; cbn [do_action] in Ha; try done.
  - destruct (run_op op (sv_world s)) as [x w'] eqn:E1. injection Ha as <- <- <-. split; [done|].
    destruct (worker_store op s h pend l1 t st l2 E x w' _ Hag E1 Hb' Hq) as (E' & st' & ? & ? & ? & ? & ?).
    exists E', (Some (t, st')). auto 10.
  - destruct Hq as (-> & -> & Hk). injection Ha as <- <- <-. split; [done|]. destruct E as [w bs d ts].
    cbn [ex_world ex_banks ex_day ex_tasks] in *. subst w. rewrite tasks_at in Ht. subst ts.
    exists (Executor (sv_world s) bs d (omap id l1 ++ (omap id l2 ++ held_task pend))), None.
    split; [apply ex_one, ex_over|]. split; [|done]. split; [done|]. split; [done|]. cbn [ex_tasks].
    split; [rewrite omap_app; cbn; by rewrite <- app_assoc|].
    apply release_slots. eapply slots_of_perm; [|exact Hs]. cbn [concat].
    rewrite !banks_of_app, banks_of_cons, !banks_of_app, !app_nil_r. cbn [fst]. solve_Permutation.
  - injection Ha as <- <- <-. split; [done|]. exists E, (Some (t, st)). split; [constructor|]. split; [|done].
    by eapply agree_world; [exact Hag|..].
Qed.

Lemma step_sim a y y' E : related y E -> sys_step config outside a y y' -> exists E', erun E (entry (sy_service y) (deed_by y a) (sy_service y')) E' /\ related y' E'.
Proof.
  intros (h & pend & l & Hag & Hl & Hw) Hstep.
  destruct Hstep as [s c p ws p' s' started Ha|s c r ws|s c ws|s ws|s c since|s c since ws Ht|s c lp ws
    |s c lp ws1 q ws2 q' s' started Ha|s c lp ws1 ws2|s c lp ws w Ho]; cbn [sy_service sy_loop sy_workers deed_by] in *.
  - destruct (loop_sim _ _ _ _ _ _ _ _ _ Hag Hl Ha) as (E' & h' & pend' & l' & Hrun & Hag' & Hl' & Hw').
    exists E'. split; [done|]. exists h', pend', (l ++ l'). split; [done|]. split; [done|]. by apply Forall2_app.
  - exists E. split; [constructor|]. exists h, pend, l. split; [done|]. split; [|done]. cbn in *.
    unfold after_cycle. destruct r as [e|]; [destruct (negb _)|]; exact Hl.
  - destruct Hl as [-> ->]. exists E. split; [constructor|]. exists None, None, l. split; [done|]. split; [apply cycle_leads|done].
  - exists E. split; [constructor|]. by exists h, pend, l.
  - exists E. split; [constructor|]. by exists h, pend, l.
  - exists E. split; [constructor|]. by exists h, pend, l.
  - exists E. split; [constructor|]. by exists h, pend, l.
  - apply Forall2_app_inv_r in Hw as (l1 & l2' & Hw1 & Hw2 & ->). inversion Hw2 as [|o ? l2 ? Hq Hw3]; subst.
    destruct o as [[t st]|]; [|by cbn in Hq; subst q].
    destruct (worker_sim _ _ _ _ _ _ _ _ _ _ _ _ Hag Hq Ha) as (-> & E' & o & Hrun & Hag' & Hb & Hd & Ho).
    exists E'. rewrite list_lookup_middle by done. split; [exact Hrun|]. exists h, pend, (l1 ++ o :: l2). rewrite Hb, Hd. split; [done|]. split; [done|].
    cbn. rewrite app_nil_r. apply Forall2_app; [done|]. by constructor.
  - apply Forall2_app_inv_r in Hw as (l1 & l2' & Hw1 & Hw2 & ->). inversion Hw2 as [|o ? l2 ? Hq Hw3]; subst.
    destruct o as [[t st]|]; [done|]. exists E. split; [constructor|]. exists h, pend, (l1 ++ l2).
    split; [|split; [done|by apply Forall2_app]]. destruct Hag as (? & ? & Ht & ?). split; [done|]. split; [done|]. split; [|done].
    rewrite Ht, !omap_app. done.
  - destruct E as [w0 bs d ts]. pose proof Hag as (Hwd & Hb & _). cbn in Hwd. subst w0. exists (Executor w bs d ts). split; [by apply ex_one, ex_outside|].
    exists h, pend, l. split; [|done]. by eapply agree_world; [exact Hag|..].
Qed.
Lemma ex_run_trans E1 log1 E2 log2 E3 : erun E1 log1 E2 -> erun E2 log2 E3 -> erun E1 (log1 ++ log2) E3.
Proof.
  intros H1 H2. induction H2 as [E|E log2 E2' log3 E3 H2 IH Hstep]; [by rewrite app_nil_r|].
  rewrite app_assoc. econstructor; [by apply IH|done].
Qed.
Lemma run_sim log y y' : logged config outside log y y' -> forall E, related y E -> exists E', erun E log E' /\ related y' E'.
Proof.
  induction 1 as [y|a y1 y2 log y3 Hstep Hrun IH]; intros E HE; [exists E; split; [constructor|done]|].
  destruct (step_sim _ _ _ _ HE Hstep) as (E1 & H1 & HE1). destruct (IH E1 HE1) as (E2 & H2 & HE2).
  exists E2. split; [by eapply ex_run_trans|done].
Qed.
Lemma start_related w : related (Run config w) (Executor w [] 0 []).
Proof.
  exists None, None, []. split; [|split; [apply cycle_leads|constructor]]. split; [done|]. split; [|split; [done|]].
  - split; cbn; [lia|]. intros b. unfold by_bank. cbn. rewrite lookup_empty. cbn. lia.
  - split; [done|]. intros b. done.
Qed.
End Refinement.

(** The calls of an executor are a run of the system of store calls. *)
Lemma step_steps config w0 log0 E l E' :
  ex_step config elsewhere E l E' -> steps w0 log0 (ex_world E) -> w_shard_tx (ex_world E) = None ->
  steps w0 (log0 ++ calls l) (ex_world E') /\ w_shard_tx (ex_world E') = None.
Proof.
  assert (Hsame : forall w w', shard_same w w' -> steps w0 log0 w -> w_shard_tx w = None -> steps w0 (log0 ++ []) w' /\ w_shard_tx w' = None).
  { intros w w' (Hsh & Htx & Hck) Hs Hn. rewrite app_nil_r. split; [|congruence].
    apply (steps_other _ _ w _ ""); [done| |congruence|done]. rewrite Hsh. reflexivity. }
  assert (Hcall : forall c w w', after c w = w' -> steps w0 log0 w -> w_shard_tx w = None ->
    steps w0 (log0 ++ [(w, c, w')]) w' /\ w_shard_tx w' = None).
  { intros c w w' <- Hs Hn. split; [by constructor|by apply after_closes]. }
  intros Hstep Hs Hn. destruct Hstep; cbn [ex_world calls omap list_omap fst snd] in *.
  - eapply Hsame; eauto using Banks_reads.
  - eapply Hsame; eauto using Banks_reads.
  - eapply Hsame; eauto. reflexivity.
  - by apply Hcall.
  - apply Hcall; [|done|done]. cbn [after]. by rewrite H1.
  - apply Hcall; [|done|done]. cbn [after]. by rewrite H1.
  - eapply Hsame; eauto using User_reads.
  - eapply Hsame; eauto using Banks_reads.
  - apply Hcall; [|done|done]. cbn [after]. by rewrite H.
  - apply Hcall; [|done|done]. cbn [after]. by rewrite H.
  - by apply Hcall.
  - eapply Hsame; eauto. reflexivity.
  - destruct H as (bank & Hle & Htx & Hck). rewrite app_nil_r. split; [by eapply steps_other|done].
Qed.
Lemma ex_run_steps config E l E' :
  ex_run config elsewhere E l E' -> w_shard_tx (ex_world E) = None ->
  steps (ex_world E) (calls l) (ex_world E') /\ w_shard_tx (ex_world E') = None.
Proof.
  induction 1 as [E|E l1 E1 l2 E2 _ IH Hstep]; intros Hn; [split; [constructor|done]|].
  destruct (IH Hn) as [Hs Hn1]. unfold calls. rewrite omap_app. by eapply step_steps.
Qed.

(** C15: whatever is seen of an executor from its start, in whatever interleaving
    of the loop, its goroutines and the other programs at work, is what an
    executor promises: the same calls and questions, in the same order and
    between the same worlds, are a run of [ex_step].  So it claims, under its own
    name, only for banks that the directory said this shard serves, and only
    while fewer tasks than the limits are at work; it asks for the requester of a
    batch it claimed that is within the cap, then for its bank, and applies the
    batch only when both admit it; it applies a task at most once, and then or
    instead requeues it once, while attempts are left, after its backoff, or
    fails it once, for its reason, or leaves it when its lease is lost.  Its calls
    are a run of the system of store calls, of which batches settled once and
    stale claims without power were shown; and it has no more tasks than
    goroutines, and one to start. *)
Theorem executor_refines_system config l w y :
  logged config elsewhere l (Run config w) y -> w_shard_tx w = None ->
  exists E, ex_run config elsewhere (Executor w [] 0 []) l E /\ ex_world E = sv_world (sy_service y) /\
    steps w (calls l) (sv_world (sy_service y)) /\
    (length (ex_tasks E) <= length (sy_workers y) + match sy_loop y with Cycling _ => 1 | _ => 0 end)%nat.
Proof.
  intros Hrun Hn. destruct (run_sim config elsewhere _ _ _ Hrun _ (start_related config w)) as (E & He & Hrel).
  destruct Hrel as (h & pend & ts & (Hw & _ & Ht & _) & Hl & Hws). exists E. split; [done|]. split; [done|].
  split; [rewrite <- Hw; by apply (ex_run_steps config (Executor w [] 0 []))|].
  rewrite Ht, length_app. assert (Hlen : (length (omap id ts) <= length (sy_workers y))%nat).
  { clear -Hws. induction Hws as [|o q ts ws Hq Hws IH]; cbn; [lia|]. destruct o; cbn; lia. }
  destruct (sy_loop y); cbn in Hl; [destruct pend; cbn; lia|..]; destruct Hl as [_ ->]; cbn; lia.
Qed.

Lemma executor_refines_system_witness :
  exists l, logged toy_config elsewhere l (Run toy_config executor_world)
      (System loop_run.1.2 false (Cycling (Ret loop_run.1.1)) (List.map (worker toy_config) loop_run.2)) /\
    steps executor_world (calls l) (sv_world loop_run.1.2).
Proof.
  destruct (toy_run_steps elsewhere) as [tr Hrun]. destruct (sys_run_logged _ _ _ _ _ Hrun) as [l Hlog]. exists l. split; [exact Hlog|].
  destruct (executor_refines_system toy_config l executor_world _ Hlog eq_refl) as (E & _ & _ & Hs & _). exact Hs.
Defined.
