(* ===== verification/BatchStore.v ===== *)
(** * BatchStore: the card-status batches of the shard transaction

    The batch part of [internal/repository/shard/reader.go] and
    [batch_store.go]: reads, the draft of a batch with one queued operation and
    one pending item per card, and its execution, cancellation and retry. *)

From S2P Require Import Prelude Json Domain Stores Vault World ShardTx Guards ExecutorStore CardStore.
Open Scope string_scope.
Open Scope list_scope.
Open Scope Z_scope.

(** ** Reads *)

Definition reader_CardStatusBatches (bank : string) : M (list CardStatusBatch) :=
  beginTenant bank ;;
  with_defer shard_rollback (
    batches ← wrap "list card status batches" (shard_exec (query (fun _ db =>
      List.map (fun p => scanCardStatusBatch p.1 p.2) (newest_first ba_created_at (bank_rows bank (batches db))))));
    wrap "commit card status batch list" shard_commit ;;
    mret batches).

Definition select_batch (bank id : string) : sql shard_db (option CardStatusBatch) :=
  query (fun _ db => scanCardStatusBatch id <$> batches db !! (bank, id)).

Definition reader_CardStatusBatch (bank id : string) : M CardStatusBatch :=
  beginTenant bank ;;
  with_defer shard_rollback (
    r ← try (row (shard_exec (select_batch bank id)));
    match r with
    | inl err => if errors_is err ErrNoRows then throw ErrNotFound else throw (ErrWrap "get card status batch" err)
    | inr batch =>
        wrap "commit card status batch read" shard_commit ;;
        mret batch
    end).

(** The items joined with their batch, whose creation time they report. *)
Definition select_items (bank batch : string) : sql shard_db (list CardStatusBatchItem) :=
  query (fun _ db =>
    match batches db !! (bank, batch) with
    | None => []
    | Some b =>
        List.map (fun p => scanCardStatusBatchItem p.1 p.2 (ba_created_at b))
          (newest_first (fun _ => ba_created_at b) (items_of_batch bank batch db))
    end).

Definition reader_CardStatusBatchItems (bank batchID : string) : M (list CardStatusBatchItem) :=
  beginTenant bank ;;
  with_defer shard_rollback (
    exists_ ← wrap "check card status batch" (shard_exec (query (fun _ db =>
      bool_decide (is_Some (batches db !! (bank, batchID))))));
    if negb exists_ then throw ErrNotFound
    else
      items ← wrap "list card status batch items" (shard_exec (select_items bank batchID));
      wrap "commit card status batch item list" shard_commit ;;
      mret items).

(** [count( * ) = cardinality(ids)]: the rows of the bank named by the list. *)
Definition CardsExist (bank : string) (cardIDs : list string) : M bool :=
  shard_exec (query (fun _ db =>
    bool_decide (length (filter (fun p => p.1 ∈ cardIDs) (bank_rows bank (cards db))) = length cardIDs))).

Definition LockCardStatusBatch (bank id : string) : M CardStatusBatch :=
  r ← try (row (shard_exec (select_batch bank id)));
  match r with
  | inl err => if errors_is err ErrNoRows then throw ErrNotFound else throw err
  | inr batch => mret batch
  end.

(** ** Drafts *)

Definition batchOperationAction (targetStatus : string) : string :=
  if targetStatus == "active" then "activate"
  else if targetStatus == "suspended" then "suspend"
  else "close".

(** INSERT INTO bank.card_status_batches: the columns left out take their
    defaults (a draft without counts, lease or outcome). *)
Definition draft_row (target reason requested_by role entity request record : string) (count : Z)
    (retry_of : option string) (env : sql_env) : batch_row :=
  BatchRow target reason requested_by role (nullable entity) request record "draft" count 0 0 0 (now env)
    None None 0 None None None None retry_of (now env) (now env) requested_by requested_by.

(** One turn of the loop: the queued operation of a card and its item. *)
Definition insert_batch_item (bank batchID action reason actorID actorRole actorEntityID requestID : string)
    (createdAt : Z) (p : string * string) : M CardStatusBatchItem :=
  let '(cardID, operationID) := p in
  shard_exec (insert_operation bank operationID
    (operation_of cardID action "queued" reason requestID (user_actor actorID actorRole actorEntityID)
       None None (Some actorID))) ;;
  itemID ← row (shard_exec (insert_item bank batchID cardID operationID));
  mret (MkCardStatusBatchItem itemID cardID operationID None "pending" None createdAt).

Definition insertCardStatusBatchItems (bank batchID targetStatus reason : string) (cardIDs operationIDs : list string)
    (actorID actorRole actorEntityID requestID : string) (createdAt : Z) : M (list CardStatusBatchItem) :=
  if negb (Nat.eqb (length cardIDs) (length operationIDs)) then throw (ErrMsg "card and operation counts differ")
  else
    mapM_list (insert_batch_item bank batchID (batchOperationAction targetStatus) reason actorID actorRole
      actorEntityID requestID createdAt) (zip cardIDs operationIDs).

Definition CreateCardStatusBatchDraft (bank : string) (input : CardStatusBatchDraft)
    : M (CardStatusBatch * list CardStatusBatchItem) :=
  let count := Z.of_nat (length (CardStatusBatchDraft_CardIDs input)) in
  batch ← shard_exec (insert_batch bank (CardStatusBatchDraft_ID input)
    (draft_row (CardStatusBatchDraft_TargetStatus input) (CardStatusBatchDraft_Reason input)
       (CardStatusBatchDraft_ActorID input) (CardStatusBatchDraft_ActorRole input)
       (CardStatusBatchDraft_ActorEntityID input) (CardStatusBatchDraft_RequestID input)
       (CardStatusBatchDraft_IdempotencyRecordID input) count None));
  items ← insertCardStatusBatchItems bank (CardStatusBatchDraft_ID input) (CardStatusBatchDraft_TargetStatus input)
    (CardStatusBatchDraft_Reason input) (CardStatusBatchDraft_CardIDs input) (CardStatusBatchDraft_OperationIDs input)
    (CardStatusBatchDraft_ActorID input) (CardStatusBatchDraft_ActorRole input)
    (CardStatusBatchDraft_ActorEntityID input) (CardStatusBatchDraft_RequestID input) (CardStatusBatch_CreatedAt batch);
  shard_exec (insert_audit bank "card_status_batch.create" "card_status_batch" (CardStatusBatchDraft_ID input)
    "succeeded" (CardStatusBatchDraft_RequestID input)
    (user_actor (CardStatusBatchDraft_ActorID input) (CardStatusBatchDraft_ActorRole input)
       (CardStatusBatchDraft_ActorEntityID input))
    (JObj [("item_count", JNum count); ("target_status", JStr (CardStatusBatchDraft_TargetStatus input))])) ;;
  mret (batch, items).

(** ** Execution and cancellation *)

(** UPDATE ... RETURNING the batch. *)
Definition change_batch (bank id : string) (set : sql_env -> batch_row -> batch_row) : M CardStatusBatch :=
  row (shard_exec (returning (update_batch bank id (fun _ _ => true) set) (fun db =>
    scanCardStatusBatch id <$> batches db !! (bank, id)))).

Definition ExecuteCardStatusBatch (bank id actor role actorEntityID requestID : string) : M CardStatusBatch :=
  batch ← LockCardStatusBatch bank id;
  if CardStatusBatch_Status batch != "draft" then mret batch
  else
    batch ← change_batch bank id (fun env b =>
      b <| ba_status := "queued" |> <| ba_next_attempt_at := clock_timestamp env |> <| ba_updated_by := actor |>);
    shard_exec (insert_audit bank "card_status_batch.execute" "card_status_batch" id "succeeded" requestID
      (user_actor actor role actorEntityID) (JObj [])) ;;
    mret batch.

Definition CancelCardStatusBatch (bank id actor role actorEntityID requestID : string) : M CardStatusBatch :=
  batch ← LockCardStatusBatch bank id;
  if (CardStatusBatch_Status batch != "draft") && (CardStatusBatch_Status batch != "queued") then
    throw ErrBatchNotCancellable
  else
    batch ← change_batch bank id (fun env b =>
      b <| ba_status := "cancelled" |> <| ba_completed_at := Some (clock_timestamp env) |> <| ba_updated_by := actor |>);
    shard_exec (insert_audit bank "card_status_batch.cancel" "card_status_batch" id "succeeded" requestID
      (user_actor actor role actorEntityID) (JObj [])) ;;
    mret batch.

(** ** Retry *)

Definition RetryCardStatusBatch (bank sourceID : string) (input : CardStatusBatchRetry)
    : M (CardStatusBatch * list CardStatusBatchItem) :=
  source ← LockCardStatusBatch bank sourceID;
  if (CardStatusBatch_Status source != "failed") && (CardStatusBatch_Status source != "cancelled") then
    throw ErrBatchNotRetryable
  else
    cardIDs ← shard_exec (query (fun _ db =>
      sort_strings (List.map (fun p => it_card_id p.2) (items_of_batch bank sourceID db))));
    let count := CardStatusBatch_ItemCount source in
    if negb (Z.of_nat (length cardIDs) =? count)
       || negb (Z.of_nat (length (CardStatusBatchRetry_OperationIDs input)) =? count) then
      throw (ErrMsg "batch membership does not match its item count")
    else
      batch ← shard_exec (insert_batch bank (CardStatusBatchRetry_ID input)
        (draft_row (CardStatusBatch_TargetStatus source) (CardStatusBatch_Reason source)
           (CardStatusBatchRetry_ActorID input) (CardStatusBatchRetry_ActorRole input)
           (CardStatusBatchRetry_ActorEntityID input) (CardStatusBatchRetry_RequestID input)
           (CardStatusBatchRetry_IdempotencyRecordID input) count (Some sourceID)));
      items ← insertCardStatusBatchItems bank (CardStatusBatchRetry_ID input) (CardStatusBatch_TargetStatus source)
        (CardStatusBatch_Reason source) cardIDs (CardStatusBatchRetry_OperationIDs input)
        (CardStatusBatchRetry_ActorID input) (CardStatusBatchRetry_ActorRole input)
        (CardStatusBatchRetry_ActorEntityID input) (CardStatusBatchRetry_RequestID input) (CardStatusBatch_CreatedAt batch);
      shard_exec (insert_audit bank "card_status_batch.retry" "card_status_batch" (CardStatusBatchRetry_ID input)
        "succeeded" (CardStatusBatchRetry_RequestID input)
        (user_actor (CardStatusBatchRetry_ActorID input) (CardStatusBatchRetry_ActorRole input)
           (CardStatusBatchRetry_ActorEntityID input))
        (JObj [("item_count", JNum count); ("retry_of_batch_id", JStr sourceID)])) ;;
      mret (batch, items).
