(* ===== verification/BatchService.v ===== *)
(** * BatchService: the card-status batch workflows

    [internal/batch/service.go]: a batch is drafted for a set of cards, then
    executed or cancelled, and a failed or cancelled batch is drafted again.
    Every command is guarded by an idempotency record. *)

From S2P Require Import Prelude Json Domain Stores Uuid Vault World ShardTx Idempotency AuthTypes BatchStore.
Open Scope string_scope.
Open Scope list_scope.
Open Scope Z_scope.

Definition maxSize : nat := 200.
Definition batch_replayLifetime : Z := 7 * 24 * hour.

(** The [apiError] of the package. *)
Definition apiError (status : Z) (code detail : string) : error := ErrProblem status code detail.

(** ** Responses *)

(** [response]: the members of the batch, its items and the links. *)
Definition batch_response (batch : CardStatusBatch) (items : list CardStatusBatchItem) (links : list (string * string)) : json :=
  JObj (CardStatusBatch_members batch ++
        match items with [] => [] | _ => [("items", JArr (List.map CardStatusBatchItem_json items))] end ++
        [("links", JObj (List.map (fun p => (p.1, JStr p.2)) links))]).

Definition batch_json (bank : string) (batch : CardStatusBatch) (items : list CardStatusBatchItem) : json :=
  batch_response batch items
    [("execute", "/v1/banks/" +:+ bank +:+ "/card-status-batches/" +:+ CardStatusBatch_ID batch +:+ ":execute")].

Definition batch_marshalItems {A} (encode : A -> json) (m : M (list A)) : M (list json) :=
  items ← m; mret (List.map encode items).

(** ** The request *)

(** [ids[i-1] == ids[i]] somewhere. *)
Fixpoint adjacent_equal (ids : list string) : bool :=
  match ids with
  | a :: ((b :: _) as rest) => (a == b) || adjacent_equal rest
  | _ => false
  end.

(** The canonical request and the bytes its fingerprint is taken over. *)
Definition canonical_body (targetStatus reason : string) (ids : list string) : string :=
  json_encode (JObj [("target_status", JStr targetStatus); ("reason", JStr reason);
                     ("card_ids", JArr (List.map JStr ids))]).

Definition normalize (targetStatus reason : string) (cardIDs : list string) : result (list string * string) :=
  let targetStatus := trim_space targetStatus in
  let reason := trim_space reason in
  if (targetStatus != "active") && (targetStatus != "suspended") && (targetStatus != "closed") then
    inl (apiError 400 "invalid_request" "target_status must be active, suspended, or closed.")
  else if (reason == "") || Nat.eqb (length cardIDs) 0 || Nat.ltb maxSize (length cardIDs) then
    inl (apiError 400 "invalid_request" "reason and between 1 and 200 card_ids are required.")
  else if negb (forallb isCanonicalUUID cardIDs) then
    inl (apiError 400 "invalid_request" "card_ids must contain canonical UUIDs.")
  else
    let ids := sort_strings cardIDs in
    if adjacent_equal ids then inl (apiError 400 "invalid_request" "card_ids must not contain duplicates.")
    else inr (ids, canonical_body targetStatus reason ids).

Definition draw_batch_uuid : M string := b ← rand16; mret (batch_newUUID b).
Fixpoint newIDs (count : nat) : M (list string) :=
  match count with
  | O => mret []
  | S n => id ← draw_batch_uuid; ids ← newIDs n; mret (id :: ids)
  end.

(** ** Commands *)

Definition batchProblem (err : error) : error :=
  if errors_is err ErrNotFound then apiError 404 "not_found" "The requested resource does not exist."
  else if errors_is err ErrBatchNotCancellable then
    apiError 409 "batch_not_cancellable" "The batch cannot be cancelled after processing begins."
  else if errors_is err ErrBatchNotRetryable then
    apiError 409 "batch_not_retryable" "Only failed or cancelled batches may be retried."
  else err.

(** [return nil, batchProblem(err)] on the error path. *)
Definition or_problem {A} (m : M A) : M A :=
  r ← try m; match r with inl err => throw (batchProblem err) | inr a => mret a end.

Section Service.
Context (hmac : string -> string -> string) (fingerprinter : Fingerprinter).

Definition batch_claim (bank scope key body : string) : M ShardIdempotencyReplay :=
  now ← time_now;
  r ← try (ClaimIdempotency (MkShardIdempotencyClaim bank scope key (Fingerprint hmac fingerprinter body) now
             (now + batch_replayLifetime)));
  match r with
  | inl err =>
      if errors_is err ErrIdempotencyConflict then
        throw (apiError 409 "idempotency_conflict" "Idempotency-Key was previously used for a different request.")
      else throw err
  | inr replay => mret replay
  end.

(** [FinishIdempotency] and [Commit], the end of every command. *)
Definition finish_batch (bank scope key : string) (status : Z) (raw : json) (batchID user : string) : M unit :=
  FinishIdempotency bank scope key status raw batchID user ;;
  shard_commit.

(** [CreateCardStatusBatchWorkflow] after the key is claimed. *)
Definition create_claimed (principal : Principal) (bank scope key targetStatus reason : string) (canonicalIDs : list string)
    (recordID requestID : string) : M (json * Z) :=
  exists_ ← CardsExist bank canonicalIDs;
  if negb exists_ then throw (apiError 422 "invalid_card" "Every requested card must belong to the selected bank.")
  else
    batchID ← draw_batch_uuid;
    operationIDs ← newIDs (length canonicalIDs);
    bi ← CreateCardStatusBatchDraft bank (MkCardStatusBatchDraft batchID recordID (trim_space targetStatus)
           (trim_space reason) canonicalIDs operationIDs (Principal_UserID principal) (Principal_Role principal)
           (actorEntityID principal) requestID);
    finish_batch bank scope key 201 (batch_json bank bi.1 bi.2) (CardStatusBatch_ID bi.1) (Principal_UserID principal) ;;
    mret (batch_json bank bi.1 bi.2, 201).

Definition CreateCardStatusBatchWorkflow (principal : Principal) (bank key targetStatus reason : string)
    (cardIDs : list string) (requestID : string) : M (json * Z) :=
  cn ← of_result (normalize targetStatus reason cardIDs);
  let '(canonicalIDs, normalized) := cn in
  beginTenant bank ;;
  with_defer shard_rollback (
    let scope := "card-status-batches.create.actor." +:+ Principal_UserID principal in
    replay ← batch_claim bank scope key normalized;
    if ShardIdempotencyReplay_Found replay then
      mret (ShardIdempotencyReplay_Response replay, ShardIdempotencyReplay_Status replay)
    else
      create_claimed principal bank scope key targetStatus reason canonicalIDs (ShardIdempotencyReplay_RecordID replay)
        requestID).

Definition change (principal : Principal) (bank id key body requestID action : string) : M json :=
  beginTenant bank ;;
  with_defer shard_rollback (
    let scope := "card-status-batches." +:+ action +:+ "." +:+ id +:+ ".actor." +:+ Principal_UserID principal in
    replay ← batch_claim bank scope key body;
    if ShardIdempotencyReplay_Found replay then mret (ShardIdempotencyReplay_Response replay)
    else if (action != "execute") && (action != "cancel") then throw (ErrMsg ("unsupported batch action " +:+ encode_string action))
    else
      batch ← or_problem (
        (if action == "execute" then ExecuteCardStatusBatch else CancelCardStatusBatch)
          bank id (Principal_UserID principal) (Principal_Role principal) (actorEntityID principal) requestID);
      let raw := batch_json bank batch [] in
      let status := if action == "cancel" then 200 else 202 in
      finish_batch bank scope key status raw (CardStatusBatch_ID batch) (Principal_UserID principal) ;;
      mret raw).

Definition ExecuteCardStatusBatchWorkflow (principal : Principal) (bank id key body requestID : string) : M json :=
  change principal bank id key body requestID "execute".
Definition CancelCardStatusBatchWorkflow (principal : Principal) (bank id key body requestID : string) : M json :=
  change principal bank id key body requestID "cancel".

(** [RetryCardStatusBatchWorkflow] after the key is claimed. *)
Definition retry_claimed (principal : Principal) (bank id scope key recordID requestID : string) : M json :=
  batchID ← draw_batch_uuid;
  source ← or_problem (LockCardStatusBatch bank id);
  if (CardStatusBatch_Status source != "failed") && (CardStatusBatch_Status source != "cancelled") then
    throw (apiError 409 "batch_not_retryable" "Only failed or cancelled batches may be retried.")
  else
    operationIDs ← newIDs (Z.to_nat (CardStatusBatch_ItemCount source));
    bi ← or_problem (RetryCardStatusBatch bank id (MkCardStatusBatchRetry batchID recordID operationIDs
           (Principal_UserID principal) (Principal_Role principal) (actorEntityID principal) requestID));
    finish_batch bank scope key 201 (batch_json bank bi.1 bi.2) (CardStatusBatch_ID bi.1) (Principal_UserID principal) ;;
    mret (batch_json bank bi.1 bi.2).

Definition RetryCardStatusBatchWorkflow (principal : Principal) (bank id key body requestID : string) : M json :=
  beginTenant bank ;;
  with_defer shard_rollback (
    let scope := "card-status-batches.retry." +:+ id +:+ ".actor." +:+ Principal_UserID principal in
    replay ← batch_claim bank scope key body;
    if ShardIdempotencyReplay_Found replay then mret (ShardIdempotencyReplay_Response replay)
    else retry_claimed principal bank id scope key (ShardIdempotencyReplay_RecordID replay) requestID).
End Service.

(** ** Reads *)

Definition ListCardStatusBatches (bank : string) : M (list json) :=
  batch_marshalItems CardStatusBatch_json (reader_CardStatusBatches bank).
Definition GetCardStatusBatch (bank id : string) : M json :=
  value ← reader_CardStatusBatch bank id; mret (batch_json bank value []).
Definition ListCardStatusBatchItems (bank id : string) : M (list json) :=
  batch_marshalItems CardStatusBatchItem_json (reader_CardStatusBatchItems bank id).
