(* ===== verification/BatchSafety.v ===== *)
(** * BatchSafety: what a batch workflow leaves behind

    A drafted batch has one pending item and one queued operation per distinct
    card of the bank; execution, cancellation and retry follow the state of the
    batch; a failed workflow changes nothing. *)

From S2P Require Import Prelude Json Domain Stores Uuid Vault World ShardTx Guards ShardOrder ExecutorStore Idempotency AuthTypes CardStore CardService Scenario CardSafety BatchStore BatchService.
Open Scope string_scope.
Open Scope list_scope.
Open Scope Z_scope.

(** ** Frames *)

Section DbFrames.
Context (R : relation world) `{!DbRel R}.
Ltac go := frame_with ltac:(frame_leaf).

Lemma db_CardsExist b l : frames R (CardsExist b l).
Proof. unfold CardsExist. go. Qed.
Lemma db_LockBatch b i : frames R (LockCardStatusBatch b i).
Proof. unfold LockCardStatusBatch. go. Qed.
Lemma db_insertItems b i t r c o a ro e q n : frames R (insertCardStatusBatchItems b i t r c o a ro e q n).
Proof. unfold insertCardStatusBatchItems, insert_batch_item. go. Qed.
Lemma db_CreateDraft b i : frames R (CreateCardStatusBatchDraft b i).
Proof. unfold CreateCardStatusBatchDraft. cbv zeta. frame_with ltac:(try solve [auto with frames | apply db_insertItems]). Qed.
Lemma db_change_batch b i s : frames R (change_batch b i s).
Proof. unfold change_batch. go. Qed.
Lemma db_Execute b i a r e q : frames R (ExecuteCardStatusBatch b i a r e q).
Proof. unfold ExecuteCardStatusBatch. frame_with ltac:(try solve [auto with frames | apply db_LockBatch | apply db_change_batch]). Qed.
Lemma db_Cancel b i a r e q : frames R (CancelCardStatusBatch b i a r e q).
Proof. unfold CancelCardStatusBatch. frame_with ltac:(try solve [auto with frames | apply db_LockBatch | apply db_change_batch]). Qed.
Lemma db_RetryBatch b i x : frames R (RetryCardStatusBatch b i x).
Proof. unfold RetryCardStatusBatch. cbv zeta. frame_with ltac:(try solve [auto with frames | apply db_LockBatch | apply db_insertItems]). Qed.
Lemma db_draw_batch_uuid : frames R draw_batch_uuid.
Proof. unfold draw_batch_uuid. go. Qed.
Lemma db_newIDs n : frames R (newIDs n).
Proof.
  induction n as [|n IH]; cbn [newIDs]; frame_with ltac:(try solve [auto with frames | apply db_draw_batch_uuid | apply IH]).
Qed.
Lemma db_batch_claim hmac f b s k body : frames R (batch_claim hmac f b s k body).
Proof. unfold batch_claim. go. Qed.
Lemma db_or_problem {A} (m : M A) : frames R m -> frames R (or_problem m).
Proof. intros Hm. unfold or_problem. frame_with ltac:(try solve [auto with frames | exact Hm]). Qed.
End DbFrames.
#[export] Hint Resolve db_CardsExist db_LockBatch db_CreateDraft db_Execute db_Cancel db_RetryBatch db_draw_batch_uuid
  db_newIDs db_batch_claim db_or_problem : frames.

(** ** Failure *)

Section Failure.
Context (hmac : string -> string -> string) (fp : Fingerprinter).

Lemma finish_batch_fails b s k st j i u : fails shard_untouched (finish_batch b s k st j i u).
Proof. unfold finish_batch. fail_with ltac:(frame_leaf). Qed.

(** Everything before the final [finish_batch] is framed. *)
Ltac fail_batch :=
  lazymatch goal with
  | |- forall _, _ => intro; fail_batch
  | |- fails _ (mbind _ (finish_batch _ _ _ _ _ _ _)) =>
      apply (fails_last _); [apply finish_batch_fails|intros ? ? ? ? ?; done]
  | |- fails _ (mbind _ _) => apply (fails_bind _); [frame_with ltac:(frame_leaf)|intro; fail_batch]
  | |- fails _ (with_defer _ _) => apply (fails_defer _); [frame_with ltac:(frame_leaf)|fail_batch]
  | |- fails _ (match ?x with _ => _ end) => destruct x; fail_batch
  | |- _ => apply frames_fails; frame_with ltac:(frame_leaf)
  end.
Lemma create_fails p b k t r ids rq : fails shard_untouched (CreateCardStatusBatchWorkflow hmac fp p b k t r ids rq).
Proof. unfold CreateCardStatusBatchWorkflow, create_claimed. cbv zeta. fail_batch. Qed.
Lemma change_fails p b i k body rq a : fails shard_untouched (change hmac fp p b i k body rq a).
Proof. unfold change. cbv zeta. destruct (a == "execute"); fail_batch. Qed.
Lemma batch_retry_fails p b i k body rq : fails shard_untouched (RetryCardStatusBatchWorkflow hmac fp p b i k body rq).
Proof. unfold RetryCardStatusBatchWorkflow, retry_claimed. cbv zeta. fail_batch. Qed.
End Failure.

(** ** Drafts *)

(** What a new item records, and the queued operation made for it. *)
Definition queued_operation (action reason rq user role entity : string) (t : Z) (card : string) : operation_row :=
  OperationRow card action "queued" reason (Some user) role (nullable entity) None rq None None None None t t
    (Some user) (Some user).
Definition pending_item (t : Z) (id : string) (p : string * string) : CardStatusBatchItem :=
  MkCardStatusBatchItem id p.1 p.2 None "pending" None t.

Lemma not_in_map {A B} (f : A -> B) (x : B) (l : list A) : Forall (fun a => f a <> x) l -> x ∉ (f <$> l).
Proof. rewrite Forall_forall, list_elem_of_fmap. intros H (a & -> & Ha). by apply (H a). Qed.

Section Drafted.
Context (bank batchID action reason rq user role entity : string) (created t : Z).

Definition item_entry (i : CardStatusBatchItem) : key * item_row :=
  ((bank, CardStatusBatchItem_ID i),
   ItemRow batchID (CardStatusBatchItem_CardID i) (CardStatusBatchItem_OperationID i) None "pending" None).
Definition operation_entry (i : CardStatusBatchItem) : key * operation_row :=
  ((bank, CardStatusBatchItem_OperationID i),
   queued_operation action reason rq user role entity t (CardStatusBatchItem_CardID i)).

(** The shard with the items and operations of a batch added. *)
Definition with_items (items : list CardStatusBatchItem) (db : shard_db) : shard_db :=
  db <| operations ::= fun m => list_to_map (List.map operation_entry items) ∪ m |>
     <| batch_items ::= fun m => list_to_map (List.map item_entry items) ∪ m |>.

(** The keys of the items are new, and distinct. *)
Definition new_items (items : list CardStatusBatchItem) (db : shard_db) : Prop :=
  NoDup (List.map CardStatusBatchItem_ID items) /\ NoDup (List.map CardStatusBatchItem_OperationID items) /\
  Forall (fun i => batch_items db !! (bank, CardStatusBatchItem_ID i) = None /\
                   operations db !! (bank, CardStatusBatchItem_OperationID i) = None) items.

Lemma insert_item_inr card op env db id db' :
  insert_item bank batchID card op env db = inr (Some id, db') ->
  batch_items db !! (bank, id) = None /\
  db' = db <| batch_items ::= <[(bank, id) := ItemRow batchID card op None "pending" None]> |>.
Proof.
  unfold insert_item. case_match; [|done]. case_match; [done|]. case_match eqn:E; [done|]. intros [= <- <-].
  by apply insert_pk_inr in E as [? ->].
Qed.

Lemma item_tx p w db i w' :
  w_shard_tx w = Some db -> w_tx_start w = t ->
  insert_batch_item bank batchID action reason user role entity rq created p w = (inr i, w') ->
  w_tx_start w' = t /\ exists id, i = pending_item created id p /\
    operations db !! (bank, p.2) = None /\ batch_items db !! (bank, id) = None /\
    w_shard_tx w' = Some (db <| operations ::= <[(bank, p.2) := queued_operation action reason rq user role entity t p.1]> |>
                             <| batch_items ::= <[(bank, id) := ItemRow batchID p.1 p.2 None "pending" None]> |>).
Proof.
  intros Hdb Ht H. destruct p as [card op]. unfold insert_batch_item in H.
  apply bind_inr in H as (o & w1 & H1 & H). apply bind_inr in H as (id & w2 & H2 & H). apply ret_inr in H as [<- <-].
  apply (exec_tx _ _ _ _ _ Hdb) in H1 as (env & db1 & Hf & Htx & Hn & _ & _ & _ & Hs).
  apply insert_operation_inr in Hf as (Hno & -> & _). rewrite row_inr in H2.
  apply (exec_tx _ _ _ _ _ Htx) in H2 as (env2 & db2 & Hf2 & Htx2 & _ & _ & _ & _ & Hs2).
  apply insert_item_inr in Hf2 as [Hni ->]. split; [congruence|]. exists id. repeat (split; [done|]).
  rewrite Htx2. unfold operation_of. rewrite Hn, Ht. done.
Qed.

Lemma items_tx l : forall w db items w',
  w_shard_tx w = Some db -> w_tx_start w = t ->
  mapM_list (insert_batch_item bank batchID action reason user role entity rq created) l w = (inr items, w') ->
  w_tx_start w' = t /\ w_shard_tx w' = Some (with_items items db) /\ new_items items db /\
  Forall2 (fun p i => exists id, i = pending_item created id p) l items.
Proof.
  induction l as [|p l IH]; intros w db items w' Hdb Ht H; cbn [mapM_list] in H.
  - apply ret_inr in H as [<- <-]. unfold with_items, new_items, set_field. cbn.
    rewrite !(left_id_L ∅ (∪)). destruct db. repeat split; try done; constructor.
  - apply bind_inr in H as (i & w1 & H1 & H). apply bind_inr in H as (items' & w2 & H2 & H).
    apply ret_inr in H as [<- <-].
    apply (item_tx _ _ _ _ _ Hdb Ht) in H1 as (Ht1 & id & -> & Hno & Hni & Htx1).
    apply (IH _ _ _ _ Htx1 Ht1) in H2 as (Ht2 & Htx2 & (Hnd1 & Hnd2 & Hnew) & Hall). clear IH.
    split; [done|].
    assert (Hid : Forall (fun i => CardStatusBatchItem_ID i <> id /\ CardStatusBatchItem_OperationID i <> p.2 /\
              batch_items db !! (bank, CardStatusBatchItem_ID i) = None /\
              operations db !! (bank, CardStatusBatchItem_OperationID i) = None) items').
    { eapply Forall_impl; [exact Hnew|]. cbn. intros i [Hi Ho].
      apply lookup_insert_None in Hi as [Hi Hi']. apply lookup_insert_None in Ho as [Ho Ho'].
      repeat split; congruence. }
    split; [|split; [split; [|split]|]].
    + rewrite Htx2. f_equal. unfold with_items, set_field. cbn. destruct db. cbn in *.
      f_equal; (rewrite <- insert_union_r; [by rewrite insert_union_l|]); apply not_elem_of_list_to_map_1;
        rewrite <- list_fmap_compose; apply not_in_map; eapply Forall_impl; try exact Hid;
        unfold compose; cbn; intros i (?&?&_); congruence.
    + cbn. constructor; [|done]. apply not_in_map. eapply Forall_impl; [exact Hid|]. cbn. tauto.
    + cbn. constructor; [|done]. apply not_in_map. eapply Forall_impl; [exact Hid|]. cbn. tauto.
    + constructor; [done|]. eapply Forall_impl; [exact Hid|]. cbn. tauto.
    + constructor; [by exists id|done].
Qed.
End Drafted.

(** *** The abstract draft

    What a draft adds to the shard, as a function of the request, the time and
    the items. *)
Record draft := Draft {
  dr_target : string; dr_reason : string; dr_user : string; dr_role : string; dr_entity : string;
  dr_request : string; dr_record : string; dr_retry_of : option string
}.

Definition draft_batch (d : draft) (count : nat) (t : Z) : batch_row :=
  draft_row (dr_target d) (dr_reason d) (dr_user d) (dr_role d) (dr_entity d) (dr_request d) (dr_record d)
    (Z.of_nat count) (dr_retry_of d) (SqlEnv t t (fun _ => "") ∅).
Definition draft_audit (bank batchID : string) (d : draft) (count : nat) (t : Z) : audit_row :=
  let log verb member := AuditRow bank (Some (dr_user d)) (dr_role d) (nullable (dr_entity d)) None verb
    "card_status_batch" batchID "succeeded" (dr_request d) t
    (jsonb (JObj [("item_count", JNum (Z.of_nat count)); member])) in
  match dr_retry_of d with
  | None => log "card_status_batch.create" ("target_status", JStr (dr_target d))
  | Some source => log "card_status_batch.retry" ("retry_of_batch_id", JStr source)
  end.
Definition with_draft (bank batchID : string) (d : draft) (t : Z) (items : list CardStatusBatchItem) (db : shard_db) : shard_db :=
  (with_items bank batchID (batchOperationAction (dr_target d)) (dr_reason d) (dr_request d) (dr_user d) (dr_role d)
     (dr_entity d) t items
     (db <| batches ::= <[(bank, batchID) := draft_batch d (length items) t]> |>))
    <| audit ::= fun l => l ++ [draft_audit bank batchID d (length items) t] |>.

(** The items are those of the cards, in order. *)
Definition items_for (cards operations : list string) (t : Z) (items : list CardStatusBatchItem) : Prop :=
  Forall2 (fun p i => exists id, i = pending_item t id p) (zip cards operations) items.

Lemma items_for_cards cs ops t items :
  length cs = length ops -> items_for cs ops t items ->
  List.map CardStatusBatchItem_CardID items = cs /\ length items = length cs.
Proof.
  unfold items_for. revert ops items. induction cs as [|c cs IH]; intros [|o ops] items; try done; cbn.
  - intros _ H. by apply Forall2_nil_inv_l in H as ->.
  - intros [= Hl] H. apply Forall2_cons_inv_l in H as (i & items' & (id & ->) & H & ->).
    destruct (IH _ _ Hl H) as [<- Hn]. cbn. by rewrite Hn.
Qed.

Lemma insert_batch_inr bank id mk env db b db' :
  insert_batch bank id mk env db = inr (b, db') ->
  batches db !! (bank, id) = None /\ db' = db <| batches ::= <[(bank, id) := mk env]> |> /\
  b = scanCardStatusBatch id (mk env).
Proof.
  unfold insert_batch. case_match; [|done]. case_match; [done|]. case_match eqn:E; [done|]. intros [= <- <-].
  by apply insert_pk_inr in E as [? ->].
Qed.

Lemma draft_tx bank batchID d cs ops count w db batch items w' :
  w_shard_tx w = Some db -> count = Z.of_nat (length cs) ->
  (batch ← shard_exec (insert_batch bank batchID (draft_row (dr_target d) (dr_reason d) (dr_user d) (dr_role d)
     (dr_entity d) (dr_request d) (dr_record d) count (dr_retry_of d)));
   items ← insertCardStatusBatchItems bank batchID (dr_target d) (dr_reason d) cs ops (dr_user d) (dr_role d)
     (dr_entity d) (dr_request d) (CardStatusBatch_CreatedAt batch);
   shard_exec (insert_audit bank (match dr_retry_of d with None => "card_status_batch.create" | _ => "card_status_batch.retry" end)
     "card_status_batch" batchID "succeeded" (dr_request d) (user_actor (dr_user d) (dr_role d) (dr_entity d))
     (JObj [("item_count", JNum count); match dr_retry_of d with None => ("target_status", JStr (dr_target d))
                                        | Some source => ("retry_of_batch_id", JStr source) end])) ;;
   mret (batch, items)) w = (inr (batch, items), w') ->
  exists t, w_shard_tx w' = Some (with_draft bank batchID d t items db) /\ batches db !! (bank, batchID) = None /\
    new_items bank items db /\ items_for cs ops t items /\ length cs = length ops /\
    batch = scanCardStatusBatch batchID (draft_batch d (length items) t).
Proof.
  intros Hdb -> H. apply bind_inr in H as (b & w1 & H1 & H). apply bind_inr in H as (its & w2 & H2 & H).
  apply bind_inr in H as ([] & w3 & H3 & H). apply ret_inr in H as [[= <- <-] <-].
  apply (exec_tx _ _ _ _ _ Hdb) in H1 as (env & db1 & Hf & Htx & Hn & _ & _ & _ & Hs).
  apply insert_batch_inr in Hf as (Hnew & -> & ->).
  unfold insertCardStatusBatchItems in H2. destruct (Nat.eqb _ _) eqn:El; [|by apply throw_inr in H2].
  apply Nat.eqb_eq in El. cbn [negb] in H2.
  apply (items_tx _ _ _ _ _ _ _ _ _ (w_tx_start w) _ _ _ _ _ Htx Hs) in H2 as (Hs2 & Htx2 & Hni & Hall).
  apply (exec_tx _ _ _ _ _ Htx2) in H3 as (env3 & db3 & Hf3 & Htx3 & Hn3 & _). injection Hf3 as <-.
  assert (Hfor : items_for cs ops (w_tx_start w) its) by (cbn in Hall; rewrite Hn in Hall; exact Hall).
  exists (w_tx_start w). destruct (items_for_cards _ _ _ _ El Hfor) as [_ Hlen].
  split; [|split; [done|split; [exact Hni|split; [done|split; [done|]]]]].
  - rewrite Htx3. f_equal. unfold with_draft, draft_audit, draft_batch, draft_row. rewrite Hlen, Hn, Hn3, Hs2. cbn.
    f_equal. by destruct (dr_retry_of d).
  - unfold draft_batch, draft_row. by rewrite Hlen, Hn.
Qed.

Lemma CreateDraft_tx bank i w db batch items w' :
  w_shard_tx w = Some db -> CreateCardStatusBatchDraft bank i w = (inr (batch, items), w') ->
  let d := Draft (CardStatusBatchDraft_TargetStatus i) (CardStatusBatchDraft_Reason i) (CardStatusBatchDraft_ActorID i)
             (CardStatusBatchDraft_ActorRole i) (CardStatusBatchDraft_ActorEntityID i) (CardStatusBatchDraft_RequestID i)
             (CardStatusBatchDraft_IdempotencyRecordID i) None in
  let id := CardStatusBatchDraft_ID i in
  exists t, w_shard_tx w' = Some (with_draft bank id d t items db) /\ batches db !! (bank, id) = None /\
    new_items bank items db /\ items_for (CardStatusBatchDraft_CardIDs i) (CardStatusBatchDraft_OperationIDs i) t items /\
    length (CardStatusBatchDraft_CardIDs i) = length (CardStatusBatchDraft_OperationIDs i) /\
    batch = scanCardStatusBatch id (draft_batch d (length items) t).
Proof. intros Hdb H d id. by apply (draft_tx bank id d _ _ _ w db batch items w' Hdb eq_refl). Qed.

(** ** The idempotency record of a command *)

Lemma draw_id w id w' : draw_batch_uuid w = (inr id, w') -> w_shard_tx w' = w_shard_tx w.
Proof. unfold draw_batch_uuid, mbind, M_bind, rand16. destruct (w_entropy w); [done|]. by intros [= _ <-]. Qed.
Lemma draw_ids n : forall w l w', newIDs n w = (inr l, w') -> length l = n /\ w_shard_tx w' = w_shard_tx w.
Proof.
  induction n as [|n IH]; intros w l w' H; cbn [newIDs] in H; [by apply ret_inr in H as [<- <-]|].
  apply bind_inr in H as (id & w1 & H1 & H). apply bind_inr in H as (ids & w2 & H2 & H). apply ret_inr in H as [<- <-].
  apply IH in H2 as [<- ->]. split; [done|]. by eapply draw_id.
Qed.

(** ** The accepted request *)

Lemma normalize_inr target reason ids l body :
  normalize target reason ids = inr (l, body) ->
  l = sort_strings ids /\ body = canonical_body (trim_space target) (trim_space reason) l /\
  adjacent_equal l = false /\ Forall (fun id => isCanonicalUUID id = true) ids /\ (1 <= length ids <= maxSize)%nat /\
  trim_space reason <> "" /\
  (trim_space target = "active" \/ trim_space target = "suspended" \/ trim_space target = "closed").
Proof.
  unfold normalize. cbv zeta. destruct (_ && _) eqn:Et; [done|]. destruct (_ || _) eqn:Er; [done|].
  destruct (forallb isCanonicalUUID ids) eqn:Eu; [|done]. cbn [negb]. destruct (adjacent_equal _) eqn:Ea; [done|].
  intros [= <- <-]. rewrite !orb_false_iff, Nat.eqb_neq, Nat.ltb_ge in Er. destruct Er as [[Hr Hz] Hm].
  repeat split; try done; [|lia|by apply String.eqb_neq|].
  - apply Forall_forall. intros x Hx. by eapply forallb_forall in Eu; [|apply list_elem_of_In].
  - rewrite !andb_false_iff, !negb_false_iff, !String.eqb_eq in Et. tauto.
Qed.

Lemma adjacent_equal_NoDup l : StronglySorted String.le l -> adjacent_equal l = false -> NoDup l.
Proof.
  induction 1 as [|a l Hs IH Hall]; [constructor|]. intros Hadj. constructor.
  - intros Hin. destruct l as [|b l]; [by apply elem_of_nil in Hin|]. cbn in Hadj.
    apply orb_false_iff in Hadj as [Hab _]. apply String.eqb_neq in Hab.
    apply Forall_cons in Hall as [Hab' _]. apply elem_of_cons in Hin as [->|Hin]; [done|].
    apply StronglySorted_inv in Hs as [_ Hb]. rewrite Forall_forall in Hb. specialize (Hb _ Hin).
    apply Hab. by apply (anti_symm String.le).
  - apply IH. destruct l; [done|]. cbn in Hadj. by apply orb_false_iff in Hadj as [_ ?].
Qed.

(** An accepted request names distinct cards. *)
Lemma normalize_NoDup target reason ids l body : normalize target reason ids = inr (l, body) -> NoDup ids /\ l ≡ₚ ids.
Proof.
  intros (-> & _ & Ha & _)%normalize_inr. unfold sort_strings in *.
  assert (Hp : merge_sort String.le ids ≡ₚ ids) by apply merge_sort_Permutation. split; [|done].
  rewrite <- Hp. apply adjacent_equal_NoDup; [|done]. apply StronglySorted_merge_sort; apply _.
Qed.

Section Commands.
Context (hmac : string -> string -> string) (fp : Fingerprinter).

Lemma batch_claim_new bank scope key body w db replay w' :
  w_shard_tx w = Some db -> idem db !! (bank, scope, key) = None ->
  batch_claim hmac fp bank scope key body w = (inr replay, w') ->
  ShardIdempotencyReplay_Found replay = false /\
  exists r, w_shard_tx w' = Some (db <| idem ::= <[(bank, scope, key) := r]> |>) /\
    id_request_fingerprint r = Fingerprint hmac fp body /\ id_id r = ShardIdempotencyReplay_RecordID replay.
Proof.
  intros Hdb Hn H. unfold batch_claim in H. apply bind_inr in H as (t & w1 & Ht & H). apply time_inr in Ht as [-> ->].
  apply bind_inr in H as (q & w2 & Hq & H). rewrite try_inr in Hq. destruct q as [err|x].
  { destruct (errors_is _ _); by apply throw_inr in H. }
  apply ret_inr in H as [<- <-].
  by apply (first_claim hmac fp) with (db := db) in Hq.
Qed.

Lemma finish_batch_inr bank scope key st raw res user w db r body w' :
  w_shard_tx w = Some db -> idem db !! (bank, scope, key) = Some r ->
  id_request_fingerprint r = Fingerprint hmac fp body ->
  finish_batch bank scope key st raw res user w = (inr tt, w') ->
  exists r', w_shard w' = db <| idem ::= <[(bank, scope, key) := r']> |> /\ answers hmac fp body st raw r' /\ id_id r' = id_id r.
Proof.
  intros Hdb Hr Hfp H. unfold finish_batch in H. apply bind_inr in H as ([] & w1 & H1 & H).
  destruct (finished_reply hmac fp _ _ _ _ _ _ _ _ _ _ _ _ Hdb Hr Hfp H1) as (r' & Htx & Ha & Hid).
  apply commit_inr in H as (db2 & Hdb2 & Hs & _). rewrite Htx in Hdb2. injection Hdb2 as <-. by exists r'.
Qed.

(** ** Creation *)

Lemma CardsExist_tx bank ids w db b w' :
  w_shard_tx w = Some db -> NoDup ids -> CardsExist bank ids w = (inr b, w') ->
  w_shard_tx w' = Some db /\ (b = true -> Forall (fun c => is_Some (cards db !! (bank, c))) ids).
Proof.
  intros Hdb Hnd H. apply (exec_tx _ _ _ _ _ Hdb) in H as (env & db' & Hf & Htx & _). injection Hf as <- <-.
  split; [done|]. rewrite bool_decide_eq_true. intros Hlen. apply Forall_forall. intros c Hc.
  set (rows := filter _ _) in Hlen.
  assert (Hin : In c (List.map fst rows)).
  { assert (Hnd' : List.NoDup (List.map fst rows)).
    { apply NoDup_ListNoDup. refine (sublist_NoDup _ _ (bank_rows_NoDup bank (cards db)) _).
      apply (fmap_sublist fst), sublist_filter. }
    apply (NoDup_length_incl Hnd' (l' := ids)); [rewrite length_map; lia| |by apply list_elem_of_In].
    intros x Hx. apply in_map_iff in Hx as ([i r] & <- & Hx). apply list_elem_of_In, list_elem_of_filter in Hx as [Hx _].
    by apply list_elem_of_In. }
  apply in_map_iff in Hin as ([i r] & <- & Hin). apply list_elem_of_In, list_elem_of_filter in Hin as [_ Hin].
  apply bank_rows_spec in Hin. eauto.
Qed.

Definition create_scope (p : Principal) : string := "card-status-batches.create.actor." +:+ Principal_UserID p.

(** What an accepted draft leaves in the shard: [with_draft], and the record
    that answers its repetitions. *)
Definition drafted (bank scope key body batchID : string) (d : draft) (t : Z) (items : list CardStatusBatchItem)
    (status : Z) (resp : json) (db db' : shard_db) : Prop :=
  batches db !! (bank, batchID) = None /\ new_items bank items db /\
  Forall (fun i => CardStatusBatchItem_Outcome i = "pending") items /\
  exists r, answers hmac fp body status resp r /\ id_id r = dr_record d /\
    resp = batch_json bank (scanCardStatusBatch batchID (draft_batch d (length items) t)) items /\
    db' = (with_draft bank batchID d t items db) <| idem ::= <[(bank, scope, key) := r]> |>.

Lemma items_for_pending cs ops t items :
  items_for cs ops t items -> Forall (fun i => CardStatusBatchItem_Outcome i = "pending") items.
Proof. induction 1 as [|p i l items (id & ->)]; constructor; done. Qed.

(** Updates of different tables commute; the last write of a record wins. *)
Lemma idem_batches f g db : (db <| idem ::= f |>) <| batches ::= g |> = (db <| batches ::= g |>) <| idem ::= f |>.
Proof. done. Qed.
Lemma idem_operations f g db : (db <| idem ::= f |>) <| operations ::= g |> = (db <| operations ::= g |>) <| idem ::= f |>.
Proof. done. Qed.
Lemma idem_items f g db : (db <| idem ::= f |>) <| batch_items ::= g |> = (db <| batch_items ::= g |>) <| idem ::= f |>.
Proof. done. Qed.
Lemma idem_audit f g db : (db <| idem ::= f |>) <| audit ::= g |> = (db <| audit ::= g |>) <| idem ::= f |>.
Proof. done. Qed.
Lemma with_draft_idem bank batchID d t items (k : string * string * string) (r r' : idem_row) db :
  (with_draft bank batchID d t items (db <| idem ::= <[k := r]> |>)) <| idem ::= <[k := r']> |> =
  (with_draft bank batchID d t items db) <| idem ::= <[k := r']> |>.
Proof. unfold with_draft, with_items. by rewrite idem_batches, idem_operations, idem_items, idem_audit, idem_again. Qed.

(** The working copy of a draft, finished and committed. *)
Lemma drafted_commit bank scope key body batchID d t items status resp res user w db r w' cs ops :
  w_shard_tx w = Some (with_draft bank batchID d t items (db <| idem ::= <[(bank, scope, key) := r]> |>)) ->
  batches db !! (bank, batchID) = None -> new_items bank items db -> items_for cs ops t items ->
  id_request_fingerprint r = Fingerprint hmac fp body -> id_id r = dr_record d ->
  resp = batch_json bank (scanCardStatusBatch batchID (draft_batch d (length items) t)) items ->
  finish_batch bank scope key status resp res user w = (inr tt, w') ->
  drafted bank scope key body batchID d t items status resp db (w_shard w').
Proof.
  intros Htx Hb Hni Hfor Hfp Hid Hresp H.
  eapply (finish_batch_inr _ _ _ _ _ _ _ _ _ r body) in H; [|exact Htx|apply lookup_insert_eq|done].
  destruct H as (r' & Hs & Ha & Hid'). split; [done|]. split; [done|]. split; [by eapply items_for_pending|].
  exists r'. split; [done|]. split; [congruence|]. split; [done|]. rewrite Hs. apply with_draft_idem.
Qed.

Lemma create_inr p bank key target reason ids rq w resp st w' :
  CreateCardStatusBatchWorkflow hmac fp p bank key target reason ids rq w = (inr (resp, st), w') ->
  idem (w_shard w) !! (bank, create_scope p, key) = None ->
  exists body batchID record t items,
    normalize target reason ids = inr (sort_strings ids, body) /\ st = 201 /\
    List.map CardStatusBatchItem_CardID items = sort_strings ids /\
    Forall (fun c => is_Some (cards (w_shard w) !! (bank, c))) ids /\
    drafted bank (create_scope p) key body batchID
      (Draft (trim_space target) (trim_space reason) (Principal_UserID p) (Principal_Role p) (actorEntityID p) rq record None)
      t items 201 resp (w_shard w) (w_shard w').
Proof.
  intros Hm Hnew. unfold CreateCardStatusBatchWorkflow in Hm. cbv zeta in Hm. fold (create_scope p) in Hm.
  apply bind_inr in Hm as ([l body] & w0 & H0 & Hm). unfold of_result in H0. injection H0 as Hnorm <-.
  destruct (normalize_NoDup _ _ _ _ _ Hnorm) as [Hnd Hperm]. pose proof (normalize_inr _ _ _ _ _ Hnorm) as (-> & _).
  apply bind_inr in Hm as ([] & w1 & H1 & Hm). apply beginTenant_inr in H1 as (Htx & Hs1 & _).
  apply defer_inr in Hm as (w6 & Hm & ->). apply bind_inr in Hm as (replay & w2 & H2 & Hm).
  apply (batch_claim_new _ _ _ _ _ _ _ _ Htx) in H2 as (Hf & r & Htx2 & Hfp & Hid); [|done].
  rewrite Hf in Hm. unfold create_claimed in Hm.
  apply bind_inr in Hm as (ex & w3 & H3 & Hm).
  apply (CardsExist_tx _ _ _ _ _ _ Htx2) in H3 as [Htx3 Hex]; [|by rewrite Hperm].
  destruct ex; [|by apply throw_inr in Hm]. cbn [negb] in Hm. specialize (Hex eq_refl). rewrite Hperm in Hex.
  apply bind_inr in Hm as (batchID & w4 & H4 & Hm). apply draw_id in H4. rewrite Htx3 in H4.
  apply bind_inr in Hm as (ops & w5 & H5 & Hm). apply draw_ids in H5 as [Hlen H5]. rewrite H4 in H5.
  apply bind_inr in Hm as ([batch items] & w7 & H7 & Hm).
  apply (CreateDraft_tx _ _ _ _ _ _ _ H5) in H7 as (t & Htx7 & Hb & Hni & Hfor & _ & ->). cbn in *.
  destruct (items_for_cards _ _ _ _ (eq_sym Hlen) Hfor) as [Hcs _].
  apply bind_inr in Hm as ([] & w8 & H8 & Hm). apply ret_inr in Hm as [[= <- <-] <-].
  eexists body, batchID, _, t, items. do 3 (split; [done|]). split; [exact Hex|].
  eapply (drafted_commit _ _ _ body) in H8; [exact H8|exact Htx7|exact Hb|exact Hni|exact Hfor|done|exact Hid|done].
Qed.

(** ** Retry *)

Lemma LockBatch_tx bank id w db b w' :
  w_shard_tx w = Some db -> LockCardStatusBatch bank id w = (inr b, w') ->
  exists row, batches db !! (bank, id) = Some row /\ b = scanCardStatusBatch id row /\ w_shard_tx w' = Some db.
Proof.
  intros Hdb H. unfold LockCardStatusBatch in H. apply bind_inr in H as (q & w1 & Hq & H). rewrite try_inr in Hq.
  destruct q as [err|x]; [destruct (errors_is _ _); by apply throw_inr in H|]. apply ret_inr in H as [<- <-].
  rewrite row_inr in Hq. apply (exec_tx _ _ _ _ _ Hdb) in Hq as (env & db' & Hf & Htx & _).
  injection Hf as Hf <-. destruct (batches db !! (bank, id)) as [row|]; [|done]. injection Hf as <-. eauto.
Qed.
Lemma or_problem_inr {A} (m : M A) w a w' : or_problem m w = (inr a, w') <-> m w = (inr a, w').
Proof.
  unfold or_problem. rewrite bind_inr. split.
  - intros ([err|x] & w1 & Hm & H); rewrite try_inr in Hm; [by apply throw_inr in H|]. by apply ret_inr in H as [<- <-].
  - intros Hm. exists (inr a), w'. by rewrite try_inr.
Qed.

(** The cards of a batch, in the order of their ids. *)
Definition batch_cards (bank batch : string) (db : shard_db) : list string :=
  sort_strings (List.map (fun p => it_card_id p.2) (items_of_batch bank batch db)).

(** A failed or cancelled batch may be drafted again for the same cards. *)
Definition retryable (b : batch_row) : Prop := ba_status b = "failed" \/ ba_status b = "cancelled".

Lemma RetryBatch_tx bank sourceID i w db source batch items w' :
  w_shard_tx w = Some db -> batches db !! (bank, sourceID) = Some source ->
  RetryCardStatusBatch bank sourceID i w = (inr (batch, items), w') ->
  let d := Draft (ba_target_status source) (ba_reason source) (CardStatusBatchRetry_ActorID i)
             (CardStatusBatchRetry_ActorRole i) (CardStatusBatchRetry_ActorEntityID i) (CardStatusBatchRetry_RequestID i)
             (CardStatusBatchRetry_IdempotencyRecordID i) (Some sourceID) in
  let id := CardStatusBatchRetry_ID i in
  exists t, w_shard_tx w' = Some (with_draft bank id d t items db) /\ batches db !! (bank, id) = None /\
    new_items bank items db /\ items_for (batch_cards bank sourceID db) (CardStatusBatchRetry_OperationIDs i) t items /\
    length (batch_cards bank sourceID db) = length (CardStatusBatchRetry_OperationIDs i) /\
    ba_item_count source = Z.of_nat (length (batch_cards bank sourceID db)) /\
    batch = scanCardStatusBatch id (draft_batch d (length items) t).
Proof.
  intros Hdb Hsrc H d id. unfold RetryCardStatusBatch in H. cbv zeta in H.
  apply bind_inr in H as (b & w1 & H1 & H). apply (LockBatch_tx _ _ _ _ _ _ Hdb) in H1 as (row & Hrow & -> & Htx1).
  rewrite Hsrc in Hrow. injection Hrow as <-.
  destruct (_ && _); [by apply throw_inr in H|]. apply bind_inr in H as (cs & w2 & H2 & H).
  apply (exec_tx _ _ _ _ _ Htx1) in H2 as (env & db2 & Hf2 & Htx2 & _). injection Hf2 as <- <-.
  fold (batch_cards bank sourceID db) in H. destruct (_ || _) eqn:El; [by apply throw_inr in H|].
  rewrite orb_false_iff, !negb_false_iff, !Z.eqb_eq in El. destruct El as [El _].
  apply (draft_tx bank id d _ _ _ w2 db batch items w' Htx2) in H; [|symmetry; exact El].
  destruct H as (t & ? & ? & ? & ? & ? & ?). exists t. repeat (split; [done|]). done.
Qed.

Definition retry_scope (p : Principal) (id : string) : string :=
  "card-status-batches.retry." +:+ id +:+ ".actor." +:+ Principal_UserID p.

Lemma batch_retry_inr p bank id key body rq w resp w' :
  RetryCardStatusBatchWorkflow hmac fp p bank id key body rq w = (inr resp, w') ->
  idem (w_shard w) !! (bank, retry_scope p id, key) = None ->
  exists source batchID record t items,
    batches (w_shard w) !! (bank, id) = Some source /\ retryable source /\
    List.map CardStatusBatchItem_CardID items = batch_cards bank id (w_shard w) /\
    ba_item_count source = Z.of_nat (length items) /\
    drafted bank (retry_scope p id) key body batchID
      (Draft (ba_target_status source) (ba_reason source) (Principal_UserID p) (Principal_Role p) (actorEntityID p) rq
         record (Some id))
      t items 201 resp (w_shard w) (w_shard w').
Proof.
  intros Hm Hnew. unfold RetryCardStatusBatchWorkflow in Hm. cbv zeta in Hm. fold (retry_scope p id) in Hm.
  apply bind_inr in Hm as ([] & w1 & H1 & Hm). apply beginTenant_inr in H1 as (Htx & Hs1 & _).
  apply defer_inr in Hm as (w6 & Hm & ->). apply bind_inr in Hm as (replay & w2 & H2 & Hm).
  apply (batch_claim_new _ _ _ _ _ _ _ _ Htx) in H2 as (Hf & r & Htx2 & Hfp & Hid); [|done].
  rewrite Hf in Hm. unfold retry_claimed in Hm.
  apply bind_inr in Hm as (batchID & w3 & H3 & Hm). apply draw_id in H3. rewrite Htx2 in H3.
  apply bind_inr in Hm as (src & w4 & H4 & Hm). rewrite or_problem_inr in H4.
  apply (LockBatch_tx _ _ _ _ _ _ H3) in H4 as (source & Hsrc & -> & Htx4).
  destruct (_ && _) eqn:Est; [by apply throw_inr in Hm|].
  apply bind_inr in Hm as (ops & w5 & H5 & Hm). apply draw_ids in H5 as [_ H5]. rewrite Htx4 in H5.
  apply bind_inr in Hm as ([batch items] & w7 & H7 & Hm). rewrite or_problem_inr in H7.
  apply (RetryBatch_tx _ _ _ _ _ _ _ _ _ H5 Hsrc) in H7 as (t & Htx7 & Hb & Hni & Hfor & Hlen & Hcount & ->). cbn in *.
  destruct (items_for_cards _ _ _ _ Hlen Hfor) as [Hcs Hn].
  apply bind_inr in Hm as ([] & w8 & H8 & Hm). apply ret_inr in Hm as [<- <-].
  exists source, batchID, (ShardIdempotencyReplay_RecordID replay), t, items. split; [done|]. split.
  { rewrite andb_false_iff, !negb_false_iff, !String.eqb_eq in Est. exact Est. }
  split; [exact Hcs|]. split; [rewrite Hcount, Hn; done|].
  eapply (drafted_commit _ _ _ body) in H8; [exact H8|exact Htx7|exact Hb|exact Hni|exact Hfor|done|exact Hid|done].
Qed.

(** ** Execution and cancellation *)

(** What a command makes of the batch; [None] when it is refused. *)
Definition batch_after (action user : string) (clock : Z) (b : batch_row) : option batch_row :=
  if action == "execute" then
    Some (if ba_status b == "draft" then
            b <| ba_status := "queued" |> <| ba_next_attempt_at := clock |> <| ba_updated_by := user |>
              <| ba_updated_at := clock |>
          else b)
  else if (ba_status b == "draft") || (ba_status b == "queued") then
    Some (b <| ba_status := "cancelled" |> <| ba_completed_at := Some clock |> <| ba_updated_by := user |>
            <| ba_updated_at := clock |>)
  else None.

Definition command_scope (p : Principal) (action id : string) : string :=
  "card-status-batches." +:+ action +:+ "." +:+ id +:+ ".actor." +:+ Principal_UserID p.

Lemma change_batch_tx bank id set w db b w' :
  w_shard_tx w = Some db -> change_batch bank id set w = (inr b, w') ->
  exists env old, batches db !! (bank, id) = Some old /\
    let new := (set env old) <| ba_updated_at := clock_timestamp env |> in
    w_shard_tx w' = Some (db <| batches ::= <[(bank, id) := new]> |>) /\ b = scanCardStatusBatch id new.
Proof.
  intros Hdb H. unfold change_batch in H. rewrite row_inr in H.
  apply (exec_tx _ _ _ _ _ Hdb) in H as (env & db' & Hf & Htx & _). unfold returning in Hf.
  destruct (update_batch _ _ _ _ _ _) as [|[n db2]] eqn:E; [done|]. destruct (n =? 1) eqn:En; [|done].
  apply Z.eqb_eq in En as ->. apply update_batch_one in E as (old & Hold & _ & _ & _ & ->).
  injection Hf as Hf <-. cbn in Hf. rewrite lookup_insert_eq in Hf. injection Hf as <-. exists env, old. eauto.
Qed.

Lemma insert_audit_tx bank a t r o q who d w db w' :
  w_shard_tx w = Some db -> shard_exec (insert_audit bank a t r o q who d) w = (inr tt, w') ->
  exists l, w_shard_tx w' = Some (db <| audit ::= fun x => x ++ l |>).
Proof. intros Hdb H. apply (exec_tx _ _ _ _ _ Hdb) in H as (env & db' & Hf & Htx & _). injection Hf as <-. eauto. Qed.

Lemma set_same bank id b db : batches db !! (bank, id) = Some b -> db <| batches ::= <[(bank, id) := b]> |> = db.
Proof. intros H. destruct db. unfold set_field. cbn in *. f_equal. by apply insert_id. Qed.
Lemma audit_same db : db <| audit ::= fun x => x ++ [] |> = db.
Proof. destruct db. unfold set_field. cbn. f_equal. apply app_nil_r. Qed.

(** The two commands of the store, by their effect on the working copy. *)
Lemma batch_change_tx action bank id user role entity rq w db batch w' :
  w_shard_tx w = Some db ->
  (if action == "execute" then ExecuteCardStatusBatch else CancelCardStatusBatch) bank id user role entity rq w
    = (inr batch, w') ->
  exists b b' clock l, batches db !! (bank, id) = Some b /\ batch_after action user clock b = Some b' /\
    batch = scanCardStatusBatch id b' /\
    w_shard_tx w' = Some ((db <| batches ::= <[(bank, id) := b']> |>) <| audit ::= fun x => x ++ l |>).
Proof.
  intros Hdb H. unfold batch_after. destruct (action == "execute").
  - unfold ExecuteCardStatusBatch in H. apply bind_inr in H as (b0 & w1 & H1 & H).
    apply (LockBatch_tx _ _ _ _ _ _ Hdb) in H1 as (b & Hb & -> & Htx1). exists b. cbn in H.
    destruct (ba_status b == "draft"); cbn in H.
    + apply bind_inr in H as (b1 & w2 & H2 & H). apply bind_inr in H as ([] & w3 & H3 & H).
      apply ret_inr in H as [<- <-].
      apply (change_batch_tx _ _ _ _ _ _ _ Htx1) in H2 as (env & old & Hold & Htx2 & ->).
      rewrite Hb in Hold. injection Hold as <-. apply (insert_audit_tx _ _ _ _ _ _ _ _ _ _ _ Htx2) in H3 as [l Htx3].
      eexists _, (clock_timestamp env), l. done.
    + apply ret_inr in H as [<- <-]. exists b, 0, []. by rewrite audit_same, set_same.
  - unfold CancelCardStatusBatch in H. apply bind_inr in H as (b0 & w1 & H1 & H).
    apply (LockBatch_tx _ _ _ _ _ _ Hdb) in H1 as (b & Hb & -> & Htx1). exists b. cbn in H.
    destruct (ba_status b == "draft") eqn:Ed, (ba_status b == "queued") eqn:Eq; cbn in H;
      try by apply throw_inr in H.
    all: apply bind_inr in H as (b1 & w2 & H2 & H); apply bind_inr in H as ([] & w3 & H3 & H);
      apply ret_inr in H as [<- <-];
      apply (change_batch_tx _ _ _ _ _ _ _ Htx1) in H2 as (env & old & Hold & Htx2 & ->);
      rewrite Hb in Hold; injection Hold as <-; apply (insert_audit_tx _ _ _ _ _ _ _ _ _ _ _ Htx2) in H3 as [l Htx3];
      eexists _, (clock_timestamp env), l; done.
Qed.

Lemma change_inr p bank id key body rq action w resp w' :
  action = "execute" \/ action = "cancel" ->
  change hmac fp p bank id key body rq action w = (inr resp, w') ->
  idem (w_shard w) !! (bank, command_scope p action id, key) = None ->
  exists b b' clock l r, batches (w_shard w) !! (bank, id) = Some b /\
    batch_after action (Principal_UserID p) clock b = Some b' /\
    resp = batch_json bank (scanCardStatusBatch id b') [] /\
    answers hmac fp body (if action == "cancel" then 200 else 202) resp r /\
    w_shard w' = ((w_shard w) <| batches ::= <[(bank, id) := b']> |> <| audit ::= fun x => x ++ l |>)
                   <| idem ::= <[(bank, command_scope p action id, key) := r]> |>.
Proof.
  intros Hact Hm Hnew. unfold change in Hm. cbv zeta in Hm. fold (command_scope p action id) in Hm.
  apply bind_inr in Hm as ([] & w1 & H1 & Hm). apply beginTenant_inr in H1 as (Htx & Hs1 & _).
  apply defer_inr in Hm as (w6 & Hm & ->). apply bind_inr in Hm as (replay & w2 & H2 & Hm).
  apply (batch_claim_new _ _ _ _ _ _ _ _ Htx) in H2 as (Hf & r & Htx2 & Hfp & Hid); [|done].
  rewrite Hf in Hm.
  assert (Hok : (action != "execute") && (action != "cancel") = false) by (destruct Hact as [-> | ->]; done).
  rewrite Hok in Hm. apply bind_inr in Hm as (batch & w3 & H3 & Hm). rewrite or_problem_inr in H3.
  apply (batch_change_tx _ _ _ _ _ _ _ _ _ _ _ Htx2) in H3 as (b & b' & clock & l & Hb & Hafter & -> & Htx3).
  apply bind_inr in Hm as ([] & w4 & H4 & Hm). apply ret_inr in Hm as [<- <-].
  rewrite idem_batches, idem_audit in Htx3.
  eapply (finish_batch_inr _ _ _ _ _ _ _ _ _ r body) in H4; [|exact Htx3|apply lookup_insert_eq|done].
  destruct H4 as (r' & Hs & Ha & _). exists b, b', clock, l, r'. rewrite idem_again in Hs.
  repeat (split; [done|]). exact Hs.
Qed.

(** ** A quiet environment

    Without faults a command is decided by the batch it finds. *)

(** The environment raises no fault from here on. *)
Definition calm (w : world) (db : shard_db) : Prop := w_events w = [] /\ w_shard_tx w = Some db.

Lemma calm_exec {A} (f : sql shard_db A) w db a db' :
  calm w db -> f (sql_env_of w) db = inr (a, db') ->
  exists w', shard_exec f w = (inr a, w') /\ calm w' db' /\ w_shard w' = w_shard w /\ w_clock w' = w_clock w.
Proof. intros [He Hdb] Hf. rewrite (exec_quiet _ _ _ _ _ He Hdb Hf). eexists. repeat split; done. Qed.
Lemma calm_fresh_claim c w db :
  calm w db -> idem db !! claim_key c = None ->
  exists id r w', ClaimIdempotency c w = (inr (no_replay id), w') /\
    calm w' (db <| idem ::= <[claim_key c := r]> |>) /\ id_request_fingerprint r = ShardIdempotencyClaim_Fingerprint c /\
    w_shard w' = w_shard w /\ w_clock w' = w_clock w.
Proof.
  intros Hw Hn. unfold ClaimIdempotency, load_idempotency.
  destruct (calm_exec (select_idempotency (ShardIdempotencyClaim_Bank c) (ShardIdempotencyClaim_Scope c)
    (ShardIdempotencyClaim_Key c)) w db None db Hw) as (w1 & E1 & Hw1 & Hs1 & Hc1).
  { unfold select_idempotency, query. fold (claim_key c). by rewrite Hn. }
  assert (Hi : exists r, insert_idempotency c (sql_env_of w1) db =
     inr (Some (gen_random_uuid (sql_env_of w1) 0), db <| idem ::= <[claim_key c := r]> |>) /\
     id_request_fingerprint r = ShardIdempotencyClaim_Fingerprint c).
  { unfold insert_idempotency. cbv zeta. fold (claim_key c). rewrite Hn. eexists. split; [reflexivity|done]. }
  destruct Hi as (r & Hi & Hfp). destruct (calm_exec _ _ _ _ _ Hw1 Hi) as (w2 & E2 & Hw2 & Hs2 & Hc2).
  exists (gen_random_uuid (sql_env_of w1) 0), r, w2. split; [|split; [done|split; [done|split; congruence]]].
  erewrite (bind_eq _ _ _ (no_replay "") w1).
  2:{ unfold row, try, mbind, M_bind. rewrite E1. done. }
  cbn [no_replay ShardIdempotencyReplay_Found ShardIdempotencyReplay_RecordID orb negb String.eqb].
  erewrite (bind_eq _ _ _ (inr _) w2); [done|]. unfold row, try, mbind, M_bind. rewrite E2. done.
Qed.

Lemma calm_claim bank scope key body w db :
  calm w db -> idem db !! (bank, scope, key) = None ->
  exists id r w', batch_claim hmac fp bank scope key body w = (inr (no_replay id), w') /\
    calm w' (db <| idem ::= <[(bank, scope, key) := r]> |>) /\ w_shard w' = w_shard w /\ w_clock w' = w_clock w.
Proof.
  intros Hw Hn. unfold batch_claim, mbind, M_bind, time_now, try.
  destruct (calm_fresh_claim (MkShardIdempotencyClaim bank scope key (Fingerprint hmac fp body) (w_clock w)
    (w_clock w + batch_replayLifetime)) w db Hw Hn) as (id & r & w1 & E & Hw1 & _ & Hs & Hc).
  cbn in *. rewrite E. cbn. eauto 10.
Qed.

(** A batch with no lease and no outcome, as one that was never processed is. *)
Definition idle (b : batch_row) : Prop :=
  ba_lease_owner b = None /\ ba_lease_expires_at b = None /\ ba_applied_count b = 0 /\ ba_ignored_count b = 0.

Lemma calm_lock bank id w db :
  calm w db ->
  exists w', calm w' db /\ w_shard w' = w_shard w /\ w_clock w' = w_clock w /\
    LockCardStatusBatch bank id w =
      (match batches db !! (bank, id) with None => inl ErrNotFound | Some b => inr (scanCardStatusBatch id b) end, w').
Proof.
  intros Hw. destruct (calm_exec (select_batch bank id) w db _ db Hw eq_refl) as (w1 & E & Hw1 & Hs & Hc).
  exists w1. split; [done|]. split; [done|]. split; [done|]. unfold LockCardStatusBatch, row, try, mbind, M_bind. rewrite E.
  destruct (batches db !! (bank, id)); done.
Qed.

Lemma calm_cancel bank id user role entity rq w db b :
  calm w db -> batches db !! (bank, id) = Some b -> idle b ->
  (ba_status b == "draft") || (ba_status b == "queued") = true ->
  exists w' b' l, CancelCardStatusBatch bank id user role entity rq w = (inr (scanCardStatusBatch id b'), w') /\
    batch_after "cancel" user (w_clock w) b = Some b' /\ w_shard w' = w_shard w /\
    calm w' ((db <| batches ::= <[(bank, id) := b']> |>) <| audit ::= fun x => x ++ l |>).
Proof.
  intros Hw Hb (Ho & Hx & Ha & Hi) Hst. destruct (calm_lock bank id w db Hw) as (w1 & Hw1 & Hs1 & Hc1 & E1).
  rewrite Hb in E1. unfold CancelCardStatusBatch. rewrite (bind_eq _ _ _ _ _ E1).
  change (CardStatusBatch_Status (scanCardStatusBatch id b)) with (ba_status b).
  rewrite <- negb_orb, Hst. cbn [negb]. unfold batch_after. rewrite Hst. cbn [String.eqb].
  set (set := fun env (b : batch_row) => b <| ba_status := "cancelled" |> <| ba_completed_at := Some (clock_timestamp env) |>
    <| ba_updated_by := user |>).
  set (b' := b <| ba_status := "cancelled" |> <| ba_completed_at := Some (w_clock w) |> <| ba_updated_by := user |>
               <| ba_updated_at := w_clock w |>).
  assert (Hu : returning (update_batch bank id (fun _ _ => true) set) (fun db => scanCardStatusBatch id <$> batches db !! (bank, id))
                 (sql_env_of w1) db = inr (Some (scanCardStatusBatch id b'), db <| batches ::= <[(bank, id) := b']> |>)).
  { unfold returning, update_batch. rewrite Hb. cbn [sql_env_of clock_timestamp]. rewrite Hc1. fold b'.
    replace ((set (sql_env_of w1) b) <| ba_updated_at := w_clock w |>) with b'
      by (subst b' set; cbn; unfold sql_env_of; cbn; by rewrite Hc1).
    assert (Hg : guard_batch_request b b' && guard_batch_state (w_clock w) (batch_outcomes bank id db) b b' = true).
    { unfold guard_batch_request, guard_batch_state. subst b'. cbn. rewrite Ho, Hx, Ha, Hi.
      rewrite !String.eqb_refl, !bool_decide_eq_true_2, Z.eqb_refl by done.
      apply orb_true_iff in Hst as [Hst|Hst]; apply String.eqb_eq in Hst; rewrite Hst; done. }
    rewrite Hg. cbn. by rewrite lookup_insert_eq. }
  destruct (calm_exec _ _ _ _ _ Hw1 Hu) as (w2 & E2 & Hw2 & Hs2 & Hc2).
  destruct (calm_exec (insert_audit bank "card_status_batch.cancel" "card_status_batch" id "succeeded" rq
    (user_actor user role entity) (JObj [])) _ _ _ _ Hw2 eq_refl) as (w3 & E3 & Hw3 & Hs3 & Hc3).
  eexists w3, b', _. split; [|split; [done|split; [congruence|exact Hw3]]].
  unfold change_batch, row. rewrite (bind_eq _ _ w1 (scanCardStatusBatch id b') w2).
  2:{ by rewrite (bind_eq _ _ _ _ _ E2). }
  by rewrite (bind_eq _ _ _ _ _ E3).
Qed.

Lemma calm_finish bank scope key st raw res user w db :
  calm w db -> exists w' r, finish_batch bank scope key st raw res user w = (inr tt, w') /\
    (idem db !! (bank, scope, key) <> None -> w_shard w' = db <| idem ::= <[(bank, scope, key) := r]> |>) /\
    w_shard_tx w' = None.
Proof.
  intros Hw. unfold finish_batch, FinishIdempotency. cbv zeta. set (res' := if _ : bool then _ else _).
  destruct (idem db !! (bank, scope, key)) as [r|] eqn:E.
  - destruct (calm_exec (finish_idempotency bank scope key st raw res' user) w db tt
      (db <| idem ::= <[(bank, scope, key) := r <| id_status := "succeeded" |> <| id_response_status := Some st |>
            <| id_response_body := Some (jsonb raw) |> <| id_result_reference := res' |> <| id_updated_by := user |>]> |>) Hw)
      as (w1 & E1 & [He1 Htx1] & Hs1 & Hc1).
    { unfold finish_idempotency. by rewrite E. }
    rewrite (bind_eq _ _ _ _ _ E1). unfold shard_commit, pop_event. rewrite Htx1, He1. cbn.
    eexists _, _. split; [done|]. split; [intros _; cbn; done|done].
  - destruct (calm_exec (finish_idempotency bank scope key st raw res' user) w db tt db Hw)
      as (w1 & E1 & [He1 Htx1] & Hs1 & Hc1).
    { unfold finish_idempotency. by rewrite E. }
    rewrite (bind_eq _ _ _ _ _ E1). unfold shard_commit, pop_event. rewrite Htx1, He1. cbn.
    eexists _, (IdemRow "" "" "" None None None 0 "" ""). split; [done|]. split; [done|done].
Qed.

(** ** The theorems *)

(** C10: an accepted batch is a complete draft.  A request that is not a
    repetition either fails, and then (no commit reply being lost) nothing of
    the shard changed, or it names between 1 and 200 distinct cards of the bank
    and commits exactly [with_draft]: a draft batch that counts them, one
    pending item with its own queued operation per card in order of their ids,
    one audit event, and the record that answers repetitions with the same
    response.  No card, history or other batch changes. *)
Theorem create_batch_outcome p bank key target reason ids rq w r w'
    (Hrun : CreateCardStatusBatchWorkflow hmac fp p bank key target reason ids rq w = (r, w'))
    (Hnew : idem (w_shard w) !! (bank, create_scope p, key) = None) :
  match r with
  | inl _ => no_lost_reply w -> w_shard w' = w_shard w
  | inr (resp, st) =>
      st = 201 /\ NoDup ids /\ (1 <= length ids <= maxSize)%nat /\
      Forall (fun c => is_Some (cards (w_shard w) !! (bank, c))) ids /\
      exists body batchID record t items,
        normalize target reason ids = inr (sort_strings ids, body) /\
        List.map CardStatusBatchItem_CardID items = sort_strings ids /\
        drafted bank (create_scope p) key body batchID
          (Draft (trim_space target) (trim_space reason) (Principal_UserID p) (Principal_Role p) (actorEntityID p) rq
             record None)
          t items 201 resp (w_shard w) (w_shard w')
  end.
Proof.
  destruct r as [e|[resp st]].
  - intros Hq. by destruct (create_fails _ _ _ _ _ _ _ _ _ _ _ _ Hrun Hq).
  - destruct (create_inr _ _ _ _ _ _ _ _ _ _ _ Hrun Hnew) as (body & batchID & rec & t & items & Hn & -> & Hc & Hex & Hd).
    destruct (normalize_NoDup _ _ _ _ _ Hn) as [Hnd _]. destruct (normalize_inr _ _ _ _ _ Hn) as (_ & _ & _ & _ & Hl & _).
    do 4 (split; [done|]). eauto 10.
Qed.

(** A failed or cancelled batch is drafted again for the same cards.  A
    retry that is not a repetition either changes nothing of the shard (no
    commit reply being lost), or its source was failed or cancelled and it
    commits exactly [with_draft] for the cards, target and reason of the source,
    which stays as it is and is named as the origin. *)
Theorem retry_batch_outcome p bank id key body rq w r w'
    (Hrun : RetryCardStatusBatchWorkflow hmac fp p bank id key body rq w = (r, w'))
    (Hnew : idem (w_shard w) !! (bank, retry_scope p id, key) = None) :
  match r with
  | inl _ => no_lost_reply w -> w_shard w' = w_shard w
  | inr resp =>
      exists source batchID record t items,
        batches (w_shard w) !! (bank, id) = Some source /\ retryable source /\
        List.map CardStatusBatchItem_CardID items = batch_cards bank id (w_shard w) /\
        ba_item_count source = Z.of_nat (length items) /\
        drafted bank (retry_scope p id) key body batchID
          (Draft (ba_target_status source) (ba_reason source) (Principal_UserID p) (Principal_Role p) (actorEntityID p)
             rq record (Some id))
          t items 201 resp (w_shard w) (w_shard w') /\
        batches (w_shard w') !! (bank, id) = Some source
  end.
Proof.
  destruct r as [e|resp].
  - intros Hq. by destruct (batch_retry_fails _ _ _ _ _ _ _ _ _ _ _ Hrun Hq).
  - destruct (batch_retry_inr _ _ _ _ _ _ _ _ _ Hrun Hnew) as (source & batchID & rec & t & items & Hs & Hr & Hc & Hn & Hd).
    exists source, batchID, rec, t, items. repeat (split; [done|]).
    destruct Hd as (Hnone & _ & _ & r & _ & _ & _ & ->). cbn. rewrite lookup_insert_ne; [done|]. congruence.
Qed.

(** C33: what executing or cancelling a batch does.  A command that is not a
    repetition either changes nothing of the shard (no commit reply being lost),
    or moves the batch as [batch_after] says (execution queues a draft and
    leaves any other batch as it is; cancellation ends a draft or queued batch),
    logs it and records the response; the cards, items and operations stay. *)
Theorem batch_command_outcome action p bank id key body rq w r w'
    (Hact : action = "execute" \/ action = "cancel")
    (Hrun : change hmac fp p bank id key body rq action w = (r, w'))
    (Hnew : idem (w_shard w) !! (bank, command_scope p action id, key) = None) :
  match r with
  | inl _ => no_lost_reply w -> w_shard w' = w_shard w
  | inr resp =>
      exists b b' clock l record, batches (w_shard w) !! (bank, id) = Some b /\
        batch_after action (Principal_UserID p) clock b = Some b' /\
        resp = batch_json bank (scanCardStatusBatch id b') [] /\
        answers hmac fp body (if action == "cancel" then 200 else 202) resp record /\
        w_shard w' = ((w_shard w) <| batches ::= <[(bank, id) := b']> |> <| audit ::= fun x => x ++ l |>)
                       <| idem ::= <[(bank, command_scope p action id, key) := record]> |>
  end.
Proof.
  destruct r as [e|resp].
  - intros Hq. by destruct (change_fails _ _ _ _ _ _ _ _ _ _ _ _ Hrun Hq).
  - by apply (change_inr _ _ _ _ _ _ _ _ _ _ Hact Hrun Hnew).
Qed.

(** Whether a batch may be cancelled is decided by its status alone.  In a
    calm environment, a first cancellation of a batch that was never processed
    ends it when it is a draft or queued; a batch that does not exist is the
    404 problem, any other status the 409 problem, and neither changes the
    shard. *)
Theorem cancel_batch_decided p bank id key body rq w
    (Hcalm : w_events w = []) (Hnew : idem (w_shard w) !! (bank, command_scope p "cancel" id, key) = None)
    (Hidle : forall b, batches (w_shard w) !! (bank, id) = Some b -> idle b) :
  let (r, w') := CancelCardStatusBatchWorkflow hmac fp p bank id key body rq w in
  match batches (w_shard w) !! (bank, id) with
  | None => r = inl (apiError 404 "not_found" "The requested resource does not exist.") /\ w_shard w' = w_shard w
  | Some b =>
      if (ba_status b == "draft") || (ba_status b == "queued") then
        exists b', batch_after "cancel" (Principal_UserID p) (w_clock w) b = Some b' /\
          r = inr (batch_json bank (scanCardStatusBatch id b') []) /\ batches (w_shard w') !! (bank, id) = Some b'
      else
        r = inl (apiError 409 "batch_not_cancellable" "The batch cannot be cancelled after processing begins.") /\
        w_shard w' = w_shard w
  end.
Proof.
  unfold CancelCardStatusBatchWorkflow, change. cbv zeta. fold (command_scope p "cancel" id).
  destruct (beginTenant_quiet bank w Hcalm) as (w1 & E1 & Htx1 & He1 & Hc1 & Hs1 & _). rewrite (bind_eq _ _ _ _ _ E1).
  unfold with_defer.
  destruct (calm_claim bank (command_scope p "cancel" id) key body w1 (w_shard w) (conj He1 Htx1) Hnew)
    as (rid & rec & w2 & E2 & Hw2 & Hs2 & Hc2). rewrite (bind_eq _ _ _ _ _ E2). cbn [no_replay ShardIdempotencyReplay_Found].
  cbn [String.eqb Ascii.eqb Bool.eqb negb andb].
  destruct (calm_lock bank id w2 _ Hw2) as (w3 & Hw3 & Hs3 & Hc3 & E3). unfold or_problem.
  change (batches ((w_shard w) <| idem ::= <[(bank, command_scope p "cancel" id, key) := rec]> |>) !! (bank, id))
    with (batches (w_shard w) !! (bank, id)) in E3.
  destruct (batches (w_shard w) !! (bank, id)) as [b|] eqn:Eb.
  - destruct ((ba_status b == "draft") || (ba_status b == "queued")) eqn:Est.
    + destruct (calm_cancel bank id (Principal_UserID p) (Principal_Role p) (actorEntityID p) rq w2 _ b Hw2 Eb
        (Hidle _ eq_refl) Est) as (w4 & b' & l & E4 & Hb' & Hs4 & Hw4).
      erewrite (bind_eq _ _ w2 _ w4); [|unfold try, mbind, M_bind; rewrite E4; done].
      destruct (calm_finish bank (command_scope p "cancel" id) key 200 (batch_json bank (scanCardStatusBatch id b') [])
        (CardStatusBatch_ID (scanCardStatusBatch id b')) (Principal_UserID p) w4 _ Hw4) as (w5 & r5 & E5 & Hs5 & _).
      rewrite (bind_eq _ _ _ _ _ E5). exists b'. rewrite Hc2, Hc1 in Hb'. split; [done|]. split; [done|].
      cbn [shard_rollback snd]. change (w_shard (w5 <| w_shard_tx := None |>)) with (w_shard w5).
      rewrite Hs5; [apply lookup_insert_eq|]. cbn. by rewrite lookup_insert_eq.
    + assert (Ec : CancelCardStatusBatch bank id (Principal_UserID p) (Principal_Role p) (actorEntityID p) rq w2 =
                     (inl ErrBatchNotCancellable, w3)).
      { unfold CancelCardStatusBatch. rewrite (bind_eq _ _ _ _ _ E3).
        change (CardStatusBatch_Status (scanCardStatusBatch id b)) with (ba_status b). by rewrite <- negb_orb, Est. }
      unfold try, mbind, M_bind. rewrite Ec. cbn. split; [done|]. cbn. congruence.
  - assert (Ec : CancelCardStatusBatch bank id (Principal_UserID p) (Principal_Role p) (actorEntityID p) rq w2 =
                   (inl ErrNotFound, w3)).
    { unfold CancelCardStatusBatch, mbind, M_bind. by rewrite E3. }
    unfold try, mbind, M_bind. rewrite Ec. cbn. split; [done|]. cbn. congruence.
Qed.
End Commands.

(** ** The canonical request *)

Lemma NoDup_adjacent l : NoDup l -> adjacent_equal l = false.
Proof.
  induction 1 as [|a l Ha _ IH]; [done|]. destruct l as [|b l]; [done|]. cbn in *. rewrite IH, orb_false_r.
  apply String.eqb_neq. intros ->. apply Ha, list_elem_of_here.
Qed.

Lemma sort_strings_perm l l' : l ≡ₚ l' -> sort_strings l = sort_strings l'.
Proof.
  intros Hp. unfold sort_strings. apply (StronglySorted_unique String.le).
  - apply StronglySorted_merge_sort; apply _.
  - apply StronglySorted_merge_sort; apply _.
  - by rewrite !merge_sort_Permutation.
Qed.

(** The canonical form of a batch request.  It exists exactly for an
    allowed target, a reason that is not blank, and between 1 and 200 distinct
    canonical card ids; it is then the sorted ids with the bytes that are
    fingerprinted, and it does not depend on the order the ids were given in
    nor on white space around the texts, so such a repetition is recognised. *)
Theorem normalize_canonical target reason ids :
  (is_Some (match normalize target reason ids with inr x => Some x | inl _ => None end) <->
     (trim_space target = "active" \/ trim_space target = "suspended" \/ trim_space target = "closed") /\
     trim_space reason <> "" /\ (1 <= length ids <= 200)%nat /\
     Forall (fun id => isCanonicalUUID id = true) ids /\ NoDup ids) /\
  (forall l body, normalize target reason ids = inr (l, body) -> l = sort_strings ids /\
     body = canonical_body (trim_space target) (trim_space reason) (sort_strings ids)) /\
  (forall target' reason' ids', trim_space target' = trim_space target -> trim_space reason' = trim_space reason ->
     ids' ≡ₚ ids -> normalize target' reason' ids' = normalize target reason ids).
Proof.
  split; [split|split].
  - intros [x H]. destruct (normalize _ _ _) as [|[l body]] eqn:E; [done|].
    destruct (normalize_NoDup _ _ _ _ _ E) as [? _]. apply normalize_inr in E as (_ & _ & _ & ? & ? & ? & ?). done.
  - intros (Ht & Hr & Hl & Hu & Hnd). unfold normalize. cbv zeta.
    replace (_ && _) with false by (destruct Ht as [-> | [-> | ->]]; done).
    replace (_ || _) with false.
    2:{ symmetry. rewrite !orb_false_iff, String.eqb_neq, Nat.eqb_neq, Nat.ltb_ge. unfold maxSize. repeat split; [done|lia..]. }
    replace (forallb _ _) with true.
    2:{ symmetry. apply forallb_forall. intros x Hx. rewrite Forall_forall in Hu. by apply Hu, list_elem_of_In. }
    cbn [negb]. rewrite NoDup_adjacent; [eauto|]. unfold sort_strings. by rewrite merge_sort_Permutation.
  - intros l body E. by destruct (normalize_inr _ _ _ _ _ E) as (-> & -> & _).
  - intros target' reason' ids' Ht Hr Hp. unfold normalize. cbv zeta. rewrite Ht, Hr, Hp, (sort_strings_perm _ _ Hp).
    replace (forallb isCanonicalUUID ids') with (forallb isCanonicalUUID ids); [done|].
    apply Bool.eq_iff_eq_true. rewrite !forallb_forall. split; intros Hall x Hx; apply Hall.
    + apply list_elem_of_In. rewrite <- Hp. by apply list_elem_of_In.
    + apply list_elem_of_In. rewrite Hp. by apply list_elem_of_In.
Qed.

(** ** Witnesses *)

Definition toy_card_id (n : string) : string := "00000000-0000-4000-8000-00000000000" +:+ n.
Definition batch_shard (status : string) : shard_db :=
  toy_shard
    <| cards ::= fun m => <[(bank1, toy_card_id "1") := mk_card "issued" None None None]>
        (<[(bank1, toy_card_id "2") := mk_card "active" None None None]> m) |>
    <| batches := {[ (bank1, "batch-1") := mk_batch "active" status 3 ]} |>.
Definition batch_world (status : string) : world := toy_world (batch_shard status) 100.

Abbreviation toy_create :=
  (CreateCardStatusBatchWorkflow toy_hmac toy_fp toy_principal bank1 "key-1" " closed " "reason"
    [toy_card_id "2"; toy_card_id "1"] "request").

Lemma create_batch_outcome_witness :
  exists resp w', toy_create (batch_world "queued") = (inr (resp, 201), w') /\
    NoDup [toy_card_id "2"; toy_card_id "1"] /\
    List.map (fun p => (ba_status p.2, ba_item_count p.2, ba_target_status p.2)) (bank_rows bank1 (batches (w_shard w'))) =
      [("draft", 2, "closed"); ("queued", 3, "active")].
Proof.
  destruct (toy_create (batch_world "queued")).1 as [e|[resp st]] eqn:E; [exfalso; by vm_compute in E|].
  assert (Hnew : idem (w_shard (batch_world "queued")) !! (bank1, create_scope toy_principal, "key-1") = None) by done.
  destruct (create_batch_outcome toy_hmac toy_fp toy_principal bank1 "key-1" " closed " "reason"
    [toy_card_id "2"; toy_card_id "1"] "request" (batch_world "queued") (inr (resp, st)) _ (run_result _ _ E) Hnew)
    as (-> & Hnd & _).
  exists resp, (toy_create (batch_world "queued")).2. split; [exact (run_result _ _ E)|]. split; [exact Hnd|].
  clear. by vm_compute.
Defined.

Abbreviation toy_retry := (RetryCardStatusBatchWorkflow toy_hmac toy_fp toy_principal bank1 "batch-1" "key-1" "" "request").
Lemma retry_batch_outcome_witness :
  exists resp, (toy_retry (batch_world "cancelled")).1 = inr resp /\
    exists items, List.map CardStatusBatchItem_CardID items = batch_cards bank1 "batch-1" (batch_shard "cancelled") /\
      batch_cards bank1 "batch-1" (batch_shard "cancelled") = ["card-1"; "card-3"; "card-4"].
Proof.
  destruct (toy_retry (batch_world "cancelled")).1 as [e|resp] eqn:E; [exfalso; by vm_compute in E|].
  destruct (retry_batch_outcome toy_hmac toy_fp toy_principal bank1 "batch-1" "key-1" "" "request" (batch_world "cancelled")
    _ _ (run_result _ _ E) ltac:(vm_compute; reflexivity)) as (source & batchID & rec & t & items & _ & _ & Hc & _).
  exists resp. split; [done|]. exists items. split; [exact Hc|]. clear. by vm_compute.
Defined.

Abbreviation toy_change := (change toy_hmac toy_fp toy_principal bank1 "batch-1" "key-1" "" "request").
Lemma batch_command_outcome_witness :
  exists resp b', (toy_change "execute" (batch_world "draft")).1 = inr resp /\
    resp = batch_json bank1 (scanCardStatusBatch "batch-1" b') [] /\
    ba_status <$> batches (w_shard (toy_change "execute" (batch_world "draft")).2) !! (bank1, "batch-1") = Some "queued".
Proof.
  destruct (toy_change "execute" (batch_world "draft")).1 as [e|resp] eqn:E; [exfalso; by vm_compute in E|].
  destruct (batch_command_outcome toy_hmac toy_fp "execute" toy_principal bank1 "batch-1" "key-1" "" "request"
    (batch_world "draft") _ _ (or_introl eq_refl) (run_result _ _ E) ltac:(vm_compute; reflexivity))
    as (b & b' & clock & l & record & _ & _ & Hr & _).
  exists resp, b'. split; [done|]. split; [exact Hr|]. clear. by vm_compute.
Defined.

Lemma toy_batch_idle status b : batches (w_shard (batch_world status)) !! (bank1, "batch-1") = Some b -> idle b.
Proof. intros H. change (Some (mk_batch "active" status 3) = Some b) in H. injection H as <-. done. Qed.
Abbreviation toy_cancel := (CancelCardStatusBatchWorkflow toy_hmac toy_fp toy_principal bank1 "batch-1" "key-1" "" "request").
Lemma cancel_batch_decided_witness :
  (toy_cancel (batch_world "processing")).1 =
    inl (apiError 409 "batch_not_cancellable" "The batch cannot be cancelled after processing begins.") /\
  is_Some (match (toy_cancel (batch_world "queued")).1 with inr resp => Some resp | inl _ => None end).
Proof.
  split.
  - pose proof (cancel_batch_decided toy_hmac toy_fp toy_principal bank1 "batch-1" "key-1" "" "request" (batch_world "processing")
      eq_refl ltac:(vm_compute; reflexivity) (toy_batch_idle "processing")) as H.
    destruct (toy_cancel (batch_world "processing")) as [r w'].
    change (batches (w_shard (batch_world "processing")) !! (bank1, "batch-1")) with (Some (mk_batch "active" "processing" 3)) in H.
    exact (proj1 H).
  - pose proof (cancel_batch_decided toy_hmac toy_fp toy_principal bank1 "batch-1" "key-1" "" "request" (batch_world "queued")
      eq_refl ltac:(vm_compute; reflexivity) (toy_batch_idle "queued")) as H.
    destruct (toy_cancel (batch_world "queued")) as [r w'].
    change (batches (w_shard (batch_world "queued")) !! (bank1, "batch-1")) with (Some (mk_batch "active" "queued" 3)) in H.
    destruct H as (b' & _ & -> & _). eexists. reflexivity.
Defined.
