(* ===== verification/Authorization.v ===== *)
(** * Authorization: decisions on card credentials

    [internal/authorization] and [internal/repository/shard/authorization_store.go]:
    a bank asks whether a pair of number and CVV is good; the decision is stored
    under the bank's transaction reference and replayed from there.  The handler
    in front of it is in [AuthorizationHttp]. *)

From S2P Require Import Prelude Json Http Domain Stores Uuid Vault World ShardTx Guards CardService.
Open Scope string_scope.
Open Scope list_scope.
Open Scope Z_scope.

(** ** authorization_store.go *)

(** The advisory lock of the reference reads and writes nothing. *)
Definition LockAuthorizationReference (bank reference : string) : M unit := shard_exec (query (fun _ _ => tt)).

Definition authorization_of (reference : string) (r : authz_row) : AuthorizationVerification :=
  MkAuthorizationVerification (az_decision_id r) reference (az_decision r == "approved").

Definition find_authorization (bank reference : string) : M (option AuthorizationVerification) :=
  r ← try (row (shard_exec (query (fun _ db => authorization_of reference <$> authz db !! (bank, reference)))));
  match r with
  | inl err => if errors_is err ErrNoRows then mret None else throw err
  | inr value => mret (Some value)
  end.

Definition find_card_state (bank cardID : string) : M (option CardAuthorizationState) :=
  r ← try (row (shard_exec (query (fun _ db =>
        (fun c => MkCardAuthorizationState cardID (cd_status c) (cd_expires_at c)) <$> cards db !! (bank, cardID)))));
  match r with
  | inl err => if errors_is err ErrNoRows then mret None else throw err
  | inr value => mret (Some value)
  end.

(** The CHECK of [bank.authorization_verifications]. *)
Definition check_authorization (r : authz_row) : bool :=
  ((az_decision r == "approved") && (az_decision_code r == "approved") && negb (bool_decide (az_card_id r = None)))
  || ((az_decision r == "declined") && (az_decision_code r != "approved")).

Definition authorization_row (input : AuthorizationVerificationCreate) : authz_row :=
  AuthzRow (AuthorizationVerificationCreate_DecisionID input) (nullable (AuthorizationVerificationCreate_CardID input))
    (AuthorizationVerificationCreate_Decision input) (AuthorizationVerificationCreate_DecisionCode input)
    (AuthorizationVerificationCreate_DecidedAt input).

(** INSERT: the reference and the decision id are unique in the bank. *)
Definition insert_authorization (bank : string) (input : AuthorizationVerificationCreate)
    : sql shard_db AuthorizationVerification := fun _ db =>
  let r := authorization_row input in
  let reference := AuthorizationVerificationCreate_BankTransactionRef input in
  if negb (check_authorization r) then inl check_violation
  else if existsb (fun p => az_decision_id p.2 == az_decision_id r) (bank_rows bank (authz db)) then inl unique_violation
  else match insert_pk (bank, reference) r (authz db) with
       | inl err => inl err
       | inr t => inr (authorization_of reference r, db <| authz := t |>)
       end.

Definition CreateAuthorizationVerification (bank : string) (input : AuthorizationVerificationCreate)
    : M AuthorizationVerification := shard_exec (insert_authorization bank input).

(** ** service.go *)

Definition decisionDeclined : string := "declined".
Definition draw_decision_id : M string := wrap "authorization: generate decision id" (b ← rand16; mret (newDecisionID b)).

Section Service.
Context {V : CredentialVault}.
(** Whether [s.verifier] is configured. *)
Context (verifier_configured : bool).

(** [VaultVerifier.Verify]. *)
Definition vault_verifier (pan cvv : string) : M VerificationResult :=
  result ← cv_Verify pan cvv; mret (MkVerificationResult (Verif_CardID result) (Verif_Valid result)).

(** [state.ExpiresAt == nil || state.ExpiresAt.After(now)], of an active card. *)
Definition card_eligible (state : CardAuthorizationState) (now : Z) : bool :=
  (CardAuthorizationState_Status state == "active") &&
  match CardAuthorizationState_ExpiresAt state with None => true | Some t => now <? t end.

(** The decision on a verified or refused pair. *)
Definition decide_authorization (bank reference decisionID : string) (verification : VerificationResult) (decidedAt : Z)
    : M AuthorizationVerificationCreate :=
  let input := MkAuthorizationVerificationCreate decisionID reference "" decisionDeclined "credential_invalid" decidedAt in
  if negb (Verif_Valid verification) then mret input
  else
    state ← find_card_state bank (Verif_CardID verification);
    match state with
    | None => mret (input <| AuthorizationVerificationCreate_DecisionCode := "card_not_found" |>)
    | Some state =>
        now ← time_now;
        let input := input <| AuthorizationVerificationCreate_CardID := CardAuthorizationState_CardID state |> in
        if card_eligible state now then
          mret (input <| AuthorizationVerificationCreate_Decision := "approved" |>
                      <| AuthorizationVerificationCreate_DecisionCode := "approved" |>)
        else mret (input <| AuthorizationVerificationCreate_DecisionCode := "card_ineligible" |>)
    end.

(** [Service.Verify] for a reference without a decision. *)
Definition verify_fresh (bank reference pan cvv : string) : M AuthorizationVerification :=
  verification ← wrap "verify credentials" (vault_verifier pan cvv);
  decisionID ← draw_decision_id;
  decidedAt ← time_now;
  input ← decide_authorization bank reference decisionID verification decidedAt;
  decision ← CreateAuthorizationVerification bank input;
  shard_commit ;;
  mret decision.

Definition authorization_Verify (bank reference pan cvv : string) : M AuthorizationVerification :=
  if negb verifier_configured then throw (ErrMsg "authorization: credential vault is not configured")
  else
    beginTenant bank ;;
    with_defer shard_rollback (
      LockAuthorizationReference bank reference ;;
      existing ← find_authorization bank reference;
      match existing with
      | Some existing => shard_commit ;; mret existing
      | None => verify_fresh bank reference pan cvv
      end).

End Service.
