(* ===== verification/AuthorizationSafety.v ===== *)
(** * AuthorizationSafety: when a pair of number and CVV is approved

    A decision is made once per reference, from the vault and the card at that
    time, and replayed from the record. *)

From S2P Require Import Prelude Json Domain Stores Uuid Vault World ShardTx Guards ShardOrder CardService Scenario CardSafety Authorization.
Open Scope string_scope.
Open Scope list_scope.
Open Scope Z_scope.

(** ** Frames *)

Section DbFrames.
Context (R : relation world) `{!DbRel R}.
Ltac go := frame_with ltac:(frame_leaf).
Lemma db_LockReference b r : frames R (LockAuthorizationReference b r).
Proof. unfold LockAuthorizationReference. go. Qed.
Lemma db_find_authorization b r : frames R (find_authorization b r).
Proof. unfold find_authorization. go. Qed.
Lemma db_find_card_state b c : frames R (find_card_state b c).
Proof. unfold find_card_state. go. Qed.
Lemma db_CreateAuthorization b i : frames R (CreateAuthorizationVerification b i).
Proof. unfold CreateAuthorizationVerification. go. Qed.
Lemma db_draw_decision : frames R draw_decision_id.
Proof. unfold draw_decision_id. go. Qed.
Lemma db_decide b r d v t : frames R (decide_authorization b r d v t).
Proof.
  unfold decide_authorization. cbv zeta. frame_with ltac:(try solve [auto with frames | apply db_find_card_state]).
Qed.
End DbFrames.
#[export] Hint Resolve db_LockReference db_find_authorization db_CreateAuthorization db_draw_decision db_decide : frames.

Section Decisions.
Context {V : CredentialVault} {L : VaultLaws V}.

Lemma untouched_verifier p c : frames shard_untouched (vault_verifier p c).
Proof.
  eapply frames_mono; [apply vault_only_untouched|]. unfold vault_verifier. apply (frames_bind _); [apply verify_frame|].
  intros. apply (frames_ret _).
Qed.
Lemma authorization_fails configured b r p c : fails shard_untouched (authorization_Verify configured b r p c).
Proof.
  unfold authorization_Verify, verify_fresh.
  repeat first [apply untouched_verifier | progress fail_with ltac:(try solve [auto with frames | apply untouched_verifier])].
Qed.

(** ** What a decision says *)

(** The pair is granted for an active card of the bank that is not expired. *)
Definition rightful (bank pan cvv : string) (v : vault_state) (db : shard_db) (t : Z) : Prop :=
  exists card c, cv_grants v pan cvv card /\ cards db !! (bank, card) = Some c /\ cd_status c = "active" /\
    match cd_expires_at c with None => True | Some e => t < e end.

(** A lookup whose missing row is not an error. *)
Lemma optional_tx {A} (g : shard_db -> option A) w db o w' :
  w_shard_tx w = Some db ->
  (r ← try (row (shard_exec (query (fun _ db => g db))));
   match r with
   | inl err => if errors_is err ErrNoRows then mret None else throw err
   | inr value => mret (Some value)
   end) w = (inr o, w') -> o = g db /\ w_shard_tx w' = Some db.
Proof.
  intros Hdb H. apply bind_inr in H as (q & w1 & Hq & H). rewrite try_inr in Hq.
  unfold row in Hq. apply bind_run in Hq as [(e & -> & Hq)|(x & w2 & Hq & Hx)].
  - destruct (exec_either _ _ _ _ Hq) as [[e' [= ->]]|[a [=]]]. unfold errors_is in H.
    rewrite bool_decide_eq_false_2 in H by done. by apply throw_inr in H.
  - apply (exec_tx _ _ _ _ _ Hdb) in Hq as (env & db' & Hf & Htx & _). injection Hf as <- <-.
    destruct (g db) as [r|]; injection Hx as <- <-; cbn in H; apply ret_inr in H as [<- <-]; done.
Qed.

(** The inserted decision, committed by [verify_fresh]. *)
Lemma insert_authorization_inr bank input env db d db' :
  insert_authorization bank input env db = inr (d, db') ->
  let ref := AuthorizationVerificationCreate_BankTransactionRef input in
  authz db !! (bank, ref) = None /\ check_authorization (authorization_row input) = true /\
  d = authorization_of ref (authorization_row input) /\
  db' = db <| authz ::= <[(bank, ref) := authorization_row input]> |>.
Proof.
  unfold insert_authorization. destruct (check_authorization _) eqn:Ec; [|done]. cbn [negb].
  destruct (existsb _ _); [done|]. case_match eqn:E; [done|]. intros [= <- <-].
  apply insert_pk_inr in E as [? ->]. done.
Qed.

(** The decision follows the vault and the card it names. *)
Lemma decide_tx bank ref id pan cvv v vs t w db input w' :
  w_shard_tx w = Some db ->
  (if Verif_Valid v then cv_grants vs pan cvv (Verif_CardID v) else forall card, ~ cv_grants vs pan cvv card) ->
  decide_authorization bank ref id v t w = (inr input, w') ->
  w_shard_tx w' = Some db /\ AuthorizationVerificationCreate_BankTransactionRef input = ref /\
  exists t, w_clock w <= t <= w_clock w' /\
    (AuthorizationVerificationCreate_Decision input = "approved" <-> rightful bank pan cvv vs db t).
Proof.
  intros Hdb Hv H. unfold decide_authorization in H. cbv zeta in H.
  destruct (Verif_Valid v); cbn [negb] in H.
  - apply bind_inr in H as (o & w1 & H1 & H). pose proof (db_find_card_state later _ _ _ _ _ H1) as Hc1. red in Hc1.
    apply (optional_tx _ _ _ _ _ Hdb) in H1 as [-> Htx]. destruct (cards db !! (bank, Verif_CardID v)) as [c|] eqn:E; cbn in H.
    + apply bind_inr in H as (now & w2 & Hn & H). apply time_inr in Hn as [-> ->].
      assert (Hau : card_eligible (MkCardAuthorizationState (Verif_CardID v) (cd_status c) (cd_expires_at c)) (w_clock w1) = true
                    <-> rightful bank pan cvv vs db (w_clock w1)).
      { unfold card_eligible, rightful. cbn. rewrite andb_true_iff, String.eqb_eq. split.
        - intros [Hs He]. exists (Verif_CardID v), c. repeat (split; [done|]). destruct (cd_expires_at c); [by apply Z.ltb_lt|done].
        - intros (card & c' & Hg & Hc' & Hs & He). rewrite (grants_one _ _ _ _ _ Hv Hg), Hc' in E. injection E as <-.
          split; [done|]. destruct (cd_expires_at c'); [by apply Z.ltb_lt|done]. }
      destruct (card_eligible _ _); apply ret_inr in H as [<- <-]; (split; [done|split; [done|exists (w_clock w1); split; [lia|]]]);
        rewrite <- Hau; cbn; done.
    + apply ret_inr in H as [<- <-]. split; [done|split; [done|exists (w_clock w1); split; [lia|]]]. cbn. split; [done|].
      intros (card & c & Hg & Hc' & _). rewrite (grants_one _ _ _ _ _ Hv Hg), Hc' in E. done.
  - apply ret_inr in H as [<- <-]. split; [done|split; [done|exists (w_clock w); split; [lia|]]]. cbn. split; [done|].
    intros (card & c & Hg & _). by apply Hv in Hg.
Qed.

Lemma verify_fresh_inr bank ref pan cvv w db d w' :
  w_shard_tx w = Some db -> w_shard w = db -> verify_fresh bank ref pan cvv w = (inr d, w') ->
  exists r t, authz db !! (bank, ref) = None /\ d = authorization_of ref r /\
    w_shard w' = db <| authz ::= <[(bank, ref) := r]> |> /\ w_clock w <= t <= w_clock w' /\
    (az_decision r = "approved" <-> rightful bank pan cvv (w_vault w) db t).
Proof.
  intros Hdb Hs Hm. unfold verify_fresh in Hm. apply bind_inr in Hm as (v & w1 & H1 & Hm). rewrite wrap_inr in H1.
  unfold vault_verifier in H1. apply bind_inr in H1 as (v0 & w1' & Hv & H1). apply ret_inr in H1 as [Hveq <-].
  pose proof (verify_frame _ _ _ _ _ Hv) as (_ & Htx1 & _ & _ & _ & Hc1).
  apply verify_grants in Hv as [_ Hg]. assert (v = v0) as -> by (by destruct v0).
  apply bind_inr in Hm as (id & w2 & H2 & Hm).
  assert (Hw2 : w_shard_tx w2 = w_shard_tx w1' /\ w_clock w2 = w_clock w1').
  { revert H2. unfold draw_decision_id, wrap, mbind, M_bind, rand16. destruct (w_entropy w1'); [done|]. by intros [= _ <-]. }
  destruct Hw2 as [Htx2 Hc2]. rewrite Htx1, Hdb in Htx2.
  apply bind_inr in Hm as (t0 & w3 & H3 & Hm). apply time_inr in H3 as [-> ->].
  apply bind_inr in Hm as (input & w4 & H4 & Hm).
  apply (decide_tx _ _ _ _ _ _ _ _ _ _ _ _ Htx2 Hg) in H4 as (Htx4 & Href & t & Ht & Hau).
  apply bind_inr in Hm as (dec & w5 & H5 & Hm).
  pose proof (db_CreateAuthorization later _ _ _ _ _ H5) as Hc5. red in Hc5.
  apply (exec_tx _ _ _ _ _ Htx4) in H5 as (env & db5 & Hf & Htx5 & _).
  apply insert_authorization_inr in Hf as (Hn & _ & -> & ->). rewrite Href in *.
  apply bind_inr in Hm as ([] & w6 & H6 & Hm). apply ret_inr in Hm as [<- <-].
  apply commit_inr in H6 as (db6 & Hdb6 & Hs6 & _ & Hc6 & _). rewrite Htx5 in Hdb6. injection Hdb6 as <-.
  exists (authorization_row input), t. repeat (split; [done|]). split; [lia|done].
Qed.

Lemma Verify_outcome configured bank ref pan cvv w r w'
    (Hrun : authorization_Verify configured bank ref pan cvv w = (r, w')) :
  match r with
  | inl _ => no_lost_reply w -> w_shard w' = w_shard w
  | inr d =>
      exists row, authz (w_shard w') !! (bank, ref) = Some row /\ d = authorization_of ref row /\
        (authz (w_shard w) !! (bank, ref) = Some row /\ w_shard w' = w_shard w /\ w_vault w' = w_vault w \/
         authz (w_shard w) !! (bank, ref) = None /\
         w_shard w' = (w_shard w) <| authz ::= <[(bank, ref) := row]> |> /\
         exists t, w_clock w <= t <= w_clock w' /\
           (az_decision row = "approved" <-> rightful bank pan cvv (w_vault w) (w_shard w) t))
  end.
Proof.
  destruct r as [e|d]; [intros Hq; by destruct (authorization_fails _ _ _ _ _ _ _ _ Hrun Hq)|].
  unfold authorization_Verify in Hrun. destruct configured; [|by apply throw_inr in Hrun]. cbn [negb] in Hrun.
  apply bind_inr in Hrun as ([] & w1 & H1 & Hm). apply beginTenant_inr in H1 as (Htx & Hs1 & Hc1 & _ & Hv1 & _).
  apply defer_inr in Hm as (w9 & Hm & ->). apply bind_inr in Hm as ([] & w2 & H2 & Hm).
  pose proof H2 as H2'. apply (exec_inr _ _ _ _) in H2' as (? & ? & ? & _ & _ & _ & _ & _ & _ & _ & Hs2 & _ & Hv2 & _).
  pose proof (db_LockReference later _ _ _ _ _ H2) as Hc2. red in Hc2.
  apply (exec_tx _ _ _ _ _ Htx) in H2 as (env & db2 & Hf2 & Htx2 & _). injection Hf2 as <-.
  apply bind_inr in Hm as (o & w3 & H3 & Hm). pose proof H3 as H3'.
  pose proof (db_find_authorization later _ _ _ _ _ H3) as Hc3. red in Hc3.
  pose proof (db_find_authorization committed _ _ _ _ _ H3) as Hs3. red in Hs3.
  pose proof (db_find_authorization vault_same _ _ _ _ _ H3) as [Hv3 _].
  apply (optional_tx _ _ _ _ _ Htx2) in H3 as [-> Htx3].
  change (w_shard (shard_rollback w9).2) with (w_shard w9). change (w_vault (shard_rollback w9).2) with (w_vault w9).
  change (w_clock (shard_rollback w9).2) with (w_clock w9).
  destruct (authz (w_shard w) !! (bank, ref)) as [row|] eqn:E; cbn [fmap option_fmap option_map] in Hm.
  - apply bind_inr in Hm as ([] & w4 & H4 & Hm). apply ret_inr in Hm as [<- <-].
    apply commit_inr in H4 as (db4 & Hdb4 & Hs4 & _ & _ & Hv4 & _). rewrite Htx3 in Hdb4. injection Hdb4 as <-.
    exists row. rewrite Hs4. split; [done|]. split; [done|]. left. repeat split; congruence.
  - apply (verify_fresh_inr _ _ _ _ _ (w_shard w)) in Hm as (row & t & Hn & -> & Hs & Ht & Hau); [|done|congruence].
    exists row. rewrite Hs. split; [cbn; by rewrite lookup_insert_eq|]. split; [done|]. right. split; [done|]. split; [done|].
    exists t. split; [lia|]. rewrite Hv3, Hv2, Hv1 in Hau. exact Hau.
Qed.

(** When a pair is approved.  A verification that succeeds returns the
    decision stored under the bank's reference: the one that was there, whatever
    the credentials, and then nothing changes; or one made now, which is the
    only change of the shard and approves exactly when, at a moment of the call,
    the vault grants the pair for an active card of that bank that has not
    expired.  One that fails stores nothing (no commit reply being lost). *)
Theorem authorization_outcome configured bank ref pan cvv w r w'
    (Hrun : authorization_Verify configured bank ref pan cvv w = (r, w')) :
  match r with
  | inl _ => no_lost_reply w -> w_shard w' = w_shard w
  | inr d =>
      exists row, authz (w_shard w') !! (bank, ref) = Some row /\ d = authorization_of ref row /\
        (authz (w_shard w) !! (bank, ref) = Some row /\ w_shard w' = w_shard w /\ w_vault w' = w_vault w \/
         authz (w_shard w) !! (bank, ref) = None /\
         w_shard w' = (w_shard w) <| authz ::= <[(bank, ref) := row]> |> /\
         exists t, w_clock w <= t <= w_clock w' /\
           (az_decision row = "approved" <-> rightful bank pan cvv (w_vault w) (w_shard w) t))
  end.
Proof. exact (Verify_outcome configured bank ref pan cvv w r w' Hrun). Qed.
End Decisions.

(** ** Witness *)

Definition vault_key : string := "key".
Definition provisioned_vault : vault_state := (Provision toy_digest vault_key "card-2" empty_vault).2.
Definition authorization_world : world := (toy_world toy_shard 100) <| w_vault := provisioned_vault |>.
Abbreviation toy_verify := (authorization_Verify (V := memory_vault toy_digest vault_key) true bank1 "ref-1"
  (pan toy_digest vault_key "card-2") (cvv toy_digest vault_key "card-2")).

Lemma authorization_outcome_witness :
  exists d row, (toy_verify authorization_world).1 = inr d /\ AuthorizationVerification_Approved d = true /\
    authz (w_shard (toy_verify authorization_world).2) !! (bank1, "ref-1") = Some row /\ d = authorization_of "ref-1" row.
Proof.
  destruct (toy_verify authorization_world).1 as [e|d] eqn:E; [exfalso; by vm_compute in E|].
  destruct (authorization_outcome (V := memory_vault toy_digest vault_key) true bank1 "ref-1"
    (pan toy_digest vault_key "card-2") (cvv toy_digest vault_key "card-2") authorization_world (inr d) _ (run_result _ _ E))
    as (row & Hrow & Hd & _).
  exists d, row. split; [done|]. split; [|split; [exact Hrow|exact Hd]].
  assert (Ha : (AuthorizationVerification_Approved <$>
    match (toy_verify authorization_world).1 with inr d => Some d | inl _ => None end) = Some true) by (clear; by vm_compute).
  rewrite E in Ha. by injection Ha as ->.
Defined.
