(* ===== verification/AuthorizationHttp.v ===== *)
(** * AuthorizationHttp: the mTLS boundary of the authorization service

    [internal/authorizationhttp/handler.go], from the bytes of the body to the
    response, and the mapping of client certificates to banks that
    [cmd/authorization/main.go] loads.  The certificates of a request are those
    TLS verified; SHA-256 is a parameter. *)

From S2P Require Import Prelude Text Json JsonText JsonRoundtrip Http Domain Stores Vault World ShardTx Guards CardService Authorization AuthorizationSafety Scenario.
Open Scope string_scope.
Open Scope list_scope.
Open Scope Z_scope.

(** ** Bodies *)

Record verification_request := VerificationRequest { vr_reference : string; vr_pan : string; vr_cvv : string }.
Definition verification_fields : fields verification_request :=
  [("bank_transaction_reference", string_field (fun s r => VerificationRequest s (vr_pan r) (vr_cvv r)));
   ("pan", string_field (fun s r => VerificationRequest (vr_reference r) s (vr_cvv r)));
   ("cvv", string_field (fun s r => VerificationRequest (vr_reference r) (vr_pan r) s))].

Definition max_verification_body : nat := Z.to_nat 2048.
(** [Decoder.Decode] of the next value of a stream, of which [l] is what may be
    read and [cut] whether the limit hides more.  An object or an array ends at
    its bracket; another value at the byte after it, or at the end. *)
Definition next_value (cut : bool) (l : list N) : option (jtext * list N) :=
  p ← parse_value max_nesting l;
  match p with
  | (TObj _ as t, rest) | (TArr _ as t, rest) => Some (t, rest)
  | (t, []) => if cut then None else Some (t, [])
  | (t, rest) => Some (t, rest)
  end.
(** Two calls of [Decode]: the request, when the second call does not succeed
    as well.  The second reads into a struct without fields. *)
Definition decode_verification (body : string) : option verification_request :=
  let bytes := bytes_of body in
  let cut := (max_verification_body <? length bytes)%nat in
  first ← next_value cut (take max_verification_body bytes);
  request ← decode_struct true verification_fields (VerificationRequest "" "" "") first.1;
  match next_value cut first.2 ≫= (fun second => decode_struct (R := unit) true [] tt second.1) with
  | Some _ => None
  | None => Some request
  end.

Definition valid_verification (request : verification_request) : bool :=
  (trim_space (vr_reference request) != "") && (String.length (vr_reference request) <=? 256)%nat
  && (13 <=? String.length (vr_pan request))%nat && (String.length (vr_pan request) <=? 19)%nat
  && all_digits (vr_pan request)
  && ((String.length (vr_cvv request) =? 3)%nat || (String.length (vr_cvv request) =? 4)%nat)
  && all_digits (vr_cvv request).

(** ** The handler *)

(** What the handler reads of a request: the certificates of the TLS peer (none
    without TLS) and the body. *)
Record http_request := HttpRequest {
  hq_method : string; hq_path : string; hq_certificates : option (list string); hq_body : string
}.

Definition status_text (status : Z) : string :=
  if status =? 400 then "Bad Request" else if status =? 401 then "Unauthorized" else "Internal Server Error".

Definition authorization_writeProblem (status : Z) (detail : string) : http_response :=
  Response status "application/problem+json" true (Json (JObj
    [("code", JStr "authorization_verification_failed"); ("detail", JStr detail); ("status", JNum status);
     ("title", JStr (status_text status)); ("type", JStr "about:blank")])).
Definition authorization_writeJSON (status : Z) (value : json) : http_response :=
  Response status "application/json" true (Json value).
(** The body of a decision. *)
Definition decision_json (decision : AuthorizationVerification) : json :=
  JObj [("bank_transaction_reference", JStr (AuthorizationVerification_BankTransactionRef decision));
        ("decision", JStr (if AuthorizationVerification_Approved decision then "approved" else "declined"));
        ("decision_id", JStr (AuthorizationVerification_DecisionID decision))].

Section Handler.
Context {V : CredentialVault} (verifier_configured : bool).
(** SHA-256 in hexadecimal, and the banks by the digest of their certificate. *)
Context (sha256_hex : string -> string) (banks : gmap string string).

Definition bankForRequest (r : http_request) : option string :=
  match hq_certificates r with
  | Some [certificate] => banks !! sha256_hex certificate
  | _ => None
  end.

Definition authorization_ServeHTTP (r : http_request) : M http_response :=
  if (hq_method r != "POST") || (hq_path r != "/v1/authorization-verifications") then
    mret (Response 404 "text/plain; charset=utf-8" false (Text ("404 page not found" +:+ of_bytes [10%N])))
  else
    match bankForRequest r with
    | None => mret (authorization_writeProblem 401 "client authentication failed")
    | Some bank =>
        match decode_verification (hq_body r) with
        | Some request =>
            if valid_verification request then
              d ← try (authorization_Verify verifier_configured bank (vr_reference request) (vr_pan request) (vr_cvv request));
              match d with
              | inl _ => mret (authorization_writeProblem 500 "verification unavailable")
              | inr decision => mret (authorization_writeJSON 200 (decision_json decision))
              end
            else mret (authorization_writeProblem 400 "invalid request")
        | None => mret (authorization_writeProblem 400 "invalid request")
        end
    end.
End Handler.

(** ** The mapping of certificates *)

(** [json.Unmarshal] into a map of strings; [null] is the empty string. *)
Fixpoint string_members (l : list (string * jtext)) (m : gmap string string) : option (gmap string string) :=
  match l with
  | [] => Some m
  | (k, TStr s) :: rest => string_members rest (<[k := s]> m)
  | (k, TNull) :: rest => string_members rest (<[k := ""]> m)
  | _ => None
  end.
Definition unmarshal_strings (text : string) : option (gmap string string) :=
  t ← parse_json text;
  match t with TObj l => string_members l ∅ | TNull => Some ∅ | _ => None end.

Section Mapping.
(** The environment, and the contents of the files that can be read. *)
Context (getenv : string -> string) (ReadFile : string -> option string).

Definition certificateBanks : option (gmap string string) :=
  let fromEnvironment := trim_space (getenv "AUTHORIZATION_CLIENT_CERTIFICATES") in
  let mappingFile := trim_space (getenv "AUTHORIZATION_CLIENT_CERTIFICATES_FILE") in
  if ((fromEnvironment == "") && (mappingFile == "")) || ((fromEnvironment != "") && (mappingFile != "")) then None
  else
    data ← (if mappingFile != "" then ReadFile mappingFile else Some fromEnvironment);
    banks ← unmarshal_strings data;
    if bool_decide (size banks = O) then None else Some banks.

(** [hex.DecodeString] succeeds on an even number of these. *)
Definition hex_char (c : Ascii.ascii) : bool :=
  let n := Ascii.N_of_ascii c in
  (((48 <=? n) && (n <=? 57)) || ((97 <=? n) && (n <=? 102)) || ((65 <=? n) && (n <=? 70)))%N.
Definition fingerprint_ok (fingerprint : string) : bool :=
  (String.length fingerprint =? 64)%nat && forallb hex_char (String.list_ascii_of_string fingerprint).
(** The mapping [mtlsConfiguration] accepts. *)
Definition client_banks : option (gmap string string) :=
  banks ← certificateBanks;
  if bool_decide (map_Forall (fun fingerprint bank => fingerprint_ok fingerprint && (trim_space bank != "") = true) banks)
  then Some banks else None.
End Mapping.

(** ** Lemmas *)

Definition request_json (q : verification_request) : json :=
  JObj [("bank_transaction_reference", JStr (vr_reference q)); ("pan", JStr (vr_pan q)); ("cvv", JStr (vr_cvv q))].
(** A written request is read back, whatever follows it that is not an empty
    object or null: also text that is not JSON at all. *)
Lemma written_request_read q rest : json_utf8 (request_json q) = true ->
  (length (bytes_of (json_encode (request_json q) +:+ rest)) <= max_verification_body)%nat ->
  next_value false (bytes_of rest) ≫= (fun second => decode_struct (R := unit) true [] tt second.1) = None ->
  decode_verification (json_encode (request_json q) +:+ rest) = Some q.
Proof.
  intros Hu Hlen Hrest. unfold decode_verification. cbv zeta. rewrite (proj2 (Nat.ltb_ge _ _) Hlen), take_ge by done.
  rewrite bytes_of_app.
  assert (Hp : next_value false (bytes_of (json_encode (request_json q)) ++ bytes_of rest) = Some (text_of (request_json q), bytes_of rest)).
  { unfold next_value, request_json. by rewrite object_read by (done || by apply max_nesting_large). }
  rewrite Hp. cbn [mbind option_bind text_of request_json List.map fst snd].
  change (decode_struct true verification_fields (VerificationRequest "" "" "") _) with (Some (VerificationRequest (vr_reference q) (vr_pan q) (vr_cvv q))).
  cbn [mbind option_bind]. cbn [mbind option_bind] in Hrest. rewrite Hrest. by destruct q.
Qed.

(** ** Over HTTP *)

Section Boundary.
Context {V : CredentialVault} {L : VaultLaws V} (configured : bool) (sha256_hex : string -> string) (banks : gmap string string).
Abbreviation answer_of r := (authorization_ServeHTTP configured sha256_hex banks r).

(** The bank and the request of a call the handler passes on. *)
Definition verification_of (r : http_request) : option (string * verification_request) :=
  if (hq_method r == "POST") && (hq_path r == "/v1/authorization-verifications") then
    bank ← bankForRequest sha256_hex banks r;
    request ← decode_verification (hq_body r);
    if valid_verification request then Some (bank, request) else None
  else None.

Ltac refused := eexists; split; [done|]; split; [cbn; auto|done].
(** C8: the boundary of the authorization service.  Every request is answered.
    Only one POST on its path, over TLS with exactly one client certificate that
    is mapped to a bank, whose body is a request of the right shape, reaches the
    service, and only for that bank.  It is answered with the decision stored
    under the bank's reference: the one that was there, or one made now, which is
    the only change of the shard and approves exactly when the vault grants the
    pair for an active card of that bank; or 500, and then nothing is stored (no
    commit reply being lost).  Any other request is refused and does nothing. *)
Theorem authorization_over_http r w x w' : answer_of r w = (x, w') ->
  exists response, x = inr response /\
  match verification_of r with
  | None => (rs_status response = 404 \/ rs_status response = 401 \/ rs_status response = 400) /\ w' = w
  | Some (bank, request) =>
      rs_status response = 500 /\ (no_lost_reply w -> w_shard w' = w_shard w) \/
      exists row, authz (w_shard w') !! (bank, vr_reference request) = Some row /\
        response = authorization_writeJSON 200 (decision_json (authorization_of (vr_reference request) row)) /\
        (authz (w_shard w) !! (bank, vr_reference request) = Some row /\ w_shard w' = w_shard w \/
         authz (w_shard w) !! (bank, vr_reference request) = None /\
         w_shard w' = (w_shard w) <| authz ::= <[(bank, vr_reference request) := row]> |> /\
         exists t, w_clock w <= t <= w_clock w' /\
           (az_decision row = "approved" <-> rightful bank (vr_pan request) (vr_cvv request) (w_vault w) (w_shard w) t))
  end.
Proof.
  unfold authorization_ServeHTTP, verification_of. generalize (decode_verification (hq_body r)). intros body H.
  destruct (hq_method r == "POST"); [|injection H as <- <-; refused].
  destruct (hq_path r == "/v1/authorization-verifications"); [|injection H as <- <-; refused]. cbn [negb orb andb] in *.
  destruct (bankForRequest _ _ r) as [bank|]; [|injection H as <- <-; refused]. cbn [mbind option_bind].
  destruct body as [request|]; [|injection H as <- <-; refused]. cbn [mbind option_bind].
  destruct (valid_verification request); [|injection H as <- <-; refused].
  unfold mbind, M_bind, try in H. destruct (authorization_Verify _ _ _ _ _ w) as [d w1] eqn:Hd. apply Verify_outcome in Hd.
  destruct d as [e|d]; injection H as <- <-; eexists; (split; [done|]).
  - left. by split.
  - right. destruct Hd as (row & Hrow & -> & Hcase). exists row. split; [done|]. split; [done|].
    destruct Hcase as [(? & ? & _)|?]; [by left|by right].
Qed.
End Boundary.

(** ** The mapping of certificates *)

(** The digests of [bankForRequest] are written in lower case. *)
Definition lower_hex_char (c : Ascii.ascii) : bool :=
  let n := Ascii.N_of_ascii c in (((48 <=? n) && (n <=? 57)) || ((97 <=? n) && (n <=? 102)))%N.
Definition hex_digest (sha256_hex : string -> string) : Prop :=
  forall s, String.length (sha256_hex s) = 64%nat /\ forallb lower_hex_char (String.list_ascii_of_string (sha256_hex s)) = true.

(** An accepted mapping with a fingerprint in capitals is of no use: no
    certificate has it, so its bank is refused at every request. *)
Lemma capital_fingerprint_unused sha256_hex banks r fingerprint bank : hex_digest sha256_hex ->
  forallb lower_hex_char (String.list_ascii_of_string fingerprint) = false ->
  (forall other, banks !! other = Some bank -> other = fingerprint) ->
  bankForRequest sha256_hex banks r <> Some bank.
Proof.
  intros Hsha Hcap Honly Hb. unfold bankForRequest in Hb. destruct (hq_certificates r) as [[|certificate [|]]|]; try done.
  apply Honly in Hb. destruct (Hsha certificate) as [_ Hlow]. congruence.
Qed.
Lemma client_banks_ok getenv ReadFile banks : client_banks getenv ReadFile = Some banks ->
  banks <> ∅ /\ forall fingerprint bank, banks !! fingerprint = Some bank -> fingerprint_ok fingerprint = true /\ trim_space bank <> "".
Proof.
  unfold client_banks, certificateBanks. cbv zeta. intros (b & Hb & H)%bind_Some. case_bool_decide as Hall; [|done]. injection H as ->. split.
  - intros ->. case_match; [done|]. apply bind_Some in Hb as (data & _ & Hb). apply bind_Some in Hb as (m & _ & Hb).
    case_bool_decide as Hs; [done|]. injection Hb as ->. by rewrite map_size_empty in Hs.
  - intros f bank Hf. specialize (Hall f bank Hf). cbn in Hall. apply andb_true_iff in Hall as [Ha Hn]. split; [done|].
    apply negb_true_iff, String.eqb_neq in Hn. done.
Qed.

(** ** Examples and witness *)

Definition toy_banks : gmap string string := {[ "digest:cert-1" := bank1 ]}.
Definition toy_hex (s : string) : string := "digest:" +:+ s.
Definition verify_request (rest : string) : http_request :=
  HttpRequest "POST" "/v1/authorization-verifications" (Some ["cert-1"])
    (json_encode (request_json (VerificationRequest "ref-1" (pan toy_digest vault_key "card-2") (cvv toy_digest vault_key "card-2"))) +:+ rest).
Abbreviation toy_answer r := (authorization_ServeHTTP (V := memory_vault toy_digest vault_key) true toy_hex toy_banks r authorization_world).
Definition answer_status (x : result http_response) : option Z := match x with inr response => Some (rs_status response) | inl _ => None end.

(** Text that is not JSON, or another object, may follow the request; an empty
    object may not. *)
Example trailing_text : List.map (fun rest => answer_status (toy_answer (verify_request rest)).1)
  [""; " xyz"; "{" +:+ quoted "pan" +:+ ":1}"; " {} "; "null"] = [Some 200; Some 200; Some 200; Some 400; Some 400].
Proof. by vm_compute. Qed.

Lemma authorization_over_http_witness : exists row,
  authz (w_shard (toy_answer (verify_request "")).2) !! (bank1, "ref-1") = Some row /\
  (toy_answer (verify_request "")).1 = inr (authorization_writeJSON 200 (decision_json (authorization_of "ref-1" row))) /\
  az_decision row = "approved".
Proof.
  assert (Hs : answer_status (toy_answer (verify_request "")).1 = Some 200) by by vm_compute.
  assert (Hv : verification_of toy_hex toy_banks (verify_request "") =
    Some (bank1, VerificationRequest "ref-1" (pan toy_digest vault_key "card-2") (cvv toy_digest vault_key "card-2"))) by by vm_compute.
  destruct (authorization_over_http (V := memory_vault toy_digest vault_key) (L := memory_laws toy_digest vault_key) true toy_hex toy_banks
    (verify_request "") authorization_world _ _ (surjective_pairing _)) as (response & Hx & H). rewrite Hv in H. cbn [vr_reference vr_pan vr_cvv] in H.
  destruct H as [[H5 _]|(row & Hrow & Hr & _)].
  - exfalso. rewrite Hx in Hs. cbn in Hs. congruence.
  - exists row. split; [exact Hrow|]. split; [by rewrite Hx, Hr|].
    assert (Ha : (az_decision <$> authz (w_shard (toy_answer (verify_request "")).2) !! (bank1, "ref-1")) = Some "approved") by by vm_compute.
    rewrite Hrow in Ha. by injection Ha.
Defined.
