(* ===== verification/CatalogStore.v ===== *)
(** * CatalogStore: banks, products, clients and accounts of a shard

    The reference part of [internal/repository/shard/reader.go],
    [catalog_store.go] and [bank_store.go]: reads, creation and change of card
    products, clients and account references, and the entity of a bank. *)

From S2P Require Import Prelude Json Domain Stores Vault World ShardTx Guards CardStore.
Open Scope string_scope.
Open Scope list_scope.
Open Scope Z_scope.

(** SQLSTATE of a foreign key violation. *)
Definition foreign_key_violation : db_error := PgError "23503".

(** ** Scans and responses *)

Definition scanEntity (id : string) (e : entity_row) : Entity :=
  MkEntity id (en_bank_reference e) (en_name e) (en_status e) (en_created_at e) (en_updated_at e).
Definition scanCardProduct (id : string) (p : product_row) : CardProduct :=
  MkCardProduct id (pr_product_code p) (pr_name p) (pr_status p) (pr_configuration p) (pr_configuration_version p)
    (pr_created_at p) (pr_updated_at p).
Definition scanClient (id : string) (c : client_row) : Client :=
  MkClient id (cl_external_client_ref c) (cl_display_name c) (cl_created_at c) (cl_updated_at c).
Definition scanAccountReference (id : string) (a : account_row) : AccountReference :=
  MkAccountReference id (ac_client_id a) (ac_external_account_ref a) (ac_created_at a) (ac_updated_at a).

Definition Entity_json (e : Entity) : json := JObj [
  ("id", JStr (Entity_ID e)); ("bank_reference", JStr (Entity_BankReference e)); ("name", JStr (Entity_Name e));
  ("status", JStr (Entity_Status e)); ("created_at", JTime (Entity_CreatedAt e)); ("updated_at", JTime (Entity_UpdatedAt e))].
Definition CardProduct_json (p : CardProduct) : json := JObj [
  ("id", JStr (CardProduct_ID p)); ("product_code", JStr (CardProduct_ProductCode p)); ("name", JStr (CardProduct_Name p));
  ("status", JStr (CardProduct_Status p)); ("configuration", CardProduct_Configuration p);
  ("configuration_version", JNum (CardProduct_ConfigurationVersion p)); ("created_at", JTime (CardProduct_CreatedAt p));
  ("updated_at", JTime (CardProduct_UpdatedAt p))].
Definition Client_json (c : Client) : json := JObj [
  ("id", JStr (Client_ID c)); ("external_client_ref", JStr (Client_ExternalClientRef c));
  ("display_name", JOptStr (Client_DisplayName c)); ("created_at", JTime (Client_CreatedAt c));
  ("updated_at", JTime (Client_UpdatedAt c))].
Definition AccountReference_json (a : AccountReference) : json := JObj [
  ("id", JStr (AccountReference_ID a)); ("client_id", JStr (AccountReference_ClientID a));
  ("external_account_ref", JStr (AccountReference_ExternalAccountRef a)); ("created_at", JTime (AccountReference_CreatedAt a));
  ("updated_at", JTime (AccountReference_UpdatedAt a))].

(** ** Reads *)

Definition reader_CardProducts (bank : string) : M (list CardProduct) :=
  read_rows bank "card product" (fun db =>
    List.map (fun p => scanCardProduct p.1 p.2) (newest_first pr_created_at (bank_rows bank (products db)))).
Definition reader_CardProduct (bank id : string) : M CardProduct :=
  read_row bank "card product" (fun db => scanCardProduct id <$> products db !! (bank, id)).
Definition reader_Clients (bank : string) : M (list Client) :=
  read_rows bank "client" (fun db =>
    List.map (fun p => scanClient p.1 p.2) (newest_first cl_created_at (bank_rows bank (clients db)))).
Definition reader_Client (bank id : string) : M Client :=
  read_row bank "client" (fun db => scanClient id <$> clients db !! (bank, id)).
Definition reader_AccountReferences (bank : string) : M (list AccountReference) :=
  read_rows bank "account reference" (fun db =>
    List.map (fun p => scanAccountReference p.1 p.2) (newest_first ac_created_at (bank_rows bank (accounts db)))).
Definition reader_AccountReference (bank id : string) : M AccountReference :=
  read_row bank "account reference" (fun db => scanAccountReference id <$> accounts db !! (bank, id)).

(** ** The entity of a bank *)

(** INSERT ... ON CONFLICT (id) DO UPDATE of the name; the bank reference is
    unique among the entities, and immutable, so the name alone changes. *)
Definition upsert_entity (input : EntityProvision) : sql shard_db unit := fun env db =>
  let id := EntityProvision_ID input in
  match entities db !! id with
  | Some e =>
      inr (tt, db <| entities ::= <[id := e <| en_name := EntityProvision_Name input |>
                       <| en_updated_by := EntityProvision_ActorID input |> <| en_updated_at := clock_timestamp env |>]> |>)
  | None =>
      if existsb (fun p => en_bank_reference p.2 == EntityProvision_BankReference input) (map_to_list (entities db))
      then inl unique_violation
      else inr (tt, db <| entities ::= <[id := EntityRow (EntityProvision_BankReference input) (EntityProvision_Name input)
                 "active" (now env) (now env) (EntityProvision_ActorID input) (EntityProvision_ActorID input)]> |>)
  end.

Definition ProvisionEntity (input : EntityProvision) : M unit :=
  shard_exec (upsert_entity input) ;;
  shard_exec (insert_audit (EntityProvision_ID input) "bank_provision" "bank" (EntityProvision_ID input) "succeeded"
    (EntityProvision_RequestID input) (Actor (Some (EntityProvision_ActorID input)) "issuer_operator" None None) (JObj [])).

Definition update_entity (input : EntityPatch) : sql shard_db (option Entity) := fun env db =>
  let id := EntityPatch_ID input in
  match entities db !! id with
  | None => inr (None, db)
  | Some e =>
      let e' := e <| en_name := default (en_name e) (EntityPatch_Name input) |>
                  <| en_status := default (en_status e) (EntityPatch_Status input) |>
                  <| en_updated_by := EntityPatch_ActorID input |> <| en_updated_at := clock_timestamp env |> in
      inr (Some (scanEntity id e'), db <| entities ::= <[id := e']> |>)
  end.

Definition UpdateEntity (input : EntityPatch) : M Entity :=
  entity ← row (shard_exec (update_entity input));
  shard_exec (insert_audit (EntityPatch_ID input) "bank_update" "bank" (EntityPatch_ID input) "succeeded"
    (EntityPatch_RequestID input) (Actor (Some (EntityPatch_ActorID input)) "issuer_operator" None None) (JObj [])) ;;
  mret entity.

(** ** Products, clients and accounts *)

(** INSERT of a row with a generated id, unless [taken] by a unique key. *)
Definition insert_reference {A B : Type} (bank : string) (get : shard_db -> gmap key A) (put : gmap key A -> shard_db -> shard_db)
    (taken : A -> bool) (mk : sql_env -> A) (scan : string -> A -> B) : sql shard_db B := fun env db =>
  let id := gen_random_uuid env 0 in
  if existsb (fun p => taken p.2) (bank_rows bank (get db)) then inl unique_violation
  else match insert_pk (bank, id) (mk env) (get db) with
       | inl err => inl err
       | inr t => inr (scan id (mk env), put t db)
       end.
(** UPDATE ... RETURNING of one row by id; the triggers set [updated_at]. *)
Definition update_reference {A B : Type} (bank id : string) (get : shard_db -> gmap key A)
    (put : gmap key A -> shard_db -> shard_db) (set : sql_env -> A -> A) (scan : string -> A -> B)
    : sql shard_db (option B) := fun env db =>
  match get db !! (bank, id) with
  | None => inr (None, db)
  | Some r => inr (Some (scan id (set env r)), put (<[(bank, id) := set env r]> (get db)) db)
  end.
(** [value, false, nil] on [pgx.ErrNoRows]. *)
Definition updated {A} (m : M (option A)) : M (option A) :=
  r ← try (row m);
  match r with
  | inl err => if errors_is err ErrNoRows then mret None else throw err
  | inr a => mret (Some a)
  end.

Definition put_products (t : gmap key product_row) (db : shard_db) : shard_db := db <| products := t |>.
Definition put_clients (t : gmap key client_row) (db : shard_db) : shard_db := db <| clients := t |>.
Definition put_accounts (t : gmap key account_row) (db : shard_db) : shard_db := db <| accounts := t |>.

Definition CreateCardProduct (bank : string) (input : CardProductCreate) : M CardProduct :=
  shard_exec (insert_reference bank products put_products
    (fun p => pr_product_code p == CardProductCreate_ProductCode input)
    (fun env => ProductRow (CardProductCreate_ProductCode input) (CardProductCreate_Name input) (CardProductCreate_Status input)
       (jsonb (CardProductCreate_Configuration input)) 1 (now env) (now env) (CardProductCreate_ActorID input)
       (CardProductCreate_ActorID input)) scanCardProduct).

(** The configuration version counts the changes of the configuration. *)
Definition patch_product (input : CardProductPatch) (env : sql_env) (p : product_row) : product_row :=
  p <| pr_name := default (pr_name p) (CardProductPatch_Name input) |>
    <| pr_status := default (pr_status p) (CardProductPatch_Status input) |>
    <| pr_configuration := default (pr_configuration p) (jsonb <$> CardProductPatch_Configuration input) |>
    <| pr_configuration_version := pr_configuration_version p +
         match CardProductPatch_Configuration input with
         | None => 0
         | Some c => if decide (pr_configuration p = jsonb c) then 0 else 1
         end |>
    <| pr_updated_by := CardProductPatch_ActorID input |> <| pr_updated_at := clock_timestamp env |>.
Definition UpdateCardProduct (bank id : string) (input : CardProductPatch) : M (option CardProduct) :=
  updated (shard_exec (update_reference bank id products put_products (patch_product input) scanCardProduct)).

Definition CreateClient (bank : string) (input : ClientCreate) : M Client :=
  shard_exec (insert_reference bank clients put_clients
    (fun c => cl_external_client_ref c == ClientCreate_ExternalClientRef input)
    (fun env => ClientRow (ClientCreate_ExternalClientRef input) (ClientCreate_DisplayName input) (now env) (now env)
       (ClientCreate_ActorID input) (ClientCreate_ActorID input)) scanClient).
Definition UpdateClient (bank id : string) (input : ClientPatch) : M (option Client) :=
  updated (shard_exec (update_reference bank id clients put_clients (fun env c =>
    c <| cl_display_name := ClientPatch_DisplayName input |> <| cl_updated_by := ClientPatch_ActorID input |>
      <| cl_updated_at := clock_timestamp env |>) scanClient)).

(** The client of an account is a client of the bank (foreign key). *)
Definition has_client {B : Type} (bank client : string) (f : sql shard_db B) : sql shard_db B := fun env db =>
  match clients db !! (bank, client) with
  | None => inl foreign_key_violation
  | Some _ => f env db
  end.
Definition CreateAccountReference (bank : string) (input : AccountReferenceCreate) : M AccountReference :=
  shard_exec (has_client bank (AccountReferenceCreate_ClientID input) (insert_reference bank accounts put_accounts
    (fun a => ac_external_account_ref a == AccountReferenceCreate_ExternalAccountRef input)
    (fun env => AccountRow (AccountReferenceCreate_ClientID input) (AccountReferenceCreate_ExternalAccountRef input)
       (now env) (now env) (AccountReferenceCreate_ActorID input) (AccountReferenceCreate_ActorID input)) scanAccountReference)).
Definition UpdateAccountReference (bank id : string) (input : AccountReferencePatch) : M (option AccountReference) :=
  updated (shard_exec (fun env db =>
    if bool_decide (is_Some (accounts db !! (bank, id)))
    then has_client bank (AccountReferencePatch_ClientID input) (update_reference bank id accounts put_accounts (fun env a =>
      a <| ac_client_id := AccountReferencePatch_ClientID input |> <| ac_updated_by := AccountReferencePatch_ActorID input |>
        <| ac_updated_at := clock_timestamp env |>) scanAccountReference) env db
    else inr (None, db))).

Definition RecordReferenceAudit (a : ReferenceAudit) : M unit :=
  shard_exec (insert_audit (ReferenceAudit_Bank a) (ReferenceAudit_Action a) (ReferenceAudit_Kind a)
    (ReferenceAudit_ResourceID a) "succeeded" (ReferenceAudit_RequestID a)
    (user_actor (ReferenceAudit_ActorID a) (ReferenceAudit_ActorRole a) (ReferenceAudit_ActorEntityID a)) (JObj [])).
