(* ===== verification/CatalogService.v ===== *)
(** * CatalogService: card products, clients and account references

    [internal/catalog/service.go]: reads, and creation and change under an
    idempotency record with one audit event. *)

From S2P Require Import Prelude Json Domain Stores Uuid Vault World ShardTx Idempotency AuthTypes CatalogStore.
Open Scope string_scope.
Open Scope list_scope.
Open Scope Z_scope.

Definition catalog_replayLifetime : Z := 7 * 24 * hour.
Definition catalog_problem (status : Z) (code detail : string) : error := ErrProblem status code detail.
Definition catalog_marshalItems {A} (encode : A -> json) (m : M (list A)) : M (list json) :=
  items ← m; mret (List.map encode items).

Definition unsupported_kind (kind : string) : error := ErrMsg ("unsupported reference kind " +:+ encode_string kind).

Definition ListReference (bank kind : string) : M (list json) :=
  if kind == "card-products" then catalog_marshalItems CardProduct_json (reader_CardProducts bank)
  else if kind == "clients" then catalog_marshalItems Client_json (reader_Clients bank)
  else if kind == "account-references" then catalog_marshalItems AccountReference_json (reader_AccountReferences bank)
  else throw (unsupported_kind kind).

Definition GetReference (bank kind id : string) : M json :=
  if kind == "card-products" then value ← reader_CardProduct bank id; mret (CardProduct_json value)
  else if kind == "clients" then value ← reader_Client bank id; mret (Client_json value)
  else if kind == "account-references" then value ← reader_AccountReference bank id; mret (AccountReference_json value)
  else throw (unsupported_kind kind).

Definition referenceAudit (principal : Principal) (bank action kind resourceID requestID : string) : ReferenceAudit :=
  let actorEntityID := if Principal_Role principal == "bank_operator" then Principal_EntityID principal else "" in
  MkReferenceAudit bank (Principal_UserID principal) (Principal_Role principal) actorEntityID action kind resourceID requestID.

Section Service.
Context (hmac : string -> string -> string) (fingerprinter : Fingerprinter).

(** [claim]: the stored response, when the request is a repetition. *)
Definition catalog_claim (bank scope key body : string) : M (option json) :=
  now ← time_now;
  r ← try (ClaimIdempotency (MkShardIdempotencyClaim bank scope key (Fingerprint hmac fingerprinter body) now
             (now + catalog_replayLifetime)));
  match r with
  | inl err =>
      if errors_is err ErrIdempotencyConflict then
        throw (catalog_problem 409 "idempotency_conflict" "Idempotency-Key was previously used for a different request.")
      else throw err
  | inr replay => mret (if ShardIdempotencyReplay_Found replay then Some (ShardIdempotencyReplay_Response replay) else None)
  end.

Definition mutate (principal : Principal) (bank kind key : string) (input : json) (requestID : string)
    (create : M (json * string)) : M json :=
  let body := json_encode input in
  beginTenant bank ;;
  with_defer shard_rollback (
    let scope := kind +:+ ".create.actor." +:+ Principal_UserID principal in
    replay ← catalog_claim bank scope key body;
    match replay with
    | Some replay => mret replay
    | None =>
        ri ← create;
        let '(raw, id) := ri in
        RecordReferenceAudit (referenceAudit principal bank (kind +:+ ".create") kind id requestID) ;;
        FinishIdempotency bank scope key 201 raw id (Principal_UserID principal) ;;
        shard_commit ;;
        mret raw
    end).

Definition patch (principal : Principal) (bank kind id key : string) (input : json) (requestID : string)
    (patch : M (option json)) : M json :=
  let body := json_encode input in
  beginTenant bank ;;
  with_defer shard_rollback (
    let scope := kind +:+ ".patch." +:+ id +:+ ".actor." +:+ Principal_UserID principal in
    replay ← catalog_claim bank scope key body;
    match replay with
    | Some replay => mret replay
    | None =>
        r ← patch;
        match r with
        | None => throw (catalog_problem 404 "not_found" "The requested resource does not exist.")
        | Some raw =>
            RecordReferenceAudit (referenceAudit principal bank (kind +:+ ".patch") kind id requestID) ;;
            FinishIdempotency bank scope key 200 raw id (Principal_UserID principal) ;;
            shard_commit ;;
            mret raw
        end
    end).

Definition CreateCardProductWorkflow (principal : Principal) (bank key productCode name status : string)
    (configuration : json) (requestID : string) : M json :=
  mutate principal bank "card-products" key
    (JObj [("product_code", JStr productCode); ("name", JStr name); ("status", JStr status); ("configuration", configuration)])
    requestID
    (product ← CreateCardProduct bank (MkCardProductCreate productCode name status configuration (Principal_UserID principal));
     mret (CardProduct_json product, CardProduct_ID product)).

Definition CreateClientWorkflow (principal : Principal) (bank key external : string) (display : option string)
    (requestID : string) : M json :=
  mutate principal bank "clients" key
    (JObj [("external_client_ref", JStr external); ("display_name", JOptStr display)]) requestID
    (client ← CreateClient bank (MkClientCreate external display (Principal_UserID principal));
     mret (Client_json client, Client_ID client)).

Definition CreateAccountReferenceWorkflow (principal : Principal) (bank key clientID external requestID : string) : M json :=
  mutate principal bank "account-references" key
    (JObj [("client_id", JStr clientID); ("external_account_ref", JStr external)]) requestID
    (account ← CreateAccountReference bank (MkAccountReferenceCreate clientID external (Principal_UserID principal));
     mret (AccountReference_json account, AccountReference_ID account)).

Definition PatchCardProductWorkflow (principal : Principal) (bank id key : string) (name status : option string)
    (configuration : option json) (requestID : string) : M json :=
  patch principal bank "card-products" id key
    (JObj [("name", JOptStr name); ("status", JOptStr status); ("configuration", default JNull configuration)]) requestID
    (r ← UpdateCardProduct bank id (MkCardProductPatch name status configuration (Principal_UserID principal));
     mret (CardProduct_json <$> r)).

Definition PatchClientWorkflow (principal : Principal) (bank id key : string) (display : option string) (requestID : string)
    : M json :=
  patch principal bank "clients" id key (JObj [("display_name", JOptStr display)]) requestID
    (r ← UpdateClient bank id (MkClientPatch display (Principal_UserID principal)); mret (Client_json <$> r)).

Definition PatchAccountReferenceWorkflow (principal : Principal) (bank id key clientID requestID : string) : M json :=
  patch principal bank "account-references" id key (JObj [("client_id", JStr clientID)]) requestID
    (r ← UpdateAccountReference bank id (MkAccountReferencePatch clientID (Principal_UserID principal));
     mret (AccountReference_json <$> r)).
End Service.
