(* ===== verification/BankService.v ===== *)
(** * BankService: the directory of banks and the provisioning saga

    [internal/bank/service.go]: a bank is provisioned in three transactions (the
    route in the control database, the entity in the shard, the route made
    active), each resumed by a repetition of the request from the record the
    first one left. *)

From S2P Require Import Prelude Json Domain Stores Uuid Vault World ShardTx Idempotency AuthTypes ControlStore CardStore CatalogStore.
Open Scope string_scope.
Open Scope list_scope.
Open Scope Z_scope.

Definition bank_replayLifetime : Z := 7 * 24 * hour.
Definition bank_problem (status : Z) (code detail : string) : error := ErrProblem status code detail.
Definition draw_bank_uuid : M string := b ← rand16; mret (bank_newUUID b).

(** The response, in the order jsonb replays it in. *)
Definition bank_entity_json (e : Entity) : json := JObj [
  ("id", JStr (Entity_ID e)); ("name", JStr (Entity_Name e)); ("status", JStr (Entity_Status e));
  ("created_at", JTime (Entity_CreatedAt e)); ("updated_at", JTime (Entity_UpdatedAt e));
  ("bank_reference", JStr (Entity_BankReference e))].

(** [Service.entity]. *)
Definition bank_entity (id : string) : M json := e ← reader_Entity id; mret (bank_entity_json e).

Section Service.
Context (hmac : string -> string -> string) (fingerprinter : Fingerprinter) (shardID : string).

(** ** Reads *)

(** The members of an entity and its routing status, sorted as a Go map is. *)
Definition listed_bank (raw : json) (placement : string) : json :=
  let member k := (k, default JNull (json_field raw k)) in
  JObj [member "bank_reference"; member "created_at"; member "id"; member "name";
        ("routing_status", JStr placement); member "status"; member "updated_at"].

(** One turn of the loop: another shard's bank, or an entity that cannot be
    read, is left out. *)
Definition list_bank (route : Route) : M (list json) :=
  if Route_ShardID route != shardID then mret []
  else
    r ← try (bank_entity (Route_EntityID route));
    match r with
    | inl _ => mret []
    | inr entity => mret [listed_bank entity (Route_PlacementStatus route)]
    end.

Definition ListBanks : M (list json) :=
  routes ← Banks;
  data ← mapM_list list_bank routes;
  mret (List.concat data).

Definition GetBank (id : string) : M json :=
  visible ← ActiveOrProvisioning shardID id;
  if negb visible then throw ErrNotFound else bank_entity id.

(** ** Provisioning *)

Definition bank_centralIdempotency (scope key body : string) : M (option json) :=
  now ← time_now;
  r ← try (CentralClaimIdempotency (MkCentralIdempotencyClaim scope key (Fingerprint hmac fingerprinter body) now
             (now + bank_replayLifetime)));
  match r with
  | inl err =>
      if errors_is err ErrIdempotencyConflict then
        throw (bank_problem 409 "idempotency_conflict" "Idempotency-Key was previously used for a different request.")
      else throw err
  | inr replay =>
      mret (if CentralIdempotencyReplay_Found replay then Some (CentralIdempotencyReplay_Response replay) else None)
  end.

(** The body of a record whose saga is not finished. *)
Definition provisional (id : string) : json := JObj [("id", JStr id); ("provisioning", JBool true)].

(** What a stored response says: the saga is over, or goes on with this id. *)
Definition resume (replay : json) : (Z * json) + string :=
  match json_string (json_field replay "id") with
  | None => inl (202, replay)
  | Some id =>
      if id == "" then inl (202, replay)
      else match json_field replay "provisioning" with
           | None => inl (201, replay)
           | Some _ => inr id
           end
  end.

(** The first transaction: a final response, or the id to go on with. *)
Definition reserve_bank (scope key body : string) : M ((Z * json) + string) :=
  replay ← bank_centralIdempotency scope key body;
  match replay with
  | Some replay => mret (resume replay)
  | None =>
      id ← draw_bank_uuid;
      CreateBankRoute id shardID ;;
      CentralFinishIdempotency scope key 202 (provisional id) id ;;
      mret (inr id)
  end.

(** The second: the entity in the shard. *)
Definition provision_entity (principal : Principal) (id reference name requestID : string) : M unit :=
  beginTenant id ;;
  r ← try (ProvisionEntity (MkEntityProvision id reference name (Principal_UserID principal) requestID));
  match r with
  | inl err => shard_rollback ;; throw err
  | inr _ => shard_commit
  end.

(** The third: the route is made active and the record final. *)
Definition activate_bank (scope key id : string) (raw : json) : M (Z * json) :=
  control_transaction ;;
  with_defer control_rollback (
    SetBankRouteStatus id shardID "active" ;;
    CentralFinishIdempotency scope key 201 raw id ;;
    control_commit ;;
    mret (201, raw)).

Definition ProvisionBankWorkflow (principal : Principal) (key body reference name requestID : string) : M (Z * json) :=
  control_transaction ;;
  with_defer control_rollback (
    let scope := "banks.create.actor." +:+ Principal_UserID principal in
    plan ← reserve_bank scope key body;
    match plan with
    | inl response => mret response
    | inr id =>
        control_commit ;;
        provision_entity principal id reference name requestID ;;
        raw ← bank_entity id;
        activate_bank scope key id raw
    end).

(** ** Changes *)

(** The shard transaction of a change. *)
Definition patch_entity (principal : Principal) (id : string) (name status : option string) (requestID : string) : M json :=
  beginTenant id ;;
  with_defer shard_rollback (
    entity ← UpdateEntity (MkEntityPatch id name status (Principal_UserID principal) requestID);
    shard_commit ;;
    mret (Entity_json entity)).

(** The last transaction: the record is made final. *)
Definition finish_patch (scope key id : string) (raw : json) : M (Z * json) :=
  control_transaction ;;
  with_defer control_rollback (
    CentralFinishIdempotency scope key 200 raw id ;;
    control_commit ;;
    mret (200, raw)).

Definition placement_of (status : string) : string := if status == "active" then "active" else "paused".

Definition PatchBankWorkflow (principal : Principal) (id key body : string) (name status : option string) (requestID : string)
    : M (Z * json) :=
  control_transaction ;;
  with_defer control_rollback (
    let scope := "banks.patch." +:+ id +:+ ".actor." +:+ Principal_UserID principal in
    replay ← bank_centralIdempotency scope key body;
    let go :=
      visible ← ActiveOrProvisioning shardID id;
      if negb visible then throw (bank_problem 404 "not_found" "The requested resource does not exist.")
      else
        match status with
        | None => mret tt
        | Some status => SetBankRouteStatusForEntity id (placement_of status)
        end ;;
        control_commit ;;
        raw ← patch_entity principal id name status requestID;
        finish_patch scope key id raw in
    match replay with
    | Some replay => if decide (replay = JObj []) then go else control_rollback ;; mret (200, replay)
    | None => go
    end).
End Service.
