(* ===== verification/StaffService.v ===== *)
(** * StaffService: the directory of staff users

    [internal/staff/service.go]: users are created, assigned, disabled and given
    passwords by issuer operators, each change in one control transaction with
    its record and its authentication audit. *)

From S2P Require Import Prelude Json Domain Stores Vault World ShardTx Idempotency AuthTypes Base64 Password ControlStore.
Open Scope string_scope.
Open Scope list_scope.
Open Scope Z_scope.

Definition staff_replayLifetime : Z := 7 * 24 * hour.
Definition staff_problem (status : Z) (code detail : string) : error := ErrProblem status code detail.

(** [userJSON]: a Go map, so the members are sorted; never the password hash. *)
Definition userJSON (user : DirectoryUser) : json := JObj [
  ("created_at", JTime (DirectoryUser_CreatedAt user));
  ("entity_id", if DirectoryUser_EntityID user != "" then JStr (DirectoryUser_EntityID user) else JNull);
  ("id", JStr (DirectoryUser_ID user)); ("role", JStr (DirectoryUser_Role user));
  ("status", JStr (DirectoryUser_Status user)); ("updated_at", JTime (DirectoryUser_UpdatedAt user));
  ("username", JStr (DirectoryUser_Username user))].

Definition ListUsers : M (list json) := users ← Users; mret (List.map userJSON users).
Definition GetUser (id : string) : M json := user ← User id; mret (userJSON user).

Section Service.
Context (IDKey : string -> string -> Z -> Z -> Z -> Z -> string).
Context (hmac : string -> string -> string) (fingerprinter : Fingerprinter) (shardID : string).

Definition staff_centralIdempotency (scope key body : string) : M (option json) :=
  now ← time_now;
  r ← try (CentralClaimIdempotency (MkCentralIdempotencyClaim scope key (Fingerprint hmac fingerprinter body) now
             (now + staff_replayLifetime)));
  match r with
  | inl err =>
      if errors_is err ErrIdempotencyConflict then
        throw (staff_problem 409 "idempotency_conflict" "Idempotency-Key was previously used for a different request.")
      else throw err
  | inr replay =>
      mret (if CentralIdempotencyReplay_Found replay then Some (CentralIdempotencyReplay_Response replay) else None)
  end.

(** [entityID != "" && !s.tenant.Active(ctx, entityID)]. *)
Definition require_assignment (entityID : string) : M unit :=
  if entityID == "" then mret tt
  else
    active ← Active shardID entityID;
    if active : bool then mret tt
    else throw (staff_problem 400 "invalid_request" "The bank assignment must be active.").

Definition staff_not_found : error := staff_problem 404 "not_found" "The requested resource does not exist.".

(** The end of every change: the audit event, the record, the commit. *)
Definition conclude (scope key : string) (status : Z) (user : DirectoryUser) (event subject entityID actor requestID : string)
    : M (Z * json) :=
  let raw := userJSON user in
  RecordAuthenticationAudit (MkAuthenticationAudit event actor subject entityID requestID) ;;
  CentralFinishIdempotency scope key status raw subject ;;
  control_commit ;;
  mret (status, raw).

Definition CreateUserWorkflow (principal : Principal) (key body username password role entityID requestID : string)
    : M (Z * json) :=
  control_transaction ;;
  with_defer control_rollback (
    let scope := "users.create.actor." +:+ Principal_UserID principal in
    replay ← staff_centralIdempotency scope key body;
    match replay with
    | Some replay => mret (201, replay)
    | None =>
        require_assignment entityID ;;
        hash ← HashPassword IDKey password;
        user ← CreateUser (MkStaffUserCreate (to_lower (trim_space username)) hash role entityID (Principal_UserID principal));
        conclude scope key 201 user "user_provision" (DirectoryUser_ID user) entityID (Principal_UserID principal) requestID
    end).

Definition UpdateUserWorkflow (principal : Principal) (id key body role entityID status requestID : string) : M (Z * json) :=
  control_transaction ;;
  with_defer control_rollback (
    let scope := (if status != "" then "users.disable." else "users.update.") +:+ id +:+ ".actor." +:+ Principal_UserID principal in
    replay ← staff_centralIdempotency scope key body;
    match replay with
    | Some replay => mret (200, replay)
    | None =>
        require_assignment entityID ;;
        user ← (if role != "" then UpdateUserRole id role entityID (Principal_UserID principal)
                else UpdateUserStatus id status (Principal_UserID principal));
        match user with
        | None => throw staff_not_found
        | Some user => conclude scope key 200 user scope id "" (Principal_UserID principal) requestID
        end
    end).

Definition SetUserPasswordWorkflow (principal : Principal) (id key body password requestID : string) : M (Z * json) :=
  control_transaction ;;
  with_defer control_rollback (
    let scope := "users.set_password." +:+ id +:+ ".actor." +:+ Principal_UserID principal in
    replay ← staff_centralIdempotency scope key body;
    match replay with
    | Some replay => mret (200, replay)
    | None =>
        hash ← HashPassword IDKey password;
        user ← UpdateUserPassword id hash (Principal_UserID principal);
        match user with
        | None => throw staff_not_found
        | Some user => conclude scope key 200 user "user_password_reset" id "" (Principal_UserID principal) requestID
        end
    end).
End Service.
