(* ===== verification/ServiceErrors.v ===== *)
(** * ServiceErrors: the HTTP problems of the services

    Which statuses the problems of every workflow may have, whatever the state
    of the databases and whatever faults occur. *)

From S2P Require Import Prelude Json Domain Stores Uuid Vault World Outcomes ShardTx Idempotency AuthTypes CardStore CardService ControlStore BatchStore BatchService CatalogStore CatalogService Password BankService StaffService.
Open Scope string_scope.
Open Scope list_scope.
Open Scope Z_scope.

Section Stores.
Context (S : list Z).
Abbreviation raises := (ensures (fun _ => True) (problems S)).

(** ** The shard *)

Lemma raises_beginTenant b : raises (beginTenant b).
Proof. unfold beginTenant. raise. Qed.
Lemma raises_read_rows {A} b what (q : shard_db -> A) : raises (read_rows b what q).
Proof. unfold read_rows, beginTenant. raise. Qed.
Lemma raises_read_row {A} b what (q : shard_db -> option A) : raises (read_row b what q).
Proof. unfold read_row, beginTenant. raise. Qed.
Lemma raises_ClaimIdempotency c : raises (ClaimIdempotency c).
Proof. unfold ClaimIdempotency, load_idempotency. raise. Qed.
Lemma raises_FinishIdempotency b s k st j r a : raises (FinishIdempotency b s k st j r a).
Proof. unfold FinishIdempotency. raise. Qed.
Lemma raises_insertCardOperation b o c a r i ro e q : raises (insertCardOperation b o c a r i ro e q).
Proof. unfold insertCardOperation. raise. Qed.
Hint Resolve raises_beginTenant raises_ClaimIdempotency raises_FinishIdempotency raises_insertCardOperation : raises.
Hint Resolve @raises_read_rows @raises_read_row : raises.

Lemma raises_IssueReferencesValid b c a p : raises (IssueReferencesValid b c a p).
Proof. unfold IssueReferencesValid. raise. Qed.
Lemma raises_IssueCard b i : raises (IssueCard b i).
Proof. unfold IssueCard. raise. Qed.
Lemma raises_ReplaceCard b i : raises (ReplaceCard b i).
Proof. unfold ReplaceCard. raise. Qed.
Lemma raises_LockCard b i : raises (LockCard b i).
Proof. unfold LockCard. raise. Qed.
Lemma raises_ReplacementPending b i : raises (ReplacementPending b i).
Proof. unfold ReplacementPending. raise. Qed.
Lemma raises_updateCardStatus a b i st u : raises (updateCardStatus a b i st u).
Proof. unfold updateCardStatus. raise. Qed.
Lemma raises_closePredecessor b i : raises (closePredecessorOnActivation b i).
Proof. unfold closePredecessorOnActivation. raise. Qed.
Hint Resolve raises_updateCardStatus raises_closePredecessor : raises.
Lemma raises_ApplyCardCommand b i : raises (ApplyCardCommand b i).
Proof. unfold ApplyCardCommand. raise. Qed.
Lemma raises_RetryExpiryItem b r i a : raises (RetryExpiryItem b r i a).
Proof. unfold RetryExpiryItem. raise. Qed.
Lemma raises_RecordExpiryRetryAudit b i a q : raises (RecordExpiryRetryAudit b i a q).
Proof. unfold RecordExpiryRetryAudit. raise. Qed.
Lemma raises_newUUID : raises newUUID.
Proof. unfold newUUID. raise. Qed.
Lemma raises_draw_batch_uuid : raises draw_batch_uuid.
Proof. unfold draw_batch_uuid. raise. Qed.
Hint Resolve raises_draw_batch_uuid : raises.
Lemma raises_newIDs n : raises (newIDs n).
Proof. induction n as [|n IH]; cbn [newIDs]; raise_with ltac:(try exact IH). Qed.
Lemma raises_insertItems b i t r c o a ro e q n : raises (insertCardStatusBatchItems b i t r c o a ro e q n).
Proof. unfold insertCardStatusBatchItems, insert_batch_item. raise. Qed.
Hint Resolve raises_insertItems : raises.
Lemma raises_LockBatch b i : raises (LockCardStatusBatch b i).
Proof. unfold LockCardStatusBatch, select_batch. raise. Qed.
Hint Resolve raises_LockBatch : raises.
Lemma raises_CreateDraft b i : raises (CreateCardStatusBatchDraft b i).
Proof. unfold CreateCardStatusBatchDraft. raise. Qed.
Lemma raises_RetryBatch b i x : raises (RetryCardStatusBatch b i x).
Proof. unfold RetryCardStatusBatch. raise. Qed.
Lemma raises_ExecuteBatch b i a r e q : raises (ExecuteCardStatusBatch b i a r e q).
Proof. unfold ExecuteCardStatusBatch, change_batch. raise. Qed.
Lemma raises_CancelBatch b i a r e q : raises (CancelCardStatusBatch b i a r e q).
Proof. unfold CancelCardStatusBatch, change_batch. raise. Qed.
Lemma raises_CardsExist b ids : raises (CardsExist b ids).
Proof. unfold CardsExist. raise. Qed.
Lemma raises_updated {A} (m : M (option A)) : raises m -> raises (updated m).
Proof. intros Hm. unfold updated. raise_with ltac:(try exact Hm). Qed.
Lemma raises_RecordReferenceAudit a : raises (RecordReferenceAudit a).
Proof. unfold RecordReferenceAudit. raise. Qed.

(** ** The control database *)

Lemma raises_control_read {A} (g : sql_env -> control_db -> A) : raises (control_read g).
Proof. unfold control_read. raise. Qed.
Lemma raises_control_transaction : raises control_transaction.
Proof. unfold control_transaction. raise. Qed.
Lemma raises_central_claim c : raises (CentralClaimIdempotency c).
Proof. unfold CentralClaimIdempotency. raise. Qed.
Lemma raises_central_finish s k st j r : raises (CentralFinishIdempotency s k st j r).
Proof. unfold CentralFinishIdempotency. raise. Qed.
Hint Resolve raises_control_read : raises.
Lemma raises_holds m : raises m -> raises (holds m).
Proof. intros Hm. unfold holds. raise_with ltac:(try exact Hm). Qed.
Lemma raises_Active sh e : raises (Active sh e).
Proof. unfold Active. apply raises_holds. unfold HasActiveRoute. raise. Qed.
Lemma raises_Visible sh e : raises (ActiveOrProvisioning sh e).
Proof. unfold ActiveOrProvisioning. apply raises_holds. unfold HasActiveOrProvisioningRoute. raise. Qed.
Lemma raises_change_user i set : raises (change_user i set).
Proof. unfold change_user, userByID. raise. Qed.
Lemma raises_CreateUser i : raises (CreateUser i).
Proof. unfold CreateUser, userByID. raise. Qed.
Lemma raises_HashPassword IDKey p : raises (HashPassword IDKey p).
Proof. unfold HashPassword. raise. Qed.
End Stores.
#[export] Hint Resolve raises_beginTenant raises_ClaimIdempotency raises_FinishIdempotency raises_IssueReferencesValid
  raises_IssueCard raises_ReplaceCard raises_LockCard raises_ReplacementPending raises_ApplyCardCommand raises_RetryExpiryItem
  raises_RecordExpiryRetryAudit raises_newUUID raises_draw_batch_uuid raises_newIDs raises_CreateDraft raises_LockBatch
  raises_RetryBatch raises_ExecuteBatch raises_CancelBatch raises_CardsExist raises_updated raises_RecordReferenceAudit
  raises_control_read raises_control_transaction raises_central_claim raises_central_finish raises_Active raises_Visible
  raises_change_user raises_CreateUser raises_HashPassword : raises.
#[export] Hint Resolve @raises_read_rows @raises_read_row : raises.

(** ** The services *)

(** A vault's errors carry no HTTP problem. *)
Class VaultErrors (V : CredentialVault) :=
  provision_plain id : ensures (fun _ => True) plain (cv_Provision id).
#[export] Instance memory_vault_errors hmac key : VaultErrors (memory_vault hmac key).
Proof.
  intros id w x w'. unfold cv_Provision, memory_vault, vault_call, Provision.
  repeat case_match; intros; simplify_eq/=; done.
Qed.

Section Services.
Context (hmac : string -> string -> string) (fp : Fingerprinter) (shardID : string).
Abbreviation raises S m := (ensures (fun _ => True) (problems S) m).
Ltac up := apply ensures_mono with (fun _ => True) plain; [done|by intros e He; eapply problems_mono, He|].

(** The cards *)
Lemma errors_claim b s k body : raises [409] (claim hmac fp b s k body).
Proof. unfold claim. raise. Qed.
Hint Resolve errors_claim : raises.
Lemma errors_ListCards b c a p s : raises [] (ListCards b c a p s).
Proof. unfold ListCards, marshalItems, reader_Cards. raise. Qed.
Lemma errors_ListCardOperations b i : raises [] (ListCardOperations b i).
Proof. unfold ListCardOperations, marshalItems, reader_CardOperations. raise. Qed.
Lemma errors_ListCardStatusHistory b i : raises [] (ListCardStatusHistory b i).
Proof. unfold ListCardStatusHistory, marshalItems, reader_CardStatusHistory. raise. Qed.
Lemma claim_widen S b s k body : forallb (one_of S) [409] = true -> raises S (claim hmac fp b s k body).
Proof. intros HS. eapply ensures_mono; [done| |apply errors_claim]. intros e. by apply problems_mono. Qed.
Ltac claims := raise_with ltac:(try first [by apply claim_widen | reflexivity]).
Section Vault.
Context `{V : CredentialVault, !VaultErrors V} (configured : bool).
Lemma errors_Provision S id : raises S (cv_Provision id).
Proof. eapply ensures_mono; [done| |apply provision_plain]. intros e. by apply problems_mono. Qed.
Hint Resolve errors_Provision : raises.
Lemma errors_IssueCard p b k body c a pr r q : raises [409; 422] (IssueCardWorkflow hmac fp configured p b k body c a pr r q).
Proof. unfold IssueCardWorkflow, issue_claimed. claims. Qed.
Lemma errors_CardCommand p b i a k body r q : raises [404; 409; 422] (CardCommandWorkflow hmac fp configured p b i a k body r q).
Proof. unfold CardCommandWorkflow, replace, command_locked. claims. Qed.
End Vault.
Lemma errors_RetryExpiry p b ru i k body q : raises [409] (RetryExpiryWorkflow hmac fp p b ru i k body q).
Proof. unfold RetryExpiryWorkflow. claims. Qed.

(** The batches *)
Lemma errors_batch_claim S b s k body : forallb (one_of S) [409] = true -> raises S (batch_claim hmac fp b s k body).
Proof.
  intros HS. eapply ensures_mono with (P := fun _ => True) (F := problems [409]); [done|intros e; by apply problems_mono|].
  unfold batch_claim. raise.
Qed.
Lemma errors_or_problem {A} (m : M A) : raises [] m -> raises [404; 409] (or_problem m).
Proof.
  intros Hm. unfold or_problem. apply ensures_try.
  - eapply ensures_mono; [done| |exact Hm]. intros e. by apply problems_mono.
  - intros e He. apply ensures_throw. unfold batchProblem. repeat case_match; done.
  - intros a. by apply ensures_ret.
Qed.
Ltac batch := raise_with ltac:(try first [by apply errors_batch_claim | reflexivity
  | apply errors_or_problem; solve [raise | repeat case_match; auto with raises]]).
Lemma errors_normalize t r ids : raises [400; 409; 422] (of_result (normalize t r ids)).
Proof. apply ensures_of_result; [|done]. unfold normalize. cbv zeta. intros e. repeat case_match; intros [= <-]; reflexivity. Qed.
Lemma errors_CreateBatch p b k t r ids q : raises [400; 409; 422] (CreateCardStatusBatchWorkflow hmac fp p b k t r ids q).
Proof. unfold CreateCardStatusBatchWorkflow, create_claimed, finish_batch. apply ensures_then; [apply errors_normalize|]. batch. Qed.
Lemma errors_change p b i k body q a : raises [404; 409] (change hmac fp p b i k body q a).
Proof. unfold change, finish_batch. batch. Qed.
Lemma errors_RetryBatch p b i k body q : raises [404; 409] (RetryCardStatusBatchWorkflow hmac fp p b i k body q).
Proof. unfold RetryCardStatusBatchWorkflow, retry_claimed, finish_batch. batch. Qed.
Lemma errors_ListBatches b : raises [] (ListCardStatusBatches b).
Proof. unfold ListCardStatusBatches, batch_marshalItems, reader_CardStatusBatches. raise. Qed.

(** Products, clients and accounts *)
Lemma errors_catalog_claim S b s k body : forallb (one_of S) [409] = true -> raises S (catalog_claim hmac fp b s k body).
Proof.
  intros HS. eapply ensures_mono with (P := fun _ => True) (F := problems [409]); [done|intros e; by apply problems_mono|].
  unfold catalog_claim. raise.
Qed.
Ltac catalog H := raise_with ltac:(try first [by apply errors_catalog_claim | reflexivity | exact H]).
Lemma errors_mutate p b kind k input q (create : M (json * string)) :
  raises [409] create -> raises [409] (mutate hmac fp p b kind k input q create).
Proof. intros H. unfold mutate. catalog H. Qed.
Lemma errors_patch p b kind i k input q (change : M (option json)) :
  raises [404; 409] change -> raises [404; 409] (patch hmac fp p b kind i k input q change).
Proof. intros H. unfold patch. catalog H. Qed.
Lemma errors_CreateCardProduct p b k c n s cfg q : raises [409] (CreateCardProductWorkflow hmac fp p b k c n s cfg q).
Proof. apply errors_mutate. unfold CreateCardProduct. raise. Qed.
Lemma errors_CreateClient p b k e d q : raises [409] (CreateClientWorkflow hmac fp p b k e d q).
Proof. apply errors_mutate. unfold CreateClient. raise. Qed.
Lemma errors_CreateAccount p b k c e q : raises [409] (CreateAccountReferenceWorkflow hmac fp p b k c e q).
Proof. apply errors_mutate. unfold CreateAccountReference. raise. Qed.
Lemma errors_PatchProduct p b i k n s cfg q : raises [404; 409] (PatchCardProductWorkflow hmac fp p b i k n s cfg q).
Proof. apply errors_patch. unfold UpdateCardProduct. raise. Qed.
Lemma errors_PatchClient p b i k d q : raises [404; 409] (PatchClientWorkflow hmac fp p b i k d q).
Proof. apply errors_patch. unfold UpdateClient. raise. Qed.
Lemma errors_PatchAccount p b i k c q : raises [404; 409] (PatchAccountReferenceWorkflow hmac fp p b i k c q).
Proof. apply errors_patch. unfold UpdateAccountReference. raise. Qed.
Lemma errors_ListReference b kind : raises [] (ListReference b kind).
Proof. unfold ListReference, catalog_marshalItems, reader_CardProducts, reader_Clients, reader_AccountReferences. raise. Qed.

(** Banks: the status of the answer as well. *)
Definition answers_in (T S : list Z) (m : M (Z * json)) : Prop := ensures (fun sr => one_of T sr.1 = true) (problems S) m.
Lemma errors_bank_claim S s k body : forallb (one_of S) [409] = true -> raises S (bank_centralIdempotency hmac fp s k body).
Proof.
  intros HS. eapply ensures_mono with (P := fun _ => True) (F := problems [409]); [done|intros e; by apply problems_mono|].
  unfold bank_centralIdempotency. raise.
Qed.
Lemma errors_bank_entity S id : raises S (bank_entity id).
Proof. unfold bank_entity, reader_Entity. raise. Qed.
Hint Resolve errors_bank_entity : raises.
Ltac bank := raise_with ltac:(try first [by apply errors_bank_claim | reflexivity]).
Lemma errors_ListBanks : raises [] (ListBanks shardID).
Proof. unfold ListBanks, Banks, list_bank. bank. Qed.
Lemma errors_reserve s k body : ensures (fun plan => match plan with inl sr => one_of [201; 202] sr.1 = true | inr _ => True end) (problems [409])
  (reserve_bank hmac fp shardID s k body).
Proof.
  unfold reserve_bank, CreateBankRoute, draw_bank_uuid. apply ensures_then; [by apply errors_bank_claim|]. intros [replay|].
  - apply ensures_ret. unfold resume. repeat case_match; simplify_eq; reflexivity || exact I.
  - bank.
Qed.
Lemma errors_ProvisionBank p k body r n q : answers_in [201; 202] [409] (ProvisionBankWorkflow hmac fp shardID p k body r n q).
Proof.
  unfold answers_in, ProvisionBankWorkflow, provision_entity, activate_bank, ProvisionEntity, SetBankRouteStatus. apply ensures_then; [bank|].
  intros _. apply ensures_defer. cbv zeta. eapply ensures_bind; [apply errors_reserve|]. intros [sr|id] Hsr; [by apply ensures_ret|]. bank.
Qed.
Lemma errors_PatchBank p i k body n st q : answers_in [200] [404; 409] (PatchBankWorkflow hmac fp shardID p i k body n st q).
Proof. unfold answers_in, PatchBankWorkflow, patch_entity, finish_patch, UpdateEntity, SetBankRouteStatusForEntity. bank. Qed.

(** Users *)
Lemma errors_staff_claim S s k body : forallb (one_of S) [409] = true -> raises S (staff_centralIdempotency hmac fp s k body).
Proof.
  intros HS. eapply ensures_mono with (P := fun _ => True) (F := problems [409]); [done|intros e; by apply problems_mono|].
  unfold staff_centralIdempotency. raise.
Qed.
Ltac staff := raise_with ltac:(try first [by apply errors_staff_claim | reflexivity]).
Context (IDKey : string -> string -> Z -> Z -> Z -> Z -> string).
Lemma errors_ListUsers : raises [] ListUsers.
Proof. unfold ListUsers, Users. staff. Qed.
Lemma errors_CreateUser p k body u pw r e q : answers_in [201] [400; 409] (CreateUserWorkflow IDKey hmac fp shardID p k body u pw r e q).
Proof. unfold answers_in, CreateUserWorkflow, require_assignment, conclude, RecordAuthenticationAudit. staff. Qed.
Lemma errors_UpdateUser p i k body r e s q :
  answers_in [200] [400; 404; 409] (UpdateUserWorkflow hmac fp shardID p i k body r e s q).
Proof. unfold answers_in, UpdateUserWorkflow, require_assignment, conclude, RecordAuthenticationAudit, UpdateUserRole, UpdateUserStatus. staff. Qed.
(** A change that assigns no bank. *)
Lemma errors_DisableUser p i k body r s q :
  answers_in [200] [404; 409] (UpdateUserWorkflow hmac fp shardID p i k body r "" s q).
Proof.
  unfold answers_in, UpdateUserWorkflow, conclude, RecordAuthenticationAudit, UpdateUserRole, UpdateUserStatus.
  change (require_assignment shardID "") with (mret (M := M) tt). staff.
Qed.
Lemma errors_SetUserPassword p i k body pw q : answers_in [200] [404; 409] (SetUserPasswordWorkflow IDKey hmac fp p i k body pw q).
Proof. unfold answers_in, SetUserPasswordWorkflow, conclude, RecordAuthenticationAudit, UpdateUserPassword. staff. Qed.
End Services.
