(* ===== verification/ListingSafety.v ===== *)
(** * ListingSafety: the collections of the API, listed by pages

    Every list operation of the services returns its rows newest first with
    distinct keys, so a client that follows the cursors gets each row once
    ([listing_pages]); the directory of banks is the exception
    ([listing_out_of_order_skips]): its order is that of the routes, its cursor the
    creation time of the bank. *)

From S2P Require Import Prelude Text Json JsonText TimeText JsonRoundtrip Http Domain Stores Uuid World ShardTx Guards ExecutorStore CardStore CardService BatchStore BatchService CatalogStore CatalogService ControlStore ControlOrder StaffService BankService Pagination PaginationSafety Scenario.
Open Scope string_scope.
Open Scope list_scope.
Open Scope Z_scope.

(** ** Rows newest first *)

#[export] Instance newer_total {A} (at_ : A -> Z) : Total (newer at_).
Proof.
  intros p q. unfold newer. destruct (Z.lt_trichotomy (at_ p.2) (at_ q.2)) as [H|[H|H]]; [auto| |auto].
  destruct (total String.le p.1 q.1); [right|left]; right; auto.
Qed.
#[export] Instance newer_trans {A} (at_ : A -> Z) : Transitive (newer at_).
Proof.
  intros p q r. unfold newer. intros [H|[H Hl]] [H'|[H' Hl']]; [left; lia..|]. right. split; [lia|]. by transitivity q.1.
Qed.

Definition row_key {A} (at_ : A -> Z) (p : string * A) : item_key := (at_ p.2, p.1).

Lemma newer_sorted {A} (at_ : A -> Z) (l : list (string * A)) :
  NoDup (fst <$> l) -> StronglySorted (newer at_) l -> StronglySorted before (row_key at_ <$> l).
Proof.
  intros Hnd Hs. induction Hs as [|p l Hs IH Hp]; [constructor|]. 
  apply NoDup_cons in Hnd as [Hnot Hnd]. constructor; [by apply IH|]. apply Forall_fmap. rewrite Forall_forall in Hp |- *.
  intros q Hq. destruct (Hp q Hq) as [H|[H Hl]]; [by left|]. right. cbn. split; [done|]. split; [done|].
  intros E. apply Hnot. rewrite <- E. by apply list_elem_of_fmap_2.
Qed.

Lemma newest_in_order {A} (at_ : A -> Z) (enc : string * A -> json) (rows : list (string * A)) :
  NoDup (fst <$> rows) -> (forall p, p ∈ rows -> keyed (enc p) (row_key at_ p)) ->
  in_order (List.map enc (newest_first at_ rows)).
Proof.
  intros Hnd Hk. exists (row_key at_ <$> newest_first at_ rows). split.
  - assert (Hin : forall p, p ∈ newest_first at_ rows -> keyed (enc p) (row_key at_ p)).
    { intros p Hp. apply Hk. unfold newest_first in Hp. by rewrite merge_sort_Permutation in Hp. }
    revert Hin. induction (newest_first at_ rows) as [|p l IH]; intros Hin; constructor; [apply Hin, elem_of_cons; by left|].
    apply IH. intros q Hq. apply Hin, elem_of_cons. by right.
  - apply newer_sorted; [unfold newest_first; by rewrite merge_sort_Permutation|]. apply StronglySorted_merge_sort; apply _.
Qed.

Lemma NoDup_filter_fst {A} (P : string * A -> Prop) `{!forall x, Decision (P x)} (l : list (string * A)) :
  NoDup (fst <$> l) -> NoDup (fst <$> filter P l).
Proof.
  induction l as [|p l IH]; [done|]. intros [Hn Hl]%NoDup_cons. rewrite filter_cons.
  case_decide; [|by apply IH]. apply NoDup_cons. split; [|by apply IH]. intros Hin. apply Hn.
  apply list_elem_of_fmap in Hin as (q & -> & Hq%list_elem_of_filter). apply list_elem_of_fmap_2, Hq.
Qed.

(** ** Rows the API can list *)

(** A row with a canonical identifier, a creation time of the years 0 to 9999
    and text that is UTF-8. *)
Definition listable (id : string) (t : Z) (j : json) : Prop :=
  ValidUUID id = true /\ valid_time t /\ json_utf8 j = true /\ (nesting j <= max_nesting)%nat.

Record listable_shard (db : shard_db) : Prop := {
  ls_cards : forall bank id r, cards db !! (bank, id) = Some r -> listable id (cd_created_at r) (Card_json (scanCard id r));
  ls_operations : forall bank id r, operations db !! (bank, id) = Some r ->
    listable id (op_created_at r) (CardOperation_json (scanCardOperation id r));
  ls_history : forall r, r ∈ history db -> listable (hi_id r) (hi_created_at r) (CardStatusHistory_json (scanCardStatusHistory r));
  ls_history_key : NoDup (hi_id <$> history db);
  ls_products : forall bank id r, products db !! (bank, id) = Some r ->
    listable id (pr_created_at r) (CardProduct_json (scanCardProduct id r));
  ls_clients : forall bank id r, clients db !! (bank, id) = Some r -> listable id (cl_created_at r) (Client_json (scanClient id r));
  ls_accounts : forall bank id r, accounts db !! (bank, id) = Some r ->
    listable id (ac_created_at r) (AccountReference_json (scanAccountReference id r));
  ls_batches : forall bank id r, batches db !! (bank, id) = Some r ->
    listable id (ba_created_at r) (CardStatusBatch_json (scanCardStatusBatch id r));
  ls_items : forall bank id r t, batch_items db !! (bank, id) = Some r -> valid_time t ->
    listable id t (CardStatusBatchItem_json (scanCardStatusBatchItem id r t))
}.
Definition listable_users (db : control_db) : Prop :=
  forall id u, users db !! id = Some u -> listable id (us_created_at u) (userJSON (scanDirectoryUser id u)).

Ltac keyed_by := intros (Hid & Ht & Hu & Hn); apply keyed_object; [exact Hu|exact Hn|reflexivity|exact Hid|exact Ht].

Lemma Card_keyed id r : listable id (cd_created_at r) (Card_json (scanCard id r)) ->
  keyed (Card_json (scanCard id r)) (cd_created_at r, id).
Proof. keyed_by. Qed.
Lemma CardOperation_keyed id r : listable id (op_created_at r) (CardOperation_json (scanCardOperation id r)) ->
  keyed (CardOperation_json (scanCardOperation id r)) (op_created_at r, id).
Proof. keyed_by. Qed.
Lemma CardStatusHistory_keyed r : listable (hi_id r) (hi_created_at r) (CardStatusHistory_json (scanCardStatusHistory r)) ->
  keyed (CardStatusHistory_json (scanCardStatusHistory r)) (hi_created_at r, hi_id r).
Proof. keyed_by. Qed.
Lemma CardProduct_keyed id r : listable id (pr_created_at r) (CardProduct_json (scanCardProduct id r)) ->
  keyed (CardProduct_json (scanCardProduct id r)) (pr_created_at r, id).
Proof. keyed_by. Qed.
Lemma Client_keyed id r : listable id (cl_created_at r) (Client_json (scanClient id r)) ->
  keyed (Client_json (scanClient id r)) (cl_created_at r, id).
Proof. keyed_by. Qed.
Lemma AccountReference_keyed id r : listable id (ac_created_at r) (AccountReference_json (scanAccountReference id r)) ->
  keyed (AccountReference_json (scanAccountReference id r)) (ac_created_at r, id).
Proof. keyed_by. Qed.
Lemma CardStatusBatch_keyed id r : listable id (ba_created_at r) (CardStatusBatch_json (scanCardStatusBatch id r)) ->
  keyed (CardStatusBatch_json (scanCardStatusBatch id r)) (ba_created_at r, id).
Proof. unfold CardStatusBatch_json. intros (Hid & Ht & Hu & Hn). apply keyed_object; [exact Hu|exact Hn| |exact Hid|exact Ht].
  unfold CardStatusBatch_members, omit_empty. cbn [scanCardStatusBatch CardStatusBatch_FailureCode CardStatusBatch_FailureSummary].
  by destruct (ba_failure_code r), (ba_failure_summary r). Qed.
Lemma CardStatusBatchItem_keyed id r t : listable id t (CardStatusBatchItem_json (scanCardStatusBatchItem id r t)) ->
  keyed (CardStatusBatchItem_json (scanCardStatusBatchItem id r t)) (t, id).
Proof. keyed_by. Qed.
Lemma user_keyed id u : listable id (us_created_at u) (userJSON (scanDirectoryUser id u)) ->
  keyed (userJSON (scanDirectoryUser id u)) (us_created_at u, id).
Proof. keyed_by. Qed.

(** ** The list operations *)

(** The collections of the API: kind and scope as the handlers name them, and
    the operation that lists them. *)
Inductive listing : string -> string -> M (list json) -> Prop :=
  | listing_cards bank client account product status :
      listing "cards" bank (ListCards bank client account product status)
  | listing_operations bank card : listing "card-operations" bank (ListCardOperations bank card)
  | listing_history bank card : listing "card-history" bank (ListCardStatusHistory bank card)
  | listing_batches bank : listing "card-status-batches" bank (ListCardStatusBatches bank)
  | listing_items bank batch : listing "card-status-batch-items" (bank +:+ ":" +:+ batch) (ListCardStatusBatchItems bank batch)
  | listing_reference bank kind : (kind = "card-products" \/ kind = "clients" \/ kind = "account-references") ->
      listing kind bank (ListReference bank kind)
  | listing_users : listing "users" "control" ListUsers.

Lemma read_rows_inr {A} bank what (q : shard_db -> A) w v w' :
  read_rows bank what q w = (inr v, w') -> v = q (w_shard w).
Proof.
  intros H. unfold read_rows in H. apply bind_inr in H as ([] & w1 & H1 & H). apply beginTenant_inr in H1 as (Htx & _).
  apply defer_inr in H as (w4 & H & ->). apply bind_inr in H as (x & w2 & H2 & H). rewrite wrap_inr in H2.
  apply (exec_tx _ _ _ _ _ Htx) in H2 as (env & db & Hf & _). injection Hf as Hq _.
  apply bind_inr in H as ([] & w3 & _ & H). by apply ret_inr in H as [<- _].
Qed.
Lemma marshal_inr {A} (encode : A -> json) (m : M (list A)) w data w' :
  (items ← m; mret (List.map encode items)) w = (inr data, w') -> exists l w1, m w = (inr l, w1) /\ data = List.map encode l.
Proof. intros (l & w1 & H & Hr)%bind_inr. apply ret_inr in Hr as [<- _]. eauto. Qed.

(** The rows of one bank, filtered. *)
Lemma bank_listing {A} (at_ : A -> Z) (enc : string -> A -> json) (bank : string) (t : gmap Stores.key A) (P : string * A -> Prop)
    `{!forall x, Decision (P x)} :
  (forall id r, t !! (bank, id) = Some r -> keyed (enc id r) (at_ r, id)) ->
  in_order (List.map (fun p => enc p.1 p.2) (newest_first at_ (filter P (bank_rows bank t)))).
Proof.
  intros Hk. apply (newest_in_order at_ (fun p => enc p.1 p.2)); [apply NoDup_filter_fst, bank_rows_NoDup|].
  intros [id r] [_ Hin]%list_elem_of_filter. apply bank_rows_spec in Hin. by apply Hk.
Qed.
Lemma whole_bank_listing {A} (at_ : A -> Z) (enc : string -> A -> json) (bank : string) (t : gmap Stores.key A) :
  (forall id r, t !! (bank, id) = Some r -> keyed (enc id r) (at_ r, id)) ->
  in_order (List.map (fun p => enc p.1 p.2) (newest_first at_ (bank_rows bank t))).
Proof.
  intros Hk. apply (newest_in_order at_ (fun p => enc p.1 p.2)); [apply bank_rows_NoDup|].
  intros [id r] Hin. apply bank_rows_spec in Hin. by apply Hk.
Qed.

Lemma history_in_order db bank card : listable_shard db ->
  in_order (List.map (fun p => CardStatusHistory_json (scanCardStatusHistory p.2))
    (newest_first hi_created_at (merge_sort (fun p q : string * history_row => String.le p.1 q.1)
      (List.map (fun h => (hi_id h, h)) (filter (fun h => hi_entity_id h = bank /\ hi_card_id h = card) (history db)))))).
Proof.
  intros Hdb. apply (newest_in_order hi_created_at (fun p => CardStatusHistory_json (scanCardStatusHistory p.2))).
  - rewrite merge_sort_Permutation. pose proof (ls_history_key db Hdb) as Hnd. clear Hdb.
    induction (history db) as [|h l IH]; [constructor|]. apply NoDup_cons in Hnd as [Hn Hnd]. rewrite filter_cons.
    case_decide; [|by apply IH]. apply NoDup_cons. split; [|by apply IH]. intros Hin. apply Hn.
    apply list_elem_of_fmap in Hin as (q & Hid & Hq). apply list_elem_of_In, in_map_iff in Hq as (h' & <- & Hh').
    apply list_elem_of_In, list_elem_of_filter in Hh' as [_ Hh']. apply list_elem_of_fmap. by exists h'.
  - intros p. rewrite merge_sort_Permutation. intros Hp. apply list_elem_of_In, in_map_iff in Hp as (h & <- & Hh).
    apply list_elem_of_In, list_elem_of_filter in Hh as [_ Hh]. apply CardStatusHistory_keyed. by apply (ls_history db Hdb).
Qed.

Lemma items_in_order db bank batch b : listable_shard db -> batches db !! (bank, batch) = Some b ->
  in_order (List.map (fun p => CardStatusBatchItem_json (scanCardStatusBatchItem p.1 p.2 (ba_created_at b)))
    (newest_first (fun _ => ba_created_at b) (items_of_batch bank batch db))).
Proof.
  intros Hdb Hb. apply (bank_listing (fun _ => ba_created_at b)
    (fun id r => CardStatusBatchItem_json (scanCardStatusBatchItem id r (ba_created_at b)))).
  intros id r Hr. apply CardStatusBatchItem_keyed. eapply (ls_items db Hdb); [exact Hr|].
  by destruct (ls_batches db Hdb bank batch b Hb) as (_ & Ht & _).
Qed.

Lemma batches_inr bank w l w' : reader_CardStatusBatches bank w = (inr l, w') ->
  l = List.map (fun p => scanCardStatusBatch p.1 p.2) (newest_first ba_created_at (bank_rows bank (batches (w_shard w)))).
Proof.
  intros H. unfold reader_CardStatusBatches in H. apply bind_inr in H as ([] & w1 & H1 & H). apply beginTenant_inr in H1 as (Htx & _).
  apply defer_inr in H as (w4 & H & ->). apply bind_inr in H as (x & w2 & H2 & H). rewrite wrap_inr in H2.
  apply (exec_tx _ _ _ _ _ Htx) in H2 as (env & db & Hf & _). injection Hf as Hq _.
  apply bind_inr in H as ([] & w3 & _ & H). by apply ret_inr in H as [<- _].
Qed.
Lemma items_inr bank batch w l w' : reader_CardStatusBatchItems bank batch w = (inr l, w') ->
  exists b, batches (w_shard w) !! (bank, batch) = Some b /\
  l = List.map (fun p => scanCardStatusBatchItem p.1 p.2 (ba_created_at b))
        (newest_first (fun _ => ba_created_at b) (items_of_batch bank batch (w_shard w))).
Proof.
  intros H. unfold reader_CardStatusBatchItems in H. apply bind_inr in H as ([] & w1 & H1 & H). apply beginTenant_inr in H1 as (Htx & _).
  apply defer_inr in H as (w4 & H & ->). apply bind_inr in H as (x & w2 & H2 & H). rewrite wrap_inr in H2.
  apply (exec_tx _ _ _ _ _ Htx) in H2 as (env & db & Hf & Htx2 & _). injection Hf as Hq <-.
  destruct x; cbn [negb] in H; [|by apply throw_inr in H]. apply bool_decide_eq_true in Hq as [b Hb].
  apply bind_inr in H as (items & w3 & H3 & H). rewrite wrap_inr in H3.
  apply (exec_tx _ _ _ _ _ Htx2) in H3 as (env' & db' & Hf' & _). unfold select_items, query in Hf'. rewrite Hb in Hf'.
  injection Hf' as Hl _. apply bind_inr in H as ([] & w5 & _ & H). apply ret_inr in H as [<- _]. eauto.
Qed.

(** Every list operation returns its rows in the order of the listing. *)
Lemma listing_in_order kind scope m w data w' :
  listing kind scope m -> listable_shard (w_shard w) -> listable_users (w_control w) -> m w = (inr data, w') -> in_order data.
Proof.
  intros Hl Hdb Husers H. destruct Hl as [bank c a p s|bank card|bank card|bank|bank batch|bank kind Hkind|].
  - apply marshal_inr in H as (l & w1 & Hr & ->). apply read_rows_inr in Hr as ->. rewrite List.map_map.
    apply (bank_listing cd_created_at (fun id r => Card_json (scanCard id r))). intros id r Hr.
    apply Card_keyed. by eapply (ls_cards _ Hdb).
  - apply marshal_inr in H as (l & w1 & Hr & ->). apply read_rows_inr in Hr as ->. rewrite List.map_map.
    apply (bank_listing op_created_at (fun id r => CardOperation_json (scanCardOperation id r))). intros id r Hr.
    apply CardOperation_keyed. by eapply (ls_operations _ Hdb).
  - apply marshal_inr in H as (l & w1 & Hr & ->). apply read_rows_inr in Hr as ->. rewrite List.map_map. by apply history_in_order.
  - apply marshal_inr in H as (l & w1 & Hr & ->). apply batches_inr in Hr as ->. rewrite List.map_map.
    apply (whole_bank_listing ba_created_at (fun id r => CardStatusBatch_json (scanCardStatusBatch id r))). intros id r Hr.
    apply CardStatusBatch_keyed. by eapply (ls_batches _ Hdb).
  - apply marshal_inr in H as (l & w1 & Hr & ->). apply items_inr in Hr as (b & Hb & ->). rewrite List.map_map.
    by apply items_in_order.
  - unfold ListReference in H. destruct Hkind as [-> | [-> | ->]]; cbn [String.eqb Ascii.eqb Bool.eqb] in H;
      apply marshal_inr in H as (l & w1 & Hr & ->); apply read_rows_inr in Hr as ->; rewrite List.map_map.
    + apply (whole_bank_listing pr_created_at (fun id r => CardProduct_json (scanCardProduct id r))). intros id r Hr.
      apply CardProduct_keyed. by eapply (ls_products _ Hdb).
    + apply (whole_bank_listing cl_created_at (fun id r => Client_json (scanClient id r))). intros id r Hr.
      apply Client_keyed. by eapply (ls_clients _ Hdb).
    + apply (whole_bank_listing ac_created_at (fun id r => AccountReference_json (scanAccountReference id r))). intros id r Hr.
      apply AccountReference_keyed. by eapply (ls_accounts _ Hdb).
  - apply marshal_inr in H as (l & w1 & Hr & ->). unfold Users in Hr. rewrite wrap_inr in Hr.
    apply control_read_run in Hr as (_ & _ & _ & [[e He]|[env He]]); [done|]. injection He as ->. rewrite List.map_map.
    apply (newest_in_order us_created_at (fun p => userJSON (scanDirectoryUser p.1 p.2))); [apply rows_of_NoDup|].
    intros [id u] Hin. apply rows_of_spec in Hin. apply user_keyed. by apply Husers.
Qed.

(** C21: whatever collection of the API is listed but the directory of banks
    (cards, operations and history of a card, batches and their items, the three
    reference collections, users: [listing]), under a scope in UTF-8 and from
    databases whose rows can be listed ([listable]: a canonical identifier, a time
    of the years 0 to 9999, text in UTF-8, nesting within that of the scanner),
    its rows come newest first with distinct keys, and a client that starts
    without a cursor and follows [next_cursor] while nothing changes reaches the
    end after at most as many requests as there are rows and has received exactly
    the collection, whatever the accepted page size.  Of the directory it is not
    true ([listing_out_of_order_skips]). *)
Theorem listing_pages hmac cursorKey kind scope m w data w' r limit n :
  listing kind scope m -> listable_shard (w_shard w) -> listable_users (w_control w) -> m w = (inr data, w') ->
  utf8_valid scope = true -> page_limit (rq_query r) = Some limit -> query_get (rq_query r) "cursor" = "" ->
  (length data <= n)%nat -> (1 <= n)%nat ->
  in_order data /\
  exists pages, walk hmac cursorKey kind scope r (repeat data n) = Some (pages, true) /\ List.concat pages = data.
Proof.
  intros Hl Hdb Husers Hrun Hscope Hsize Hstart Hn Hn1.
  assert (Hkind : utf8_valid kind = true) by (by destruct Hl as [| | | | |? ? [-> | [-> | ->]]|]).
  assert (Hord : in_order data) by (by eapply listing_in_order). split; [exact Hord|].
  by apply (pages_complete hmac cursorKey kind scope r limit data n).
Qed.

(** A bank with two cards of one day. *)
Definition first_uuid : string := "00000000-0000-4000-8000-000000000001".
Definition second_uuid : string := "00000000-0000-4000-8000-000000000002".
Definition listed_shard : shard_db :=
  empty_shard <| cards := <[(bank1, first_uuid) := mk_card "active" (Some "400000******0001") None None]>
                            {[ (bank1, second_uuid) := mk_card "issued" None None None ]} |>.
Lemma listed_shard_ok : listable_shard listed_shard.
Proof.
  assert (Hc : forall id status pan, ValidUUID id = true -> json_utf8 (Card_json (scanCard id (mk_card status pan None None))) = true ->
    listable id 5 (Card_json (scanCard id (mk_card status pan None None)))).
  { intros id status pan Hid Hu. split; [done|]. split; [by split; vm_compute|]. split; [done|].
    apply max_nesting_large. by destruct pan. }
  split; try (intros bank id r H; by vm_compute in H); try (intros bank id r t H; by vm_compute in H).
  - intros bank id r H. cbn in H. apply lookup_insert_Some in H as [[[= <- <-] <-]|[_ H]].
    + by apply Hc; vm_compute.
    + apply lookup_singleton_Some in H as [[= <- <-] <-]. by apply Hc; vm_compute.
  - intros h H. by apply not_elem_of_nil in H.
  - constructor.
Qed.
Definition one_by_one : Request := MkRequest "GET" "/v1/banks" {["page_size" := ["1"]]} ∅ "" "request".

Lemma listing_pages_witness : exists pages,
  walk toy_hmac "key" "cards" bank1 one_by_one
    (repeat [Card_json (scanCard second_uuid (mk_card "issued" None None None));
             Card_json (scanCard first_uuid (mk_card "active" (Some "400000******0001") None None))] 2) = Some (pages, true) /\
  length (List.concat pages) = 2%nat.
Proof.
  destruct (listing_pages toy_hmac "key" "cards" bank1 (ListCards bank1 "" "" "" "") (toy_world listed_shard 100)
    [Card_json (scanCard second_uuid (mk_card "issued" None None None));
     Card_json (scanCard first_uuid (mk_card "active" (Some "400000******0001") None None))]
    (ListCards bank1 "" "" "" "" (toy_world listed_shard 100)).2 one_by_one 1 2 (listing_cards _ _ _ _ _) listed_shard_ok)
    as (_ & pages & Hw & Hc).
  - intros id u H. by vm_compute in H.
  - apply run_result. by vm_compute.
  - by vm_compute.
  - by vm_compute.
  - by vm_compute.
  - cbn. lia.
  - lia.
  - exists pages. split; [exact Hw|]. by rewrite Hc.
Defined.

(** ** The directory of banks *)

(** The directory is not listed in the order of its cursor.  Where an older
    route belongs to a bank whose record was created later, as when its
    provisioning was completed by a repeated request, a client with page size one
    that follows [next_cursor] to its end receives the first bank and never the
    second. *)
Theorem listing_out_of_order_skips hmac cursorKey kind bank r n x y kx ky :
  utf8_valid kind = true -> utf8_valid bank = true -> page_limit (rq_query r) = Some 1 ->
  query_get (rq_query r) "cursor" = "" -> keyed x kx -> keyed y ky -> before ky kx ->
  walk hmac cursorKey kind bank r (repeat [x; y] (S (S n))) = Some ([[x]; []], true).
Proof.
  intros Hkind Hbank Hsize Hstart Hx Hy Hyx. assert (Hkeys : Forall2 keyed [x; y] [kx; ky]) by (by repeat constructor).
  cbn [repeat walk]. rewrite (collection_start hmac cursorKey kind bank r 1) by done.
  destruct (write_page_spec hmac cursorKey kind bank r 1 [x; y] [kx; ky] 0 ltac:(lia) Hkeys ltac:(lia)) as (next & -> & Hnext).
  destruct next as [token|]; [|cbn in Hnext; lia]. destruct Hnext as (_ & k & [= <-] & Hres).
  cbn [mbind option_bind fst snd]. change (Z.to_nat 1) with 1%nat. cbn [take drop].
  assert (Hseek : seek kx.1 kx.2 [x; y] = Some 2%nat).
  { assert (Hno : forall z kz, keyed z kz -> ~ before kx kz -> forall l n, seek kx.1 kx.2 l = Some n -> seek kx.1 kx.2 (z :: l) = Some (S n)).
    { intros z kz (created & Hc & Ht & _) Hnot l m Hl. cbn [seek]. rewrite Hc. cbn [mbind option_bind fst snd]. rewrite Ht.
      cbn [mbind option_bind]. destruct ((kz.1 <? kx.1) || (kz.1 =? kx.1) && String.ltb kz.2 kx.2) eqn:E; [|by rewrite Hl].
      exfalso. apply Hnot. unfold before. rewrite orb_true_iff, andb_true_iff, Z.ltb_lt, Z.eqb_eq, ltb_le in E. intuition. }
    eapply Hno; [exact Hx|apply before_irrefl|]. eapply Hno; [exact Hy|by apply before_asym|done]. }
  assert (Hsize' : page_limit (rq_query (with_cursor token r)) = Some 1) by (unfold page_limit in *; cbn [with_cursor rq_query]; by rewrite query_get_size).
  rewrite (collection_at hmac cursorKey kind bank Hkind Hbank _ kx 1 [x; y] 2) by done.
  destruct (write_page_spec hmac cursorKey kind bank (with_cursor token r) 1 [x; y] [kx; ky] 2 ltac:(lia) Hkeys ltac:(done)) as (next & -> & Hnext).
  destruct next as [token'|]; [cbn in Hnext; lia|]. done.
Qed.

(** Two banks of one shard: the route of the first is older, its record younger. *)
Definition directory_world : world :=
  (toy_world (empty_shard <| entities := <[first_uuid := EntityRow "A" "First" "active" 300 300 "user" "user"]>
                                         {[ second_uuid := EntityRow "B" "Second" "active" 200 200 "user" "user" ]} |>) 400)
    <| w_control := empty_control <| routes := <[first_uuid := RouteRow "shard" "active" 100 300]>
                                                {[ second_uuid := RouteRow "shard" "active" 150 200 ]} |> |>.
Definition listed_first : json := listed_bank (bank_entity_json (MkEntity first_uuid "A" "First" "active" 300 300)) "active".
Definition listed_second : json := listed_bank (bank_entity_json (MkEntity second_uuid "B" "Second" "active" 200 200)) "active".

Lemma listing_out_of_order_skips_witness :
  (ListBanks "shard" directory_world).1 = inr [listed_second; listed_first] /\
  walk toy_hmac "key" "banks" "directory" one_by_one (repeat [listed_second; listed_first] 2) = Some ([[listed_second]; []], true).
Proof.
  split; [by vm_compute|].
  apply (listing_out_of_order_skips toy_hmac "key" "banks" "directory" one_by_one 0 listed_second listed_first (200, second_uuid) (300, first_uuid));
    [by vm_compute..| | |left; cbn; lia].
  - apply keyed_object; [by vm_compute|by apply max_nesting_large|reflexivity|by vm_compute|by split; vm_compute].
  - apply keyed_object; [by vm_compute|by apply max_nesting_large|reflexivity|by vm_compute|by split; vm_compute].
Defined.
