(* ===== verification/BankSafety.v ===== *)
(** * BankSafety: the provisioning saga

    A provisioning makes a route active only when its entity is in the shard; a
    change of a bank can activate a route that has no entity.  Also the runs in
    an environment without faults, and those of the control transactions, that
    the other files on the directory use. *)

From S2P Require Import Prelude Json Domain Stores Uuid Vault World ShardTx Guards ShardOrder Idempotency AuthTypes AuthStore ControlStore ControlOrder CardStore CatalogStore BankService Scenario.
Open Scope string_scope.
Open Scope list_scope.
Open Scope Z_scope.

(** ** Calm runs

    [calm_run m w r co cotx sh shtx t]: from [w], with no fault to come, [m]
    returns [r] and leaves these databases, open transactions and clock.  The
    rules follow the monad, so a run is computed statement by statement. *)

(** A calm environment: what a world shows to the code. *)
Record calmly (w : world) (co : control_db) (cotx : option control_db) (sh : shard_db) (shtx : option shard_db) (t : Z) : Prop := Calmly {
  ca_events : w_events w = []; ca_control : w_control w = co; ca_control_tx : w_control_tx w = cotx;
  ca_shard : w_shard w = sh; ca_shard_tx : w_shard_tx w = shtx; ca_clock : w_clock w = t }.
(** [m] returns [r] and leaves the databases so. *)
Definition calm_run {A} (m : M A) (w : world) (r : result A) co cotx sh shtx t : Prop :=
  exists w', m w = (r, w') /\ calmly w' co cotx sh shtx t.

Section Calm.
Context (co : control_db) (sh : shard_db) (t : Z).
Lemma calm_control_transaction w cotx shtx :
  calmly w co cotx sh shtx t -> calm_run control_transaction w (inr tt) co (Some co) sh shtx t.
Proof.
  intros [He Hc Hx Hs Hy Ht]. unfold calm_run, control_transaction, wrap, control_begin, pop_event. rewrite He. cbn.
  eexists. split; [reflexivity|]. by split; cbn; rewrite ?Hc.
Qed.
Lemma calm_control_exec {A} (f : sql control_db A) w db shtx a db' :
  calmly w co (Some db) sh shtx t -> f (sql_env_of w) db = inr (a, db') ->
  calm_run (control_exec f) w (inr a) co (Some db') sh shtx t.
Proof.
  intros [He Hc Hx Hs Hy Ht] Hf. unfold calm_run, control_exec, pop_event. rewrite Hx, He. cbn. rewrite Hf.
  eexists. split; [reflexivity|]. by split.
Qed.
Lemma calm_control_commit w db shtx :
  calmly w co (Some db) sh shtx t -> calm_run control_commit w (inr tt) db None sh shtx t.
Proof.
  intros [He Hc Hx Hs Hy Ht]. unfold calm_run, control_commit, pop_event. rewrite Hx, He. cbn. eexists. split; [reflexivity|]. by split.
Qed.
Lemma calm_control_read {A} (g : sql_env -> control_db -> A) a w cotx shtx :
  calmly w co cotx sh shtx t -> (forall env, g env co = a) -> calm_run (control_read g) w (inr a) co cotx sh shtx t.
Proof.
  intros [He Hc Hx Hs Hy Ht] Hg. unfold calm_run, control_read, control_auto, pop_event, query. rewrite He. cbn. rewrite Hc, Hg.
  eexists. split; [reflexivity|]. by split.
Qed.
Lemma calm_beginTenant bank w cotx shtx :
  calmly w co cotx sh shtx t -> calm_run (beginTenant bank) w (inr tt) co cotx sh (Some sh) t.
Proof.
  intros [He Hc Hx Hs Hy Ht]. unfold calm_run, beginTenant, wrap, try, mbind, M_bind, shard_begin, shard_exec, pop_event. rewrite He. cbn.
  rewrite He. cbn. eexists. split; [reflexivity|]. split; cbn; congruence.
Qed.
Lemma calm_shard_exec {A} (f : sql shard_db A) w cotx db a db' :
  calmly w co cotx sh (Some db) t -> f (sql_env_of w) db = inr (a, db') ->
  calm_run (shard_exec f) w (inr a) co cotx sh (Some db') t.
Proof.
  intros [He Hc Hx Hs Hy Ht] Hf. rewrite <- Hc. unfold calm_run. rewrite (exec_quiet _ _ _ _ _ He Hy Hf).
  eexists. split; [reflexivity|]. by split.
Qed.
Lemma calm_shard_fails {A} (f : sql shard_db A) w cotx db e :
  calmly w co cotx sh (Some db) t -> f (sql_env_of w) db = inl e ->
  calm_run (shard_exec f) w (inl (ErrDb e)) co cotx sh None t.
Proof.
  intros [He Hc Hx Hs Hy Ht] Hf. unfold calm_run, shard_exec, pop_event. rewrite Hy, He. cbn. rewrite Hf.
  eexists. split; [reflexivity|]. by split.
Qed.
Lemma calm_shard_commit w cotx db :
  calmly w co cotx sh (Some db) t -> calm_run shard_commit w (inr tt) co cotx db None t.
Proof.
  intros [He Hc Hx Hs Hy Ht]. unfold calm_run, shard_commit, pop_event. rewrite Hy, He. cbn. eexists. split; [reflexivity|]. by split.
Qed.
End Calm.

(** Composition. *)
Lemma calm_bind {A B} (m : M A) (k : A -> M B) w a r co cotx sh shtx t co' cotx' sh' shtx' t' :
  calm_run m w (inr a) co cotx sh shtx t ->
  (forall w1, calmly w1 co cotx sh shtx t -> calm_run (k a) w1 r co' cotx' sh' shtx' t') ->
  calm_run (m ≫= k) w r co' cotx' sh' shtx' t'.
Proof. intros (w1 & E & H) Hk. destruct (Hk w1 H) as (w2 & E2 & H2). exists w2. split; [|done]. by rewrite (bind_eq _ _ _ _ _ E). Qed.
Lemma calm_throw {A} e w co cotx sh shtx t :
  calmly w co cotx sh shtx t -> calm_run (throw (A := A) e) w (inl e) co cotx sh shtx t.
Proof. intros H. by exists w. Qed.
Lemma calm_ret {A} (a : A) w co cotx sh shtx t :
  calmly w co cotx sh shtx t -> calm_run (mret a) w (inr a) co cotx sh shtx t.
Proof. intros H. by exists w. Qed.
Lemma calm_try {A} (m : M A) r w co cotx sh shtx t :
  calm_run m w r co cotx sh shtx t -> calm_run (try m) w (inr r) co cotx sh shtx t.
Proof. intros (w' & E & H). exists w'. split; [|done]. unfold try. by rewrite E. Qed.
Lemma calm_wrap {A} s (m : M A) a w co cotx sh shtx t :
  calm_run m w (inr a) co cotx sh shtx t -> calm_run (wrap s m) w (inr a) co cotx sh shtx t.
Proof. intros (w' & E & H). exists w'. split; [|done]. unfold wrap. by rewrite E. Qed.
Lemma calm_row {A} (m : M (option A)) o w co cotx sh shtx t :
  calm_run m w (inr o) co cotx sh shtx t ->
  calm_run (row m) w (match o with Some a => inr a | None => inl ErrNoRows end) co cotx sh shtx t.
Proof. intros H. unfold row. eapply calm_bind; [exact H|]. intros w1 H1. destruct o; [by apply calm_ret|by apply calm_throw]. Qed.
Lemma calm_control_defer {A} (m : M A) r w co cotx sh shtx t :
  calm_run m w r co cotx sh shtx t -> calm_run (with_defer control_rollback m) w r co None sh shtx t.
Proof. intros (w' & E & [He Hc Hx Hs Hy Ht]). unfold calm_run, with_defer. rewrite E. eexists. split; [reflexivity|]. by split. Qed.
Lemma calm_shard_defer {A} (m : M A) r w co cotx sh shtx t :
  calm_run m w r co cotx sh shtx t -> calm_run (with_defer shard_rollback m) w r co cotx sh None t.
Proof. intros (w' & E & [He Hc Hx Hs Hy Ht]). unfold calm_run, with_defer. rewrite E. eexists. split; [reflexivity|]. by split. Qed.
Lemma calm_throw_run {A} (m : M A) (e : error) w co cotx sh shtx t B (k : A -> M B) :
  calm_run m w (inl e) co cotx sh shtx t -> calm_run (m ≫= k) w (inl e) co cotx sh shtx t.
Proof. intros (w1 & E & H). exists w1. split; [|done]. unfold mbind, M_bind. by rewrite E. Qed.
(** The same at the world a part ends in. *)
Lemma calm_bind_at {A B} (m : M A) (k : A -> M B) w a w1 r co cotx sh shtx t :
  m w = (inr a, w1) -> calm_run (k a) w1 r co cotx sh shtx t -> calm_run (m ≫= k) w r co cotx sh shtx t.
Proof. intros E (w2 & E2 & H2). exists w2. split; [|done]. by rewrite (bind_eq _ _ _ _ _ E). Qed.

(** ** What the steps of the saga may do *)

(** Entities are never deleted. *)
Definition entities_grow (db db' : shard_db) : Prop := forall id, is_Some (entities db !! id) -> is_Some (entities db' !! id).
#[export] Instance entities_grow_preorder : PreOrder entities_grow.
Proof. split; [by intros db id|]. intros a b c H1 H2 id H. auto. Qed.

(** An active route was active before, unless it is that of [but]. *)
Definition active_route (shardID id : string) (db : control_db) : Prop :=
  exists r, routes db !! id = Some r /\ ro_shard_id r = shardID /\ ro_placement_status r = "active".
Definition activates (shardID : string) (but : string -> Prop) (db db' : control_db) : Prop :=
  forall id, active_route shardID id db' -> active_route shardID id db \/ but id.
#[export] Instance activates_preorder shardID but : PreOrder (activates shardID but).
Proof. split; [by intros db id; left|]. intros a b c H1 H2 id H. destruct (H2 id H) as [?|?]; [auto|by right]. Qed.

(** Every active route of the shard has its entity. *)
Definition backed (shardID : string) (w : world) : Prop :=
  forall id, active_route shardID id (w_control w) -> is_Some (entities (w_shard w) !! id).

Lemma grow_upsert input : mono entities_grow (upsert_entity input).
Proof.
  intros env db a db'. unfold upsert_entity. cbv zeta. destruct (entities db !! _) eqn:E.
  - intros [= _ <-] id Hid. cbn. rewrite lookup_insert_is_Some'. auto.
  - case_match; [done|]. intros [= _ <-] id Hid. cbn. rewrite lookup_insert_is_Some'. auto.
Qed.
Lemma grow_update input : mono entities_grow (update_entity input).
Proof.
  intros env db a db'. unfold update_entity. cbv zeta. destruct (entities db !! _) eqn:E; intros [= _ <-]; [|done].
  intros id Hid. cbn. rewrite lookup_insert_is_Some'. auto.
Qed.
Lemma grow_audit b x t r o q who d : mono entities_grow (insert_audit b x t r o q who d).
Proof. intros env db a db' [= _ <-]. by intros id. Qed.
Lemma grow_query {A} (g : sql_env -> shard_db -> A) : mono entities_grow (query g).
Proof. intros env db a db' [= _ <-]. by intros id. Qed.
#[export] Hint Resolve grow_upsert grow_update grow_audit grow_query : frames.

Section Activates.
Context (shardID : string) (but : string -> Prop).
Abbreviation P := (activates shardID but).
Lemma act_query {A} (g : sql_env -> control_db -> A) : mono P (query g).
Proof. intros env db a db' [= _ <-]. reflexivity. Qed.
Lemma act_claim c b : mono P (claim_command c b).
Proof. intros env db a db'. unfold claim_command. repeat case_match; try done; intros [= _ <-] i Hi; by left. Qed.
Lemma act_finish s k st j r : mono P (finish_command s k st j r).
Proof. intros env db a db'. unfold finish_command. case_match; intros [= _ <-] i Hi; by left. Qed.
Lemma act_insert_route i : mono P (insert_route i shardID).
Proof.
  intros env db a db'. unfold insert_route, insert_pk. destruct (routes db !! i) eqn:E; [done|]. intros [= _ <-] j (r & Hr & Hs & Ha).
  cbn in Hr. apply lookup_insert_Some in Hr as [[<- <-]|[_ Hr]]; [done|]. left. by exists r.
Qed.
Lemma act_update_route i wh st : (st = "active" -> but i) -> mono P (update_route i wh st).
Proof.
  intros Hb env db a db'. unfold update_route. repeat case_match; intros [= _ <-]; try (by intros j Hj; left).
  intros j (r' & Hr & Hs & Ha). cbn in Hr. apply lookup_insert_Some in Hr as [[<- <-]|[_ Hr]].
  - right. by apply Hb.
  - left. by exists r'.
Qed.
End Activates.
#[export] Hint Resolve act_query act_claim act_finish act_insert_route : frames.

(** ** The invariant of the routes *)

Section Saga.
Context (hmac : string -> string -> string) (fp : Fingerprinter) (shardID : string).

(** The steps before the last activate no route, and delete no entity. *)
Ltac leaf := auto 6 with frames.
Abbreviation quiet_routes := (control_moves (activates shardID (fun _ => False))).
Abbreviation growing := (shard_moves entities_grow).

Lemma cmoves_beginTenant P `{!PreOrder P} b : frames (control_moves P) (beginTenant b).
Proof. unfold beginTenant. frame_with ltac:(leaf). Qed.
Lemma smoves_beginTenant b : frames growing (beginTenant b).
Proof. unfold beginTenant. frame_with ltac:(leaf). Qed.
Lemma moves_control_transaction : frames growing control_transaction.
Proof. unfold control_transaction. frame_with ltac:(leaf). Qed.
Hint Resolve cmoves_beginTenant smoves_beginTenant moves_control_transaction : frames.

Lemma quiet_reserve scope key body : frames quiet_routes (reserve_bank hmac fp shardID scope key body).
Proof.
  unfold reserve_bank, bank_centralIdempotency, CentralClaimIdempotency, CreateBankRoute, CentralFinishIdempotency, draw_bank_uuid.
  frame_with ltac:(leaf).
Qed.
Lemma quiet_provision p id ref name rq : frames quiet_routes (provision_entity p id ref name rq).
Proof. unfold provision_entity, ProvisionEntity. frame_with ltac:(leaf). Qed.
Lemma quiet_entity id : frames quiet_routes (bank_entity id).
Proof. unfold bank_entity, reader_Entity, read_row. frame_with ltac:(leaf). Qed.
Lemma growing_reserve scope key body : frames growing (reserve_bank hmac fp shardID scope key body).
Proof.
  unfold reserve_bank, bank_centralIdempotency, CentralClaimIdempotency, CreateBankRoute, CentralFinishIdempotency, draw_bank_uuid.
  frame_with ltac:(leaf).
Qed.
Lemma growing_provision p id ref name rq : frames growing (provision_entity p id ref name rq).
Proof. unfold provision_entity, ProvisionEntity. frame_with ltac:(leaf). Qed.
Lemma growing_entity id : frames growing (bank_entity id).
Proof. unfold bank_entity, reader_Entity, read_row. frame_with ltac:(leaf). Qed.
Lemma committed_activate scope key id raw : frames committed (activate_bank shardID scope key id raw).
Proof. unfold activate_bank, SetBankRouteStatus, CentralFinishIdempotency, control_transaction. frame_with ltac:(leaf). Qed.
Lemma activate_only scope key id raw :
  frames (control_moves (activates shardID (fun i => i = id))) (activate_bank shardID scope key id raw).
Proof.
  unfold activate_bank, SetBankRouteStatus, CentralFinishIdempotency, control_transaction.
  frame_with ltac:(try solve [leaf | apply cmoves_control_exec; [apply _|by apply act_update_route]]).
Qed.

(** A read outside the workflow's own transactions. *)
Lemma read_row_inr {A} bank what (q : shard_db -> option A) w v w' :
  read_row bank what q w = (inr v, w') -> q (w_shard w) = Some v /\ w_shard w' = w_shard w /\ w_shard_tx w' = None.
Proof.
  intros H. unfold read_row in H. apply bind_inr in H as ([] & w1 & H1 & H). apply beginTenant_inr in H1 as (Htx & Hs & _).
  apply defer_inr in H as (w4 & H & ->). apply bind_inr in H as (x & w2 & H2 & H). rewrite wrap_inr, row_inr in H2.
  apply (exec_tx _ _ _ _ _ Htx) in H2 as (env & db & Hf & Htx2 & _). injection Hf as Hq <-.
  apply bind_inr in H as ([] & w3 & H3 & H). rewrite wrap_inr in H3. apply ret_inr in H as [<- <-].
  apply commit_inr in H3 as (db & Hdb & Hs3 & _). rewrite Htx2 in Hdb. injection Hdb as <-. split; [done|]. by split.
Qed.
Lemma bank_entity_inr id w raw w' :
  bank_entity id w = (inr raw, w') ->
  exists e, entities (w_shard w) !! id = Some e /\ raw = bank_entity_json (scanEntity id e) /\ w_shard w' = w_shard w /\
    w_shard_tx w' = None.
Proof.
  intros H. unfold bank_entity in H. apply bind_inr in H as (e & w1 & H1 & H). apply ret_inr in H as [<- <-].
  apply read_row_inr in H1 as (Hq & Hs & Htx). destruct (entities (w_shard w) !! id) as [row|]; [|done].
  injection Hq as <-. by exists row.
Qed.

(** The open transactions hold nothing the committed databases could not become. *)
Definition open_ok (w : world) : Prop :=
  (forall v, w_control_tx w = Some v -> activates shardID (fun _ => False) (w_control w) v) /\
  (forall v, w_shard_tx w = Some v -> entities_grow (w_shard w) v).

Lemma backed_step {A} (m : M A) w r w' :
  frames quiet_routes m -> frames growing m -> m w = (r, w') -> open_ok w -> backed shardID w -> open_ok w' /\ backed shardID w'.
Proof.
  intros Hq Hg Hm [Hc Hs] Hb. destruct (Hq _ _ _ Hm Hc) as [Hact Hc']. destruct (Hg _ _ _ Hm Hs) as [Hent Hs'].
  split; [done|]. intros id Hid. destruct (Hact id Hid) as [Ho|[] ]. apply Hent, Hb, Ho.
Qed.
Lemma backed_activate scope key id raw w r w' :
  activate_bank shardID scope key id raw w = (r, w') -> is_Some (entities (w_shard w) !! id) -> open_ok w -> backed shardID w ->
  backed shardID w'.
Proof.
  intros Hm Hid [Hc _] Hb. destruct (activate_only _ _ _ _ _ _ _ Hm) as [Hact _].
  { intros v Hv j Hj. destruct (Hc v Hv j Hj) as [?|[]]. by left. }
  pose proof (committed_activate _ _ _ _ _ _ _ Hm) as Hs. red in Hs.
  intros j Hj. rewrite Hs. destruct (Hact j Hj) as [Hj'| ->]; [by apply Hb|done].
Qed.

(** C17: a provisioning never makes a bank routable before its shard is set up.
    Whatever statement, commit or reply fails on the way, and whatever record it
    resumes from, when every active route of the shard had its entity before a
    provisioning, every active route has it afterwards. *)
Theorem provision_keeps_routes_backed p key body reference name rq w r w'
    (Hrun : ProvisionBankWorkflow hmac fp shardID p key body reference name rq w = (r, w'))
    (Hnone : w_control_tx w = None /\ w_shard_tx w = None) (Hbacked : backed shardID w) : backed shardID w'.
Proof.
  assert (Ho : open_ok w) by (destruct Hnone as [Hc Hs]; split; congruence).
  unfold ProvisionBankWorkflow in Hrun. cbv zeta in Hrun.
  assert (Hct : frames quiet_routes control_transaction) by (unfold control_transaction; frame_with ltac:(leaf)).
  apply bind_run in Hrun as [(e & -> & H)|([] & w1 & H1 & H)].
  { eapply backed_step in H as [? ?]; eauto with frames. }
  eapply backed_step in H1 as [Ho1 Hb1]; [|exact Hct|apply moves_control_transaction|done|done].
  unfold with_defer in H. match type of H with context [let (_, _) := ?b in _] => destruct b as [r0 w9] eqn:E end.
  injection H as _ <-. change (backed shardID w9). clear Hnone Hbacked Ho r.
  apply bind_run in E as [(e & -> & E)|(plan & w2 & H2 & E)].
  { by eapply backed_step in E as [? ?]; eauto using quiet_reserve, growing_reserve. }
  eapply backed_step in H2 as [Ho2 Hb2]; [|apply quiet_reserve|apply growing_reserve|done|done].
  destruct plan as [resp|id]; [by injection E as _ <-|].
  apply bind_run in E as [(e & -> & E)|([] & w3 & H3 & E)].
  { by eapply backed_step in E as [? ?]; eauto with frames. }
  eapply backed_step in H3 as [Ho3 Hb3]; [|leaf|leaf|done|done].
  apply bind_run in E as [(e & -> & E)|([] & w4 & H4 & E)].
  { by eapply backed_step in E as [? ?]; eauto using quiet_provision, growing_provision. }
  eapply backed_step in H4 as [Ho4 Hb4]; [|apply quiet_provision|apply growing_provision|done|done].
  apply bind_run in E as [(e & -> & E)|(raw & w5 & H5 & E)].
  { by eapply backed_step in E as [? ?]; eauto using quiet_entity, growing_entity. }
  pose proof (bank_entity_inr _ _ _ _ H5) as (row & Hrow & _ & Hs5 & _).
  eapply backed_step in H5 as [Ho5 Hb5]; [|apply quiet_entity|apply growing_entity|done|done].
  eapply backed_activate; [exact E| |done|done]. rewrite Hs5. by exists row.
Qed.
End Saga.

(** A fault that loses the reply of the commit of the reservation. *)
Definition bank_world : world :=
  (toy_world toy_shard 100) <| w_control := empty_control <| routes := {[ bank1 := RouteRow "shard-1" "active" 1 1 ]} |> |>
    <| w_events := [quiet; quiet; quiet; quiet; quiet; Event 0 (Some OtherDbError) true] |>.
Abbreviation toy_provision := (ProvisionBankWorkflow toy_hmac toy_fp "shard-1" toy_principal "key-1" "body" "REF-2" "New" "request").

Lemma toy_backed : backed "shard-1" bank_world.
Proof.
  intros i (r & Hr & _). change (routes (w_control bank_world)) with ({[ bank1 := RouteRow "shard-1" "active" 1 1 ]} : gmap string route_row) in Hr.
  apply lookup_singleton_Some in Hr as [<- _]. by eexists.
Qed.
Lemma provision_keeps_routes_backed_witness :
  (exists e, (toy_provision bank_world).1 = inl e) /\ backed "shard-1" (toy_provision bank_world).2.
Proof.
  destruct (toy_provision bank_world).1 as [e|a] eqn:E; [|exfalso; by vm_compute in E].
  split; [by exists e|].
  exact (provision_keeps_routes_backed toy_hmac toy_fp "shard-1" toy_principal "key-1" "body" "REF-2" "New" "request" bank_world
    (inl e) _ (run_result _ _ E) (conj eq_refl eq_refl) toy_backed).
Defined.

(** ** Control transactions *)

(** The committed control database is untouched, as by everything but a commit. *)
Definition ccommitted : relation world := fun w w' => w_control w' = w_control w.
#[export] Instance ccommitted_preorder : PreOrder ccommitted.
Proof. split; [done|]. unfold ccommitted. intros a b c ??. congruence. Qed.
#[export] Instance ccommitted_rel : WorldRel ccommitted.
Proof. split; [apply _|..]; world_cases; done. Qed.
Lemma ccommitted_exec {A} (f : sql shard_db A) : frames ccommitted (shard_exec f).
Proof. world_cases; done. Qed.
Lemma ccommitted_commit : frames ccommitted shard_commit.
Proof. world_cases; done. Qed.
Lemma ccommitted_control {A} (f : sql control_db A) : frames ccommitted (control_exec f).
Proof. world_cases; done. Qed.
#[export] Hint Resolve ccommitted_exec ccommitted_commit ccommitted_control : frames.

Lemma begin_control w w' :
  control_transaction w = (inr tt, w') ->
  w_control_tx w' = Some (w_control w) /\ w_control w' = w_control w /\ w_clock w <= w_clock w' /\ w_shard w' = w_shard w /\
    w_shard_tx w' = w_shard_tx w.
Proof.
  unfold control_transaction. rewrite wrap_inr. unfold control_begin, pop_event.
  repeat case_match; intros; simplify_eq/=; repeat split; done || lia.
Qed.

Lemma cexec_tx {A} (f : sql control_db A) w db a w' :
  control_exec f w = (inr a, w') -> w_control_tx w = Some db ->
  exists env db', f env db = inr (a, db') /\ w_control_tx w' = Some db' /\ w_control w' = w_control w.
Proof. intros (d & db' & env & Hd & Hf & _ & _ & _ & Htx & Hc & _)%cexec_inr Hdb. rewrite Hd in Hdb. injection Hdb as ->. eauto. Qed.

(** ** Runs in a calm environment *)

Section CalmBank.
Context (hmac : string -> string -> string) (fp : Fingerprinter) (shardID scope key body : string).

Lemma calm_now w co cotx sh shtx t : calmly w co cotx sh shtx t -> calm_run time_now w (inr t) co cotx sh shtx t.
Proof. intros Hw. exists w. split; [|done]. unfold time_now. by rewrite (ca_clock _ _ _ _ _ _ Hw). Qed.

Definition command_claim (t : Z) : CentralIdempotencyClaim :=
  MkCentralIdempotencyClaim scope key (Fingerprint hmac fp body) t (t + bank_replayLifetime).

(** The record of a command that is new. *)
Definition opened (t : Z) (db : control_db) : control_db :=
  db <| commands ::= <[(scope, key) := fresh_command (command_claim t)]> |>.
(** A first claim opens the record. *)
Lemma claim_new_command w co rep w' :
  bank_centralIdempotency hmac fp scope key body w = (inr rep, w') -> w_control_tx w = Some co ->
  commands co !! (scope, key) = None ->
  rep = None /\ w_control_tx w' = Some (opened (w_clock w) co).
Proof.
  unfold bank_centralIdempotency. intros H1 Htx Hnew. apply bind_inr in H1 as (t & w2 & H2 & H1). apply time_inr in H2 as [-> ->].
  apply bind_inr in H1 as (r & w3 & H3 & H1). rewrite try_inr in H3.
  destruct r as [e|rp]; [by destruct (errors_is e _); apply throw_inr in H1|]. apply ret_inr in H1 as [<- <-].
  unfold CentralClaimIdempotency in H3. apply bind_inr in H3 as (q & w4 & H4 & H3). rewrite try_inr in H4.
  unfold row in H4. apply bind_run in H4 as [(e & -> & H4)|(o & w5 & H4 & H5)].
  { destruct (errors_is e _); [|by apply throw_inr in H3]. apply bind_inr in H3 as ([] & w5 & H5 & _).
    apply cexec_inr in H5 as (db & _ & _ & Hdb & _). unfold control_exec, query, pop_event in H4.
    repeat case_match; simplify_eq/=. }
  apply (cexec_tx _ _ co) in H4 as (env & db' & [= <- <-] & Htx5 & _); [|done].
  change (central_key _) with (scope, key) in H5. rewrite Hnew in H5. injection H5 as <- <-. cbn in H3.
  apply bind_inr in H3 as ([] & w6 & H6 & H3). apply ret_inr in H3 as [<- <-].
  apply (cexec_tx _ _ co) in H6 as (env6 & db6 & Hf & Htx6 & _); [|done]. unfold claim_command in Hf.
  change (central_key _) with (scope, key) in Hf. rewrite Hnew in Hf. injection Hf as <-. by split.
Qed.

Lemma calm_new_command w co db sh shtx t :
  calmly w co (Some db) sh shtx t -> commands db !! (scope, key) = None ->
  calm_run (bank_centralIdempotency hmac fp scope key body) w (inr None) co (Some (opened t db)) sh shtx t.
Proof.
  intros Hw Hnew. unfold bank_centralIdempotency. eapply calm_bind; [by apply calm_now|]. intros w1 Hw1.
  eapply calm_bind.
  - apply calm_try. unfold CentralClaimIdempotency.
    eapply calm_bind; [apply calm_try, calm_row; by eapply calm_control_exec|]. intros w2 Hw2.
    cbn. unfold central_key. cbn. rewrite Hnew. cbn. eapply calm_bind; [|intros w3 Hw3; by apply calm_ret].
    eapply calm_control_exec; [exact Hw2|]. unfold claim_command, central_key. cbn. by rewrite Hnew.
  - intros w4 Hw4. by apply calm_ret.
Qed.
Lemma calm_known_command w co db sh shtx t c :
  calmly w co (Some db) sh shtx t -> commands db !! (scope, key) = Some c -> t < cm_expires_at c ->
  cm_request_fingerprint c = Fingerprint hmac fp body ->
  calm_run (bank_centralIdempotency hmac fp scope key body) w (inr (Some (cm_response_body c))) co (Some db) sh shtx t.
Proof.
  intros Hw Hc Ht Hfp. unfold bank_centralIdempotency. eapply calm_bind; [by apply calm_now|]. intros w1 Hw1.
  eapply calm_bind.
  - apply calm_try. unfold CentralClaimIdempotency.
    eapply calm_bind; [apply calm_try, calm_row; by eapply calm_control_exec|]. intros w2 Hw2.
    cbn. unfold central_key. cbn. rewrite Hc. rewrite (proj2 (Z.ltb_lt _ _) Ht), Hfp, String.eqb_refl. by apply calm_ret.
  - intros w4 Hw4. by apply calm_ret.
Qed.
Lemma calm_visible_route id w co cotx sh shtx t r :
  calmly w co cotx sh shtx t -> routes co !! id = Some r -> ro_shard_id r = shardID ->
  calm_run (ActiveOrProvisioning shardID id) w
    (inr ((ro_placement_status r == "active") || (ro_placement_status r == "paused") || (ro_placement_status r == "provisioning")))
    co cotx sh shtx t.
Proof.
  intros Hw Hr Hs. unfold ActiveOrProvisioning, holds, HasActiveOrProvisioningRoute.
  set (v := (_ || _)). eapply (calm_bind _ _ _ (inr v)); [|intros w1 Hw1; by apply calm_ret].
  apply calm_try, calm_wrap. eapply calm_control_read; [exact Hw|].
  intros env. unfold has_route. by rewrite Hr, Hs, String.eqb_refl.
Qed.
End CalmBank.

(** ** A change that activates too early *)

(** A change of status to active of a bank whose provisioning has not
    reached its shard makes the route active in its first transaction, then
    fails because the bank has no entity, and the active route without an
    entity stays. *)
Theorem PatchBank_activates_unprovisioned hmac fp shardID p id key body name rq w r
    (Hcalm : w_events w = []) (Hroute : routes (w_control w) !! id = Some r) (Hshard : ro_shard_id r = shardID)
    (Hprov : ro_placement_status r = "provisioning")
    (Hnew : commands (w_control w) !! ("banks.patch." +:+ id +:+ ".actor." +:+ Principal_UserID p, key) = None)
    (Hmissing : entities (w_shard w) !! id = None) :
  exists w', PatchBankWorkflow hmac fp shardID p id key body name (Some "active") rq w = (inl ErrNoRows, w') /\
    active_route shardID id (w_control w') /\ entities (w_shard w') !! id = None.
Proof.
  set (co := w_control w) in *. set (sh := w_shard w) in *. set (t := w_clock w).
  assert (Hw : calmly w co (w_control_tx w) sh (w_shard_tx w) t) by done.
  set (scope := "banks.patch." +:+ id +:+ ".actor." +:+ Principal_UserID p) in *.
  set (c1 := opened hmac fp scope key body t co).
  enough (calm_run (PatchBankWorkflow hmac fp shardID p id key body name (Some "active") rq) w (inl ErrNoRows)
    (c1 <| routes ::= <[id := r <| ro_placement_status := "active" |> <| ro_updated_at := t |>]> |>) None sh None t)
    as (w' & E & [_ Hc _ Hs _ _]).
  { exists w'. split; [done|]. rewrite Hc, Hs. split; [|done]. eexists. split; [apply lookup_insert_eq|]. by split. }
  unfold PatchBankWorkflow. cbv zeta. fold scope. eapply calm_bind; [by eapply calm_control_transaction|].
  intros w1 Hw1. eapply calm_control_defer. eapply calm_bind; [by eapply calm_new_command|]. intros w2 Hw2.
  eapply calm_bind; [by eapply calm_visible_route|]. intros w3 Hw3. rewrite Hprov. cbn [String.eqb negb orb].
  eapply calm_bind; [eapply calm_control_exec; [exact Hw3|]|].
  { unfold update_route. cbn. rewrite Hroute. by rewrite (ca_clock _ _ _ _ _ _ Hw3). }
  intros w4 Hw4. eapply calm_bind; [by eapply calm_control_commit|]. intros w5 Hw5.
  eapply calm_throw_run. unfold patch_entity. eapply calm_bind; [by eapply calm_beginTenant|]. intros w6 Hw6.
  eapply calm_shard_defer, calm_throw_run. unfold UpdateEntity. eapply calm_throw_run.
  eapply (calm_row _ None), calm_shard_exec; [exact Hw6|]. unfold update_entity. cbn. by rewrite Hmissing.
Qed.

Definition provisioning_world : world :=
  (toy_world toy_shard 100) <| w_control := empty_control <| routes := {[ "bank-2" := RouteRow "shard-1" "provisioning" 1 1 ]} |> |>.
Lemma PatchBank_activates_unprovisioned_witness :
  exists w', PatchBankWorkflow toy_hmac toy_fp "shard-1" toy_principal "bank-2" "key-1" "body" None (Some "active") "request"
      provisioning_world = (inl ErrNoRows, w') /\
    active_route "shard-1" "bank-2" (w_control w') /\ entities (w_shard w') !! "bank-2" = None.
Proof.
  apply (PatchBank_activates_unprovisioned toy_hmac toy_fp "shard-1" toy_principal "bank-2" "key-1" "body" None "request"
    provisioning_world (RouteRow "shard-1" "provisioning" 1 1)); try reflexivity; by vm_compute.
Defined.
