(* ===== verification/BankResume.v ===== *)
(** * BankResume: a provisioning that failed is completed by repeating it

    Wherever a first attempt stopped, the databases it left either hold nothing
    of it or hold a record from which the same request, repeated in a calm
    environment, brings the bank up under the id that was reserved; unless the
    reference asked for is that of another bank, whose reservation stays and is
    refused again at each repetition. *)

From S2P Require Import Prelude Json Domain Stores Uuid Vault World ShardTx Guards ShardOrder Idempotency AuthTypes AuthStore ControlStore ControlOrder CardStore CatalogStore BankService Scenario BankSafety.
Open Scope string_scope.
Open Scope list_scope.
Open Scope Z_scope.

Lemma jsonb_provisional id : jsonb (provisional id) = provisional id.
Proof. reflexivity. Qed.
Lemma resume_provisional id : id <> "" -> resume (jsonb (provisional id)) = inr id.
Proof. intros H. rewrite jsonb_provisional. unfold resume.
  change (json_string (json_field (provisional id) "id")) with (Some id). cbv iota. by rewrite (proj2 (String.eqb_neq id "") H).
Qed.
Lemma resume_final e : Entity_ID e <> "" -> resume (jsonb (bank_entity_json e)) = inl (201, jsonb (bank_entity_json e)).
Proof.
  intros H. unfold resume. change (json_string (json_field (jsonb (bank_entity_json e)) "id")) with (Some (Entity_ID e)).
  cbv iota. by rewrite (proj2 (String.eqb_neq _ "") H).
Qed.
Lemma bank_newUUID_nonempty bs : bank_newUUID bs <> "".
Proof. unfold bank_newUUID. by destruct (hex_encode (slice 0 4 (set_version bs))). Qed.

Section Resume.
Context (hmac : string -> string -> string) (fp : Fingerprinter) (shardID : string).
Context (p : Principal) (key body reference name rq : string).
Abbreviation scope := ("banks.create.actor." +:+ Principal_UserID p).

(** The record of the request, good until [limit]. *)
Definition recorded (limit : Z) (response : json) (co : control_db) : Prop :=
  exists c, commands co !! (scope, key) = Some c /\ cm_request_fingerprint c = Fingerprint hmac fp body /\
    limit <= cm_expires_at c /\ cm_response_body c = jsonb response.
Definition owned_route (id : string) (co : control_db) : Prop :=
  exists r, routes co !! id = Some r /\ ro_shard_id r = shardID /\ ro_placement_status r = "provisioning".
(** Reserved for [id], and finished for [id]. *)
Definition reserved (limit : Z) (id : string) (co : control_db) : Prop :=
  recorded limit (provisional id) co /\ owned_route id co.
Definition settled (limit : Z) (id : string) (co : control_db) : Prop :=
  (exists e, Entity_ID e = id /\ recorded limit (bank_entity_json e) co) /\ active_route shardID id co.
(** The shard has the bank, or has room for it. *)
Definition provisioned (id : string) (sh : shard_db) : Prop :=
  exists e, entities sh !! id = Some e /\ en_bank_reference e = reference /\ en_name e = name.
Definition taken (sh : shard_db) : bool := existsb (fun q => en_bank_reference q.2 == reference) (map_to_list (entities sh)).
Definition room (id : string) (sh : shard_db) : Prop :=
  match entities sh !! id with
  | Some e => en_bank_reference e = reference
  | None => taken sh = false
  end.
(** Another bank has the reference. *)
Definition blocked (id : string) (sh : shard_db) : Prop := entities sh !! id = None /\ taken sh = true.

Definition upsert_input (id : string) : EntityProvision := MkEntityProvision id reference name (Principal_UserID p) rq.

Lemma upsert_room env id sh :
  room id sh -> exists sh', upsert_entity (upsert_input id) env sh = inr (tt, sh') /\ provisioned id sh'.
Proof.
  unfold room, taken, upsert_entity, upsert_input. cbn. destruct (entities sh !! id) as [e|] eqn:E.
  - intros H. eexists. split; [reflexivity|]. eexists. cbn. rewrite lookup_insert_eq. by repeat split.
  - intros ->. eexists. split; [reflexivity|]. eexists. cbn. rewrite lookup_insert_eq. by repeat split.
Qed.
Lemma upsert_blocked env id sh : blocked id sh -> upsert_entity (upsert_input id) env sh = inl unique_violation.
Proof. unfold blocked, taken, upsert_entity, upsert_input. cbn. by intros [-> ->]. Qed.
Lemma provisioned_room id sh : provisioned id sh -> room id sh.
Proof. unfold provisioned, room. by intros (e & -> & H & _). Qed.
Lemma fresh_room_blocked id sh : entities sh !! id = None -> if taken sh then blocked id sh else room id sh.
Proof. intros H. unfold blocked, room. rewrite H. by destruct (taken sh). Qed.
Lemma audit_entities b x t r o q who d env sh :
  exists sh', insert_audit b x t r o q who d env sh = inr (tt, sh') /\ entities sh' = entities sh.
Proof. eexists. split; reflexivity. Qed.

(** ** The repetition *)

Lemma calm_provision_entity id w co cotx sh shtx t :
  calmly w co cotx sh shtx t -> room id sh ->
  exists sh', provisioned id sh' /\ calm_run (provision_entity p id reference name rq) w (inr tt) co cotx sh' None t.
Proof.
  intros Hw Hroom. destruct (calm_beginTenant _ _ _ id _ _ _ Hw) as (w1 & E1 & Hw1).
  destruct (upsert_room (sql_env_of w1) id sh Hroom) as (sh1 & Hup & Hprov).
  destruct (calm_shard_exec _ _ _ (upsert_entity (upsert_input id)) _ _ _ _ _ Hw1 Hup) as (w2 & E2 & Hw2).
  destruct (audit_entities id "bank_provision" "bank" id "succeeded" rq
    (Actor (Some (Principal_UserID p)) "issuer_operator" None None) (JObj []) (sql_env_of w2) sh1) as (sh2 & Ha & He).
  exists sh2. split; [unfold provisioned; by rewrite He|]. unfold provision_entity.
  apply (calm_bind_at _ _ _ _ _ _ _ _ _ _ _ E1). eapply calm_bind.
  - apply calm_try. apply (calm_bind_at _ _ _ _ _ _ _ _ _ _ _ E2). by eapply calm_shard_exec.
  - intros w3 Hw3. by eapply calm_shard_commit.
Qed.

Lemma calm_bank_entity id w co cotx sh shtx t e :
  calmly w co cotx sh shtx t -> entities sh !! id = Some e ->
  calm_run (bank_entity id) w (inr (bank_entity_json (scanEntity id e))) co cotx sh None t.
Proof.
  intros Hw He. unfold bank_entity, reader_Entity, read_row. eapply calm_bind; [|intros w1 Hw1; by apply calm_ret].
  eapply calm_bind; [by eapply calm_beginTenant|]. intros w1 Hw1. eapply calm_shard_defer.
  eapply calm_bind; [eapply calm_wrap, (calm_row _ (Some (scanEntity id e))), calm_shard_exec; [exact Hw1|]|].
  { unfold query. by rewrite He. }
  intros w2 Hw2. eapply calm_bind; [by eapply calm_wrap, calm_shard_commit|]. intros w3 Hw3. by apply calm_ret.
Qed.

Lemma calm_activate id raw w co cotx sh shtx t c :
  calmly w co cotx sh shtx t -> owned_route id co -> commands co !! (scope, key) = Some c ->
  exists co', calm_run (activate_bank shardID scope key id raw) w (inr (201, raw)) co' None sh shtx t /\ active_route shardID id co'.
Proof.
  intros Hw (r & Hr & Hs & _) Hc.
  set (co1 := co <| routes ::= <[id := r <| ro_placement_status := "active" |> <| ro_updated_at := t |>]> |>).
  eexists. split.
  - unfold activate_bank. eapply calm_bind; [by eapply calm_control_transaction|]. intros w1 Hw1. eapply calm_control_defer.
    eapply calm_bind; [eapply (calm_control_exec _ _ _ _ _ _ _ _ co1); [exact Hw1|]|].
    { unfold update_route. rewrite Hr, Hs, String.eqb_refl. cbn. by rewrite (ca_clock _ _ _ _ _ _ Hw1). }
    intros w2 Hw2. eapply calm_bind; [eapply calm_control_exec; [exact Hw2|]|].
    { unfold finish_command. cbn. by rewrite Hc. }
    intros w3 Hw3. eapply calm_bind; [by eapply calm_control_commit|]. intros w4 Hw4. by apply calm_ret.
  - eexists. cbn. rewrite lookup_insert_eq. by repeat split.
Qed.

(** From a reservation the repetition completes. *)
Lemma resume_reserved limit id w co cotx sh shtx t :
  calmly w co cotx sh shtx t -> id <> "" -> reserved limit id co -> room id sh -> t < limit ->
  exists raw w', ProvisionBankWorkflow hmac fp shardID p key body reference name rq w = (inr (201, raw), w') /\
    active_route shardID id (w_control w') /\ provisioned id (w_shard w').
Proof.
  intros Hw Hid ((c & Hc & Hfp & Hexp & Hbody) & Hroute) Hroom Ht.
  enough (exists raw co' sh', active_route shardID id co' /\ provisioned id sh' /\
    calm_run (ProvisionBankWorkflow hmac fp shardID p key body reference name rq) w (inr (201, raw)) co' None sh' None t)
    as (raw & co' & sh' & Hact & Hprov & w' & E & [_ Hc' _ Hs' _ _]).
  { exists raw, w'. by rewrite Hc', Hs'. }
  unfold ProvisionBankWorkflow. cbv zeta.
  destruct (calm_control_transaction _ _ _ _ _ _ Hw) as (w1 & E1 & Hw1).
  destruct (calm_known_command hmac fp scope key body _ _ _ _ _ _ _ Hw1 Hc ltac:(lia) Hfp) as (w2 & E2 & Hw2).
  destruct (calm_control_commit _ _ _ _ _ _ Hw2) as (w3 & E3 & Hw3).
  destruct (calm_provision_entity _ _ _ _ _ _ _ Hw3 Hroom) as (sh' & Hprov & w4 & E4 & Hw4).
  pose proof Hprov as (e & He & _). destruct (calm_bank_entity _ _ _ _ _ _ _ _ Hw4 He) as (w5 & E5 & Hw5).
  destruct (calm_activate _ (bank_entity_json (scanEntity id e)) _ _ _ _ _ _ _ Hw5 Hroute Hc) as (co' & Hrun & Hact).
  exists (bank_entity_json (scanEntity id e)), co', sh'. split; [done|]. split; [done|].
  apply (calm_bind_at _ _ _ _ _ _ _ _ _ _ _ E1). eapply calm_control_defer.
  eapply (calm_bind_at _ _ _ (inr id) w2).
  { unfold reserve_bank. rewrite (bind_eq _ _ _ _ _ E2). by rewrite Hbody, resume_provisional. }
  cbn match. apply (calm_bind_at _ _ _ _ _ _ _ _ _ _ _ E3), (calm_bind_at _ _ _ _ _ _ _ _ _ _ _ E4),
    (calm_bind_at _ _ _ _ _ _ _ _ _ _ _ E5). exact Hrun.
Qed.

(** With the reference of another bank it is refused, and changes nothing. *)
Lemma resume_blocked limit id w co cotx sh shtx t :
  calmly w co cotx sh shtx t -> id <> "" -> reserved limit id co -> blocked id sh -> t < limit ->
  exists w', ProvisionBankWorkflow hmac fp shardID p key body reference name rq w = (inl (ErrDb unique_violation), w') /\
    w_control w' = co /\ w_shard w' = sh.
Proof.
  intros Hw Hid ((c & Hc & Hfp & Hexp & Hbody) & Hroute) Hblocked Ht.
  enough (calm_run (ProvisionBankWorkflow hmac fp shardID p key body reference name rq) w (inl (ErrDb unique_violation)) co None sh None t)
    as (w' & E & [_ Hc' _ Hs' _ _]) by eauto.
  unfold ProvisionBankWorkflow. cbv zeta.
  destruct (calm_control_transaction _ _ _ _ _ _ Hw) as (w1 & E1 & Hw1).
  destruct (calm_known_command hmac fp scope key body _ _ _ _ _ _ _ Hw1 Hc ltac:(lia) Hfp) as (w2 & E2 & Hw2).
  apply (calm_bind_at _ _ _ _ _ _ _ _ _ _ _ E1). eapply calm_control_defer.
  eapply (calm_bind_at _ _ _ (inr id) w2).
  { unfold reserve_bank. rewrite (bind_eq _ _ _ _ _ E2). by rewrite Hbody, resume_provisional. }
  cbn match. eapply calm_bind; [by eapply calm_control_commit|]. intros w3 Hw3.
  eapply calm_throw_run. unfold provision_entity. eapply calm_bind; [by eapply calm_beginTenant|]. intros w4 Hw4.
  destruct (calm_shard_fails _ _ _ (upsert_entity (upsert_input id)) _ _ _ _ Hw4 (upsert_blocked _ _ _ Hblocked)) as (w5 & E5 & Hw5).
  eapply calm_bind; [apply calm_try; unfold ProvisionEntity; eapply calm_throw_run; by exists w5|].
  intros w6 [He Hco Hcx Hsh Hsx Htm]. exists (w6 <| w_shard_tx := None |>). by split.
Qed.

(** From a finished record the repetition is answered. *)
Lemma resume_settled limit id w co cotx sh shtx t :
  calmly w co cotx sh shtx t -> id <> "" -> settled limit id co -> provisioned id sh -> t < limit ->
  exists raw w', ProvisionBankWorkflow hmac fp shardID p key body reference name rq w = (inr (201, raw), w') /\
    active_route shardID id (w_control w') /\ provisioned id (w_shard w').
Proof.
  intros Hw Hid [(e & He & c & Hc & Hfp & Hexp & Hbody) Hact] Hprov Ht.
  destruct (calm_control_transaction _ _ _ _ _ _ Hw) as (w1 & E1 & Hw1).
  destruct (calm_known_command hmac fp scope key body _ _ _ _ _ _ _ Hw1 Hc ltac:(lia) Hfp) as (w2 & E2 & Hw2).
  exists (jsonb (bank_entity_json e)), (control_rollback w2).2.
  destruct Hw2 as [_ Hco _ Hsh _ _]. split.
  - unfold ProvisionBankWorkflow. cbv zeta. rewrite (bind_eq _ _ _ _ _ E1). unfold with_defer.
    rewrite (bind_eq _ _ _ (inl (201, jsonb (bank_entity_json e))) w2); [done|].
    unfold reserve_bank. rewrite (bind_eq _ _ _ _ _ E2), Hbody, resume_final by congruence. done.
  - cbn. by rewrite Hco, Hsh.
Qed.
(** ** What a failed attempt leaves *)

Ltac leaf := auto 6 with frames.

(** The reservation of a new request. *)
Lemma reserve_new w co plan w' :
  reserve_bank hmac fp shardID scope key body w = (inr plan, w') -> w_control_tx w = Some co ->
  commands co !! (scope, key) = None ->
  exists id co', plan = inr id /\ id <> "" /\ w_control_tx w' = Some co' /\ routes co !! id = None /\
    reserved (w_clock w + bank_replayLifetime) id co'.
Proof.
  intros H Htx Hnew. unfold reserve_bank in H. apply bind_inr in H as (rep & w1 & H1 & H).
  destruct (claim_new_command _ _ _ _ _ _ _ _ _ H1 Htx Hnew) as [-> Htx1].
  apply bind_inr in H as (id & w2 & H2 & H). apply bind_inr in H as ([] & w3 & H3 & H).
  apply bind_inr in H as ([] & w4 & H4 & H). apply ret_inr in H as [<- <-].
  unfold draw_bank_uuid in H2. apply bind_inr in H2 as (bs & w5 & H5 & H2). apply ret_inr in H2 as [<- <-].
  assert (Htx5 : w_control_tx w5 = w_control_tx w1) by (unfold rand16 in H5; case_match; by simplify_eq/=).
  rewrite Htx1 in Htx5. apply (cexec_tx _ _ _ _ _ H3) in Htx5 as (env & db3 & Hf3 & Htx3 & _).
  unfold insert_route in Hf3. cbn in Hf3. destruct (insert_pk _ _ (routes co)) eqn:Ei; [done|]. injection Hf3 as <-.
  apply insert_pk_inr in Ei as [Hfree ->].
  apply (cexec_tx _ _ _ _ _ H4) in Htx3 as (env4 & db4 & Hf4 & Htx4 & _).
  unfold finish_command in Hf4. cbn in Hf4. rewrite lookup_insert_eq in Hf4. injection Hf4 as <-.
  eexists (bank_newUUID bs), _. split; [done|]. split; [apply bank_newUUID_nonempty|]. split; [exact Htx4|]. split; [done|].
  split.
  - eexists. cbn. rewrite lookup_insert_eq. split; [done|]. split; [done|]. split; [cbn; lia|done].
  - eexists. cbn. rewrite lookup_insert_eq. by split.
Qed.

(** The third transaction changes nothing, or settles. *)
Lemma activate_settles limit id e raw w r w' :
  activate_bank shardID scope key id raw w = (r, w') -> raw = bank_entity_json e -> Entity_ID e = id ->
  reserved limit id (w_control w) -> reserved limit id (w_control w') \/ settled limit id (w_control w').
Proof.
  intros H Hraw Hid Hres. assert (Hsame : forall w1, ccommitted w w1 -> reserved limit id (w_control w1)).
  { intros w1 Hc. red in Hc. by rewrite Hc. }
  unfold activate_bank in H. apply bind_run in H as [(er & -> & H)|([] & w1 & H1 & H)].
  { left. apply Hsame. revert H. apply (frames_wrap ccommitted). leaf. }
  apply begin_control in H1 as (Htx1 & Hc1 & _).
  unfold with_defer in H. match type of H with context [let (_, _) := ?b in _] => destruct b as [r0 w9] eqn:E end.
  injection H as _ <-. change (reserved limit id (w_control w9) \/ settled limit id (w_control w9)).
  apply bind_run in E as [(er & -> & E)|([] & w2 & H2 & E)].
  { left. apply Hsame. etrans; [exact Hc1|]. by apply (ccommitted_control _ _ _ _ E). }
  destruct Hres as [(c & Hcm & Hfp & Hexp & Hbody) (ro & Hro & Hsh & _)].
  apply (cexec_tx _ _ _ _ _ H2) in Htx1 as (env & db2 & Hf2 & Htx2 & Hc2).
  unfold update_route in Hf2. rewrite Hro, Hsh, String.eqb_refl in Hf2. injection Hf2 as <-.
  apply bind_run in E as [(er & -> & E)|([] & w3 & H3 & E)].
  { left. apply Hsame. etrans; [exact Hc1|]. etrans; [exact Hc2|]. by apply (ccommitted_control _ _ _ _ E). }
  apply (cexec_tx _ _ _ _ _ H3) in Htx2 as (env3 & db3 & Hf3 & Htx3 & Hc3).
  unfold finish_command in Hf3. cbn in Hf3. rewrite Hcm in Hf3. injection Hf3 as <-.
  assert (Hend : w_control w9 = w_control w3 \/ w_control_tx w3 = Some (w_control w9)).
  { apply bind_run in E as [(er & -> & E)|([] & w4 & H4 & E)]; [by apply ccommit_run in E|].
    injection E as _ <-. by apply ccommit_run in H4. }
  destruct Hend as [Hend|Hend].
  - left. apply Hsame. red. congruence.
  - right. rewrite Htx3 in Hend. injection Hend as <-. split.
    + exists e. split; [done|]. rewrite <- Hraw. eexists. cbn. rewrite lookup_insert_eq. by repeat split.
    + eexists. cbn. rewrite lookup_insert_eq. by repeat split.
Qed.

(** The second transaction keeps what the shard says of the bank, and
    provisions when it succeeds. *)
Definition keeps (P : shard_db -> Prop) : relation shard_db := fun sh sh' => P sh -> P sh'.
#[export] Instance keeps_preorder P : PreOrder (keeps P).
Proof. split; [by intros sh H|]. intros a b c H1 H2 H. auto. Qed.
Lemma keeps_room_upsert id : mono (keeps (room id)) (upsert_entity (upsert_input id)).
Proof.
  intros env db a db' H Hroom. destruct (upsert_room env id db Hroom) as (sh' & Hup & Hp).
  rewrite Hup in H. injection H as _ <-. by apply provisioned_room.
Qed.
Lemma keeps_blocked_upsert id : mono (keeps (blocked id)) (upsert_entity (upsert_input id)).
Proof. intros env db a db' H Hb. by rewrite (upsert_blocked env id db Hb) in H. Qed.
Lemma room_entities id a b : entities a = entities b -> room id a -> room id b.
Proof. unfold room, taken. by intros ->. Qed.
Lemma blocked_entities id a b : entities a = entities b -> blocked id a -> blocked id b.
Proof. unfold blocked, taken. by intros ->. Qed.

Section Keeping.
Context (id : string) (P : shard_db -> Prop).
Context (Hupsert : mono (keeps P) (upsert_entity (upsert_input id))) (Hentities : forall a b, entities a = entities b -> P a -> P b).
Lemma keeps_audit b x t r o q who d : mono (keeps P) (insert_audit b x t r o q who d).
Proof. intros env db a db' [= _ <-]. red. by apply Hentities. Qed.
Lemma keeps_query {A} (g : sql_env -> shard_db -> A) : mono (keeps P) (query g).
Proof. intros env db a db' [= _ <-]. done. Qed.
Hint Resolve Hupsert keeps_audit keeps_query : frames.
Lemma provision_keeps : frames (shard_moves (keeps P)) (provision_entity p id reference name rq).
Proof. unfold provision_entity, ProvisionEntity, beginTenant. frame_with ltac:(leaf). Qed.
Lemma reserve_keeps : frames (shard_moves (keeps P)) (reserve_bank hmac fp shardID scope key body).
Proof.
  unfold reserve_bank, bank_centralIdempotency, CentralClaimIdempotency, CreateBankRoute, CentralFinishIdempotency, draw_bank_uuid.
  frame_with ltac:(leaf).
Qed.
Lemma commit_keeps : frames (shard_moves (keeps P)) control_commit.
Proof. leaf. Qed.
End Keeping.

Lemma provision_control id : frames ccommitted (provision_entity p id reference name rq).
Proof. unfold provision_entity, ProvisionEntity, beginTenant. frame_with ltac:(leaf). Qed.
Lemma entity_control id : frames ccommitted (bank_entity id).
Proof. unfold bank_entity, reader_Entity, read_row, beginTenant. frame_with ltac:(leaf). Qed.
Lemma eq_query {A} (g : sql_env -> shard_db -> A) : mono eq (query g).
Proof. by intros env db a db' [= _ <-]. Qed.
Lemma entity_shard id : frames (shard_moves eq) (bank_entity id).
Proof.
  unfold bank_entity, reader_Entity, read_row, beginTenant.
  frame_with ltac:(first [apply moves_exec; [apply _|apply eq_query] | leaf]).
Qed.
Lemma provision_done id w w' :
  provision_entity p id reference name rq w = (inr tt, w') ->
  ~ blocked id (w_shard w) /\ (room id (w_shard w) -> provisioned id (w_shard w') /\ w_shard_tx w' = None).
Proof.
  intros H. unfold provision_entity in H. apply bind_inr in H as ([] & w1 & H1 & H).
  apply beginTenant_inr in H1 as (Htx1 & Hs1 & _). apply bind_inr in H as (r & w2 & H2 & H). rewrite try_inr in H2.
  destruct r as [e|[]]; [by apply bind_inr in H as ([] & ? & _ & ?%throw_inr)|].
  unfold ProvisionEntity in H2. apply bind_inr in H2 as ([] & w3 & H3 & H2).
  apply (exec_tx _ _ _ _ _ Htx1) in H3 as (env & db3 & Hf3 & Htx3 & _). fold (upsert_input id) in Hf3.
  split; [intros Hb; by rewrite (upsert_blocked env id _ Hb) in Hf3|]. intros Hroom.
  destruct (upsert_room env id (w_shard w) Hroom) as (sh' & Hup & Hp). rewrite Hup in Hf3. injection Hf3 as <-.
  apply (exec_tx _ _ _ _ _ Htx3) in H2 as (env2 & db2 & Hf2 & Htx2 & _). injection Hf2 as <-.
  apply commit_inr in H as (db & Hdb & -> & Hnone & _). rewrite Htx2 in Hdb. injection Hdb as <-. done.
Qed.
Lemma transaction_control : frames ccommitted control_transaction.
Proof. unfold control_transaction. frame_with ltac:(leaf). Qed.

(** What a request may leave for a bank whose reference is free, and for one
    whose reference is taken. *)
Definition resumable (limit : Z) (id : string) (w : world) : Prop :=
  reserved limit id (w_control w) /\ room id (w_shard w) \/ settled limit id (w_control w) /\ provisioned id (w_shard w).
Definition stuck (limit : Z) (id : string) (w : world) : Prop := reserved limit id (w_control w) /\ blocked id (w_shard w).

Definition left_over (limit : Z) (w w' : world) : Prop :=
  w_control w' = w_control w \/
  exists id, id <> "" /\ if taken (w_shard w) then stuck limit id w' else resumable limit id w'.

(** After the commit of the reservation. *)
Lemma attempt_after limit id w r w' :
  (provision_entity p id reference name rq ;; raw ← bank_entity id; activate_bank shardID scope key id raw) w = (r, w') ->
  (forall v, w_shard_tx w = Some v -> keeps (room id) (w_shard w) v) -> reserved limit id (w_control w) ->
  room id (w_shard w) -> resumable limit id w'.
Proof.
  intros H Hnone Hres Hroom. unfold resumable.
  apply bind_run in H as [(e & -> & H)|([] & w1 & H1 & H)].
  { left. pose proof (provision_control _ _ _ _ H) as Hc. red in Hc. rewrite Hc. split; [done|].
    destruct (provision_keeps id _ (keeps_room_upsert id) (room_entities id) _ _ _ H Hnone) as [Hk _]. exact (Hk Hroom). }
  pose proof (provision_control _ _ _ _ H1) as Hc1. red in Hc1.
  apply provision_done in H1 as [_ [Hp Htx1]%(fun f => f Hroom)]. rewrite <- Hc1 in Hres.
  apply bind_run in H as [(e & -> & H)|(raw & w2 & H2 & H)].
  { left. pose proof (entity_control _ _ _ _ H) as Hc. red in Hc. rewrite Hc. split; [done|].
    destruct (entity_shard _ _ _ _ H) as [Hk _]; [by rewrite Htx1|]. rewrite <- Hk. by apply provisioned_room. }
  pose proof (entity_control _ _ _ _ H2) as Hc2. red in Hc2. rewrite <- Hc2 in Hres.
  apply bank_entity_inr in H2 as (e & He & Hraw & Hs2 & _). rewrite <- Hs2 in Hp.
  pose proof (committed_activate _ _ _ _ _ _ _ _ H) as Hs3. red in Hs3. rewrite Hs3.
  destruct (activate_settles limit id _ _ _ _ _ H Hraw eq_refl Hres) as [?|?]; [left|by right].
  split; [done|]. by apply provisioned_room.
Qed.
Lemma attempt_stuck limit id w r w' :
  (provision_entity p id reference name rq ;; raw ← bank_entity id; activate_bank shardID scope key id raw) w = (r, w') ->
  (forall v, w_shard_tx w = Some v -> keeps (blocked id) (w_shard w) v) -> reserved limit id (w_control w) ->
  blocked id (w_shard w) -> stuck limit id w'.
Proof.
  intros H Hnone Hres Hb. apply bind_run in H as [(e & -> & H)|([] & w1 & H1 & H)].
  - pose proof (provision_control _ _ _ _ H) as Hc. red in Hc. unfold stuck. rewrite Hc. split; [done|].
    destruct (provision_keeps id _ (keeps_blocked_upsert id) (blocked_entities id) _ _ _ H Hnone) as [Hk _]. exact (Hk Hb).
  - by apply provision_done in H1 as [? _].
Qed.

(** The commit of the reservation: undone, lost after it took effect, or done. *)
Lemma commit_then {A} P (k : M A) w co r w' :
  (control_commit ;; k) w = (r, w') -> w_control_tx w = Some co ->
  (forall v, w_shard_tx w = Some v -> keeps P (w_shard w) v) -> P (w_shard w) ->
  w_control w' = w_control w \/ (w_control w' = co /\ P (w_shard w')) \/
  exists w1, k w1 = (r, w') /\ w_control w1 = co /\ P (w_shard w1) /\ forall v, w_shard_tx w1 = Some v -> keeps P (w_shard w1) v.
Proof.
  intros E Htx Hopen HP. apply bind_run in E as [(e & -> & E)|([] & w1 & H1 & E)].
  - pose proof (commit_keeps P _ _ _ E Hopen) as [Hk _]. apply ccommit_run in E as [E|E]; [by left|]. right. left.
    rewrite Htx in E. injection E as ->. split; [done|by apply Hk].
  - pose proof (commit_keeps P _ _ _ H1 Hopen) as [Hk Hopen1]. apply ccommit_inr in H1 as (H1 & _ & _).
    rewrite Htx in H1. injection H1 as ->. right. right. exists w1. auto.
Qed.
Lemma recorded_later limit limit' response co : limit' <= limit -> recorded limit response co -> recorded limit' response co.
Proof. intros Hl (c & ? & ? & ? & ?). exists c. repeat split; try done. lia. Qed.

Lemma attempt_leaves w r w' :
  ProvisionBankWorkflow hmac fp shardID p key body reference name rq w = (r, w') ->
  w_shard_tx w = None -> commands (w_control w) !! (scope, key) = None ->
  (forall id, is_Some (entities (w_shard w) !! id) -> is_Some (routes (w_control w) !! id)) ->
  left_over (w_clock w + bank_replayLifetime) w w'.
Proof.
  intros H Hnone Hnew Hrouted. set (limit := w_clock w + bank_replayLifetime).
  unfold ProvisionBankWorkflow in H. cbv zeta in H.
  apply bind_run in H as [(e & -> & H)|([] & w1 & H1 & H)].
  { left. by apply transaction_control in H. }
  apply begin_control in H1 as (Htx1 & Hc1 & Ht1 & Hs1 & Hn1). rewrite Hnone in Hn1.
  unfold with_defer in H. match type of H with context [let (_, _) := ?b in _] => destruct b as [r0 w9] eqn:E end.
  injection H as _ <-. change (left_over limit w w9).
  assert (Hq : frames ccommitted (reserve_bank hmac fp shardID scope key body)).
  { unfold reserve_bank, bank_centralIdempotency, CentralClaimIdempotency, CreateBankRoute, CentralFinishIdempotency, draw_bank_uuid.
    frame_with ltac:(leaf). }
  apply bind_run in E as [(e & -> & E)|(plan & w2 & H2 & E)].
  { left. apply Hq in E. red in E. congruence. }
  pose proof (Hq _ _ _ H2) as Hc2. red in Hc2. rewrite <- Hc1 in Hnew. rewrite <- Hc1 in Htx1.
  destruct (reserve_new _ _ _ _ H2 Htx1 Hnew) as (id & co2 & -> & Hid & Htx2 & Hroute & Hres).
  assert (Hres' : reserved limit id co2).
  { destruct Hres as [Hrec ?]. split; [|done]. eapply recorded_later; [|exact Hrec]. unfold limit. lia. }
  assert (Hfresh : entities (w_shard w) !! id = None).
  { apply eq_None_not_Some. intros [rt Hrt]%Hrouted. congruence. }
  assert (Htx1' : forall P v, w_shard_tx w1 = Some v -> keeps P (w_shard w1) v) by (by rewrite Hn1).
  pose proof (fresh_room_blocked id _ Hfresh) as Hstate. rewrite <- Hs1 in Hstate. unfold left_over. rewrite <- Hs1.
  clear Hres.
  destruct (taken (w_shard w1)).
  - destruct (reserve_keeps (blocked id) _ _ _ H2 (Htx1' _)) as [Hk2 Htx3]. specialize (Hk2 Hstate).
    destruct (commit_then _ _ _ _ _ _ E Htx2 Htx3 Hk2) as [Hc|[[Hc Hk]|(w3 & E3 & Hc & Hk3 & Htx4)]]; [left; congruence|right; exists id; rewrite <- Hc in Hres'..].
    + split; [done|]. by split.
    + split; [done|]. by eapply attempt_stuck.
  - destruct (reserve_keeps (room id) _ _ _ H2 (Htx1' _)) as [Hk2 Htx3]. specialize (Hk2 Hstate).
    destruct (commit_then _ _ _ _ _ _ E Htx2 Htx3 Hk2) as [Hc|[[Hc Hk]|(w3 & E3 & Hc & Hk3 & Htx4)]]; [left; congruence|right; exists id; rewrite <- Hc in Hres'..].
    + split; [done|]. by left.
    + split; [done|]. by eapply attempt_after.
Qed.

(** C9: a new provisioning, on a shard whose banks all have a route, that failed
    wherever and for whatever reason (a statement, a commit, a lost reply)
    either reserved nothing, or reserved an id for the same request repeated in
    a calm environment within seven days.  If no bank of the shard had the
    reference asked for, the repetition returns 201, the route of the bank is
    active and its entity is in the shard with that reference and the name asked
    for.  If another bank had it, the repetition fails with the unique violation
    and changes nothing: the reserved route stays, provisioning, without an
    entity. *)
Theorem provision_bank_resumes w e w1 w2
    (Hrun : ProvisionBankWorkflow hmac fp shardID p key body reference name rq w = (inl e, w1))
    (Hnone : w_shard_tx w = None) (Hnew : commands (w_control w) !! (scope, key) = None)
    (Hrouted : forall id, is_Some (entities (w_shard w) !! id) -> is_Some (routes (w_control w) !! id))
    (Hcalm : w_events w2 = []) (Hcontrol : w_control w2 = w_control w1) (Hshard : w_shard w2 = w_shard w1)
    (Ht : w_clock w2 < w_clock w + bank_replayLifetime) :
  w_control w1 = w_control w \/
  exists id r w3, ProvisionBankWorkflow hmac fp shardID p key body reference name rq w2 = (r, w3) /\
    if taken (w_shard w) then
      r = inl (ErrDb unique_violation) /\ w_control w3 = w_control w1 /\ w_shard w3 = w_shard w1 /\
      owned_route id (w_control w3) /\ entities (w_shard w3) !! id = None
    else (exists raw, r = inr (201, raw)) /\ active_route shardID id (w_control w3) /\ provisioned id (w_shard w3).
Proof.
  destruct (attempt_leaves _ _ _ Hrun Hnone Hnew Hrouted) as [?|(id & Hid & Hleft)]; [by left|right].
  assert (Hw : calmly w2 (w_control w2) (w_control_tx w2) (w_shard w2) (w_shard_tx w2) (w_clock w2)) by done.
  exists id. unfold stuck, resumable in Hleft. rewrite <- Hcontrol, <- Hshard in *. destruct (taken (w_shard w)).
  - destruct Hleft as [Hres Hb]. destruct (resume_blocked _ _ _ _ _ _ _ _ Hw Hid Hres Hb Ht) as (w3 & E & Hc & Hs).
    exists (inl (ErrDb unique_violation)), w3. split; [done|]. rewrite Hc, Hs. repeat split; [apply Hres|apply Hb].
  - destruct Hleft as [[Hres Hroom]|[Hset Hprov]];
      [edestruct resume_reserved as (raw & w3 & E & ? & ?)|edestruct resume_settled as (raw & w3 & E & ? & ?)]; eauto 10.
Qed.
End Resume.

(** The commit of the reservation is lost after it took effect; the request is
    repeated on the databases it left. *)
Definition quietly (w : world) : world := w <| w_events := [] |>.
Lemma quietly_same w : w_events (quietly w) = [] /\ w_control (quietly w) = w_control w /\ w_shard (quietly w) = w_shard w.
Proof. by repeat split. Qed.
Lemma toy_entities i x : entities (w_shard bank_world) !! i = Some x -> i = bank1 /\ en_bank_reference x = "REF".
Proof.
  change (entities (w_shard bank_world)) with ({[ bank1 := EntityRow "REF" "Bank" "active" 1 1 "user" "user" ]} : gmap string entity_row).
  intros [<- <-]%lookup_singleton_Some. by split.
Qed.
Lemma toy_routed i : is_Some (entities (w_shard bank_world) !! i) -> is_Some (routes (w_control bank_world) !! i).
Proof. intros [x [-> _]%toy_entities]. by eexists. Qed.

Lemma provision_bank_resumes_witness :
  w_control (toy_provision bank_world).2 = w_control bank_world \/
  exists id r w3, toy_provision (quietly (toy_provision bank_world).2) = (r, w3) /\
    (exists raw, r = inr (201, raw)) /\ active_route "shard-1" id (w_control w3) /\ provisioned "REF-2" "New" id (w_shard w3).
Proof.
  destruct (toy_provision bank_world).1 as [e|a] eqn:E; [|exfalso; by vm_compute in E].
  pose proof (run_result _ _ E) as Hrun.
  assert (Ht : w_clock (quietly (toy_provision bank_world).2) < w_clock bank_world + bank_replayLifetime) by (by vm_compute).
  exact (provision_bank_resumes toy_hmac toy_fp "shard-1" toy_principal "key-1" "body" "REF-2" "New" "request" bank_world e
    _ _ Hrun eq_refl ltac:(vm_compute; reflexivity) toy_routed (proj1 (quietly_same _)) (proj1 (proj2 (quietly_same _)))
    (proj2 (proj2 (quietly_same _))) Ht).
Defined.

(** A request for the reference of another bank reserves a route for good: each
    repetition fails as the request did, and the route stays provisioning. *)
Abbreviation taken_provision := (ProvisionBankWorkflow toy_hmac toy_fp "shard-1" toy_principal "key-1" "body" "REF" "New" "request").
Definition stuck_routes (w : world) : list string :=
  List.map fst (List.filter (fun q => ro_placement_status q.2 == "provisioning") (map_to_list (routes (w_control w)))).
Example taken_reference_stuck :
  let w1 := (taken_provision (quietly bank_world)).2 in
  (taken_provision (quietly bank_world)).1 = inl (ErrDb unique_violation) /\ length (stuck_routes w1) = 1%nat /\
  (taken_provision w1).1 = inl (ErrDb unique_violation) /\ stuck_routes (taken_provision w1).2 = stuck_routes w1.
Proof. vm_compute. auto. Qed.
