(* ===== verification/CatalogSafety.v ===== *)
(** * CatalogSafety: what a catalog command leaves

    Each of the six workflows makes exactly its one change of one row of its
    bank, one audit event and the record that answers its repetitions, or
    nothing. *)

From S2P Require Import Prelude Json Domain Stores World ShardTx Guards Idempotency AuthTypes CatalogStore CatalogService Scenario.
Open Scope string_scope.
Open Scope list_scope.
Open Scope Z_scope.

(** ** The requests *)

Inductive catalog_request :=
  | NewProduct (code name status : string) (configuration : json)
  | NewClient (external : string) (display : option string)
  | NewAccount (client external : string)
  | SetProduct (id : string) (name status : option string) (configuration : option json)
  | SetClient (id : string) (display : option string)
  | SetAccount (id client : string).

Definition request_kind (c : catalog_request) : string :=
  match c with
  | NewProduct _ _ _ _ | SetProduct _ _ _ _ => "card-products"
  | NewClient _ _ | SetClient _ _ => "clients"
  | NewAccount _ _ | SetAccount _ _ => "account-references"
  end.
(** The row a change names; a creation names none. *)
Definition request_id (c : catalog_request) : option string :=
  match c with
  | SetProduct id _ _ _ | SetClient id _ | SetAccount id _ => Some id
  | _ => None
  end.
Definition request_verb (c : catalog_request) : string := match request_id c with None => ".create" | Some _ => ".patch" end.
Definition request_status (c : catalog_request) : Z := match request_id c with None => 201 | Some _ => 200 end.
Definition request_scope (p : Principal) (c : catalog_request) : string :=
  request_kind c +:+ match request_id c with
                     | None => ".create.actor." +:+ Principal_UserID p
                     | Some id => ".patch." +:+ id +:+ ".actor." +:+ Principal_UserID p
                     end.
(** The body that is fingerprinted. *)
Definition request_body (c : catalog_request) : string := json_encode
  match c with
  | NewProduct code name status configuration =>
      JObj [("product_code", JStr code); ("name", JStr name); ("status", JStr status); ("configuration", configuration)]
  | NewClient external display => JObj [("external_client_ref", JStr external); ("display_name", JOptStr display)]
  | NewAccount client external => JObj [("client_id", JStr client); ("external_account_ref", JStr external)]
  | SetProduct _ name status configuration =>
      JObj [("name", JOptStr name); ("status", JOptStr status); ("configuration", default JNull configuration)]
  | SetClient _ display => JObj [("display_name", JOptStr display)]
  | SetAccount _ client => JObj [("client_id", JStr client)]
  end.

Definition run_catalog hmac fp (p : Principal) (bank key rq : string) (c : catalog_request) : M json :=
  match c with
  | NewProduct code name status configuration => CreateCardProductWorkflow hmac fp p bank key code name status configuration rq
  | NewClient external display => CreateClientWorkflow hmac fp p bank key external display rq
  | NewAccount client external => CreateAccountReferenceWorkflow hmac fp p bank key client external rq
  | SetProduct id name status configuration => PatchCardProductWorkflow hmac fp p bank id key name status configuration rq
  | SetClient id display => PatchClientWorkflow hmac fp p bank id key display rq
  | SetAccount id client => PatchAccountReferenceWorkflow hmac fp p bank id key client rq
  end.

(** ** Their effects *)

Section Effects.
Context (bank user : string).

(** The change of the tables, by row id, instant and response. *)
Definition catalog_effect (c : catalog_request) (id : string) (raw : json) (db db' : shard_db) : Prop :=
  match c with
  | NewProduct code name status configuration =>
      exists t, let p := ProductRow code name status (jsonb configuration) 1 t t user user in
      products db !! (bank, id) = None /\ (forall i q, products db !! (bank, i) = Some q -> pr_product_code q <> code) /\
      db' = put_products (<[(bank, id) := p]> (products db)) db /\ raw = CardProduct_json (scanCardProduct id p)
  | NewClient external display =>
      exists t, let r := ClientRow external display t t user user in
      clients db !! (bank, id) = None /\ (forall i q, clients db !! (bank, i) = Some q -> cl_external_client_ref q <> external) /\
      db' = put_clients (<[(bank, id) := r]> (clients db)) db /\ raw = Client_json (scanClient id r)
  | NewAccount client external =>
      exists t, let r := AccountRow client external t t user user in
      accounts db !! (bank, id) = None /\ is_Some (clients db !! (bank, client)) /\
      (forall i q, accounts db !! (bank, i) = Some q -> ac_external_account_ref q <> external) /\
      db' = put_accounts (<[(bank, id) := r]> (accounts db)) db /\ raw = AccountReference_json (scanAccountReference id r)
  | SetProduct i name status configuration =>
      exists p t, products db !! (bank, id) = Some p /\ id = i /\
      let conf := match configuration with None => pr_configuration p | Some c => jsonb c end in
      let p' := ProductRow (pr_product_code p) (default (pr_name p) name) (default (pr_status p) status) conf
                  (if decide (conf = pr_configuration p) then pr_configuration_version p else pr_configuration_version p + 1)
                  (pr_created_at p) t (pr_created_by p) user in
      db' = put_products (<[(bank, id) := p']> (products db)) db /\ raw = CardProduct_json (scanCardProduct id p')
  | SetClient i display =>
      exists r t, clients db !! (bank, id) = Some r /\ id = i /\
      let r' := ClientRow (cl_external_client_ref r) display (cl_created_at r) t (cl_created_by r) user in
      db' = put_clients (<[(bank, id) := r']> (clients db)) db /\ raw = Client_json (scanClient id r')
  | SetAccount i client =>
      exists r t, accounts db !! (bank, id) = Some r /\ id = i /\ is_Some (clients db !! (bank, client)) /\
      let r' := AccountRow client (ac_external_account_ref r) (ac_created_at r) t (ac_created_by r) user in
      db' = put_accounts (<[(bank, id) := r']> (accounts db)) db /\ raw = AccountReference_json (scanAccountReference id r')
  end.
End Effects.

(** ** The statements *)

Lemma insert_reference_inr {A B : Type} (bank : string) (get : shard_db -> gmap key A) (put : gmap key A -> shard_db -> shard_db) (taken : A -> bool)
    (mk : sql_env -> A) (scan : string -> A -> B) env db b db' :
  insert_reference bank get put taken mk scan env db = inr (b, db') ->
  exists id, get db !! (bank, id) = None /\ (forall i q, get db !! (bank, i) = Some q -> taken q = false) /\
    db' = put (<[(bank, id) := mk env]> (get db)) db /\ b = scan id (mk env).
Proof.
  unfold insert_reference. destruct (existsb _ _) eqn:Et; [done|]. destruct (insert_pk _ _ _) as [|t] eqn:Ei; [done|].
  intros [= <- <-]. apply insert_pk_inr in Ei as [Hn ->]. eexists. split; [exact Hn|]. split; [|done].
  intros i q Hq. apply bank_rows_spec in Hq. apply list_elem_of_In in Hq. destruct (taken q) eqn:E; [|done].
  assert (existsb (fun p => taken p.2) (bank_rows bank (get db)) = true) by (apply existsb_exists; by exists (i, q)). congruence.
Qed.
Lemma update_reference_inr {A B : Type} (bank id : string) (get : shard_db -> gmap key A) (put : gmap key A -> shard_db -> shard_db)
    (set : sql_env -> A -> A) (scan : string -> A -> B) env db b db' :
  update_reference bank id get put set scan env db = inr (Some b, db') ->
  exists r, get db !! (bank, id) = Some r /\ db' = put (<[(bank, id) := set env r]> (get db)) db /\ b = scan id (set env r).
Proof. unfold update_reference. destruct (get db !! (bank, id)) as [r|]; [|done]. intros [= <- <-]. eauto. Qed.
Lemma updated_tx {A} (f : sql shard_db (option A)) w db a w' :
  w_shard_tx w = Some db -> updated (shard_exec f) w = (inr (Some a), w') ->
  exists env db', f env db = inr (Some a, db') /\ w_shard_tx w' = Some db'.
Proof.
  intros Hdb H. unfold updated in H. apply bind_inr in H as (r & w1 & H1 & H). rewrite try_inr in H1.
  destruct r as [e|x]; [destruct (errors_is _ _); [by apply ret_inr in H as [? _]|by apply throw_inr in H]|].
  apply ret_inr in H as [[= ->] <-]. rewrite row_inr in H1. apply (exec_tx _ _ _ _ _ Hdb) in H1 as (env & db' & Hf & Htx & _). eauto.
Qed.

(** What a body does to the working copy when it succeeds. *)
Definition writes {A} (m : M A) (E : A -> shard_db -> shard_db -> Prop) : Prop := forall w db a w',
  w_shard_tx w = Some db -> m w = (inr a, w') -> exists db', w_shard_tx w' = Some db' /\ E a db db'.

Section Bodies.
Context (p : Principal) (bank : string).
Abbreviation effect c := (fun ri => catalog_effect bank (Principal_UserID p) c ri.2 ri.1).
Ltac created :=
  intros w db [raw id] w' Hdb H; apply bind_inr in H as (x & w1 & H1 & H); apply ret_inr in H as [[= <- <-] <-];
  apply (exec_tx _ _ _ _ _ Hdb) in H1 as (env & db' & Hf & Htx & _).
Ltac changed :=
  intros w db raw w' Hdb H; apply bind_inr in H as (x & w1 & H1 & H); apply ret_inr in H as [Hx <-];
  destruct x as [x|]; [|done]; injection Hx as <-; apply (updated_tx _ _ _ _ _ Hdb) in H1 as (env & db' & Hf & Htx).

Lemma writes_NewProduct code name status conf :
  writes (product ← CreateCardProduct bank (MkCardProductCreate code name status conf (Principal_UserID p));
          mret (CardProduct_json product, CardProduct_ID product)) (effect (NewProduct code name status conf)).
Proof.
  created. apply insert_reference_inr in Hf as (id & Hn & Ht & -> & ->). eexists. split; [exact Htx|].
  exists (now env). split; [done|]. split; [|done]. intros i q Hq Hc. specialize (Ht i q Hq). apply String.eqb_neq in Ht. done.
Qed.
Lemma writes_NewClient external display :
  writes (client ← CreateClient bank (MkClientCreate external display (Principal_UserID p));
          mret (Client_json client, Client_ID client)) (effect (NewClient external display)).
Proof.
  created. apply insert_reference_inr in Hf as (id & Hn & Ht & -> & ->). eexists. split; [exact Htx|].
  exists (now env). split; [done|]. split; [|done]. intros i q Hq Hc. specialize (Ht i q Hq). apply String.eqb_neq in Ht. done.
Qed.
Lemma writes_NewAccount client external :
  writes (account ← CreateAccountReference bank (MkAccountReferenceCreate client external (Principal_UserID p));
          mret (AccountReference_json account, AccountReference_ID account)) (effect (NewAccount client external)).
Proof.
  created. unfold has_client in Hf. cbn in Hf. destruct (clients db !! (bank, client)) as [cl|] eqn:Ec; [|done].
  apply insert_reference_inr in Hf as (id & Hn & Ht & -> & ->). eexists. split; [exact Htx|].
  exists (now env). split; [done|]. split; [by rewrite Ec|]. split; [|done].
  intros i q Hq Hc. specialize (Ht i q Hq). apply String.eqb_neq in Ht. done.
Qed.

(** A change answers nothing when the row does not exist. *)
Definition rewrites (m : M (option json)) (E : json -> shard_db -> shard_db -> Prop) : Prop := forall w db a w',
  w_shard_tx w = Some db -> m w = (inr (Some a), w') -> exists db', w_shard_tx w' = Some db' /\ E a db db'.
Lemma rewrites_SetProduct id name status conf :
  rewrites (r ← UpdateCardProduct bank id (MkCardProductPatch name status conf (Principal_UserID p)); mret (CardProduct_json <$> r))
    (fun raw => catalog_effect bank (Principal_UserID p) (SetProduct id name status conf) id raw).
Proof.
  changed. apply update_reference_inr in Hf as (r & Hr & -> & ->). eexists. split; [exact Htx|].
  exists r, (clock_timestamp env). split; [done|]. split; [done|]. cbv zeta.
  assert (E : patch_product (MkCardProductPatch name status conf (Principal_UserID p)) env r =
    ProductRow (pr_product_code r) (default (pr_name r) name) (default (pr_status r) status)
      match conf with None => pr_configuration r | Some c => jsonb c end
      (if decide (match conf with None => pr_configuration r | Some c => jsonb c end = pr_configuration r)
       then pr_configuration_version r else pr_configuration_version r + 1)
      (pr_created_at r) (clock_timestamp env) (pr_created_by r) (Principal_UserID p)).
  { unfold patch_product. destruct r as [co na st cf ve ca ua cb ub], conf as [c|]; cbn -[decide jsonb]; repeat case_decide; try congruence; by rewrite ?Z.add_0_r. }
  rewrite <- E. by split.
Qed.
Lemma rewrites_SetClient id display :
  rewrites (r ← UpdateClient bank id (MkClientPatch display (Principal_UserID p)); mret (Client_json <$> r))
    (fun raw => catalog_effect bank (Principal_UserID p) (SetClient id display) id raw).
Proof.
  changed. apply update_reference_inr in Hf as (r & Hr & -> & ->). eexists. split; [exact Htx|].
  exists r, (clock_timestamp env). by repeat split.
Qed.
Lemma rewrites_SetAccount id client :
  rewrites (r ← UpdateAccountReference bank id (MkAccountReferencePatch client (Principal_UserID p)); mret (AccountReference_json <$> r))
    (fun raw => catalog_effect bank (Principal_UserID p) (SetAccount id client) id raw).
Proof.
  changed. cbn in Hf. case_bool_decide as Ha; [|done]. unfold has_client in Hf.
  destruct (clients db !! (bank, client)) as [cl|] eqn:Ec; [|done].
  apply update_reference_inr in Hf as (r & Hr & -> & ->). eexists. split; [exact Htx|].
  exists r, (clock_timestamp env). split; [done|]. split; [done|]. split; [by rewrite Ec|]. by split.
Qed.
End Bodies.

(** ** The workflows *)

Section Workflows.
Context (hmac : string -> string -> string) (fp : Fingerprinter).
Context (p : Principal) (bank key rq : string).

Lemma catalog_claim_first scope body w db r w' :
  w_shard_tx w = Some db -> idem db !! (bank, scope, key) = None -> catalog_claim hmac fp bank scope key body w = (inr r, w') ->
  r = None /\ exists rec, w_shard_tx w' = Some (db <| idem ::= <[(bank, scope, key) := rec]> |>) /\
    id_request_fingerprint rec = Fingerprint hmac fp body.
Proof.
  intros Hdb Hn H. unfold catalog_claim in H. apply bind_inr in H as (t & w1 & Ht & H). apply time_inr in Ht as [-> ->].
  apply bind_inr in H as (q & w2 & Hq & H). rewrite try_inr in Hq. destruct q as [err|x].
  { destruct (errors_is _ _); by apply throw_inr in H. }
  apply ret_inr in H as [<- <-]. apply (first_claim hmac fp) with (db := db) in Hq as (Hf & rec & Htx & Hfp & _); [|done..].
  rewrite Hf. split; [done|]. by exists rec.
Qed.

(** The audit event of a request on a row. *)
Definition catalog_audit (c : catalog_request) (id : string) (t : Z) : audit_row :=
  AuditRow bank (Some (Principal_UserID p)) (Principal_Role p)
    (if Principal_Role p == "bank_operator" then nullable (Principal_EntityID p) else None) None
    (request_kind c +:+ request_verb c) (request_kind c) id "succeeded" rq t (JObj []).

(** The end of a command: its audit event, its record and the commit. *)
Lemma catalog_finish scope body c id raw st w db rec w' :
  w_shard_tx w = Some db -> idem db !! (bank, scope, key) = Some rec -> id_request_fingerprint rec = Fingerprint hmac fp body ->
  (RecordReferenceAudit (referenceAudit p bank (request_kind c +:+ request_verb c) (request_kind c) id rq) ;;
   FinishIdempotency bank scope key st raw id (Principal_UserID p) ;; shard_commit ;; mret raw) w = (inr raw, w') ->
  exists rec' t, answers hmac fp body st raw rec' /\
    w_shard w' = (db <| audit ::= fun l => l ++ [catalog_audit c id t] |>) <| idem ::= <[(bank, scope, key) := rec']> |>.
Proof.
  intros Hdb Hrec Hfp H. apply bind_inr in H as ([] & w1 & H1 & H). unfold RecordReferenceAudit in H1.
  apply (exec_tx _ _ _ _ _ Hdb) in H1 as (env & db1 & Hf & Htx1 & _). injection Hf as <-.
  apply bind_inr in H as ([] & w2 & H2 & H). apply bind_inr in H as ([] & w3 & H3 & H). apply ret_inr in H as [_ <-].
  destruct (finished_reply hmac fp _ _ _ _ _ _ _ _ _ _ body _ Htx1 Hrec Hfp H2) as (rec' & Htx2 & Ha & _).
  apply commit_inr in H3 as (db3 & Hdb3 & -> & _). rewrite Htx2 in Hdb3. injection Hdb3 as <-.
  exists rec', (now env). split; [done|]. unfold catalog_audit. by destruct (Principal_Role p == "bank_operator").
Qed.

(** What a successful command left. *)
Definition catalog_done (c : catalog_request) (raw : json) (db db' : shard_db) : Prop :=
  exists id db1 rec t, catalog_effect bank (Principal_UserID p) c id raw db db1 /\
    answers hmac fp (request_body c) (request_status c) raw rec /\
    db' = (db1 <| audit ::= fun l => l ++ [catalog_audit c id t] |>) <| idem ::= <[(bank, request_scope p c, key) := rec]> |>.

(** The claim of the key commutes with the change. *)
Lemma effect_claimed c id raw db f db' :
  catalog_effect bank (Principal_UserID p) c id raw (db <| idem ::= f |>) db' ->
  exists db0, catalog_effect bank (Principal_UserID p) c id raw db db0 /\ db' = db0 <| idem ::= f |>.
Proof.
  destruct c; cbn.
  - intros (t & Hn & Hu & -> & ->). eexists. split; [exists t; by repeat split|done].
  - intros (t & Hn & Hu & -> & ->). eexists. split; [exists t; by repeat split|done].
  - intros (t & Hn & Hc & Hu & -> & ->). eexists. split; [exists t; by repeat split|done].
  - intros (r & t & Hr & -> & -> & ->). eexists. split; [exists r, t; by repeat split|done].
  - intros (r & t & Hr & -> & -> & ->). eexists. split; [exists r, t; by repeat split|done].
  - intros (r & t & Hr & -> & Hc & -> & ->). eexists. split; [exists r, t; by repeat split|done].
Qed.
Lemma effect_idem c id raw db db' : catalog_effect bank (Principal_UserID p) c id raw db db' -> idem db' = idem db.
Proof. destruct c; cbn; naive_solver. Qed.

Lemma finish_returns {A} (m1 m2 m3 : M unit) (x y : A) w w' : (m1 ;; m2 ;; m3 ;; mret x) w = (inr y, w') -> x = y.
Proof.
  intros H. apply bind_inr in H as ([] & w1 & _ & H). apply bind_inr in H as ([] & w2 & _ & H).
  apply bind_inr in H as ([] & w3 & _ & H). by apply ret_inr in H as [-> _].
Qed.

Lemma mutate_done c input create w raw w' :
  (writes create (fun ri => catalog_effect bank (Principal_UserID p) c ri.2 ri.1)) -> request_id c = None ->
  request_body c = json_encode input -> mutate hmac fp p bank (request_kind c) key input rq create w = (inr raw, w') ->
  idem (w_shard w) !! (bank, request_scope p c, key) = None -> catalog_done c raw (w_shard w) (w_shard w').
Proof.
  intros Hw Hid Hbody Hm Hn. unfold catalog_done, request_status. unfold request_scope in *. rewrite Hid in *. unfold mutate in Hm. cbv zeta in Hm.
  apply bind_inr in Hm as ([] & w1 & H1 & Hm). apply beginTenant_inr in H1 as (Htx & _).
  apply defer_inr in Hm as (w6 & Hm & ->). apply bind_inr in Hm as (replay & w2 & H2 & Hm).
  apply (catalog_claim_first _ _ _ _ _ _ Htx) in H2 as (-> & rec & Htx2 & Hfp); [|done].
  apply bind_inr in Hm as ([raw0 id] & w3 & H3 & Hm). destruct (Hw _ _ _ _ Htx2 H3) as (db3 & Htx3 & He). cbn in He.
  assert (raw0 = raw) as ->.
  { by apply finish_returns in Hm. }
  replace ".create" with (request_verb c) in Hm by (unfold request_verb; by rewrite Hid).
  pose proof (effect_idem _ _ _ _ _ He) as Hidem.
  assert (Hrec : idem db3 !! (bank, request_scope p c, key) = Some rec).
  { rewrite Hidem. unfold request_scope. rewrite Hid. apply lookup_insert_eq. }
  unfold request_scope in Hrec. rewrite Hid in Hrec.
  apply (catalog_finish _ _ _ _ _ _ _ _ rec _ Htx3 Hrec Hfp) in Hm as (rec' & t & Ha & Hs).
  destruct (effect_claimed _ _ _ _ _ _ He) as (db0 & He0 & ->). exists id, db0, rec', t. rewrite Hbody.
  split; [exact He0|]. split; [exact Ha|]. change (w_shard (shard_rollback w6).2) with (w_shard w6). rewrite Hs.
  exact (idem_again _ rec rec' (db0 <| audit ::= fun l => l ++ [catalog_audit c id t] |>)).
Qed.
Lemma patch_done c id input body w raw w' :
  (rewrites body (fun raw => catalog_effect bank (Principal_UserID p) c id raw)) -> request_id c = Some id ->
  request_body c = json_encode input -> patch hmac fp p bank (request_kind c) id key input rq body w = (inr raw, w') ->
  idem (w_shard w) !! (bank, request_scope p c, key) = None -> catalog_done c raw (w_shard w) (w_shard w').
Proof.
  intros Hw Hid Hbody Hm Hn. unfold catalog_done, request_status. unfold request_scope in *. rewrite Hid in *. unfold patch in Hm. cbv zeta in Hm.
  apply bind_inr in Hm as ([] & w1 & H1 & Hm). apply beginTenant_inr in H1 as (Htx & _).
  apply defer_inr in Hm as (w6 & Hm & ->). apply bind_inr in Hm as (replay & w2 & H2 & Hm).
  apply (catalog_claim_first _ _ _ _ _ _ Htx) in H2 as (-> & rec & Htx2 & Hfp); [|done].
  apply bind_inr in Hm as ([raw0|] & w3 & H3 & Hm); [|by apply throw_inr in Hm].
  destruct (Hw _ _ _ _ Htx2 H3) as (db3 & Htx3 & He). cbn in He.
  assert (raw0 = raw) as -> by (by apply finish_returns in Hm).
  replace ".patch" with (request_verb c) in Hm by (unfold request_verb; by rewrite Hid).
  assert (Hrec : idem db3 !! (bank, request_scope p c, key) = Some rec).
  { rewrite (effect_idem _ _ _ _ _ He). unfold request_scope. rewrite Hid. apply lookup_insert_eq. }
  unfold request_scope in Hrec. rewrite Hid in Hrec.
  apply (catalog_finish _ _ _ _ _ _ _ _ rec _ Htx3 Hrec Hfp) in Hm as (rec' & t & Ha & Hs).
  destruct (effect_claimed _ _ _ _ _ _ He) as (db0 & He0 & ->). exists id, db0, rec', t. rewrite Hbody.
  split; [exact He0|]. split; [exact Ha|]. change (w_shard (shard_rollback w6).2) with (w_shard w6). rewrite Hs.
  exact (idem_again _ rec rec' (db0 <| audit ::= fun l => l ++ [catalog_audit c id t] |>)).
Qed.

(** A failure before the commit leaves nothing. *)
Lemma catalog_fails c : fails shard_untouched (run_catalog hmac fp p bank key rq c).
Proof.
  destruct c; cbn [run_catalog];
    unfold CreateCardProductWorkflow, CreateClientWorkflow, CreateAccountReferenceWorkflow, PatchCardProductWorkflow,
      PatchClientWorkflow, PatchAccountReferenceWorkflow, mutate, patch, catalog_claim, CreateCardProduct, CreateClient,
      CreateAccountReference, UpdateCardProduct, UpdateClient, UpdateAccountReference, updated, RecordReferenceAudit;
    cbv zeta; repeat progress fail_with ltac:(try solve [auto with frames]).
Qed.
End Workflows.

(** C34: a catalog command whose key is new makes exactly its change and says so
    in its response: a creation adds one row to its bank, under an identifier
    and a unique key nobody had; a change rewrites the fields it names of the one
    row, and counts a new version of a product's configuration exactly when the
    configuration differs; either adds its audit event and the record that
    answers repetitions.  Nothing else of the shard changes, and a command that
    fails changes nothing (no commit reply being lost). *)
Theorem catalog_command_outcome hmac fp p bank key rq c w r w'
    (Hrun : run_catalog hmac fp p bank key rq c w = (r, w'))
    (Hnew : idem (w_shard w) !! (bank, request_scope p c, key) = None) :
  match r with
  | inl _ => no_lost_reply w -> w_shard w' = w_shard w
  | inr raw => catalog_done hmac fp p bank key rq c raw (w_shard w) (w_shard w')
  end.
Proof.
  destruct r as [e|raw]; [intros Hq; by destruct (catalog_fails _ _ _ _ _ _ _ _ _ _ Hrun Hq)|].
  destruct c; cbn [run_catalog] in Hrun.
  - eapply mutate_done; [apply writes_NewProduct|done|reflexivity|exact Hrun|done].
  - eapply mutate_done; [apply writes_NewClient|done|reflexivity|exact Hrun|done].
  - eapply mutate_done; [apply writes_NewAccount|done|reflexivity|exact Hrun|done].
  - eapply patch_done; [apply rewrites_SetProduct|done|reflexivity|exact Hrun|done].
  - eapply patch_done; [apply rewrites_SetClient|done|reflexivity|exact Hrun|done].
  - eapply patch_done; [apply rewrites_SetAccount|done|reflexivity|exact Hrun|done].
Qed.

Definition catalog_request_1 : catalog_request := SetProduct "product" (Some "Gold") None (Some (JObj [("limit", JNum 5)])).
Abbreviation toy_catalog := (run_catalog toy_hmac toy_fp toy_principal bank1 "key-1" "request" catalog_request_1).
Lemma catalog_command_outcome_witness :
  exists raw, (toy_catalog (toy_world toy_shard 100)).1 = inr raw /\
    catalog_done toy_hmac toy_fp toy_principal bank1 "key-1" "request" catalog_request_1 raw toy_shard
      (w_shard (toy_catalog (toy_world toy_shard 100)).2).
Proof.
  destruct (toy_catalog (toy_world toy_shard 100)).1 as [e|raw] eqn:E; [exfalso; by vm_compute in E|].
  exists raw. split; [done|].
  exact (catalog_command_outcome toy_hmac toy_fp toy_principal bank1 "key-1" "request" catalog_request_1 _ (inr raw) _
    (run_result _ _ E) eq_refl).
Defined.
