(* ===== verification/AccessToken.v ===== *)
(** * AccessToken: the validation of access tokens

    [Signer.Validate] of [internal/auth/jwt.go], from the text of the token to
    the claims the handlers act on, and the methods of [auth.API] over the
    service.  [ed25519.Verify] is a parameter; the public key is the second half
    of the private one, as [PrivateKey.Public] cuts it. *)

From S2P Require Import Prelude Text Base64 Json JsonText JsonRoundtrip Uuid World AuthTypes AuthStore ControlStore ControlOrder AuthService AuthSafety PaginationSafety Scenario.
Open Scope string_scope.
Open Scope list_scope.
Open Scope Z_scope.

Record jwtHeader := MkJwtHeader { jh_Algorithm : string; jh_Type : string }.
Definition jwtHeader_fields : fields jwtHeader :=
  [("alg", string_field (fun s h => MkJwtHeader s (jh_Type h))); ("typ", string_field (fun s h => MkJwtHeader (jh_Algorithm h) s))].
Definition empty_header : jwtHeader := MkJwtHeader "" "".

#[export] Instance settable_jwtClaims : Settable jwtClaims := fun c =>
  MkJwtClaims (jc_Subject c) (jc_Username c) (jc_Role c) (jc_Status c) (jc_EntityID c) (jc_SessionID c) (jc_Issuer c)
    (jc_Audience c) (jc_IssuedAt c) (jc_ExpiresAt c) (jc_JWTID c).
Definition jwtClaims_fields : fields jwtClaims :=
  [("sub", string_field (fun s c => c <| jc_Subject := s |>)); ("username", string_field (fun s c => c <| jc_Username := s |>));
   ("role", string_field (fun s c => c <| jc_Role := s |>)); ("status", string_field (fun s c => c <| jc_Status := s |>));
   ("entity_id", string_field (fun s c => c <| jc_EntityID := s |>)); ("sid", string_field (fun s c => c <| jc_SessionID := s |>));
   ("iss", string_field (fun s c => c <| jc_Issuer := s |>)); ("aud", string_field (fun s c => c <| jc_Audience := s |>));
   ("iat", int64_field (fun z c => c <| jc_IssuedAt := z |>)); ("exp", int64_field (fun z c => c <| jc_ExpiresAt := z |>));
   ("jti", string_field (fun s c => c <| jc_JWTID := s |>))].
Definition empty_claims : jwtClaims := MkJwtClaims "" "" "" "" "" "" "" "" 0 0 "".

(** [decodeStrictJSON]: unknown members and anything after the value are
    refused. *)
Definition decodeStrictJSON {R} (fs : fields R) (zero : R) (data : string) : option R := unmarshal true fs zero data.

(** [privateKey.Public()]. *)
Definition publicKey (s : Signer) : string := String.substring 32 32 (sg_privateKey s).
Definition SignatureSize : nat := 64.

(** The claims handed to the handlers. *)
Definition claims_of (c : jwtClaims) : Claims :=
  MkClaims (MkUserSummary (jc_Username c) (jc_Status c) (jc_Role c)) (jc_Subject c) (jc_SessionID c) (jc_EntityID c).

Section Validation.
Context (ed25519_Verify : string -> string -> string -> bool).

Definition Validate (s : Signer) (token : string) (now : Z) : result Claims :=
  match split dot token with
  | [part0; part1; part2] =>
      if (part0 == "") || (part1 == "") || (part2 == "") then inl ErrInvalidAccess
      else
      match (headerJSON ← Decode URLAlphabet false part0; decodeStrictJSON jwtHeader_fields empty_header headerJSON) with
      | None => inl ErrInvalidAccess
      | Some header =>
          if (jh_Algorithm header != "EdDSA") || (jh_Type header != "JWT") then inl ErrInvalidAccess
          else
          match Decode URLAlphabet false part2 with
          | None => inl ErrInvalidAccess
          | Some signature =>
              if negb (String.length signature =? SignatureSize)%nat
                 || negb (ed25519_Verify (publicKey s) (part0 +:+ "." +:+ part1) signature)
              then inl ErrInvalidAccess
              else
              match (payload ← Decode URLAlphabet false part1; decodeStrictJSON jwtClaims_fields empty_claims payload) with
              | None => inl ErrInvalidAccess
              | Some claims =>
                  if negb (validClaims claims (sg_issuer s) (sg_audience s) now) then inl ErrInvalidAccess
                  else inr (claims_of claims)
              end
          end
      end
  | _ => inl ErrInvalidAccess
  end.

(** [Service.ValidateAccess]: at the time of the signer's clock. *)
Definition ValidateAccess (s : Signer) (token : string) : M Claims :=
  now ← time_now; of_result (Validate s token now).
End Validation.

(** ** Reading back what was signed *)

Definition claims_utf8 (c : jwtClaims) : bool :=
  forallb utf8_valid [jc_Subject c; jc_Username c; jc_Role c; jc_Status c; jc_EntityID c; jc_SessionID c; jc_Issuer c;
                      jc_Audience c; jc_JWTID c].
Definition int64 (z : Z) : Prop := - max_int64 - 1 <= z <= max_int64.

Lemma decode_header : decodeStrictJSON jwtHeader_fields empty_header (json_encode jwtHeader_json) = Some (MkJwtHeader "EdDSA" "JWT").
Proof. unfold decodeStrictJSON, jwtHeader_json. by rewrite unmarshal_written by (done || by apply max_nesting_large). Qed.

Lemma decode_claims c : claims_utf8 c = true -> int64 (jc_IssuedAt c) -> int64 (jc_ExpiresAt c) ->
  decodeStrictJSON jwtClaims_fields empty_claims (json_encode (jwtClaims_json c)) = Some c.
Proof.
  unfold claims_utf8. cbn [forallb]. rewrite !andb_true_iff. intros (H1 & H2 & H3 & H4 & H5 & H6 & H7 & H8 & H9 & _) Hi He.
  unfold decodeStrictJSON, jwtClaims_json.
  rewrite unmarshal_written.
  - destruct c as [? ? ? ? entity ? ? ? ? ? ?]. cbn [jc_EntityID] in *. destruct (String.eqb_spec entity "") as [->|Hne];
      cbn -[parse_int64 pretty.pretty]; unfold int64_field; cbn [text_of]; rewrite !parse_int64_pretty by done; done.
  - cbn in *. destruct (jc_EntityID c == ""); cbn; by rewrite ?H1, ?H2, ?H3, ?H4, ?H5, ?H6, ?H7, ?H8, ?H9.
  - destruct (jc_EntityID c == ""); by apply max_nesting_large.
Qed.

(** What is signed for a set of claims, and the token. *)
Definition signing_input (c : jwtClaims) : string :=
  RawEncode URLAlphabet (json_encode jwtHeader_json) +:+ "." +:+ RawEncode URLAlphabet (json_encode (jwtClaims_json c)).
Definition token_of (c : jwtClaims) (signature : string) : string := signing_input c +:+ "." +:+ RawEncode URLAlphabet signature.


Lemma signing_input_split c signature : split dot (token_of c signature) =
  [RawEncode URLAlphabet (json_encode jwtHeader_json); RawEncode URLAlphabet (json_encode (jwtClaims_json c)); RawEncode URLAlphabet signature].
Proof.
  unfold token_of, signing_input. rewrite !append_assoc, !split_dot_app, split_dot_none by apply encode_no_dot. done.
Qed.

Lemma RawEncode_nonempty s : s <> "" -> (RawEncode URLAlphabet s == "") = false.
Proof.
  intros Hs. apply String.eqb_neq. intros H. apply Hs. pose proof (Decode_RawEncode URLAlphabet s url_ok) as Hd.
  rewrite H in Hd. vm_compute in Hd. congruence.
Qed.

Section Tokens.
Context (ed25519_Sign : string -> string -> string) (NewKeyFromSeed : string -> string)
  (ed25519_Verify : string -> string -> string -> bool).

(** A token with a right signature is judged by its claims. *)
Lemma Validate_token s c signature now : claims_utf8 c = true -> int64 (jc_IssuedAt c) -> int64 (jc_ExpiresAt c) ->
  String.length signature = SignatureSize -> ed25519_Verify (publicKey s) (signing_input c) signature = true ->
  Validate ed25519_Verify s (token_of c signature) now =
  if validClaims c (sg_issuer s) (sg_audience s) now then inr (claims_of c) else inl ErrInvalidAccess.
Proof.
  intros Hu Hi He Hlen Hv. unfold Validate. rewrite signing_input_split.
  rewrite !RawEncode_nonempty; [|by intros ->|by (unfold jwtClaims_json; cbn)|done]. cbn [orb].
  rewrite !Decode_RawEncode by apply url_ok. cbn [mbind option_bind]. rewrite decode_header. cbn [jh_Algorithm jh_Type].
  rewrite Hlen. fold (signing_input c). rewrite Hv, !String.eqb_refl, Nat.eqb_refl. cbn [negb orb]. rewrite decode_claims by done.
  by destruct (validClaims _ _ _ _).
Qed.

(** An accepted token: three parts, the fixed header, a verified signature and
    well-formed claims. *)
Lemma Validate_inr s token now claims : Validate ed25519_Verify s token now = inr claims ->
  exists part0 part1 part2 signature payload c, split dot token = [part0; part1; part2] /\
    Decode URLAlphabet false part2 = Some signature /\ String.length signature = SignatureSize /\
    ed25519_Verify (publicKey s) (part0 +:+ "." +:+ part1) signature = true /\
    Decode URLAlphabet false part1 = Some payload /\ decodeStrictJSON jwtClaims_fields empty_claims payload = Some c /\
    validClaims c (sg_issuer s) (sg_audience s) now = true /\ claims = claims_of c.
Proof.
  unfold Validate. destruct (split dot token) as [|p0 [|p1 [|p2 [|? ?]]]]; try done.
  case_match; [done|]. destruct (headerJSON ← Decode URLAlphabet false p0; _) as [h|]; [|done].
  case_match; [done|]. destruct (Decode URLAlphabet false p2) as [signature|] eqn:H2; [|done].
  destruct (String.length signature =? SignatureSize)%nat eqn:Hl; [|done].
  destruct (ed25519_Verify (publicKey s) (p0 +:+ "." +:+ p1) signature) eqn:Hv; [|done]. cbn [negb orb].
  destruct (Decode URLAlphabet false p1) as [payload|] eqn:H1; [|done]. cbn [mbind option_bind].
  destruct (decodeStrictJSON jwtClaims_fields empty_claims payload) as [c|] eqn:Hc; [|done].
  destruct (validClaims c (sg_issuer s) (sg_audience s) now) eqn:Hok; [|done]. intros [= <-].
  apply Nat.eqb_eq in Hl. exists p0, p1, p2, signature, payload, c. done.
Qed.

(** What an accepted claim of an identity satisfies. *)
Record well_formed_claims (c : Claims) : Prop := {
  wf_user : validUUID (claims_UserID c) = true;
  wf_session : validUUID (claims_SessionID c) = true;
  wf_name : sum_Username (claims_UserSummary c) <> "";
  wf_enabled : sum_Status (claims_UserSummary c) = "enabled";
  wf_role : validRole (sum_Role (claims_UserSummary c)) = true;
  wf_bank : if bank_role (sum_Role (claims_UserSummary c)) then validUUID (claims_EntityID c) = true else claims_EntityID c = ""
}.

Lemma validClaims_true c issuer audience now : validClaims c issuer audience now = true ->
  well_formed_claims (claims_of c) /\ validUUID (jc_JWTID c) = true /\ jc_Issuer c = issuer /\ jc_Audience c = audience /\
  0 < jc_IssuedAt c < jc_ExpiresAt c /\ unix now < jc_ExpiresAt c.
Proof.
  unfold validClaims. case_match eqn:E; [done|]. rewrite !orb_false_iff, !negb_false_iff, !Z.leb_gt, !String.eqb_eq in E.
  destruct E as ((((((((((Hs & Hn) & Hsid) & Hj) & Hi) & Ha) & H0) & Hlt) & Hnow) & Hst) & Hrole).
  fold (bank_role (jc_Role c)). rewrite andb_true_iff, eqb_true_iff. intros [Hb He]. apply String.eqb_neq in Hn.
  split; [|repeat split; done || lia]. split; cbn; try done. rewrite Hb in *.
  destruct (String.eqb_spec (jc_EntityID c) "") as [->|Hne]; [done|]. exact He.
Qed.

(** The claims the program signs for a user of the directory. *)
Record signable (s : Signer) (user : UserRecord) (sid : string) (issued : Z) : Prop := {
  sn_user : validUUID (ur_ID user) = true;
  sn_session : validUUID sid = true;
  sn_name : ur_Username user <> "" /\ utf8_valid (ur_Username user) = true;
  sn_enabled : ur_Status user = "enabled";
  sn_role : validRole (ur_Role user) = true;
  sn_bank : bank_role (ur_Role user) = (ur_EntityID user != "");
  sn_entity : bank_role (ur_Role user) = true -> validUUID (ur_EntityID user) = true;
  sn_signer : utf8_valid (sg_issuer s) = true /\ utf8_valid (sg_audience s) = true;
  sn_time : 0 < unix issued /\ unix issued + 900 <= max_int64
}.

Lemma validRole_utf8 role : validRole role = true -> utf8_valid role = true.
Proof. unfold validRole. rewrite !orb_true_iff, !String.eqb_eq. intros [[[-> | ->] | ->] | ->]; by vm_compute. Qed.

Lemma issued_utf8 s user sid chunk issued : signable s user sid issued -> random_bytes chunk ->
  claims_utf8 (issue_claims s user sid (auth_newUUID chunk) issued) = true.
Proof.
  intros [Hu Hs [_ Hn] Hst Hr Hb He [Hi Ha] _] [Hlen _].
  assert (Hj : ValidUUID (auth_newUUID chunk) = true) by (apply formatUUID_valid; by rewrite set_version_length).
  unfold claims_utf8, issue_claims. cbn -[utf8_valid].
  rewrite (ValidUUID_utf8 _ Hu), (ValidUUID_utf8 _ Hs), (ValidUUID_utf8 _ Hj), Hn, (validRole_utf8 _ Hr), Hst, Hi, Ha. cbn -[utf8_valid].
  rewrite andb_true_r. destruct (bank_role (ur_Role user)).
  - by apply ValidUUID_utf8, He.
  - symmetry in Hb. apply negb_false_iff, String.eqb_eq in Hb. by rewrite Hb.
Qed.
Lemma issued_times s user sid jti issued : signable s user sid issued ->
  int64 (jc_IssuedAt (issue_claims s user sid jti issued)) /\ int64 (jc_ExpiresAt (issue_claims s user sid jti issued)).
Proof.
  intros []. cbn. assert (unix (issued + accessLifetime) = unix issued + 900) as ->.
  { unfold unix, accessLifetime, minute, second. by rewrite <- (Z.div_add issued 900) by lia. }
  unfold int64. unfold max_int64 in *. lia.
Qed.

(** Whatever the signature of issued claims, they are judged by their age. *)
Lemma issued_claims_judged s user sid chunk issued now : signable s user sid issued -> random_bytes chunk ->
  validClaims (issue_claims s user sid (auth_newUUID chunk) issued) (sg_issuer s) (sg_audience s) now =
  (unix now <? unix issued + 900).
Proof. intros [? ? [? _] ? ? ? ? _ [? _]] ?. by apply issued_claims_lifetime. Qed.

Definition user_claims (user : UserRecord) (sid : string) : Claims := MkClaims (summary user) (ur_ID user) sid (ur_EntityID user).

Lemma NewSigner_inr private issuer audience s : NewSigner NewKeyFromSeed private issuer audience = inr s ->
  sg_privateKey s = NewKeyFromSeed (String.substring 0 32 (sg_privateKey s)).
Proof.
  unfold NewSigner. case_match eqn:E; [done|]. intros [= <-]. cbn. rewrite !orb_false_iff, !negb_false_iff, !String.eqb_eq in E.
  by destruct E as (((_ & ?) & _) & _).
Qed.
End Tokens.

(** An access token issued for a user is accepted by its signer during the
    fifteen minutes (to the second) after it was issued, for the user, session,
    role and bank it was issued for, and refused afterwards: the claims survive
    their encoding to JSON, base64 and the signature, whatever characters the
    name has. *)
Theorem token_roundtrip ed25519_Sign NewKeyFromSeed ed25519_Verify private issuer audience s user sid w resp w' w2 :
  (forall k m, k = NewKeyFromSeed (String.substring 0 32 k) ->
     ed25519_Verify (String.substring 32 32 k) m (ed25519_Sign k m) = true) ->
  (forall k m, String.length (ed25519_Sign k m) = SignatureSize) ->
  NewSigner NewKeyFromSeed private issuer audience = inr s ->
  signable s user sid (w_clock w) -> Forall random_bytes (w_entropy w) ->
  Issue ed25519_Sign s user sid w = (inr resp, w') ->
  (ValidateAccess ed25519_Verify s (tr_AccessToken resp) w2).1 =
  if unix (w_clock w2) <? unix (w_clock w) + 900 then inr (user_claims user sid) else inl ErrInvalidAccess.
Proof.
  intros Hverify Hsize Hs Hok Hrandom H. unfold Issue in H. apply bind_inr in H as (issued & w1 & [-> ->]%time_inr & H).
  unfold draw_uuid, wrap, rand16, mbind, M_bind in H. destruct (w_entropy w) as [|chunk rest]; [done|].
  apply Forall_cons in Hrandom as [Hchunk _]. cbn in H. injection H as <- _. cbn [tr_AccessToken].
  unfold ValidateAccess, time_now, of_result, mbind, M_bind. cbn [fst].
  set (c := issue_claims s user sid (auth_newUUID chunk) (w_clock w)).
  rewrite (Validate_token _ s c (ed25519_Sign (sg_privateKey s) (signing_input c))).
  - unfold c. rewrite issued_claims_judged by done. by case_match.
  - by apply issued_utf8.
  - by apply issued_times.
  - by apply issued_times.
  - apply Hsize.
  - apply Hverify, (NewSigner_inr _ private issuer audience), Hs.
Qed.

(** The claims of any accepted token are those of an enabled user: canonical
    identifiers, a known role, a bank exactly when the role is one of a bank.
    They are what the signed part of the token says, for this issuer and
    audience and not expired, and the signature over the first two parts
    verifies. *)
Theorem accepted_claims_well_formed ed25519_Verify s token claims w w' :
  ValidateAccess ed25519_Verify s token w = (inr claims, w') ->
  w' = w /\ well_formed_claims claims /\
  exists part0 part1 part2 signature payload c, split dot token = [part0; part1; part2] /\
    Decode URLAlphabet false part2 = Some signature /\ ed25519_Verify (publicKey s) (part0 +:+ "." +:+ part1) signature = true /\
    Decode URLAlphabet false part1 = Some payload /\ decodeStrictJSON jwtClaims_fields empty_claims payload = Some c /\
    claims = claims_of c /\ jc_Issuer c = sg_issuer s /\ jc_Audience c = sg_audience s /\
    0 < jc_IssuedAt c < jc_ExpiresAt c /\ unix (w_clock w) < jc_ExpiresAt c.
Proof.
  unfold ValidateAccess, time_now, of_result, mbind, M_bind. intros [= H <-].
  apply Validate_inr in H as (p0 & p1 & p2 & signature & payload & c & Hsplit & H2 & _ & Hv & H1 & Hc & Hok & ->).
  apply validClaims_true in Hok as (Hwf & _ & Hi & Ha & Ht & Hn). split; [done|]. split; [done|].
  exists p0, p1, p2, signature, payload, c. done.
Qed.

(** C37: while nobody else can sign, an accepted token is one the program
    issued less than fifteen minutes ago to an enabled user, and the claims are
    of that user and session. *)
Theorem accepted_token_was_issued ed25519_Verify s token claims now :
  (forall m signature, ed25519_Verify (publicKey s) m signature = true -> exists user sid chunk issued,
     signable s user sid issued /\ random_bytes chunk /\ m = signing_input (issue_claims s user sid (auth_newUUID chunk) issued)) ->
  Validate ed25519_Verify s token now = inr claims ->
  exists user sid issued, signable s user sid issued /\ claims = user_claims user sid /\ unix now < unix issued + 900.
Proof.
  intros Honly H.
  apply Validate_inr in H as (p0 & p1 & p2 & signature & payload & c & Hsplit & _ & _ & Hv & H1 & Hc & Hok & ->).
  destruct (Honly _ _ Hv) as (user & sid & chunk & issued & Hsign & Hchunk & Hm). clear Honly Hv.
  pose proof (split_parts dot token) as Hparts. rewrite Hsplit in Hparts.
  apply Forall_cons in Hparts as [Hp0 [Hp1 _]%Forall_cons].
  apply dotted_inj in Hm as [_ ->]; [|done|done|apply encode_no_dot|apply encode_no_dot].
  rewrite Decode_RawEncode in H1 by apply url_ok. apply (inj Some) in H1. subst payload.
  destruct (issued_times s user sid (auth_newUUID chunk) issued Hsign) as [Hi He].
  rewrite decode_claims in Hc by (done || by apply issued_utf8). injection Hc as <-.
  rewrite issued_claims_judged in Hok by done. exists user, sid, issued. split; [done|]. split; [done|lia].
Qed.

(** ** Witnesses *)

Abbreviation alice_id := AuthSafety.toy_id.

(** A signature that is the first bytes of what it signs. *)
Definition toy_mac (key msg : string) : string := of_bytes (take 64 (bytes_of (msg +:+ key) ++ repeat 0%N 64)).
Definition toy_ed_sign (key msg : string) : string := toy_mac (String.substring 32 32 key) msg.
Definition toy_verify (key msg signature : string) : bool := signature == toy_mac key msg.
Definition toy_seeded (seed : string) : string := seed +:+ seed.
Definition toy_private : string := toy_seeded "0123456789abcdef0123456789abcdef".
Definition toy_ed_signer : Signer := MkSigner toy_private "issuer" "audience".
Definition toy_record : UserRecord :=
  MkUserRecord alice_id (of_bytes [122; 111; 195; 171; 32; 60; 49; 62]%N) "" "bank_operator" alice_id "enabled" 1.

Lemma toy_mac_length key msg : String.length (toy_mac key msg) = SignatureSize.
Proof.
  unfold toy_mac, of_bytes. rewrite length_of_ascii, length_fmap, length_take, length_app, repeat_length.
  unfold SignatureSize. lia.
Qed.
Lemma toy_signable : signable toy_ed_signer toy_record alice_id (100 * day).
Proof. split; try split; by vm_compute. Qed.
Lemma toy_chunk b : 0 <= b < 256 -> random_bytes (toy_bytes b).
Proof.
  intros Hb. unfold toy_bytes. split; [by rewrite List.length_map|]. apply Forall_map, Forall_forall. intros i _. apply Z.mod_pos_bound. lia.
Qed.

Abbreviation toy_issue := (Issue toy_ed_sign toy_ed_signer toy_record alice_id (auth_world [1])).

Lemma token_roundtrip_witness : exists resp w',
  toy_issue = (inr resp, w') /\
  forall w2, (ValidateAccess toy_verify toy_ed_signer (tr_AccessToken resp) w2).1 =
    if unix (w_clock w2) <? unix (100 * day) + 900 then inr (user_claims toy_record alice_id) else inl ErrInvalidAccess.
Proof.
  destruct (answers_run toy_issue) as [resp Hrun]; [by vm_compute|]. exists resp, toy_issue.2. split; [exact Hrun|]. intros w2.
  refine (token_roundtrip toy_ed_sign toy_seeded toy_verify toy_private "issuer" "audience" toy_ed_signer toy_record alice_id
    (auth_world [1]) resp _ w2 _ _ _ toy_signable _ Hrun).
  - intros k m _. apply String.eqb_refl.
  - intros k m. apply toy_mac_length.
  - by vm_compute.
  - constructor; [apply toy_chunk; lia|constructor].
Defined.

Lemma accepted_claims_well_formed_witness : exists claims,
  well_formed_claims claims /\ sum_Role (claims_UserSummary claims) = "bank_operator" /\ claims_EntityID claims = alice_id.
Proof.
  assert (H : (ValidateAccess toy_verify toy_ed_signer (default "" (tr_AccessToken <$> match toy_issue.1 with inr r => Some r | inl _ => None end))
    toy_issue.2).1 = inr (user_claims toy_record alice_id)) by by vm_compute.
  destruct (accepted_claims_well_formed toy_verify toy_ed_signer _ _ _ _ (run_result _ _ H)) as (_ & Hwf & _).
  clear H. exists (user_claims toy_record alice_id). split; [exact Hwf|split; reflexivity].
Defined.

(** The one message a key that signs once has signed. *)
Definition toy_once (key msg signature : string) : bool :=
  (msg == signing_input (issue_claims toy_ed_signer toy_record alice_id (auth_newUUID (toy_bytes 1)) (100 * day)))
  && (signature == toy_mac key msg).
Lemma accepted_token_was_issued_witness : exists token user sid issued,
  Validate toy_once toy_ed_signer token (100 * day + 14 * minute) = inr (user_claims user sid) /\ signable toy_ed_signer user sid issued.
Proof.
  set (c := issue_claims toy_ed_signer toy_record alice_id (auth_newUUID (toy_bytes 1)) (100 * day)).
  assert (H : Validate toy_once toy_ed_signer (token_of c (toy_mac (publicKey toy_ed_signer) (signing_input c))) (100 * day + 14 * minute) =
    inr (user_claims toy_record alice_id)) by by vm_compute.
  edestruct (accepted_token_was_issued toy_once toy_ed_signer) as (user & sid & issued & Hs & Heq & _); [|exact H|].
  - intros m signature Hv. unfold toy_once in Hv. apply andb_true_iff in Hv as [Hm%String.eqb_eq _].
    exists toy_record, alice_id, (toy_bytes 1), (100 * day). split; [exact toy_signable|]. split; [apply toy_chunk; lia|exact Hm].
  - eexists _, user, sid, issued. rewrite <- Heq. split; [exact H|exact Hs].
Defined.
