(* ===== verification/LoginAdmission.v ===== *)
(** * LoginAdmission: the login rate limit

    [internal/server/login_admission.go] and [retryAfterSeconds] of
    [internal/server/auth.go]: a fixed window of attempts per client address, in
    a table of bounded size.  A call reads the clock, then waits for the mutex:
    a sequence of calls is in the order of the mutex, and the times read may be
    out of order, by as much as a call waited.  The table never outgrows its
    bound; no address gets more than two limits of attempts through in a minute
    when the times are in order, nor three when no call waits for more than 15
    seconds, and two are not enough then ([two_limits_exceeded]); a refused
    client that waits as long as the answer says is admitted.  [canonical_ip]
    is [net.ParseIP] followed by [IP.String]. *)

From S2P Require Import Prelude.
Open Scope string_scope.
Open Scope list_scope.
Open Scope Z_scope.

Definition defaultLoginAttemptLimit : Z := 5.
Definition loginAttemptPeriod : Z := minute.
Definition loginAdmissionMaxIPs : nat := Z.to_nat 10000.

Record loginAttemptWindow := AttemptWindow { aw_startedAt : Z; aw_count : Z }.
Abbreviation attempts_map := (gmap string loginAttemptWindow).

(** The limit of [newLoginAdmissionWithLimit]. *)
Definition admission_limit (limit : Z) : Z := if limit <? 1 then defaultLoginAttemptLimit else limit.

(** [time.Time.Sub]: a [Duration] saturates. *)
Definition Sub (t u : Z) : Z := Z.max (- max_int64 - 1) (Z.min max_int64 (t - u)).

(** ** Addresses *)

(** [net.SplitHostPort]: the host of "host:port" or "[host]:port". *)
Fixpoint index_char (c : Ascii.ascii) (l : list Ascii.ascii) : option nat :=
  match l with
  | [] => None
  | x :: rest => if Ascii.eqb x c then Some O else S <$> index_char c rest
  end.
Definition last_index_char (c : Ascii.ascii) (l : list Ascii.ascii) : option nat :=
  (fun i => (length l - 1 - i)%nat) <$> index_char c (rev l).
Definition colon : Ascii.ascii := Ascii.ascii_of_nat 58.
Definition open_bracket : Ascii.ascii := Ascii.ascii_of_nat 91.
Definition close_bracket : Ascii.ascii := Ascii.ascii_of_nat 93.

Definition SplitHostPort (hostport : string) : option string :=
  let l := String.list_ascii_of_string hostport in
  match last_index_char colon l with
  | None => None
  | Some i =>
      let parsed :=
        match l with
        | c :: _ =>
            if Ascii.eqb c open_bracket then
              match index_char close_bracket l with
              | None => None
              | Some e => if (e + 1 =? i)%nat then Some (take (e - 1) (drop 1 l), 1%nat, (e + 1)%nat) else None
              end
            else if bool_decide (index_char colon (take i l) = None) then Some (take i l, 0%nat, 0%nat) else None
        | [] => None
        end in
      match parsed with
      | None => None
      | Some (host, j, k) =>
          if bool_decide (index_char open_bracket (drop j l) = None)
             && bool_decide (index_char close_bracket (drop k l) = None)
          then Some (String.string_of_list_ascii host) else None
      end
  end.

Section Admission.
Context (canonical_ip : string -> option string).

Definition loginClientIP (remoteAddress : string) : string :=
  let host := default remoteAddress (SplitHostPort remoteAddress) in
  default "unknown" (canonical_ip host).

(** ** The table *)

Definition expired (now : Z) (w : loginAttemptWindow) : bool := loginAttemptPeriod <=? Sub now (aw_startedAt w).
Definition evictExpired (now : Z) (attempts : attempts_map) : attempts_map :=
  filter (fun p => expired now p.2 = false) attempts.

(** [allow] once it holds the mutex, [now] being the time it read before it
    asked for it: the answer, the delay and the table left. *)
Definition allow (limit : Z) (attempts : attempts_map) (now : Z) (remoteAddress : string) : bool * Z * attempts_map :=
  let key := loginClientIP remoteAddress in
  let attempts :=
    match attempts !! key with
    | Some attempt => if expired now attempt then delete key attempts else attempts
    | None => attempts
    end in
  match attempts !! key with
  | None =>
      let full (m : attempts_map) := (loginAdmissionMaxIPs <=? size m)%nat in
      let attempts := if full attempts then evictExpired now attempts else attempts in
      if full attempts then (false, loginAttemptPeriod, attempts)
      else (true, 0, <[key := AttemptWindow now 1]> attempts)
  | Some attempt =>
      if limit <=? aw_count attempt then (false, loginAttemptPeriod - Sub now (aw_startedAt attempt), attempts)
      else (true, 0, <[key := AttemptWindow (aw_startedAt attempt) (aw_count attempt + 1)]> attempts)
  end.

(** [retryAfterSeconds]. *)
Definition retryAfterSeconds (value : Z) : Z :=
  let seconds := Z.quot value second in
  let seconds := if Z.rem value second =? 0 then seconds else seconds + 1 in
  if seconds <? 1 then 1 else seconds.

(** The calls in the order in which they hold the mutex, each with the time it
    had read, and the ones allowed. *)
Fixpoint allows (limit : Z) (attempts : attempts_map) (calls : list (Z * string)) : list (Z * string) * attempts_map :=
  match calls with
  | [] => ([], attempts)
  | (now, address) :: rest =>
      let '(ok, _, attempts1) := allow limit attempts now address in
      let '(oks, attempts2) := allows limit attempts1 rest in
      (if (ok : bool) then (now, address) :: oks else oks, attempts2)
  end.
End Admission.

Example split_v6 : SplitHostPort "[2001:db8::1]:443" = Some "2001:db8::1".
Proof. reflexivity. Qed.
Example split_v4 : SplitHostPort "10.0.0.1:443" = Some "10.0.0.1" /\ SplitHostPort "10.0.0.1" = None /\ SplitHostPort "::1" = None.
Proof. repeat split. Qed.

(** ** What the limit guarantees *)

Section Admission.
Context (canonical_ip : string -> option string) (limit : Z).
Abbreviation ip := (loginClientIP canonical_ip).
Abbreviation step := (allow canonical_ip limit).

(** A table at the time [now]: windows began in the past, with as many attempts
    as allowed, and there are not too many. *)
Definition sound_window (now : Z) (w : loginAttemptWindow) : Prop := aw_startedAt w <= now /\ 1 <= aw_count w <= limit.
Definition sound (now : Z) (m : attempts_map) : Prop :=
  map_Forall (fun _ => sound_window now) m /\ (size m <= loginAdmissionMaxIPs)%nat.

Lemma expired_spec now w :
  aw_startedAt w <= now + loginAttemptPeriod -> expired now w = true <-> aw_startedAt w + loginAttemptPeriod <= now.
Proof. unfold expired, Sub, loginAttemptPeriod, minute, second, max_int64. rewrite Z.leb_le. lia. Qed.
Lemma expired_false now w :
  aw_startedAt w <= now + loginAttemptPeriod -> expired now w = false <-> now < aw_startedAt w + loginAttemptPeriod.
Proof. intros H. pose proof (expired_spec now w H). destruct (expired now w); split; intros; try done; [lia|]. destruct (Z.lt_ge_cases now (aw_startedAt w + loginAttemptPeriod)); [done|]. naive_solver. Qed.

(** ** One call *)

(** The window of an address after the clean-up of a call. *)
Definition live (now : Z) (o : option loginAttemptWindow) : option loginAttemptWindow :=
  o ≫= fun w => if expired now w then None else Some w.

(** A call of an address: what becomes of each window. *)
Definition moved (key : string) (now : Z) (ok : bool) (m m' : attempts_map) : Prop :=
  (forall k, k <> key -> m' !! k = m !! k \/ m' !! k = live now (m !! k)) /\
  (if ok then
     match live now (m !! key) with
     | None => m' !! key = Some (AttemptWindow now 1)
     | Some w => aw_count w < limit /\ m' !! key = Some (AttemptWindow (aw_startedAt w) (aw_count w + 1))
     end
   else m' !! key = live now (m !! key)).

Lemma evict_lookup now m k : evictExpired now m !! k = live now (m !! k).
Proof.
  apply option_eq. intros w. unfold evictExpired. rewrite map_lookup_filter_Some. cbn.
  unfold live. destruct (m !! k) as [v|]; cbn; [|naive_solver]. destruct (expired now v) eqn:E; naive_solver congruence.
Qed.

Lemma allow_moved m now address ok d m' :
  step m now address = (ok, d, m') -> 1 <= limit -> moved (ip address) now ok m m' /\ (size m <= loginAdmissionMaxIPs -> size m' <= loginAdmissionMaxIPs)%nat.
Proof.
  unfold allow. set (key := ip address). set (m1 := match m !! key with Some _ => _ | None => _ end).
  assert (Hm1 : (forall k, k <> key -> m1 !! k = m !! k) /\ m1 !! key = live now (m !! key) /\ (size m1 <= size m)%nat).
  { unfold m1, live. destruct (m !! key) as [w|] eqn:E; cbn; [|by rewrite E]. destruct (expired now w); [|by rewrite E].
    split; [intros k Hk; by rewrite lookup_delete_ne|]. split; [by rewrite lookup_delete_eq|].
    rewrite map_size_delete, E. cbn. lia. }
  clearbody m1. destruct Hm1 as (Ho & Hk & Hsz). rewrite Hk.
  destruct (live now (m !! key)) as [w|] eqn:El.
  - destruct (limit <=? aw_count w) eqn:Ec; intros [= <- _ <-] Hl.
    + split; [|lia]. split; [intros k Hne; left; by apply Ho|]. by rewrite Hk.
    + apply Z.leb_gt in Ec. split.
      * split; [intros k Hne; left; rewrite lookup_insert_ne by done; by apply Ho|]. rewrite El. split; [done|].
        by rewrite lookup_insert_eq.
      * rewrite map_size_insert, Hk. cbn. lia.
  - set (m2 := if _ : bool then evictExpired now m1 else m1).
    assert (Hm2 : (forall k, k <> key -> m2 !! k = m !! k \/ m2 !! k = live now (m !! k)) /\ m2 !! key = None /\ (size m2 <= size m1)%nat).
    { unfold m2. destruct (loginAdmissionMaxIPs <=? size m1)%nat.
      - split; [intros k Hne; right; by rewrite evict_lookup, Ho|]. split; [by rewrite evict_lookup, Hk|].
        apply map_subseteq_size, map_filter_subseteq.
      - split; [intros k Hne; left; by apply Ho|]. by split. }
    clearbody m2. destruct Hm2 as (Ho2 & Hk2 & Hs2).
    destruct (loginAdmissionMaxIPs <=? size m2)%nat eqn:Ef; intros [= <- _ <-] Hl.
    + split; [|lia]. split; [done|]. by rewrite El.
    + apply Nat.leb_gt in Ef. split.
      * split; [intros k Hne; rewrite lookup_insert_ne by done; by apply Ho2|]. rewrite El. by rewrite lookup_insert_eq.
      * rewrite map_size_insert, Hk2. cbn. lia.
Qed.

Lemma live_cases now o : live now o = None \/ live now o = o.
Proof. destruct o as [w|]; [|by left]. unfold live. cbn. destruct (expired now w); auto. Qed.

Ltac zcases :=
  repeat match goal with
  | H : context [Z.leb ?a ?b] |- _ => destruct (Z.leb_spec a b)
  | H : context [Z.ltb ?a ?b] |- _ => destruct (Z.ltb_spec a b)
  | |- context [Z.leb ?a ?b] => destruct (Z.leb_spec a b)
  | |- context [Z.ltb ?a ?b] => destruct (Z.ltb_spec a b)
  end; cbn in *; try lia.

(** The latest time read so far is [c]; the next may be up to [wait] behind. *)
Section Waiting.
Context (wait : Z) (Hwait : 0 <= wait < loginAttemptPeriod) (Hlimit : 1 <= limit).

Lemma sound_step c m now address ok d m' :
  sound c m -> step m now address = (ok, d, m') -> sound (Z.max c now) m'.
Proof.
  intros [Hm Hsz] H. apply allow_moved in H as [[Ho Hk] Hs]; [|done]. split; [|auto].
  assert (Hold : forall k w, m !! k = Some w -> sound_window (Z.max c now) w).
  { intros k w Hw. destruct (Hm k w Hw) as [? ?]. split; [lia|done]. }
  assert (Hlive : forall k w, live now (m !! k) = Some w -> sound_window (Z.max c now) w).
  { intros k w Hw. apply (Hold k). destruct (live_cases now (m !! k)) as [E|E]; congruence. }
  intros k w Hw. destruct (decide (k = ip address)) as [->|Hne].
  - destruct ok; [|apply (Hlive (ip address)); congruence].
    destruct (live now (m !! ip address)) as [v|] eqn:E.
    + destruct Hk as [Hlt Hk]. rewrite Hk in Hw. injection Hw as <-. destruct (Hlive _ _ E) as [? ?]. split; cbn; lia.
    + rewrite Hk in Hw. injection Hw as <-. split; cbn; lia.
  - destruct (Ho k Hne) as [E|E]; rewrite E in Hw; eauto.
Qed.

(** ** Attempts in a minute *)

(** Windows of one address begin [spacing] apart at least; those that can hold
    an attempt of the minute from [t] begin within [reach]; [windows t a] is
    how many of them can begin at [a] or later. *)
Definition spacing : Z := loginAttemptPeriod - wait.
Definition reach (t : Z) : Z := t + loginAttemptPeriod + wait.
Definition windows (t a : Z) : Z :=
  Z.max 0 ((reach t - Z.max a (t - loginAttemptPeriod + 1) + spacing - 1) / spacing).

Lemma windows_mono t a b : a <= b -> windows t b <= windows t a.
Proof.
  intros H. unfold windows. apply Z.max_le_compat_l, Z.div_le_mono; unfold spacing in *; lia.
Qed.
Lemma windows_next t a : t - loginAttemptPeriod < a -> a < reach t -> 1 + windows t (a + spacing) <= windows t a.
Proof.
  intros H1 H2. unfold windows. rewrite (Z.max_l a), (Z.max_l (a + spacing)) by (unfold spacing; lia).
  replace (reach t - a + spacing - 1) with (reach t - (a + spacing) + spacing - 1 + 1 * spacing) by ring.
  rewrite Z.div_add by (unfold spacing; lia).
  assert (0 <= (reach t - (a + spacing) + spacing - 1) / spacing) by (apply Z.div_pos; unfold spacing in *; lia). lia.
Qed.
Lemma windows_le t a k : 2 * loginAttemptPeriod + wait <= k * spacing -> windows t a <= k.
Proof.
  intros Hk. unfold windows. assert (0 < spacing) as Hs by (unfold spacing; lia). assert (0 <= k) by (unfold loginAttemptPeriod, minute, second in *; nia).
  apply Z.max_lub; [done|]. apply Z.lt_succ_r, Z.div_lt_upper_bound; [done|]. unfold reach. nia.
Qed.

(** How many attempts of an address with this window can still be allowed in the
    minute from [t], when [c] is the latest time read. *)
Definition left (t c : Z) (o : option loginAttemptWindow) : Z :=
  match o with
  | None => limit * windows t (c - wait)
  | Some w =>
      (if (t - loginAttemptPeriod <? aw_startedAt w) && (aw_startedAt w <? reach t) then limit - aw_count w else 0)
      + limit * windows t (Z.max (aw_startedAt w + loginAttemptPeriod) c - wait)
  end.
(** Compares the numbers of windows from [a] and from [b]. *)
Ltac fewer t a b := let H := fresh "Hw" in assert (windows t b <= windows t a) as H by (apply windows_mono; unfold spacing; lia).

Lemma left_kept t c now o : (forall w, o = Some w -> sound_window c w) -> left t (Z.max c now) o <= left t c o.
Proof.
  intros _. unfold left. destruct o as [w|].
  - fewer t (Z.max (aw_startedAt w + loginAttemptPeriod) c - wait) (Z.max (aw_startedAt w + loginAttemptPeriod) (Z.max c now) - wait). nia.
  - fewer t (c - wait) (Z.max c now - wait). nia.
Qed.
Lemma left_later t c now o o' :
  c <= now + wait -> (forall w, o = Some w -> sound_window c w) -> o' = o \/ o' = live now o -> left t (Z.max c now) o' <= left t c o.
Proof.
  intros Hc Hw Ho. destruct Ho as [-> | ->]; [by apply left_kept|].
  destruct o as [w|]; [|by apply left_kept]. destruct (Hw w eq_refl) as [Hs Hn].
  unfold live. cbn [mbind option_bind]. destruct (expired now w) eqn:E; [|by apply left_kept].
  apply expired_spec in E; [|lia]. unfold left.
  fewer t (Z.max (aw_startedAt w + loginAttemptPeriod) c - wait) (Z.max c now - wait). case_match; nia.
Qed.

(** Whether a call counts. *)
Definition counts (key : string) (t : Z) (call : Z * string) : bool :=
  (ip call.2 == key) && (t <=? call.1) && (call.1 <? t + loginAttemptPeriod).
Definition counted (t now : Z) : Z := if (t <=? now) && (now <? t + loginAttemptPeriod) then 1 else 0.

(** A new window pays for the attempt that opens it. *)
Lemma left_opened t c now a :
  c <= now + wait -> a <= now ->
  left t (Z.max c now) (Some (AttemptWindow now 1)) + counted t now <= limit * windows t a.
Proof.
  intros Hc Ha. unfold left, counted. cbn [aw_startedAt aw_count].
  fewer t a now. fewer t (now + spacing) (Z.max (now + loginAttemptPeriod) (Z.max c now) - wait). fewer t now (now + spacing).
  pose proof (windows_next t now). unfold reach in *. zcases; nia.
Qed.
Lemma left_added t c now w :
  c <= now + wait -> sound_window c w -> expired now w = false ->
  left t (Z.max c now) (Some (AttemptWindow (aw_startedAt w) (aw_count w + 1))) + counted t now <= left t c (Some w).
Proof.
  intros Hc [Hs Hn] E. apply expired_false in E; [|lia]. unfold left, counted. cbn [aw_startedAt aw_count].
  fewer t (Z.max (aw_startedAt w + loginAttemptPeriod) c - wait) (Z.max (aw_startedAt w + loginAttemptPeriod) (Z.max c now) - wait).
  unfold reach in *. zcases; nia.
Qed.

Lemma left_step key t c m now address ok d m' :
  sound c m -> c <= now + wait -> step m now address = (ok, d, m') ->
  left t (Z.max c now) (m' !! key) + (if ok && counts key t (now, address) then 1 else 0) <= left t c (m !! key).
Proof.
  intros [Hm _] Hc H. apply allow_moved in H as [[Ho Hk] _]; [|done].
  assert (Hw : forall w, m !! key = Some w -> sound_window c w) by (intros w; apply Hm).
  unfold counts. cbn [fst snd]. destruct (String.eqb_spec (ip address) key) as [<-|Hne]; cbn [andb].
  - destruct ok; [|rewrite Z.add_0_r; apply left_later; auto]. cbn [andb]. fold (counted t now).
    destruct (m !! ip address) as [w|].
    + pose proof (Hw w eq_refl) as [Hs Hn]. unfold live in Hk. cbn [mbind option_bind] in Hk. destruct (expired now w) eqn:E.
      * apply expired_spec in E; [|lia]. rewrite Hk.
        etrans; [apply (left_opened t c now (Z.max (aw_startedAt w + loginAttemptPeriod) c - wait)); lia|]. unfold left. case_match; lia.
      * destruct Hk as [Hlt ->]. by apply left_added.
    + cbn in Hk. rewrite Hk. apply left_opened; lia.
  - rewrite andb_false_r, Z.add_0_r. apply left_later; auto.
Qed.

(** The times read in the order of the mutex: none is more than [wait] behind
    one read by an earlier call; [c] is the latest so far. *)
Fixpoint nearly_chronological (c : Z) (calls : list (Z * string)) : Prop :=
  match calls with
  | [] => True
  | (now, _) :: rest => c <= now + wait /\ nearly_chronological (Z.max c now) rest
  end.

Lemma allows_left key t calls : forall c m,
  sound c m -> nearly_chronological c calls ->
  Z.of_nat (length (filter (fun call => counts key t call = true) (allows canonical_ip limit m calls).1)) <= left t c (m !! key).
Proof.
  induction calls as [|[now address] rest IH]; intros c m Hm Hc.
  - cbn. destruct Hm as [Hm _]. unfold left. destruct (m !! key) as [w|] eqn:E; [destruct (Hm _ _ E)|].
    + assert (0 <= windows t (Z.max (aw_startedAt w + loginAttemptPeriod) c - wait)) by (unfold windows; lia). case_match; nia.
    + assert (0 <= windows t (c - wait)) by (unfold windows; lia). nia.
  - destruct Hc as [Hc Hrest]. cbn. destruct (step m now address) as [[ok d] m1] eqn:E.
    pose proof (left_step key t _ _ _ _ _ _ _ Hm Hc E) as Hstep. pose proof (sound_step _ _ _ _ _ _ _ Hm E) as Hm1.
    pose proof (IH _ m1 Hm1 Hrest) as Hcount. destruct (allows canonical_ip limit m1 rest) as [oks m2]. cbn in *.
    destruct ok; cbn [andb] in Hstep; [|lia]. rewrite filter_cons.
    destruct (counts key t (now, address)); case_decide; cbn; try done; lia.
Qed.
End Waiting.

Lemma allows_size calls : forall m, 1 <= limit -> (size m <= loginAdmissionMaxIPs)%nat ->
  (size (allows canonical_ip limit m calls).2 <= loginAdmissionMaxIPs)%nat.
Proof.
  induction calls as [|[now address] rest IH]; intros m Hl Hm; [done|]. cbn.
  destruct (step m now address) as [[ok d] m1] eqn:E. apply allow_moved in E as [_ E]; [|done].
  specialize (IH m1 Hl (E Hm)). by destruct (allows canonical_ip limit m1 rest).
Qed.

Lemma sound_empty c : sound c ∅.
Proof. split; [apply map_Forall_empty|]. rewrite map_size_empty. lia. Qed.

(** ** Waiting *)

Lemma evict_all now m : (forall k, live now (m !! k) = None) -> evictExpired now m = ∅.
Proof. intros H. apply map_empty. intros k. by rewrite evict_lookup. Qed.

(** A refusal says how long the window, or every window, still lasts. *)
Lemma refused_delay m now address d m' :
  sound now m -> step m now address = (false, d, m') ->
  (exists w, m' !! ip address = Some w /\ d = aw_startedAt w + loginAttemptPeriod - now /\ now < aw_startedAt w + loginAttemptPeriod) \/
  (m' !! ip address = None /\ d = loginAttemptPeriod).
Proof.
  intros [Hm _] H. unfold allow in H. revert H. set (key := ip address).
  set (m1 := match m !! key with Some _ => _ | None => _ end).
  assert (Hm1 : m1 !! key = live now (m !! key)).
  { unfold m1, live. destruct (m !! key) as [w|] eqn:E; cbn; [|by rewrite E]. destruct (expired now w); [|by rewrite E].
    by rewrite lookup_delete_eq. }
  clearbody m1. rewrite Hm1. destruct (live now (m !! key)) as [w|] eqn:El.
  - destruct (limit <=? aw_count w); intros [= <- <-]. left. exists w. split; [done|].
    unfold live in El. destruct (m !! key) as [v|] eqn:E; [|done]. cbn in El. destruct (expired now v) eqn:Ex; [done|].
    injection El as ->. destruct (Hm _ _ E) as [Hs _]. apply expired_false in Ex; [|unfold loginAttemptPeriod, minute, second; lia].
    split; [|done]. unfold Sub, max_int64, loginAttemptPeriod, minute, second in *. lia.
  - set (m2 := if _ : bool then evictExpired now m1 else m1).
    assert (Hm2 : m2 !! key = None).
    { unfold m2. destruct (loginAdmissionMaxIPs <=? size m1)%nat; [by rewrite evict_lookup, Hm1|done]. }
    destruct (loginAdmissionMaxIPs <=? size m2)%nat; intros [= <- <-]. right. by split.
Qed.

(** When its window is over, or all are, an address is admitted. *)
Lemma admitted_after m now address :
  (size m <= loginAdmissionMaxIPs)%nat -> live now (m !! ip address) = None ->
  is_Some (m !! ip address) \/ (forall k, live now (m !! k) = None) ->
  exists m', step m now address = (true, 0, m').
Proof.
  intros Hsz Hlive Hw. unfold allow. set (key := ip address) in *. destruct (m !! key) as [w|] eqn:E.
  - unfold live in Hlive. cbn in Hlive. destruct (expired now w); [|done]. rewrite lookup_delete_eq.
    assert (Hlt : (size (delete key m) < loginAdmissionMaxIPs)%nat).
    { rewrite map_size_delete, E. cbn. assert (size m <> 0%nat) by (apply map_size_ne_0_lookup; eauto). lia. }
    apply Nat.leb_gt in Hlt. rewrite Hlt, Hlt. by eexists.
  - destruct Hw as [[w Hw]|Hw]; [done|]. rewrite E. destruct (loginAdmissionMaxIPs <=? size m)%nat eqn:Ef.
    + rewrite (evict_all _ _ Hw), map_size_empty. by eexists.
    + rewrite Ef. by eexists.
Qed.

Lemma retryAfterSeconds_covers d : 0 < d <= loginAttemptPeriod -> d <= retryAfterSeconds d * second /\ 1 <= retryAfterSeconds d <= 60.
Proof.
  unfold retryAfterSeconds, loginAttemptPeriod, minute. cbv zeta. intros Hd. assert (second = 1000000000) as Hs by done.
  pose proof (Z.quot_rem d second ltac:(lia)) as Hq. pose proof (Z.rem_bound_pos d second ltac:(lia) ltac:(lia)) as Hr.
  destruct (Z.eqb_spec (Z.rem d second) 0); zcases; nia.
Qed.
End Admission.

(** C36: calls hold the mutex one after the other, each with the time it had
    read before it waited for it; say that no call carries a time more than
    [wait], less than a minute, behind the time of an earlier one, and that
    [k (minute - wait)] covers two minutes and [wait].  Then, whatever the other
    clients do, no address gets more than [k] times the limit of attempts
    through in any minute: twice the limit when the times come in order, three
    times when they are up to 15 seconds late.  In whatever order the times come,
    the table of addresses never holds more than 10,000. *)
Theorem login_attempts_bounded canonical_ip limit calls t key :
  let '(allowed, attempts) := allows canonical_ip (admission_limit limit) ∅ calls in
  (forall wait k c, 0 <= wait < minute -> 2 * minute + wait <= k * (minute - wait) -> nearly_chronological wait c calls ->
    Z.of_nat (length (filter (fun call => counts canonical_ip key t call = true) allowed)) <= k * admission_limit limit) /\
  (size attempts <= loginAdmissionMaxIPs)%nat.
Proof.
  assert (Hl : 1 <= admission_limit limit).
  { unfold admission_limit, defaultLoginAttemptLimit. destruct (Z.ltb_spec limit 1); lia. }
  pose proof (allows_size canonical_ip (admission_limit limit) calls ∅ Hl ltac:(rewrite map_size_empty; lia)) as Hs.
  pose proof (fun wait Hw c => allows_left canonical_ip (admission_limit limit) wait Hw Hl key t calls c ∅ (sound_empty _ c)) as Hn.
  destruct (allows canonical_ip (admission_limit limit) ∅ calls) as [allowed attempts]. split; [|done].
  intros wait k c Hw Hk Hc. etrans; [by eapply (Hn wait)|]. unfold left. rewrite lookup_empty.
  pose proof (windows_le wait Hw t (c - wait) k Hk). nia.
Qed.

(** A refused client that waits the seconds of its Retry-After header, from 1
    to 60, is admitted, whatever the reason of the refusal, if it comes next
    (and if no window began after the time the refused call had read). *)
Theorem login_retry_after_honest canonical_ip limit m now address d m' now' address'
    (Hm : sound limit now m) (Hrefused : allow canonical_ip limit m now address = (false, d, m'))
    (Hlimit : 1 <= limit) (Hsame : loginClientIP canonical_ip address' = loginClientIP canonical_ip address)
    (Hwait : now + retryAfterSeconds d * second <= now') :
  1 <= retryAfterSeconds d <= 60 /\ exists m'', allow canonical_ip limit m' now' address' = (true, 0, m'').
Proof.
  pose proof (sound_step _ _ Hlimit _ _ _ _ _ _ _ Hm Hrefused) as [Hw Hsz]. rewrite Z.max_id in Hw.
  assert (Hgone : forall w, aw_startedAt w <= now -> aw_startedAt w + loginAttemptPeriod <= now' -> live now' (Some w) = None).
  { intros w Hs He. unfold live. cbn. rewrite (proj2 (expired_spec now' w ltac:(unfold loginAttemptPeriod, minute, second in *; lia))); done. }
  destruct (refused_delay _ _ _ _ _ _ _ Hm Hrefused) as [(w & Hk & -> & Hlt)|[Hk ->]].
  - destruct (Hw _ _ Hk) as [Hs _]. destruct (retryAfterSeconds_covers (aw_startedAt w + loginAttemptPeriod - now)) as [Hd Hr]; [lia|].
    split; [done|]. apply admitted_after; rewrite ?Hsame, ?Hk; [done|apply Hgone; lia|left; by eexists].
  - destruct (retryAfterSeconds_covers loginAttemptPeriod) as [Hd Hr]; [by split|]. split; [done|].
    apply admitted_after; rewrite ?Hsame, ?Hk; [done|done|right]. intros k.
    destruct (m' !! k) as [w|] eqn:E; [|done]. destruct (Hw _ _ E) as [Hs _]. apply Hgone; lia.
Qed.

Definition toy_ip (host : string) : option string := if host == "" then None else Some host.
Definition millisecond : Z := 1000000.
Definition from_one (ms : list Z) : list (Z * string) := List.map (fun t => (t * millisecond, "10.0.0.1:443")) ms.
Definition toy_calls : list (Z * string) := from_one [0; 1000; 2000; 3000; 4000; 5000; 61000; 62000].
Example toy_allowed :
  (allows toy_ip 5 ∅ toy_calls).1 = from_one [0; 1000; 2000; 3000; 4000; 61000; 62000] /\ nearly_chronological 0 0 toy_calls.
Proof. split; [by vm_compute|]. unfold toy_calls, from_one, millisecond. cbn. lia. Qed.

(** Times out of order by 20 ms: the window of the second 60 is replaced at the
    second 120, by a call that got the mutex before four that had read the clock
    earlier. *)
Definition late_calls : list (Z * string) :=
  from_one ([0; 59990; 59990; 59990; 59990; 60000; 60000; 60000; 60000; 60000] ++ [120000; 119980; 119980; 119980; 119980]).
Definition in_minute (ms : Z) (calls : list (Z * string)) : Z :=
  Z.of_nat (length (filter (fun call => counts toy_ip "10.0.0.1" (ms * millisecond) call = true) calls)).
(** With a limit of 5, 13 attempts are allowed in one minute. *)
Example two_limits_exceeded :
  (allows toy_ip 5 ∅ late_calls).1 = late_calls /\ in_minute 59990 (allows toy_ip 5 ∅ late_calls).1 = 13.
Proof. split; by vm_compute. Qed.

Lemma late_nearly : nearly_chronological 20000000 0 late_calls.
Proof. unfold late_calls, from_one, millisecond. cbn. lia. Qed.
Lemma login_attempts_bounded_witness :
  in_minute 59990 (allows toy_ip 5 ∅ late_calls).1 <= 15 /\ (size (allows toy_ip 5 ∅ late_calls).2 <= loginAdmissionMaxIPs)%nat.
Proof.
  pose proof (login_attempts_bounded toy_ip 0 late_calls (59990 * millisecond) "10.0.0.1") as H.
  change (admission_limit 0) with 5 in H. unfold in_minute. destruct (allows toy_ip 5 ∅ late_calls) as [oks left]. destruct H as [H1 H2].
  split; [|exact H2]. apply (H1 20000000 3 0); [unfold minute, second; lia|unfold minute, second; lia|exact late_nearly].
Defined.

Definition toy_table : attempts_map := {[ "10.0.0.1" := AttemptWindow (10 * second) 5 ]}.
Lemma toy_sound : sound 5 (12 * second) toy_table.
Proof.
  split; [|by vm_compute; lia]. apply map_Forall_singleton. unfold sound_window, second. cbn. lia.
Qed.
Lemma login_retry_after_honest_witness :
  1 <= retryAfterSeconds (58 * second) <= 60 /\
  exists m, allow toy_ip 5 toy_table (70 * second) "10.0.0.1:99" = (true, 0, m).
Proof.
  apply (login_retry_after_honest toy_ip 5 toy_table (12 * second) "10.0.0.1:443" (58 * second) toy_table (70 * second)
    "10.0.0.1:99" toy_sound); [by vm_compute|lia|reflexivity|by vm_compute].
Defined.
