(* ===== verification/Cookies.v ===== *)
(** * Cookies: the refresh cookie on the wire

    [http.SetCookie] and [Request.Cookie] of [net/http], as
    [internal/server/auth.go] uses them, and [setRefreshCookie] and
    [clearRefreshCookie].  The Cookie header of a request is its lines joined by
    a semicolon, which is how they are read. *)

From stdpp Require Import pretty.
From S2P Require Import Prelude Text Base64 Json Http World TimeText LoginAdmission.
Open Scope string_scope.
Open Scope list_scope.
Open Scope Z_scope.

(** ** Times in headers *)

Definition weekday (days : Z) : string :=
  nth (Z.to_nat ((days + 4) mod 7)) ["Sun"; "Mon"; "Tue"; "Wed"; "Thu"; "Fri"; "Sat"] "".
Definition month_name (m : Z) : string :=
  nth (Z.to_nat (m - 1)) ["Jan"; "Feb"; "Mar"; "Apr"; "May"; "Jun"; "Jul"; "Aug"; "Sep"; "Oct"; "Nov"; "Dec"] "".
(** [http.TimeFormat] in UTC. *)
Definition http_time (t : Z) : string :=
  let '(y, m, d) := civil_of_days (t / day) in
  let s := t mod day / second in
  weekday (t / day) +:+ ", " +:+ pad 2 d +:+ " " +:+ month_name m +:+ " " +:+ pad 4 y +:+ " " +:+
  pad 2 (s / 3600) +:+ ":" +:+ pad 2 (s mod 3600 / 60) +:+ ":" +:+ pad 2 (s mod 60) +:+ " GMT".

Example http_times : List.map http_time [second; 1709210096 * second + 7] =
  ["Thu, 01 Jan 1970 00:00:01 GMT"; "Thu, 29 Feb 2024 12:34:56 GMT"].
Proof. by vm_compute. Qed.

(** ** Writing a cookie *)

Record cookie := MkCookie {
  ck_Name : string; ck_Value : string; ck_Path : string; ck_Expires : Z; ck_MaxAge : Z;
  ck_Secure : bool; ck_HttpOnly : bool; ck_Strict : bool
}.

(** [validCookieValueByte] and [sanitizeCookieValue]. *)
Definition cookie_byte (c : N) : bool := (32 <=? c)%N && (c <? 127)%N && negb ((c =? 34) || (c =? 59) || (c =? 92))%N.
Definition sanitize_value (v : string) : string :=
  let kept := List.filter cookie_byte (bytes_of v) in
  if existsb (fun c => (c =? 32) || (c =? 44))%N kept then quote +:+ of_bytes kept +:+ quote else of_bytes kept.
Definition path_byte (c : N) : bool := (32 <=? c)%N && (c <? 127)%N && negb (c =? 59)%N.

(** [Cookie.String] of a cookie whose name is a token. *)
Definition cookie_string (c : cookie) : string :=
  ck_Name c +:+ "=" +:+ sanitize_value (ck_Value c) +:+
  (if ck_Path c == "" then "" else "; Path=" +:+ of_bytes (List.filter path_byte (bytes_of (ck_Path c)))) +:+
  (if 1601 <=? (civil_of_days (ck_Expires c / day)).1.1 then "; Expires=" +:+ http_time (ck_Expires c) else "") +:+
  (if 0 <? ck_MaxAge c then "; Max-Age=" +:+ pretty (ck_MaxAge c) else if ck_MaxAge c <? 0 then "; Max-Age=0" else "") +:+
  (if ck_HttpOnly c then "; HttpOnly" else "") +:+ (if ck_Secure c then "; Secure" else "") +:+
  (if ck_Strict c then "; SameSite=Strict" else "").

(** ** Reading a cookie *)

Definition ascii_space (c : Ascii.ascii) : bool :=
  let n := Ascii.N_of_ascii c in ((n =? 32) || (n =? 9) || (n =? 10) || (n =? 13))%N.
Fixpoint drop_spaces (l : list Ascii.ascii) : list Ascii.ascii :=
  match l with c :: rest => if ascii_space c then drop_spaces rest else l | [] => [] end.
(** [textproto.TrimString]. *)
Definition TrimString (s : string) : string :=
  String.string_of_list_ascii (rev (drop_spaces (rev (drop_spaces (String.list_ascii_of_string s))))).

Definition semicolon : Ascii.ascii := chr 59.
Definition equals : Ascii.ascii := chr 61.
(** [parseCookieValue], quotes allowed. *)
Definition cookie_value (raw : string) : option string :=
  let l := bytes_of raw in
  let l := match l, rev l with
           | first :: (_ :: _ as rest), last :: _ => if ((first =? 34) && (last =? 34))%N then removelast rest else l
           | _, _ => l
           end in
  if forallb cookie_byte l then Some (of_bytes l) else None.
(** A part of the header, as a cookie with the name; the name is a token. *)
Definition read_part (name part : string) : option string :=
  let '(key, value) := default (part, "") (cut equals part) in
  if TrimString key == name then cookie_value value else None.
Definition cookieMaxNum : nat := Z.to_nat 3000.
(** [Request.Cookie]: the value of the first cookie with the name. *)
Definition Cookie (r : Request) (name : string) : option string :=
  let parts := split semicolon (header r "Cookie") in
  if (cookieMaxNum <? length parts)%nat then None
  else head (omap (fun part => read_part name (TrimString part)) parts).

(** ** The refresh cookie (auth.go) *)

Definition RefreshCookieName : string := "__Host-card-issuer-refresh".
(** [int(d.Seconds())], exact below 2^24 seconds, which a session's seven days are. *)
Definition whole_seconds (d : Z) : Z := Z.quot d second.
Definition refresh_cookie (token : string) (expiresAt now : Z) : cookie :=
  MkCookie RefreshCookieName token "/" expiresAt (whole_seconds (Sub expiresAt now)) true true true.
Definition cleared_cookie : cookie := MkCookie RefreshCookieName "" "/" second (-1) true true true.
Definition set_cookie (c : cookie) : string * string := ("Set-Cookie", cookie_string c).

Definition setRefreshCookie (token : string) (expiresAt : Z) : M (string * string) :=
  now ← time_now; mret (set_cookie (refresh_cookie token expiresAt now)).
Definition clearRefreshCookie : string * string := set_cookie cleared_cookie.

Example cleared : cookie_string cleared_cookie =
  "__Host-card-issuer-refresh=; Path=/; Expires=Thu, 01 Jan 1970 00:00:01 GMT; Max-Age=0; HttpOnly; Secure; SameSite=Strict".
Proof. by vm_compute. Qed.

(** ** A cookie sent back *)

(** Letters, digits, hyphen and underscore. *)
Definition token_safe (c : Ascii.ascii) : bool :=
  let n := Ascii.N_of_ascii c in
  ((97 <=? n) && (n <=? 122) || (65 <=? n) && (n <=? 90) || (48 <=? n) && (n <=? 57) || (n =? 45) || (n =? 95))%N.
Definition safe_token (token : string) : Prop := Forall (fun c => token_safe c = true) (String.list_ascii_of_string token).
Lemma encoded_safe s : safe_token (RawEncode URLAlphabet s).
Proof. apply (encode_all 45 95); by vm_compute. Qed.

Lemma safe_byte c : token_safe c = true -> let n := Ascii.N_of_ascii c in
  cookie_byte n = true /\ ((n =? 32) || (n =? 44))%N = false /\ (n =? 34)%N = false /\ ascii_space c = false /\
  Ascii.eqb c semicolon = false.
Proof. destruct c as [[] [] [] [] [] [] [] []]; vm_compute; intros H; try discriminate H; repeat split. Qed.
Ltac by_safe H := apply (Forall_impl _ _ _ H); intros c Hc; destruct (safe_byte c Hc) as (? & ? & ? & ? & ?); done.

Lemma safe_bytes token : safe_token token ->
  Forall (fun n => cookie_byte n = true /\ ((n =? 32) || (n =? 44))%N = false /\ (n =? 34)%N = false) (bytes_of token).
Proof. intros H. unfold bytes_of. apply Forall_fmap. apply (Forall_impl _ _ _ H). intros c Hc. destruct (safe_byte c Hc) as (? & ? & ? & _). done. Qed.
Lemma existsb_none {A} (p : A -> bool) l : Forall (fun x => p x = false) l -> existsb p l = false.
Proof. induction 1 as [|x l Hx _ IH]; [done|]. cbn. by rewrite Hx. Qed.
Lemma forallb_all {A} (p : A -> bool) l : Forall (fun x => p x = true) l -> forallb p l = true.
Proof. induction 1 as [|x l Hx _ IH]; [done|]. cbn. by rewrite Hx. Qed.
Lemma filter_true {A} (p : A -> bool) l : Forall (fun x => p x = true) l -> List.filter p l = l.
Proof. induction 1 as [|x l Hx _ IH]; [done|]. cbn. by rewrite Hx, IH. Qed.

Lemma sanitize_safe token : safe_token token -> sanitize_value token = token.
Proof.
  intros H%safe_bytes. unfold sanitize_value. rewrite filter_true by (eapply Forall_impl; [exact H|by intros ? (? & _)]).
  rewrite existsb_none by (eapply Forall_impl; [exact H|by intros ? (_ & ? & _)]). apply of_bytes_of.
Qed.
Lemma cookie_value_safe token : safe_token token -> cookie_value token = Some token.
Proof.
  intros H%safe_bytes. unfold cookie_value. cbv zeta.
  assert (Hok : forallb cookie_byte (bytes_of token) = true) by (apply forallb_all; eapply Forall_impl; [exact H|by intros ? (? & _)]).
  destruct (bytes_of token) as [|x [|y l]] eqn:E; [|destruct (rev [x])|apply Forall_cons in H as [(_ & _ & Hx) _]; destruct (rev (x :: y :: l)); rewrite ?Hx; cbn [andb]];
    rewrite Hok, <- E; by rewrite of_bytes_of.
Qed.

(** The pair of a cookie among others, which are not of its name before it. *)
Definition sends_back (r : Request) (name value : string) : Prop := exists before after,
  header r "Cookie" = String.concat "; " (before ++ (name +:+ "=" +:+ value) :: after) /\
  (length before + length after < cookieMaxNum)%nat /\
  Forall (fun p => free_of semicolon p /\ read_part name (TrimString p) = None) before /\ Forall (free_of semicolon) after.

Lemma concat_parts p l : Forall (free_of semicolon) (p :: l) ->
  split semicolon (String.concat "; " (p :: l)) = p :: List.map (String.append " ") l.
Proof.
  revert p. induction l as [|q l IH]; intros p [Hp Hl]%Forall_cons; [by rewrite split_free|].
  cbn [String.concat]. change ("; " +:+ ?x) with (String semicolon (" " +:+ x)). rewrite split_app by done. f_equal.
  specialize (IH q Hl). assert (Hq : free_of semicolon (" " +:+ q)).
  { unfold free_of. cbn. constructor; [done|]. by apply Forall_cons in Hl as [? _]. }
  destruct l as [|q' l].
  - cbn [String.concat List.map]. by rewrite split_free.
  - cbn [String.concat List.map] in *. change ("; " +:+ ?x) with (String semicolon (" " +:+ x)) in *.
    rewrite split_app in IH by (by apply Forall_cons in Hl as [? _]). injection IH as IH.
    rewrite <- append_assoc. rewrite split_app by done. by rewrite IH.
Qed.
Lemma TrimString_space p : TrimString (" " +:+ p) = TrimString p.
Proof. unfold TrimString. rewrite string_app_list. reflexivity. Qed.

Lemma drop_spaces_none c l : ascii_space c = false -> drop_spaces (c :: l) = c :: l.
Proof. intros H. cbn. by rewrite H. Qed.
Lemma TrimString_clean s : Forall (fun c => ascii_space c = false) (String.list_ascii_of_string s) -> TrimString s = s.
Proof.
  intros H. unfold TrimString. assert (Hd : forall l, Forall (fun c => ascii_space c = false) l -> drop_spaces l = l).
  { intros l Hl. destruct Hl as [|c l Hc _]; [done|by apply drop_spaces_none]. }
  rewrite (Hd _ H), (Hd (rev _)) by by apply Forall_rev. by rewrite rev_involutive, String.string_of_list_ascii_of_string.
Qed.
Lemma cut_refresh token : cut equals (RefreshCookieName +:+ "=" +:+ token) = Some (RefreshCookieName, token).
Proof. unfold cut. rewrite string_app_list. cbn. change ("=" +:+ token) with (String equals token). cbn. by rewrite String.string_of_list_ascii_of_string. Qed.
Lemma read_refresh token : safe_token token ->
  read_part RefreshCookieName (TrimString (RefreshCookieName +:+ "=" +:+ token)) = Some token.
Proof.
  intros H. rewrite TrimString_clean.
  - unfold read_part. rewrite cut_refresh. change (cookie_value token = Some token). by apply cookie_value_safe.
  - rewrite string_app_list. apply Forall_app. split; [by repeat constructor|]. cbn [String.append String.list_ascii_of_string].
    constructor; [done|]. by_safe H.
Qed.

Lemma head_omap_skip {A B} (f : A -> option B) l rest : Forall (fun p => f p = None) l -> head (omap f (l ++ rest)) = head (omap f rest).
Proof. induction 1 as [|p l Hp _ IH]; [done|]. cbn. rewrite Hp. apply IH. Qed.
Lemma head_omap_hit {A B} (f : A -> option B) p b l : f p = Some b -> head (omap f (p :: l)) = Some b.
Proof. intros Hp. cbn. by rewrite Hp. Qed.

(** The refresh cookie sent back is read as the token it was set to. *)
Lemma refresh_cookie_read r token : safe_token token -> sends_back r RefreshCookieName token -> Cookie r RefreshCookieName = Some token.
Proof.
  intros Hs (before & after & Hh & Hn & Hb & Ha). unfold Cookie. rewrite Hh.
  set (pair := RefreshCookieName +:+ "=" +:+ token) in *.
  assert (Hpair : free_of semicolon pair).
  { unfold free_of, pair. rewrite string_app_list. apply Forall_app. split; [by repeat constructor|]. constructor; [done|]. by_safe Hs. }
  assert (Hf : Forall (free_of semicolon) (before ++ pair :: after)).
  { apply Forall_app. split; [|by constructor]. eapply Forall_impl; [exact Hb|by intros ? [? _]]. }
  set (f := fun part => read_part RefreshCookieName (TrimString part)).
  assert (Hfp : f pair = Some token) by by apply read_refresh.
  clearbody pair.
  assert (Hspaced : Forall (fun p => f p = None) (List.map (String.append " ") before)).
  { apply Forall_map. eapply Forall_impl; [exact Hb|]. intros p [_ Hp]. exact Hp. }
  assert (Hlong : forall l : list string, (length l <= cookieMaxNum)%nat -> (cookieMaxNum <? length l)%nat = false) by by intros l ?%Nat.ltb_ge.
  destruct before as [|p before]; cbn [app] in *; rewrite concat_parts by done; rewrite Hlong.
  - by apply (head_omap_hit f).
  - cbn in *. rewrite List.length_map. lia.
  - rewrite List.map_app. apply Forall_cons in Hb as [[_ Hp] _]. apply Forall_cons in Hspaced as [_ Hspaced].
    etrans; [apply (head_omap_skip f (p :: List.map _ before)); by constructor|]. by apply (head_omap_hit f).
  - cbn [length] in *. rewrite List.length_map, List.length_app. cbn [length]. lia.
Qed.
