(* ===== verification/ResourceHandlers.v ===== *)
(** * ResourceHandlers: routing, authorization and requests of the API

    [resourceHandler] of [internal/server]: [resource.go], [bank_handler.go],
    [catalog_handler.go], [card_handler.go], [batch.go] and [staff_handler.go].
    The services are the interfaces of [Dependencies], a class each; [Api] gives
    them the services of this development.  [ServeHTTP] is the whole handler, a
    request to a reply in the monad of effects. *)

From S2P Require Import Prelude Text Json JsonText Http Uuid World AuthTypes Requests Pagination.
Open Scope string_scope.
Open Scope list_scope.
Open Scope Z_scope.

(** ** The interfaces (resource.go) *)

Class BankService := {
  svc_ListBanks : M (list json);
  svc_GetBank : string -> M json;
  svc_ProvisionBankWorkflow (principal : Principal) (key body reference name requestID : string) : M (Z * json);
  svc_PatchBankWorkflow (principal : Principal) (id key body : string) (name status : option string) (requestID : string) : M (Z * json)
}.
Class BankAccess := { svc_CanReadBank : Principal -> string -> M bool }.
Class CatalogService := {
  svc_ListReference (bank kind : string) : M (list json);
  svc_GetReference (bank kind id : string) : M json;
  svc_CreateCardProductWorkflow (principal : Principal) (bank key body productCode name status : string)
    (configuration : json) (requestID : string) : M json;
  svc_CreateClientWorkflow (principal : Principal) (bank key body external : string) (display : option string)
    (requestID : string) : M json;
  svc_CreateAccountReferenceWorkflow (principal : Principal) (bank key body clientID external requestID : string) : M json;
  svc_PatchCardProductWorkflow (principal : Principal) (bank id key body : string) (name status : option string)
    (configuration : option json) (requestID : string) : M json;
  svc_PatchClientWorkflow (principal : Principal) (bank id key body : string) (display : option string) (requestID : string) : M json;
  svc_PatchAccountReferenceWorkflow (principal : Principal) (bank id key body clientID requestID : string) : M json
}.
Class CardService := {
  svc_ListCards (bank clientID accountID productID status : string) : M (list json);
  svc_GetCard (bank id : string) : M json;
  svc_ListCardOperations (bank id : string) : M (list json);
  svc_ListCardStatusHistory (bank id : string) : M (list json);
  svc_IssueCardWorkflow (principal : Principal) (bank key body clientID accountID productID reason requestID : string) : M json;
  svc_CardCommandWorkflow (principal : Principal) (bank id action key body reason requestID : string) : M (json * Z);
  svc_RetryExpiryWorkflow (principal : Principal) (bank runID itemID key body reason requestID : string) : M unit
}.
Class BatchService := {
  svc_ListCardStatusBatches (bank : string) : M (list json);
  svc_GetCardStatusBatch (bank id : string) : M json;
  svc_ListCardStatusBatchItems (bank id : string) : M (list json);
  svc_CreateCardStatusBatchWorkflow (principal : Principal) (bank key body targetStatus reason : string)
    (cardIDs : list string) (requestID : string) : M (json * Z);
  svc_ExecuteCardStatusBatchWorkflow (principal : Principal) (bank id key body requestID : string) : M json;
  svc_CancelCardStatusBatchWorkflow (principal : Principal) (bank id key body requestID : string) : M json;
  svc_RetryCardStatusBatchWorkflow (principal : Principal) (bank id key body requestID : string) : M json
}.
Class StaffService := {
  svc_ListUsers : M (list json);
  svc_GetUser (id : string) : M json;
  svc_CreateUserWorkflow (principal : Principal) (key body username password role entityID requestID : string) : M (Z * json);
  svc_UpdateUserWorkflow (principal : Principal) (id key body role entityID status requestID : string) : M (Z * json);
  svc_SetUserPasswordWorkflow (principal : Principal) (id key body password requestID : string) : M (Z * json)
}.
(** What the handlers use of [auth.API]. *)
Class Authentication := {
  svc_ValidateAccess : string -> M Claims;
  svc_ValidateNewPassword : string -> result unit
}.

(** ** Replies *)

Definition forbidden (r : Request) : Reply :=
  writeProblem r 403 "forbidden" "The authenticated user is not permitted to perform this operation.".
Definition invalid_request (r : Request) (detail : string) : Reply := writeProblem r 400 "invalid_request" detail.

(** [errors.As] finds the problem, or the database error, that a chain of
    wrapped errors ends in. *)
Definition writeWorkflowError (r : Request) (err : error) : Reply :=
  match error_cause err with
  | ErrProblem status code detail => writeProblem r status code detail
  | ErrDb (PgError state) =>
      if (state == "23505") || (state == "23503") || (state == "23514") || (state == "P0001")
      then writeProblem r 409 "conflict" "The request conflicts with the current resource state."
      else internal_error r
  | _ => internal_error r
  end.

(** The result of a workflow, or the response to its error. *)
Definition answer {A} (r : Request) (m : M A) (ok : A -> Reply) : M Reply :=
  x ← try m; mret (match x with inl err => writeWorkflowError r err | inr a => ok a end).
(** The same where any error is "not found". *)
Definition answer_found {A} (r : Request) (m : M A) (ok : A -> Reply) : M Reply :=
  x ← try m; mret (match x with inl _ => apiNotFound r | inr a => ok a end).
Definition with_key (r : Request) (k : string -> M Reply) : M Reply :=
  match IdempotencyKey r with inl refusal => mret refusal | inr key => k key end.

(** ** Roles *)

Definition role (claims : Claims) : string := sum_Role (claims_UserSummary claims).
Definition canRead (claims : Claims) : bool :=
  (role claims == "issuer_operator") || (role claims == "issuer_readonly") || (role claims == "bank_operator")
  || (role claims == "bank_readonly").
Definition canManageCardStatusBatches (claims : Claims) : bool :=
  (role claims == "issuer_operator") || (role claims == "bank_operator").
Definition server_validRole (r : string) : bool :=
  (r == "issuer_operator") || (r == "issuer_readonly") || (r == "bank_operator") || (r == "bank_readonly").
Definition stringValue (value : option string) : string := default "" value.
Definition blank (s : string) : bool := trim_space s == "".

(** [strings.TrimPrefix]. *)
Definition TrimPrefix (s p : string) : string :=
  if String.prefix p s then String.substring (String.length p) (String.length s - String.length p) s else s.
Definition slash : Ascii.ascii := chr 47.
Definition colon : Ascii.ascii := chr 58.
Definition contains_slash (s : string) : bool := existsb (fun c => Ascii.eqb c slash) (String.list_ascii_of_string s).

(** ** Request bodies

    The anonymous structs the handlers decode into, with their fields and what
    [json.Marshal] makes of them. *)

Record bank_request := BankRequest { br_BankReference : string; br_Name : string }.
Definition bank_request_fields : fields bank_request :=
  [("bank_reference", string_field (fun s i => BankRequest s (br_Name i)));
   ("name", string_field (fun s i => BankRequest (br_BankReference i) s))].
Definition bank_request_json (i : bank_request) : json :=
  JObj [("bank_reference", JStr (br_BankReference i)); ("name", JStr (br_Name i))].

Record bank_patch := BankPatch { bp_Name : option string; bp_Status : option string }.
Definition bank_patch_fields : fields bank_patch :=
  [("name", pointer_field (fun s i => BankPatch s (bp_Status i))); ("status", pointer_field (fun s i => BankPatch (bp_Name i) s))].
Definition bank_patch_json (i : bank_patch) : json := JObj [("name", JOptStr (bp_Name i)); ("status", JOptStr (bp_Status i))].

Record product_request := ProductRequest {
  pq_ProductCode : string; pq_Name : string; pq_Status : string; pq_Configuration : option jtext
}.
Definition product_request_fields : fields product_request :=
  [("product_code", string_field (fun s i => ProductRequest s (pq_Name i) (pq_Status i) (pq_Configuration i)));
   ("name", string_field (fun s i => ProductRequest (pq_ProductCode i) s (pq_Status i) (pq_Configuration i)));
   ("status", string_field (fun s i => ProductRequest (pq_ProductCode i) (pq_Name i) s (pq_Configuration i)));
   ("configuration", raw_field (fun t i => ProductRequest (pq_ProductCode i) (pq_Name i) (pq_Status i) t))].

Record client_request := ClientRequest { cq_External : string; cq_Display : option string }.
Definition client_request_fields : fields client_request :=
  [("external_client_ref", string_field (fun s i => ClientRequest s (cq_Display i)));
   ("display_name", pointer_field (fun s i => ClientRequest (cq_External i) s))].
Definition client_request_json (i : client_request) : json :=
  JObj [("external_client_ref", JStr (cq_External i)); ("display_name", JOptStr (cq_Display i))].

Record account_request := AccountRequest { aq_ClientID : string; aq_External : string }.
Definition account_request_fields : fields account_request :=
  [("client_id", string_field (fun s i => AccountRequest s (aq_External i)));
   ("external_account_ref", string_field (fun s i => AccountRequest (aq_ClientID i) s))].
Definition account_request_json (i : account_request) : json :=
  JObj [("client_id", JStr (aq_ClientID i)); ("external_account_ref", JStr (aq_External i))].

Record product_change := ProductChange { pc_Name : option string; pc_Status : option string; pc_Configuration : option jtext }.
Definition product_change_fields : fields product_change :=
  [("name", pointer_field (fun s i => ProductChange s (pc_Status i) (pc_Configuration i)));
   ("status", pointer_field (fun s i => ProductChange (pc_Name i) s (pc_Configuration i)));
   ("configuration", raw_field (fun t i => ProductChange (pc_Name i) (pc_Status i) t))].

(** One optional and one required member. *)
Definition display_fields : fields (option string) := [("display_name", pointer_field (fun s _ => s))].
Definition client_id_fields : fields string := [("client_id", string_field (fun s _ => s))].
Definition reason_fields : fields string := [("reason", string_field (fun s _ => s))].
Definition password_fields : fields string := [("new_password", string_field (fun s _ => s))].
Definition no_fields : fields unit := [].

Record issue_request := IssueRequest { iq_ClientID : string; iq_AccountID : string; iq_ProductID : string; iq_Reason : string }.
Definition issue_request_fields : fields issue_request :=
  [("client_id", string_field (fun s i => IssueRequest s (iq_AccountID i) (iq_ProductID i) (iq_Reason i)));
   ("account_reference_id", string_field (fun s i => IssueRequest (iq_ClientID i) s (iq_ProductID i) (iq_Reason i)));
   ("product_id", string_field (fun s i => IssueRequest (iq_ClientID i) (iq_AccountID i) s (iq_Reason i)));
   ("reason", string_field (fun s i => IssueRequest (iq_ClientID i) (iq_AccountID i) (iq_ProductID i) s))].
Definition issue_request_json (i : issue_request) : json :=
  JObj [("client_id", JStr (iq_ClientID i)); ("account_reference_id", JStr (iq_AccountID i));
        ("product_id", JStr (iq_ProductID i)); ("reason", JStr (iq_Reason i))].

Record batch_request := BatchRequest { bq_TargetStatus : string; bq_Reason : string; bq_CardIDs : strings }.
Definition batch_request_fields : fields batch_request :=
  [("target_status", string_field (fun s i => BatchRequest s (bq_Reason i) (bq_CardIDs i)));
   ("reason", string_field (fun s i => BatchRequest (bq_TargetStatus i) s (bq_CardIDs i)));
   ("card_ids", strings_field bq_CardIDs (fun l i => BatchRequest (bq_TargetStatus i) (bq_Reason i) l))].
Definition batch_request_json (i : batch_request) : json :=
  JObj [("target_status", JStr (bq_TargetStatus i)); ("reason", JStr (bq_Reason i)); ("card_ids", strings_json (bq_CardIDs i))].

Record user_request := UserRequest { uq_Username : string; uq_Password : string; uq_Role : string; uq_EntityID : string }.
Definition user_request_fields : fields user_request :=
  [("username", string_field (fun s i => UserRequest s (uq_Password i) (uq_Role i) (uq_EntityID i)));
   ("password", string_field (fun s i => UserRequest (uq_Username i) s (uq_Role i) (uq_EntityID i)));
   ("role", string_field (fun s i => UserRequest (uq_Username i) (uq_Password i) s (uq_EntityID i)));
   ("entity_id", string_field (fun s i => UserRequest (uq_Username i) (uq_Password i) (uq_Role i) s))].
Definition user_request_json (i : user_request) : json :=
  JObj [("username", JStr (uq_Username i)); ("password", JStr (uq_Password i)); ("role", JStr (uq_Role i));
        ("entity_id", JStr (uq_EntityID i))].

Record user_patch := UserPatch { up_Role : option string; up_EntityID : option string }.
Definition user_patch_fields : fields user_patch :=
  [("role", pointer_field (fun s i => UserPatch s (up_EntityID i))); ("entity_id", pointer_field (fun s i => UserPatch (up_Role i) s))].
Definition user_patch_json (i : user_patch) : json := JObj [("role", JOptStr (up_Role i)); ("entity_id", JOptStr (up_EntityID i))].

(** A decoded configuration as a value: [number] is the value of a literal that
    is no integer of 64 bits, which [json] leaves open. *)
Section Raw.
Context (number : string -> json).
Fixpoint raw_value (t : jtext) : json :=
  match t with
  | TNull => JNull
  | TBool b => JBool b
  | TNum literal => match parse_int64 literal with Some z => JNum z | None => number literal end
  | TStr s => JStr s
  | TArr l => JArr (List.map raw_value l)
  | TObj l => JObj (List.map (fun p => (p.1, raw_value p.2)) l)
  end.
Definition product_request_json (i : product_request) : json :=
  JObj [("product_code", JStr (pq_ProductCode i)); ("name", JStr (pq_Name i)); ("status", JStr (pq_Status i));
        ("configuration", from_option raw_value JNull (pq_Configuration i))].
Definition product_change_json (i : product_change) : json :=
  JObj [("name", JOptStr (pc_Name i)); ("status", JOptStr (pc_Status i));
        ("configuration", from_option raw_value JNull (pc_Configuration i))].
End Raw.

(** ** The handlers *)

Section Handlers.
Context (hmac : string -> string -> string) (cursorKey : string) (number : string -> json).
Context `{BankService, BankAccess, CatalogService, CardService, BatchService, StaffService, Authentication}.

Definition collection_of (r : Request) (kind bank : string) (m : M (list json)) : M Reply :=
  answer r m (fun data => collection hmac cursorKey r kind bank data).

(** *** bank_handler.go *)

Definition banks_create (r : Request) (claims : Claims) : M Reply :=
  match DecodeRequest bank_request_fields (BankRequest "" "") r with
  | Some input =>
      if blank (br_BankReference input) || blank (br_Name input) then mret (invalid_request r "bank_reference and name are required.")
      else with_key r (fun key =>
        answer r (svc_ProvisionBankWorkflow (claims_Principal claims) key (json_encode (bank_request_json input))
                    (br_BankReference input) (br_Name input) (rq_request_id r))
          (fun sr => writeJSON sr.1 sr.2))
  | None => mret (invalid_request r "bank_reference and name are required.")
  end.
Definition banks (r : Request) (claims : Claims) : M Reply :=
  if role claims != "issuer_operator" then mret (forbidden r)
  else if rq_method r == "GET" then collection_of r "banks" "directory" svc_ListBanks
  else if rq_method r == "POST" then banks_create r claims
  else mret (RequireMethods r ["GET"; "POST"]).

(** The rejected bodies of a change of a bank. *)
Definition bank_patch_invalid (input : bank_patch) : bool :=
  match bp_Name input, bp_Status input with
  | None, None => true
  | name, status =>
      from_option blank false name
      || from_option (fun s => (s != "active") && (s != "inactive")) false status
  end.
Definition bank_change (r : Request) (claims : Claims) (id : string) : M Reply :=
  match DecodeRequest bank_patch_fields (BankPatch None None) r with
  | Some input =>
      if bank_patch_invalid input then mret (invalid_request r "A valid name or status is required.")
      else with_key r (fun key =>
        answer r (svc_PatchBankWorkflow (claims_Principal claims) id key (json_encode (bank_patch_json input)) (bp_Name input)
                    (bp_Status input) (rq_request_id r))
          (fun sr => writeJSON sr.1 sr.2))
  | None => mret (invalid_request r "A valid name or status is required.")
  end.
Definition bank (r : Request) (claims : Claims) (id : string) : M Reply :=
  if role claims != "issuer_operator" then mret (forbidden r)
  else if negb (ValidUUID id) then mret (apiNotFound r)
  else if rq_method r == "GET" then answer_found r (svc_GetBank id) (writeJSON 200)
  else if rq_method r != "PATCH" then mret (RequireMethods r ["GET"; "PATCH"])
  else bank_change r claims id.

(** *** staff_handler.go *)

Definition bank_assigned (r : string) : bool := (r == "bank_operator") || (r == "bank_readonly").
Definition policy_violated (password : string) : bool :=
  match svc_ValidateNewPassword password with inl _ => true | inr _ => false end.

Definition users_create (r : Request) (claims : Claims) : M Reply :=
  let refusal := invalid_request r "username, password, role, and a valid bank assignment are required." in
  match DecodeRequest user_request_fields (UserRequest "" "" "" "") r with
  | Some input =>
      if blank (uq_Username input) || negb (server_validRole (uq_Role input))
         || negb (Bool.eqb (bank_assigned (uq_Role input)) (ValidUUID (uq_EntityID input)))
         || policy_violated (uq_Password input)
      then mret refusal
      else with_key r (fun key =>
        answer r (svc_CreateUserWorkflow (claims_Principal claims) key (json_encode (user_request_json input)) (uq_Username input)
                    (uq_Password input) (uq_Role input) (uq_EntityID input) (rq_request_id r))
          (fun sr => writeJSON sr.1 sr.2))
  | None => mret refusal
  end.
Definition users (r : Request) (claims : Claims) : M Reply :=
  if role claims != "issuer_operator" then mret (forbidden r)
  else if rq_method r == "GET" then collection_of r "users" "control" svc_ListUsers
  else if rq_method r == "POST" then users_create r claims
  else mret (RequireMethods r ["GET"; "POST"]).

Definition user_change (r : Request) (claims : Claims) (id : string) : M Reply :=
  let refusal := invalid_request r "role and its required bank assignment are invalid." in
  match DecodeRequest user_patch_fields (UserPatch None None) r with
  | Some input =>
      match up_Role input with
      | None => mret refusal
      | Some new_role =>
          if negb (server_validRole new_role)
             || negb (Bool.eqb (bank_assigned new_role) (from_option ValidUUID false (up_EntityID input)))
          then mret refusal
          else with_key r (fun key =>
            answer r (svc_UpdateUserWorkflow (claims_Principal claims) id key (json_encode (user_patch_json input)) new_role
                        (stringValue (up_EntityID input)) "" (rq_request_id r))
              (fun sr => writeJSON sr.1 sr.2))
      end
  | None => mret refusal
  end.
Definition user_disable (r : Request) (claims : Claims) (id : string) : M Reply :=
  with_key r (fun key =>
    answer r (svc_UpdateUserWorkflow (claims_Principal claims) id key "{}" "" "" "disabled" (rq_request_id r))
      (fun sr => writeJSON sr.1 sr.2)).
Definition user_set_password (r : Request) (claims : Claims) (id : string) : M Reply :=
  let refusal := invalid_request r "new_password must meet the password policy." in
  match DecodeRequest password_fields "" r with
  | Some password =>
      if policy_violated password then mret refusal
      else with_key r (fun key =>
        answer r (svc_SetUserPasswordWorkflow (claims_Principal claims) id key
                    (json_encode (JObj [("new_password", JStr password)])) password (rq_request_id r))
          (fun sr => writeJSON sr.1 sr.2))
  | None => mret refusal
  end.
Definition user (r : Request) (claims : Claims) (tail : string) : M Reply :=
  if role claims != "issuer_operator" then mret (forbidden r)
  else
    let pieces := split colon tail in
    let id := hd "" pieces in
    if negb (ValidUUID id) then mret (apiNotFound r)
    else
      match pieces with
      | [_] =>
          if rq_method r == "GET" then answer_found r (svc_GetUser id) (writeJSON 200)
          else if rq_method r == "PATCH" then user_change r claims id
          else mret (RequireMethods r ["GET"; "PATCH"; "POST"])
      | [_; action] =>
          if (action == "disable") && (rq_method r == "POST") then user_disable r claims id
          else if (action == "set-password") && (rq_method r == "POST") then user_set_password r claims id
          else mret (RequireMethods r ["GET"; "PATCH"; "POST"])
      | _ => mret (RequireMethods r ["GET"; "PATCH"; "POST"])
      end.

(** *** catalog_handler.go *)

Definition product_create (r : Request) (claims : Claims) (bank key : string) : M Reply :=
  let refusal := invalid_request r "product_code, name, optional status, and object configuration are required." in
  match DecodeRequest product_request_fields (ProductRequest "" "" "" None) r with
  | Some input =>
      if blank (pq_ProductCode input) || blank (pq_Name input)
         || ((pq_Status input != "") && (pq_Status input != "active") && (pq_Status input != "inactive"))
         || negb (JSONObject (pq_Configuration input))
      then mret refusal
      else
        let status := if pq_Status input == "" then "active" else pq_Status input in
        let configuration := default (TObj []) (pq_Configuration input) in
        let input := ProductRequest (pq_ProductCode input) (pq_Name input) status (Some configuration) in
        answer r (svc_CreateCardProductWorkflow (claims_Principal claims) bank key (json_encode (product_request_json number input))
                    (pq_ProductCode input) (pq_Name input) (pq_Status input) (raw_value number configuration) (rq_request_id r))
          (writeJSON 201)
  | None => mret refusal
  end.
Definition client_create (r : Request) (claims : Claims) (bank key : string) : M Reply :=
  match DecodeRequest client_request_fields (ClientRequest "" None) r with
  | Some input =>
      if blank (cq_External input) then mret (invalid_request r "external_client_ref is required.")
      else answer r (svc_CreateClientWorkflow (claims_Principal claims) bank key (json_encode (client_request_json input))
                       (cq_External input) (cq_Display input) (rq_request_id r))
             (writeJSON 201)
  | None => mret (invalid_request r "external_client_ref is required.")
  end.
Definition account_create (r : Request) (claims : Claims) (bank key : string) : M Reply :=
  match DecodeRequest account_request_fields (AccountRequest "" "") r with
  | Some input =>
      if negb (ValidUUID (aq_ClientID input)) || blank (aq_External input)
      then mret (invalid_request r "client_id and external_account_ref are required.")
      else answer r (svc_CreateAccountReferenceWorkflow (claims_Principal claims) bank key (json_encode (account_request_json input))
                       (aq_ClientID input) (aq_External input) (rq_request_id r))
             (writeJSON 201)
  | None => mret (invalid_request r "client_id and external_account_ref are required.")
  end.
Definition referenceCreate (r : Request) (claims : Claims) (bank kind : string) : M Reply :=
  if (role claims != "issuer_operator") && (role claims != "bank_operator") then mret (forbidden r)
  else with_key r (fun key =>
    if kind == "card-products" then product_create r claims bank key
    else if kind == "clients" then client_create r claims bank key
    else if kind == "account-references" then account_create r claims bank key
    else mret unwritten).

Definition product_change_invalid (input : product_change) : bool :=
  match pc_Name input, pc_Status input, pc_Configuration input with
  | None, None, None => true
  | name, status, configuration =>
      from_option blank false name
      || from_option (fun s => (s != "active") && (s != "inactive")) false status
      || negb (JSONObjectOrNil configuration)
  end.
Definition product_patch (r : Request) (claims : Claims) (bank id key : string) : M Reply :=
  let refusal := invalid_request r "A valid name, status, or object configuration is required." in
  match DecodeRequest product_change_fields (ProductChange None None None) r with
  | Some input =>
      if product_change_invalid input then mret refusal
      else answer r (svc_PatchCardProductWorkflow (claims_Principal claims) bank id key (json_encode (product_change_json number input))
                       (pc_Name input) (pc_Status input) (raw_value number <$> pc_Configuration input) (rq_request_id r))
             (writeJSON 200)
  | None => mret refusal
  end.
Definition client_patch (r : Request) (claims : Claims) (bank id key : string) : M Reply :=
  match DecodeRequest display_fields None r with
  | Some (Some display) =>
      answer r (svc_PatchClientWorkflow (claims_Principal claims) bank id key (json_encode (JObj [("display_name", JStr display)]))
                  (Some display) (rq_request_id r))
        (writeJSON 200)
  | _ => mret (invalid_request r "display_name is required.")
  end.
Definition account_patch (r : Request) (claims : Claims) (bank id key : string) : M Reply :=
  match DecodeRequest client_id_fields "" r with
  | Some clientID =>
      if negb (ValidUUID clientID) then mret (invalid_request r "client_id is required.")
      else answer r (svc_PatchAccountReferenceWorkflow (claims_Principal claims) bank id key
                       (json_encode (JObj [("client_id", JStr clientID)])) clientID (rq_request_id r))
             (writeJSON 200)
  | None => mret (invalid_request r "client_id is required.")
  end.
Definition referencePatch (r : Request) (claims : Claims) (bank kind id : string) : M Reply :=
  if role claims != "issuer_operator" then mret (forbidden r)
  else with_key r (fun key =>
    if kind == "card-products" then product_patch r claims bank id key
    else if kind == "clients" then client_patch r claims bank id key
    else if kind == "account-references" then account_patch r claims bank id key
    else mret unwritten).

(** [!canRead(claims) || !h.access.CanReadBank(...)]: without a role of the
    program the directory is not asked. *)
Definition may_read (claims : Claims) (bank : string) : M bool :=
  if canRead claims then svc_CanReadBank (claims_Principal claims) bank else mret false.

(** *** card_handler.go *)

Definition card_list (r : Request) (bank : string) : M Reply :=
  let get := query_get (rq_query r) in
  if existsb (fun value => (value != "") && negb (ValidUUID value)) [get "client_id"; get "account_reference_id"; get "product_id"]
  then mret (invalid_request r "Invalid card filter.")
  else if (get "status" != "") && negb (ValidCardStatus (get "status")) then mret (invalid_request r "Invalid card status.")
  else collection_of r "cards" bank
         (svc_ListCards bank (get "client_id") (get "account_reference_id") (get "product_id") (get "status")).
Definition cardReads (r : Request) (claims : Claims) (bank : string) (tail : list string) : M Reply :=
  readable ← may_read claims bank;
  if negb readable then mret (forbidden r)
  else
    match tail with
    | [] => card_list r bank
    | cardID :: more =>
        if negb (ValidUUID cardID) then mret (apiNotFound r)
        else match more with
        | [] => answer_found r (svc_GetCard bank cardID) (writeJSON 200)
        | [what] =>
            if what == "operations" then collection_of r "card-operations" bank (svc_ListCardOperations bank cardID)
            else if what == "history" then collection_of r "card-history" bank (svc_ListCardStatusHistory bank cardID)
            else mret (apiNotFound r)
        | _ => mret (apiNotFound r)
        end
    end.

Definition card_issue (r : Request) (claims : Claims) (bank : string) : M Reply :=
  let refusal := invalid_request r "client_id, account_reference_id, product_id, and reason are required." in
  match DecodeRequest issue_request_fields (IssueRequest "" "" "" "") r with
  | Some input =>
      if negb (ValidUUID (iq_ClientID input)) || negb (ValidUUID (iq_AccountID input)) || negb (ValidUUID (iq_ProductID input))
         || blank (iq_Reason input)
      then mret refusal
      else with_key r (fun key =>
        answer r (svc_IssueCardWorkflow (claims_Principal claims) bank key (json_encode (issue_request_json input)) (iq_ClientID input)
                    (iq_AccountID input) (iq_ProductID input) (iq_Reason input) (rq_request_id r))
          (writeJSON 201))
  | None => mret refusal
  end.
(** A body with a reason, then the key. *)
Definition with_reason (r : Request) (k : string -> string -> M Reply) : M Reply :=
  match DecodeRequest reason_fields "" r with
  | Some reason =>
      if blank reason then mret (invalid_request r "reason is required.") else with_key r (fun key => k key reason)
  | None => mret (invalid_request r "reason is required.")
  end.
Definition reason_json (reason : string) : json := JObj [("reason", JStr reason)].
Definition operator (claims : Claims) : bool := (role claims == "issuer_operator") || (role claims == "bank_operator").
Definition card_command (r : Request) (claims : Claims) (bank id action : string) : M Reply :=
  if (if action == "replace" then negb (operator claims)
      else ((action != "activate") && (action != "suspend") && (action != "resume") && (action != "close"))
           || negb (operator claims))
  then mret (forbidden r)
  else with_reason r (fun key reason =>
    answer r (svc_CardCommandWorkflow (claims_Principal claims) bank id action key (json_encode (reason_json reason)) reason
                (rq_request_id r))
      (fun rs => writeJSON rs.2 rs.1)).
Definition cardWrites (r : Request) (claims : Claims) (bank : string) (tail : list string) : M Reply :=
  readable ← may_read claims bank;
  if negb readable then mret (forbidden r)
  else
    match tail with
    | [] => if negb (operator claims) then mret (forbidden r) else card_issue r claims bank
    | [last] =>
        match split colon last with
        | [id; action] => if negb (ValidUUID id) then mret (apiNotFound r) else card_command r claims bank id action
        | _ => mret (apiNotFound r)
        end
    | _ => mret (apiNotFound r)
    end.

Definition expiryRetry (r : Request) (claims : Claims) (bank : string) (tail : list string) : M Reply :=
  readable ← (if role claims == "issuer_operator" then svc_CanReadBank (claims_Principal claims) bank else mret false);
  match (if readable : bool then tail else []) with
  | [run; last] =>
      if negb (ValidUUID run) then mret (apiNotFound r)
      else match split colon last with
      | [item; action] =>
          if negb (ValidUUID item) || (action != "retry") then mret (apiNotFound r)
          else with_reason r (fun key reason =>
            answer r (svc_RetryExpiryWorkflow (claims_Principal claims) bank run item key (json_encode (reason_json reason)) reason
                        (rq_request_id r))
              (fun _ => writeJSON 202 (JObj [("id", JStr item); ("status", JStr "pending")])))
      | _ => mret (apiNotFound r)
      end
  | _ => mret (apiNotFound r)
  end.

(** *** batch.go *)

(** A body that does not decode is answered by nothing: the handler returns. *)
Definition createCardStatusBatch (r : Request) (claims : Claims) (bank : string) : M Reply :=
  if negb (canManageCardStatusBatches claims) then mret (forbidden r)
  else
    match DecodeRequest batch_request_fields (BatchRequest "" "" None) r with
    | None => mret unwritten
    | Some input => with_key r (fun key =>
        answer r (svc_CreateCardStatusBatchWorkflow (claims_Principal claims) bank key (json_encode (batch_request_json input))
                    (bq_TargetStatus input) (bq_Reason input) (visible (bq_CardIDs input)) (rq_request_id r))
          (fun rs => writeJSON rs.2 rs.1))
    end.
Definition cardStatusBatchCommand (r : Request) (claims : Claims) (bank id action : string) : M Reply :=
  if rq_method r != "POST" then mret (RequireMethods r ["POST"])
  else if negb (canManageCardStatusBatches claims) then mret (forbidden r)
  else if (action != "execute") && (action != "cancel") && (action != "retry") then mret (apiNotFound r)
  else
    match DecodeRequest no_fields tt r with
    | None => mret unwritten
    | Some _ => with_key r (fun key =>
        let body := json_encode (JObj []) in
        let principal := claims_Principal claims in
        if action == "execute" then
          answer r (svc_ExecuteCardStatusBatchWorkflow principal bank id key body (rq_request_id r)) (writeJSON 202)
        else if action == "cancel" then
          answer r (svc_CancelCardStatusBatchWorkflow principal bank id key body (rq_request_id r)) (writeJSON 200)
        else answer r (svc_RetryCardStatusBatchWorkflow principal bank id key body (rq_request_id r)) (writeJSON 201))
    end.
Definition cardStatusBatches (r : Request) (claims : Claims) (bank : string) (tail : list string) : M Reply :=
  readable ← may_read claims bank;
  if negb readable then mret (forbidden r)
  else
    let get := rq_method r == "GET" in
    let command last :=
      match split colon last with
      | [id; action] => if ValidUUID id then cardStatusBatchCommand r claims bank id action else mret (apiNotFound r)
      | _ => mret (apiNotFound r)
      end in
    match tail with
    | [] =>
        if get then collection_of r "card-status-batches" bank (svc_ListCardStatusBatches bank)
        else if rq_method r == "POST" then createCardStatusBatch r claims bank
        else mret (RequireMethods r ["GET"; "POST"])
    | [id] =>
        if ValidUUID id && get then answer_found r (svc_GetCardStatusBatch bank id) (writeJSON 200) else command id
    | [id; items] =>
        if ValidUUID id && (items == "items") && get then
          answer_found r (svc_ListCardStatusBatchItems bank id)
            (fun data => collection hmac cursorKey r "card-status-batch-items" (bank +:+ ":" +:+ id) data)
        else mret (apiNotFound r)
    | _ => mret (apiNotFound r)
    end.

(** *** resource.go *)

Definition reference_kind (kind : string) : bool :=
  (kind == "card-products") || (kind == "clients") || (kind == "account-references").
(** The branch of [bankResource] for products, clients and accounts. *)
Definition referenceResource (r : Request) (claims : Claims) (bank kind : string) (tail : list string) : M Reply :=
  readable ← may_read claims bank;
  if negb readable then mret (forbidden r)
  else
    match tail with
    | [] =>
        if rq_method r == "POST" then referenceCreate r claims bank kind
        else if rq_method r != "GET" then mret (RequireMethods r ["GET"; "POST"])
        else collection_of r kind bank (svc_ListReference bank kind)
    | [id] =>
        if negb (ValidUUID id) then mret (apiNotFound r)
        else if rq_method r == "PATCH" then referencePatch r claims bank kind id
        else if rq_method r != "GET" then mret (apiNotFound r)
        else answer_found r (svc_GetReference bank kind id) (writeJSON 200)
    | _ => mret (apiNotFound r)
    end.
Definition bankResource (r : Request) (claims : Claims) (tail : string) : M Reply :=
  match split slash tail with
  | bank :: kind :: more =>
      if negb (ValidUUID bank) then mret (apiNotFound r)
      else if (kind == "cards") && (rq_method r == "GET") then cardReads r claims bank more
      else if (kind == "cards") && (rq_method r == "POST") then cardWrites r claims bank more
      else if (kind == "card-expiry-runs") && (rq_method r == "POST") then expiryRetry r claims bank more
      else if kind == "card-status-batches" then cardStatusBatches r claims bank more
      else if negb (reference_kind kind) then mret (apiNotFound r)
      else referenceResource r claims bank kind more
  | _ => mret (apiNotFound r)
  end.

(** [ServeHTTP] after [authenticate]. *)
Definition route (r : Request) (claims : Claims) : M Reply :=
  let path := TrimPrefix (rq_path r) "/v1/" in
  if path == "banks" then banks r claims
  else if path == "users" then users r claims
  else if String.prefix "users/" path then user r claims (TrimPrefix path "users/")
  else if String.prefix "banks/" path then
    let tail := TrimPrefix path "banks/" in
    if negb (contains_slash tail) then bank r claims tail else bankResource r claims tail
  else mret (apiNotFound r).
(** [authenticate]: [None] is a refused token. *)
Definition authenticate (r : Request) : M (option Claims) :=
  match bearer r with
  | None => mret None
  | Some token => c ← try (svc_ValidateAccess token); mret (match c with inr claims => Some claims | inl _ => None end)
  end.
Definition ServeHTTP (r : Request) : M Reply :=
  claims ← authenticate r;
  match claims with None => mret (invalid_access r) | Some claims => route r claims end.
End Handlers.
