(* ===== verification/AuthHandlers.v ===== *)
(** * AuthHandlers: login, refresh, logout, identity and password over HTTP

    [authenticationHandler] of [internal/server/auth.go].  The methods of
    [auth.API] are an interface, [SessionService] and [Authentication]; the table
    of the login admission is passed along.  A handler is a request to a reply in
    the monad of effects. *)

From stdpp Require Import pretty.
From S2P Require Import Prelude Text Json JsonText Http World AuthTypes Password Requests ResourceHandlers LoginAdmission Cookies.
Open Scope string_scope.
Open Scope list_scope.
Open Scope Z_scope.

Class SessionService := {
  svc_Login (username password requestID : string) : M (TokenResponse * string * Z);
  svc_Refresh (rawToken requestID : string) : M (TokenResponse * string * Z);
  svc_Logout (rawToken requestID : string) : M unit;
  svc_ChangePassword (claims : Claims) (currentPassword newPassword requestID : string) : M unit
}.

(** ** Bodies *)

Record loginRequest := LoginRequest { lr_Username : string; lr_Password : string }.
Definition loginRequest_fields : fields loginRequest :=
  [("username", string_field (fun s i => LoginRequest s (lr_Password i))); ("password", string_field (fun s i => LoginRequest (lr_Username i) s))].
Record passwordRequest := PasswordRequest { pq_CurrentPassword : string; pq_NewPassword : string }.
Definition passwordRequest_fields : fields passwordRequest :=
  [("current_password", string_field (fun s i => PasswordRequest s (pq_NewPassword i)));
   ("new_password", string_field (fun s i => PasswordRequest (pq_CurrentPassword i) s))].

Definition UserSummary_json (u : UserSummary) : json :=
  JObj [("username", JStr (sum_Username u)); ("status", JStr (sum_Status u)); ("role", JStr (sum_Role u))].
Definition TokenResponse_json (t : TokenResponse) : json :=
  JObj [("access_token", JStr (tr_AccessToken t)); ("token_type", JStr (tr_TokenType t)); ("expires_at", JStr (tr_ExpiresAt t));
        ("user", UserSummary_json (tr_User t))].

(** ** Replies *)

(** Another header, set before the status is written. *)
Definition with_header (h : string * string) (reply : Reply) : Reply := MkReply (h :: rp_header reply) (rp_response reply).
(** A status without a body. *)
Definition no_content (no_store : bool) : Reply := MkReply [] (Response 204 "" no_store (Text "")).
Definition internal_problem (r : Request) : Reply := writeProblem r 500 "internal_error" "The request could not be completed.".
Definition invalid_credentials (r : Request) : Reply :=
  writeProblem r 401 "invalid_credentials" "The supplied credentials are invalid.".
Definition invalid_refresh (r : Request) : Reply :=
  with_header clearRefreshCookie (writeProblem r 401 "invalid_refresh_token" "The refresh token is invalid.").

Section Handlers.
Context `{SessionService, Authentication}.

Definition requireMethod (r : Request) (method : string) (k : M Reply) : M Reply :=
  if rq_method r == method then k
  else mret (problem_reply [("Allow", method)] r 405 "method_not_allowed" "The request method is not allowed for this endpoint.").

Definition auth_authenticate (r : Request) : M (option Claims) :=
  match Fields (header r "Authorization") with
  | [scheme; token] =>
      if to_lower scheme != "bearer" then mret None
      else c ← try (svc_ValidateAccess token); mret (match c with inl _ => None | inr claims => Some claims end)
  | _ => mret None
  end.

(** The new tokens: the cookie and the body. *)
Definition issued (response : TokenResponse) (refresh : string) (expiresAt : Z) : M Reply :=
  set ← setRefreshCookie refresh expiresAt; mret (with_header set (writeJSON 200 (TokenResponse_json response))).

(** [login] after the admission. *)
Definition login_admitted (r : Request) : M Reply :=
  let refusal := writeProblem r 400 "invalid_request" "username and password are required." in
  match DecodeRequest loginRequest_fields (LoginRequest "" "") r with
  | Some input =>
      if (lr_Username input == "") || (lr_Password input == "") || (MaxPasswordBytes <? String.length (lr_Password input))%nat
      then mret refusal
      else
        l ← try (svc_Login (lr_Username input) (lr_Password input) (rq_request_id r));
        match l with
        | inl err => mret (if errors_is err ErrInvalidCredentials then invalid_credentials r else internal_problem r)
        | inr (response, refresh, expiresAt) => issued response refresh expiresAt
        end
  | None => mret refusal
  end.

Section Login.
Context (canonical_ip : string -> option string) (limit : Z).
(** The reply and the table left; [remote] is the address of the client. *)
Definition login (attempts : attempts_map) (remote : string) (r : Request) : M (Reply * attempts_map) :=
  if rq_method r != "POST" then
    reply ← requireMethod r "POST" (mret unwritten); mret (reply, attempts)
  else
    now ← time_now;
    let '(allowed, retryAfter, attempts') := allow canonical_ip limit attempts now remote in
    if negb allowed then
      mret (problem_reply [("Retry-After", pretty (retryAfterSeconds retryAfter))] r 429 "login_rate_limited"
              "Too many login attempts. Try again later.", attempts')
    else reply ← login_admitted r; mret (reply, attempts').
End Login.

Definition refresh (r : Request) : M Reply :=
  requireMethod r "POST" (
    match Cookie r RefreshCookieName with
    | None | Some "" => mret (invalid_refresh r)
    | Some token =>
        l ← try (svc_Refresh token (rq_request_id r));
        match l with
        | inl err => mret (if errors_is err ErrInvalidRefresh then invalid_refresh r else with_header clearRefreshCookie (internal_problem r))
        | inr (response, refresh, expiresAt) => issued response refresh expiresAt
        end
    end).

Definition logout (r : Request) : M Reply :=
  requireMethod r "POST" (
    let cleared := with_header clearRefreshCookie (no_content false) in
    match Cookie r RefreshCookieName with
    | None | Some "" => mret cleared
    | Some token =>
        l ← try (svc_Logout token (rq_request_id r));
        mret (match l with inl _ => internal_problem r | inr _ => cleared end)
    end).

Definition me (r : Request) : M Reply :=
  requireMethod r "GET" (
    claims ← auth_authenticate r;
    mret (match claims with
          | None => invalid_access r
          | Some claims => writeJSON 200 (UserSummary_json (claims_UserSummary claims))
          end)).

Definition password_changed (r : Request) (claims : Claims) : M Reply :=
  let refusal := writeProblem r 400 "invalid_request" "current_password and new_password are required." in
  match DecodeRequest passwordRequest_fields (PasswordRequest "" "") r with
  | Some input =>
      if (pq_CurrentPassword input == "") || (pq_NewPassword input == "") then mret refusal
      else
        l ← try (svc_ChangePassword claims (pq_CurrentPassword input) (pq_NewPassword input) (rq_request_id r));
        mret (match l with
              | inr _ => no_content true
              | inl err =>
                  if errors_is err ErrPasswordPolicy then writeProblem r 400 "invalid_password" "new_password must meet the password policy."
                  else if errors_is err ErrInvalidPassword then invalid_credentials r
                  else internal_problem r
              end)
  | None => mret refusal
  end.
Definition password (r : Request) : M Reply :=
  requireMethod r "POST" (
    claims ← auth_authenticate r;
    match claims with None => mret (invalid_access r) | Some claims => password_changed r claims end).
End Handlers.
