(* ===== verification/Server.v ===== *)
(** * Server: the handler of the API process

    [internal/server/server.go] and [withRequestID] of [auth.go]: the patterns
    of the multiplexer, the probes, and the handlers of [AuthHandlers] and
    [ResourceHandlers] behind them.  A request is served with the table of the
    login admission of the process, which it returns.  The handler of
    [/swagger/] is third-party code, and [redirect] is the response of
    [http.RedirectHandler], whose status differs between versions of Go. *)

From S2P Require Import Prelude Text Json Http Uuid World AuthTypes Pagination Requests ResourceHandlers LoginAdmission Cookies AuthHandlers.
Open Scope string_scope.
Open Scope list_scope.
Open Scope Z_scope.

(** A request as the server reads it: [in_escaped] is [URL.EscapedPath]. *)
Record incoming := Incoming {
  in_method : string; in_path : string; in_escaped : string; in_query : Values; in_header : gmap string string;
  in_body : string; in_remote : string
}.
(** The request the handlers see, with its identifier in the context. *)
Definition with_id (i : incoming) (id : string) : Request :=
  MkRequest (in_method i) (in_path i) (in_query i) (in_header i) (in_body i) id.

(** ** [http.ServeMux] *)

(** [path.Clean] of a rooted path, as segments, and [cleanPath]. *)
Fixpoint clean_segments (l kept : list string) : list string :=
  match l with
  | [] => rev kept
  | s :: rest =>
      if (s == "") || (s == ".") then clean_segments rest kept
      else if s == ".." then clean_segments rest (tail kept)
      else clean_segments rest (s :: kept)
  end.
Definition rooted (segments : list string) : string := "/" +:+ String.concat "/" segments.
Definition ends_with_slash (p : string) : bool := bool_decide (last (String.list_ascii_of_string p) = Some slash).
Definition cleanPath (p : string) : string :=
  if p == "" then "/"
  else
    let p := if String.prefix "/" p then p else "/" +:+ p in
    let np := rooted (clean_segments (split slash p) []) in
    if ends_with_slash p && (np != "/") then np +:+ "/" else np.

(** [url.PathUnescape]; a segment that does not decode stands for itself. *)
Fixpoint unescape_bytes (l : list N) : option (list N) :=
  match l with
  | [] => Some []
  | c :: rest =>
      if (c =? 37)%N then
        match rest with
        | a :: b :: rest' => x ← unhex a; y ← unhex b; (fun t => (x * 16 + y)%N :: t) <$> unescape_bytes rest'
        | _ => None
        end
      else (fun t => c :: t) <$> unescape_bytes rest
  end.
Definition pathUnescape (s : string) : string := from_option of_bytes s (unescape_bytes (bytes_of s)).
Definition path_segments (path : string) : list string := List.map pathUnescape (split slash path).

(** What the patterns of the program select for a cleaned path. *)
Inductive target :=
  | Swagger | Live | Ready | LoginPath | RefreshPath | LogoutPath | MePath | PasswordPath | Business
  | NoPattern.
Definition pattern_of (path : string) : target :=
  match path_segments path with
  | "" :: segments =>
      if bool_decide (segments = ["health"; "live"]) then Live
      else if bool_decide (segments = ["health"; "ready"]) then Ready
      else if bool_decide (segments = ["v1"; "auth"; "login"]) then LoginPath
      else if bool_decide (segments = ["v1"; "auth"; "refresh"]) then RefreshPath
      else if bool_decide (segments = ["v1"; "auth"; "logout"]) then LogoutPath
      else if bool_decide (segments = ["v1"; "me"]) then MePath
      else if bool_decide (segments = ["v1"; "me"; "password"]) then PasswordPath
      else match segments with
      | first :: _ :: _ => if first == "v1" then Business else if first == "swagger" then Swagger else NoPattern
      | _ => NoPattern
      end
  | _ => NoPattern
  end.

(** [findHandler]: a redirection to another path, or the pattern. *)
Definition find_handler (i : incoming) : string + target :=
  let path := if in_method i == "CONNECT" then in_escaped i else cleanPath (in_escaped i) in
  match path_segments path with
  | [""; only] =>
      if (only == "v1") || (only == "swagger") then inl (cleanPath (in_path i) +:+ "/")
      else if path != in_escaped i then inl path else inr (pattern_of path)
  | _ => if path != in_escaped i then inl path else inr (pattern_of path)
  end.

(** ** Responses *)

(** [respond]. *)
Definition respond (status : Z) (value : string) : Reply :=
  MkReply [] (Response status "application/json" true
    (Text ("{" +:+ quote +:+ "status" +:+ quote +:+ ":" +:+ quote +:+ value +:+ quote +:+ "}" +:+ of_bytes [10%N]))).
(** [http.Error] of the multiplexer. *)
Definition plain_error (headers : list (string * string)) (status : Z) (text : string) : Reply :=
  MkReply (headers ++ [("X-Content-Type-Options", "nosniff")])
    (Response status "text/plain; charset=utf-8" false (Text (text +:+ of_bytes [10%N]))).

(** ** The probes *)

(** What the loop over the results of the probes receives: a result, or the
    deadline. *)
Inductive probe_event := Probed (failed : bool) | Deadline.
Fixpoint probe_loop (n : nat) (events : list probe_event) : bool :=
  match n, events with
  | O, _ => true
  | S n', Probed false :: rest => probe_loop n' rest
  | _, _ => false
  end.
(** [expired]: the deadline passed before the last check. *)
Definition readiness (events : list probe_event) (expired : bool) : Reply :=
  if probe_loop 3 events && negb expired then respond 200 "ready" else respond 503 "not_ready".

(** ** The handler *)

Section Server.
Context (hmac : string -> string -> string) (cursorKey : string) (number : string -> json).
Context `{BankService, BankAccess, CatalogService, CardService, BatchService, StaffService, Authentication, !SessionService}.
Context (canonical_ip : string -> option string) (limit : Z).
Context (swagger : Request -> Reply) (redirect : Request -> string -> Reply) (probes : list probe_event * bool).

(** A GET pattern takes HEAD as well; another method is not allowed. *)
Definition get_only (r : Request) (reply : Reply) : Reply :=
  if (rq_method r == "GET") || (rq_method r == "HEAD") then reply
  else plain_error [("Allow", "GET, HEAD")] 405 "Method Not Allowed".
Definition dispatch (attempts : attempts_map) (remote : string) (t : target) (r : Request) : M (Reply * attempts_map) :=
  let keep (m : M Reply) := reply ← m; mret (reply, attempts) in
  match t with
  | Swagger => mret (swagger r, attempts)
  | Live => mret (get_only r (respond 200 "ok"), attempts)
  | Ready => mret (get_only r (readiness probes.1 probes.2), attempts)
  | LoginPath => login canonical_ip limit attempts remote r
  | RefreshPath => keep (refresh r)
  | LogoutPath => keep (logout r)
  | MePath => keep (me r)
  | PasswordPath => keep (password r)
  | Business => keep (ServeHTTP hmac cursorKey number r)
  | NoPattern => mret (plain_error [] 404 "404 page not found", attempts)
  end.
Definition mux (attempts : attempts_map) (i : incoming) (r : Request) : M (Reply * attempts_map) :=
  match find_handler i with
  | inl path => mret (redirect r path, attempts)
  | inr t => dispatch attempts (in_remote i) t r
  end.

(** [withRequestID]: the identifier of the client when it is a UUID, a new one
    otherwise. *)
Definition request_id (i : incoming) : M string :=
  let id := default "" (in_header i !! "X-Request-ID") in
  if validUUID id then mret id else bs ← rand16; mret (randomUUID bs).
Definition serve (attempts : attempts_map) (i : incoming) : M (Reply * attempts_map) :=
  id ← request_id i;
  ra ← mux attempts i (with_id i id);
  mret (with_header ("X-Request-ID", id) ra.1, ra.2).
End Server.

(** ** Examples *)

Example clean_paths : List.map cleanPath ["/v1//banks/"; "/v1/./me/../banks"; "/.."; ""; "v1"; "/"; "//"; "/a/b/.."] =
  ["/v1/banks/"; "/v1/banks"; "/"; "/"; "/v1"; "/"; "/"; "/a"].
Proof. by vm_compute. Qed.
Example patterns : List.map pattern_of ["/v1/auth/login"; "/v1/auth/login/"; "/v1/%61uth/login"; "/v1/banks"; "/v1/"; "/v1%2Fbanks"; "/health/live"; "/"] =
  [LoginPath; Business; LoginPath; Business; Business; NoPattern; Live; NoPattern].
Proof. by vm_compute. Qed.
