(* ===== verification/ApiOrder.v ===== *)
(** * ApiOrder: what the workflows of the API may change

    Every workflow of a bank moves the shard along [shard_le] of that bank and
    leaves the committed control database alone; every read leaves both
    databases and the vault as they are.  The environment [ExecutorSystem]
    assumes of the API is the first of these. *)

From S2P Require Import Prelude Json Domain Stores Uuid Vault World ShardTx Guards ShardOrder ExecutorStore Idempotency AuthTypes ExecutorSafety CardStore CardService CardSafety ControlStore ControlOrder BatchStore BatchService BatchSafety CatalogStore CatalogService BankService StaffService BankSafety.
Open Scope string_scope.
Open Scope list_scope.
Open Scope Z_scope.

(** ** The statements *)

Section Statements.
Context (bank : string).

Lemma sl_card_insert id c a p m pr u : mono (shard_le bank) (insert_card bank id c a p m pr u).
Proof.
  intros env db x db'. unfold insert_card. case_match eqn:E; [done|]. intros [= _ <-].
  by eapply (sl_insert_card bank id (fun _ => _) env).
Qed.
Lemma sl_insert_reference {A B} get put taken mk (scan : string -> A -> B) :
  (forall db id a, get db !! (bank, id) = None -> shard_le bank db (put (<[(bank, id) := a]> (get db)) db)) ->
  mono (shard_le bank) (insert_reference bank get put taken mk scan).
Proof.
  intros Hput env db x db'. unfold insert_reference. case_match; [done|]. case_match eqn:E; [done|]. intros [= _ <-].
  apply insert_pk_inr in E as [E ->]. by apply Hput.
Qed.
Lemma sl_update_reference {A B} id get put (set : sql_env -> A -> A) (scan : string -> A -> B) :
  (forall env db a, get db !! (bank, id) = Some a -> shard_le bank db (put (<[(bank, id) := set env a]> (get db)) db)) ->
  mono (shard_le bank) (update_reference bank id get put set scan).
Proof.
  intros Hput env db x db'. unfold update_reference. case_match eqn:E; intros [= _ <-]; [|done]. by apply Hput.
Qed.
Lemma sl_has_client {B} c (f : sql shard_db B) : mono (shard_le bank) f -> mono (shard_le bank) (has_client bank c f).
Proof. intros Hf env db x db'. unfold has_client. case_match; [apply Hf|done]. Qed.
Lemma sl_create_product taken mk : mono (shard_le bank) (insert_reference bank products put_products taken mk scanCardProduct).
Proof. apply sl_insert_reference. intros db id a Hn. apply (sl_set_product bank db id a). congruence. Qed.
Lemma sl_create_client taken mk : mono (shard_le bank) (insert_reference bank clients put_clients taken mk scanClient).
Proof. apply sl_insert_reference. intros db id a Hn. apply (sl_set_client bank db id a). congruence. Qed.
Lemma sl_create_account taken mk : mono (shard_le bank) (insert_reference bank accounts put_accounts taken mk scanAccountReference).
Proof. apply sl_insert_reference. intros db id a Hn. apply (sl_set_account bank db id a). congruence. Qed.
Lemma sl_patch_product id input : mono (shard_le bank) (update_reference bank id products put_products (patch_product input) scanCardProduct).
Proof.
  apply sl_update_reference. intros env db a Ha. apply (sl_set_product bank db id). intros c0 Hc. rewrite Ha in Hc. injection Hc as <-.
  split; [done|]. cbn. repeat case_match; lia.
Qed.
Lemma sl_patch_client id (set : sql_env -> client_row -> client_row) :
  (forall env a, client_le a (set env a)) -> mono (shard_le bank) (update_reference bank id clients put_clients set scanClient).
Proof.
  intros Hset. apply sl_update_reference. intros env db a Ha. apply (sl_set_client bank db id). intros c0 Hc. rewrite Ha in Hc.
  injection Hc as <-. apply Hset.
Qed.
Lemma sl_patch_account id (set : sql_env -> account_row -> account_row) :
  (forall env a, account_le a (set env a)) ->
  mono (shard_le bank) (update_reference bank id accounts put_accounts set scanAccountReference).
Proof.
  intros Hset. apply sl_update_reference. intros env db a Ha. apply (sl_set_account bank db id). intros c0 Hc. rewrite Ha in Hc.
  injection Hc as <-. apply Hset.
Qed.
Lemma sl_move_account id input : mono (shard_le bank) (fun env db =>
  if bool_decide (is_Some (accounts db !! (bank, id)))
  then has_client bank (AccountReferencePatch_ClientID input) (update_reference bank id accounts put_accounts (fun env a =>
      a <| ac_client_id := AccountReferencePatch_ClientID input |> <| ac_updated_by := AccountReferencePatch_ActorID input |>
        <| ac_updated_at := clock_timestamp env |>) scanAccountReference) env db
  else inr (None, db)).
Proof. intros env db x db'. case_match; [|by intros [= _ <-]]. by apply sl_has_client, sl_patch_account. Qed.
Lemma sl_upsert_entity input : EntityProvision_ID input = bank -> mono (shard_le bank) (upsert_entity input).
Proof.
  intros <- env db x db'. unfold upsert_entity. case_match eqn:E; [|case_match; [done|]]; intros [= _ <-];
    apply sl_set_entity; intros e0 He; rewrite E in He; [by injection He as <-|done].
Qed.
Lemma sl_update_entity input : EntityPatch_ID input = bank -> mono (shard_le bank) (update_entity input).
Proof.
  intros <- env db x db'. unfold update_entity. case_match eqn:E; intros [= _ <-]; [|done].
  apply sl_set_entity. intros e0 He. rewrite E in He. by injection He as <-.
Qed.
End Statements.
#[export] Hint Resolve sl_card_insert sl_has_client sl_create_product sl_create_client sl_create_account sl_patch_product
  sl_move_account sl_upsert_entity sl_update_entity : shard.
#[export] Hint Extern 2 (mono _ (update_reference _ _ clients _ _ _)) => by apply sl_patch_client : shard.

(** ** The workflows of a bank *)

(** A step of the API on a bank: the shard moves along the order of the bank,
    and the committed control database is the same. *)
Definition tenant_step (bank : string) : relation world := fun w w' =>
  shard_moves (shard_le bank) w w' /\ ccommitted w w'.

Lemma frames_both {A} (R S : relation world) (m : M A) : frames R m -> frames S m -> frames (fun w w' => R w w' /\ S w w') m.
Proof. intros HR HS w r w' H. split; [by eapply HR|by eapply HS]. Qed.

Lemma vault_only_moves P `{!Reflexive P} w w' : vault_only w w' -> shard_moves P w w'.
Proof. intros (Hs & Ht & _) H. rewrite Hs, Ht. split; [reflexivity|exact H]. Qed.
Lemma vault_only_ccommitted w w' : vault_only w w' -> ccommitted w w'.
Proof. by intros (_ & _ & _ & Hc & _). Qed.

Section Workflows.
Context (hmac : string -> string -> string) (fp : Fingerprinter) (b : string).
Abbreviation R := (shard_moves (shard_le b)).

Lemma moves_ClaimIdempotency c : ShardIdempotencyClaim_Bank c = b -> frames R (ClaimIdempotency c).
Proof. intros <-. unfold ClaimIdempotency, load_idempotency, select_idempotency. frame. Qed.
Lemma moves_FinishIdempotency s k st j r a : frames R (FinishIdempotency b s k st j r a).
Proof. unfold FinishIdempotency. frame. Qed.
Lemma moves_insertCardOperation o c a r i ro e q : frames R (insertCardOperation b o c a r i ro e q).
Proof. unfold insertCardOperation. frame. Qed.
Hint Resolve moves_ClaimIdempotency moves_FinishIdempotency moves_insertCardOperation : frames.

(** Issuance, commands and retries *)
Lemma moves_claim s k body : frames R (claim hmac fp b s k body).
Proof. unfold claim. frame. Qed.
Lemma moves_newUUID : frames R newUUID.
Proof. unfold newUUID. frame. Qed.
Lemma moves_IssueReferencesValid c a p : frames R (IssueReferencesValid b c a p).
Proof. unfold IssueReferencesValid. frame. Qed.
Lemma moves_IssueCard i : frames R (IssueCard b i).
Proof. unfold IssueCard. frame. Qed.
Lemma moves_ReplaceCard i : frames R (ReplaceCard b i).
Proof. unfold ReplaceCard. frame. Qed.
Lemma moves_LockCard i : frames R (LockCard b i).
Proof. unfold LockCard. frame. Qed.
Lemma moves_ReplacementPending i : frames R (ReplacementPending b i).
Proof. unfold ReplacementPending. frame. Qed.
Lemma moves_updateCardStatus a i st u : frames R (updateCardStatus a b i st u).
Proof. unfold updateCardStatus. cbv zeta. frame. Qed.
Lemma moves_closePredecessor i : frames R (closePredecessorOnActivation b i).
Proof. unfold closePredecessorOnActivation. frame. Qed.
Hint Resolve moves_claim moves_newUUID moves_IssueReferencesValid moves_IssueCard moves_ReplaceCard moves_LockCard
  moves_ReplacementPending moves_updateCardStatus moves_closePredecessor : frames.
Lemma moves_ApplyCardCommand i : frames R (ApplyCardCommand b i).
Proof. unfold ApplyCardCommand. frame. Qed.
Hint Resolve moves_ApplyCardCommand : frames.

(** Batches *)
Lemma moves_batch_claim s k body : frames R (batch_claim hmac fp b s k body).
Proof. unfold batch_claim. frame. Qed.
Lemma moves_finish_batch s k st j i u : frames R (finish_batch b s k st j i u).
Proof. unfold finish_batch. frame. Qed.
Lemma moves_LockBatch i : frames R (LockCardStatusBatch b i).
Proof. unfold LockCardStatusBatch, select_batch. frame. Qed.
Lemma moves_draw_batch_uuid : frames R draw_batch_uuid.
Proof. unfold draw_batch_uuid. frame. Qed.
Hint Resolve moves_batch_claim moves_finish_batch moves_LockBatch moves_draw_batch_uuid : frames.
Lemma moves_newIDs n : frames R (newIDs n).
Proof. induction n as [|n IH]; cbn [newIDs]; frame. Qed.
Lemma moves_insertItems i t r c o a ro e q n : frames R (insertCardStatusBatchItems b i t r c o a ro e q n).
Proof. unfold insertCardStatusBatchItems, insert_batch_item. frame. Qed.
Hint Resolve moves_newIDs moves_insertItems : frames.
Lemma moves_CreateDraft i : frames R (CreateCardStatusBatchDraft b i).
Proof. unfold CreateCardStatusBatchDraft. frame. Qed.
Lemma moves_RetryBatch i x : frames R (RetryCardStatusBatch b i x).
Proof. unfold RetryCardStatusBatch. frame. Qed.
Lemma moves_ExecuteBatch i a r e q : frames R (ExecuteCardStatusBatch b i a r e q).
Proof. unfold ExecuteCardStatusBatch, change_batch. frame. Qed.
Lemma moves_CancelBatch i a r e q : frames R (CancelCardStatusBatch b i a r e q).
Proof. unfold CancelCardStatusBatch, change_batch. frame. Qed.
Lemma moves_or_problem {A} (m : M A) : frames R m -> frames R (or_problem m).
Proof. intros Hm. unfold or_problem. frame_with ltac:(try solve [auto with frames | exact Hm]). Qed.
Hint Resolve moves_CreateDraft moves_RetryBatch moves_ExecuteBatch moves_CancelBatch moves_or_problem : frames.

Lemma moves_CreateBatchWorkflow p k t r ids q : frames R (CreateCardStatusBatchWorkflow hmac fp p b k t r ids q).
Proof. unfold CreateCardStatusBatchWorkflow, create_claimed, CardsExist. frame. Qed.
Lemma moves_change p i k body q a : frames R (change hmac fp p b i k body q a).
Proof. unfold change. cbv zeta. destruct (a == "execute"); frame. Qed.
Lemma moves_RetryBatchWorkflow p i k body q : frames R (RetryCardStatusBatchWorkflow hmac fp p b i k body q).
Proof. unfold RetryCardStatusBatchWorkflow, retry_claimed. frame. Qed.

(** Products, clients and accounts *)
Lemma moves_catalog_claim s k body : frames R (catalog_claim hmac fp b s k body).
Proof. unfold catalog_claim. frame. Qed.
Hint Resolve moves_catalog_claim : frames.
Lemma moves_updated {A} (m : M (option A)) : frames R m -> frames R (updated m).
Proof. intros Hm. unfold updated. frame_with ltac:(try solve [auto with frames | exact Hm]). Qed.
Lemma moves_RecordReferenceAudit a : ReferenceAudit_Bank a = b -> frames R (RecordReferenceAudit a).
Proof. intros <-. unfold RecordReferenceAudit. frame. Qed.
Hint Resolve moves_updated moves_RecordReferenceAudit : frames.
Lemma moves_mutate p kind k input q (create : M (json * string)) : frames R create -> frames R (mutate hmac fp p b kind k input q create).
Proof. intros Hc. unfold mutate. frame_with ltac:(try solve [auto with frames shard | exact Hc]). Qed.
Lemma moves_patch p kind i k input q (change : M (option json)) : frames R change -> frames R (patch hmac fp p b kind i k input q change).
Proof. intros Hc. unfold patch. frame_with ltac:(try solve [auto with frames shard | exact Hc]). Qed.
Lemma moves_CreateCardProduct p k c n s cfg q : frames R (CreateCardProductWorkflow hmac fp p b k c n s cfg q).
Proof. apply moves_mutate. unfold CreateCardProduct. frame. Qed.
Lemma moves_CreateClient p k e d q : frames R (CreateClientWorkflow hmac fp p b k e d q).
Proof. apply moves_mutate. unfold CreateClient. frame. Qed.
Lemma moves_CreateAccount p k c e q : frames R (CreateAccountReferenceWorkflow hmac fp p b k c e q).
Proof. apply moves_mutate. unfold CreateAccountReference. frame. Qed.
Lemma moves_PatchProduct p i k n s cfg q : frames R (PatchCardProductWorkflow hmac fp p b i k n s cfg q).
Proof. apply moves_patch. unfold UpdateCardProduct. frame. Qed.
Lemma moves_PatchClient p i k d q : frames R (PatchClientWorkflow hmac fp p b i k d q).
Proof. apply moves_patch. unfold UpdateClient. frame. Qed.
Lemma moves_PatchAccount p i k c q : frames R (PatchAccountReferenceWorkflow hmac fp p b i k c q).
Proof. apply moves_patch. unfold UpdateAccountReference. frame. Qed.

Context `{V : CredentialVault, !VaultLaws V} (configured : bool).
Lemma moves_cv_Provision id : frames R (cv_Provision id).
Proof. eapply frames_mono; [apply vault_only_moves, _|apply provision_frame]. Qed.
Lemma moves_cv_Revoke id : frames R (cv_Revoke id).
Proof. eapply frames_mono; [apply vault_only_moves, _|apply revoke_frame]. Qed.
Hint Resolve moves_cv_Provision moves_cv_Revoke : frames.
Lemma moves_IssueCardWorkflow p k body c a pr r q : frames R (IssueCardWorkflow hmac fp configured p b k body c a pr r q).
Proof. unfold IssueCardWorkflow, issue_claimed. frame. Qed.
Lemma moves_CardCommandWorkflow p i a k body r q : frames R (CardCommandWorkflow hmac fp configured p b i a k body r q).
Proof. unfold CardCommandWorkflow, replace, command_locked. frame. Qed.
Lemma moves_RetryExpiry p ru i k body q : frames R (RetryExpiryWorkflow hmac fp p b ru i k body q).
Proof. unfold RetryExpiryWorkflow, RetryExpiryItem, RecordExpiryRetryAudit, reopen_run, retry_item. frame. Qed.
End Workflows.

(** ** What every shard call respects *)

#[export] Instance ccommitted_db : DbRel ccommitted.
Proof. split; [apply _|intros; apply ccommitted_exec]. Qed.

(** A relation the statements, the commit and the vault calls respect, whatever
    they do. *)
Class CallRel (R : relation world) := {
  cr_db :: DbRel R;
  cr_commit : frames R shard_commit;
  cr_vault w w' : vault_only w w' -> R w w'
}.
#[export] Hint Resolve cr_commit : frames.
#[export] Hint Extern 2 (CallRel _) => apply _ : frames.
#[export] Instance ccommitted_call : CallRel ccommitted.
Proof. split; [apply _|apply ccommitted_commit|apply vault_only_ccommitted]. Qed.
#[export] Instance later_call : CallRel later.
Proof. split; [apply _|apply later_commit|]. intros w w' (_ & _ & _ & _ & _ & _ & H). exact H. Qed.

Section Calls.
Context (R : relation world) `{!CallRel R} (hmac : string -> string -> string) (fp : Fingerprinter) (b : string).
Ltac calls := frame_with ltac:(try solve [auto 6 with frames]).

Lemma calls_updated {A} (m : M (option A)) : frames R m -> frames R (updated m).
Proof. intros Hm. unfold updated. frame_with ltac:(try solve [auto with frames | exact Hm]). Qed.
Lemma calls_catalog_claim s k body : frames R (catalog_claim hmac fp b s k body).
Proof. unfold catalog_claim. calls. Qed.
Hint Resolve calls_updated calls_catalog_claim : frames.
Lemma calls_mutate p kind k input q (create : M (json * string)) : frames R create -> frames R (mutate hmac fp p b kind k input q create).
Proof. intros Hc. unfold mutate, RecordReferenceAudit. frame_with ltac:(try solve [auto with frames | exact Hc]). Qed.
Lemma calls_patch p kind i k input q (change : M (option json)) : frames R change -> frames R (patch hmac fp p b kind i k input q change).
Proof. intros Hc. unfold patch, RecordReferenceAudit. frame_with ltac:(try solve [auto with frames | exact Hc]). Qed.
Lemma calls_CreateCardProduct p k c n s cfg q : frames R (CreateCardProductWorkflow hmac fp p b k c n s cfg q).
Proof. apply calls_mutate. unfold CreateCardProduct. calls. Qed.
Lemma calls_CreateClient p k e d q : frames R (CreateClientWorkflow hmac fp p b k e d q).
Proof. apply calls_mutate. unfold CreateClient. calls. Qed.
Lemma calls_CreateAccount p k c e q : frames R (CreateAccountReferenceWorkflow hmac fp p b k c e q).
Proof. apply calls_mutate. unfold CreateAccountReference. calls. Qed.
Lemma calls_PatchProduct p i k n s cfg q : frames R (PatchCardProductWorkflow hmac fp p b i k n s cfg q).
Proof. apply calls_patch. unfold UpdateCardProduct. calls. Qed.
Lemma calls_PatchClient p i k d q : frames R (PatchClientWorkflow hmac fp p b i k d q).
Proof. apply calls_patch. unfold UpdateClient. calls. Qed.
Lemma calls_PatchAccount p i k c q : frames R (PatchAccountReferenceWorkflow hmac fp p b i k c q).
Proof. apply calls_patch. unfold UpdateAccountReference. calls. Qed.

Lemma calls_finish_batch s k st j i u : frames R (finish_batch b s k st j i u).
Proof. unfold finish_batch. calls. Qed.
Hint Resolve calls_finish_batch : frames.
Lemma calls_CreateBatch p k t r ids q : frames R (CreateCardStatusBatchWorkflow hmac fp p b k t r ids q).
Proof. unfold CreateCardStatusBatchWorkflow, create_claimed. calls. Qed.
Lemma calls_change p i k body q a : frames R (change hmac fp p b i k body q a).
Proof. unfold change. cbv zeta. destruct (a == "execute"); calls. Qed.
Lemma calls_RetryBatch p i k body q : frames R (RetryCardStatusBatchWorkflow hmac fp p b i k body q).
Proof. unfold RetryCardStatusBatchWorkflow, retry_claimed. calls. Qed.

Context `{V : CredentialVault, !VaultLaws V} (configured : bool).
Lemma calls_Provision id : frames R (cv_Provision id).
Proof. eapply frames_mono; [apply cr_vault|apply provision_frame]. Qed.
Lemma calls_Revoke id : frames R (cv_Revoke id).
Proof. eapply frames_mono; [apply cr_vault|apply revoke_frame]. Qed.
Hint Resolve calls_Provision calls_Revoke : frames.
Lemma calls_IssueCard p k body c a pr r q : frames R (IssueCardWorkflow hmac fp configured p b k body c a pr r q).
Proof. unfold IssueCardWorkflow, issue_claimed. calls. Qed.
Lemma calls_CardCommand p i a k body r q : frames R (CardCommandWorkflow hmac fp configured p b i a k body r q).
Proof. unfold CardCommandWorkflow, replace, command_locked. calls. Qed.
Lemma calls_RetryExpiry p ru i k body q : frames R (RetryExpiryWorkflow hmac fp p b ru i k body q).
Proof. unfold RetryExpiryWorkflow. calls. Qed.
End Calls.

(** ** Reads *)

(** A relation every read respects. *)
Class ReadRel (R : relation world) := {
  rr_rel :: WorldRel R;
  rr_query A (g : sql_env -> shard_db -> A) : frames R (shard_exec (query g));
  rr_commit : frames R shard_commit;
  rr_control A (g : sql_env -> control_db -> A) : frames R (control_read g)
}.
#[export] Hint Resolve rr_query rr_commit rr_control : frames.
#[export] Hint Extern 2 (ReadRel _) => apply _ : frames.

(** Databases and vault are what they were. *)
Definition unchanged : relation world := fun w w' =>
  w_shard w' = w_shard w /\ w_control w' = w_control w /\ w_vault w' = w_vault w.
Definition quiet : relation world := fun w w' => shard_moves eq w w' /\ ccommitted w w' /\ w_vault w' = w_vault w.
#[export] Instance quiet_preorder : PreOrder quiet.
Proof.
  split; [intros w; split; [reflexivity|done]|].
  intros a b c (H1 & H2 & H3) (H1' & H2' & H3'). split; [by etrans|]. split; [by etrans|congruence].
Qed.
Lemma quiet_unchanged w w' : w_shard_tx w = None -> quiet w w' -> unchanged w w'.
Proof. intros Htx (Hs & Hc & Hv). destruct Hs as [Hs _]; [congruence|]. by split. Qed.

#[export] Instance quiet_read : ReadRel quiet.
Proof.
  assert (Hrel : forall A (m : M A), frames (shard_moves eq) m -> frames ccommitted m -> frames vault_same m -> frames quiet m).
  { intros A m H1 H2 H3 w r w' H. split; [by eapply H1|]. split; [by eapply H2|]. by eapply H3. }
  split; [split; [apply _|..]| | |]; intros; apply Hrel; auto with frames.
  - apply moves_exec; [apply _|]. by intros env db a db' [= _ <-].
  - apply moves_control_auto, _.
  - by intros w r w' (Hc & _)%control_read_run.
  - intros w r w'. unfold control_read, control_auto, query, pop_event. repeat case_match; intros; simplify_eq/=; done.
Qed.

(** A question to the directory: the shard and its transaction are not touched
    either. *)
Definition asks : relation world := fun w w' =>
  w_shard w' = w_shard w /\ w_shard_tx w' = w_shard_tx w /\ w_control w' = w_control w /\ w_vault w' = w_vault w.
#[export] Instance asks_preorder : PreOrder asks.
Proof. split; [by intros w|]. unfold asks. intros a b c. intuition congruence. Qed.
Lemma asks_control_read {A} (g : sql_env -> control_db -> A) : frames asks (control_read g).
Proof. intros w r w'. unfold control_read, control_auto, query, pop_event. repeat case_match; intros; simplify_eq/=; done. Qed.
#[export] Hint Resolve asks_control_read : frames.
Lemma asks_CanReadBank shardID p bank : frames asks (CanReadBank shardID p bank).
Proof. unfold CanReadBank, CanRead, Active, holds, HasActiveRoute. frame_with ltac:(auto with frames). Qed.

Section Reads.
Context (R : relation world) `{!ReadRel R} (b : string).
Ltac reads := frame_with ltac:(try solve [auto 6 with frames]).

Lemma reads_beginTenant : frames R (beginTenant b).
Proof. unfold beginTenant. reads. Qed.
Hint Resolve reads_beginTenant : frames.
Lemma reads_rows {A} what (q : shard_db -> A) : frames R (read_rows b what q).
Proof. unfold read_rows. reads. Qed.
Lemma reads_row {A} what (q : shard_db -> option A) : frames R (read_row b what q).
Proof. unfold read_row. reads. Qed.
Hint Resolve @reads_rows @reads_row : frames.
Lemma reads_items {A} (encode : A -> json) (m : M (list A)) : frames R m -> frames R (marshalItems encode m).
Proof. intros Hm. unfold marshalItems. frame_with ltac:(try solve [auto with frames | exact Hm]). Qed.
Lemma reads_ListCards c a p s : frames R (ListCards b c a p s).
Proof. apply reads_items, reads_rows. Qed.
Lemma reads_GetCard i : frames R (GetCard b i).
Proof. unfold GetCard, reader_Card. reads. Qed.
Lemma reads_ListCardOperations i : frames R (ListCardOperations b i).
Proof. apply reads_items, reads_rows. Qed.
Lemma reads_ListCardStatusHistory i : frames R (ListCardStatusHistory b i).
Proof. apply reads_items, reads_rows. Qed.
Lemma reads_ListReference kind : frames R (ListReference b kind).
Proof. unfold ListReference, catalog_marshalItems, reader_CardProducts, reader_Clients, reader_AccountReferences. reads. Qed.
Lemma reads_GetReference kind i : frames R (GetReference b kind i).
Proof. unfold GetReference, reader_CardProduct, reader_Client, reader_AccountReference. reads. Qed.
Lemma reads_ListBatches : frames R (ListCardStatusBatches b).
Proof. unfold ListCardStatusBatches, batch_marshalItems, reader_CardStatusBatches. reads. Qed.
Lemma reads_GetBatch i : frames R (GetCardStatusBatch b i).
Proof. unfold GetCardStatusBatch, reader_CardStatusBatch, select_batch. reads. Qed.
Lemma reads_ListBatchItems i : frames R (ListCardStatusBatchItems b i).
Proof. unfold ListCardStatusBatchItems, batch_marshalItems, reader_CardStatusBatchItems, select_items. reads. Qed.
Lemma reads_bank_entity : frames R (bank_entity b).
Proof. unfold bank_entity, reader_Entity. reads. Qed.
End Reads.
Section DirectoryReads.
Context (R : relation world) `{!ReadRel R} (shardID : string).
Ltac reads := frame_with ltac:(try solve [auto 6 with frames | apply reads_bank_entity, _]).
Lemma reads_ListBanks : frames R (ListBanks shardID).
Proof. unfold ListBanks, list_bank, Banks. reads. Qed.
Lemma reads_GetBank i : frames R (GetBank shardID i).
Proof. unfold GetBank, ActiveOrProvisioning, holds, HasActiveOrProvisioningRoute. reads. Qed.
Lemma reads_ListUsers : frames R ListUsers.
Proof. unfold ListUsers, Users. reads. Qed.
Lemma reads_GetUser i : frames R (GetUser i).
Proof. unfold GetUser, User. reads. Qed.
End DirectoryReads.
