(* ===== verification/ApiSafety.v ===== *)
(** * ApiSafety: who may change what through the API

    A request is confined: whatever faults occur, it leaves both databases and
    the vault as they are, or its token was accepted and its role and bank allow
    what it changes.  The handlers are treated against the laws of their
    dependencies ([ApiLaws]), which the services satisfy ([Api]). *)

From S2P Require Import Prelude Text Json JsonText Http Uuid World ShardTx ShardOrder AuthTypes Requests Pagination ResourceHandlers CardSafety BankSafety ApiOrder.
Open Scope string_scope.
Open Scope list_scope.
Open Scope Z_scope.

(** ** The laws of the dependencies *)

(** [granted principal bank w]: the directory of [w] gives the principal access
    to the bank. *)
Class ApiLaws (granted : Principal -> string -> world -> Prop)
    `{BankService, BankAccess, CatalogService, CardService, BatchService, StaffService, Authentication} := {
  (** Validation looks at the token and the clock alone. *)
  al_validate token w r w' : svc_ValidateAccess token w = (r, w') -> w' = w;
  (** The question of access is answered, and changes nothing. *)
  al_access_answers p b w r w' : svc_CanReadBank p b w = (r, w') -> asks w w' /\ exists ok, r = inr ok;
  al_access p b w w' : svc_CanReadBank p b w = (inr true, w') -> granted p b w;
  (** Reads *)
  al_ListBanks : frames quiet svc_ListBanks;
  al_GetBank i : frames quiet (svc_GetBank i);
  al_ListReference b k : frames quiet (svc_ListReference b k);
  al_GetReference b k i : frames quiet (svc_GetReference b k i);
  al_ListCards b c a p s : frames quiet (svc_ListCards b c a p s);
  al_GetCard b i : frames quiet (svc_GetCard b i);
  al_ListCardOperations b i : frames quiet (svc_ListCardOperations b i);
  al_ListCardStatusHistory b i : frames quiet (svc_ListCardStatusHistory b i);
  al_ListBatches b : frames quiet (svc_ListCardStatusBatches b);
  al_GetBatch b i : frames quiet (svc_GetCardStatusBatch b i);
  al_ListBatchItems b i : frames quiet (svc_ListCardStatusBatchItems b i);
  al_ListUsers : frames quiet svc_ListUsers;
  al_GetUser i : frames quiet (svc_GetUser i);
  (** The workflows of a bank *)
  al_CreateCardProduct p b k body c n s cfg q : frames (tenant_step b) (svc_CreateCardProductWorkflow p b k body c n s cfg q);
  al_CreateClient p b k body e d q : frames (tenant_step b) (svc_CreateClientWorkflow p b k body e d q);
  al_CreateAccount p b k body c e q : frames (tenant_step b) (svc_CreateAccountReferenceWorkflow p b k body c e q);
  al_PatchCardProduct p b i k body n s cfg q : frames (tenant_step b) (svc_PatchCardProductWorkflow p b i k body n s cfg q);
  al_PatchClient p b i k body d q : frames (tenant_step b) (svc_PatchClientWorkflow p b i k body d q);
  al_PatchAccount p b i k body c q : frames (tenant_step b) (svc_PatchAccountReferenceWorkflow p b i k body c q);
  al_IssueCard p b k body c a pr r q : frames (tenant_step b) (svc_IssueCardWorkflow p b k body c a pr r q);
  al_CardCommand p b i a k body r q : frames (tenant_step b) (svc_CardCommandWorkflow p b i a k body r q);
  al_RetryExpiry p b ru i k body r q : frames (tenant_step b) (svc_RetryExpiryWorkflow p b ru i k body r q);
  al_CreateBatch p b k body t r ids q : frames (tenant_step b) (svc_CreateCardStatusBatchWorkflow p b k body t r ids q);
  al_ExecuteBatch p b i k body q : frames (tenant_step b) (svc_ExecuteCardStatusBatchWorkflow p b i k body q);
  al_CancelBatch p b i k body q : frames (tenant_step b) (svc_CancelCardStatusBatchWorkflow p b i k body q);
  al_RetryBatch p b i k body q : frames (tenant_step b) (svc_RetryCardStatusBatchWorkflow p b i k body q)
}.
(** Applies the law of a dependency. *)
Ltac api_law := first
  [eapply al_ListBanks | eapply al_GetBank | eapply al_ListReference | eapply al_GetReference | eapply al_ListCards
  |eapply al_GetCard | eapply al_ListCardOperations | eapply al_ListCardStatusHistory | eapply al_ListBatches | eapply al_GetBatch
  |eapply al_ListBatchItems | eapply al_ListUsers | eapply al_GetUser | eapply al_CreateCardProduct | eapply al_CreateClient
  |eapply al_CreateAccount | eapply al_PatchCardProduct | eapply al_PatchClient | eapply al_PatchAccount | eapply al_IssueCard
  |eapply al_CardCommand | eapply al_RetryExpiry | eapply al_CreateBatch | eapply al_ExecuteBatch | eapply al_CancelBatch
  |eapply al_RetryBatch].

#[export] Instance tenant_step_preorder bank : PreOrder (tenant_step bank).
Proof.
  split; [intros w; split; reflexivity|]. intros a b c [H1 H2] [H3 H4]. split; by etrans.
Qed.

(** The bank whose resources a request names. *)
Definition request_bank (r : Request) : option string :=
  let path := TrimPrefix (rq_path r) "/v1/" in
  if String.prefix "banks/" path then
    match split slash (TrimPrefix path "banks/") with bank :: _ :: _ => Some bank | _ => None end
  else None.
Lemma split_without_slash s : contains_slash s = false -> split slash s = [s].
Proof.
  intros Hs. apply split_free, Forall_forall. intros c Hc. apply not_true_iff_false. intros E. apply not_true_iff_false in Hs. apply Hs.
  apply existsb_exists. exists c. split; [by apply list_elem_of_In|done].
Qed.

Lemma users_not_banks path : String.prefix "users/" path = true -> String.prefix "banks/" path = false.
Proof.
  destruct path as [|c path]; [done|]. cbn [String.prefix].
  match goal with |- context [Ascii.ascii_dec ?u c] => destruct (Ascii.ascii_dec u c) as [<-|_]; [|done] end. done.
Qed.

(** A handler always replies. *)
Definition replies (m : M Reply) : Prop := forall w x w', m w = (x, w') -> exists reply, x = inr reply.
Lemma replies_ret reply : replies (mret reply).
Proof. intros w x w' [= <- <-]. eauto. Qed.
Lemma replies_answer {A} r (m : M A) ok : replies (answer r m ok).
Proof. intros w x w'. unfold answer, try, mbind, M_bind. destruct (m w). intros [= <- <-]. eauto. Qed.
Lemma replies_answer_found {A} r (m : M A) ok : replies (answer_found r m ok).
Proof. intros w x w'. unfold answer_found, try, mbind, M_bind. destruct (m w). intros [= <- <-]. eauto. Qed.
Lemma replies_with_key r k : (forall key, replies (k key)) -> replies (with_key r k).
Proof. intros Hk. unfold with_key. case_match; [apply replies_ret|apply Hk]. Qed.

(** ** Confined handlers *)

Section Handlers.
Context (hmac : string -> string -> string) (cursorKey : string) (number : string -> json).
Context (granted : Principal -> string -> world -> Prop)
  `{BankService, BankAccess, CatalogService, CardService, BatchService, StaffService, Authentication, !ApiLaws granted}.

Section OfBank.
Context (claims : Claims) (bank : string).

(** A handler that replies, and changes something only for an operator and only
    in the bank. *)
Definition confined (m : M Reply) : Prop := forall w x w', m w = (x, w') ->
  (exists reply, x = inr reply) /\ (quiet w w' \/ operator claims = true /\ tenant_step bank w w').

Lemma confined_ret reply : confined (mret reply).
Proof. intros w x w' [= <- <-]. split; [eauto|]. left. reflexivity. Qed.
Lemma confined_read {A} r (m : M A) ok : frames quiet m -> confined (answer r m ok).
Proof.
  intros Hm w x w'. unfold answer, try, mbind, M_bind. destruct (m w) as [y w1] eqn:E. intros [= <- <-]. split; [eauto|].
  left. by eapply Hm.
Qed.
Lemma confined_found {A} r (m : M A) ok : frames quiet m -> confined (answer_found r m ok).
Proof.
  intros Hm w x w'. unfold answer_found, try, mbind, M_bind. destruct (m w) as [y w1] eqn:E. intros [= <- <-]. split; [eauto|].
  left. by eapply Hm.
Qed.
Lemma confined_write {A} r (m : M A) ok : operator claims = true -> frames (tenant_step bank) m -> confined (answer r m ok).
Proof.
  intros Hop Hm w x w'. unfold answer, try, mbind, M_bind. destruct (m w) as [y w1] eqn:E. intros [= <- <-]. split; [eauto|].
  right. split; [done|]. by eapply Hm.
Qed.
Lemma confined_with_key r k : (forall key, confined (k key)) -> confined (with_key r k).
Proof. intros Hk. unfold with_key. case_match; [apply confined_ret|apply Hk]. Qed.
Lemma confined_with_reason r k : (forall key reason, confined (k key reason)) -> confined (with_reason r k).
Proof. intros Hk. unfold with_reason. repeat case_match; try apply confined_ret. apply confined_with_key. intros key. apply Hk. Qed.

Lemma operator_spec : operator claims = negb ((role claims != "issuer_operator") && (role claims != "bank_operator")).
Proof. unfold operator. by rewrite negb_andb, !negb_involutive. Qed.
End OfBank.

Ltac reply :=
  lazymatch goal with
  | |- replies (mret _) => apply replies_ret
  | |- replies (with_key _ _) => apply replies_with_key; intro; reply
  | |- replies (answer _ _ _) => apply replies_answer
  | |- replies (answer_found _ _ _) => apply replies_answer_found
  | |- replies (match ?x with _ => _ end) => destruct x; reply
  | |- _ => idtac
  end.

(** Splits a handler into its branches: a fixed reply, a read, or a workflow an
    operator asked for. *)
Ltac confine :=
  lazymatch goal with
  | |- confined _ _ (mret _) => apply confined_ret
  | |- confined _ _ (with_key _ _) => apply confined_with_key; intro; confine
  | |- confined _ _ (with_reason _ _) => apply confined_with_reason; do 2 intro; confine
  | |- confined _ _ (answer _ _ _) => first [solve [apply confined_read; api_law] | apply confined_write; [|solve [api_law]]]
  | |- confined _ _ (answer_found _ _ _) => apply confined_found; api_law
  | |- confined _ _ (match ?x with _ => _ end) => let E := fresh "E" in destruct x eqn:E; confine
  | |- _ => idtac
  end.

Section BankHandlers.
Context (r : Request) (claims : Claims) (bank : string).

Lemma confined_referenceCreate kind : confined claims bank (referenceCreate number r claims bank kind).
Proof.
  unfold referenceCreate. destruct ((role claims != "issuer_operator") && (role claims != "bank_operator")) eqn:E; [apply confined_ret|].
  assert (operator claims = true) by by rewrite operator_spec, E.
  unfold product_create, client_create, account_create. cbv zeta. confine; done.
Qed.
Lemma confined_referencePatch kind id : confined claims bank (referencePatch number r claims bank kind id).
Proof.
  unfold referencePatch. destruct (role claims != "issuer_operator") eqn:E; [apply confined_ret|].
  assert (operator claims = true) by (unfold operator; apply negb_false_iff in E; by rewrite E).
  unfold product_patch, client_patch, account_patch. cbv zeta. confine; done.
Qed.
Lemma confined_card_issue : operator claims = true -> confined claims bank (card_issue r claims bank).
Proof. intros Hop. unfold card_issue. cbv zeta. confine; done. Qed.
Lemma confined_card_command id action : confined claims bank (card_command r claims bank id action).
Proof.
  unfold card_command. match goal with |- context [if ?g then mret _ else _] => destruct g eqn:E end; [apply confined_ret|].
  assert (operator claims = true).
  { destruct (action == "replace"); [by apply negb_false_iff|]. apply orb_false_iff in E as [_ E]. by apply negb_false_iff. }
  confine; done.
Qed.
Lemma confined_createBatch : confined claims bank (createCardStatusBatch r claims bank).
Proof.
  unfold createCardStatusBatch. destruct (canManageCardStatusBatches claims) eqn:E; [|apply confined_ret]. cbn [negb]. confine; done.
Qed.
Lemma confined_batchCommand id action : confined claims bank (cardStatusBatchCommand r claims bank id action).
Proof.
  unfold cardStatusBatchCommand. destruct (rq_method r != "POST"); [apply confined_ret|].
  destruct (canManageCardStatusBatches claims) eqn:E; [|apply confined_ret]. cbn [negb]. cbv zeta. confine; done.
Qed.

(** After the question of access. *)
Definition gated (m : M Reply) : Prop := forall w x w', w_shard_tx w = None -> m w = (x, w') ->
  (exists reply, x = inr reply) /\
  (unchanged w w' \/ operator claims = true /\ granted (claims_Principal claims) bank w /\
     shard_le bank (w_shard w) (w_shard w') /\ w_control w' = w_control w).

Lemma asks_unchanged w w' : asks w w' -> unchanged w w'.
Proof. intros (? & _ & ? & ?). by split. Qed.
Lemma gated_by (ask : M bool) (k : bool -> M Reply) :
  (ask = svc_CanReadBank (claims_Principal claims) bank \/ ask = mret false) ->
  (exists refusal, k false = mret refusal) -> confined claims bank (k true) -> gated (ok ← ask; k ok).
Proof.
  intros Hask [refusal Hno] Hk w x w' Htx Hrun.
  assert (Hasked : forall a w1, ask w = (a, w1) -> asks w w1 /\ exists ok, a = inr ok /\ (ok = true -> granted (claims_Principal claims) bank w)).
  { destruct Hask as [-> | ->]; intros a w1 E.
    - destruct (al_access_answers _ _ _ _ _ E) as [Ha [ok ->]]. split; [done|]. exists ok. split; [done|]. intros ->. by eapply al_access.
    - injection E as <- <-. split; [reflexivity|]. exists false. done. }
  apply bind_run in Hrun as [(e & -> & E)|(ok & w1 & E & Hrun)]; destruct (Hasked _ _ E) as [Ha (ok' & Hok & Hg)]; [done|].
  injection Hok as <-. pose proof Ha as (Hs & Ht & Hc & Hv). destruct ok.
  - destruct (Hk _ _ _ Hrun) as [Hreply [Hq|[Hop [Hm Hcc]]]]; (split; [done|]).
    + left. apply quiet_unchanged in Hq as (Hs' & Hc' & Hv'); [|congruence]. repeat split; congruence.
    + right. split; [done|]. split; [by apply Hg|]. destruct Hm as [Hm _]; [congruence|]. rewrite <- Hs. split; [done|].
      unfold ccommitted in Hcc. congruence.
  - rewrite Hno in Hrun. injection Hrun as <- <-. split; [eauto|]. left. by apply asks_unchanged.
Qed.
Lemma may_read_ask : may_read claims bank = svc_CanReadBank (claims_Principal claims) bank \/ may_read claims bank = mret false.
Proof. unfold may_read. case_match; auto. Qed.

Lemma gated_cardReads tail : gated (cardReads hmac cursorKey r claims bank tail).
Proof.
  apply gated_by; [apply may_read_ask|by eexists|]. cbn [negb]. unfold card_list, collection_of. cbv zeta. confine.
Qed.
Lemma gated_cardWrites tail : gated (cardWrites r claims bank tail).
Proof.
  apply gated_by; [apply may_read_ask|by eexists|]. cbn [negb].
  destruct tail as [|last [|? ?]]; [destruct (operator claims) eqn:E; [by apply confined_card_issue|apply confined_ret]| |apply confined_ret].
  confine. apply confined_card_command.
Qed.
Lemma gated_batches tail : gated (cardStatusBatches hmac cursorKey r claims bank tail).
Proof.
  apply gated_by; [apply may_read_ask|by eexists|]. cbn [negb]. cbv zeta. unfold collection_of.
  confine; first [apply confined_createBatch | apply confined_batchCommand].
Qed.
Lemma gated_reference kind tail : gated (referenceResource hmac cursorKey number r claims bank kind tail).
Proof.
  apply gated_by; [apply may_read_ask|by eexists|]. cbn [negb]. unfold collection_of.
  confine; first [apply confined_referenceCreate | apply confined_referencePatch].
Qed.
Lemma gated_expiryRetry tail : gated (expiryRetry r claims bank tail).
Proof.
  unfold expiryRetry. destruct (role claims == "issuer_operator") eqn:E.
  - apply (gated_by _ (fun readable => match (if readable then tail else []) with _ => _ end)); [by left|by eexists|].
    assert (operator claims = true) by (unfold operator; by rewrite E). confine; done.
  - intros w x w' _ [= <- <-]. split; [eauto|]. by left.
Qed.
End BankHandlers.

(** ** Routing *)

Lemma replies_directory r claims path id : replies (banks hmac cursorKey r claims) /\ replies (users hmac cursorKey r claims) /\
  replies (user r claims path) /\ replies (bank r claims id).
Proof.
  unfold banks, users, user, bank, collection_of, banks_create, users_create, user_change, user_disable, user_set_password, bank_change.
  cbv zeta. split_and!; reply.
Qed.

(** The directory is changed only by an operator of the issuer. *)
Lemma directory_denied r claims path id : role claims <> "issuer_operator" ->
  banks hmac cursorKey r claims = mret (forbidden r) /\ users hmac cursorKey r claims = mret (forbidden r) /\
  user r claims path = mret (forbidden r) /\ bank r claims id = mret (forbidden r).
Proof. intros Hrole. apply String.eqb_neq in Hrole. unfold banks, users, user, bank. rewrite Hrole. done. Qed.

(** What an accepted request may have done: nothing; in a bank it names, for an
    operator with access to the bank, a step of that bank; in the directory,
    anything for an operator of the issuer. *)
Definition permitted (r : Request) (claims : Claims) (w w' : world) : Prop :=
  match request_bank r with
  | Some bank =>
      operator claims = true /\ granted (claims_Principal claims) bank w /\ shard_le bank (w_shard w) (w_shard w') /\
      w_control w' = w_control w
  | None => role claims = "issuer_operator"
  end.

Lemma bankResource_permitted r claims tail w x w' :
  (forall bank kind more, split slash tail = bank :: kind :: more -> request_bank r = Some bank) -> w_shard_tx w = None ->
  bankResource hmac cursorKey number r claims tail w = (x, w') ->
  (exists reply, x = inr reply) /\ (unchanged w w' \/ permitted r claims w w').
Proof.
  intros Hbank Htx Hrun.
  assert (Hnone : forall reply : Reply, (mret reply : M Reply) w = (x, w') -> (exists reply, x = inr reply) /\ (unchanged w w' \/ permitted r claims w w')).
  { intros reply [= <- <-]. split; [eauto|]. by left. }
  unfold bankResource in Hrun. destruct (split slash tail) as [|b [|kind more]]; [by eapply Hnone..|].
  specialize (Hbank b kind more eq_refl).
  assert (Hgated : forall m, gated claims b m -> m w = (x, w') ->
    (exists reply, x = inr reply) /\ (unchanged w w' \/ permitted r claims w w')).
  { intros m Hm E. destruct (Hm _ _ _ Htx E) as [Hr [Hu|Hw]]; (split; [done|]); [by left|right]. unfold permitted. by rewrite Hbank. }
  repeat case_match; first [by eapply Hnone | eapply Hgated; [|exact Hrun]].
  - apply gated_cardReads.
  - apply gated_cardWrites.
  - apply gated_expiryRetry.
  - apply gated_batches.
  - apply gated_reference.
Qed.

Lemma route_permitted r claims w x w' : w_shard_tx w = None -> route hmac cursorKey number r claims w = (x, w') ->
  (exists reply, x = inr reply) /\ (unchanged w w' \/ permitted r claims w w').
Proof.
  intros Htx Hrun. unfold route in Hrun. set (path := TrimPrefix (rq_path r) "/v1/") in *.
  assert (Hdir : forall m : M Reply, replies m -> request_bank r = None -> (role claims <> "issuer_operator" -> m = mret (forbidden r)) ->
    m w = (x, w') -> (exists reply, x = inr reply) /\ (unchanged w w' \/ permitted r claims w w')).
  { intros m Hm Hnone Hno E. split; [by eapply Hm|]. destruct (decide (role claims = "issuer_operator")) as [Hr|Hr].
    - right. unfold permitted. by rewrite Hnone.
    - left. rewrite (Hno Hr) in E. injection E as <- <-. done. }
  destruct (replies_directory r claims (TrimPrefix path "users/") (TrimPrefix path "banks/")) as (R1 & R2 & R3 & R4).
  assert (Hden := directory_denied r claims (TrimPrefix path "users/") (TrimPrefix path "banks/")).
  destruct (String.eqb_spec path "banks") as [E|_]; [eapply Hdir; [exact R1| |intros Hr; by destruct (Hden Hr) as (? & ? & ? & ?)|exact Hrun]|].
  { unfold request_bank. fold path. by rewrite E. }
  destruct (String.eqb_spec path "users") as [E|_]; [eapply Hdir; [exact R2| |intros Hr; by destruct (Hden Hr) as (? & ? & ? & ?)|exact Hrun]|].
  { unfold request_bank. fold path. by rewrite E. }
  destruct (String.prefix "users/" path) eqn:Eu; [eapply Hdir; [exact R3| |intros Hr; by destruct (Hden Hr) as (? & ? & ? & ?)|exact Hrun]|].
  { unfold request_bank. fold path. by rewrite users_not_banks. }
  destruct (String.prefix "banks/" path) eqn:Eb.
  - destruct (contains_slash (TrimPrefix path "banks/")) eqn:Es; cbn [negb] in Hrun.
    + eapply bankResource_permitted; [|exact Htx|exact Hrun]. intros b kind more Hsplit. unfold request_bank. fold path. by rewrite Eb, Hsplit.
    + eapply Hdir; [exact R4| |intros Hr; by destruct (Hden Hr) as (? & ? & ? & ?)|exact Hrun]. unfold request_bank. fold path. rewrite Eb. by rewrite split_without_slash.
  - injection Hrun as <- <-. split; [eauto|]. by left.
Qed.

Lemma ServeHTTP_permitted r w x w' : w_shard_tx w = None -> ServeHTTP hmac cursorKey number r w = (x, w') ->
  (exists reply, x = inr reply) /\
  (unchanged w w' \/ exists token claims, bearer r = Some token /\ svc_ValidateAccess token w = (inr claims, w) /\
     permitted r claims w w').
Proof.
  intros Htx. unfold ServeHTTP, authenticate. destruct (bearer r) as [token|] eqn:Eb.
  - unfold try, mbind, M_bind. destruct (svc_ValidateAccess token w) as [[e|claims] w1] eqn:Ev;
      pose proof (al_validate _ _ _ _ Ev) as ->; cbn.
    + intros [= <- <-]. split; [eauto|]. by left.
    + intros Hrun. apply route_permitted in Hrun as [Hr [Hu|Hp]]; [| |done]; (split; [done|]); [by left|]. right. eauto 6.
  - intros [= <- <-]. split; [eauto|]. by left.
Qed.
End Handlers.
