(* ===== verification/Api.v ===== *)
(** * Api: the API over its services

    The wiring of [cmd/api/main.go]: the services of this development behind the
    handlers, the laws the handlers rely on, and what a request may change. *)

From S2P Require Import Prelude Text Json JsonText Http Domain Stores Uuid Vault World ShardTx ShardOrder Idempotency AuthTypes ControlStore ControlOrder Password CardStore CardService CardSafety BatchService CatalogService BankService StaffService BankSafety AuthService AuthSafety AccessToken Requests Pagination ResourceHandlers ApiOrder ApiSafety Scenario.
Open Scope string_scope.
Open Scope list_scope.
Open Scope Z_scope.

(** The code the API rests on that is not under [src/], and its configuration. *)
Record platform := Platform {
  pf_hmac : string -> string -> string;
  pf_Verify : string -> string -> string -> bool;
  pf_IDKey : string -> string -> Z -> Z -> Z -> Z -> string;
  pf_IsUpper : N -> bool; pf_IsNumber : N -> bool; pf_IsPunct : N -> bool; pf_IsSymbol : N -> bool;
  pf_number : string -> json
}.
Record configuration := Configuration {
  cf_signer : Signer; cf_shardID : string; cf_fingerprinter : Fingerprinter; cf_cursorKey : string; cf_vault : bool
}.

Section Api.
Context (pf : platform) (cf : configuration) `{V : CredentialVault}.
Abbreviation hmac := (pf_hmac pf).
Abbreviation fp := (cf_fingerprinter cf).
Abbreviation shardID := (cf_shardID cf).

#[local] Instance api_authentication : Authentication := {
  svc_ValidateAccess := ValidateAccess (pf_Verify pf) (cf_signer cf);
  svc_ValidateNewPassword := ValidateNewPassword (pf_IsUpper pf) (pf_IsNumber pf) (pf_IsPunct pf) (pf_IsSymbol pf)
}.
#[local] Instance api_bank : ResourceHandlers.BankService := {
  svc_ListBanks := ListBanks shardID;
  svc_GetBank := GetBank shardID;
  svc_ProvisionBankWorkflow := ProvisionBankWorkflow hmac fp shardID;
  svc_PatchBankWorkflow := PatchBankWorkflow hmac fp shardID
}.
#[local] Instance api_access : BankAccess := { svc_CanReadBank := CanReadBank shardID }.
#[local] Instance api_catalog : ResourceHandlers.CatalogService := {
  svc_ListReference := ListReference;
  svc_GetReference := GetReference;
  svc_CreateCardProductWorkflow p bank key _ := CreateCardProductWorkflow hmac fp p bank key;
  svc_CreateClientWorkflow p bank key _ := CreateClientWorkflow hmac fp p bank key;
  svc_CreateAccountReferenceWorkflow p bank key _ := CreateAccountReferenceWorkflow hmac fp p bank key;
  svc_PatchCardProductWorkflow p bank id key _ := PatchCardProductWorkflow hmac fp p bank id key;
  svc_PatchClientWorkflow p bank id key _ := PatchClientWorkflow hmac fp p bank id key;
  svc_PatchAccountReferenceWorkflow p bank id key _ := PatchAccountReferenceWorkflow hmac fp p bank id key
}.
#[local] Instance api_card : ResourceHandlers.CardService := {
  svc_ListCards := ListCards;
  svc_GetCard := GetCard;
  svc_ListCardOperations := ListCardOperations;
  svc_ListCardStatusHistory := ListCardStatusHistory;
  svc_IssueCardWorkflow := IssueCardWorkflow hmac fp (cf_vault cf);
  svc_CardCommandWorkflow := CardCommandWorkflow hmac fp (cf_vault cf);
  svc_RetryExpiryWorkflow p bank run item key body _ := RetryExpiryWorkflow hmac fp p bank run item key body
}.
#[local] Instance api_batch : ResourceHandlers.BatchService := {
  svc_ListCardStatusBatches := ListCardStatusBatches;
  svc_GetCardStatusBatch := GetCardStatusBatch;
  svc_ListCardStatusBatchItems := ListCardStatusBatchItems;
  svc_CreateCardStatusBatchWorkflow p bank key _ := CreateCardStatusBatchWorkflow hmac fp p bank key;
  svc_ExecuteCardStatusBatchWorkflow := ExecuteCardStatusBatchWorkflow hmac fp;
  svc_CancelCardStatusBatchWorkflow := CancelCardStatusBatchWorkflow hmac fp;
  svc_RetryCardStatusBatchWorkflow := RetryCardStatusBatchWorkflow hmac fp
}.
#[local] Instance api_staff : ResourceHandlers.StaffService := {
  svc_ListUsers := ListUsers;
  svc_GetUser := GetUser;
  svc_CreateUserWorkflow := CreateUserWorkflow (pf_IDKey pf) hmac fp shardID;
  svc_UpdateUserWorkflow := UpdateUserWorkflow hmac fp shardID;
  svc_SetUserPasswordWorkflow := SetUserPasswordWorkflow (pf_IDKey pf) hmac fp
}.

(** [NewResourceHandler] over the services. *)
Definition api : Request -> M Reply := ServeHTTP hmac (cf_cursorKey cf) (pf_number pf).

(** ** The laws *)

(** The directory gives a principal access to a bank: its route to this shard is
    active, and the principal is of the issuer or of the bank. *)
Definition access (p : Principal) (bank : string) (w : world) : Prop :=
  has_route bank shardID (fun s => s == "active") (w_control w) = true /\
  (issuer_role (Principal_Role p) = true \/ Principal_EntityID p = bank).

Lemma HasActiveRoute_holds bank w w' : Active shardID bank w = (inr true, w') ->
  has_route bank shardID (fun s => s == "active") (w_control w) = true.
Proof.
  unfold Active, holds, HasActiveRoute, mbind, M_bind, try, wrap.
  destruct (control_read _ w) as [[e|ok] w1] eqn:E; [by intros [=]|]. intros [= -> <-].
  by apply control_read_run in E as (_ & _ & _ & [[e [=]]|[env [= <-]]]).
Qed.
Lemma access_law p bank w w' : CanReadBank shardID p bank w = (inr true, w') -> access p bank w.
Proof.
  unfold CanReadBank, CanRead, access, issuer_role. destruct (_ || _) eqn:E.
  - intros H%HasActiveRoute_holds. auto.
  - destruct (String.eqb_spec (Principal_EntityID p) bank) as [->|_]; [intros H%HasActiveRoute_holds; auto|intros [=]].
Qed.
Lemma access_answers p bank w r w' : CanReadBank shardID p bank w = (r, w') -> asks w w' /\ exists ok, r = inr ok.
Proof.
  intros H. split; [by eapply asks_CanReadBank|].
  assert (Hholds : forall m w1, holds m w = (r, w1) -> exists ok, r = inr ok).
  { intros m w1. unfold holds, mbind, M_bind, try. destruct (m w). intros [= <- _]. eauto. }
  unfold CanReadBank, CanRead, Active in H. repeat case_match; [by eapply Hholds..|]. injection H as <- _. eauto.
Qed.

Context `{!VaultLaws V}.
Lemma tenant_both {A} b (m : M A) : frames (shard_moves (shard_le b)) m -> frames ccommitted m -> frames (tenant_step b) m.
Proof. apply frames_both. Qed.
#[local] Instance api_laws : ApiLaws access.
Proof.
  split.
  { intros token w r w' Hv. cbn in Hv. unfold ValidateAccess, time_now, of_result, mbind, M_bind in Hv. by injection Hv. }
  { exact access_answers. }
  { exact access_law. }
  all: intros; cbv [svc_CanReadBank svc_CancelCardStatusBatchWorkflow svc_CardCommandWorkflow
    svc_CreateAccountReferenceWorkflow svc_CreateCardProductWorkflow svc_CreateCardStatusBatchWorkflow
    svc_CreateClientWorkflow svc_CreateUserWorkflow svc_ExecuteCardStatusBatchWorkflow svc_GetBank svc_GetCard
    svc_GetCardStatusBatch svc_GetReference svc_GetUser svc_IssueCardWorkflow svc_ListBanks svc_ListCardOperations
    svc_ListCardStatusBatchItems svc_ListCardStatusBatches svc_ListCardStatusHistory svc_ListCards
    svc_ListReference svc_ListUsers svc_PatchAccountReferenceWorkflow svc_PatchBankWorkflow
    svc_PatchCardProductWorkflow svc_PatchClientWorkflow svc_ProvisionBankWorkflow svc_RetryCardStatusBatchWorkflow
    svc_RetryExpiryWorkflow svc_SetUserPasswordWorkflow svc_UpdateUserWorkflow svc_ValidateAccess
    svc_ValidateNewPassword api_authentication api_bank api_access api_catalog api_card api_batch api_staff].
  - apply reads_ListBanks, _.
  - apply reads_GetBank, _.
  - apply reads_ListReference, _.
  - apply reads_GetReference, _.
  - apply reads_ListCards, _.
  - apply reads_GetCard, _.
  - apply reads_ListCardOperations, _.
  - apply reads_ListCardStatusHistory, _.
  - apply reads_ListBatches, _.
  - apply reads_GetBatch, _.
  - apply reads_ListBatchItems, _.
  - apply reads_ListUsers, _.
  - apply reads_GetUser, _.
  - apply tenant_both; [apply moves_CreateCardProduct|apply calls_CreateCardProduct, _].
  - apply tenant_both; [apply moves_CreateClient|apply calls_CreateClient, _].
  - apply tenant_both; [apply moves_CreateAccount|apply calls_CreateAccount, _].
  - apply tenant_both; [apply moves_PatchProduct|apply calls_PatchProduct, _].
  - apply tenant_both; [apply moves_PatchClient|apply calls_PatchClient, _].
  - apply tenant_both; [apply moves_PatchAccount|apply calls_PatchAccount, _].
  - apply tenant_both; [by apply moves_IssueCardWorkflow|by apply (calls_IssueCard _)].
  - apply tenant_both; [by apply moves_CardCommandWorkflow|by apply (calls_CardCommand _)].
  - apply tenant_both; [by apply moves_RetryExpiry|by apply (calls_RetryExpiry _)].
  - apply tenant_both; [apply moves_CreateBatchWorkflow|apply calls_CreateBatch, _].
  - unfold ExecuteCardStatusBatchWorkflow. apply tenant_both; [apply moves_change|apply calls_change, _].
  - unfold CancelCardStatusBatchWorkflow. apply tenant_both; [apply moves_change|apply calls_change, _].
  - apply tenant_both; [apply moves_RetryBatchWorkflow|apply calls_RetryBatch, _].
Qed.
End Api.

(** C6: a request never fails to get a reply, and whatever faults occur, either
    it leaves both databases and the vault as they are, or the token it carries
    was accepted and the claims allow the change: in a bank the path names, only
    an operator whose access to the bank the directory confirms, with an active
    route, and then nothing of another bank and nothing of the control database
    changes; in the directory, only an operator of the issuer. *)
Theorem api_request_confined pf cf `{V : CredentialVault, !VaultLaws V} r w x w' :
  w_shard_tx w = None -> api pf cf r w = (x, w') ->
  (exists reply, x = inr reply) /\
  (unchanged w w' \/ exists token claims, bearer r = Some token /\
     ValidateAccess (pf_Verify pf) (cf_signer cf) token w = (inr claims, w) /\
     match request_bank r with
     | Some bank =>
         operator claims = true /\ access cf (claims_Principal claims) bank w /\
         shard_le bank (w_shard w) (w_shard w') /\ w_control w' = w_control w
     | None => role claims = "issuer_operator"
     end).
Proof. intros Htx Hrun. exact (ServeHTTP_permitted _ _ _ _ (ApiLaws0 := api_laws pf cf) r w x w' Htx Hrun). Qed.

(** ** Witnesses *)

Definition toy_platform : platform :=
  Platform toy_hmac toy_verify toy_key (toy_class 65 90) (toy_class 48 57) (toy_class 33 33) (toy_class 33 33) (fun _ => JNull).
Definition toy_configuration : configuration := Configuration toy_ed_signer "shard-1" toy_fp "cursor-key" true.
#[local] Instance toy_vault : CredentialVault := memory_vault toy_digest "vault-key".
#[local] Instance toy_vault_laws : VaultLaws toy_vault := memory_laws toy_digest "vault-key".

(** A bank operator's token, and a world where the operator's bank is routed. *)
Definition toy_token : string := match toy_issue.1 with inr response => tr_AccessToken response | inl _ => "" end.
Definition api_world : world :=
  (toy_world (empty_shard <| entities := {[ alice_id := EntityRow "REF" "Bank" "active" 1 1 "user" "user" ]} |>) (100 * day))
    <| w_control := empty_control <| routes := {[ alice_id := RouteRow "shard-1" "active" 1 1 ]} |> |>.
Definition toy_request (method path body : string) : Request :=
  MkRequest method path ∅ (list_to_map [("Authorization", "Bearer " +:+ toy_token); ("Content-Type", "application/json");
    ("Idempotency-Key", "key-1")]) body "request".
Definition client_post (bank : string) : Request :=
  toy_request "POST" ("/v1/banks/" +:+ bank +:+ "/clients") ("{" +:+ quoted "external_client_ref" +:+ ":" +:+ quoted "c-1" +:+ "}").

Example client_created :
  (fun reply => rs_status (rp_response reply)) <$> (match (api toy_platform toy_configuration (client_post alice_id) api_world).1 with inr r => Some r | inl _ => None end) = Some 201.
Proof. by vm_compute. Qed.

Lemma api_request_confined_witness :
  let w' := (api toy_platform toy_configuration (client_post alice_id) api_world).2 in
  exists claims, operator claims = true /\ access toy_configuration (claims_Principal claims) alice_id api_world /\
    shard_le alice_id (w_shard api_world) (w_shard w') /\ w_control w' = w_control api_world.
Proof.
  intros w'. destruct (api_request_confined toy_platform toy_configuration (client_post alice_id) api_world
    (api toy_platform toy_configuration (client_post alice_id) api_world).1 w' eq_refl (run_pair _)) as [_ [(Hs & _)|(token & claims & _ & _ & H)]].
  - exfalso. apply (f_equal (fun db => length (map_to_list (clients db)))) in Hs. vm_compute in Hs. discriminate Hs.
  - exists claims. exact H.
Defined.
