(* ===== verification/Routes.v ===== *)
(** * Routes: the documented endpoints and the routing of paths

    The endpoints the annotations of [internal/server/openapi.go] document
    ([@Router]), with their method and path, and the operation behind each: the
    reference the routing of [ServeHTTP] is compared with. *)

From S2P Require Import Prelude Text Json JsonText Http Uuid World AuthTypes Requests Pagination ResourceHandlers ApiSafety Scenario AuthSafety AccessToken Api.
Open Scope string_scope.
Open Scope list_scope.
Open Scope Z_scope.

(** ** The documented endpoints *)

Inductive endpoint :=
  | GetBanks | PostBank | GetBankByID (bank : string) | PatchBank (bank : string)
  | GetUsers | PostUser | GetUserByID (user : string) | PatchUser (user : string)
  | PostUserDisable (user : string) | PostUserSetPassword (user : string)
  | GetReferences (bank kind : string) | PostReference (bank kind : string)
  | GetReferenceByID (bank kind id : string) | PatchReference (bank kind id : string)
  | GetCards (bank : string) | PostCard (bank : string) | GetCardByID (bank card : string)
  | GetCardOperations (bank card : string) | GetCardHistory (bank card : string)
  | PostCardCommand (bank card action : string)
  | GetBatches (bank : string) | PostBatch (bank : string) | GetBatchByID (bank batch : string)
  | GetBatchItems (bank batch : string) | PostBatchCommand (bank batch action : string)
  | PostExpiryRetry (bank run item : string).

Definition endpoint_method (e : endpoint) : string :=
  match e with
  | GetBanks | GetBankByID _ | GetUsers | GetUserByID _ | GetReferences _ _ | GetReferenceByID _ _ _ | GetCards _
  | GetCardByID _ _ | GetCardOperations _ _ | GetCardHistory _ _ | GetBatches _ | GetBatchByID _ _ | GetBatchItems _ _ => "GET"
  | PatchBank _ | PatchUser _ | PatchReference _ _ _ => "PATCH"
  | _ => "POST"
  end.
Notation "a // b" := (a +:+ "/" +:+ b) (at level 62, right associativity).
Definition bank_path (bank rest : string) : string := "/v1/banks/" +:+ (bank // rest).
Definition command (id action : string) : string := id +:+ ":" +:+ action.
Definition endpoint_path (e : endpoint) : string :=
  match e with
  | GetBanks | PostBank => "/v1/banks"
  | GetBankByID bank | PatchBank bank => "/v1/banks/" +:+ bank
  | GetUsers | PostUser => "/v1/users"
  | GetUserByID user | PatchUser user => "/v1/users/" +:+ user
  | PostUserDisable user => "/v1/users/" +:+ command user "disable"
  | PostUserSetPassword user => "/v1/users/" +:+ command user "set-password"
  | GetReferences bank kind | PostReference bank kind => bank_path bank kind
  | GetReferenceByID bank kind id | PatchReference bank kind id => bank_path bank (kind // id)
  | GetCards bank | PostCard bank => bank_path bank "cards"
  | GetCardByID bank card => bank_path bank ("cards" // card)
  | GetCardOperations bank card => bank_path bank ("cards" // card // "operations")
  | GetCardHistory bank card => bank_path bank ("cards" // card // "history")
  | PostCardCommand bank card action => bank_path bank ("cards" // command card action)
  | GetBatches bank | PostBatch bank => bank_path bank "card-status-batches"
  | GetBatchByID bank batch => bank_path bank ("card-status-batches" // batch)
  | GetBatchItems bank batch => bank_path bank ("card-status-batches" // batch // "items")
  | PostBatchCommand bank batch action => bank_path bank ("card-status-batches" // command batch action)
  | PostExpiryRetry bank run item => bank_path bank ("card-expiry-runs" // run // "items" // command item "retry")
  end.

Definition card_actions : list string := ["activate"; "suspend"; "resume"; "close"; "replace"].
Definition batch_actions : list string := ["execute"; "cancel"; "retry"].
(** The path parameters are UUIDs, kinds and actions the documented ones. *)
Definition well_formed (e : endpoint) : bool :=
  match e with
  | GetBanks | PostBank | GetUsers | PostUser => true
  | GetBankByID i | PatchBank i | GetUserByID i | PatchUser i | PostUserDisable i | PostUserSetPassword i
  | GetCards i | PostCard i | GetBatches i | PostBatch i => ValidUUID i
  | GetReferences i kind | PostReference i kind => ValidUUID i && reference_kind kind
  | GetReferenceByID i kind j | PatchReference i kind j => ValidUUID i && reference_kind kind && ValidUUID j
  | GetCardByID i j | GetCardOperations i j | GetCardHistory i j | GetBatchByID i j | GetBatchItems i j => ValidUUID i && ValidUUID j
  | PostCardCommand i j action => ValidUUID i && ValidUUID j && bool_decide (action ∈ card_actions)
  | PostBatchCommand i j action => ValidUUID i && ValidUUID j && bool_decide (action ∈ batch_actions)
  | PostExpiryRetry i j k => ValidUUID i && ValidUUID j && ValidUUID k
  end.

(** ** The operation behind an endpoint *)

Section Operations.
Context (hmac : string -> string -> string) (cursorKey : string) (number : string -> json).
Context `{BankService, BankAccess, CatalogService, CardService, BatchService, StaffService, Authentication}.

(** For an operator of the issuer, and for a reader of the bank. *)
Definition issuer_only (r : Request) (claims : Claims) (m : M Reply) : M Reply :=
  if role claims != "issuer_operator" then mret (forbidden r) else m.
Definition in_bank (r : Request) (claims : Claims) (bank : string) (m : M Reply) : M Reply :=
  readable ← may_read claims bank; if negb readable then mret (forbidden r) else m.

Definition operation (e : endpoint) (r : Request) (claims : Claims) : M Reply :=
  let collection_of := collection_of hmac cursorKey r in
  match e with
  | GetBanks => issuer_only r claims (collection_of "banks" "directory" svc_ListBanks)
  | PostBank => issuer_only r claims (banks_create r claims)
  | GetBankByID bank => issuer_only r claims (answer_found r (svc_GetBank bank) (writeJSON 200))
  | PatchBank bank => issuer_only r claims (bank_change r claims bank)
  | GetUsers => issuer_only r claims (collection_of "users" "control" svc_ListUsers)
  | PostUser => issuer_only r claims (users_create r claims)
  | GetUserByID user => issuer_only r claims (answer_found r (svc_GetUser user) (writeJSON 200))
  | PatchUser user => issuer_only r claims (user_change r claims user)
  | PostUserDisable user => issuer_only r claims (user_disable r claims user)
  | PostUserSetPassword user => issuer_only r claims (user_set_password r claims user)
  | GetReferences bank kind => in_bank r claims bank (collection_of kind bank (svc_ListReference bank kind))
  | PostReference bank kind => in_bank r claims bank (referenceCreate number r claims bank kind)
  | GetReferenceByID bank kind id => in_bank r claims bank (answer_found r (svc_GetReference bank kind id) (writeJSON 200))
  | PatchReference bank kind id => in_bank r claims bank (referencePatch number r claims bank kind id)
  | GetCards bank => in_bank r claims bank (card_list hmac cursorKey r bank)
  | PostCard bank => in_bank r claims bank (if negb (operator claims) then mret (forbidden r) else card_issue r claims bank)
  | GetCardByID bank card => in_bank r claims bank (answer_found r (svc_GetCard bank card) (writeJSON 200))
  | GetCardOperations bank card => in_bank r claims bank (collection_of "card-operations" bank (svc_ListCardOperations bank card))
  | GetCardHistory bank card => in_bank r claims bank (collection_of "card-history" bank (svc_ListCardStatusHistory bank card))
  | PostCardCommand bank card action => in_bank r claims bank (card_command r claims bank card action)
  | GetBatches bank => in_bank r claims bank (collection_of "card-status-batches" bank (svc_ListCardStatusBatches bank))
  | PostBatch bank => in_bank r claims bank (createCardStatusBatch r claims bank)
  | GetBatchByID bank batch => in_bank r claims bank (answer_found r (svc_GetCardStatusBatch bank batch) (writeJSON 200))
  | GetBatchItems bank batch =>
      in_bank r claims bank (answer_found r (svc_ListCardStatusBatchItems bank batch)
        (fun data => collection hmac cursorKey r "card-status-batch-items" (bank +:+ ":" +:+ batch) data))
  | PostBatchCommand bank batch action => in_bank r claims bank (cardStatusBatchCommand r claims bank batch action)
  | PostExpiryRetry bank run item => mret (apiNotFound r)
  end.
End Operations.

(** ** Paths *)

Lemma prefix_app p s : String.prefix p (p +:+ s) = true.
Proof.
  induction p as [|c p IH]; [by destruct s|]. change (String.prefix (String c p) (String c (p +:+ s)) = true). cbn [String.prefix].
  destruct (Ascii.ascii_dec c c); [exact IH|done].
Qed.
Lemma TrimPrefix_app p s : TrimPrefix (p +:+ s) p = s.
Proof.
  unfold TrimPrefix. rewrite prefix_app, length_append. replace (String.length p + String.length s - String.length p)%nat with (String.length s) by lia.
  induction p as [|c p IH]; [|exact IH]. change (String.substring 0 (String.length s) s = s).
  induction s as [|c s IH]; [done|]. exact (f_equal (String c) IH).
Qed.

(** A UUID has neither a slash nor a colon. *)
Lemma uuid_free sep s : ((47 <=? Ascii.N_of_ascii sep) && (Ascii.N_of_ascii sep <? 48) || (57 <? Ascii.N_of_ascii sep) && (Ascii.N_of_ascii sep <? 97))%N = true ->
  ValidUUID s = true -> free_of sep s.
Proof.
  intros Hsep Hs. unfold free_of. eapply ValidUUID_all; [| |exact Hs].
  - apply Ascii.eqb_neq. intros <-. by vm_compute in Hsep.
  - intros c Hc. apply Ascii.eqb_neq. intros ->. unfold uuid_hex_char in Hc. rewrite !orb_true_iff, !andb_true_iff, !N.leb_le, !N.ltb_lt in *. lia.
Qed.

Lemma free_word sep s : forallb (fun c => negb (Ascii.eqb c sep)) (String.list_ascii_of_string s) = true -> free_of sep s.
Proof.
  unfold free_of. rewrite forallb_forall, Forall_forall. intros Hs c Hc. apply negb_true_iff, Hs. by apply list_elem_of_In.
Qed.
Lemma uuid_slash s : ValidUUID s = true -> free_of slash s.
Proof. by apply uuid_free. Qed.
Lemma uuid_colon s : ValidUUID s = true -> free_of colon s.
Proof. by apply uuid_free. Qed.

Lemma free_app sep a b : free_of sep a -> free_of sep b -> free_of sep (a +:+ b).
Proof. unfold free_of. rewrite string_app_list. intros ??. by apply Forall_app. Qed.
Lemma parts_one k : free_of slash k -> split slash k = [k].
Proof. apply split_free. Qed.
Lemma parts_two k a : free_of slash k -> free_of slash a -> split slash (k // a) = [k; a].
Proof. intros Hk Ha. change ("/" +:+ a) with (String slash a). by rewrite split_app, split_free. Qed.
Lemma parts_three k a b : free_of slash k -> free_of slash a -> free_of slash b -> split slash (k // a // b) = [k; a; b].
Proof. intros Hk Ha Hb. change ("/" +:+ ?x) with (String slash x). rewrite split_app by done. by rewrite parts_two. Qed.
Lemma command_parts id action : ValidUUID id = true -> free_of colon action -> split colon (command id action) = [id; action].
Proof. intros Hi Ha. unfold command. change (":" +:+ action) with (String colon action). rewrite split_app by by apply uuid_colon. by rewrite split_free. Qed.

Lemma command_free id action : ValidUUID id = true -> free_of slash action -> free_of slash (command id action).
Proof. intros Hi Ha. apply free_app; [by apply uuid_slash|]. apply (free_app slash ":"); [by apply free_word|done]. Qed.
Lemma kind_cases kind : reference_kind kind = true -> kind = "card-products" \/ kind = "clients" \/ kind = "account-references".
Proof. unfold reference_kind. rewrite !orb_true_iff, !String.eqb_eq. tauto. Qed.

Section Routing.
Context (hmac : string -> string -> string) (cursorKey : string) (number : string -> json).
Context `{BankService, BankAccess, CatalogService, CardService, BatchService, StaffService, Authentication}.
Abbreviation route := (route hmac cursorKey number).
Abbreviation bankResource := (bankResource hmac cursorKey number).

Lemma contains_slash_app a b : contains_slash (a +:+ String slash b) = true.
Proof.
  unfold contains_slash. rewrite string_app_list, existsb_app. cbn [String.list_ascii_of_string existsb].
  by rewrite Ascii.eqb_refl, orb_true_r.
Qed.
Lemma contains_slash_free s : free_of slash s -> contains_slash s = false.
Proof.
  unfold free_of, contains_slash. induction 1 as [|c l Hc _ IH]; [done|]. cbn [existsb]. by rewrite Hc, IH.
Qed.

(** Paths of the directory and of a bank. *)
Lemma route_user r claims tail : rq_path r = "/v1/users/" +:+ tail -> route r claims = user r claims tail.
Proof.
  intros Hp. unfold ResourceHandlers.route. rewrite Hp. change ("/v1/users/" +:+ tail) with ("/v1/" +:+ ("users/" +:+ tail)).
  rewrite TrimPrefix_app. cbv zeta.
  change ("users/" +:+ tail == "banks") with false. change ("users/" +:+ tail == "users") with false. cbn match.
  by rewrite prefix_app, TrimPrefix_app.
Qed.
Lemma route_banks r claims tail : rq_path r = "/v1/banks/" +:+ tail ->
  route r claims = if negb (contains_slash tail) then bank r claims tail else bankResource r claims tail.
Proof.
  intros Hp. unfold ResourceHandlers.route. rewrite Hp. change ("/v1/banks/" +:+ tail) with ("/v1/" +:+ ("banks/" +:+ tail)).
  rewrite TrimPrefix_app. cbv zeta.
  change ("banks/" +:+ tail == "banks") with false. change ("banks/" +:+ tail == "users") with false. cbn match.
  destruct (String.prefix "users/" ("banks/" +:+ tail)) eqn:E; [by apply users_not_banks in E; rewrite prefix_app in E|].
  by rewrite prefix_app, TrimPrefix_app.
Qed.
Lemma route_bank r claims id : ValidUUID id = true -> rq_path r = "/v1/banks/" +:+ id -> route r claims = bank r claims id.
Proof. intros Hid Hp. rewrite (route_banks r claims id Hp), contains_slash_free by by apply uuid_slash. done. Qed.
Lemma route_resource r claims id rest : rq_path r = bank_path id rest ->
  route r claims = bankResource r claims (id +:+ String slash rest).
Proof. intros Hp. rewrite (route_banks r claims (id +:+ String slash rest) Hp), contains_slash_app. done. Qed.
Lemma resource_parts r claims id rest : ValidUUID id = true ->
  bankResource r claims (id +:+ String slash rest) =
  match split slash rest with
  | kind :: more =>
      if (kind == "cards") && (rq_method r == "GET") then cardReads hmac cursorKey r claims id more
      else if (kind == "cards") && (rq_method r == "POST") then cardWrites r claims id more
      else if (kind == "card-expiry-runs") && (rq_method r == "POST") then expiryRetry r claims id more
      else if kind == "card-status-batches" then cardStatusBatches hmac cursorKey r claims id more
      else if negb (reference_kind kind) then mret (apiNotFound r)
      else referenceResource hmac cursorKey number r claims id kind more
  | [] => mret (apiNotFound r)
  end.
Proof.
  intros Hid. unfold ResourceHandlers.bankResource. rewrite split_app by by apply uuid_slash. rewrite Hid. cbn [negb].
  destruct (split slash rest) as [|kind more]; done.
Qed.

Ltac word := solve [by apply uuid_slash | by apply uuid_colon | apply free_word; reflexivity | done].
(** The table, a group of endpoints at a time. *)
Definition served (e : endpoint) : Prop := forall r claims, well_formed e = true -> rq_method r = endpoint_method e ->
  rq_path r = endpoint_path e -> route r claims = operation hmac cursorKey number e r claims.

Ltac start := intros r claims Hw Hm Hp; cbn [well_formed endpoint_method endpoint_path] in *;
  repeat match goal with H : _ && _ = true |- _ => apply andb_true_iff in H as [? ?] end.

Lemma serves_directory : served GetBanks /\ served PostBank /\ served GetUsers /\ served PostUser.
Proof.
  split_and!; start; unfold ResourceHandlers.route; rewrite Hp; unfold banks, users; rewrite Hm; done.
Qed.
Lemma serves_bank id : served (GetBankByID id) /\ served (PatchBank id).
Proof. split; start; rewrite (route_bank r claims id) by done; unfold bank; rewrite Hm, Hw; done. Qed.
Lemma serves_user id : served (GetUserByID id) /\ served (PatchUser id) /\ served (PostUserDisable id) /\ served (PostUserSetPassword id).
Proof.
  split_and!; start; rewrite (route_user r claims _ Hp); unfold user;
    [rewrite split_free by word|rewrite split_free by word|rewrite command_parts by word..]; cbn [hd]; rewrite Hw, Hm; done.
Qed.

Ltac resource :=
  match goal with H : rq_path ?r = _ |- ResourceHandlers.route _ _ _ ?r ?c = _ => rewrite (route_resource r c _ _ H), resource_parts by done end.
Lemma serves_references id kind : served (GetReferences id kind) /\ served (PostReference id kind).
Proof.
  split; start; resource; match goal with H : reference_kind kind = true |- _ => apply kind_cases in H as [-> | [-> | ->]] end;
    rewrite parts_one by word; unfold referenceResource; rewrite Hm; done.
Qed.
Lemma serves_reference id kind i : served (GetReferenceByID id kind i) /\ served (PatchReference id kind i).
Proof.
  split; start; resource; match goal with H : reference_kind kind = true |- _ => apply kind_cases in H as [-> | [-> | ->]] end;
    rewrite parts_two by word; unfold referenceResource; rewrite Hm;
    match goal with H : ValidUUID i = true |- _ => rewrite H end; done.
Qed.
Lemma serves_cards id : served (GetCards id) /\ served (PostCard id).
Proof. split; start; resource; rewrite parts_one by word; rewrite Hm; done. Qed.
Lemma serves_card id i : served (GetCardByID id i) /\ served (GetCardOperations id i) /\ served (GetCardHistory id i).
Proof.
  split_and!; start; resource; [rewrite (parts_two "cards") by word | rewrite (parts_three "cards") by word..];
    rewrite Hm; unfold cardReads; match goal with H : ValidUUID i = true |- _ => rewrite H end; done.
Qed.
Lemma serves_card_command id i action : served (PostCardCommand id i action).
Proof.
  start. resource.
  match goal with H : bool_decide (action ∈ _) = true |- _ => apply bool_decide_eq_true in H; rename H into Ha end.
  assert (Hs : free_of slash action /\ free_of colon action).
  { unfold card_actions in Ha. repeat (apply elem_of_cons in Ha as [->|Ha]; [split; word|]). by apply elem_of_nil in Ha. }
  destruct Hs as [Hs Hc]. rewrite (parts_two "cards") by first [by apply free_word | by apply command_free].
  rewrite Hm. unfold cardWrites. rewrite command_parts by done. match goal with H : ValidUUID i = true |- _ => rewrite H end. done.
Qed.
Lemma serves_batches id : served (GetBatches id) /\ served (PostBatch id).
Proof. split; start; resource; rewrite parts_one by word; unfold cardStatusBatches; rewrite Hm; done. Qed.
Lemma serves_batch id i : served (GetBatchByID id i) /\ served (GetBatchItems id i).
Proof.
  split; start; resource; [rewrite (parts_two "card-status-batches") by word|rewrite (parts_three "card-status-batches") by word];
    unfold cardStatusBatches; rewrite Hm; match goal with H : ValidUUID i = true |- _ => rewrite H end; done.
Qed.
Lemma serves_batch_command id i action : served (PostBatchCommand id i action).
Proof.
  start. resource.
  match goal with H : bool_decide (action ∈ _) = true |- _ => apply bool_decide_eq_true in H; rename H into Ha end.
  assert (Hs : free_of slash action /\ free_of colon action).
  { unfold batch_actions in Ha. repeat (apply elem_of_cons in Ha as [->|Ha]; [split; word|]). by apply elem_of_nil in Ha. }
  destruct Hs as [Hs Hc]. rewrite (parts_two "card-status-batches") by first [by apply free_word | by apply command_free].
  unfold cardStatusBatches. rewrite command_parts by done. rewrite Hm.
  destruct (ValidUUID (command i action)); match goal with H : ValidUUID i = true |- _ => rewrite H end; done.
Qed.

(** Every endpoint with a handler is served by its operation. *)
Lemma endpoint_served e : (forall bank run item, e <> PostExpiryRetry bank run item) -> served e.
Proof.
  intros He.
  destruct e; first [apply serves_directory | apply serves_bank | apply serves_user | apply serves_references
    | apply serves_reference | apply serves_cards | apply serves_card | apply serves_card_command | apply serves_batches
    | apply serves_batch | apply serves_batch_command | by edestruct He].
Qed.

(** C38: every documented endpoint but one is served as documented: a request
    with its method and path runs the operation behind it, for the callers the
    operation is for. *)
Theorem documented_endpoints_served e r claims : well_formed e = true -> rq_method r = endpoint_method e ->
  rq_path r = endpoint_path e -> (forall bank run item, e <> PostExpiryRetry bank run item) ->
  route r claims = operation hmac cursorKey number e r claims.
Proof. intros Hw Hm Hp He. by apply endpoint_served. Qed.

(** The documented path for the retry of an expiry item reaches no handler:
    after the question of access the request is answered "not found", for every
    caller, and so is every other method. *)
Theorem documented_expiry_retry_unreachable r claims bank run item w x w' : well_formed (PostExpiryRetry bank run item) = true ->
  rq_path r = endpoint_path (PostExpiryRetry bank run item) ->
  (forall w y w', svc_CanReadBank (claims_Principal claims) bank w = (y, w') -> exists ok, y = inr ok) ->
  route r claims w = (x, w') -> x = inr (apiNotFound r).
Proof.
  intros Hw Hp Hanswers. cbn [well_formed endpoint_path] in *. rewrite !andb_true_iff in Hw. destruct Hw as [[Hb Hr] Hi].
  rewrite (route_resource r claims _ _ Hp), resource_parts by done.
  change ("card-expiry-runs" // run // ?rest) with ("card-expiry-runs" +:+ String slash (run +:+ String slash rest)).
  rewrite (split_app slash "card-expiry-runs") by by apply free_word.
  rewrite (split_app slash run) by word. rewrite (parts_two "items") by first [by apply free_word | apply command_free; [done|by apply free_word]].
  change ("card-expiry-runs" == "cards") with false. change ("card-expiry-runs" == "card-status-batches") with false.
  change (reference_kind "card-expiry-runs") with false. cbn [andb negb String.eqb].
  destruct (rq_method r == "POST"); [|by intros [= <- <-]].
  unfold expiryRetry. intros H6%bind_run. destruct H6 as [(e & -> & Hask)|(ok & w1 & _ & Hrun)].
  - destruct (role claims == "issuer_operator"); [|done]. apply Hanswers in Hask as [ok [=]].
  - destruct ok; by injection Hrun as <- <-.
Qed.

(** A batch request or command whose body does not decode is answered 200
    with an empty body, although nothing was done; every other handler answers
    400. *)
Theorem malformed_batch_unanswered e r claims bank w w1 :
  match e with
  | PostBatch b => b = bank /\ DecodeRequest batch_request_fields (BatchRequest "" "" None) r = None
  | PostBatchCommand b _ _ => b = bank /\ DecodeRequest no_fields tt r = None
  | _ => False
  end ->
  well_formed e = true -> rq_method r = endpoint_method e -> rq_path r = endpoint_path e ->
  canManageCardStatusBatches claims = true -> svc_CanReadBank (claims_Principal claims) bank w = (inr true, w1) ->
  route r claims w = (inr unwritten, w1) /\ rs_status (rp_response unwritten) = 200.
Proof.
  intros He Hw Hm Hp Hrole Hask. split; [|done].
  rewrite (endpoint_served e) by (done || by destruct e).
  assert (Hread : may_read claims bank w = (inr true, w1)).
  { unfold may_read. rewrite <- Hask. unfold canManageCardStatusBatches, canRead in *. apply orb_true_iff in Hrole as [-> | ->]; [done|].
    by rewrite orb_true_r. }
  destruct e as [| | | | | | | | | | | | | | | | | | | | |b| | |b batch action|]; try done; destruct He as [-> Hbody];
    unfold operation, in_bank, createCardStatusBatch, cardStatusBatchCommand; rewrite (bind_eq _ _ _ _ _ Hread); cbn [negb].
  - by rewrite Hrole, Hbody.
  - cbn [well_formed endpoint_method] in *. rewrite Hm, Hrole, Hbody. apply andb_true_iff in Hw as [_ Ha]. apply bool_decide_eq_true in Ha.
    unfold batch_actions in Ha. repeat (apply elem_of_cons in Ha as [->|Ha]; [done|]). by apply elem_of_nil in Ha.
Qed.
End Routing.

(** ** Witnesses *)

#[local] Instance toy_authentication : Authentication := api_authentication toy_platform toy_configuration.
#[local] Instance toy_bank_service : BankService := api_bank toy_platform toy_configuration.
#[local] Instance toy_access : BankAccess := api_access toy_configuration.
#[local] Instance toy_catalog : CatalogService := api_catalog toy_platform toy_configuration.
#[local] Instance toy_card : CardService := api_card (V := Api.toy_vault) toy_platform toy_configuration.
#[local] Instance toy_batch_service : BatchService := api_batch toy_platform toy_configuration.
#[local] Instance toy_staff : StaffService := api_staff toy_platform toy_configuration.
Definition toy_operator : Claims := user_claims toy_record alice_id.
Abbreviation toy_route := (route toy_hmac "cursor-key" (fun _ => JNull)).

(** A command on a card, a batch without a body, and the documented retry. *)
Definition activate_request : Request := toy_request "POST" (endpoint_path (PostCardCommand alice_id alice_id "activate")) "".
Definition empty_batch : Request := toy_request "POST" (endpoint_path (PostBatch alice_id)) "".
Definition retry_request : Request := toy_request "POST" (endpoint_path (PostExpiryRetry alice_id alice_id alice_id)) "".

Lemma documented_endpoints_served_witness :
  toy_route activate_request toy_operator =
  in_bank activate_request toy_operator alice_id (card_command activate_request toy_operator alice_id alice_id "activate").
Proof.
  exact (documented_endpoints_served toy_hmac "cursor-key" (fun _ => JNull) (PostCardCommand alice_id alice_id "activate")
    activate_request toy_operator ltac:(by vm_compute) eq_refl eq_refl ltac:(done)).
Defined.

Lemma documented_expiry_retry_unreachable_witness :
  (toy_route retry_request toy_operator api_world).1 = inr (apiNotFound retry_request).
Proof.
  refine (documented_expiry_retry_unreachable toy_hmac "cursor-key" (fun _ => JNull) retry_request toy_operator alice_id alice_id
    alice_id api_world _ _ ltac:(by vm_compute) eq_refl _ (run_pair _)).
  intros w y w' Hask. destruct (access_answers toy_configuration _ _ _ _ _ Hask) as [_ H]. exact H.
Defined.

Lemma malformed_batch_unanswered_witness :
  (toy_route empty_batch toy_operator api_world).1 = inr unwritten /\ rs_status (rp_response unwritten) = 200.
Proof.
  destruct (malformed_batch_unanswered toy_hmac "cursor-key" (fun _ => JNull) (PostBatch alice_id) empty_batch toy_operator alice_id
    api_world (svc_CanReadBank (claims_Principal toy_operator) alice_id api_world).2) as [-> ?]; [|done..| |done].
  - split; [done|]. by vm_compute.
  - apply run_result. by vm_compute.
Defined.
