(* ===== verification/Documented.v ===== *)
(** * Documented: the statuses of the documented endpoints

    The [@Success] and [@Failure] lines of the annotations of
    [internal/server/openapi.go], and the statuses the handlers answer besides
    them.  [Statuses] shows that there are no others. *)

From S2P Require Import Prelude ResourceHandlers Routes Server.
Open Scope string_scope.
Open Scope list_scope.
Open Scope Z_scope.

Definition bank_statuses (e : endpoint) : list Z :=
  match e with
  | GetBanks => [200; 401; 403]
  | PostBank => [201; 202; 400; 401; 403; 409]
  | GetBankByID _ => [200; 401; 403; 404]
  | PatchBank _ => [200; 400; 401; 403; 404; 409]
  | _ => []
  end.
Definition user_statuses (e : endpoint) : list Z :=
  match e with
  | GetUsers => [200; 401; 403]
  | PostUser => [201; 400; 401; 403; 409]
  | GetUserByID _ => [200; 401; 403; 404]
  | PatchUser _ => [200; 400; 401; 403; 404; 409]
  | PostUserDisable _ => [200; 401; 403; 404; 409]
  | PostUserSetPassword _ => [200; 400; 401; 403; 404; 409]
  | _ => []
  end.
Definition product_statuses (e : endpoint) : list Z :=
  match e with
  | GetReferences _ _ => [200; 400; 401; 403]
  | PostReference _ _ => [201; 400; 401; 403; 409]
  | GetReferenceByID _ _ _ => [200; 401; 403; 404]
  | PatchReference _ _ _ => [200; 400; 401; 403; 404; 409]
  | _ => []
  end.
Definition client_statuses (e : endpoint) : list Z :=
  match e with
  | GetReferences _ _ => [200; 400; 401; 403]
  | PostReference _ _ => [201; 400; 401; 403; 409]
  | GetReferenceByID _ _ _ => [200; 401; 403; 404]
  | PatchReference _ _ _ => [200; 400; 401; 403; 404; 409]
  | _ => []
  end.
Definition account_statuses (e : endpoint) : list Z :=
  match e with
  | GetReferences _ _ => [200; 400; 401; 403]
  | PostReference _ _ => [201; 400; 401; 403; 409]
  | GetReferenceByID _ _ _ => [200; 401; 403; 404]
  | PatchReference _ _ _ => [200; 400; 401; 403; 404; 409]
  | _ => []
  end.
Definition card_read_statuses (e : endpoint) : list Z :=
  match e with
  | GetCards _ => [200; 400; 401; 403]
  | PostCard _ => [201; 400; 401; 403; 409]
  | GetCardByID _ _ => [200; 401; 403; 404]
  | GetCardOperations _ _ | GetCardHistory _ _ => [200; 400; 401; 403; 404]
  | _ => []
  end.
Definition card_command_statuses (e : endpoint) : list Z :=
  match e with
  | PostCardCommand _ _ action => [if action == "replace" then 201 else 200; 400; 401; 403; 404; 409]
  | _ => []
  end.
Definition batch_statuses (e : endpoint) : list Z :=
  match e with
  | GetBatches _ => [200; 400; 401; 403]
  | PostBatch _ => [201; 202; 400; 401; 403; 409; 422]
  | GetBatchByID _ _ => [200; 401; 403; 404]
  | GetBatchItems _ _ => [200; 400; 401; 403; 404]
  | PostBatchCommand _ _ action =>
      [if action == "execute" then 202 else if action == "cancel" then 200 else 201; 400; 401; 403; 404; 409]
  | _ => []
  end.
Definition expiry_statuses (e : endpoint) : list Z :=
  match e with
  | PostExpiryRetry _ _ _ => [202; 400; 401; 403; 404; 409]
  | _ => []
  end.
Definition reference_statuses (e : endpoint) : list Z :=
  match e with
  | GetReferences _ kind | PostReference _ kind | GetReferenceByID _ kind _ | PatchReference _ kind _ =>
      if kind == "card-products" then product_statuses e else if kind == "clients" then client_statuses e else account_statuses e
  | _ => []
  end.
Definition documented (e : endpoint) : list Z :=
  bank_statuses e ++ user_statuses e ++ reference_statuses e ++ card_read_statuses e ++ card_command_statuses e ++ batch_statuses e
  ++ expiry_statuses e.

(** What the handlers answer besides: an internal error or, at any endpoint that
    runs statements, a conflict the database reports; the pages of the two
    directories refuse a wrong page or cursor; a disabling needs a key; issuance
    and card commands refuse references and transitions with 422; a batch
    request that does not decode is answered 200. *)
Definition undocumented (e : endpoint) : list Z :=
  match e with
  | GetBanks | GetUsers => [400; 409; 500]
  | GetReferences _ _ | GetCards _ | GetCardOperations _ _ | GetCardHistory _ _ | GetBatches _ => [409; 500]
  | GetBankByID _ | GetUserByID _ | GetReferenceByID _ _ _ | GetCardByID _ _ | GetBatchByID _ _ | PostExpiryRetry _ _ _ => []
  | GetBatchItems _ _ => [500]
  | PostUserDisable _ => [400; 500]
  | PostCard _ | PostCardCommand _ _ _ => [422; 500]
  | PostBatch _ => [200; 500]
  | PostBatchCommand _ _ action => if action == "cancel" then [500] else [200; 500]
  | _ => [500]
  end.

(** ** Sessions and probes *)

Inductive session_endpoint := LiveHealth | ReadyHealth | LogIn | RefreshAccessToken | LogOut | CurrentUser | ChangeOwnPassword.
Definition session_method (e : session_endpoint) : string :=
  match e with LiveHealth | ReadyHealth | CurrentUser => "GET" | LogIn | RefreshAccessToken | LogOut | ChangeOwnPassword => "POST" end.
Definition session_path (e : session_endpoint) : string :=
  match e with
  | LiveHealth => "/health/live" | ReadyHealth => "/health/ready" | LogIn => "/v1/auth/login" | RefreshAccessToken => "/v1/auth/refresh"
  | LogOut => "/v1/auth/logout" | CurrentUser => "/v1/me" | ChangeOwnPassword => "/v1/me/password"
  end.
Definition session_statuses (e : session_endpoint) : list Z :=
  match e with
  | LiveHealth => [200]
  | ReadyHealth => [200; 503]
  | LogIn => [200; 400; 401; 429]
  | RefreshAccessToken => [200; 401]
  | LogOut => [204; 500]
  | CurrentUser => [200; 401]
  | ChangeOwnPassword => [204; 400; 401]
  end.
(** An internal error is documented for the logout only. *)
Definition session_undocumented (e : session_endpoint) : list Z :=
  match e with LogIn | RefreshAccessToken | ChangeOwnPassword => [500] | _ => [] end.
(** The pattern of the multiplexer behind an endpoint. *)
Definition session_target (e : session_endpoint) : target :=
  match e with
  | LiveHealth => Live | ReadyHealth => Ready | LogIn => LoginPath | RefreshAccessToken => RefreshPath | LogOut => LogoutPath
  | CurrentUser => MePath | ChangeOwnPassword => PasswordPath
  end.
