(* ===== verification/Statuses.v ===== *)
(** * Statuses: every answer has a listed status

    Whatever a request to a documented endpoint carries, whatever is stored and
    whatever faults occur, the status of the reply is one the annotations of
    [internal/server/openapi.go] document or one of [Documented.undocumented], or
    the request repeats a command whose recorded status is answered again. *)

From S2P Require Import Prelude Text Json JsonText Http Domain Stores Uuid Vault World Outcomes ServiceErrors ShardTx Idempotency AuthTypes Password CardStore CardService CardSafety BatchService CatalogService BankService StaffService AuthService AuthSafety AccessToken Requests Pagination ResourceHandlers ApiOrder ApiSafety Scenario Api Routes Documented.
Open Scope string_scope.
Open Scope list_scope.
Open Scope Z_scope.

Definition status (reply : Reply) : Z := rs_status (rp_response reply).
(** A command of the bank recorded under the key with the status. *)
Definition recorded (bank key : string) (st : Z) (w : world) : Prop :=
  exists scope r, idem (w_shard w) !! (bank, scope, key) = Some r /\ id_response_status r = Some st.
(** Between requests: no transaction is open. *)
Definition idle (w : world) : Prop := w_shard_tx w = None /\ idempotency_named (w_shard w).

(** ** The statuses of the services *)

Abbreviation raises S m := (ensures (fun _ => True) (problems S) m).
Class ServiceStatuses
    `{BankService, BankAccess, CatalogService, CardService, BatchService, StaffService, Authentication} := {
  ss_access p b w r w' : svc_CanReadBank p b w = (r, w') -> asks w w' /\ exists ok, r = inr ok;
  ss_validate token w r w' : svc_ValidateAccess token w = (r, w') -> w' = w;
  ss_ListBanks : raises [] svc_ListBanks;
  ss_ProvisionBank p k body ref n q : answers_in [201; 202] [409] (svc_ProvisionBankWorkflow p k body ref n q);
  ss_PatchBank p i k body n s q : answers_in [200] [404; 409] (svc_PatchBankWorkflow p i k body n s q);
  ss_ListReference b k : raises [] (svc_ListReference b k);
  ss_CreateCardProduct p b k body c n s cfg q : raises [409] (svc_CreateCardProductWorkflow p b k body c n s cfg q);
  ss_CreateClient p b k body e d q : raises [409] (svc_CreateClientWorkflow p b k body e d q);
  ss_CreateAccount p b k body c e q : raises [409] (svc_CreateAccountReferenceWorkflow p b k body c e q);
  ss_PatchCardProduct p b i k body n s cfg q : raises [404; 409] (svc_PatchCardProductWorkflow p b i k body n s cfg q);
  ss_PatchClient p b i k body d q : raises [404; 409] (svc_PatchClientWorkflow p b i k body d q);
  ss_PatchAccount p b i k body c q : raises [404; 409] (svc_PatchAccountReferenceWorkflow p b i k body c q);
  ss_ListCards b c a p s : raises [] (svc_ListCards b c a p s);
  ss_ListCardOperations b i : raises [] (svc_ListCardOperations b i);
  ss_ListCardStatusHistory b i : raises [] (svc_ListCardStatusHistory b i);
  ss_IssueCard p b k body c a pr r q : raises [409; 422] (svc_IssueCardWorkflow p b k body c a pr r q);
  ss_CardCommand p b i a k body r q : raises [404; 409; 422] (svc_CardCommandWorkflow p b i a k body r q);
  ss_CardCommand_status p b i a k body r q w raw st w' : idle w ->
    svc_CardCommandWorkflow p b i a k body r q w = (inr (raw, st), w') ->
    st = (if a == "replace" then 201 else 200) \/ recorded b k st w;
  ss_ListBatches b : raises [] (svc_ListCardStatusBatches b);
  ss_CreateBatch p b k body t r ids q : raises [400; 409; 422] (svc_CreateCardStatusBatchWorkflow p b k body t r ids q);
  ss_CreateBatch_status p b k body t r ids q w raw st w' : idle w ->
    svc_CreateCardStatusBatchWorkflow p b k body t r ids q w = (inr (raw, st), w') -> st = 201 \/ recorded b k st w;
  ss_ExecuteBatch p b i k body q : raises [404; 409] (svc_ExecuteCardStatusBatchWorkflow p b i k body q);
  ss_CancelBatch p b i k body q : raises [404; 409] (svc_CancelCardStatusBatchWorkflow p b i k body q);
  ss_RetryBatch p b i k body q : raises [404; 409] (svc_RetryCardStatusBatchWorkflow p b i k body q);
  ss_ListUsers : raises [] svc_ListUsers;
  ss_CreateUser p k body u pw ro e q : answers_in [201] [400; 409] (svc_CreateUserWorkflow p k body u pw ro e q);
  ss_UpdateUser p i k body ro e s q : answers_in [200] [400; 404; 409] (svc_UpdateUserWorkflow p i k body ro e s q);
  ss_DisableUser p i k body ro s q : answers_in [200] [404; 409] (svc_UpdateUserWorkflow p i k body ro "" s q);
  ss_SetUserPassword p i k body pw q : answers_in [200] [404; 409] (svc_SetUserPasswordWorkflow p i k body pw q)
}.
Ltac status_law := first
  [eapply ss_ListBanks | eapply ss_ProvisionBank | eapply ss_PatchBank | eapply ss_ListReference | eapply ss_CreateCardProduct
  |eapply ss_CreateClient | eapply ss_CreateAccount | eapply ss_PatchCardProduct | eapply ss_PatchClient | eapply ss_PatchAccount
  |eapply ss_ListCards | eapply ss_ListCardOperations | eapply ss_ListCardStatusHistory | eapply ss_IssueCard | eapply ss_CardCommand
  |eapply ss_ListBatches | eapply ss_CreateBatch | eapply ss_ExecuteBatch | eapply ss_CancelBatch | eapply ss_RetryBatch
  |eapply ss_ListUsers | eapply ss_CreateUser | eapply ss_DisableUser | eapply ss_UpdateUser | eapply ss_SetUserPassword].

(** ** Handlers *)

Section Handlers.
Context (hmac : string -> string -> string) (cursorKey : string) (number : string -> json).
Context `{BankService, BankAccess, CatalogService, CardService, BatchService, StaffService, Authentication, !ServiceStatuses}.
Context (r : Request) (b : string) (T : list Z).

(** A handler whose replies have a status of the list, or a recorded one. *)
Definition replying (m : M Reply) : Prop := forall w reply w', idle w -> m w = (inr reply, w') ->
  one_of T (status reply) = true \/ recorded b (header r "Idempotency-Key") (status reply) w.

Lemma replying_ret reply : one_of T (status reply) = true -> replying (mret reply).
Proof. intros Ht w x w' _ [= <- <-]. by left. Qed.
Lemma workflow_error_status S e : problems S e -> one_of (S ++ [409; 500]) (status (writeWorkflowError r e)) = true.
Proof.
  unfold problems, writeWorkflowError. intros H'. apply one_of_app.
  destruct (error_cause e) as [| | | | | | | | | | | | |[]| | |]; try (by right); [|by left]. case_match; by right.
Qed.
Lemma replying_answer {A} S (m : M A) ok :
  raises S m -> forallb (one_of T) (S ++ [409; 500]) = true ->
  (forall w a w', idle w -> m w = (inr a, w') ->
     one_of T (status (ok a)) = true \/ recorded b (header r "Idempotency-Key") (status (ok a)) w) ->
  replying (answer r m ok).
Proof.
  intros Hm HS Hok w reply w' Htx. unfold answer, try, mbind, M_bind. destruct (m w) as [[e|a] w1] eqn:E; intros [= <- <-].
  - left. eapply one_of_incl; [exact HS|]. apply workflow_error_status. apply (Hm _ _ _ E).
  - by eapply Hok.
Qed.
(** Where the status of the answer does not depend on the state. *)
Lemma replying_fixed {A} S (m : M A) ok :
  raises S m -> forallb (one_of T) (S ++ [409; 500]) = true -> (forall a, one_of T (status (ok a)) = true) -> replying (answer r m ok).
Proof. intros Hm HS Hok. eapply replying_answer; [exact Hm|exact HS|]. auto. Qed.
Lemma replying_paired U S (m : M (Z * json)) :
  answers_in U S m -> forallb (one_of T) (U ++ S ++ [409; 500]) = true -> replying (answer r m (fun sr => writeJSON sr.1 sr.2)).
Proof.
  intros Hm HS. rewrite forallb_app, andb_true_iff in HS. destruct HS as [HU HS].
  eapply replying_answer; [|exact HS|].
  - eapply ensures_mono; [..|exact Hm]; [done|by intros e He].
  - intros w [st raw] w' _ E. left. cbn. eapply one_of_incl; [exact HU|]. exact (Hm _ _ _ E).
Qed.
Lemma replying_found {A} (m : M A) ok : one_of T 404 = true -> (forall a, one_of T (status (ok a)) = true) -> replying (answer_found r m ok).
Proof.
  intros H404 Hok w reply w' Htx. unfold answer_found, try, mbind, M_bind. destruct (m w) as [[e|a] w1]; intros [= <- <-]; left; auto.
Qed.
Lemma replying_with_key k : one_of T 400 = true -> replying (k (header r "Idempotency-Key")) -> replying (with_key r k).
Proof.
  intros H400 Hk. unfold with_key, IdempotencyKey. case_match; [|].
  - destruct (_ || _) in *; simplify_eq. by apply replying_ret.
  - destruct (_ || _) in *; simplify_eq. done.
Qed.
Lemma collection_status kind bank data : forallb (one_of T) [200; 400; 500] = true ->
  one_of T (status (collection hmac cursorKey r kind bank data)) = true.
Proof.
  cbn [forallb]. rewrite !andb_true_iff. intros (H200 & H400 & H500 & _). unfold collection, write_page, invalid_cursor, internal_error.
  repeat case_match; done.
Qed.

Context (claims : Claims).
Lemma replying_issuer_only m : one_of T 403 = true -> replying m -> replying (issuer_only r claims m).
Proof. intros H403 Hm. unfold issuer_only. case_match; [by apply replying_ret|done]. Qed.
Lemma may_read_asks w x w' : may_read claims b w = (x, w') -> asks w w'.
Proof.
  unfold may_read. case_match; [|by intros [= _ <-]]. intros Ha. by apply ss_access in Ha as [? _].
Qed.
Lemma replying_in_bank m : one_of T 403 = true -> replying m -> replying (in_bank r claims b m).
Proof.
  intros H403 Hm w reply w' Htx (ok & w1 & Hask & Hrun)%bind_inr. apply may_read_asks in Hask as (Hs & Ht & _). destruct Htx as [Htx Hid].
  destruct ok; cbn [negb] in Hrun; [|injection Hrun as <- <-; by left].
  destruct (Hm w1 reply w' ltac:(split; [congruence|by rewrite Hs]) Hrun) as [?|(sc & row & ? & ?)]; [by left|right]. exists sc, row. by rewrite <- Hs.
Qed.
End Handlers.

Ltac status_list := first [reflexivity | apply collection_status; reflexivity].
(** Splits a handler into its branches: a fixed reply, or a workflow. *)
Ltac respond :=
  lazymatch goal with
  | |- replying _ _ _ (mret _) => apply replying_ret; status_list
  | |- replying _ _ _ (with_key _ _) => apply replying_with_key; [reflexivity|respond]
  | |- replying _ _ _ (answer _ _ (fun sr => writeJSON sr.1 sr.2)) => eapply replying_paired; [status_law|reflexivity]
  | |- replying _ _ _ (answer _ _ _) => eapply replying_fixed; [status_law|reflexivity|intros; status_list]
  | |- replying _ _ _ (answer_found _ _ _) => eapply replying_found; [reflexivity|intros; status_list]
  | |- replying _ _ _ (match ?x with _ => _ end) => destruct x; respond
  | |- _ => idtac
  end.

Section Endpoints.
Context (hmac : string -> string -> string) (cursorKey : string) (number : string -> json).
Context `{BankService, BankAccess, CatalogService, CardService, BatchService, StaffService, Authentication, !ServiceStatuses}.
Context (r : Request) (claims : Claims).
(** The bank of an endpoint. *)
Definition endpoint_bank (e : endpoint) : string :=
  match e with
  | GetReferences b _ | PostReference b _ | GetReferenceByID b _ _ | PatchReference b _ _ | GetCards b | PostCard b | GetCardByID b _
  | GetCardOperations b _ | GetCardHistory b _ | PostCardCommand b _ _ | GetBatches b | PostBatch b | GetBatchByID b _
  | GetBatchItems b _ | PostBatchCommand b _ _ | PostExpiryRetry b _ _ => b
  | _ => ""
  end.
Definition answered (e : endpoint) : Prop :=
  replying r (endpoint_bank e) (documented e ++ undocumented e) (operation hmac cursorKey number e r claims).

Lemma answered_directory id : answered GetBanks /\ answered PostBank /\ answered (GetBankByID id) /\ answered (PatchBank id).
Proof.
  unfold answered, operation, collection_of, banks_create, bank_change. split_and!; apply replying_issuer_only; (reflexivity || respond).
Qed.
Lemma answered_users id : answered GetUsers /\ answered PostUser /\ answered (GetUserByID id) /\ answered (PatchUser id) /\
  answered (PostUserDisable id) /\ answered (PostUserSetPassword id).
Proof.
  unfold answered, operation, collection_of, users_create, user_change, user_disable, user_set_password. cbv zeta.
  split_and!; apply replying_issuer_only; (reflexivity || respond).
Qed.
Lemma answered_references b kind id : reference_kind kind = true ->
  answered (GetReferences b kind) /\ answered (PostReference b kind) /\ answered (GetReferenceByID b kind id) /\ answered (PatchReference b kind id).
Proof.
  intros [-> | [-> | ->]]%kind_cases; unfold answered, operation, collection_of, referenceCreate, referencePatch, product_create,
    client_create, account_create, product_patch, client_patch, account_patch; cbv zeta;
    (split; [|split; [|split]]); apply replying_in_bank; (reflexivity || (cbn [String.eqb Ascii.eqb Bool.eqb]; respond)).
Qed.
Lemma answered_cards b id : answered (GetCards b) /\ answered (PostCard b) /\ answered (GetCardByID b id) /\
  answered (GetCardOperations b id) /\ answered (GetCardHistory b id).
Proof.
  unfold answered, operation, card_list, card_issue, collection_of. cbv zeta.
  split_and!; apply replying_in_bank; (reflexivity || respond).
Qed.
Lemma answered_card_command b id action : answered (PostCardCommand b id action).
Proof.
  unfold answered, documented, operation, card_command, with_reason. cbv zeta.
  cbn [bank_statuses user_statuses reference_statuses card_read_statuses card_command_statuses batch_statuses expiry_statuses undocumented app].
  set (ok := if action == "replace" then 201 else 200). assert (Hok : ok = 201 \/ ok = 200) by (unfold ok; case_match; auto).
  assert (Hlist : forallb (one_of [ok; 400; 401; 403; 404; 409; 422; 500]) [ok; 400; 403; 404; 409; 422; 409; 500] = true)
    by by destruct Hok as [-> | ->].
  cbn [forallb] in Hlist. rewrite !andb_true_iff in Hlist. destruct Hlist as (Hst & H400 & H403 & H404 & H409 & H422 & _ & H500 & _).
  apply replying_in_bank; [done|].
  match goal with |- replying _ _ _ (if ?g then _ else _) => destruct g end; [by apply replying_ret|].
  destruct (DecodeRequest _ _ r) as [reason|]; [|by apply replying_ret]. destruct (blank reason); [by apply replying_ret|].
  apply replying_with_key; [done|]. eapply replying_answer; [status_law|cbn [forallb app]; by rewrite H404, H409, H422, H500|].
  intros w [raw st] w' Htx Hrun. destruct (ss_CardCommand_status _ _ _ _ _ _ _ _ _ _ _ _ Htx Hrun) as [->|?]; [by left|by right].
Qed.
Lemma answered_batches b id : answered (GetBatches b) /\ answered (PostBatch b) /\ answered (GetBatchByID b id) /\
  answered (GetBatchItems b id).
Proof.
  unfold answered, operation, collection_of, createCardStatusBatch. cbv zeta. split_and!; apply replying_in_bank; try reflexivity; try solve [respond].
  destruct (canManageCardStatusBatches claims); [|by apply replying_ret]. cbn [negb].
  destruct (DecodeRequest _ _ r) as [input|]; [|by apply replying_ret].
  apply replying_with_key; [reflexivity|]. eapply replying_answer; [status_law|reflexivity|].
  intros w [raw st] w' Htx Hrun. destruct (ss_CreateBatch_status _ _ _ _ _ _ _ _ _ _ _ _ Htx Hrun) as [->|?]; [by left|by right].
Qed.
Lemma answered_batch_command b id action : rq_method r = "POST" -> action ∈ batch_actions -> answered (PostBatchCommand b id action).
Proof.
  intros Hm Ha. unfold answered, operation, cardStatusBatchCommand. rewrite Hm. cbv zeta. unfold batch_actions in Ha.
  repeat (apply elem_of_cons in Ha as [->|Ha];
    [apply replying_in_bank; [reflexivity|]; cbn [String.eqb Ascii.eqb Bool.eqb negb andb]; respond|]).
  by apply elem_of_nil in Ha.
Qed.
Lemma answered_expiry b run i : answered (PostExpiryRetry b run i).
Proof. by apply replying_ret. Qed.

#[local] Opaque answered.
Lemma answered_endpoint e : well_formed e = true -> rq_method r = endpoint_method e -> answered e.
Proof.
  intros Hw Hm.
  destruct e; cbn [well_formed] in Hw; rewrite ?andb_true_iff, ?bool_decide_eq_true in Hw; destruct_and?;
    first [apply answered_directory | apply answered_users | by apply answered_references | apply answered_cards
    | apply answered_card_command | apply answered_batches | by apply answered_batch_command | apply answered_expiry].
  all: exact "".
Qed.
#[local] Transparent answered.
End Endpoints.

Section Requests.
Context (hmac : string -> string -> string) (cursorKey : string) (number : string -> json).
Context `{BankService, BankAccess, CatalogService, CardService, BatchService, StaffService, Authentication, !ServiceStatuses}.
(** A refused token is answered 401, and the retry of an expiry item 404. *)
Lemma documented_refusals e : one_of (documented e ++ undocumented e) 401 = true.
Proof. destruct e as [| | | | | | | | | |b kind|b kind|b kind ?|b kind ?| | | | | |? ? action| | | | |? ? action|]; try reflexivity.
  1-4: unfold documented, reference_statuses; destruct (kind == "card-products"), (kind == "clients"); reflexivity.
  - unfold documented, card_command_statuses. by destruct (action == "replace").
  - unfold documented, batch_statuses, undocumented. by destruct (action == "execute"), (action == "cancel"). Qed.
Lemma authenticate_world r w x w' : authenticate r w = (x, w') -> w' = w.
Proof.
  unfold authenticate. destruct (bearer r) as [token|]; [|by intros [= _ <-]].
  unfold mbind, M_bind, try. destruct (svc_ValidateAccess token w) eqn:E. apply ss_validate in E as ->. by intros [= _ <-].
Qed.
Lemma documented_reply e r : well_formed e = true -> rq_method r = endpoint_method e -> rq_path r = endpoint_path e ->
  replying r (endpoint_bank e) (documented e ++ undocumented e) (ServeHTTP hmac cursorKey number r).
Proof.
  intros Hw Hm Hp w reply w' Hidle (claims & w1 & Hauth & Hrun)%bind_inr. apply authenticate_world in Hauth as ->.
  destruct claims as [claims|].
  2: { injection Hrun as <- _. left. apply documented_refusals. }
  assert (He : (exists b run i, e = PostExpiryRetry b run i) \/ forall b run i, e <> PostExpiryRetry b run i)
    by (destruct e; first [left; by repeat eexists | by right]).
  destruct He as [(b & run & i & ->)|He].
  - left. eapply documented_expiry_retry_unreachable in Hrun as [= ->]; [done..|]. intros ? ? ? Hask. by apply ss_access in Hask as [_ ?].
  - rewrite (endpoint_served hmac cursorKey number e He r claims Hw Hm Hp) in Hrun.
    by eapply (answered_endpoint hmac cursorKey number r claims e Hw Hm) in Hrun.
Qed.
End Requests.

(** ** The services of the API *)

(** A replayed command answers a recorded status, another the one of the action. *)
Section Replayed.
Context (hmac : string -> string -> string) (fp : Fingerprinter).
Lemma recorded_claim b scope key body now expires w w1 db replay w2 :
  idle w -> w_shard_tx w1 = Some db -> db = w_shard w ->
  ClaimIdempotency (MkShardIdempotencyClaim b scope key body now expires) w1 = (inr replay, w2) ->
  ShardIdempotencyReplay_Found replay = true -> recorded b key (ShardIdempotencyReplay_Status replay) w.
Proof.
  intros [_ Hnamed] Htx -> H Hf. destruct (claim_replayed _ _ _ _ _ Hnamed Htx H Hf) as (r & Hr & Hst). by exists scope, r.
Qed.
Lemma tenant_body {A} b (m : M A) w a w' : (beginTenant b ;; with_defer shard_rollback m) w = (inr a, w') ->
  exists w1 w2, w_shard_tx w1 = Some (w_shard w) /\ m w1 = (inr a, w2).
Proof.
  intros ([] & w1 & H1 & H)%bind_inr. apply beginTenant_inr in H1 as (Htx & _). exists w1.
  unfold with_defer in H. destruct (m w1) as [x w2] eqn:E. injection H as -> _. by exists w2.
Qed.

(** The status of a command that is not a replay, whatever its statements do. *)
Abbreviation answering st m := (ensures (fun rs => rs.2 = st) (fun _ => True) m).
Context `{V : CredentialVault} (configured : bool).
Lemma replace_status p b i scope key reason q state : answering 201 (replace configured p b i scope key reason q state).
Proof. unfold replace. returns. Qed.
Lemma locked_status p b i a scope key reason q state : answering 200 (command_locked p b i a scope key reason q state).
Proof. unfold command_locked. returns. Qed.
Lemma command_status p b i a key body reason q w raw st w' : idle w ->
  CardCommandWorkflow hmac fp configured p b i a key body reason q w = (inr (raw, st), w') ->
  st = (if a == "replace" then 201 else 200) \/ recorded b key st w.
Proof.
  intros Hidle H. apply tenant_body in H as (w1 & w2 & Htx & H). cbv zeta in H.
  apply bind_inr in H as ([[j s] found] & w3 & Hclaim & H). destruct found.
  - right. injection H as -> -> _. unfold claim in Hclaim. apply bind_inr in Hclaim as (t & w4 & Ht & Hclaim).
    apply time_inr in Ht as [-> ->]. apply bind_inr in Hclaim as (x & w5 & Hx & Hclaim). rewrite try_inr in Hx.
    destruct x as [err|replay]; [destruct (errors_is _ _); by apply throw_inr in Hclaim|].
    apply ret_inr in Hclaim as [[= _ <- Hf] _]. eapply recorded_claim; [done|exact Htx|done|exact Hx|done].
  - left. apply bind_inr in H as (x & w4 & _ & H). destruct x as [err|state]; [destruct (errors_is _ _); by apply throw_inr in H|].
    destruct (a == "replace"); [by apply ensures_inr with (1 := replace_status _ _ _ _ _ _ _ _) in H
      |by apply ensures_inr with (1 := locked_status _ _ _ _ _ _ _ _ _) in H].
Qed.
Lemma created_status p b scope key t reason ids rid q : answering 201 (create_claimed p b scope key t reason ids rid q).
Proof. unfold create_claimed, finish_batch. returns. Qed.
Lemma batch_status p b key t reason ids q w raw st w' : idle w ->
  CreateCardStatusBatchWorkflow hmac fp p b key t reason ids q w = (inr (raw, st), w') -> st = 201 \/ recorded b key st w.
Proof.
  intros Hidle H. unfold CreateCardStatusBatchWorkflow in H. apply bind_inr in H as ([canonical body] & w0 & H0 & H).
  injection H0 as _ <-. apply tenant_body in H as (w1 & w2 & Htx & H). cbv zeta in H.
  apply bind_inr in H as (replay & w3 & Hclaim & H). destruct (ShardIdempotencyReplay_Found replay) eqn:Hf.
  - right. apply ret_inr in H as [Hst _]. apply (f_equal snd) in Hst. cbn in Hst. subst st. unfold batch_claim in Hclaim. apply bind_inr in Hclaim as (t' & w4 & Ht & Hclaim).
    apply time_inr in Ht as [-> ->]. apply bind_inr in Hclaim as (x & w5 & Hx & Hclaim). rewrite try_inr in Hx.
    destruct x as [err|replay']; [destruct (errors_is _ _); by apply throw_inr in Hclaim|].
    apply ret_inr in Hclaim as [Heq _]. subst replay'. eapply recorded_claim; [done|exact Htx|done|exact Hx|done].
  - left. by apply ensures_inr with (1 := created_status _ _ _ _ _ _ _ _ _) in H.
Qed.
End Replayed.

Section Api.
Context (pf : platform) (cf : configuration) `{V : CredentialVault, !VaultErrors V}.
#[local] Instance here_authentication : Authentication := api_authentication pf cf.
#[local] Instance here_bank : ResourceHandlers.BankService := api_bank pf cf.
#[local] Instance here_access : BankAccess := api_access cf.
#[local] Instance here_catalog : ResourceHandlers.CatalogService := api_catalog pf cf.
#[local] Instance here_card : ResourceHandlers.CardService := api_card pf cf.
#[local] Instance here_batch : ResourceHandlers.BatchService := api_batch pf cf.
#[local] Instance here_staff : ResourceHandlers.StaffService := api_staff pf cf.
#[local] Instance api_statuses : ServiceStatuses.
Proof.
  split.
  { exact (access_answers cf). }
  { intros token w r w' Hv. cbn in Hv. unfold ValidateAccess, time_now, of_result, mbind, M_bind in Hv. by injection Hv. }
  all: intros; cbv [svc_CancelCardStatusBatchWorkflow svc_CardCommandWorkflow svc_CreateAccountReferenceWorkflow
    svc_CreateCardProductWorkflow svc_CreateCardStatusBatchWorkflow svc_CreateClientWorkflow svc_CreateUserWorkflow
    svc_ExecuteCardStatusBatchWorkflow svc_IssueCardWorkflow svc_ListBanks svc_ListCardOperations svc_ListCardStatusBatches
    svc_ListCardStatusHistory svc_ListCards svc_ListReference svc_ListUsers svc_PatchAccountReferenceWorkflow svc_PatchBankWorkflow
    svc_PatchCardProductWorkflow svc_PatchClientWorkflow svc_ProvisionBankWorkflow svc_RetryCardStatusBatchWorkflow
    svc_SetUserPasswordWorkflow svc_UpdateUserWorkflow here_bank here_catalog here_card here_batch here_staff api_bank api_catalog
    api_card api_batch api_staff] in *.
  - apply errors_ListBanks.
  - apply errors_ProvisionBank.
  - apply errors_PatchBank.
  - apply errors_ListReference.
  - apply errors_CreateCardProduct.
  - apply errors_CreateClient.
  - apply errors_CreateAccount.
  - apply errors_PatchProduct.
  - apply errors_PatchClient.
  - apply errors_PatchAccount.
  - apply errors_ListCards.
  - apply errors_ListCardOperations.
  - apply errors_ListCardStatusHistory.
  - by apply errors_IssueCard.
  - by apply errors_CardCommand.
  - by eapply command_status.
  - apply errors_ListBatches.
  - apply errors_CreateBatch.
  - by eapply batch_status.
  - unfold ExecuteCardStatusBatchWorkflow. apply errors_change.
  - unfold CancelCardStatusBatchWorkflow. apply errors_change.
  - apply errors_RetryBatch.
  - apply errors_ListUsers.
  - apply errors_CreateUser.
  - apply errors_UpdateUser.
  - apply errors_DisableUser.
  - apply errors_SetUserPassword.
Qed.

(** C7: whatever a request to a documented endpoint carries, whatever the
    databases hold and whatever faults occur, the status of the reply is one its
    annotations document, one of the short list of undocumented ones, or the
    status recorded for the command the request repeats. *)
Theorem documented_statuses e r w reply w' :
  well_formed e = true -> rq_method r = endpoint_method e -> rq_path r = endpoint_path e -> idle w ->
  api pf cf r w = (inr reply, w') ->
  one_of (documented e ++ undocumented e) (status reply) = true \/
  recorded (endpoint_bank e) (header r "Idempotency-Key") (status reply) w.
Proof. intros Hw Hm Hp Hidle Hrun. exact (documented_reply (pf_hmac pf) (cf_cursorKey cf) (pf_number pf) e r Hw Hm Hp w reply w' Hidle Hrun). Qed.
End Api.

(** ** Witnesses *)

Definition status_of (r : Request) (w : world) : option Z :=
  match (api (V := Api.toy_vault) toy_platform toy_configuration r w).1 with inr reply => Some (status reply) | inl _ => None end.
(** An issuance that names nothing the bank has; by an operator of the issuer, a
    page of the banks that is too small and a disabling without a key. *)
Definition issue_without_references : Request :=
  toy_request "POST" (endpoint_path (PostCard alice_id)) ("{" +:+ quoted "client_id" +:+ ":" +:+ quoted alice_id +:+ ","
    +:+ quoted "account_reference_id" +:+ ":" +:+ quoted alice_id +:+ "," +:+ quoted "product_id" +:+ ":" +:+ quoted alice_id +:+ ","
    +:+ quoted "reason" +:+ ":" +:+ quoted "new" +:+ "}").

Example undocumented_422 : status_of issue_without_references api_world = Some 422.
Proof. by vm_compute. Qed.

Definition issuer_token : string :=
  match (Issue toy_ed_sign toy_ed_signer (MkUserRecord alice_id "root" "" "issuer_operator" "" "enabled" 1) alice_id (auth_world [1])).1 with
  | inr response => tr_AccessToken response
  | inl _ => ""
  end.
Definition issuer_request (method path : string) (query : Values) : Request :=
  MkRequest method path query {[ "Authorization" := "Bearer " +:+ issuer_token ]} "" "request".
Definition small_page : Request := issuer_request "GET" (endpoint_path GetBanks) {[ "page_size" := ["0"] ]}.
Definition keyless_disable : Request := issuer_request "POST" (endpoint_path (PostUserDisable alice_id)) ∅.
Example undocumented_400 : status_of small_page api_world = Some 400 /\ one_of (documented GetBanks) 400 = false /\
  status_of keyless_disable api_world = Some 400 /\ one_of (documented (PostUserDisable alice_id)) 400 = false.
Proof. by vm_compute. Qed.

Lemma documented_statuses_witness : exists reply,
  (api (V := Api.toy_vault) toy_platform toy_configuration issue_without_references api_world).1 = inr reply /\
  (one_of (documented (PostCard alice_id) ++ undocumented (PostCard alice_id)) (status reply) = true \/
   recorded alice_id "key-1" (status reply) api_world).
Proof.
  destruct (api (V := Api.toy_vault) toy_platform toy_configuration issue_without_references api_world) as [x w'] eqn:E.
  destruct x as [e|reply]; [exfalso; apply (f_equal fst) in E; vm_compute in E; discriminate E|]. exists reply. split; [done|].
  refine (documented_statuses toy_platform toy_configuration (V := Api.toy_vault) (VaultErrors0 := memory_vault_errors _ _) (PostCard alice_id) issue_without_references api_world reply w'
    _ eq_refl eq_refl _ E); [by vm_compute|]. split; [done|]. intros k r Hk. vm_compute in Hk. discriminate Hk.
Defined.
