(* ===== verification/Schemas.v ===== *)
(** * Schemas: the documented bodies

    The types of [internal/server/openapi.go] as schemas.  The bodies the readings
    of the API answer with are of the documented type, or a problem
    ([documented_bodies]); the bodies of the documented request types are those
    the handlers decode ([documented_requests_decoded]).  A member of an object may
    be left out when its Go field has [omitempty]; no other member may appear. *)

From S2P Require Import Prelude Text Json JsonText JsonRoundtrip Http Domain Stores Uuid Vault World Outcomes ServiceErrors ShardTx AuthTypes CardStore CardService BatchService CatalogStore CatalogService ControlStore ControlOrder BankService StaffService BankSafety ListingSafety Requests Pagination ResourceHandlers AuthHandlers ApiOrder ApiSafety Scenario Api Routes Documented Statuses.
Open Scope string_scope.
Open Scope list_scope.
Open Scope Z_scope.

(** ** Schemas *)

(** [SObject]: each member with its [omitempty] and its schema. *)
Inductive schema :=
  | SString | SInteger | SBoolean
  | SNullable (s : schema) | SMap | SArray (s : schema)
  | SStringMap
  | SObject (members : list (string * bool * schema)).

Fixpoint member (l : list (string * json)) (k : string) : option json :=
  match l with [] => None | (k', v) :: rest => if k' == k then Some v else member rest k end.
Definition is_string (j : json) : bool := match j with JStr _ | JTime _ => true | _ => false end.
Fixpoint conforms (s : schema) (j : json) : bool :=
  match s, j with
  | SString, _ => is_string j
  | SInteger, JNum _ => true
  | SBoolean, JBool _ => true
  | SNullable _, JNull => true
  | SNullable s, _ => conforms s j
  | SMap, JObj _ => true
  | SStringMap, JObj l => forallb (fun p => is_string p.2) l
  | SArray s, JArr l => forallb (conforms s) l
  | SObject members, JObj l =>
      (fix present (members : list (string * bool * schema)) : bool :=
         match members with
         | [] => true
         | (k, omitempty, s) :: rest => match member l k with Some v => conforms s v | None => omitempty end && present rest
         end) members
      && forallb (fun p => existsb (fun m => fst (fst m) == p.1) members) l && bool_decide (NoDup (List.map fst l))
  | _, _ => false
  end.

(** ** The types of openapi.go *)

Definition required_member (k : string) (s : schema) : string * bool * schema := (k, false, s).
Definition optional_member (k : string) (s : schema) : string * bool * schema := (k, true, s).
Abbreviation strings ks := (List.map (fun k => required_member k SString) ks).

Definition statusResponse : schema := SObject (strings ["status"]).
Definition problemResponse : schema :=
  SObject (strings ["type"; "title"] ++ [required_member "status" SInteger] ++ strings ["code"; "detail"; "request_id"]).
Definition userSummaryResponse : schema := SObject (strings ["username"; "status"; "role"]).
Definition tokenResponse : schema :=
  SObject (strings ["access_token"; "token_type"; "expires_at"] ++ [required_member "user" userSummaryResponse]).
Definition collectionResponse (s : schema) : schema :=
  SObject [required_member "data" (SArray s); required_member "next_cursor" (SNullable SString)].
Definition bankResponse : schema :=
  SObject (strings ["id"; "name"; "status"; "created_at"; "updated_at"; "bank_reference"] ++ [optional_member "routing_status" SString]).
Definition provisioningResponse : schema := SObject [required_member "id" SString; required_member "provisioning" SBoolean].
Definition staffUserResponse : schema :=
  SObject (strings ["id"; "username"; "role"] ++ [required_member "entity_id" (SNullable SString)] ++ strings ["status"; "created_at"; "updated_at"]).
Definition cardProductResponse : schema :=
  SObject (strings ["id"; "product_code"; "name"; "status"] ++
           [required_member "configuration" SMap; required_member "configuration_version" SInteger] ++ strings ["created_at"; "updated_at"]).
Definition clientResponse : schema :=
  SObject (strings ["id"; "external_client_ref"] ++ [required_member "display_name" (SNullable SString)] ++ strings ["created_at"; "updated_at"]).
Definition accountReferenceResponse : schema :=
  SObject (strings ["id"; "client_id"; "external_account_ref"; "created_at"; "updated_at"]).
Definition cardResponse : schema :=
  SObject (strings ["id"; "client_id"; "account_reference_id"; "product_id"; "status"] ++
           List.map (fun k => required_member k (SNullable SString))
             ["masked_pan"; "predecessor_card_id"; "issued_at"; "activated_at"; "suspended_at"; "closed_at"; "expires_at"] ++
           [required_member "version" SInteger] ++ strings ["created_at"; "updated_at"]).
Definition cardOperationResponse : schema :=
  SObject (strings ["id"; "card_id"; "action"; "status"; "reason"; "created_at"] ++ [required_member "completed_at" (SNullable SString)]).
Definition cardHistoryResponse : schema := SObject (strings ["id"; "previous_status"; "new_status"; "reason"; "created_at"]).
Definition cardCommandResponse : schema :=
  SObject [required_member "card" cardResponse; required_member "operation" cardOperationResponse].
Definition transientCredentialsResponse : schema := SObject (strings ["pan"; "cvv"]).
Definition cardIssuanceResponse : schema :=
  SObject [required_member "card" cardResponse; required_member "operation" cardOperationResponse;
           required_member "credentials" transientCredentialsResponse].
Definition cardStatusBatch_members : list (string * bool * schema) :=
  strings ["id"; "target_status"; "reason"; "created_by"; "requester_role"; "status"] ++
  List.map (fun k => required_member k SInteger) ["item_count"; "applied_count"; "ignored_count"] ++
  [optional_member "failure_code" SString; optional_member "failure_summary" SString; required_member "retry_of_batch_id" (SNullable SString)] ++
  strings ["created_at"; "updated_at"] ++ [required_member "completed_at" (SNullable SString)].
Definition cardStatusBatchResponse : schema := SObject cardStatusBatch_members.
Definition cardStatusBatchItemResponse : schema :=
  SObject (strings ["id"; "card_id"; "operation_id"] ++ [required_member "previous_status" (SNullable SString)] ++ strings ["outcome"] ++
           [required_member "failure_code" (SNullable SString)] ++ strings ["created_at"]).
Definition cardStatusBatchDetailResponse : schema :=
  SObject (cardStatusBatch_members ++ [optional_member "items" (SArray cardStatusBatchItemResponse); required_member "links" SStringMap]).

(** The [@Success 200] type of a reading. *)
Definition reference_schema (kind : string) : schema :=
  if kind == "card-products" then cardProductResponse else if kind == "clients" then clientResponse else accountReferenceResponse.
Definition reading_schema (e : endpoint) : option schema :=
  match e with
  | GetBanks => Some (collectionResponse bankResponse)
  | GetBankByID _ => Some bankResponse
  | GetUsers => Some (collectionResponse staffUserResponse)
  | GetUserByID _ => Some staffUserResponse
  | GetReferences _ kind => Some (collectionResponse (reference_schema kind))
  | GetReferenceByID _ kind _ => Some (reference_schema kind)
  | GetCards _ => Some (collectionResponse cardResponse)
  | GetCardByID _ _ => Some cardResponse
  | GetCardOperations _ _ => Some (collectionResponse cardOperationResponse)
  | GetCardHistory _ _ => Some (collectionResponse cardHistoryResponse)
  | GetBatches _ => Some (collectionResponse cardStatusBatchResponse)
  | GetBatchByID _ _ => Some cardStatusBatchDetailResponse
  | GetBatchItems _ _ => Some (collectionResponse cardStatusBatchItemResponse)
  | _ => None
  end.

(** ** The encoders conform *)

Lemma conforms_card c : conforms cardResponse (Card_json c) = true.
Proof. by destruct c as [? ? ? ? ? [] [] [] [] [] [] [] ? ? ?]. Qed.
Lemma conforms_operation o : conforms cardOperationResponse (CardOperation_json o) = true.
Proof. destruct o; by repeat match goal with o : option _ |- _ => destruct o end. Qed.
Lemma conforms_history h : conforms cardHistoryResponse (CardStatusHistory_json h) = true.
Proof. by destruct h. Qed.
Lemma conforms_batch b : conforms cardStatusBatchResponse (CardStatusBatch_json b) = true.
Proof. destruct b; by repeat match goal with o : option _ |- _ => destruct o end. Qed.
Lemma conforms_item i : conforms cardStatusBatchItemResponse (CardStatusBatchItem_json i) = true.
Proof. destruct i; by repeat match goal with o : option _ |- _ => destruct o end. Qed.
Lemma conforms_detail bank b : conforms cardStatusBatchDetailResponse (batch_json bank b []) = true.
Proof. destruct b; by repeat match goal with o : option _ |- _ => destruct o end. Qed.
Lemma conforms_client c : conforms clientResponse (Client_json c) = true.
Proof. destruct c; by repeat match goal with o : option _ |- _ => destruct o end. Qed.
Lemma conforms_account a : conforms accountReferenceResponse (AccountReference_json a) = true.
Proof. by destruct a. Qed.
Definition is_object (j : json) : Prop := exists l, j = JObj l.
Lemma conforms_product p : is_object (CardProduct_Configuration p) -> conforms cardProductResponse (CardProduct_json p) = true.
Proof. intros [l E]. destruct p; cbn in E; subst. reflexivity. Qed.
Lemma conforms_bank e : conforms bankResponse (bank_entity_json e) = true.
Proof. by destruct e. Qed.
Lemma conforms_listed e placement : conforms bankResponse (listed_bank (bank_entity_json e) placement) = true.
Proof. by destruct e. Qed.
Lemma conforms_user u : conforms staffUserResponse (userJSON u) = true.
Proof. unfold userJSON. by destruct (DirectoryUser_EntityID u != ""). Qed.
Lemma conforms_problem status code detail id : conforms problemResponse (problem_json status code detail id) = true.
Proof. done. Qed.
(** The answers of the session endpoints. *)
Lemma conforms_token t : conforms tokenResponse (TokenResponse_json t) = true.
Proof. by destruct t as [? ? ? []]. Qed.

(** ** What the services read *)

(** The stored configurations are objects, as the CHECK of the table says. *)
Definition objects_stored (w : world) : Prop := map_Forall (fun _ p => is_object (pr_configuration p)) (products (w_shard w)).
Definition yields {A} (P : A -> Prop) (m : M A) : Prop := forall w a w', objects_stored w -> m w = (inr a, w') -> P a.
Abbreviation items s := (Forall (fun j => conforms s j = true)).
Abbreviation item s := (fun j => conforms s j = true).

Class ServiceBodies
    `{BankService, BankAccess, CatalogService, CardService, BatchService, StaffService, Authentication} := {
  sb_ListBanks : yields (items bankResponse) svc_ListBanks;
  sb_GetBank id : yields (item bankResponse) (svc_GetBank id);
  sb_ListUsers : yields (items staffUserResponse) svc_ListUsers;
  sb_GetUser id : yields (item staffUserResponse) (svc_GetUser id);
  sb_ListReference b kind : reference_kind kind = true -> yields (items (reference_schema kind)) (svc_ListReference b kind);
  sb_GetReference b kind id : reference_kind kind = true -> yields (item (reference_schema kind)) (svc_GetReference b kind id);
  sb_ListCards b c a p s : yields (items cardResponse) (svc_ListCards b c a p s);
  sb_GetCard b id : yields (item cardResponse) (svc_GetCard b id);
  sb_ListCardOperations b id : yields (items cardOperationResponse) (svc_ListCardOperations b id);
  sb_ListCardStatusHistory b id : yields (items cardHistoryResponse) (svc_ListCardStatusHistory b id);
  sb_ListBatches b : yields (items cardStatusBatchResponse) (svc_ListCardStatusBatches b);
  sb_GetBatch b id : yields (item cardStatusBatchDetailResponse) (svc_GetCardStatusBatch b id);
  sb_ListBatchItems b id : yields (items cardStatusBatchItemResponse) (svc_ListCardStatusBatchItems b id)
}.

(** ** The handlers *)

(** A reply of a reading: the documented body with status 200, or a problem with
    its status. *)
Definition body_of (reply : Reply) : json := match rs_body (rp_response reply) with Json j => j | Text _ => JNull end.
Definition typed (s : schema) (reply : Reply) : Prop :=
  (status reply = 200 /\ rs_content_type (rp_response reply) = "application/json" /\ conforms s (body_of reply) = true) \/
  (400 <= status reply /\ rs_content_type (rp_response reply) = "application/problem+json" /\ conforms problemResponse (body_of reply) = true /\
   member (match body_of reply with JObj l => l | _ => [] end) "status" = Some (JNum (status reply))).

Section Handlers.
Context (hmac : string -> string -> string) (cursorKey : string) (number : string -> json).
Context `{BankService, BankAccess, CatalogService, CardService, BatchService, StaffService, Authentication, !ServiceStatuses, !ServiceBodies}.
Context (r : Request) (s : schema).

Lemma typed_problem st code detail : 400 <= st -> typed s (writeProblem r st code detail).
Proof. intros Hst. right. by split_and!. Qed.
Lemma typed_json value : conforms s value = true -> typed s (writeJSON 200 value).
Proof. intros Hv. left. by split_and!. Qed.
Lemma typed_internal : typed s (internal_error r).
Proof. by apply typed_problem. Qed.

Definition replies (m : M Reply) : Prop := yields (typed s) m.
Lemma typed_ret reply : typed s reply -> replies (mret reply).
Proof. by intros Ht w x w' _ [= <- <-]. Qed.
Lemma replies_found {A} (P : A -> Prop) (m : M A) ok : yields P m -> (forall a, P a -> typed s (ok a)) -> replies (answer_found r m ok).
Proof.
  intros Hm Hok w reply w' Hw. unfold answer_found, try, mbind, M_bind. destruct (m w) as [[e|a] w1] eqn:E; intros [= <- <-].
  - by apply typed_problem.
  - by eapply Hok, Hm.
Qed.
End Handlers.

(** A page of the documented items is of the documented collection. *)
Lemma conforms_page s data next : items s data -> is_string next = true \/ next = JNull ->
  conforms (collectionResponse s) (JObj [("data", JArr data); ("next_cursor", next)]) = true.
Proof.
  intros Hd Hn. assert (Hall : forallb (conforms s) data = true).
  { apply forallb_forall. rewrite Forall_forall in Hd. intros j Hj. by apply Hd, list_elem_of_In. }
  unfold collectionResponse, required_member. cbn [conforms]. cbn [member String.eqb Ascii.eqb Bool.eqb]. cbn [conforms]. rewrite Hall.
  by destruct Hn as [Hn| ->]; [destruct next|].
Qed.
Lemma typed_collection hmac cursorKey r s kind bank data : items s data ->
  typed (collectionResponse s) (collection hmac cursorKey r kind bank data).
Proof.
  intros Hd. assert (Hpage : forall filter limit start, typed (collectionResponse s) (write_page hmac cursorKey r kind bank filter limit data start)).
  { intros filter limit start. unfold write_page.
    assert (Hp : forall n k, items s (take n (drop k data))) by (intros; by apply Forall_take, Forall_drop).
    repeat case_match; first [by apply typed_internal | apply typed_json, conforms_page; [apply Hp|by auto]]. }
  unfold collection, invalid_cursor. repeat case_match; first [apply Hpage | by apply typed_problem | by apply typed_internal].
Qed.
Lemma workflow_error_typed r s S e : problems S e -> forallb (fun st => 400 <=? st) S = true -> typed s (writeWorkflowError r e).
Proof.
  unfold problems, writeWorkflowError. intros H HS. destruct (error_cause e) as [| | | | | | | | | | | | |[]| | |]; try by apply typed_internal.
  - case_match; [by apply typed_problem|by apply typed_internal].
  - apply typed_problem. unfold one_of in H. apply existsb_exists in H as (x & Hx & E%Z.eqb_eq). subst. rewrite forallb_forall in HS. by apply Z.leb_le, HS.
Qed.

Section Endpoints.
Context (hmac : string -> string -> string) (cursorKey : string) (number : string -> json).
Context `{BankService, BankAccess, CatalogService, CardService, BatchService, StaffService, Authentication, !ServiceStatuses, !ServiceBodies}.
Context (r : Request) (claims : Claims).

Lemma replies_collection s kind bank (m : M (list json)) : yields (items s) m -> ensures (fun _ => True) (problems []) m ->
  replies (collectionResponse s) (collection_of hmac cursorKey r kind bank m).
Proof.
  intros Hm He w reply w' Hw. unfold collection_of, answer, try, mbind, M_bind. destruct (m w) as [[e|data] w1] eqn:E; intros [= <- <-].
  - eapply workflow_error_typed; [exact (He _ _ _ E)|done].
  - by eapply typed_collection, Hm.
Qed.
Lemma replies_item s (m : M json) : yields (item s) m -> replies s (answer_found r m (writeJSON 200)).
Proof. intros Hm. eapply replies_found; [exact Hm|]. intros j Hj. by apply typed_json. Qed.
Lemma replies_issuer_only s m : replies s m -> replies s (issuer_only r claims m).
Proof. intros Hm. unfold issuer_only. case_match; [by apply typed_ret, typed_problem|done]. Qed.
Lemma replies_in_bank s b m : replies s m -> replies s (in_bank r claims b m).
Proof.
  intros Hm w reply w' Hw (ok & w1 & Hask & Hrun)%bind_inr. apply may_read_asks in Hask as (Hs & _).
  destruct ok; cbn [negb] in Hrun; [|injection Hrun as <- <-; by apply typed_problem].
  eapply Hm; [|exact Hrun]. unfold objects_stored. by rewrite Hs.
Qed.
Lemma replies_card_list b : replies (collectionResponse cardResponse) (card_list hmac cursorKey r b).
Proof.
  unfold card_list. cbv zeta. case_match; [by apply typed_ret, typed_problem|]. case_match; [by apply typed_ret, typed_problem|].
  apply replies_collection; [apply sb_ListCards|apply ss_ListCards].
Qed.
Lemma replies_reading e s : well_formed e = true -> reading_schema e = Some s -> replies s (operation hmac cursorKey number e r claims).
Proof.
  intros Hw. destruct e; intros [= <-]; cbn [well_formed] in Hw; rewrite ?andb_true_iff in Hw; destruct_and?; unfold operation;
    first [apply replies_issuer_only|apply replies_in_bank];
    first [by apply replies_card_list
      |apply replies_collection;
         [first [apply sb_ListBanks|apply sb_ListUsers|by apply sb_ListReference|apply sb_ListCardOperations|apply sb_ListCardStatusHistory|apply sb_ListBatches]
         |first [apply ss_ListBanks|apply ss_ListUsers|apply ss_ListReference|apply ss_ListCardOperations|apply ss_ListCardStatusHistory|apply ss_ListBatches]]
      |apply replies_item; first [apply sb_GetBank|apply sb_GetUser|by apply sb_GetReference|apply sb_GetCard|apply sb_GetBatch]
      |eapply replies_found; [apply sb_ListBatchItems|]; intros data Hd; by apply typed_collection].
Qed.
End Endpoints.

(** ** The services of the API *)

Lemma items_map {A} (s : schema) (encode : A -> json) (l : list A) : (forall a, conforms s (encode a) = true) -> items s (List.map encode l).
Proof. intros H. induction l; cbn; by constructor. Qed.
Lemma yields_list {A} s (encode : A -> json) (m : M (list A)) : (forall a, conforms s (encode a) = true) ->
  yields (items s) (l ← m; mret (List.map encode l)).
Proof. intros He w data w' _ H. apply marshal_inr in H as (l & w1 & _ & ->). by apply items_map. Qed.
Lemma yields_one {A} s (encode : A -> json) (m : M A) : (forall a, conforms s (encode a) = true) -> yields (item s) (a ← m; mret (encode a)).
Proof. intros He w data w' _ (a & w1 & _ & H)%bind_inr. by apply ret_inr in H as [<- _]. Qed.
(** The entries of the directory of banks. *)
Lemma list_bank_inr shardID route w l w' : list_bank shardID route w = (inr l, w') -> items bankResponse l.
Proof.
  unfold list_bank. case_match; [by intros [= <- _]|]. intros (x & w1 & Hx & H')%bind_inr. rewrite try_inr in Hx.
  destruct x as [|entity]; apply ret_inr in H' as [<- _]; [constructor|]. apply bind_inr in Hx as (e & w2 & _ & Hx). apply ret_inr in Hx as [<- _].
  constructor; [apply conforms_listed|constructor].
Qed.
Lemma yields_banks shardID : yields (items bankResponse) (ListBanks shardID).
Proof.
  intros w data w' _ (routes & w1 & _ & H)%bind_inr. apply bind_inr in H as (parts & w2 & H & Hr). apply ret_inr in Hr as [<- _].
  revert w1 parts w2 H. induction routes as [|route routes IH]; intros w1 parts w2 H; cbn [mapM_list] in H; [apply ret_inr in H as [<- _]; constructor|].
  apply bind_inr in H as (l & w3 & Hl & H). apply bind_inr in H as (ls & w4 & Hls & H). apply ret_inr in H as [<- _]. cbn [List.concat].
  apply Forall_app. split; [by eapply list_bank_inr|by eapply IH].
Qed.
(** Products, whose configurations are stored. *)
Lemma product_stored w b id p : objects_stored w -> products (w_shard w) !! (b, id) = Some p -> conforms cardProductResponse (CardProduct_json (scanCardProduct id p)) = true.
Proof. intros Hw Hp. apply conforms_product. exact (Hw _ _ Hp). Qed.
Lemma newest_in {A} (at_ : A -> Z) (rows : list (string * A)) p : p ∈ newest_first at_ rows -> p ∈ rows.
Proof. unfold newest_first. by rewrite merge_sort_Permutation. Qed.
Lemma yields_products b : yields (items cardProductResponse) (l ← reader_CardProducts b; mret (List.map CardProduct_json l)).
Proof.
  intros w data w' Hw H. apply marshal_inr in H as (l & w1 & H & ->). apply read_rows_inr in H as ->. rewrite List.map_map.
  apply Forall_forall. intros j Hj. apply list_elem_of_In, in_map_iff in Hj as ([id p] & <- & Hp). apply list_elem_of_In in Hp.
  apply newest_in, bank_rows_spec in Hp. by eapply product_stored.
Qed.
Lemma yields_product b id : yields (item cardProductResponse) (a ← reader_CardProduct b id; mret (CardProduct_json a)).
Proof.
  intros w data w' Hw (p & w1 & Hp & H)%bind_inr. apply ret_inr in H as [<- _]. apply read_row_inr in Hp as (Hp & _).
  destruct (products (w_shard w) !! (b, id)) as [row|] eqn:E; [|done]. injection Hp as <-. by eapply product_stored.
Qed.

Section Api.
Context (pf : platform) (cf : configuration) `{V : CredentialVault, !VaultErrors V}.
#[local] Instance here_authentication : Authentication := api_authentication pf cf.
#[local] Instance here_bank : ResourceHandlers.BankService := api_bank pf cf.
#[local] Instance here_access : BankAccess := api_access cf.
#[local] Instance here_catalog : ResourceHandlers.CatalogService := api_catalog pf cf.
#[local] Instance here_card : ResourceHandlers.CardService := api_card pf cf.
#[local] Instance here_batch : ResourceHandlers.BatchService := api_batch pf cf.
#[local] Instance here_staff : ResourceHandlers.StaffService := api_staff pf cf.
#[local] Instance here_statuses : ServiceStatuses := api_statuses pf cf.
#[local] Instance api_bodies : ServiceBodies.
Proof.
  split; intros; cbv [svc_ListBanks svc_GetBank svc_ListUsers svc_GetUser svc_ListReference svc_GetReference svc_ListCards svc_GetCard
    svc_ListCardOperations svc_ListCardStatusHistory svc_ListCardStatusBatches svc_GetCardStatusBatch svc_ListCardStatusBatchItems
    here_bank here_catalog here_card here_batch here_staff api_bank api_catalog api_card api_batch api_staff].
  - apply yields_banks.
  - intros w j w' _ Hrun. unfold GetBank in Hrun. apply bind_inr in Hrun as (visible & w1 & _ & Hrun). destruct visible; [|done].
    apply bind_inr in Hrun as (e & w2 & _ & Hrun). apply ret_inr in Hrun as [<- _]. apply conforms_bank.
  - apply yields_list, conforms_user.
  - apply yields_one, conforms_user.
  - match goal with Hk : reference_kind kind = true |- _ => apply kind_cases in Hk as [-> | [-> | ->]] end;
      [apply yields_products|apply yields_list, conforms_client|apply yields_list, conforms_account].
  - match goal with Hk : reference_kind kind = true |- _ => apply kind_cases in Hk as [-> | [-> | ->]] end;
      [apply yields_product|apply yields_one, conforms_client|apply yields_one, conforms_account].
  - apply yields_list, conforms_card.
  - apply yields_one, conforms_card.
  - apply yields_list, conforms_operation.
  - apply yields_list, conforms_history.
  - apply yields_list, conforms_batch.
  - apply yields_one. intros batch. apply conforms_detail.
  - apply yields_list, conforms_item.
Qed.

(** C39: the body of every reply to a documented reading is of the type its
    annotation names, with all its members and no other, or is a problem that
    repeats its status; and the content type says which.  Whatever the request
    carries, whatever the databases hold (configurations being objects, as their
    CHECK demands) and whatever faults occur. *)
Theorem documented_bodies e s r w reply w' :
  reading_schema e = Some s -> well_formed e = true -> rq_method r = endpoint_method e -> rq_path r = endpoint_path e ->
  objects_stored w -> api pf cf r w = (inr reply, w') -> typed s reply.
Proof.
  intros He Hw Hm Hp Hobj Hrun. unfold api in Hrun. apply bind_inr in Hrun as (claims & w1 & Hauth & Hrun).
  apply authenticate_world in Hauth as ->. destruct claims as [claims|]; [|injection Hrun as <- _; by apply typed_problem].
  assert (Hne : forall b run i, e <> PostExpiryRetry b run i) by (intros b run i ->; discriminate He).
  rewrite (endpoint_served (pf_hmac pf) (cf_cursorKey cf) (pf_number pf) e Hne r claims Hw Hm Hp) in Hrun.
  exact (replies_reading (pf_hmac pf) (cf_cursorKey cf) (pf_number pf) r claims e s Hw He w reply w' Hobj Hrun).
Qed.
End Api.

(** ** The first answer of a command *)

(** A command that is not a repetition answers a body of the documented type; a
    repetition answers the stored one, which for an issuance and a replacement
    has no credentials ([recorded_issuance]). *)
Section Commands.
Context `{V : CredentialVault} (configured : bool).
Abbreviation answering s m := (ensures (fun rs => conforms s rs.1 = true) (fun _ => True) m).
Lemma conforms_combined c o : conforms cardCommandResponse (combined c o) = true.
Proof.
  unfold combined, cardCommandResponse, required_member. cbn [conforms member String.eqb Ascii.eqb Bool.eqb].
  by rewrite conforms_card, conforms_operation.
Qed.
Lemma conforms_issuance c o cr : conforms cardIssuanceResponse (issuanceResponse c o cr) = true.
Proof.
  unfold issuanceResponse, cardIssuanceResponse, required_member. cbn [conforms member String.eqb Ascii.eqb Bool.eqb].
  by rewrite conforms_card, conforms_operation.
Qed.
Lemma conforms_created bank b its : conforms cardStatusBatchDetailResponse (batch_json bank b its) = true.
Proof.
  destruct its as [|i its]; [apply conforms_detail|]. pose proof (items_map cardStatusBatchItemResponse CardStatusBatchItem_json (i :: its) conforms_item) as Hi.
  assert (Hall : forallb (conforms cardStatusBatchItemResponse) (List.map CardStatusBatchItem_json (i :: its)) = true).
  { apply forallb_forall. rewrite Forall_forall in Hi. intros j Hj. by apply Hi, list_elem_of_In. }
  revert Hall. unfold batch_json, batch_response. generalize (List.map CardStatusBatchItem_json (i :: its)) as js. intros js Hall.
  destruct b.
  by repeat match goal with o : option _ |- _ => destruct o end; cbn -[cardStatusBatchItemResponse]; rewrite Hall.
Qed.
Lemma first_replace p b i scope key reason q state : answering cardIssuanceResponse (replace configured p b i scope key reason q state).
Proof. unfold replace. returns. apply conforms_issuance. Qed.
Lemma first_command p b i a scope key reason q state : answering cardCommandResponse (command_locked p b i a scope key reason q state).
Proof. unfold command_locked. returns; apply conforms_combined. Qed.
Lemma first_issuance p b key scope c a pr reason q :
  ensures (fun j => conforms cardIssuanceResponse j = true) (fun _ => True) (issue_claimed configured p b key scope c a pr reason q).
Proof. unfold issue_claimed. returns. apply conforms_issuance. Qed.
Lemma first_batch p b scope key t reason ids rid q : answering cardStatusBatchDetailResponse (create_claimed p b scope key t reason ids rid q).
Proof. unfold create_claimed, finish_batch. returns. apply conforms_created. Qed.
Lemma recorded_issuance c o : conforms cardIssuanceResponse (combined c o) = false.
Proof. unfold combined, cardIssuanceResponse, required_member. cbn [conforms member String.eqb Ascii.eqb Bool.eqb]. by rewrite conforms_card, conforms_operation. Qed.
End Commands.

(** ** The documented requests *)

Abbreviation pointer k := (optional_member k (SNullable SString)).
Definition openAPILoginRequest := strings ["username"; "password"].
Definition changePasswordRequest := strings ["current_password"; "new_password"].
Definition createBankRequest := strings ["bank_reference"; "name"].
Definition updateBankRequest := [pointer "name"; pointer "status"].
Definition createUserRequest := strings ["username"; "password"; "role"] ++ [optional_member "entity_id" SString].
Definition updateUserRequest := [required_member "role" SString; required_member "entity_id" (SNullable SString)].
Definition setUserPasswordRequest := strings ["new_password"].
Definition createCardProductRequest :=
  strings ["product_code"; "name"] ++ [optional_member "status" SString; required_member "configuration" SMap].
Definition updateCardProductRequest := [pointer "name"; pointer "status"; optional_member "configuration" SMap].
Definition createClientRequest := [required_member "external_client_ref" SString; pointer "display_name"].
Definition updateClientRequest := [required_member "display_name" (SNullable SString)].
Definition createAccountReferenceRequest := strings ["client_id"; "external_account_ref"].
Definition updateAccountReferenceRequest := strings ["client_id"].
Definition issueCardRequest := strings ["client_id"; "account_reference_id"; "product_id"; "reason"].
Definition cardCommandRequest := strings ["reason"].
Definition createCardStatusBatchRequest := strings ["target_status"; "reason"] ++ [required_member "card_ids" (SArray SString)].
Definition emptyCommandRequest : list (string * bool * schema) := [].

(** A documented type, and the struct its handler decodes into. *)
Record request_type := RequestType { rt_members : list (string * bool * schema); rt_struct : Type; rt_fields : fields rt_struct; rt_zero : rt_struct }.
Definition documented_requests : list request_type := [
  RequestType openAPILoginRequest _ loginRequest_fields (LoginRequest "" ""); RequestType changePasswordRequest _ passwordRequest_fields (PasswordRequest "" "");
  RequestType createBankRequest _ bank_request_fields (BankRequest "" ""); RequestType updateBankRequest _ bank_patch_fields (BankPatch None None);
  RequestType createUserRequest _ user_request_fields (UserRequest "" "" "" ""); RequestType updateUserRequest _ user_patch_fields (UserPatch None None);
  RequestType setUserPasswordRequest _ password_fields ""; RequestType createCardProductRequest _ product_request_fields (ProductRequest "" "" "" None);
  RequestType updateCardProductRequest _ product_change_fields (ProductChange None None None); RequestType createClientRequest _ client_request_fields (ClientRequest "" None);
  RequestType updateClientRequest _ display_fields None; RequestType createAccountReferenceRequest _ account_request_fields (AccountRequest "" "");
  RequestType updateAccountReferenceRequest _ client_id_fields ""; RequestType issueCardRequest _ issue_request_fields (IssueRequest "" "" "" "");
  RequestType cardCommandRequest _ reason_fields ""; RequestType createCardStatusBatchRequest _ batch_request_fields (BatchRequest "" "" None);
  RequestType emptyCommandRequest _ no_fields tt].

(** A field of the struct that takes every value of the schema. *)
Definition takes {R} (fs : fields R) (m : string * bool * schema) : Prop :=
  exists store, find_field fs m.1.1 = Some store /\ forall j r, conforms m.2 j = true -> is_Some (store (text_of j) r).
Lemma string_takes {R} (put : string -> R -> R) j r : conforms SString j = true -> is_Some (string_field put (text_of j) r).
Proof. destruct j; try done; by eexists. Qed.
Lemma pointer_takes {R} (put : option string -> R -> R) j r : conforms (SNullable SString) j = true -> is_Some (pointer_field put (text_of j) r).
Proof. destruct j; try done; by eexists. Qed.
Lemma nullable_string_takes {R} (put : option string -> R -> R) j r : conforms SString j = true -> is_Some (pointer_field put (text_of j) r).
Proof. destruct j; try done; by eexists. Qed.
Lemma raw_takes {R} (put : option jtext -> R -> R) s j r : conforms s j = true -> is_Some (raw_field put (text_of j) r).
Proof. by eexists. Qed.
Lemma strings_over_takes l old : forallb (conforms SString) l = true -> is_Some (strings_over (List.map text_of l) old).
Proof.
  revert old. induction l as [|j l IH]; intros old; [by eexists|]. cbn [forallb List.map strings_over]. intros [Hj Hl]%andb_true_iff.
  destruct (IH (tail old) Hl) as [x Hx]. destruct j; try done; cbn [text_of mbind option_bind]; rewrite Hx; by eexists.
Qed.
Lemma strings_takes {R} get (put : Requests.strings -> R -> R) j r : conforms (SArray SString) j = true -> is_Some (strings_field get put (text_of j) r).
Proof.
  destruct j as [| | | | |l|]; try done. cbn [conforms text_of]. intros Hl. destruct l as [|j l]; [by eexists|].
  destruct (strings_over_takes (j :: l) (from_option (fun s => s.1 ++ s.2) [] (get r)) Hl) as [x Hx]. unfold strings_field.
  cbn [List.map] in Hx |- *. rewrite Hx. by eexists.
Qed.
Lemma documented_fields_take : Forall (fun rt => Forall (takes (rt_fields rt)) (rt_members rt)) documented_requests.
Proof.
  unfold documented_requests. repeat (apply Forall_cons; split); try apply Forall_nil_2; cbn [rt_members rt_fields rt_struct];
    repeat (apply Forall_cons; split); try apply Forall_nil_2; (eexists; split; [reflexivity|]); intros j r Hj; cbn [snd] in Hj;
    revert Hj; first [apply string_takes|apply pointer_takes|apply nullable_string_takes|apply raw_takes|apply strings_takes].
Qed.

(** The members of a conforming object. *)
Lemma member_in l k v : NoDup (List.map fst l) -> (k, v) ∈ l -> member l k = Some v.
Proof.
  induction l as [|[k' v'] l IH]; intros Hn Hin; [by apply elem_of_nil in Hin|]. cbn [List.map fst member] in *. apply NoDup_cons in Hn as [Hk Hn].
  apply elem_of_cons in Hin as [[= -> ->]|Hin]; [by rewrite String.eqb_refl|]. destruct (String.eqb_spec k' k) as [->|_]; [|by apply IH].
  exfalso. apply Hk, list_elem_of_In, in_map_iff. exists (k, v). split; [done|]. by apply list_elem_of_In.
Qed.
Lemma conforms_members members l : conforms (SObject members) (JObj l) = true ->
  forall k v, (k, v) ∈ l -> exists o s, (k, o, s) ∈ members /\ ((forall o' s', (k, o', s') ∈ members -> s' = s) -> conforms s v = true).
Proof.
  cbn [conforms]. rewrite !andb_true_iff, bool_decide_eq_true. intros [[Hp He] Hn] k v Hin.
  rewrite forallb_forall in He. specialize (He (k, v) (proj1 (list_elem_of_In _ _) Hin)). apply existsb_exists in He as ([[k' o] s] & Hm & Hk%String.eqb_eq).
  cbn in Hk. subst k'. apply list_elem_of_In in Hm. exists o, s. split; [done|]. intros Huniq. pose proof (member_in l k v Hn Hin) as Hl. clear Hn Hin.
  induction members as [|[[k' o'] s'] members IH]; [by apply elem_of_nil in Hm|]. apply andb_true_iff in Hp as [H1 Hp].
  destruct (String.eqb_spec k' k) as [->|Hne].
  - rewrite Hl in H1. rewrite <- (Huniq o' s'); [done|]. apply elem_of_cons. by left.
  - apply IH; [done|by apply elem_of_cons in Hm as [[= <- <- <-]|]|]. intros o2 s2 H2. apply (Huniq o2). apply elem_of_cons. by right.
Qed.
Lemma conforming_decoded {R} (fs : fields R) members l : Forall (takes fs) members -> NoDup (List.map (fun m => m.1.1) members) ->
  conforms (SObject members) (JObj l) = true -> forall r, is_Some (decode_members true fs (List.map (fun p => (p.1, text_of p.2)) l) r).
Proof.
  intros Ht Hn Hc. pose proof (conforms_members members l Hc) as Hl. clear Hc.
  assert (Huniq : forall k o s o' s', (k, o, s) ∈ members -> (k, o', s') ∈ members -> s' = s).
  { clear Hl Ht. induction members as [|[[k0 o0] s0] members IH]; intros k o s o' s' H1 H2; [by apply elem_of_nil in H1|].
    cbn [List.map fst] in Hn. apply NoDup_cons in Hn as [Hk Hn].
    assert (Hout : forall o s, (k0, o, s) ∉ members). { intros o1 s1 H. apply Hk, list_elem_of_In, in_map_iff. exists (k0, o1, s1). split; [done|by apply list_elem_of_In]. }
    apply elem_of_cons in H1 as [E1|H1], H2 as [E2|H2]; simplify_eq; try done; first [by exfalso; eapply Hout|by eapply IH]. }
  induction l as [|[k v] l IH]; intros r; [by eexists|]. cbn [List.map decode_members fst snd].
  destruct (Hl k v) as (o & s & Hm & Hv); [apply elem_of_cons; by left|]. specialize (Hv (fun o' s' => Huniq k o s o' s' Hm)).
  rewrite Forall_forall in Ht. destruct (Ht _ Hm) as (store & Hf & Hs). cbn [fst snd] in Hf, Hs. rewrite Hf.
  destruct (Hs v r Hv) as [r' Hr]. rewrite Hr. cbn [mbind option_bind]. apply IH. intros k' v' Hin. apply Hl, elem_of_cons. by right.
Qed.

(** A name that is no field's is refused. *)
Lemma find_name_none {A} same k (l : list (string * A)) : (forall n, n ∈ List.map fst l -> same n k = false) -> find_name same k l = None.
Proof.
  induction l as [|[n a] l IH]; intros H; [done|]. cbn [find_name List.map fst] in *. rewrite H by (apply elem_of_cons; by left).
  apply IH. intros m Hm. apply H, elem_of_cons. by right.
Qed.
Lemma same_fold_refl a : same_fold a a = true.
Proof. by apply bool_decide_eq_true. Qed.
Lemma same_fold_sym a b : same_fold a b = same_fold b a.
Proof. unfold same_fold. by apply bool_decide_ext. Qed.
Lemma unknown_field {R} (fs : fields R) k : (forall n, n ∈ List.map fst fs -> same_fold k n = false) -> find_field fs k = None.
Proof.
  intros H. unfold find_field. rewrite !find_name_none; [done| |].
  - intros n Hn. rewrite same_fold_sym. by apply H.
  - intros n Hn. destruct (String.eqb_spec n k) as [->|]; [|done]. pose proof (H k Hn) as Hf. by rewrite same_fold_refl in Hf.
Qed.
Lemma unknown_refused {R} (fs : fields R) k v l r : (k, v) ∈ l -> find_field fs k = None ->
  decode_members true fs (List.map (fun p => (p.1, text_of p.2)) l) r = None.
Proof.
  intros Hin Hk. revert r. induction l as [|[k' v'] l IH]; intros r; [by apply elem_of_nil in Hin|]. cbn [List.map decode_members fst snd].
  apply elem_of_cons in Hin as [[= <- <-]|Hin]; [by rewrite Hk|]. destruct (find_field fs k') as [store|]; [|done].
  destruct (store (text_of v') r); [|done]. by apply IH.
Qed.

(** A body of the documented type, whatever its spelling of the optional members,
    is decoded; one with a member that is not documented, in any spelling, is not. *)
Theorem documented_requests_decoded rt r l : rt ∈ documented_requests -> ParseMediaType (header r "Content-Type") = Some "application/json" ->
  json_utf8 (JObj l) = true -> (nesting (JObj l) <= max_nesting)%nat -> rq_body r = json_encode (JObj l) -> Z.of_nat (String.length (rq_body r)) <= max_body ->
  (conforms (SObject (rt_members rt)) (JObj l) = true -> is_Some (DecodeRequest (rt_fields rt) (rt_zero rt) r)) /\
  (forall k v, (k, v) ∈ l -> (forall m, m ∈ rt_members rt -> same_fold k m.1.1 = false) -> DecodeRequest (rt_fields rt) (rt_zero rt) r = None).
Proof.
  intros Hrt Hmedia Hu Hn Hbody Hlen. unfold DecodeRequest. rewrite Hmedia. cbn [negb orb String.eqb Ascii.eqb Bool.eqb].
  rewrite (proj2 (Z.ltb_ge _ _) Hlen), Hbody, unmarshal_written by done.
  pose proof documented_fields_take as Ht. rewrite Forall_forall in Ht. specialize (Ht rt Hrt).
  assert (Hnames : Forall (fun rt => NoDup (List.map (fun m => m.1.1) (rt_members rt)) /\ List.map fst (rt_fields rt) ≡ₚ List.map (fun m => m.1.1) (rt_members rt)) documented_requests).
  { unfold documented_requests. repeat (apply Forall_cons; split); try apply Forall_nil_2; (split; [by apply (bool_decide_unpack _); vm_compute|reflexivity]). }
  rewrite Forall_forall in Hnames. destruct (Hnames rt Hrt) as [Hnd Hsame]. clear Hnames. split.
  - intros Hc. by apply (conforming_decoded (rt_fields rt) (rt_members rt) l).
  - intros k v Hin Hk.
    assert (Hno : find_field (rt_fields rt) k = None).
    { apply unknown_field. intros n Hn'. rewrite Hsame in Hn'. apply list_elem_of_In, in_map_iff in Hn' as (m & <- & Hm). apply Hk. by apply list_elem_of_In. }
    by eapply unknown_refused.
Qed.

(** ** Witness *)

(** A page of the banks. *)
Definition banks_page : Request := issuer_request "GET" (endpoint_path GetBanks) ∅.
Lemma documented_bodies_witness : exists reply, (api (V := Api.toy_vault) toy_platform toy_configuration banks_page api_world).1 = inr reply /\
  status reply = 200 /\ typed (collectionResponse bankResponse) reply.
Proof.
  assert (Hs : (match (api (V := Api.toy_vault) toy_platform toy_configuration banks_page api_world).1 with inr reply => status reply | inl _ => 0 end) = 200)
    by (vm_compute; reflexivity).
  destruct (api (V := Api.toy_vault) toy_platform toy_configuration banks_page api_world) as [x w'] eqn:E.
  destruct x as [e|reply]; [discriminate Hs|]. exists reply. split; [done|].
  split; [exact Hs|].
  refine (documented_bodies toy_platform toy_configuration (V := Api.toy_vault) (VaultErrors0 := memory_vault_errors _ _) GetBanks
    (collectionResponse bankResponse) banks_page api_world reply w' eq_refl eq_refl eq_refl eq_refl _ E).
  apply map_Forall_empty.
Defined.
