(* ===== verification/LocalPki.v ===== *)
(** * LocalPki: the certificates of local development

    [cmd/localpki/main.go]: an empty directory gets two certificate authorities,
    a server and a client certificate, their keys and the mapping of the client
    certificate to its bank; a complete one is validated and kept; one that was
    made for [localhost] only is renewed; any other is refused.  [IO] is what the
    command does to a directory: a state monad whose system calls may fail or be
    the last one before the process is killed, with or without their effect.

    The encodings of certificates, keys and PEM blocks, the signatures and the
    digest are parameters; the checks of [x509.Certificate.Verify] against one
    root are definitions. *)

From S2P Require Import Prelude Text Json JsonText TimeText JsonRoundtrip AuthorizationHttp.
Open Scope string_scope.
Open Scope list_scope.
Open Scope Z_scope.

(** ** The machine *)

Inductive node := Regular (data : string) (mode : Z) | Irregular.
Abbreviation directory := (gmap string node).
(** The outcome of the next system call: its time, whether it fails and has its
    effect all the same, and whether the process ends in it. *)
Record call := Call { cl_delay : N; cl_fails : bool; cl_applied : bool; cl_kills : bool }.
Definition quiet_call : call := Call 0 false true false.
Record machine := Machine { mc_files : directory; mc_clock : Z; mc_calls : list call; mc_entropy : list (list Z) }.
#[export] Instance machine_eta : Settable machine := fun s => Machine (mc_files s) (mc_clock s) (mc_calls s) (mc_entropy s).

Inductive outcome (A : Type) := Done (a : A) | Failed (message : string) | Killed.
Arguments Done {A}. Arguments Failed {A}. Arguments Killed {A}.
Definition IO (A : Type) : Type := machine -> outcome A * machine.
#[export] Instance IO_ret : MRet IO := fun A a s => (Done a, s).
#[export] Instance IO_bind : MBind IO := fun A B k m s =>
  match m s with
  | (Done a, s') => k a s'
  | (Failed e, s') => (Failed e, s')
  | (Killed, s') => (Killed, s')
  end.
Definition failed {A} (message : string) : IO A := fun s => (Failed message, s).
(** A call whose error is looked at, and a deferred call. *)
Definition attempt {A} (m : IO A) : IO (option A) := fun s =>
  match m s with
  | (Done a, s') => (Done (Some a), s')
  | (Failed _, s') => (Done None, s')
  | (Killed, s') => (Killed, s')
  end.
Definition deferred (d : IO unit) (m : IO unit) : IO unit := fun s =>
  match m s with
  | (Killed, s') => (Killed, s')
  | (x, s') => match d s' with (Killed, s2) => (Killed, s2) | (_, s2) => (x, s2) end
  end.
(** [if err != nil] around a call: its error is replaced. *)
Definition or_else {A} (m : IO A) (message : string) : IO A := fun s =>
  match m s with (Failed _, s') => (Failed message, s') | r => r end.
Definition of_option {A} (o : option A) (message : string) : IO A := match o with Some a => mret a | None => failed message end.
Definition demand (b : bool) (message : string) : IO unit := if b then mret tt else failed message.

Definition next_call (s : machine) : call * machine :=
  match mc_calls s with
  | [] => (quiet_call, s)
  | c :: rest => (c, s <| mc_calls := rest |> <| mc_clock ::= Z.add (Z.of_N (cl_delay c)) |>)
  end.
(** A system call: [None] is an error of the system, [f] what it does otherwise. *)
Definition syscall {A} (f : directory -> A * directory) : IO (option A) := fun s =>
  let '(c, s1) := next_call s in
  let '(a, d) := f (mc_files s1) in
  let s2 := if cl_applied c || negb (cl_fails c || cl_kills c) then s1 <| mc_files := d |> else s1 in
  if cl_kills c then (Killed, s2) else if cl_fails c then (Done None, s2) else (Done (Some a), s2).
Definition time_Now : IO Z := fun s => (Done (mc_clock s), s).
(** Bytes of [rand.Reader]; an exhausted source is its error. *)
Definition random_bytes : IO (list Z) := fun s =>
  match mc_entropy s with
  | [] => (Failed "rand", s)
  | bytes :: rest => (Done bytes, s <| mc_entropy := rest |>)
  end.

(** Files of the directory, by their names in it. *)
Definition contents (d : directory) (name : string) : option string :=
  match d !! name with Some (Regular data _) => Some data | _ => None end.
Definition checked (ok : IO (option (option unit))) (message : string) : IO unit :=
  r ← ok; match r with Some (Some _) => mret tt | _ => failed message end.
Definition Stat (name : string) : IO (option (option node)) := syscall (fun d => (d !! name, d)).
Definition ReadFile (name : string) : IO string :=
  r ← syscall (fun d => (contents d name, d));
  match r with Some (Some data) => mret data | _ => failed "read" end.
Definition on_file (name : string) (f : string -> Z -> option node) : IO (option (option unit)) :=
  syscall (fun d => match d !! name with
                    | Some (Regular data mode) => (Some tt, partial_alter (fun _ => f data mode) name d)
                    | _ => (None, d)
                    end).
Definition Chmod (name : string) (mode : Z) : IO unit := checked (on_file name (fun data _ => Some (Regular data mode))) "chmod".
Definition Remove (name : string) : IO unit := checked (on_file name (fun _ _ => None)) "remove".
Definition Write (name data : string) : IO unit := checked (on_file name (fun old mode => Some (Regular (old +:+ data) mode))) "write".
Definition Close : IO unit := checked (syscall (fun d => (Some tt, d))) "close".
Definition Rename (from to : string) : IO unit :=
  checked (syscall (fun d => match d !! from, d !! to with
                             | Some (Regular data mode), (None | Some (Regular _ _)) => (Some tt, <[to := Regular data mode]> (delete from d))
                             | _, _ => (None, d)
                             end)) "rename".
Definition MkdirAll : IO unit := checked (syscall (fun d => (Some tt, d))) "mkdir".

(** ** Certificates *)

Inductive ExtKeyUsage := ExtKeyUsageAny | ExtKeyUsageServerAuth | ExtKeyUsageClientAuth | OtherUsage (oid : string).
#[export] Instance ExtKeyUsage_eq_dec : EqDecision ExtKeyUsage. Proof. solve_decision. Defined.
Definition KeyUsageDigitalSignature : Z := 1.
Definition KeyUsageCertSign : Z := 32.
Definition KeyUsageCRLSign : Z := 64.

(** What a certificate states; [ct_PublicKey] is an Ed25519 key. *)
Record template := Template {
  ct_Version : Z; ct_SerialNumber : Z; ct_Issuer : string; ct_Subject : string; ct_NotBefore : Z; ct_NotAfter : Z;
  ct_PublicKey : option string; ct_BasicConstraintsValid : bool; ct_IsCA : bool; ct_KeyUsage : Z;
  ct_ExtKeyUsage : list ExtKeyUsage; ct_DNSNames : list string
}.
#[export] Instance template_eta : Settable template := fun t =>
  Template (ct_Version t) (ct_SerialNumber t) (ct_Issuer t) (ct_Subject t) (ct_NotBefore t) (ct_NotAfter t) (ct_PublicKey t)
    (ct_BasicConstraintsValid t) (ct_IsCA t) (ct_KeyUsage t) (ct_ExtKeyUsage t) (ct_DNSNames t).
Record Certificate := MkCertificate { Raw : string; RawTBS : string; statement : template; Signature : string }.

(** [now.AddDate(years, months, 0)]: months over the year carry into it, days
    over the month into the next. *)
Definition AddDate (now years months : Z) : Z :=
  let '(y, m, d) := civil_of_days (now / day) in
  let months := m - 1 + months in
  days_of_civil (y + years + months / 12) (months mod 12 + 1) d * day + now mod day.
(** The encoding of a certificate keeps whole seconds. *)
Definition to_second (t : Z) : Z := t / second * second.
Definition minute : Z := 60 * second.

(** [big.Int.SetBytes]. *)
Definition SetBytes (bytes : list Z) : Z := foldl (fun n b => n * 256 + b) 0 bytes.
Definition bytes_string (bytes : list Z) : string := of_bytes (List.map Z.to_N bytes).

(** A public key is the second half of its private key. *)
Definition Public (privateKey : string) : string := String.substring 32 32 privateKey.

(** [VerifyHostname] for a host that is one label in lower case, as the two names asked for. *)
Definition host_matches (t : template) (host : string) : bool :=
  existsb (fun name => (to_lower name == host) || (name == "*")) (ct_DNSNames t).
Definition valid_at (t : template) (now : Z) : bool := (ct_NotBefore t <=? now) && (now <=? ct_NotAfter t).
Definition usage_allowed (t : template) (usage : ExtKeyUsage) : bool :=
  match ct_ExtKeyUsage t with
  | [] => true
  | usages => existsb (fun u => bool_decide (u = usage) || bool_decide (u = ExtKeyUsageAny)) usages
  end.
Definition may_sign (t : template) : bool :=
  (if ct_BasicConstraintsValid t then ct_IsCA t else negb (ct_Version t =? 3)) &&
  ((ct_KeyUsage t =? 0) || negb (Z.land (ct_KeyUsage t) KeyUsageCertSign =? 0)).

(** ** The tool *)

Definition localBankID : string := "10000000-0000-4000-8000-000000000001".
Definition serverNames : list string := ["localhost"; "authorization"].
Definition fileModes : list (string * Z) := [
  ("server-ca.pem", 292); ("client-ca.pem", 292); ("client-ca-key.pem", 256); ("authorization-server.pem", 292);
  ("authorization-server-key.pem", 256); ("bank-client.pem", 292); ("bank-client-key.pem", 256); ("client-certificates.json", 292)].
Definition file_names : list string := List.map fst fileModes.
Definition fileMode (name : string) : Z := default 0 (list_to_map (M := gmap string Z) fileModes !! name).

Section Tool.
(** Keys and signatures of Ed25519. *)
Context (NewKeyFromSeed : string -> string) (ed25519_Sign : string -> string -> string) (ed25519_Verify : string -> string -> string -> bool).
(** The DER of a statement and of a signed certificate, and its reading. *)
Context (tbs_der : template -> string) (x509_der : template -> string -> string) (ParseCertificate : string -> option Certificate).
(** A signature by a key of another kind, and what further extensions of the two allow. *)
Context (other_signature further_checks : Certificate -> Certificate -> bool).
Context (pkcs8 : string -> string) (ParsePKCS8PrivateKey : string -> option string).
Context (pem_encode : string -> string -> string) (pem_decode : string -> option (string * string)).
Context (sha256_hex : string -> string).
(** The name [os.CreateTemp] finds free, and the orders in which the map of the
    modes is ranged over: to count, to remove and to write. *)
Context (fresh_name : directory -> string) (stat_order remove_order write_order : list string).

(** The statement a certificate is created with. *)
Definition prepared (t parent : template) (publicKey : string) : template :=
  t <| ct_Version := 3 |> <| ct_Issuer := ct_Subject parent |> <| ct_PublicKey := Some publicKey |>
    <| ct_NotBefore ::= to_second |> <| ct_NotAfter ::= to_second |>.
Definition CreateCertificate (t parent : template) (publicKey privateKey : string) : option string :=
  let t := prepared t parent publicKey in
  let signature := ed25519_Sign privateKey (tbs_der t) in
  if (ct_SerialNumber t <? 0) || negb (bool_decide (valid_time (ct_NotBefore t) /\ valid_time (ct_NotAfter t))) then None
  else if match ct_PublicKey parent with Some key => key != Public privateKey | None => false end then None
  else if negb (ed25519_Verify (Public privateKey) (tbs_der t) signature) then None
  else Some (x509_der t signature).

(** The signature of [parent] on [c], and [c.Verify] against the one root. *)
Definition CheckSignatureFrom (c parent : Certificate) : bool :=
  may_sign (statement parent) &&
  match ct_PublicKey (statement parent) with
  | Some key => ed25519_Verify key (RawTBS c) (Signature c)
  | None => other_signature c parent
  end.
Definition verified_at (now : Z) (c authority : Certificate) (usage : ExtKeyUsage) (dnsName : string) : bool :=
  valid_at (statement c) now && ((dnsName == "") || host_matches (statement c) dnsName) && further_checks c authority &&
  if Raw c == Raw authority then usage_allowed (statement c) usage
  else (ct_Issuer (statement c) == ct_Subject (statement authority)) && CheckSignatureFrom c authority && valid_at (statement authority) now &&
       usage_allowed (statement c) usage && usage_allowed (statement authority) usage.
Definition verify (c authority : Certificate) (usage : ExtKeyUsage) (dnsName : string) : IO bool :=
  now ← time_Now; mret (verified_at now c authority usage dnsName).

Definition read_certificate (data : string) : option Certificate :=
  match pem_decode data with
  | Some (kind, bytes) => if kind == "CERTIFICATE" then ParseCertificate bytes else None
  | None => None
  end.
Definition loadCertificate (name : string) : IO Certificate :=
  data ← ReadFile name; of_option (read_certificate data) "invalid certificate".
Definition key_matches (c : Certificate) (data : string) : bool :=
  match pem_decode data with
  | Some (_, bytes) => match ParsePKCS8PrivateKey bytes with
                       | Some key => bool_decide (ct_PublicKey (statement c) = Some (Public key))
                       | None => false
                       end
  | None => false
  end.
Definition matchingKey (c : Certificate) (name : string) : IO bool :=
  data ← attempt (ReadFile name); mret (match data with Some data => key_matches c data | None => false end).

Definition mapping_matches (client : Certificate) (data : string) : bool :=
  match unmarshal_strings data with
  | Some mapping => (size mapping =? 1)%nat && (default "" (mapping !! sha256_hex (Raw client)) == localBankID)
  | None => false
  end.
Definition invalid : string := "local PKI is invalid".
Fixpoint verify_names (names : list string) (server serverCA : Certificate) : IO unit :=
  match names with
  | [] => mret tt
  | name :: rest => ok ← verify server serverCA ExtKeyUsageServerAuth name; demand ok invalid ;; verify_names rest server serverCA
  end.
(** [a || b] of two checks. *)
Definition and_then (m k : IO bool) : IO bool := m ≫= (fun ok : bool => if ok then k else mret false).
Definition validateWithServerNames (names : list string) : IO unit :=
  serverCA ← or_else (loadCertificate "server-ca.pem") invalid;
  clientCA ← or_else (loadCertificate "client-ca.pem") invalid;
  server ← or_else (loadCertificate "authorization-server.pem") invalid;
  verify_names names server serverCA ;;
  demand (negb (length names =? 0)%nat) invalid ;;
  client ← or_else (loadCertificate "bank-client.pem") invalid;
  trusted ← verify client clientCA ExtKeyUsageClientAuth "";
  demand trusted invalid ;;
  keys ← and_then (matchingKey server "authorization-server-key.pem")
           (and_then (matchingKey client "bank-client-key.pem") (matchingKey clientCA "client-ca-key.pem"));
  demand keys invalid ;;
  data ← or_else (ReadFile "client-certificates.json") invalid;
  demand (mapping_matches client data) invalid.
Definition validate : IO unit := validateWithServerNames serverNames.

Definition certificatePEM (c : Certificate) : string := pem_encode "CERTIFICATE" (Raw c).
Definition privateKeyPEM (key : string) : string := pem_encode "PRIVATE KEY" (pkcs8 key).
Definition GenerateKey : IO string := seed ← random_bytes; mret (NewKeyFromSeed (bytes_string seed)).
Definition randomSerial : IO Z := bytes ← random_bytes; mret (SetBytes bytes).
(** A key, a serial number and the certificate of a template for them, signed by
    an authority or by the key itself. *)
Definition issue (t : Z -> template) (authority : option (Certificate * string)) : IO (Certificate * string) :=
  privateKey ← GenerateKey;
  serial ← randomSerial;
  let parent := match authority with Some (c, _) => statement c | None => t serial end in
  let signer := match authority with Some (_, key) => key | None => privateKey end in
  der ← of_option (CreateCertificate (t serial) parent (Public privateKey) signer) "x509";
  c ← of_option (ParseCertificate der) "x509";
  mret (c, privateKey).
Definition authority_template (commonName : string) (now serial : Z) : template :=
  Template 0 serial "" commonName (now - minute) (AddDate now 1 0) None true true
    (Z.lor KeyUsageCertSign (Z.lor KeyUsageCRLSign KeyUsageDigitalSignature)) [] [].
Definition certificateAuthority (commonName : string) (now : Z) : IO (Certificate * string) :=
  issue (authority_template commonName now) None.
Definition leaf_template (commonName : string) (usages : list ExtKeyUsage) (now : Z) (names : list string) (serial : Z) : template :=
  Template 0 serial "" commonName (now - minute) (AddDate now 0 30) None true false KeyUsageDigitalSignature usages names.
Definition leafCertificate (issuer : Certificate) (issuerKey commonName : string) (usages : list ExtKeyUsage) (now : Z) (names : list string) : IO (Certificate * string) :=
  issue (leaf_template commonName usages now names) (Some (issuer, issuerKey)).

Definition mapping_text (client : Certificate) : string :=
  json_encode (JObj [(sha256_hex (Raw client), JStr localBankID)]) +:+ of_bytes [10%N].
Definition pki_files (serverCA clientCA server client : Certificate) (clientCAKey serverKey clientKey : string) : gmap string string :=
  list_to_map [
    ("server-ca.pem", certificatePEM serverCA); ("client-ca.pem", certificatePEM clientCA);
    ("client-ca-key.pem", privateKeyPEM clientCAKey); ("authorization-server.pem", certificatePEM server);
    ("authorization-server-key.pem", privateKeyPEM serverKey); ("bank-client.pem", certificatePEM client);
    ("bank-client-key.pem", privateKeyPEM clientKey); ("client-certificates.json", mapping_text client)].
(** The contents [generateWithServerNames] writes. *)
Definition new_pki (names : list string) : IO (gmap string string) :=
  now ← time_Now;
  s ← or_else (certificateAuthority "local authorization server CA" now) "cannot generate local server CA";
  c ← or_else (certificateAuthority "local authorization client CA" now) "cannot generate local client CA";
  server ← or_else (leafCertificate s.1 s.2 "authorization" [ExtKeyUsageServerAuth] now names) "cannot generate authorization server certificate";
  client ← or_else (leafCertificate c.1 c.2 "local test bank" [ExtKeyUsageClientAuth] now []) "cannot generate bank client certificate";
  mret (pki_files s.1 c.1 server.1 client.1 c.2 server.2 client.2).

Definition CreateTemp : IO string :=
  r ← syscall (fun d => (fresh_name d, <[fresh_name d := Regular "" 384]> d)); of_option (r : option string) "create".
Definition closing (m : IO unit) : IO unit :=
  r ← attempt m; match r with Some _ => mret tt | None => _ ← attempt Close; failed "write" end.
Definition writeAtomically (name data : string) (mode : Z) : IO unit :=
  temporary ← CreateTemp;
  deferred (_ ← attempt (Remove temporary); mret tt)
    (closing (Chmod temporary mode) ;; closing (Write temporary data) ;; Close ;; Rename temporary name).
Fixpoint write_files (order : list string) (files : gmap string string) : IO unit :=
  match order with
  | [] => mret tt
  | name :: rest =>
      or_else (writeAtomically name (default "" (files !! name)) (fileMode name)) "cannot write local PKI files" ;;
      write_files rest files
  end.
Definition generateWithServerNames (names : list string) : IO unit :=
  files ← new_pki names; write_files write_order files ;; validateWithServerNames names.
Definition generate : IO unit := generateWithServerNames serverNames.

Fixpoint count_files (order : list string) (present : nat) : IO nat :=
  match order with
  | [] => mret present
  | name :: rest =>
      info ← Stat name;
      match info with
      | Some None => count_files rest present
      | Some (Some (Regular _ _)) => count_files rest (S present)
      | _ => failed "local PKI directory is invalid"
      end
  end.
Definition expectedFiles : IO nat := count_files stat_order 0.
Fixpoint remove_files (order : list string) : IO unit :=
  match order with
  | [] => mret tt
  | name :: rest => Chmod name 384 ;; Remove name ;; remove_files rest
  end.
Definition removeKnownFiles : IO unit := remove_files remove_order.

Definition provision : IO unit :=
  or_else MkdirAll "cannot create local PKI directory" ;;
  present ← expectedFiles;
  if (present =? length fileModes)%nat then
    valid ← attempt validate;
    match valid with
    | Some _ => mret tt
    | None =>
        or_else (validateWithServerNames ["localhost"]) "local PKI directory is invalid" ;;
        or_else removeKnownFiles "cannot renew local PKI directory" ;;
        generate
    end
  else if negb (present =? 0)%nat then failed "local PKI directory is partial"
  else generate.

End Tool.

(** ** What an execution can do to the directory *)

Definition io_rel (R : directory -> directory -> Prop) {A} (m : IO A) : Prop :=
  forall s x s', m s = (x, s') -> R (mc_files s) (mc_files s') /\ mc_clock s <= mc_clock s'.

Lemma next_call_spec s c s1 : next_call s = (c, s1) -> mc_files s1 = mc_files s /\ mc_clock s <= mc_clock s1 /\ mc_entropy s1 = mc_entropy s.
Proof. unfold next_call. destruct (mc_calls s) as [|c' rest]; intros [= <- <-]; [split; [done|split; [apply Z.le_refl|done]]|]. split; [done|]. split; [|done]. change (mc_clock s <= Z.of_N (cl_delay c') + mc_clock s). lia. Qed.

Section Moves.
Context (R : directory -> directory -> Prop) `{!PreOrder R}.
Lemma rel_ret {A} (a : A) : io_rel R (mret a).
Proof. intros s x s' [= _ <-]. split; [done|lia]. Qed.
Lemma rel_failed {A} message : io_rel R (failed (A := A) message).
Proof. intros s x s' [= _ <-]. split; [done|lia]. Qed.
Lemma rel_bind {A B} (m : IO A) (k : A -> IO B) : io_rel R m -> (forall a, io_rel R (k a)) -> io_rel R (m ≫= k).
Proof.
  intros Hm Hk s x s' H. unfold mbind, IO_bind in H. destruct (m s) as [[a|e|] s1] eqn:E; apply Hm in E as [H1 C1].
  2-3: by injection H as _ <-.
  apply Hk in H as [H2 C2]. split; [by etrans|lia].
Qed.
Lemma rel_attempt {A} (m : IO A) : io_rel R m -> io_rel R (attempt m).
Proof. intros Hm s x s' H. unfold attempt in H. destruct (m s) as [[a|e|] s1] eqn:E; apply Hm in E; by injection H as _ <-. Qed.
Lemma rel_or_else {A} (m : IO A) message : io_rel R m -> io_rel R (or_else m message).
Proof. intros Hm s x s' H. unfold or_else in H. destruct (m s) as [[a|e|] s1] eqn:E; apply Hm in E; by injection H as _ <-. Qed.
Lemma rel_deferred (d m : IO unit) : io_rel R d -> io_rel R m -> io_rel R (deferred d m).
Proof.
  intros Hd Hm s x s' H. unfold deferred in H.
  destruct (m s) as [[[]|e|] s1] eqn:E; apply Hm in E as [H1 C1]; [| |by injection H as _ <-];
    destruct (d s1) as [[[]|e2|] s2] eqn:E2; apply Hd in E2 as [H2 C2]; injection H as _ <-; (split; [by etrans|lia]).
Qed.
Lemma rel_of_option {A} (o : option A) message : io_rel R (of_option o message).
Proof. destruct o; [apply rel_ret|apply rel_failed]. Qed.
Lemma rel_demand b message : io_rel R (demand b message).
Proof. destruct b; [apply rel_ret|apply rel_failed]. Qed.
Lemma rel_syscall {A} (f : directory -> A * directory) : (forall d, R d (f d).2) -> io_rel R (syscall f).
Proof.
  intros Hf s x s' H. unfold syscall in H. destruct (next_call s) as [c s1] eqn:E. apply next_call_spec in E as (E1 & E2 & _).
  specialize (Hf (mc_files s1)). destruct (f (mc_files s1)) as [a d]. cbn in Hf. rewrite <- E1.
  assert (Hs2 : forall b : bool, R (mc_files s1) (mc_files (if b then s1 <| mc_files := d |> else s1)) /\
            mc_clock (if b then s1 <| mc_files := d |> else s1) = mc_clock s1) by (by intros []).
  destruct (Hs2 (cl_applied c || negb (cl_fails c || cl_kills c))) as [H1 H2]. repeat case_match; injection H as _ <-; (split; [done|lia]).
Qed.
Lemma rel_checked ok message : io_rel R ok -> io_rel R (checked ok message).
Proof. intros H. apply rel_bind; [done|]. intros [[[]|]|]; [apply rel_ret|apply rel_failed..]. Qed.
Lemma rel_now : io_rel R time_Now.
Proof. intros s x s' [= _ <-]. split; [done|lia]. Qed.
Lemma rel_random : io_rel R random_bytes.
Proof. intros s x s' H. unfold random_bytes in H. destruct (mc_entropy s); injection H as _ <-; (split; [done|]); cbn; apply Z.le_refl. Qed.
Lemma rel_ReadFile name : io_rel R (ReadFile name).
Proof. apply rel_bind; [by apply rel_syscall|]. intros [[data|]|]; [apply rel_ret|apply rel_failed..]. Qed.
Lemma rel_Stat name : io_rel R (Stat name).
Proof. by apply rel_syscall. Qed.
Lemma rel_on_file name f message : (forall d, R d (partial_alter (fun n => match n with Some (Regular data mode) => f data mode | _ => n end) name d)) ->
  io_rel R (checked (on_file name f) message).
Proof.
  intros Hf. apply rel_checked, rel_syscall. intros d. specialize (Hf d). destruct (d !! name) as [[data mode|]|] eqn:E; [|done..].
  cbn. replace (partial_alter (fun _ => f data mode) name d) with (partial_alter (fun n => match n with Some (Regular data mode) => f data mode | _ => n end) name d);
    [done|]. apply partial_alter_ext. intros x Hx. by rewrite <- Hx, E.
Qed.
End Moves.
Create HintDb moves.
#[export] Hint Resolve rel_ret rel_failed rel_of_option rel_demand rel_now rel_random rel_ReadFile rel_Stat : moves.
#[export] Hint Extern 1 (PreOrder _) => typeclasses eauto : moves.

(** Reading changes nothing. *)
Abbreviation reads := (io_rel eq).
Ltac moving := repeat first
  [ solve [auto with moves nocore] | apply rel_or_else | apply rel_attempt | apply rel_checked | (apply rel_bind; [apply _| |intros]) | match goal with |- io_rel _ (if ?b then _ else _) => destruct b end ].

(** ** Outcomes of the calls *)

Lemma io_bind {A B} (m : IO A) (k : A -> IO B) s x s' : (m ≫= k) s = (x, s') ->
  (exists a s1, m s = (Done a, s1) /\ k a s1 = (x, s')) \/ ((forall b, x <> Done b) /\ exists y, m s = (y, s') /\ forall a, y <> Done a).
Proof.
  unfold mbind, IO_bind. destruct (m s) as [[a|e|] s1] eqn:E; [by left; eauto|intros [= <- <-]; right..]; split; [done|by eauto|done|by eauto].
Qed.
Lemma io_done {A B} (m : IO A) (k : A -> IO B) s b s' : (m ≫= k) s = (Done b, s') -> exists a s1, m s = (Done a, s1) /\ k a s1 = (Done b, s').
Proof. intros [H|[H _]]%io_bind; [done|]. by destruct (H b). Qed.
Lemma or_else_done {A} (m : IO A) message s a s' : or_else m message s = (Done a, s') -> m s = (Done a, s').
Proof. unfold or_else. by destruct (m s) as [[]]. Qed.
Lemma attempt_done {A} (m : IO A) s a s' : attempt m s = (Done (Some a), s') -> m s = (Done a, s').
Proof. unfold attempt. by destruct (m s) as [[]]; intros [= -> ->]. Qed.
Lemma demand_done b message s s' : demand b message s = (Done tt, s') -> b = true /\ s' = s.
Proof. by destruct b; [intros [= <-]|]. Qed.
Lemma of_option_done {A} (o : option A) message s a s' : of_option o message s = (Done a, s') -> o = Some a /\ s' = s.
Proof. by destruct o; [intros [= -> ->]|]. Qed.
Lemma syscall_done {A} (f : directory -> A * directory) s r s' : syscall f s = (Done r, s') ->
  r = None \/ (r = Some (f (mc_files s)).1 /\ mc_files s' = (f (mc_files s)).2).
Proof.
  unfold syscall. destruct (next_call s) as [c s1] eqn:E. apply next_call_spec in E as (E1 & _). rewrite <- E1. destruct (f (mc_files s1)) as [a d].
  destruct (cl_kills c); [done|]. destruct (cl_fails c); intros [= <- <-]; [by left|right]. by rewrite orb_true_r.
Qed.
Lemma checked_done ok message s s' : checked ok message s = (Done tt, s') -> ok s = (Done (Some (Some tt)), s').
Proof. intros (r & s1 & H & Hr)%io_done. destruct r as [[[]|]|]; [by injection Hr as ->|done..]. Qed.
Lemma ReadFile_done name s data s' : ReadFile name s = (Done data, s') -> contents (mc_files s) name = Some data /\ mc_files s' = mc_files s.
Proof.
  intros (r & s1 & H & Hr)%io_done. apply syscall_done in H as [->|[-> Hs]]; [done|]. cbn in Hr, Hs.
  destruct (contents (mc_files s) name); [|done]. by injection Hr as -> ->.
Qed.
Lemma on_file_done name f message s s' : checked (on_file name f) message s = (Done tt, s') ->
  exists data mode, mc_files s !! name = Some (Regular data mode) /\ mc_files s' = partial_alter (fun _ => f data mode) name (mc_files s).
Proof.
  intros H%checked_done. apply syscall_done in H as [|[Hr Hs]]; [done|].
  destruct (mc_files s !! name) as [[data mode|]|]; [|done..]. by exists data, mode.
Qed.
(** A call has its effect or none. *)
Lemma syscall_effect {A} (f : directory -> A * directory) s x s' : syscall f s = (x, s') ->
  mc_files s' = mc_files s \/ mc_files s' = (f (mc_files s)).2.
Proof.
  unfold syscall. destruct (next_call s) as [c s1] eqn:E. apply next_call_spec in E as (E1 & _). rewrite <- E1. destruct (f (mc_files s1)) as [a d].
  repeat case_match; intros [= _ <-]; auto.
Qed.
Lemma closing_done m s s' : closing m s = (Done tt, s') -> m s = (Done tt, s').
Proof.
  intros (r & s1 & H & Hr)%io_done. destruct r as [[]|]; [injection Hr as ->; by apply attempt_done|].
  apply io_done in Hr as (? & ? & _ & Hr). done.
Qed.
(** The reads a conclusion of the validation rests on. *)
Lemma attempt_ReadFile name s r s' : attempt (ReadFile name) s = (Done r, s') ->
  (forall data, r = Some data -> contents (mc_files s) name = Some data) /\ mc_files s' = mc_files s.
Proof.
  intros H. assert (Hr : reads (attempt (ReadFile name))) by moving. split; [|by apply Hr in H as [<- _]].
  intros data ->. by apply attempt_done, ReadFile_done in H as [? _].
Qed.

(** ** Writing *)

Definition temporary_name (name : string) : bool := String.prefix ".tmp-" name.
(** Only temporary files change. *)
Definition touch_temporary (d d' : directory) : Prop := forall n, temporary_name n = false -> d' !! n = d !! n.
#[export] Instance touch_temporary_preorder : PreOrder touch_temporary.
Proof. split; [by intros d n|]. intros d1 d2 d3 H1 H2 n Hn. by rewrite H2, H1. Qed.
(** Besides, files take the contents and the modes of [new]. *)
Definition takes (new : gmap string string) (d d' : directory) : Prop :=
  forall n, temporary_name n = false -> d' !! n = d !! n \/ (n ∈ file_names /\ exists data, new !! n = Some data /\ d' !! n = Some (Regular data (fileMode n))).
#[export] Instance takes_preorder new : PreOrder (takes new).
Proof. split; [by left|]. intros d1 d2 d3 H1 H2 n Hn. destruct (H2 n Hn) as [->|H]; [by apply H1|by right]. Qed.
Lemma touch_takes new d d' : touch_temporary d d' -> takes new d d'.
Proof. intros H n Hn. left. by apply H. Qed.
Lemma known_not_temporary n : n ∈ file_names -> temporary_name n = false.
Proof. intros H. assert (Hall : Forall (fun n => temporary_name n = false) file_names) by (repeat constructor). by eapply Forall_forall in Hall. Qed.

Lemma rel_temporary_file name f message : temporary_name name = true -> io_rel touch_temporary (checked (on_file name f) message).
Proof. intros Ht. apply rel_on_file; [apply _|]. intros d n Hn. apply lookup_partial_alter_ne. by intros ->; congruence. Qed.
Lemma rel_Close R : PreOrder R -> io_rel R Close.
Proof. intros HR. apply rel_checked; [done|]. by apply rel_syscall. Qed.
Lemma rel_closing R m : PreOrder R -> io_rel R m -> io_rel R (closing m).
Proof.
  intros HR Hm. apply rel_bind; [done|by apply rel_attempt|]. intros [[]|]; [by apply rel_ret|].
  apply rel_bind; [done|by apply rel_attempt, rel_Close|]. intros _. by apply rel_failed.
Qed.

Section Writing.
Context (fresh_name : directory -> string) (Hfresh : forall d, d !! fresh_name d = None /\ temporary_name (fresh_name d) = true).

(** The writing of a file: of the files with names of their own only that one
    changes, to the whole contents with its mode, and it does when the call is done. *)
Definition written (name data : string) (mode : Z) (d d' : directory) : Prop :=
  forall n, temporary_name n = false -> d' !! n = d !! n \/ (n = name /\ d' !! n = Some (Regular data mode)).
#[local] Instance written_preorder name data mode : PreOrder (written name data mode).
Proof. split; [by left|]. intros d1 d2 d3 H1 H2 n Hn. destruct (H2 n Hn) as [->|H]; [by apply H1|by right]. Qed.
Lemma touch_written name data mode d d' : touch_temporary d d' -> written name data mode d d'.
Proof. intros H n Hn. left. by apply H. Qed.

Lemma rename_outcome temporary name data mode s x s' : temporary_name temporary = true -> temporary_name name = false ->
  mc_files s !! temporary = Some (Regular data mode) -> Rename temporary name s = (x, s') ->
  written name data mode (mc_files s) (mc_files s') /\ (x = Done tt -> mc_files s' !! name = Some (Regular data mode)).
Proof.
  intros Ht Hn Hd H. unfold Rename in H. set (f := fun d : directory => _) in H.
  assert (Hf : written name data mode (mc_files s) (f (mc_files s)).2 /\ ((f (mc_files s)).1 = Some tt -> (f (mc_files s)).2 !! name = Some (Regular data mode))).
  { unfold f. rewrite Hd. assert (Hmoved : written name data mode (mc_files s) (<[name := Regular data mode]> (delete temporary (mc_files s)))).
    { intros n Hnt. destruct (decide (n = name)) as [->|Hne]; [right; by rewrite lookup_insert_eq|left].
      rewrite lookup_insert_ne, lookup_delete_ne; [done|by intros ->; congruence|done]. }
    destruct (mc_files s !! name) as [[]|]; cbn [fst snd]; (split; [done|]); by rewrite ?lookup_insert_eq. }
  destruct Hf as [Hw Hdone]. split.
  - apply io_bind in H as [(r & s1 & H & Hr)|(_ & y & H & _)].
    + assert (s' = s1) as ->. { by destruct r as [[[]|]|]; injection Hr as _ <-. }
      by apply syscall_effect in H as [-> | ->].
    + by apply syscall_effect in H as [-> | ->].
  - intros ->. apply checked_done, syscall_done in H as [|[Hr ->]]; [done|]. apply Hdone. by injection Hr.
Qed.

Lemma write_temporary temporary name data mode s x s' : temporary_name temporary = true -> temporary_name name = false ->
  mc_files s !! temporary = Some (Regular "" 384) ->
  (closing (Chmod temporary mode) ;; closing (Write temporary data) ;; Close ;; Rename temporary name) s = (x, s') ->
  written name data mode (mc_files s) (mc_files s') /\ (x = Done tt -> mc_files s' !! name = Some (Regular data mode)).
Proof.
  intros Ht Hn Hd H.
  assert (Hchmod : io_rel touch_temporary (closing (Chmod temporary mode))) by (apply rel_closing; [apply _|]; by apply rel_temporary_file).
  assert (Hwrite : io_rel touch_temporary (closing (Write temporary data))) by (apply rel_closing; [apply _|]; by apply rel_temporary_file).
  apply io_bind in H as [([] & s1 & H1 & H)|(Hx & y & H & _)]; [|apply Hchmod in H as [H _]; split; [by apply touch_written|by intros ->; destruct (Hx tt)]].
  pose proof (Hchmod _ _ _ H1) as [R1 _]. apply closing_done, on_file_done in H1 as (? & ? & Hl & Hf1). rewrite Hd in Hl. injection Hl as <- <-.
  apply io_bind in H as [([] & s2 & H2 & H)|(Hx & y & H & _)]; [|apply Hwrite in H as [H _]; split; [apply touch_written; by etrans|by intros ->; destruct (Hx tt)]].
  pose proof (Hwrite _ _ _ H2) as [R2 _]. apply closing_done, on_file_done in H2 as (? & ? & Hl & Hf2). rewrite Hf1, lookup_partial_alter_eq in Hl. injection Hl as <- <-.
  assert (R12 : touch_temporary (mc_files s) (mc_files s2)) by (by etrans).
  apply io_bind in H as [([] & s3 & H3 & H)|(Hx & y & H & _)].
  2: { apply (rel_Close touch_temporary _) in H as [H _]. split; [apply touch_written; by etrans|by intros ->; destruct (Hx tt)]. }
  apply (rel_Close eq _) in H3 as [H3 _]. rewrite H3 in *. 
  apply (rename_outcome temporary name data mode) in H as [Hw Hdone]; [|done..|by rewrite Hf2, lookup_partial_alter_eq].
  split; [|done]. etrans; [by apply touch_written|done].
Qed.

Lemma writeAtomically_outcome name data mode s x s' : temporary_name name = false -> writeAtomically fresh_name name data mode s = (x, s') ->
  written name data mode (mc_files s) (mc_files s') /\ (x = Done tt -> mc_files s' !! name = Some (Regular data mode)).
Proof.
  intros Hn H. destruct (Hfresh (mc_files s)) as [Hnone Htmp].
  assert (Hcreate : io_rel touch_temporary (CreateTemp fresh_name)).
  { apply rel_bind; [apply _| |intros; apply rel_of_option, _]. apply rel_syscall; [apply _|]. intros d n Hnt. destruct (Hfresh d) as [_ Ht].
    cbn. apply lookup_insert_ne. intros <-. congruence. }
  apply io_bind in H as [(temporary & s1 & H1 & H)|(Hx & y & H & _)]; [|apply Hcreate in H as [H _]; split; [by apply touch_written|by intros ->; destruct (Hx tt)]].
  pose proof (Hcreate _ _ _ H1) as [R1 _]. apply io_done in H1 as (r & s2 & H1 & Hr). apply of_option_done in Hr as [-> ->].
  apply syscall_done in H1 as [|[Hr Hf]]; [done|]. cbn in Hr, Hf. injection Hr as ->.
  set (temporary := fresh_name (mc_files s)) in *.
  assert (Hremove : io_rel touch_temporary (_ ← attempt (Remove temporary); mret tt)).
  { apply rel_bind; [apply _|by apply rel_attempt, rel_temporary_file|intros; apply rel_ret, _]. }
  unfold deferred in H. match type of H with (let (_, _) := ?m in _) = _ => destruct m as [y s3] eqn:E end.
  apply (write_temporary temporary name data mode) in E as [Hw Hdone]; [|done..|by rewrite Hf, lookup_insert_eq].
  assert (H12 : written name data mode (mc_files s) (mc_files s3)) by (etrans; [by apply touch_written|done]).
  destruct y as [[]|e|]; [| |by injection H as <- <-].
  all: match type of H with (let (_, _) := ?m in _) = _ => destruct m as [z s4] eqn:E end; apply Hremove in E as [E _]; assert (s' = s4) as -> by (by destruct z; injection H as _ <-).
  all: split; [etrans; [done|by apply touch_written]|].
  - intros _. rewrite E by done. by apply Hdone.
  - by destruct z; injection H as <-.
Qed.
End Writing.

(** ** The provisioning *)

(** The known files of a directory. *)
Definition complete (d : directory) : Prop := forall n, n ∈ file_names -> is_Some (contents d n).
Definition absent (d : directory) : Prop := forall n, n ∈ file_names -> d !! n = None.
Definition unchanged (d d' : directory) : Prop := forall n, n ∈ file_names -> d' !! n = d !! n.
(** Files of one set of contents with their modes, or no file. *)
Definition holds (pki : gmap string string) (d : directory) : Prop :=
  forall n, n ∈ file_names -> d !! n = None \/ exists data, pki !! n = Some data /\ d !! n = Some (Regular data (fileMode n)).
(** What a removal leaves: files with their contents, or no file. *)
Definition leaves (d d' : directory) : Prop :=
  forall n, temporary_name n = false -> d' !! n = d !! n \/
    (n ∈ file_names /\ exists data, contents d n = Some data /\ (d' !! n = None \/ exists mode, d' !! n = Some (Regular data mode))).
#[export] Instance leaves_preorder : PreOrder leaves.
Proof.
  split; [by left|]. intros d1 d2 d3 H1 H2 n Hn. destruct (H2 n Hn) as [->|(Hk & data & Hc & H)]; [by apply H1|right].
  split; [done|]. exists data. split; [|done]. destruct (H1 n Hn) as [E|(_ & data' & Hc' & [E|[mode E]])]; unfold contents in Hc |- *; rewrite E in Hc; [done..|].
  unfold contents in Hc'. by injection Hc as <-.
Qed.

Section Provisioning.
Context (NewKeyFromSeed : string -> string) (ed25519_Sign : string -> string -> string) (ed25519_Verify : string -> string -> string -> bool).
Context (tbs_der : template -> string) (x509_der : template -> string -> string) (ParseCertificate : string -> option Certificate).
Context (other_signature further_checks : Certificate -> Certificate -> bool).
Context (pkcs8 : string -> string) (ParsePKCS8PrivateKey : string -> option string).
Context (pem_encode : string -> string -> string) (pem_decode : string -> option (string * string)).
Context (sha256_hex : string -> string).
Context (fresh_name : directory -> string) (Hfresh : forall d, d !! fresh_name d = None /\ temporary_name (fresh_name d) = true).
Context (stat_order remove_order write_order : list string).
Context (Hstat : stat_order ≡ₚ file_names) (Hremove : remove_order ≡ₚ file_names) (Hwrite : write_order ≡ₚ file_names).

Abbreviation validation names := (validateWithServerNames ed25519_Verify ParseCertificate other_signature further_checks ParsePKCS8PrivateKey pem_decode sha256_hex names).
Abbreviation generation := (new_pki NewKeyFromSeed ed25519_Sign ed25519_Verify tbs_der x509_der ParseCertificate pkcs8 pem_encode sha256_hex).
Abbreviation verified now c authority usage name := (verified_at ed25519_Verify other_signature further_checks now c authority usage name).
Abbreviation reading := (read_certificate ParseCertificate pem_decode).
Abbreviation provisioning := (provision NewKeyFromSeed ed25519_Sign ed25519_Verify tbs_der x509_der ParseCertificate other_signature further_checks
  pkcs8 ParsePKCS8PrivateKey pem_encode pem_decode sha256_hex fresh_name stat_order remove_order write_order).

(** A set of files the tool accepts at times between two: the server certificate
    is trusted for all the names, the client certificate for its use, each
    with its key, and the mapping names the client alone, for its bank. *)
Definition accepted (names : list string) (d : directory) (from to : Z) : Prop :=
  exists serverCA clientCA server client, names <> [] /\
    (contents d "server-ca.pem" ≫= reading) = Some serverCA /\ (contents d "client-ca.pem" ≫= reading) = Some clientCA /\
    (contents d "authorization-server.pem" ≫= reading) = Some server /\ (contents d "bank-client.pem" ≫= reading) = Some client /\
    Forall (fun name => exists now, from <= now <= to /\ verified now server serverCA ExtKeyUsageServerAuth name = true) names /\
    (exists now, from <= now <= to /\ verified now client clientCA ExtKeyUsageClientAuth "" = true) /\
    (exists serverKey clientKey caKey mapping,
       contents d "authorization-server-key.pem" = Some serverKey /\ key_matches ParsePKCS8PrivateKey pem_decode server serverKey = true /\
       contents d "bank-client-key.pem" = Some clientKey /\ key_matches ParsePKCS8PrivateKey pem_decode client clientKey = true /\
       contents d "client-ca-key.pem" = Some caKey /\ key_matches ParsePKCS8PrivateKey pem_decode clientCA caKey = true /\
       contents d "client-certificates.json" = Some mapping /\ mapping_matches sha256_hex client mapping = true).

(** *** Reading *)

Lemma reads_verify c authority usage name : reads (verify ed25519_Verify other_signature further_checks c authority usage name).
Proof. unfold verify. moving. Qed.
Lemma reads_load name : reads (loadCertificate ParseCertificate pem_decode name).
Proof. unfold loadCertificate. moving. Qed.
Lemma reads_key c name : reads (matchingKey ParsePKCS8PrivateKey pem_decode c name).
Proof. unfold matchingKey. moving. Qed.
Lemma reads_names names server serverCA : reads (verify_names ed25519_Verify other_signature further_checks names server serverCA).
Proof. induction names as [|name names IH]; cbn [verify_names]; [moving|]. apply rel_bind; [apply _|apply reads_verify|intros]. moving. Qed.
Lemma reads_and m k : reads m -> reads k -> reads (and_then m k).
Proof. intros Hm Hk. apply rel_bind; [apply _|done|]. intros []; [done|apply rel_ret, _]. Qed.
Lemma reads_validation names : reads (validation names).
Proof.
  unfold validateWithServerNames. repeat first [apply reads_names|apply reads_verify|apply reads_load|apply reads_key|apply reads_and|moving].
Qed.

Lemma load_done name s c s' : or_else (loadCertificate ParseCertificate pem_decode name) invalid s = (Done c, s') ->
  (contents (mc_files s) name ≫= reading) = Some c.
Proof. intros H%or_else_done. apply io_done in H as (data & s1 & H & Hr). apply ReadFile_done in H as [-> _]. by apply of_option_done in Hr as [Hr _]. Qed.
Lemma verify_done c authority usage name s b s' : verify ed25519_Verify other_signature further_checks c authority usage name s = (Done b, s') ->
  s' = s /\ b = verified (mc_clock s) c authority usage name.
Proof. intros (now & s1 & [= <- <-] & H)%io_done. by injection H as <- <-. Qed.
Lemma names_done names server serverCA s s' : verify_names ed25519_Verify other_signature further_checks names server serverCA s = (Done tt, s') ->
  s' = s /\ Forall (fun name => verified (mc_clock s) server serverCA ExtKeyUsageServerAuth name = true) names.
Proof.
  revert s. induction names as [|name names IH]; intros s H; cbn [verify_names] in H; [by injection H as ->|].
  apply io_done in H as (b & s1 & H1 & H). apply verify_done in H1 as [-> ->].
  apply io_done in H as ([] & s2 & H2 & H). apply demand_done in H2 as [Hv ->]. apply IH in H as [-> H]. split; [done|by constructor].
Qed.
Lemma key_done c name s s' : matchingKey ParsePKCS8PrivateKey pem_decode c name s = (Done true, s') ->
  exists data, contents (mc_files s) name = Some data /\ key_matches ParsePKCS8PrivateKey pem_decode c data = true.
Proof.
  intros (r & s1 & H & Hr)%io_done. apply attempt_ReadFile in H as [Hd _]. destruct r as [data|]; [|done]. injection Hr as Hk _.
  exists data. split; [by apply Hd|done].
Qed.
Lemma and_done m k s s' : and_then m k s = (Done true, s') -> exists s1, m s = (Done true, s1) /\ k s1 = (Done true, s').
Proof. intros ([] & s1 & H & Hr)%io_done; [by exists s1|done]. Qed.

Lemma validation_done names s s' : validation names s = (Done tt, s') ->
  mc_files s' = mc_files s /\ accepted names (mc_files s) (mc_clock s) (mc_clock s').
Proof.
  intros H. assert (Hr := reads_validation names s _ s' H). destruct Hr as [Hfiles Hclock]. split; [done|].
  unfold validateWithServerNames in H.
  (* each call reads the same files, at a later time *)
  assert (Hload : forall name s1 c s2, or_else (loadCertificate ParseCertificate pem_decode name) invalid s1 = (Done c, s2) ->
    (contents (mc_files s1) name ≫= reading) = Some c /\ mc_files s1 = mc_files s2 /\ mc_clock s1 <= mc_clock s2).
  { intros name s1 c s2 Hl. split; [by eapply load_done|]. eapply (rel_or_else eq); [apply reads_load|done]. }
  apply io_done in H as (serverCA & s1 & (Hca & F1 & C1)%Hload & H). apply io_done in H as (clientCA & s2 & (Hcc & F2 & C2)%Hload & H).
  apply io_done in H as (server & s3 & (Hserver & F3 & C3)%Hload & H). apply io_done in H as ([] & s4 & [-> Hnames]%names_done & H).
  apply io_done in H as ([] & s5 & [Hlen ->]%demand_done & H). apply io_done in H as (client & s6 & (Hclient & F6 & C6)%Hload & H).
  apply io_done in H as (trusted & s7 & [-> ->]%verify_done & H). apply io_done in H as ([] & s8 & [Htrusted ->]%demand_done & H).
  apply io_done in H as (keys & s9 & Hkeys & H). apply io_done in H as ([] & s10 & [-> ->]%demand_done & H).
  apply and_done in Hkeys as (s11 & Hk1 & Hkeys). apply and_done in Hkeys as (s12 & Hk2 & Hk3).
  destruct (reads_key _ _ _ _ _ Hk1) as [F11 C11], (reads_key _ _ _ _ _ Hk2) as [F12 C12], (reads_key _ _ _ _ _ Hk3) as [F9 C9].
  apply key_done in Hk1 as (serverKey & Hk1 & Hm1), Hk2 as (clientKey & Hk2 & Hm2), Hk3 as (caKey & Hk3 & Hm3).
  apply io_done in H as (mapping & s13 & H13%or_else_done & [Hmap ->]%demand_done).
  destruct (rel_ReadFile eq "client-certificates.json" _ _ _ H13) as [F13 C13]. apply ReadFile_done in H13 as [H13 _].
  rewrite <- ?F12, <- ?F11, <- ?F9, <- ?F6, <- ?F3, <- ?F2, <- ?F1 in *.
  exists serverCA, clientCA, server, client. split_and!; try done.
  - by destruct names.
  - eapply Forall_impl; [exact Hnames|]. intros name Hv. exists (mc_clock s3). split; [lia|done].
  - exists (mc_clock s6). split; [lia|done].
  - exists serverKey, clientKey, caKey, mapping. by split_and!.
Qed.

(** *** Counting, removing, generating *)

Lemma reads_count order present : reads (count_files order present).
Proof.
  revert present. induction order as [|name order IH]; intros present; cbn [count_files]; [moving|].
  apply rel_bind; [apply _|apply rel_Stat, _|]. intros [[[]|]|]; [apply IH|apply rel_failed, _|apply IH|apply rel_failed, _].
Qed.
Definition there (d : directory) (name : string) : bool := match contents d name with Some _ => true | None => false end.
Lemma count_done order present s k s' : count_files order present s = (Done k, s') ->
  k = (present + length (List.filter (there (mc_files s)) order))%nat /\
  forall n, n ∈ order -> there (mc_files s) n = false -> mc_files s !! n = None.
Proof.
  revert present s. induction order as [|name order IH]; intros present s H; cbn [count_files] in H.
  { injection H as <- ->. split; [cbn; lia|]. intros n Hn. by apply elem_of_nil in Hn. }
  apply io_done in H as (info & s1 & H1 & H). destruct (rel_Stat eq name _ _ _ H1) as [F _]. apply syscall_done in H1 as [->|[-> _]]; [done|].
  cbn [fst] in H. cbn [List.filter]. rewrite F in H |- *. destruct (mc_files s1 !! name) as [[data mode|]|] eqn:E; [|done|]; apply IH in H as [-> Hall].
  - assert (there (mc_files s1) name = true) as -> by (unfold there, contents; by rewrite E). split; [cbn; lia|].
    intros n [->|Hn]%elem_of_cons Hf; [unfold there, contents in Hf; by rewrite E in Hf|by apply Hall].
  - assert (there (mc_files s1) name = false) as -> by (unfold there, contents; by rewrite E). split; [done|].
    intros n [->|Hn]%elem_of_cons Hf; [done|by apply Hall].
Qed.
Lemma filter_all {A} (P : A -> bool) l : length (List.filter P l) = length l -> forall a, a ∈ l -> P a = true.
Proof.
  induction l as [|b l IH]; intros Hl a Ha; [by apply elem_of_nil in Ha|]. cbn in Hl. pose proof (filter_length_le P l) as Hle.
  destruct (P b) eqn:E; [|lia]. apply elem_of_cons in Ha as [->|Ha]; [done|]. apply IH; [cbn in Hl; lia|done].
Qed.
Lemma filter_none {A} (P : A -> bool) l : length (List.filter P l) = O -> forall a, a ∈ l -> P a = false.
Proof.
  induction l as [|b l IH]; intros Hl a Ha; [by apply elem_of_nil in Ha|]. cbn in Hl. destruct (P b) eqn:E; [done|].
  apply elem_of_cons in Ha as [->|Ha]; [done|by apply IH].
Qed.
Lemma expected_done s k s' : expectedFiles stat_order s = (Done k, s') ->
  mc_files s' = mc_files s /\ mc_clock s <= mc_clock s' /\ (k = length fileModes -> complete (mc_files s)) /\ (k = O -> absent (mc_files s)).
Proof.
  intros H. destruct (reads_count _ _ _ _ _ H) as [F C]. apply count_done in H as [-> Hall]. cbn [Nat.add]. split_and!; [done..| |].
  - intros Hk n Hn. rewrite <- Hstat in Hn. assert (Ht : there (mc_files s) n = true).
    { eapply filter_all; [|exact Hn]. by rewrite Hk, Hstat. }
    unfold there in Ht. by destruct (contents (mc_files s) n).
  - intros Hk n Hn. rewrite <- Hstat in Hn. apply Hall; [done|]. by eapply filter_none.
Qed.

Lemma rel_leaves_remove name : name ∈ file_names -> io_rel leaves (Remove name).
Proof.
  intros Hk. apply rel_on_file; [apply _|]. intros d n Hn. destruct (decide (n = name)) as [->|Hne]; [|left; by rewrite lookup_partial_alter_ne].
  rewrite lookup_partial_alter_eq. destruct (d !! name) as [[data mode|]|] eqn:E; [right|by left..].
  split; [done|]. exists data. split; [|by left]. unfold contents. by rewrite E.
Qed.
Lemma rel_leaves_chmod name mode : name ∈ file_names -> io_rel leaves (Chmod name mode).
Proof.
  intros Hk. apply rel_on_file; [apply _|]. intros d n Hn. destruct (decide (n = name)) as [->|Hne]; [|left; by rewrite lookup_partial_alter_ne].
  rewrite lookup_partial_alter_eq. destruct (d !! name) as [[data old|]|] eqn:E; [right|by left..].
  split; [done|]. exists data. split; [unfold contents; by rewrite E|right; by exists mode].
Qed.
Lemma rel_remove order : Forall (fun n => n ∈ file_names) order -> io_rel leaves (remove_files order).
Proof.
  induction 1 as [|name order Hk _ IH]; cbn [remove_files]; [apply rel_ret, _|]. apply rel_bind; [apply _|by apply rel_leaves_chmod|intros _].
  apply rel_bind; [apply _|by apply rel_leaves_remove|intros _; exact IH].
Qed.
Lemma remove_done order s s' : Forall (fun n => n ∈ file_names) order -> remove_files order s = (Done tt, s') ->
  forall n, n ∈ order -> mc_files s' !! n = None.
Proof.
  intros Hk. revert s. induction Hk as [|name order Hk Hks IH]; intros s H n Hn; [by apply elem_of_nil in Hn|]. cbn [remove_files] in H.
  apply io_done in H as ([] & s1 & _ & H). apply io_done in H as ([] & s2 & Hr & H). destruct (decide (n ∈ order)) as [Hin|Hout]; [by eapply IH|].
  apply elem_of_cons in Hn as [->|]; [|done]. apply on_file_done in Hr as (? & ? & _ & Hf).
  destruct (rel_remove order Hks _ _ _ H) as [Hl _].
  assert (Hgone : mc_files s2 !! name = None) by (by rewrite Hf, lookup_partial_alter_eq).
  destruct (Hl name (known_not_temporary _ Hk)) as [->|(_ & data & Hc & _)]; [done|]. unfold contents in Hc. by rewrite Hgone in Hc.
Qed.

Lemma reads_issue t authority : reads (issue NewKeyFromSeed ed25519_Sign ed25519_Verify tbs_der x509_der ParseCertificate t authority).
Proof. unfold issue, GenerateKey, randomSerial. repeat first [moving|progress cbv zeta]. Qed.
Lemma reads_new_pki names : reads (generation names).
Proof.
  unfold new_pki, certificateAuthority, leafCertificate. repeat first [apply reads_issue|moving].
Qed.
Lemma new_pki_files names s pki s' : generation names s = (Done pki, s') -> forall n, n ∈ file_names -> is_Some (pki !! n).
Proof.
  intros H. unfold new_pki in H. repeat apply io_done in H as (? & ? & _ & H). injection H as <- _.
  assert (Hall : forall sc cc sv cl k1 k2 k3, Forall (fun n => is_Some (pki_files pkcs8 pem_encode sha256_hex sc cc sv cl k1 k2 k3 !! n)) file_names).
  { intros. unfold pki_files, file_names, fileModes. repeat (constructor; [eexists; reflexivity|]). constructor. }
  intros n Hn. eapply Forall_forall in Hn; [|apply Hall]. exact Hn.
Qed.
Abbreviation writing := (write_files fresh_name).
Lemma write_files_outcome order pki s x s' : Forall (fun n => n ∈ file_names /\ is_Some (pki !! n)) order -> writing order pki s = (x, s') ->
  takes pki (mc_files s) (mc_files s') /\
  (x = Done tt -> forall n, n ∈ order -> exists data, pki !! n = Some data /\ mc_files s' !! n = Some (Regular data (fileMode n))).
Proof.
  intros Hk. revert s. induction Hk as [|name order [Hk [data Hd]] _ IH]; intros s H; cbn [write_files] in H.
  { injection H as <- <-. split; [done|]. intros _ n Hn. by apply elem_of_nil in Hn. }
  rewrite Hd in H. cbn [default] in H.
  assert (Hstep : forall d d', written name data (fileMode name) d d' -> takes pki d d').
  { intros d d' Hw n Hn. destruct (Hw n Hn) as [->|[-> ->]]; [by left|right; eauto]. }
  assert (Hone : forall y s1, or_else (writeAtomically fresh_name name data (fileMode name)) "cannot write local PKI files" s = (y, s1) ->
    takes pki (mc_files s) (mc_files s1) /\ (y = Done tt -> mc_files s1 !! name = Some (Regular data (fileMode name)))).
  { intros y s1 Hy. unfold or_else in Hy. destruct (writeAtomically fresh_name name data (fileMode name) s) as [z s2] eqn:E.
    apply (writeAtomically_outcome fresh_name Hfresh) in E as [Hw Hdone]; [|by apply known_not_temporary].
    destruct z as [[]|e|]; injection Hy as <- <-; (split; [by apply Hstep|]); [by auto|done..]. }
  apply io_bind in H as [([] & s1 & H1 & H)|(Hx & y & H & _)].
  - apply Hone in H1 as [T1 D1]. apply IH in H as [T2 D2]. split; [by etrans|]. intros -> n [->|Hn]%elem_of_cons; [|by apply D2].
    destruct (T2 name (known_not_temporary _ Hk)) as [->|(_ & data' & H1 & H2)]; [|by eauto]. exists data. split; [done|by apply D1].
  - apply Hone in H as [T _]. split; [done|]. intros ->. by destruct (Hx tt).
Qed.

Definition anything (_ _ : directory) : Prop := True.
#[local] Instance anything_preorder : PreOrder anything.
Proof. split; by repeat intro. Qed.
Lemma writeAtomically_anything name data mode : io_rel anything (writeAtomically fresh_name name data mode).
Proof.
  unfold writeAtomically, CreateTemp. apply rel_bind; [apply _|apply rel_bind; [apply _|by apply rel_syscall|intros; apply rel_of_option, _]|].
  intros t. apply rel_deferred; [apply _|apply rel_bind; [apply _|by apply rel_attempt, rel_on_file|intros; apply rel_ret, _]|].
  apply rel_bind; [apply _|by apply rel_closing, rel_on_file|intros _]. apply rel_bind; [apply _|by apply rel_closing, rel_on_file|intros _].
  apply rel_bind; [apply _|apply rel_Close, _|intros _]. apply rel_checked; [apply _|]. by apply rel_syscall.
Qed.
Lemma write_clock order pki s x s' : writing order pki s = (x, s') -> mc_clock s <= mc_clock s'.
Proof.
  revert s. induction order as [|name order IH]; intros s H; [injection H as _ <-; lia|]. cbn [write_files] in H.
  assert (Hone : io_rel anything (or_else (writeAtomically fresh_name name (default "" (pki !! name)) (fileMode name)) "cannot write local PKI files"))
    by apply rel_or_else, writeAtomically_anything.
  apply io_bind in H as [([] & s1 & H1 & H)|(_ & y & H & _)]; [|by apply Hone in H as [_ H]]. apply Hone in H1 as [_ H1]. apply IH in H. lia.
Qed.

(** A generation into a directory without the files: whatever happens, each is
    whole and from one set, or missing; when it is done all are there and accepted. *)
Definition generated (names : list string) (pki : gmap string string) : Prop := exists s s', generation names s = (Done pki, s').
Lemma takes_holds pki d d' : absent d -> takes pki d d' -> holds pki d'.
Proof. intros Ha Ht n Hn. destruct (Ht n (known_not_temporary _ Hn)) as [->|(_ & H)]; [left; by apply Ha|by right]. Qed.
Abbreviation generating := (generateWithServerNames NewKeyFromSeed ed25519_Sign ed25519_Verify tbs_der x509_der ParseCertificate other_signature further_checks
  pkcs8 ParsePKCS8PrivateKey pem_encode pem_decode sha256_hex fresh_name write_order).
Lemma generation_outcome names s x s' : absent (mc_files s) -> generating names s = (x, s') ->
  mc_clock s <= mc_clock s' /\
  (mc_files s' = mc_files s \/ exists pki, generated names pki /\ takes pki (mc_files s) (mc_files s') /\ holds pki (mc_files s')) /\
  (x = Done tt -> complete (mc_files s') /\ accepted names (mc_files s') (mc_clock s) (mc_clock s')).
Proof.
  intros Ha H. unfold generateWithServerNames in H.
  apply io_bind in H as [(pki & s1 & H1 & H)|(Hx & y & H & _)].
  2: { apply reads_new_pki in H as [<- HC]. split_and!; [done|by left|]. intros ->. by destruct (Hx tt). }
  pose proof (reads_new_pki _ _ _ _ H1) as [F1 C1]. pose proof (new_pki_files _ _ _ _ H1) as Hall.
  assert (Horder : Forall (fun n => n ∈ file_names /\ is_Some (pki !! n)) write_order).
  { apply Forall_forall. intros n Hn. rewrite Hwrite in Hn. auto. }
  assert (Hgen : generated names pki) by (by exists s, s1).
  apply io_bind in H as [([] & s2 & H2 & H)|(Hx & y & H & _)].
  2: { pose proof (write_clock _ _ _ _ _ H) as HC. apply write_files_outcome in H as [T _]; [|done]. rewrite <- F1 in T. split_and!; [lia| |].
       - right. exists pki. split_and!; [done..|by eapply takes_holds].
       - intros ->. by destruct (Hx tt). }
  pose proof (write_clock _ _ _ _ _ H2) as HC. apply write_files_outcome in H2 as [T D]; [|done]. rewrite <- F1 in T.
  pose proof (reads_validation _ _ _ _ H) as [F3 C3]. rewrite <- F3. split_and!; [lia| |].
  - right. exists pki. split_and!; [done..|by eapply takes_holds].
  - intros ->. split.
    + intros n Hn. destruct (D eq_refl n) as (data & _ & E); [by rewrite Hwrite|]. exists data. unfold contents. by rewrite E.
    + apply validation_done in H as [_ (a & b & c & d & Hacc)]. exists a, b, c, d. destruct_and! Hacc. split_and!; try done.
      * eapply Forall_impl; [eassumption|]. intros name (t & Ht & Hv). exists t. split; [lia|done].
      * match goal with H : exists now, _ /\ verified now d b _ _ = true |- _ => destruct H as (t & Ht & Hv) end. exists t. split; [lia|done].
Qed.

Lemma leaves_absent d d' : leaves d d' -> (forall n, n ∈ file_names -> d' !! n = None) -> absent d'.
Proof. by intros _ H. Qed.
Lemma removal_order : Forall (fun n => n ∈ file_names) remove_order.
Proof. apply Forall_forall. intros n Hn. by rewrite <- Hremove. Qed.
(** Files the program does not know are never touched. *)
Definition others_kept (d d' : directory) : Prop := forall n, n ∉ file_names -> temporary_name n = false -> d' !! n = d !! n.
Lemma takes_others pki d d' : takes pki d d' -> others_kept d d'.
Proof. intros H n Hn Ht. by destruct (H n Ht) as [|[? _]]. Qed.
Lemma leaves_others d d' : leaves d d' -> others_kept d d'.
Proof. intros H n Hn Ht. by destruct (H n Ht) as [|[? _]]. Qed.

(** A run of the tool: what it may have done to the known files. *)
Definition provision_effect (d d' : directory) (from to : Z) : Prop :=
  unchanged d d' \/
  (absent d /\ exists pki, generated serverNames pki /\ holds pki d') \/
  (complete d /\ accepted ["localhost"] d from to /\ (leaves d d' \/ exists pki, generated serverNames pki /\ holds pki d')).

Lemma accepted_within names d from to from' to' : from' <= from -> to <= to' -> accepted names d from to -> accepted names d from' to'.
Proof.
  intros Hf Ht (a & b & c & e & Hn & H1 & H2 & H3 & H4 & H5 & (t & Htime & Hv) & H6). exists a, b, c, e. split_and!; try done.
  - eapply Forall_impl; [exact H5|]. intros name (now & Hnow & Hver). exists now. split; [lia|done].
  - exists t. split; [lia|done].
Qed.
Lemma generation_effect names s x s' : absent (mc_files s) -> generating names s = (x, s') ->
  others_kept (mc_files s) (mc_files s') /\ (mc_files s' = mc_files s \/ exists pki, generated names pki /\ holds pki (mc_files s')).
Proof.
  intros Ha H. apply generation_outcome in H as (_ & [->|(pki & Hg & Ht & Hh)] & _); [| |done].
  - split; [by intros n|by left].
  - split; [by eapply takes_others|]. right. by exists pki.
Qed.
Lemma renewal_outcome s x s' : (or_else (removeKnownFiles remove_order) "cannot renew local PKI directory" ;; generating serverNames) s = (x, s') ->
  others_kept (mc_files s) (mc_files s') /\ mc_clock s <= mc_clock s' /\
  (leaves (mc_files s) (mc_files s') \/ exists pki, generated serverNames pki /\ holds pki (mc_files s')) /\
  (x = Done tt -> complete (mc_files s') /\ accepted serverNames (mc_files s') (mc_clock s) (mc_clock s')).
Proof.
  intros H. assert (Hrm : io_rel leaves (or_else (removeKnownFiles remove_order) "cannot renew local PKI directory")) by (apply rel_or_else, rel_remove, removal_order).
  apply io_bind in H as [([] & s1 & H1 & H)|(Hx & y & H & _)].
  2: { apply Hrm in H as [Hl C]. split_and!; [by apply leaves_others|done|by left|intros ->; by destruct (Hx tt)]. }
  pose proof (Hrm _ _ _ H1) as [Hl C1]. apply or_else_done in H1.
  assert (Hgone : absent (mc_files s1)). { intros n Hn. eapply remove_done; [apply removal_order|exact H1|]. by rewrite Hremove. }
  pose proof (generation_effect _ _ _ _ Hgone H) as [Ho Heff]. pose proof (generation_outcome _ _ _ _ Hgone H) as (C2 & _ & Hdone).
  split_and!; [intros n Hn Ht; rewrite Ho by done; by eapply leaves_others|lia| |].
  - destruct Heff as [->|Hg]; [by left|by right].
  - intros ->. destruct (Hdone eq_refl) as [Hc Ha]. split; [done|]. eapply accepted_within; [| |exact Ha]; lia.
Qed.
(** What every run has: the end of a run that has only read the directory so far. *)
Definition provision_post (d : directory) (from : Z) (x : outcome unit) (s' : machine) : Prop :=
  others_kept d (mc_files s') /\ provision_effect d (mc_files s') from (mc_clock s') /\
  (x = Done tt -> complete (mc_files s') /\ accepted serverNames (mc_files s') from (mc_clock s')).
Lemma post_stopped d from x s' : mc_files s' = d -> (forall b, x <> Done b) -> provision_post d from x s'.
Proof. intros <- Hx. split_and!; [by intros n|left; by intros n|]. intros ->. by destruct (Hx tt). Qed.
Lemma post_bind {A} (m : IO A) (k : A -> IO unit) from s x s' : reads m -> (m ≫= k) s = (x, s') ->
  (forall a s1, m s = (Done a, s1) -> mc_files s1 = mc_files s -> mc_clock s <= mc_clock s1 -> k a s1 = (x, s') -> provision_post (mc_files s) from x s') ->
  provision_post (mc_files s) from x s'.
Proof.
  intros Hm H Hk. apply io_bind in H as [(a & s1 & H1 & H)|(Hx & y & H & _)].
  - pose proof (Hm _ _ _ H1) as [F C]. by eapply Hk.
  - apply Hm in H as [F _]. by apply post_stopped.
Qed.
Lemma complete_outcome from s x s' : complete (mc_files s) -> from <= mc_clock s ->
  (valid ← attempt (validation serverNames);
   match valid with
   | Some _ => mret tt
   | None => or_else (validation ["localhost"]) "local PKI directory is invalid" ;;
             or_else (removeKnownFiles remove_order) "cannot renew local PKI directory" ;; generating serverNames
   end) s = (x, s') -> provision_post (mc_files s) from x s'.
Proof.
  intros Hc Hfrom H. apply (post_bind _ _ from) in H; [done|apply rel_attempt, reads_validation|]. clear H.
  intros valid s1 H1 F1 C1 H. destruct valid as [[]|].
  { injection H as <- <-. apply attempt_done, validation_done in H1 as [_ Hacc]. rewrite <- F1 in *. split_and!; [by intros n|left; by intros n|].
    intros _. split; [done|]. eapply accepted_within; [| |exact Hacc]; lia. }
  clear H1. rewrite <- F1 in *. apply (post_bind _ _ from) in H; [done|apply rel_or_else, reads_validation|]. clear H.
  intros [] s2 H2%or_else_done F2 C2 H. apply validation_done in H2 as [_ Hacc]. rewrite <- F2 in *.
  apply renewal_outcome in H as (Ho & C3 & Heff & Hdone). split_and!; [done| |].
  - right; right. split_and!; [done| |done]. eapply accepted_within; [| |exact Hacc]; lia.
  - intros ->. destruct (Hdone eq_refl) as [Hc' Ha]. split; [done|]. eapply accepted_within; [| |exact Ha]; lia.
Qed.

(** C40: provisioning the local certificates, with calls that fail or kill the
    process anywhere: it ends well only with a complete set that is accepted for
    both server names; a directory with some of the files is left as it is, and so
    is a complete one unless it is accepted for [localhost] too; an empty one
    gets files of one new set only, each whole and with its mode; a renewal
    has removed all the old files before it writes the new ones, so certificates
    of two sets never mix; and no other file is touched. *)
Theorem provision_safe s x s' : provisioning s = (x, s') -> provision_post (mc_files s) (mc_clock s) x s'.
Proof.
  intros H. apply (post_bind _ _ (mc_clock s)) in H; [done|apply rel_or_else; apply (rel_checked eq); by apply (rel_syscall eq)|]. clear H.
  intros [] s1 _ F1 C1 H. rewrite <- F1 in *. apply (post_bind _ _ (mc_clock s)) in H; [done|apply reads_count|]. clear H.
  intros present s2 H2 F2 C2 H. apply expected_done in H2 as (_ & _ & Hcomplete & Habsent). rewrite <- F2 in *.
  destruct (Nat.eqb_spec present (length fileModes)) as [Hp|_].
  { apply complete_outcome; [by apply Hcomplete|lia|done]. }
  destruct (Nat.eqb_spec present 0) as [Hp|_]; cbn [negb] in H; [|injection H as <- <-; by apply post_stopped].
  specialize (Habsent Hp). pose proof (generation_effect _ _ _ _ Habsent H) as [Ho Heff]. pose proof (generation_outcome _ _ _ _ Habsent H) as (C3 & _ & Hdone).
  split_and!; [done| |].
  - destruct Heff as [->|Hg]; [left; by intros n|right; left; by split].
  - intros ->. destruct (Hdone eq_refl) as [Hc Ha]. split; [done|]. eapply accepted_within; [| |exact Ha]; lia.
Qed.
End Provisioning.

(** ** A provisioning without faults *)

(** *** The calendar *)

Lemma days_of_civil_sum y m d : days_of_civil y m d = year_start (if m <=? 2 then y - 1 else y) + year_day m d - 719468.
Proof. unfold days_of_civil, year_start, year_day. destruct (m <=? 2); Z.to_euclidean_division_equations; lia. Qed.
Lemma year_start_step y : 365 <= year_start (y + 1) - year_start y <= 366.
Proof. unfold year_start. Z.to_euclidean_division_equations. lia. Qed.
Lemma months_1_12 (P : Z -> Prop) : P 1 -> P 2 -> P 3 -> P 4 -> P 5 -> P 6 -> P 7 -> P 8 -> P 9 -> P 10 -> P 11 -> P 12 -> forall m, 1 <= m <= 12 -> P m.
Proof.
  intros. assert (m = 1 \/ m = 2 \/ m = 3 \/ m = 4 \/ m = 5 \/ m = 6 \/ m = 7 \/ m = 8 \/ m = 9 \/ m = 10 \/ m = 11 \/ m = 12) as Hm by lia.
  by repeat destruct Hm as [->|Hm]; try subst m.
Qed.
Ltac year_steps y :=
  pose proof (year_start_step (y - 1)); pose proof (year_start_step y); pose proof (year_start_step (y + 1)); pose proof (year_start_step (y + 2));
  replace (y - 1 + 1) with y in * by lia; replace (y + 1 + 1) with (y + 2) in * by lia; replace (y + 2 + 1) with (y + 3) in * by lia.
Ltac in_years y := (* the years of both dates, from the year before [y] on *)
  replace (y + 2 - 1) with (y + 1) by lia; replace (y + 1 - 1) with y by lia; replace (y + 3 - 1) with (y + 2) by lia.
Lemma one_year y m d : 1 <= m <= 12 ->
  days_of_civil y m d + 365 <= days_of_civil (y + 1 + (m - 1 + 0) / 12) ((m - 1 + 0) mod 12 + 1) d <= days_of_civil y m d + 1100.
Proof.
  intros Hm. rewrite Z.add_0_r, Z.div_small, Z.mod_small, Z.add_0_r by lia. replace (m - 1 + 1) with m by lia. rewrite !days_of_civil_sum.
  year_steps y. destruct (m <=? 2); in_years y; lia.
Qed.
Lemma thirty_months y m d : 1 <= m <= 12 ->
  days_of_civil y m d + 365 <= days_of_civil (y + 0 + (m - 1 + 30) / 12) ((m - 1 + 30) mod 12 + 1) d <= days_of_civil y m d + 1100.
Proof.
  rewrite Z.add_0_r. revert m. apply months_1_12;
    match goal with |- _ <= days_of_civil (y + ?a) ?b _ <= _ =>
      let a' := eval vm_compute in a in change a with a'; let b' := eval vm_compute in b in change b with b' end;
    rewrite !days_of_civil_sum; cbn [Z.leb Z.compare Pos.compare Pos.compare_cont]; in_years y; year_steps y;
    match goal with |- context [year_day ?a d] => unfold year_day end;
    repeat match goal with |- context [(153 * ?a + 2) / 5] => let v := eval vm_compute in ((153 * a + 2) / 5) in change ((153 * a + 2) / 5) with v end; lia.
Qed.
(** A year, and thirty months, are more than a year's days and less than three leap years. *)
Lemma AddDate_bounds now years months : (years, months) = (1, 0) \/ (years, months) = (0, 30) ->
  now + 365 * day <= AddDate now years months <= now + 1100 * day.
Proof.
  intros Hym. unfold AddDate. pose proof (civil_correct (now / day)) as Hc. destruct (civil_of_days (now / day)) as [[y m] d].
  destruct Hc as (Hm & _ & Hz & _). assert (Hnow : now = now / day * day + now mod day) by (rewrite Z.mul_comm; by apply Z.div_mod).
  assert (Hb : now / day + 365 <= days_of_civil (y + years + (m - 1 + months) / 12) ((m - 1 + months) mod 12 + 1) d <= now / day + 1100).
  { rewrite <- Hz. destruct Hym as [[= -> ->]|[= -> ->]]; [by apply one_year|by apply thirty_months]. }
  revert Hb. generalize (days_of_civil (y + years + (m - 1 + months) / 12) ((m - 1 + months) mod 12 + 1) d). intros z Hb.
  pose proof (eq_refl : day = 86400000000000). nia.
Qed.
Lemma to_second_bounds t : t - second < to_second t <= t.
Proof. unfold to_second. pose proof (eq_refl : second = 1000000000) as Hs. rewrite Hs. Z.to_euclidean_division_equations. lia. Qed.
Lemma to_second_idem t : to_second (to_second t) = to_second t.
Proof. unfold to_second. rewrite Z.div_mul; [done|]. discriminate. Qed.

(** *** Calm calls *)

Definition total_delay (calls : list call) : Z := foldr (fun c t => Z.of_N (cl_delay c) + t) 0 calls.
(** No call fails, and all of them are over by [until]. *)
Definition calm (until : Z) (s : machine) : Prop :=
  Forall (fun c => cl_fails c = false /\ cl_kills c = false) (mc_calls s) /\ mc_clock s + total_delay (mc_calls s) <= until.
(** [m] succeeds. *)
Definition succeeds {A} (until : Z) (m : IO A) (s : machine) (Q : A -> machine -> Prop) : Prop :=
  exists a s', m s = (Done a, s') /\ calm until s' /\ mc_clock s <= mc_clock s' /\ Q a s'.

Lemma total_delay_nonneg calls : 0 <= total_delay calls.
Proof. induction calls as [|c calls IH]; [done|]. change (0 <= Z.of_N (cl_delay c) + total_delay calls). lia. Qed.
Lemma calm_clock until s : calm until s -> mc_clock s <= until.
Proof. intros [_ H]. pose proof (total_delay_nonneg (mc_calls s)). lia. Qed.
Lemma succeeds_ret {A} until (a : A) s (Q : A -> machine -> Prop) : calm until s -> Q a s -> succeeds until (mret a) s Q.
Proof. intros Hc HQ. exists a, s. split_and!; [done|done|lia|done]. Qed.
Lemma succeeds_bind {A B} until (m : IO A) (k : A -> IO B) s Q : succeeds until m s (fun a s' => calm until s' -> mc_clock s <= mc_clock s' -> succeeds until (k a) s' Q) ->
  succeeds until (m ≫= k) s Q.
Proof.
  intros (a & s1 & H1 & C1 & T1 & H). destruct (H C1 T1) as (b & s2 & H2 & C2 & T2 & HQ). exists b, s2.
  split_and!; [|done|lia|done]. unfold mbind, IO_bind. by rewrite H1.
Qed.
Lemma succeeds_or_else {A} until (m : IO A) message s Q : succeeds until m s Q -> succeeds until (or_else m message) s Q.
Proof. intros (a & s1 & H1 & H). exists a, s1. split; [|done]. unfold or_else. by rewrite H1. Qed.
Lemma succeeds_attempt {A} until (m : IO A) s Q : succeeds until m s (fun a => Q (Some a)) -> succeeds until (attempt m) s Q.
Proof. intros (a & s1 & H1 & H). exists (Some a), s1. split; [|done]. unfold attempt. by rewrite H1. Qed.
Lemma succeeds_syscall {A} until (f : directory -> A * directory) s Q : calm until s ->
  (forall s', mc_files s' = (f (mc_files s)).2 -> mc_entropy s' = mc_entropy s -> Q (Some (f (mc_files s)).1) s') -> succeeds until (syscall f) s Q.
Proof.
  intros [Hc Ht] HQ. unfold succeeds, syscall, next_call. destruct (mc_calls s) as [|c calls] eqn:E.
  - destruct (f (mc_files s)) as [a d] eqn:Ef. cbn. eexists _, _. split_and!; [done| |apply Z.le_refl|by apply HQ].
    split; [change (Forall (fun c => cl_fails c = false /\ cl_kills c = false) (mc_calls s))|change (mc_clock s + total_delay (mc_calls s) <= until)]; by rewrite E.
  - inversion Hc as [|? ? [H1 H2] Hcs]; subst. rewrite H1, H2, orb_true_r. cbn [mc_files].
    match goal with |- context [f ?x] => change x with (mc_files s) end.
    destruct (f (mc_files s)) as [a d] eqn:Ef. eexists _, _. split_and!; [done| | |by apply HQ].
    + split; [done|]. change (Z.of_N (cl_delay c) + mc_clock s + total_delay calls <= until).
      change (mc_clock s + (Z.of_N (cl_delay c) + total_delay calls) <= until) in Ht. lia.
    + change (mc_clock s <= Z.of_N (cl_delay c) + mc_clock s). lia.
Qed.
Lemma succeeds_checked until (f : directory -> option unit * directory) message s (Q : unit -> machine -> Prop) : calm until s ->
  (f (mc_files s)).1 = Some tt ->
  (forall s', mc_files s' = (f (mc_files s)).2 -> mc_entropy s' = mc_entropy s -> Q tt s') -> succeeds until (checked (syscall f) message) s Q.
Proof.
  intros Hc Hf HQ. apply succeeds_bind, succeeds_syscall; [done|]. intros s' F E Hc' _. rewrite Hf. apply succeeds_ret; [done|by apply HQ].
Qed.
Lemma succeeds_on_file until name f message s (Q : unit -> machine -> Prop) data mode : calm until s -> mc_files s !! name = Some (Regular data mode) ->
  (forall s', mc_files s' = partial_alter (fun _ => f data mode) name (mc_files s) -> mc_entropy s' = mc_entropy s -> Q tt s') ->
  succeeds until (checked (on_file name f) message) s Q.
Proof. intros Hc Hd HQ. apply succeeds_checked; rewrite ?Hd; [done..|]. cbn. exact HQ. Qed.
Lemma succeeds_ReadFile until name s (Q : string -> machine -> Prop) data : calm until s -> contents (mc_files s) name = Some data ->
  (forall s', mc_files s' = mc_files s -> mc_entropy s' = mc_entropy s -> Q data s') -> succeeds until (ReadFile name) s Q.
Proof.
  intros Hc Hd HQ. apply succeeds_bind, succeeds_syscall; [done|]. intros s' F E Hc' _. cbn in F |- *. rewrite Hd.
  apply succeeds_ret; [done|by apply HQ].
Qed.
Lemma succeeds_demand until b message s (Q : unit -> machine -> Prop) : calm until s -> b = true -> Q tt s -> succeeds until (demand b message) s Q.
Proof. intros Hc -> HQ. by apply succeeds_ret. Qed.
Lemma succeeds_weaken {A} until (m : IO A) s (Q Q' : A -> machine -> Prop) : succeeds until m s Q -> (forall a s', Q a s' -> Q' a s') -> succeeds until m s Q'.
Proof. intros (a & s1 & H1 & C & T & HQ) Hw. exists a, s1. split_and!; [done..|by apply Hw]. Qed.
Lemma succeeds_closing until m s (Q : unit -> machine -> Prop) : succeeds until m s Q -> succeeds until (closing m) s Q.
Proof.
  intros H. apply succeeds_bind, succeeds_attempt. eapply succeeds_weaken; [exact H|]. intros [] s' HQ Hc _. by apply succeeds_ret.
Qed.
(** A deferred removal, whether there is something to remove or not. *)
Lemma succeeds_removing until name s : calm until s ->
  exists s', (_ ← attempt (Remove name); mret tt) s = (Done tt, s') /\ calm until s' /\ mc_clock s <= mc_clock s' /\ mc_entropy s' = mc_entropy s.
Proof.
  intros Hc. destruct (succeeds_syscall until (fun d => match d !! name with Some (Regular _ _) => (Some tt, delete name d) | _ => (None, d) end) s
    (fun _ s' => mc_entropy s' = mc_entropy s) Hc) as (r & s1 & H1 & C1 & T1 & E1); [done|]. exists s1. split_and!; [|done..].
  unfold attempt, Remove, checked, on_file, mbind, IO_bind. change (fun d : directory => match d !! name with
    | Some (Regular data mode) => (Some tt, partial_alter (fun _ => None) name d) | _ => (None, d) end) with
    (fun d : directory => match d !! name with Some (Regular _ _) => (Some tt, delete name d) | _ => (None, d) end).
  rewrite H1. by destruct r as [[[]|]|].
Qed.

(** *** Calm steps of the tool *)

Section Calm.
Context (NewKeyFromSeed : string -> string) (ed25519_Sign : string -> string -> string) (ed25519_Verify : string -> string -> string -> bool).
Context (tbs_der : template -> string) (x509_der : template -> string -> string) (ParseCertificate : string -> option Certificate).
Context (other_signature further_checks : Certificate -> Certificate -> bool).
Context (pkcs8 : string -> string) (ParsePKCS8PrivateKey : string -> option string).
Context (pem_encode : string -> string -> string) (pem_decode : string -> option (string * string)).
Context (sha256_hex : string -> string).
Context (fresh_name : directory -> string) (Hfresh : forall d, d !! fresh_name d = None /\ temporary_name (fresh_name d) = true).
Context (stat_order remove_order write_order : list string).
Context (Hstat : stat_order ≡ₚ file_names) (Hremove : remove_order ≡ₚ file_names) (Hwrite : write_order ≡ₚ file_names).
(** What the encodings and the cryptography promise: signatures by a key verify
    with it; what is encoded is decoded; the certificates the program creates carry
    no extension that its checks do not know; a digest is 64 lower-case digits. *)
Definition encodable (t : template) : Prop := 0 <= ct_SerialNumber t /\ to_second (ct_NotBefore t) = ct_NotBefore t /\ to_second (ct_NotAfter t) = ct_NotAfter t.
Definition certificate_of (t : template) (signature : string) : Certificate := MkCertificate (x509_der t signature) (tbs_der t) t signature.
Context (Hsign : forall seed m, ed25519_Verify (Public (NewKeyFromSeed seed)) m (ed25519_Sign (NewKeyFromSeed seed) m) = true).
Context (Hparse : forall t signature, encodable t -> ParseCertificate (x509_der t signature) = Some (certificate_of t signature)).
Context (Hfurther : forall t1 s1 t2 s2, further_checks (certificate_of t1 s1) (certificate_of t2 s2) = true).
Context (Hpkcs8 : forall seed, ParsePKCS8PrivateKey (pkcs8 (NewKeyFromSeed seed)) = Some (NewKeyFromSeed seed)).
Context (Hpem : forall kind bytes, kind = "CERTIFICATE" \/ kind = "PRIVATE KEY" -> pem_decode (pem_encode kind bytes) = Some (kind, bytes)).
Context (Hhex : hex_digest sha256_hex).

Lemma succeeds_write until name data mode s : temporary_name name = false -> mc_files s !! name <> Some Irregular -> calm until s ->
  succeeds until (writeAtomically fresh_name name data mode) s (fun _ _ => True).
Proof.
  intros Hname Hir Hc. destruct (Hfresh (mc_files s)) as [Hnone Htmp].
  apply succeeds_bind, succeeds_bind, succeeds_syscall; [done|]. intros s1 F1 _ C1 _. apply succeeds_ret; [done|]. cbn [fst] in F1 |- *.
  set (temporary := fresh_name (mc_files s)) in *. intros _ _.
  assert (Hbody : succeeds until (closing (Chmod temporary mode) ;; closing (Write temporary data) ;; Close ;; Rename temporary name) s1 (fun _ _ => True)).
  { apply succeeds_bind, succeeds_closing. eapply succeeds_on_file; [done|by rewrite F1; apply lookup_insert_eq|]. intros s2 F2 _ C2 _.
    apply succeeds_bind, succeeds_closing. eapply succeeds_on_file; [done|by rewrite F2, lookup_partial_alter_eq|]. intros s3 F3 _ C3 _.
    apply succeeds_bind, succeeds_checked; [done..|]. cbn [snd]. intros s4 F4 _ C4 _.
    apply succeeds_checked; [done| |done].
    rewrite F4, F3, lookup_partial_alter_eq. rewrite lookup_partial_alter_ne by (intros <-; congruence).
    rewrite F2, lookup_partial_alter_ne by (intros <-; congruence). rewrite F1. cbn [snd]. rewrite lookup_insert_ne by (intros <-; congruence).
    by destruct (mc_files s !! name) as [[]|]. }
  destruct Hbody as ([] & s2 & H2 & C2 & T2 & _). destruct (succeeds_removing until temporary s2 C2) as (s3 & H3 & C3 & T3 & _).
  exists tt, s3. split_and!; [|done|lia|done]. unfold deferred. by rewrite H2, H3.
Qed.
Lemma succeeds_write_files until order pki s : Forall (fun n => n ∈ file_names /\ is_Some (pki !! n)) order ->
  (forall n, n ∈ file_names -> mc_files s !! n <> Some Irregular) -> calm until s -> succeeds until (write_files fresh_name order pki) s (fun _ _ => True).
Proof.
  intros Hk. revert s. induction Hk as [|name order [Hn [data Hd]] Hk IH]; intros s Hir Hc; [by apply succeeds_ret|]. cbn [write_files].
  destruct (succeeds_write until name (default "" (pki !! name)) (fileMode name) s) as ([] & s1 & H1 & C1 & T1 & _);
    [by apply known_not_temporary|by apply Hir|done|].
  apply succeeds_bind, succeeds_or_else. exists tt, s1. split_and!; [done..|]. intros _ _. apply IH; [|done].
  apply (writeAtomically_outcome fresh_name Hfresh) in H1 as [Hw _]; [|by apply known_not_temporary].
  intros n Hin. destruct (Hw n (known_not_temporary _ Hin)) as [->|[_ ->]]; [by apply Hir|done].
Qed.
Lemma succeeds_count until order present s (Q : nat -> machine -> Prop) : calm until s ->
  (forall n, n ∈ order -> mc_files s !! n <> Some Irregular) ->
  (forall s', mc_files s' = mc_files s -> mc_entropy s' = mc_entropy s -> Q (present + length (List.filter (there (mc_files s)) order))%nat s') ->
  succeeds until (count_files order present) s Q.
Proof.
  revert present s. induction order as [|name order IH]; intros present s Hc Hir HQ; cbn [count_files].
  { apply succeeds_ret; [done|]. specialize (HQ s eq_refl eq_refl). by rewrite Nat.add_0_r in HQ. }
  assert (Hname : mc_files s !! name <> Some Irregular) by (apply Hir, elem_of_cons; by left).
  assert (Hrest : forall n, n ∈ order -> mc_files s !! n <> Some Irregular) by (intros n Hn; apply Hir, elem_of_cons; by right).
  apply succeeds_bind, succeeds_syscall; [done|]. cbn [fst snd]. intros s1 F1 E1 C1 _. cbn [List.filter] in HQ.
  assert (Hthere : there (mc_files s) name = match mc_files s !! name with Some (Regular _ _) => true | _ => false end).
  { unfold there, contents. by destruct (mc_files s !! name) as [[]|]. }
  rewrite Hthere in HQ. destruct (mc_files s !! name) as [[data mode|]|]; [| |]; [| by destruct Hname |].
  all: apply IH; [done|by rewrite F1|]; intros s2 F2 E2; rewrite F1.
  - specialize (HQ s2). cbn [length] in HQ. rewrite Nat.add_succ_r in HQ. apply HQ; congruence.
  - apply HQ; congruence.
Qed.

(** The certificate of a key for a template, signed by another key. *)
Definition signed (t parent : template) (key signer : string) : Certificate :=
  certificate_of (prepared t parent (Public key)) (ed25519_Sign signer (tbs_der (prepared t parent (Public key)))).
Definition valid_clock (t : Z) : Prop := 0 <= t <= days_of_civil 9990 1 1 * day.
Definition draw (bytes : list Z) : Prop := Forall (fun b => 0 <= b) bytes.

Lemma SetBytes_nonneg bytes : draw bytes -> 0 <= SetBytes bytes.
Proof.
  unfold SetBytes. assert (H : forall n, 0 <= n -> draw bytes -> 0 <= foldl (fun n b => n * 256 + b) n bytes); [|by apply H].
  induction bytes as [|b bytes IH]; intros n Hn Hd; [done|]. inversion Hd; subst. cbn. apply IH; [lia|done].
Qed.
Lemma prepared_encodable t parent publicKey : 0 <= ct_SerialNumber t -> encodable (prepared t parent publicKey).
Proof. intros H. split_and!; [done|apply to_second_idem..]. Qed.
Lemma clock_times now months years : valid_clock now -> (years, months) = (1, 0) \/ (years, months) = (0, 30) ->
  valid_time (to_second (now - minute)) /\ valid_time (to_second (AddDate now years months)).
Proof.
  intros [Hlo Hhi] Hym. pose proof (AddDate_bounds now years months Hym) as Hb. pose proof (to_second_bounds (now - minute)).
  pose proof (to_second_bounds (AddDate now years months)). unfold valid_time.
  pose proof (eq_refl : days_of_civil 0 1 1 * day = -62167219200000000000) as E0. pose proof (eq_refl : days_of_civil 10000 1 1 * day = 253402300800000000000) as E1.
  pose proof (eq_refl : days_of_civil 9990 1 1 * day = 253086768000000000000) as E2. rewrite E0, E1. rewrite E2 in Hhi.
  pose proof (eq_refl : minute = 60000000000). pose proof (eq_refl : second = 1000000000). pose proof (eq_refl : day = 86400000000000). lia.
Qed.
Lemma issue_done (t : Z -> template) authority s seed serial rest : mc_entropy s = seed :: serial :: rest -> draw serial ->
  ct_SerialNumber (t (SetBytes serial)) = SetBytes serial -> ct_PublicKey (t (SetBytes serial)) = None ->
  valid_time (to_second (ct_NotBefore (t (SetBytes serial)))) /\ valid_time (to_second (ct_NotAfter (t (SetBytes serial)))) ->
  match authority with Some (c, key) => exists seed', key = NewKeyFromSeed seed' /\ ct_PublicKey (statement c) = Some (Public key) | None => True end ->
  issue NewKeyFromSeed ed25519_Sign ed25519_Verify tbs_der x509_der ParseCertificate t authority s =
    (let key := NewKeyFromSeed (bytes_string seed) in
     let parent := match authority with Some (c, _) => statement c | None => t (SetBytes serial) end in
     let signer := match authority with Some (_, key) => key | None => key end in
     (Done (signed (t (SetBytes serial)) parent key signer, key), s <| mc_entropy := rest |>)).
Proof.
  intros He Hd Hser Hpub Htimes Hauth. unfold issue, GenerateKey, randomSerial, random_bytes, mbind, IO_bind. rewrite He. cbn [mc_entropy].
  set (key := NewKeyFromSeed (bytes_string seed)). set (parent := match authority with Some (c, _) => statement c | None => t (SetBytes serial) end).
  set (signer := match authority with Some (_, key) => key | None => key end). cbn zeta. cbn -[CreateCertificate prepared].
  fold parent signer.
  assert (Hsigner : exists seed', signer = NewKeyFromSeed seed' /\ (ct_PublicKey parent = None \/ ct_PublicKey parent = Some (Public signer))).
  { unfold signer, parent. destruct authority as [[c k]|]; [destruct Hauth as (seed' & -> & H); exists seed'; auto|exists (bytes_string seed); auto]. }
  destruct Hsigner as (seed' & Hkey & Hparent). pose proof (SetBytes_nonneg _ Hd) as Hn.
  assert (Hc : CreateCertificate ed25519_Sign ed25519_Verify tbs_der x509_der (t (SetBytes serial)) parent (Public key) signer =
    Some (x509_der (prepared (t (SetBytes serial)) parent (Public key)) (ed25519_Sign signer (tbs_der (prepared (t (SetBytes serial)) parent (Public key)))))).
  { unfold CreateCertificate. cbv zeta. change (ct_SerialNumber (prepared ?a _ _)) with (ct_SerialNumber a). rewrite Hser.
    rewrite (proj2 (Z.ltb_ge _ _) Hn). rewrite bool_decide_eq_true_2 by exact Htimes. cbn [orb negb].
    rewrite Hkey, Hsign. destruct Hparent as [->| ->]; [done|]. by rewrite Hkey, String.eqb_refl. }
  rewrite Hc. cbn -[prepared]. rewrite Hparse; [done|]. apply prepared_encodable. by rewrite Hser.
Qed.

Abbreviation verified now c authority usage name := (verified_at ed25519_Verify other_signature further_checks now c authority usage name).
(** An authority the program creates, and a leaf it signs, at [now]. *)
Definition authority_of (cn : string) (now serial : Z) (key : string) : Certificate :=
  signed (authority_template cn now serial) (authority_template cn now serial) key key.
Definition leaf_of (cn : string) (usages : list ExtKeyUsage) (names : list string) (now serial : Z) (key : string) (authority : Certificate) (signer : string) : Certificate :=
  signed (leaf_template cn usages now names serial) (statement authority) key signer.

(** A leaf is trusted through its authority for a year. *)
Lemma leaf_verified cn cn' usage names now serial serial' key seed t name : let ca := authority_of cn now serial (NewKeyFromSeed seed) in
  now <= t <= now + 364 * day -> name = "" \/ existsb (fun n => (to_lower n == name) || (n == "*")) names = true ->
  verified t (leaf_of cn' [usage] names now serial' key ca (NewKeyFromSeed seed)) ca usage name = true.
Proof.
  intros ca Ht Hname. unfold verified_at.
  assert (Hwindow : forall c, valid_at (statement (authority_of cn now serial (NewKeyFromSeed seed))) t = true /\
                              valid_at (statement (leaf_of cn' [usage] names now serial' key c (NewKeyFromSeed seed))) t = true).
  { intros c. unfold valid_at. change (ct_NotBefore (statement (authority_of cn now serial (NewKeyFromSeed seed)))) with (to_second (now - minute)).
    change (ct_NotAfter (statement (authority_of cn now serial (NewKeyFromSeed seed)))) with (to_second (AddDate now 1 0)).
    change (ct_NotBefore (statement (leaf_of cn' [usage] names now serial' key c (NewKeyFromSeed seed)))) with (to_second (now - minute)).
    change (ct_NotAfter (statement (leaf_of cn' [usage] names now serial' key c (NewKeyFromSeed seed)))) with (to_second (AddDate now 0 30)).
    pose proof (AddDate_bounds now 1 0 (or_introl eq_refl)). pose proof (AddDate_bounds now 0 30 (or_intror eq_refl)).
    pose proof (to_second_bounds (now - minute)). pose proof (to_second_bounds (AddDate now 1 0)). pose proof (to_second_bounds (AddDate now 0 30)).
    pose proof (eq_refl : minute = 60000000000). pose proof (eq_refl : second = 1000000000). pose proof (eq_refl : day = 86400000000000).
    split; apply andb_true_iff; split; apply Z.leb_le; lia. }
  destruct (Hwindow ca) as [Hca Hleaf]. fold ca in Hca. rewrite Hca, Hleaf.
  assert (Hhost : (name == "") || host_matches (statement (leaf_of cn' [usage] names now serial' key ca (NewKeyFromSeed seed))) name = true).
  { destruct Hname as [->|H]; [done|]. apply orb_true_iff. by right. }
  rewrite Hhost.
  assert (Hf : further_checks (leaf_of cn' [usage] names now serial' key ca (NewKeyFromSeed seed)) ca = true) by apply Hfurther. rewrite Hf.
  assert (Husage : usage_allowed (statement (leaf_of cn' [usage] names now serial' key ca (NewKeyFromSeed seed))) usage = true).
  { change (existsb (fun u => bool_decide (u = usage) || bool_decide (u = ExtKeyUsageAny)) [usage] = true). cbn. by rewrite bool_decide_eq_true_2. }
  rewrite Husage. assert (Hiss : (ct_Issuer (statement (leaf_of cn' [usage] names now serial' key ca (NewKeyFromSeed seed))) == ct_Subject (statement ca)) = true) by apply String.eqb_refl.
  rewrite Hiss. assert (Hsig : CheckSignatureFrom ed25519_Verify other_signature (leaf_of cn' [usage] names now serial' key ca (NewKeyFromSeed seed)) ca = true) by apply Hsign.
  rewrite Hsig. by destruct (Raw _ == Raw _).
Qed.

(** A set of certificates and keys that the checks accept until [to]. *)
Definition sound_pki (from to : Z) (pki : gmap string string) : Prop :=
  exists serverCA clientCA server client caKey serverKey clientKey,
    pki = pki_files pkcs8 pem_encode sha256_hex serverCA clientCA server client (NewKeyFromSeed caKey) (NewKeyFromSeed serverKey) (NewKeyFromSeed clientKey) /\
    Forall (fun c => ParseCertificate (Raw c) = Some c) [serverCA; clientCA; server; client] /\
    (forall t name, from <= t <= to -> name ∈ serverNames -> verified t server serverCA ExtKeyUsageServerAuth name = true) /\
    (forall t, from <= t <= to -> verified t client clientCA ExtKeyUsageClientAuth "" = true) /\
    ct_PublicKey (statement server) = Some (Public (NewKeyFromSeed serverKey)) /\
    ct_PublicKey (statement client) = Some (Public (NewKeyFromSeed clientKey)) /\
    ct_PublicKey (statement clientCA) = Some (Public (NewKeyFromSeed caKey)).

Lemma generation_sound until s k1 n1 k2 n2 k3 n3 k4 n4 rest : calm until s -> valid_clock (mc_clock s) ->
  mc_entropy s = k1 :: n1 :: k2 :: n2 :: k3 :: n3 :: k4 :: n4 :: rest -> Forall draw [n1; n2; n3; n4] ->
  succeeds until (new_pki NewKeyFromSeed ed25519_Sign ed25519_Verify tbs_der x509_der ParseCertificate pkcs8 pem_encode sha256_hex serverNames) s
    (fun pki s' => sound_pki (mc_clock s) (mc_clock s + 364 * day) pki /\ mc_files s' = mc_files s).
Proof.
  intros Hc Hv He Hd. inversion Hd as [|? ? D1 Hd1]; subst. inversion Hd1 as [|? ? D2 Hd2]; subst. inversion Hd2 as [|? ? D3 Hd3]; subst. inversion Hd3 as [|? ? D4 _]; subst.
  set (key := fun k => NewKeyFromSeed (bytes_string k)). set (now := mc_clock s).
  set (sca := authority_of "local authorization server CA" now (SetBytes n1) (key k1)).
  set (cca := authority_of "local authorization client CA" now (SetBytes n2) (key k2)).
  set (server := leaf_of "authorization" [ExtKeyUsageServerAuth] serverNames now (SetBytes n3) (key k3) sca (key k1)).
  set (client := leaf_of "local test bank" [ExtKeyUsageClientAuth] [] now (SetBytes n4) (key k4) cca (key k2)).
  exists (pki_files pkcs8 pem_encode sha256_hex sca cca server client (key k2) (key k3) (key k4)), (s <| mc_entropy := rest |>).
  split_and!; [|exact Hc|apply Z.le_refl| |done].
  - unfold new_pki, certificateAuthority, leafCertificate.
    unfold mbind at 1, IO_bind at 1. unfold time_Now at 1. fold now. unfold mbind at 1, IO_bind at 1, or_else at 1.
    rewrite (issue_done _ None s k1 n1 (k2 :: n2 :: k3 :: n3 :: k4 :: n4 :: rest)) by first [done|apply clock_times; [done|by left]].
    cbn zeta. fold (key k1). change (signed (authority_template "local authorization server CA" now (SetBytes n1)) (authority_template "local authorization server CA" now (SetBytes n1)) (key k1) (key k1)) with sca.
    unfold mbind at 1, IO_bind at 1, or_else at 1.
    rewrite (issue_done _ None _ k2 n2 (k3 :: n3 :: k4 :: n4 :: rest)) by first [done|apply clock_times; [done|by left]].
    cbn zeta. fold (key k2). change (signed (authority_template "local authorization client CA" now (SetBytes n2)) (authority_template "local authorization client CA" now (SetBytes n2)) (key k2) (key k2)) with cca.
    unfold mbind at 1, IO_bind at 1, or_else at 1. cbn [fst snd].
    rewrite (issue_done _ (Some (sca, key k1)) _ k3 n3 (k4 :: n4 :: rest)) by first [done|apply clock_times; [done|by right]|by exists (bytes_string k1)].
    cbn zeta. fold (key k3). unfold mbind at 1, IO_bind at 1, or_else at 1. cbn [fst snd].
    rewrite (issue_done _ (Some (cca, key k2)) _ k4 n4 rest) by first [done|apply clock_times; [done|by right]|by exists (bytes_string k2)].
    reflexivity.
  - exists sca, cca, server, client, (bytes_string k2), (bytes_string k3), (bytes_string k4). split_and!; try done.
    + repeat constructor; apply Hparse, prepared_encodable; by apply SetBytes_nonneg.
    + intros t name Ht Hname. apply leaf_verified; [done|]. right.
      assert (Hall : Forall (fun name => existsb (fun n => (to_lower n == name) || (n == "*")) serverNames = true) serverNames) by (repeat constructor).
      by eapply Forall_forall in Hall.
    + intros t Ht. apply leaf_verified; [done|by left].
Qed.

Lemma hex_ascii s : forallb lower_hex_char (String.list_ascii_of_string s) = true -> ascii_only s = true.
Proof.
  unfold ascii_only, bytes_of. induction (String.list_ascii_of_string s) as [|c l IH]; [done|]. cbn [forallb fmap list_fmap]. intros [Hc Hl]%andb_true_iff.
  apply andb_true_iff. split; [|by apply IH]. unfold lower_hex_char in Hc. apply N.ltb_lt. apply orb_true_iff in Hc.
  destruct Hc as [[_ Hc]%andb_true_iff|[_ Hc]%andb_true_iff]; apply N.leb_le in Hc; lia.
Qed.
(** The mapping that is written is read as it is meant. *)
Lemma mapping_read client : unmarshal_strings (mapping_text sha256_hex client) = Some {[ sha256_hex (Raw client) := localBankID ]}.
Proof.
  destruct (Hhex (Raw client)) as [_ Hlow]. apply hex_ascii, ascii_utf8 in Hlow. unfold unmarshal_strings, mapping_text, parse_json. rewrite bytes_of_app.
  rewrite object_read; [|cbn [json_utf8 forallb fst snd]; rewrite Hlow; by vm_compute|by apply max_nesting_large].
  cbn [mbind option_bind fst snd text_of List.map]. reflexivity.
Qed.
Lemma mapping_written client : mapping_matches sha256_hex client (mapping_text sha256_hex client) = true.
Proof. unfold mapping_matches. rewrite mapping_read, map_size_singleton, lookup_singleton_eq. done. Qed.
Lemma read_written c : ParseCertificate (Raw c) = Some c -> read_certificate ParseCertificate pem_decode (certificatePEM pem_encode c) = Some c.
Proof. intros H. unfold read_certificate, certificatePEM. by rewrite Hpem by (by left). Qed.
Lemma key_written c seed : ct_PublicKey (statement c) = Some (Public (NewKeyFromSeed seed)) ->
  key_matches ParsePKCS8PrivateKey pem_decode c (privateKeyPEM pkcs8 pem_encode (NewKeyFromSeed seed)) = true.
Proof. intros H. unfold key_matches, privateKeyPEM. rewrite Hpem, Hpkcs8, H by (by right). by apply bool_decide_eq_true_2. Qed.

Abbreviation validation names := (validateWithServerNames ed25519_Verify ParseCertificate other_signature further_checks ParsePKCS8PrivateKey pem_decode sha256_hex names).
Lemma succeeds_load until s name c (Q : Certificate -> machine -> Prop) : calm until s -> ParseCertificate (Raw c) = Some c ->
  contents (mc_files s) name = Some (certificatePEM pem_encode c) -> (forall s', mc_files s' = mc_files s -> calm until s' -> Q c s') ->
  succeeds until (or_else (loadCertificate ParseCertificate pem_decode name) invalid) s Q.
Proof.
  intros Hc Hp Hd HQ. apply succeeds_or_else, succeeds_bind. eapply succeeds_ReadFile; [done..|]. intros s' F E C _.
  rewrite read_written by done. apply succeeds_ret; [done|by apply HQ].
Qed.
Lemma succeeds_key until s name c seed (Q : bool -> machine -> Prop) : calm until s -> ct_PublicKey (statement c) = Some (Public (NewKeyFromSeed seed)) ->
  contents (mc_files s) name = Some (privateKeyPEM pkcs8 pem_encode (NewKeyFromSeed seed)) -> (forall s', mc_files s' = mc_files s -> calm until s' -> Q true s') ->
  succeeds until (matchingKey ParsePKCS8PrivateKey pem_decode c name) s Q.
Proof.
  intros Hc Hp Hd HQ. apply succeeds_bind, succeeds_attempt. eapply succeeds_ReadFile; [done..|]. intros s' F E C _.
  rewrite key_written by done. apply succeeds_ret; [done|by apply HQ].
Qed.
Lemma succeeds_names until s server serverCA names (Q : unit -> machine -> Prop) : calm until s ->
  (forall name, name ∈ names -> verified (mc_clock s) server serverCA ExtKeyUsageServerAuth name = true) -> Q tt s ->
  succeeds until (verify_names ed25519_Verify other_signature further_checks names server serverCA) s Q.
Proof.
  intros Hc Hv HQ. induction names as [|name names IH]; cbn [verify_names]; [by apply succeeds_ret|].
  apply succeeds_bind. exists true, s. split_and!; [|done|lia|].
  - unfold verify, mbind, IO_bind, time_Now. rewrite Hv; [done|]. apply elem_of_cons. by left.
  - intros _ _. apply succeeds_bind, succeeds_demand; [done..|]. intros _ _. apply IH. intros n Hn. apply Hv, elem_of_cons. by right.
Qed.
Definition has_files (pki : gmap string string) (d : directory) : Prop := forall n, n ∈ file_names -> contents d n = pki !! n.
Ltac file_there Hget := by rewrite (Hget _ _ eq_refl) by (by apply list_elem_of_In; vm_compute; auto 12).
Lemma succeeds_validation from until s pki : sound_pki from until pki -> has_files pki (mc_files s) -> from <= mc_clock s -> calm until s ->
  succeeds until (validation serverNames) s (fun _ _ => True).
Proof.
  intros (serverCA & clientCA & server & client & caKey & serverKey & clientKey & -> & Hcs & Hserver & Hclient & K1 & K2 & K3) Hfiles Hfrom Hc.
  inversion Hcs as [|? ? P1 Hcs1]; subst. inversion Hcs1 as [|? ? P2 Hcs2]; subst. inversion Hcs2 as [|? ? P3 Hcs3]; subst. inversion Hcs3 as [|? ? P4 _]; subst.
  assert (Hget : forall d n, mc_files s = d -> n ∈ file_names -> contents d n =
    pki_files pkcs8 pem_encode sha256_hex serverCA clientCA server client (NewKeyFromSeed caKey) (NewKeyFromSeed serverKey) (NewKeyFromSeed clientKey) !! n) by (intros d n <-; apply Hfiles).
  clear Hfiles Hcs Hcs1 Hcs2 Hcs3.
  unfold validateWithServerNames.
  apply succeeds_bind. eapply succeeds_load; [done|exact P1|file_there Hget|]. intros s1 F1 _ C1 T1. rewrite <- F1 in Hget.
  apply succeeds_bind. eapply succeeds_load; [done|exact P2|file_there Hget|]. intros s2 F2 _ C2 T2. rewrite <- F2 in Hget.
  apply succeeds_bind. eapply succeeds_load; [done|exact P3|file_there Hget|]. intros s3 F3 _ C3 T3. rewrite <- F3 in Hget.
  pose proof (calm_clock _ _ C3). apply succeeds_bind, succeeds_names; [done|intros name Hn; apply Hserver; [lia|done]|]. intros _ _.
  apply succeeds_bind, succeeds_demand; [done..|]. intros _ _.
  apply succeeds_bind. eapply succeeds_load; [done|exact P4|file_there Hget|]. intros s4 F4 _ C4 T4. rewrite <- F4 in Hget.
  pose proof (calm_clock _ _ C4). apply succeeds_bind. exists true, s4. split_and!; [|done|lia|].
  { unfold verify, mbind, IO_bind, time_Now. rewrite Hclient; [done|lia]. }
  intros _ _. apply succeeds_bind, succeeds_demand; [done..|]. intros _ _.
  apply succeeds_bind, succeeds_bind. eapply succeeds_key; [done|exact K1|file_there Hget|]. intros s5 F5 _ C5 _. rewrite <- F5 in Hget.
  apply succeeds_bind. eapply succeeds_key; [done|exact K2|file_there Hget|]. intros s6 F6 _ C6 _. rewrite <- F6 in Hget.
  eapply succeeds_key; [done|exact K3|file_there Hget|]. intros s7 F7 _ C7 _. rewrite <- F7 in Hget.
  apply succeeds_bind, succeeds_demand; [done..|]. intros _ _.
  apply succeeds_bind, succeeds_or_else. eapply succeeds_ReadFile; [done|file_there Hget|].
  intros s8 F8 E8 C8 _. apply succeeds_demand; [done|apply mapping_written|done].
Qed.

Abbreviation provisioning := (provision NewKeyFromSeed ed25519_Sign ed25519_Verify tbs_der x509_der ParseCertificate other_signature further_checks
  pkcs8 ParsePKCS8PrivateKey pem_encode pem_decode sha256_hex fresh_name stat_order remove_order write_order).

Lemma filter_const {A} (P : A -> bool) (b : bool) l : (forall a, a ∈ l -> P a = b) -> length (List.filter P l) = if b then length l else O.
Proof.
  intros H. assert (E : forall a, a ∈ l -> P a = b) by exact H. clear H. induction l as [|a l IH]; [by destruct b|]. cbn [List.filter].
  rewrite (E a) by (apply elem_of_cons; by left). assert (Hl : forall x, x ∈ l -> P x = b) by (intros x Hx; apply E, elem_of_cons; by right).
  specialize (IH Hl). destruct b; cbn [length]; by rewrite IH.
Qed.
Lemma succeeds_expected until s (b : bool) (Q : nat -> machine -> Prop) : calm until s ->
  (forall n, n ∈ file_names -> there (mc_files s) n = b /\ mc_files s !! n <> Some Irregular) ->
  (forall s', mc_files s' = mc_files s -> mc_entropy s' = mc_entropy s -> Q (if b then length fileModes else O) s') ->
  succeeds until (expectedFiles stat_order) s Q.
Proof.
  intros Hc Hb HQ. apply succeeds_count; [done|intros n Hn; apply Hb; by rewrite <- Hstat|]. intros s' F E. cbn [Nat.add].
  rewrite (filter_const _ b) by (intros n Hn; apply Hb; by rewrite <- Hstat). rewrite Hstat. by apply HQ.
Qed.
Lemma succeeds_mkdir until s (Q : unit -> machine -> Prop) : calm until s ->
  (forall s', mc_files s' = mc_files s -> mc_entropy s' = mc_entropy s -> Q tt s') -> succeeds until (or_else MkdirAll "cannot create local PKI directory") s Q.
Proof. intros Hc HQ. by apply succeeds_or_else, succeeds_checked. Qed.

(** A directory the tool has completed is kept. *)
Lemma provision_again from until s pki : sound_pki from until pki -> has_files pki (mc_files s) -> (forall n, n ∈ file_names -> is_Some (pki !! n)) ->
  from <= mc_clock s -> calm until s -> exists s', provisioning s = (Done tt, s') /\ mc_files s' = mc_files s.
Proof.
  intros Hs Hf Hall Hfrom Hc.
  assert (Hrun : succeeds until (provisioning) s (fun _ s' => mc_files s' = mc_files s)).
  { unfold provision. apply succeeds_bind, succeeds_mkdir; [done|]. intros s1 F1 _ C1 T1. rewrite <- F1 in Hf |- *.
    apply succeeds_bind, (succeeds_expected _ _ true); [done| |].
    - intros n Hn. specialize (Hf n Hn). destruct (Hall n Hn) as [data Hd]. rewrite Hd in Hf. unfold there, contents in Hf |- *.
      by destruct (mc_files s1 !! n) as [[]|].
    - intros s2 F2 _ C2 T2. rewrite <- F2 in Hf |- *. cbn [Nat.eqb]. change (length fileModes =? length fileModes)%nat with true. cbn match.
      destruct (succeeds_validation from until s2 pki Hs Hf) as ([] & s3 & H3 & C3 & T3 & _); [lia|done|].
      apply succeeds_bind, succeeds_attempt. exists tt, s3. split_and!; [done..|]. intros _ _. apply succeeds_ret; [done|].
      by destruct (reads_validation _ _ _ _ _ _ _ _ _ _ _ H3) as [<- _]. }
  destruct Hrun as ([] & s' & H & _ & _ & F). by exists s'.
Qed.

(** What a completed directory has: an accepted set, in files of their modes. *)
Definition completed (until : Z) (s : machine) : Prop :=
  exists pki, sound_pki (mc_clock s) until pki /\ forall n, n ∈ file_names -> exists data, pki !! n = Some data /\ mc_files s !! n = Some (Regular data (fileMode n)).
Lemma completed_files until s : completed until s -> exists pki, sound_pki (mc_clock s) until pki /\ has_files pki (mc_files s) /\ forall n, n ∈ file_names -> is_Some (pki !! n).
Proof.
  intros (pki & Hs & Hf). exists pki. split_and!; [done| |].
  - intros n Hn. destruct (Hf n Hn) as (data & -> & E). unfold contents. by rewrite E.
  - intros n Hn. destruct (Hf n Hn) as (data & -> & _). by eexists.
Qed.
Lemma sound_within from to from' to' pki : from <= from' -> to' <= to -> sound_pki from to pki -> sound_pki from' to' pki.
Proof.
  intros Hf Ht (a & b & c & e & k1 & k2 & k3 & -> & Hp & Hs & Hc & Hk). exists a, b, c, e, k1, k2, k3. split_and!; [done|done| | |apply Hk..].
  - intros t name Hb Hn. apply Hs; [lia|done].
  - intros t Hb. apply Hc. lia.
Qed.
Abbreviation generating := (generateWithServerNames NewKeyFromSeed ed25519_Sign ed25519_Verify tbs_der x509_der ParseCertificate other_signature further_checks
  pkcs8 ParsePKCS8PrivateKey pem_encode pem_decode sha256_hex fresh_name write_order).
Lemma generation_completes until s k1 n1 k2 n2 k3 n3 k4 n4 rest : absent (mc_files s) ->
  valid_clock (mc_clock s) -> calm until s -> until <= mc_clock s + 364 * day ->
  mc_entropy s = k1 :: n1 :: k2 :: n2 :: k3 :: n3 :: k4 :: n4 :: rest -> Forall draw [n1; n2; n3; n4] ->
  succeeds until (generating serverNames) s (fun _ s' => completed until s').
Proof.
  intros Ha Hv Hc Huntil He Hd. unfold generateWithServerNames.
  destruct (generation_sound until s _ _ _ _ _ _ _ _ _ Hc Hv He Hd) as (pki & s1 & H1 & C1 & T1 & Hs & F1).
  pose proof (new_pki_files _ _ _ _ _ _ _ _ _ _ _ _ _ H1) as Hall.
  apply succeeds_bind. exists pki, s1. split_and!; [done..|]. intros _ _.
  assert (Horder : Forall (fun n => n ∈ file_names /\ is_Some (pki !! n)) write_order).
  { apply Forall_forall. intros n Hn. rewrite Hwrite in Hn. auto. }
  destruct (succeeds_write_files until write_order pki s1 Horder) as ([] & s2 & H2 & C2 & T2 & _); [|done|].
  { intros n Hn. by rewrite F1, Ha. }
  apply succeeds_bind. exists tt, s2. split_and!; [done..|]. intros _ _.
  apply (write_files_outcome fresh_name Hfresh) in H2 as [_ Hdone]; [|done].
  assert (Hf : forall n, n ∈ file_names -> exists data, pki !! n = Some data /\ mc_files s2 !! n = Some (Regular data (fileMode n))).
  { intros n Hn. apply Hdone; [done|by rewrite Hwrite]. }
  assert (Hhas : has_files pki (mc_files s2)). { intros n Hn. destruct (Hf n Hn) as (data & -> & E). unfold contents. by rewrite E. }
  assert (Hs2 : sound_pki (mc_clock s2) until pki) by (eapply sound_within; [| |exact Hs]; lia).
  destruct (succeeds_validation (mc_clock s2) until s2 pki Hs2 Hhas) as ([] & s3 & H3 & C3 & T3 & _); [lia|done|].
  exists tt, s3. split_and!; [done|done|lia|]. destruct (reads_validation _ _ _ _ _ _ _ _ _ _ _ H3) as [F3 _]. exists pki. rewrite <- F3.
  split; [eapply sound_within; [| |exact Hs2]; lia|done].
Qed.

(** The authorization service, told to read its mapping from the directory,
    accepts it, and gives the requests of the client to its bank. *)
Definition mapping_taken (client : Certificate) (d : directory) : Prop := forall getenv ReadFile,
  trim_space (getenv "AUTHORIZATION_CLIENT_CERTIFICATES") = "" -> trim_space (getenv "AUTHORIZATION_CLIENT_CERTIFICATES_FILE") <> "" ->
  ReadFile (trim_space (getenv "AUTHORIZATION_CLIENT_CERTIFICATES_FILE")) = contents d "client-certificates.json" ->
  exists banks, client_banks getenv ReadFile = Some banks /\
    forall r, hq_certificates r = Some [Raw client] -> bankForRequest sha256_hex banks r = Some localBankID.
Lemma lower_hex_char_hex l : forallb lower_hex_char l = true -> forallb hex_char l = true.
Proof. induction l as [|c l IH]; [done|]. cbn [forallb]. intros [Hc Hl]%andb_true_iff. rewrite IH by done. rewrite andb_true_r. unfold lower_hex_char in Hc. unfold hex_char. by rewrite Hc. Qed.
(** A mapping of one fingerprint, read from a file. *)
Lemma one_client_accepted getenv ReadFile text fingerprint : unmarshal_strings text = Some {[ fingerprint := localBankID ]} -> fingerprint_ok fingerprint = true ->
  trim_space (getenv "AUTHORIZATION_CLIENT_CERTIFICATES") = "" -> trim_space (getenv "AUTHORIZATION_CLIENT_CERTIFICATES_FILE") <> "" ->
  ReadFile (trim_space (getenv "AUTHORIZATION_CLIENT_CERTIFICATES_FILE")) = Some text ->
  client_banks getenv ReadFile = Some {[ fingerprint := localBankID ]}.
Proof.
  intros Htext Hok Henv Hpath Hread. unfold client_banks, certificateBanks. revert Htext. generalize unmarshal_strings as read. intros read Htext.
  cbv zeta. rewrite Henv. apply String.eqb_neq in Hpath. rewrite Hpath.
  cbn [andb orb negb String.eqb]. rewrite Hread. cbn [mbind option_bind]. rewrite Htext. cbn [mbind option_bind].
  rewrite bool_decide_eq_false_2 by (by rewrite map_size_singleton). cbn [mbind option_bind].
  rewrite bool_decide_eq_true_2; [done|]. intros f bank [<- <-]%lookup_singleton_Some. by rewrite Hok.
Qed.
Lemma mapping_accepted client getenv ReadFile :
  trim_space (getenv "AUTHORIZATION_CLIENT_CERTIFICATES") = "" -> trim_space (getenv "AUTHORIZATION_CLIENT_CERTIFICATES_FILE") <> "" ->
  ReadFile (trim_space (getenv "AUTHORIZATION_CLIENT_CERTIFICATES_FILE")) = Some (mapping_text sha256_hex client) ->
  exists banks, client_banks getenv ReadFile = Some banks /\
    forall r, hq_certificates r = Some [Raw client] -> bankForRequest sha256_hex banks r = Some localBankID.
Proof.
  intros Henv Hpath Hread. exists {[ sha256_hex (Raw client) := localBankID ]}. destruct (Hhex (Raw client)) as [Hlen Hlow]. split.
  - pose proof (mapping_read client) as Hm. revert Hm Hread. generalize (mapping_text sha256_hex client) as text. intros text Hm Hread.
    apply (one_client_accepted getenv ReadFile text); [done| |done..]. apply andb_true_iff. split; [by apply Nat.eqb_eq|by apply lower_hex_char_hex].
  - intros r Hr. unfold bankForRequest. rewrite Hr. apply lookup_singleton_eq.
Qed.

(** In an empty directory, with no failing call within a year: the tool
    succeeds, every file has its mode, a second run keeps what the first made, and
    the authorization service takes its mapping and knows the client by it. *)
Theorem provision_completes until s k1 n1 k2 n2 k3 n3 k4 n4 rest : absent (mc_files s) ->
  valid_clock (mc_clock s) -> valid_clock until -> calm until s -> until <= mc_clock s + 364 * day ->
  mc_entropy s = k1 :: n1 :: k2 :: n2 :: k3 :: n3 :: k4 :: n4 :: rest -> Forall draw [n1; n2; n3; n4] ->
  exists s1 s2 client, provisioning s = (Done tt, s1) /\ provisioning s1 = (Done tt, s2) /\ mc_files s2 = mc_files s1 /\
    (forall n, n ∈ file_names -> exists data, mc_files s1 !! n = Some (Regular data (fileMode n))) /\
    (contents (mc_files s1) "bank-client.pem" ≫= read_certificate ParseCertificate pem_decode) = Some client /\
    mapping_taken client (mc_files s1).
Proof.
  intros Ha Hv Hvu Hc Huntil He Hd.
  assert (Hrun : succeeds until provisioning s (fun _ s' => completed until s')).
  { unfold provision. apply succeeds_bind, succeeds_mkdir; [done|]. intros s1 F1 E1 C1 T1.
    apply succeeds_bind, (succeeds_expected _ _ false); [done| |].
    { intros n Hn. rewrite F1. unfold there, contents. by rewrite (Ha n Hn). }
    intros s2 F2 E2 C2 T2. cbn [Nat.eqb length fileModes negb]. rewrite F1 in F2. rewrite E1 in E2.
    pose proof (calm_clock _ _ C2). unfold valid_clock in *.
    eapply generation_completes; [by rewrite F2|unfold valid_clock; lia|done|lia|by rewrite E2|done]. }
  destruct Hrun as ([] & s1 & H1 & C1 & T1 & Hcompleted). destruct (completed_files _ _ Hcompleted) as (pki & Hs & Hhas & Hall).
  destruct (provision_again _ _ s1 pki Hs Hhas Hall) as (s2 & H2 & F2); [lia|done|].
  destruct Hcompleted as (pki' & _ & Hmodes).
  pose proof Hs as (sca & cca & server & client & ? & ? & ? & -> & Hps & _). inversion Hps as [|? ? _ Hps1]; subst. inversion Hps1 as [|? ? _ Hps2]; subst.
  inversion Hps2 as [|? ? _ Hps3]; subst. inversion Hps3 as [|? ? Hp _]; subst.
  exists s1, s2, client. split_and!; [done..| | |].
  - intros n Hn. destruct (Hmodes n Hn) as (data & _ & E). by exists data.
  - rewrite (Hhas "bank-client.pem") by (by apply list_elem_of_In; vm_compute; auto 12). change (read_certificate ParseCertificate pem_decode (certificatePEM pem_encode client) = Some client).
    by apply read_written.
  - intros getenv ReadFile Henv Hpath Hread. apply mapping_accepted; [done..|]. by rewrite Hread, (Hhas "client-certificates.json") by (by apply list_elem_of_In; vm_compute; auto 12).
Qed.
End Calm.

(** ** A toy platform *)

(** Keys, signatures and encodings that keep every promise of the section above. *)
Definition pad32 (s : string) : string := String.substring 0 32 (s +:+ "................................").
Definition toy_key (seed : string) : string := pad32 seed +:+ pad32 seed.
Definition toy_sign (key m : string) : string := Public key +:+ "/" +:+ m.
Definition toy_verify (public m signature : string) : bool := signature == public +:+ "/" +:+ m.
Fixpoint bits (p : positive) : string := match p with xH => "." | xO p => String (Ascii.ascii_of_nat 48) (bits p) | xI p => String (Ascii.ascii_of_nat 49) (bits p) end.
Fixpoint unbits (s : string) : positive :=
  match s with
  | String c rest => if Ascii.eqb c (Ascii.ascii_of_nat 48) then xO (unbits rest) else if Ascii.eqb c (Ascii.ascii_of_nat 49) then xI (unbits rest) else xH
  | EmptyString => xH
  end.
Lemma unbits_bits p : unbits (bits p) = p.
Proof. induction p as [p IH|p IH|]; cbn; by rewrite ?IH. Qed.
(** A statement as a list of numbers and texts. *)
Definition flag (b : bool) : Z + string := inl (if b then 1 else 0).
Definition usage_item (u : ExtKeyUsage) : Z + string :=
  match u with ExtKeyUsageAny => inl 0 | ExtKeyUsageServerAuth => inl 1 | ExtKeyUsageClientAuth => inl 2 | OtherUsage oid => inr oid end.
Definition item_usage (x : Z + string) : ExtKeyUsage :=
  match x with inl 0 => ExtKeyUsageAny | inl 1 => ExtKeyUsageServerAuth | inl _ => ExtKeyUsageClientAuth | inr oid => OtherUsage oid end.
Definition item_text (x : Z + string) : string := match x with inr s => s | inl _ => "" end.
Definition template_items (t : template) : list (Z + string) :=
  [inl (ct_Version t); inl (ct_SerialNumber t); inr (ct_Issuer t); inr (ct_Subject t); inl (ct_NotBefore t); inl (ct_NotAfter t);
   match ct_PublicKey t with Some key => inr key | None => inl 0 end; flag (ct_BasicConstraintsValid t); flag (ct_IsCA t); inl (ct_KeyUsage t);
   inl (Z.of_nat (length (ct_DNSNames t)))] ++ List.map inr (ct_DNSNames t) ++ List.map usage_item (ct_ExtKeyUsage t).
Definition items_template (l : list (Z + string)) : option template :=
  match l with
  | inl version :: inl serial :: inr issuer :: inr subject :: inl from :: inl to :: key :: inl valid :: inl ca :: inl usage :: inl n :: rest =>
      Some (Template version serial issuer subject from to (match key with inr key => Some key | inl _ => None end) (valid =? 1) (ca =? 1) usage
              (List.map item_usage (drop (Z.to_nat n) rest)) (List.map item_text (take (Z.to_nat n) rest)))
  | _ => None
  end.
Lemma items_template_read t : items_template (template_items t) = Some t.
Proof.
  destruct t as [v n i s nb na pk bcv ca ku us ds]. unfold template_items, items_template. cbn [ct_Version ct_SerialNumber ct_Issuer ct_Subject ct_NotBefore
    ct_NotAfter ct_PublicKey ct_BasicConstraintsValid ct_IsCA ct_KeyUsage ct_DNSNames ct_ExtKeyUsage app flag].
  rewrite Nat2Z.id, take_app_length', drop_app_length' by (by rewrite length_map). rewrite !List.map_map.
  assert (Hd : List.map (fun x => item_text (inr x)) ds = ds) by apply List.map_id.
  assert (Hu : List.map (fun x => item_usage (usage_item x)) us = us).
  { rewrite <- (List.map_id us) at 2. apply List.map_ext. by intros []. }
  rewrite Hd, Hu. by destruct pk, bcv, ca.
Qed.
Definition toy_tbs (t : template) : string := ct_Subject t.
Definition toy_der (t : template) (signature : string) : string := bits (encode (inr signature :: template_items t)).
Definition toy_parse (der : string) : option Certificate :=
  l ← decode (A := list (Z + string)) (unbits der);
  match l with
  | inr signature :: rest => t ← items_template rest; Some (certificate_of toy_tbs toy_der t signature)
  | _ => None
  end.
Definition toy_pem (kind bytes : string) : string := (if kind == "CERTIFICATE" then "C" else "K") +:+ bytes.
Definition toy_unpem (s : string) : option (string * string) :=
  match s with String c rest => Some (if Ascii.eqb c (Ascii.ascii_of_nat 67) then "CERTIFICATE" else "PRIVATE KEY", rest) | EmptyString => None end.
Definition toy_digest (s : string) : string := String.concat "" (replicate 64 "a").
(** A name longer than every name of the directory. *)
Definition longest (d : directory) : nat := foldr Nat.max 0%nat (List.map (fun p => String.length p.1) (map_to_list d)).
Fixpoint crosses (n : nat) : string := match n with O => EmptyString | S n => String (Ascii.ascii_of_nat 120) (crosses n) end.
Definition toy_fresh (d : directory) : string := ".tmp-" +:+ crosses (longest d).
Abbreviation toy_provision := (provision toy_key toy_sign toy_verify toy_tbs toy_der toy_parse (fun _ _ => false) (fun _ _ => true)
  (fun key => key) Some toy_pem toy_unpem toy_digest toy_fresh file_names file_names file_names).

Lemma length_crosses n : String.length (crosses n) = n.
Proof. induction n as [|n IH]; cbn; by rewrite ?IH. Qed.
Lemma toy_fresh_ok d : d !! toy_fresh d = None /\ temporary_name (toy_fresh d) = true.
Proof.
  split; [|by unfold toy_fresh; cbn; destruct (crosses _)]. destruct (d !! toy_fresh d) as [n|] eqn:E; [|done]. exfalso.
  apply elem_of_map_to_list in E. apply (foldr_max_elem (fun p : string * node => String.length p.1)) in E. change (String.length (toy_fresh d) <= longest d)%nat in E.
  unfold toy_fresh in E. rewrite length_append, length_crosses in E. cbn in E. lia.
Qed.
(** The promises hold of the toy platform. *)
Lemma length_pad32 s : String.length (pad32 s) = 32%nat.
Proof.
  unfold pad32. assert (H : forall n a, (n <= String.length a)%nat -> String.length (String.substring 0 n a) = n).
  { induction n as [|n IH]; intros [|c a] Ha; try done; cbn in Ha |- *; [lia|]. rewrite IH; [done|lia]. }
  apply H. rewrite length_append. cbn. lia.
Qed.
Lemma toy_promises : (forall seed m, toy_verify (Public (toy_key seed)) m (toy_sign (toy_key seed) m) = true) /\
  (forall t signature, toy_parse (toy_der t signature) = Some (certificate_of toy_tbs toy_der t signature)) /\
  (forall kind bytes, kind = "CERTIFICATE" \/ kind = "PRIVATE KEY" -> toy_unpem (toy_pem kind bytes) = Some (kind, bytes)) /\ hex_digest toy_digest.
Proof.
  split_and!.
  - intros. apply String.eqb_refl.
  - intros t signature. unfold toy_parse, toy_der. rewrite unbits_bits, decode_encode. cbn [mbind option_bind]. by rewrite items_template_read.
  - intros kind bytes [->| ->]; done.
  - intros s. by split; vm_compute.
Qed.

(** An empty directory, a day in 2026, and quiet calls. *)
Definition toy_clock : Z := 1790000000 * second.
Definition toy_entropy : list (list Z) := List.map (fun n => replicate 8 n) [1; 2; 3; 4; 5; 6; 7; 8].
Definition toy_machine (d : directory) (calls : list call) : machine := Machine d toy_clock calls toy_entropy.
Definition toy_made : directory := mc_files (toy_provision (toy_machine ∅ [])).2.
Definition message {A} (x : outcome A) : option string := match x with Failed e => Some e | _ => None end.

Lemma toy_completes : exists s1 s2, toy_provision (toy_machine ∅ []) = (Done tt, s1) /\ toy_provision s1 = (Done tt, s2) /\ mc_files s2 = mc_files s1.
Proof.
  destruct toy_promises as (H1 & H2 & H3 & H4).
  assert (Hv : valid_clock toy_clock) by (split; vm_compute; discriminate).
  assert (Hc : calm toy_clock (toy_machine ∅ [])) by (split; [constructor|vm_compute; discriminate]).
  assert (Hu : toy_clock <= mc_clock (toy_machine ∅ []) + 364 * day) by (vm_compute; discriminate).
  assert (Hd : Forall draw (List.map (fun n => replicate 8 n) [2; 4; 6; 8])) by (repeat constructor; discriminate).
  assert (Ha : absent (mc_files (toy_machine ∅ []))) by (intros n _; apply lookup_empty).
  pose proof (provision_completes toy_key toy_sign toy_verify toy_tbs toy_der toy_parse (fun _ _ => false) (fun _ _ => true) (fun key => key) Some
    toy_pem toy_unpem toy_digest toy_fresh toy_fresh_ok file_names file_names file_names (reflexivity _) (reflexivity _)
    H1 (fun t s _ => H2 t s) (fun _ _ _ _ => eq_refl) (fun _ => eq_refl) H3 H4 toy_clock (toy_machine ∅ [])
    (replicate 8 1) (replicate 8 2) (replicate 8 3) (replicate 8 4) (replicate 8 5) (replicate 8 6) (replicate 8 7) (replicate 8 8) [] Ha Hv Hv Hc Hu eq_refl Hd) as H.
  destruct H as (s1 & s2 & _ & Hs1 & Hs2 & F & _). exists s1, s2. exact (conj Hs1 (conj Hs2 F)).
Qed.

(** The fourth rename ends the process: some of the files are there, and no run goes on from them. *)
Definition ending_at (n : nat) : list call := replicate n quiet_call ++ [Call 0 false false true].
Definition outcome_of (s : machine) : option string * nat := let '(x, s') := toy_provision s in (message x, length (List.filter (there (mc_files s')) file_names)).
Example interrupted_provisioning :
  let s := (toy_provision (toy_machine ∅ (ending_at 31))).2 in
  length (List.filter (there (mc_files s)) file_names) = 3%nat /\
  outcome_of (toy_machine (mc_files s) []) = (Some "local PKI directory is partial", 3%nat).
Proof. vm_compute. split; reflexivity. Qed.
(** After a year the authorities have expired, their leaves have not, and the set is refused. *)
Example expired_refused :
  outcome_of ((toy_machine toy_made []) <| mc_clock := toy_clock + 370 * day |>) = (Some "local PKI directory is invalid", 8%nat).
Proof. vm_compute. reflexivity. Qed.
(** One failed read of an accepted set, and it is replaced. *)
Definition failing_read : list call := replicate 9 quiet_call ++ [Call 0 true false false].
Definition renews (s : machine) : bool :=
  let '(x, s') := toy_provision s in
  match x with Done _ => negb (bool_decide (contents (mc_files s') "server-ca.pem" = contents (mc_files s) "server-ca.pem")) | _ => false end.
Definition toy_accepted (calls : list call) : machine :=
  Machine toy_made (toy_clock + 1) calls (List.map (fun n => replicate 8 n) [11; 12; 13; 14; 15; 16; 17; 18]).
Example failed_read_renews : renews (toy_accepted failing_read) = true /\ renews (toy_accepted []) = false.
Proof. split; vm_compute; reflexivity. Qed.

Lemma provision_safe_witness : exists s1, toy_provision (toy_machine ∅ (ending_at 31)) = (Killed, s1) /\
  provision_post toy_key toy_sign toy_verify toy_tbs toy_der toy_parse (fun _ _ => false) (fun _ _ => true) (fun key => key) Some toy_pem toy_unpem toy_digest
    ∅ toy_clock Killed s1.
Proof.
  assert (Hx : (toy_provision (toy_machine ∅ (ending_at 31))).1 = Killed) by (vm_compute; reflexivity).
  destruct (toy_provision (toy_machine ∅ (ending_at 31))) as [x s1] eqn:E. cbn [fst] in Hx. subst x. exists s1. split; [reflexivity|].
  exact (provision_safe toy_key toy_sign toy_verify toy_tbs toy_der toy_parse (fun _ _ => false) (fun _ _ => true) (fun key => key) Some toy_pem toy_unpem toy_digest
    toy_fresh toy_fresh_ok file_names file_names file_names (reflexivity _) (reflexivity _) (reflexivity _) _ _ _ E).
Defined.
