(* ===== verification/ServerOrder.v ===== *)
(** * ServerOrder: a relation every service respects, every request respects

    [ServiceRel R]: each method of the interfaces of the handlers respects [R].
    Then a request served by the process does ([frames_serve]).  The services of
    this development respect [control_le], so the directory, the sessions and
    the refresh tokens only move along it, whatever is requested. *)

From S2P Require Import Prelude Text Json Http Domain Stores Uuid Vault World ShardTx Guards Idempotency AuthTypes Password ControlStore ControlOrder AuthStore AuthService AuthSafety CardService CardSafety BatchService CatalogService BankService StaffService BankSafety AccessToken Requests Pagination ResourceHandlers ApiOrder ApiSafety Api LoginAdmission Cookies AuthHandlers Server.
Open Scope string_scope.
Open Scope list_scope.
Open Scope Z_scope.

Class ServiceRel (R : relation world)
    `{BankService, BankAccess, CatalogService, CardService, BatchService, StaffService, Authentication, SessionService} := {
  sr_rel :: WorldRel R;
  sr_validate token : frames R (svc_ValidateAccess token);
  sr_CanReadBank p b : frames R (svc_CanReadBank p b);
  sr_ListBanks : frames R svc_ListBanks;
  sr_GetBank i : frames R (svc_GetBank i);
  sr_ProvisionBank p k body ref n q : frames R (svc_ProvisionBankWorkflow p k body ref n q);
  sr_PatchBank p i k body n s q : frames R (svc_PatchBankWorkflow p i k body n s q);
  sr_ListReference b k : frames R (svc_ListReference b k);
  sr_GetReference b k i : frames R (svc_GetReference b k i);
  sr_CreateCardProduct p b k body c n s cfg q : frames R (svc_CreateCardProductWorkflow p b k body c n s cfg q);
  sr_CreateClient p b k body e d q : frames R (svc_CreateClientWorkflow p b k body e d q);
  sr_CreateAccount p b k body c e q : frames R (svc_CreateAccountReferenceWorkflow p b k body c e q);
  sr_PatchCardProduct p b i k body n s cfg q : frames R (svc_PatchCardProductWorkflow p b i k body n s cfg q);
  sr_PatchClient p b i k body d q : frames R (svc_PatchClientWorkflow p b i k body d q);
  sr_PatchAccount p b i k body c q : frames R (svc_PatchAccountReferenceWorkflow p b i k body c q);
  sr_ListCards b c a p s : frames R (svc_ListCards b c a p s);
  sr_GetCard b i : frames R (svc_GetCard b i);
  sr_ListCardOperations b i : frames R (svc_ListCardOperations b i);
  sr_ListCardStatusHistory b i : frames R (svc_ListCardStatusHistory b i);
  sr_IssueCard p b k body c a pr r q : frames R (svc_IssueCardWorkflow p b k body c a pr r q);
  sr_CardCommand p b i a k body r q : frames R (svc_CardCommandWorkflow p b i a k body r q);
  sr_RetryExpiry p b ru i k body r q : frames R (svc_RetryExpiryWorkflow p b ru i k body r q);
  sr_ListBatches b : frames R (svc_ListCardStatusBatches b);
  sr_GetBatch b i : frames R (svc_GetCardStatusBatch b i);
  sr_ListBatchItems b i : frames R (svc_ListCardStatusBatchItems b i);
  sr_CreateBatch p b k body t r ids q : frames R (svc_CreateCardStatusBatchWorkflow p b k body t r ids q);
  sr_ExecuteBatch p b i k body q : frames R (svc_ExecuteCardStatusBatchWorkflow p b i k body q);
  sr_CancelBatch p b i k body q : frames R (svc_CancelCardStatusBatchWorkflow p b i k body q);
  sr_RetryBatch p b i k body q : frames R (svc_RetryCardStatusBatchWorkflow p b i k body q);
  sr_ListUsers : frames R svc_ListUsers;
  sr_GetUser i : frames R (svc_GetUser i);
  sr_CreateUser p k body u pw ro e q : frames R (svc_CreateUserWorkflow p k body u pw ro e q);
  sr_UpdateUser p i k body ro e s q : frames R (svc_UpdateUserWorkflow p i k body ro e s q);
  sr_SetUserPassword p i k body pw q : frames R (svc_SetUserPasswordWorkflow p i k body pw q);
  sr_Login u p q : frames R (svc_Login u p q);
  sr_Refresh t q : frames R (svc_Refresh t q);
  sr_Logout t q : frames R (svc_Logout t q);
  sr_ChangePassword c p n q : frames R (svc_ChangePassword c p n q)
}.
(** Applies the law of a service. *)
Ltac service_law := first
  [apply sr_validate | apply sr_CanReadBank | apply sr_ListBanks | apply sr_GetBank | apply sr_ProvisionBank | apply
  sr_PatchBank | apply sr_ListReference | apply sr_GetReference | apply sr_CreateCardProduct | apply sr_CreateClient |
  apply sr_CreateAccount | apply sr_PatchCardProduct | apply sr_PatchClient | apply sr_PatchAccount | apply
  sr_ListCards | apply sr_GetCard | apply sr_ListCardOperations | apply sr_ListCardStatusHistory | apply sr_IssueCard
  | apply sr_CardCommand | apply sr_RetryExpiry | apply sr_ListBatches | apply sr_GetBatch | apply sr_ListBatchItems |
  apply sr_CreateBatch | apply sr_ExecuteBatch | apply sr_CancelBatch | apply sr_RetryBatch | apply sr_ListUsers |
  apply sr_GetUser | apply sr_CreateUser | apply sr_UpdateUser | apply sr_SetUserPassword | apply sr_Login | apply
  sr_Refresh | apply sr_Logout | apply sr_ChangePassword].

(** ** The handlers *)

Section Handlers.
Context (hmac : string -> string -> string) (cursorKey : string) (number : string -> json).
Context (R : relation world)
  `{BankService, BankAccess, CatalogService, CardService, BatchService, StaffService, Authentication, SessionService, !ServiceRel R}.

Lemma frames_answer {A} r (m : M A) ok : frames R m -> frames R (answer r m ok).
Proof. intros Hm. unfold answer. frame_with ltac:(try solve [auto with frames | exact Hm]). Qed.
Lemma frames_found {A} r (m : M A) ok : frames R m -> frames R (answer_found r m ok).
Proof. intros Hm. unfold answer_found. frame_with ltac:(try solve [auto with frames | exact Hm]). Qed.
Lemma frames_with_key r k : (forall key, frames R (k key)) -> frames R (with_key r k).
Proof. intros Hk. unfold with_key. case_match; [auto with frames|apply Hk]. Qed.
Lemma frames_with_reason r k : (forall key reason, frames R (k key reason)) -> frames R (with_reason r k).
Proof. intros Hk. unfold with_reason. repeat case_match; try solve [auto with frames]. apply frames_with_key. intros key. apply Hk. Qed.

Ltac handler := frame_with ltac:(idtac; lazymatch goal with
  | |- frames _ (answer _ _ _) => apply frames_answer; solve [service_law]
  | |- frames _ (answer_found _ _ _) => apply frames_found; solve [service_law]
  | |- frames _ (with_key _ _) => apply frames_with_key; handler
  | |- frames _ (with_reason _ _) => apply frames_with_reason; handler
  | |- _ => first [service_law | solve [auto with frames]]
  end).

Lemma frames_banks r claims : frames R (banks hmac cursorKey r claims).
Proof. unfold banks, banks_create, collection_of. handler. Qed.
Lemma frames_users r claims : frames R (users hmac cursorKey r claims).
Proof. unfold users, users_create, collection_of. handler. Qed.
Lemma frames_user r claims tail : frames R (user r claims tail).
Proof. unfold user, user_change, user_disable, user_set_password. handler. Qed.
Lemma frames_bank r claims id : frames R (bank r claims id).
Proof. unfold bank, bank_change. handler. Qed.
Lemma frames_may_read claims b : frames R (may_read claims b).
Proof. unfold may_read. handler. Qed.
Hint Resolve frames_banks frames_users frames_user frames_bank frames_may_read : frames.
Lemma frames_reads r claims b tail : frames R (cardReads hmac cursorKey r claims b tail).
Proof. unfold cardReads, card_list, collection_of. handler. Qed.
Lemma frames_writes r claims b tail : frames R (cardWrites r claims b tail).
Proof. unfold cardWrites, card_issue, card_command. handler. Qed.
Lemma frames_retry r claims b tail : frames R (expiryRetry r claims b tail).
Proof. unfold expiryRetry. handler. Qed.
Lemma frames_create r claims b kind : frames R (referenceCreate number r claims b kind).
Proof. unfold referenceCreate, product_create, client_create, account_create. handler. Qed.
Lemma frames_patch r claims b kind id : frames R (referencePatch number r claims b kind id).
Proof. unfold referencePatch, product_patch, client_patch, account_patch. handler. Qed.
Lemma frames_batch_create r claims b : frames R (createCardStatusBatch r claims b).
Proof. unfold createCardStatusBatch. handler. Qed.
Lemma frames_batch_command r claims b id action : frames R (cardStatusBatchCommand r claims b id action).
Proof. unfold cardStatusBatchCommand. handler. Qed.
Hint Resolve frames_reads frames_writes frames_retry frames_create frames_patch frames_batch_create frames_batch_command : frames.
Lemma frames_batches r claims b tail : frames R (cardStatusBatches hmac cursorKey r claims b tail).
Proof. unfold cardStatusBatches, collection_of. handler. Qed.
Lemma frames_references r claims b kind tail : frames R (referenceResource hmac cursorKey number r claims b kind tail).
Proof. unfold referenceResource, collection_of. handler. Qed.
Hint Resolve frames_batches frames_references : frames.
Lemma frames_bankResource r claims tail : frames R (bankResource hmac cursorKey number r claims tail).
Proof. unfold bankResource. handler. Qed.
Hint Resolve frames_bankResource : frames.
Lemma frames_route r claims : frames R (route hmac cursorKey number r claims).
Proof. unfold route. handler. Qed.
Hint Resolve frames_route : frames.
Lemma frames_ServeHTTP r : frames R (ServeHTTP hmac cursorKey number r).
Proof. unfold ServeHTTP, authenticate. handler. Qed.

Lemma frames_issued response token expires : frames R (issued response token expires).
Proof. unfold issued, setRefreshCookie. handler. Qed.
Lemma frames_requireMethod r method k : frames R k -> frames R (requireMethod r method k).
Proof. intros Hk. unfold requireMethod. case_match; [done|auto with frames]. Qed.
Lemma frames_authenticate r : frames R (auth_authenticate r).
Proof. unfold auth_authenticate. handler. Qed.
Hint Resolve frames_ServeHTTP frames_issued frames_authenticate : frames.
Lemma frames_refresh r : frames R (refresh r).
Proof. apply frames_requireMethod. handler. Qed.
Lemma frames_logout r : frames R (logout r).
Proof. apply frames_requireMethod. handler. Qed.
Lemma frames_me r : frames R (me r).
Proof. apply frames_requireMethod. handler. Qed.
Lemma frames_password r : frames R (password r).
Proof. apply frames_requireMethod. unfold password_changed. handler. Qed.
Lemma frames_login ip limit attempts remote r : frames R (login ip limit attempts remote r).
Proof.
  unfold login, login_admitted. destruct (rq_method r != "POST"); [unfold requireMethod|]; handler.
Qed.
Hint Resolve frames_refresh frames_logout frames_me frames_password frames_login : frames.
Lemma frames_serve ip limit swagger redirect probes attempts i :
  frames R (serve hmac cursorKey number ip limit swagger redirect probes attempts i).
Proof. unfold serve, request_id, mux, dispatch. handler. Qed.
End Handlers.
