(* ===== verification/Process.v ===== *)
(** * Process: the API process over its services

    [cmd/api/main.go]: the handler of [Server] over the services, and what a
    sequence of requests does to the sessions. *)

From S2P Require Import Prelude Text Base64 Json JsonText Http Domain Stores Uuid Vault World ShardTx Guards Idempotency AuthTypes Password ControlStore ControlOrder AuthStore AuthService AuthSafety CardService CardSafety BatchService CatalogStore CatalogService BankService StaffService BankSafety AccessToken Requests Pagination ResourceHandlers ApiOrder ApiSafety Api LoginAdmission Cookies AuthHandlers Server ServerOrder Scenario.
Open Scope string_scope.
Open Scope list_scope.
Open Scope Z_scope.

(** What the front of the process rests on besides [platform]. *)
Record frontend := Frontend {
  fe_sha256 : string -> string;
  fe_Sign : string -> string -> string;
  fe_canonical_ip : string -> option string;
  fe_swagger : Request -> Reply;
  fe_redirect : Request -> string -> Reply;
  fe_limit : Z
}.

Section Process.
Context (pf : platform) (cf : configuration) (fe : frontend) `{V : CredentialVault}.

#[local] Instance process_authentication : Authentication := api_authentication pf cf.
#[local] Instance process_bank : ResourceHandlers.BankService := api_bank pf cf.
#[local] Instance process_access : BankAccess := api_access cf.
#[local] Instance process_catalog : ResourceHandlers.CatalogService := api_catalog pf cf.
#[local] Instance process_card : ResourceHandlers.CardService := api_card pf cf.
#[local] Instance process_batch : ResourceHandlers.BatchService := api_batch pf cf.
#[local] Instance process_staff : ResourceHandlers.StaffService := api_staff pf cf.
#[local] Instance api_sessions : SessionService := {
  svc_Login := Login (fe_sha256 fe) (fe_Sign fe) (pf_IDKey pf) (cf_signer cf);
  svc_Refresh := Refresh (fe_sha256 fe) (fe_Sign fe) (cf_signer cf);
  svc_Logout := Logout (fe_sha256 fe);
  svc_ChangePassword := ChangePassword (pf_IsUpper pf) (pf_IsNumber pf) (pf_IsPunct pf) (pf_IsSymbol pf) (pf_IDKey pf)
}.

(** [HandlerWithLoginAttemptLimit] over the services, as [main] calls it. *)
Definition process (probes : list probe_event * bool) (attempts : attempts_map) (i : incoming) : M (Reply * attempts_map) :=
  serve (pf_hmac pf) (cf_cursorKey cf) (pf_number pf) (fe_canonical_ip fe) (admission_limit (fe_limit fe)) (fe_swagger fe)
    (fe_redirect fe) probes attempts i.

(** ** The sessions only move along their order *)

Abbreviation LE := (control_moves control_le).
#[local] Instance le_call : CallRel LE.
Proof.
  split; [split; [apply _|intros; apply cmoves_exec, _]|apply cmoves_commit, _|].
  intros w w' (_ & _ & _ & Hc & Htx & _) H. by rewrite Hc, Htx.
Qed.
#[local] Instance le_read : ReadRel LE.
Proof. split; [apply _|intros; apply cmoves_exec, _|apply cmoves_commit, _|intros; apply cmoves_control_read, _]. Qed.

Ltac le := frame_with ltac:(try solve [auto 6 with frames | control_leaf]).
Lemma le_control_transaction : frames LE control_transaction.
Proof. unfold control_transaction. le. Qed.
Lemma le_central_claim c : frames LE (CentralClaimIdempotency c).
Proof. unfold CentralClaimIdempotency. le. Qed.
Lemma le_central_finish s k st j r : frames LE (CentralFinishIdempotency s k st j r).
Proof. unfold CentralFinishIdempotency. le. Qed.
Hint Resolve le_control_transaction le_central_claim le_central_finish : frames.
Lemma le_bank_claim h f s k b : frames LE (bank_centralIdempotency h f s k b).
Proof. unfold bank_centralIdempotency. le. Qed.
Lemma le_staff_claim h f s k b : frames LE (staff_centralIdempotency h f s k b).
Proof. unfold staff_centralIdempotency. le. Qed.
Lemma le_bank_entity b : frames LE (bank_entity b).
Proof. apply reads_bank_entity, _. Qed.
Lemma le_route e s : frames LE (CreateBankRoute e s).
Proof. unfold CreateBankRoute. le. Qed.
Lemma le_status e p s : frames LE (SetBankRouteStatus e p s).
Proof. unfold SetBankRouteStatus. le. Qed.
Lemma le_placement e s : frames LE (SetBankRouteStatusForEntity e s).
Proof. unfold SetBankRouteStatusForEntity. le. Qed.
Hint Resolve le_bank_claim le_staff_claim le_bank_entity le_route le_status le_placement : frames.
Lemma le_provision_entity p i r n q : frames LE (provision_entity p i r n q).
Proof. unfold provision_entity, ProvisionEntity. le. Qed.
Hint Resolve le_provision_entity : frames.
Lemma le_ProvisionBank h f s p k b r n q : frames LE (ProvisionBankWorkflow h f s p k b r n q).
Proof. unfold ProvisionBankWorkflow, reserve_bank, activate_bank, draw_bank_uuid. le. Qed.
Lemma le_PatchBank h f s p i k b n st q : frames LE (PatchBankWorkflow h f s p i k b n st q).
Proof.
  unfold PatchBankWorkflow, patch_entity, finish_patch, UpdateEntity, ActiveOrProvisioning, holds, HasActiveOrProvisioningRoute. le.
Qed.

Lemma le_change_user i set : frames LE (change_user i set).
Proof. unfold change_user, userByID. le. Qed.
Lemma le_audit e : frames LE (RecordAuthenticationAudit e).
Proof. unfold RecordAuthenticationAudit. le. Qed.
Hint Resolve le_change_user le_audit : frames.
Lemma le_conclude s k st u ev su e a q : frames LE (conclude s k st u ev su e a q).
Proof. unfold conclude. le. Qed.
Lemma le_assignment sh e : frames LE (require_assignment sh e).
Proof. unfold require_assignment, Active, holds, HasActiveRoute. le. Qed.
Hint Resolve le_conclude le_assignment : frames.
Lemma le_CreateUser h f sh p k b u pw r e q : frames LE (CreateUserWorkflow (pf_IDKey pf) h f sh p k b u pw r e q).
Proof. unfold CreateUserWorkflow, HashPassword, CreateUser, userByID. le. Qed.
Lemma le_UpdateUser h f sh p i k b r e s q : frames LE (UpdateUserWorkflow h f sh p i k b r e s q).
Proof. unfold UpdateUserWorkflow, UpdateUserRole, UpdateUserStatus. le. Qed.
Lemma le_SetUserPassword h f p i k b pw q : frames LE (SetUserPasswordWorkflow (pf_IDKey pf) h f p i k b pw q).
Proof. unfold SetUserPasswordWorkflow, HashPassword, UpdateUserPassword. le. Qed.

Context `{!VaultLaws V}.
#[local] Instance le_services : ServiceRel LE.
Proof.
  split; [apply _|..]; intros; cbv [svc_CanReadBank svc_CancelCardStatusBatchWorkflow svc_CardCommandWorkflow
    svc_CreateAccountReferenceWorkflow svc_CreateCardProductWorkflow svc_CreateCardStatusBatchWorkflow
    svc_CreateClientWorkflow svc_CreateUserWorkflow svc_ExecuteCardStatusBatchWorkflow svc_GetBank svc_GetCard
    svc_GetCardStatusBatch svc_GetReference svc_GetUser svc_IssueCardWorkflow svc_ListBanks svc_ListCardOperations
    svc_ListCardStatusBatchItems svc_ListCardStatusBatches svc_ListCardStatusHistory svc_ListCards
    svc_ListReference svc_ListUsers svc_PatchAccountReferenceWorkflow svc_PatchBankWorkflow
    svc_PatchCardProductWorkflow svc_PatchClientWorkflow svc_ProvisionBankWorkflow svc_RetryCardStatusBatchWorkflow
    svc_RetryExpiryWorkflow svc_SetUserPasswordWorkflow svc_UpdateUserWorkflow svc_ValidateAccess
    svc_Login svc_Refresh svc_Logout svc_ChangePassword
    svc_ValidateNewPassword api_authentication api_bank api_access api_catalog api_card api_batch api_staff api_sessions
    process_authentication process_bank process_access process_catalog process_card process_batch process_staff].
  - unfold ValidateAccess. le.
  - unfold CanReadBank, CanRead, Active, holds, HasActiveRoute. le.
  - apply reads_ListBanks, _.
  - apply reads_GetBank, _.
  - apply le_ProvisionBank.
  - apply le_PatchBank.
  - apply reads_ListReference, _.
  - apply reads_GetReference, _.
  - apply calls_CreateCardProduct, _.
  - apply calls_CreateClient, _.
  - apply calls_CreateAccount, _.
  - apply calls_PatchProduct, _.
  - apply calls_PatchClient, _.
  - apply calls_PatchAccount, _.
  - apply reads_ListCards, _.
  - apply reads_GetCard, _.
  - apply reads_ListCardOperations, _.
  - apply reads_ListCardStatusHistory, _.
  - by apply (calls_IssueCard _).
  - by apply (calls_CardCommand _).
  - by apply (calls_RetryExpiry _).
  - apply reads_ListBatches, _.
  - apply reads_GetBatch, _.
  - apply reads_ListBatchItems, _.
  - apply calls_CreateBatch, _.
  - unfold ExecuteCardStatusBatchWorkflow. apply calls_change, _.
  - unfold CancelCardStatusBatchWorkflow. apply calls_change, _.
  - apply calls_RetryBatch, _.
  - apply reads_ListUsers, _.
  - apply reads_GetUser, _.
  - apply le_CreateUser.
  - apply le_UpdateUser.
  - apply le_SetUserPassword.
  - apply le_Login.
  - apply le_Refresh.
  - apply le_Logout.
  - apply le_ChangePassword.
Qed.

Lemma le_process probes attempts i : frames LE (process probes attempts i).
Proof. apply frames_serve, _. Qed.

(** ** Sequences of requests *)

(** A request to any process, or anything that happens without touching the
    control database. *)
Inductive process_step : relation world :=
  | step_request probes attempts i w : process_step w (process probes attempts i w).2
  | step_otherwise w w' : w_control w' = w_control w -> w_control_tx w' = w_control_tx w -> process_step w w'.

Lemma process_steps_le w w' : rtc process_step w w' -> LE w w'.
Proof.
  induction 1 as [|a b c H _ IH]; [reflexivity|]. etrans; [|exact IH].
  destruct H as [probes attempts i w|w w0 Hc Ht]; [|intros H; rewrite Hc, Ht; by split].
  destruct (process probes attempts i w) as [r w1] eqn:E. exact (le_process _ _ _ _ _ _ E).
Qed.

(** The refresh cookie of a request. *)
Definition sent_token (i : incoming) : option string := Cookie (with_id i "") RefreshCookieName.

Lemma same_request_id i : frames same_control (request_id i).
Proof. unfold request_id. frame_with ltac:(auto with frames). Qed.

Lemma issued_inr response token expires w reply w' : issued response token expires w = (inr reply, w') -> w' = w.
Proof. unfold issued, setRefreshCookie, time_now. by intros [= _ <-]. Qed.

(** What a request to the path of the refresh does. *)
Lemma refresh_served probes attempts i w reply attempts' w' : find_handler i = inr RefreshPath ->
  process probes attempts i w = (inr (reply, attempts'), w') ->
  exists id w0 reply0, same_control w w0 /\ reply = with_header ("X-Request-ID", id) reply0 /\ refresh (with_id i id) w0 = (inr reply0, w').
Proof.
  intros Hh. unfold process, serve. intros (id & w0 & Hid & H)%bind_inr. apply same_request_id in Hid.
  apply bind_inr in H as ([reply1 attempts1] & w1 & H & [[= <- <-] <-]%ret_inr).
  unfold mux in H. rewrite Hh in H. unfold dispatch in H. apply bind_inr in H as (reply2 & w2 & H & [[= <- <-] <-]%ret_inr).
  exists id, w0, reply2. auto.
Qed.
(** A refresh answered 200 exchanged the token of the cookie. *)
Lemma refresh_answered r w reply w' : refresh r w = (inr reply, w') -> rs_status (rp_response reply) = 200 ->
  exists token x, Cookie r RefreshCookieName = Some token /\ svc_Refresh token (rq_request_id r) w = (inr x, w').
Proof.
  unfold refresh, requireMethod. destruct (rq_method r == "POST"); [|by intros [= <- <-]].
  destruct (Cookie r RefreshCookieName) as [[|c token]|] eqn:Hc; [by intros [= <- <-]| |by intros [= <- <-]].
  intros ([err|[[response new] expires]] & w1 & Hr & H)%bind_inr Hst; rewrite try_inr in Hr.
  - apply ret_inr in H as [<- _]. by destruct (errors_is err ErrInvalidRefresh).
  - apply issued_inr in H as ->. eauto.
Qed.

(** C5: over HTTP a refresh token is exchanged at most once: after a request
    with its cookie is answered 200, whatever requests any number of processes
    serve and whatever faults occur, no request with the cookie is answered 200
    again. *)
Theorem refresh_cookie_single_use probes attempts i token w reply attempts' w1 w2 probes2 attempts2 i2 reply2 attempts2' w3 :
  w_control_tx w = None -> unique_hashes (tokens (w_control w)) ->
  find_handler i = inr RefreshPath -> sent_token i = Some token ->
  process probes attempts i w = (inr (reply, attempts'), w1) -> rs_status (rp_response reply) = 200 ->
  rtc process_step w1 w2 ->
  find_handler i2 = inr RefreshPath -> sent_token i2 = Some token ->
  process probes2 attempts2 i2 w2 = (inr (reply2, attempts2'), w3) -> rs_status (rp_response reply2) <> 200.
Proof.
  intros Htx Hu Hh Hp Hrun Hst Hsteps Hh2 Hp2 Hrun2 Hst2.
  destruct (refresh_served _ _ _ _ _ _ _ Hh Hrun) as (id & w0 & reply0 & (Hc0 & Ht0 & _) & -> & H1).
  destruct (refresh_served _ _ _ _ _ _ _ Hh2 Hrun2) as (id2 & w20 & reply20 & (Hc20 & Ht20 & _) & -> & H2).
  destruct (refresh_answered _ _ _ _ H1 Hst) as (t1 & x1 & Hk1 & R1). destruct (refresh_answered _ _ _ _ H2 Hst2) as (t2 & x2 & Hk2 & R2).
  assert (t1 = token) as -> by (unfold sent_token, Cookie, header in *; cbn in *; congruence).
  assert (t2 = token) as -> by (unfold sent_token, Cookie, header in *; cbn in *; congruence).
  destruct (exchanged_once (fe_sha256 fe) (fe_Sign fe) (cf_signer cf) token (rq_request_id (with_id i id)) w0 x1 w1 w20 (cf_signer cf)
    (rq_request_id (with_id i2 id2)) (inr x2) w3) as [e [=]]; [congruence|by rewrite Hc0|exact R1| |exact R2].
  intros Hlost. pose proof (process_steps_le _ _ Hsteps Hlost) as [L Htx2]. rewrite Hc20. split; [done|]. by rewrite Ht20.
Qed.
End Process.

(** ** Witnesses *)

Definition toy_frontend : frontend := Frontend toy_sha toy_ed_sign toy_ip (fun _ => unwritten) (fun _ _ => unwritten) 5.
Abbreviation toy_process := (process (V := Api.toy_vault) toy_platform toy_configuration toy_frontend ([], false) ∅).
(** Alice logs in, and presents the cookie she was given, twice. *)
Definition auth_request (path : string) (headers : list (string * string)) (body : string) : incoming :=
  Incoming "POST" path path ∅ (list_to_map ([("X-Request-ID", alice_id); ("Content-Type", "application/json")] ++ headers)) body
    "10.0.0.1:443".
Definition login_request : incoming := auth_request "/v1/auth/login" []
  ("{" +:+ quoted "username" +:+ ":" +:+ quoted " Alice " +:+ "," +:+ quoted "password" +:+ ":" +:+ quoted "Secret" +:+ "}").
Definition refresh_request : incoming :=
  auth_request "/v1/auth/refresh" [("Cookie", "theme=dark; " +:+ RefreshCookieName +:+ "=" +:+ toy_raw)] "".
Abbreviation http_login := (toy_process login_request (auth_world [1; 20; 40; 60; 80; 100; 120; 140; 160])).
Abbreviation http_refresh := (toy_process refresh_request http_login.2).
Abbreviation http_replay := (toy_process refresh_request http_refresh.2).
Definition status_of (x : result (Reply * attempts_map)) : option Z :=
  match x with inr (reply, _) => Some (rs_status (rp_response reply)) | inl _ => None end.

Example http_statuses : List.map status_of [http_login.1; http_refresh.1; http_replay.1] = [Some 200; Some 200; Some 401].
Proof. by vm_compute. Qed.

Lemma served_run (run : result (Reply * attempts_map) * world) st : status_of run.1 = Some st ->
  exists reply attempts, run = (inr (reply, attempts), run.2) /\ rs_status (rp_response reply) = st.
Proof. destruct run as [[e|[reply attempts]] w]; [done|]. cbn. intros [= <-]. eauto. Qed.

Lemma refresh_cookie_single_use_witness : exists reply attempts,
  http_replay = (inr (reply, attempts), http_replay.2) /\ rs_status (rp_response reply) <> 200.
Proof.
  destruct (served_run http_refresh 200) as (reply & attempts & Hrun & Hst); [by vm_compute|].
  destruct (served_run http_replay 401) as (reply2 & attempts2 & Hrun2 & _); [by vm_compute|].
  exists reply2, attempts2. split; [exact Hrun2|].
  assert (Hu : unique_hashes (tokens (w_control http_login.2))).
  { destruct (le_process (VaultLaws0 := Api.toy_vault_laws) toy_platform toy_configuration toy_frontend _ _ _ _ _ _ (run_pair http_login)) as [L _]; [done|].
    apply (cl_unique _ _ L). intros i j a b Hi. cbn in Hi. by rewrite lookup_empty in Hi. }
  assert (Htx : w_control_tx http_login.2 = None) by by vm_compute.
  assert (Hp : sent_token refresh_request = Some toy_raw) by by vm_compute.
  assert (Hh : find_handler refresh_request = inr RefreshPath) by by vm_compute.
  exact (refresh_cookie_single_use toy_platform toy_configuration toy_frontend (V := Api.toy_vault) ([], false) ∅ refresh_request
    toy_raw http_login.2 reply attempts http_refresh.2 http_refresh.2 ([], false) ∅ refresh_request reply2 attempts2 http_replay.2
    Htx Hu Hh Hp Hrun Hst (rtc_refl _ _) Hh Hp Hrun2).
Defined.
