(* ===== verification/SessionHttp.v ===== *)
(** * SessionHttp: logging in over HTTP

    What the API process answers at the endpoints of the sessions and the
    probes: their statuses, the refresh cookie they set and clear, and what a
    login does to the sessions. *)

From stdpp Require Import pretty.
From S2P Require Import Prelude Text Base64 Json JsonText Http Domain Stores Uuid World Outcomes ShardTx AuthTypes Password ControlStore ControlOrder AuthStore AuthService AuthSafety CardService CardSafety AccessToken Requests Pagination ResourceHandlers Scenario Api LoginAdmission Cookies AuthHandlers Server ServerOrder Routes Documented Process.
Open Scope string_scope.
Open Scope list_scope.
Open Scope Z_scope.

Definition reply_status (reply : Reply) : Z := rs_status (rp_response reply).
Definition set_cookies (reply : Reply) : list string :=
  List.map snd (List.filter (fun h => h.1 == "Set-Cookie") (rp_header reply)).

(** A cookie of the name [__Host-card-issuer-refresh]: of the whole host, sent
    over TLS only, hidden from scripts and from other sites. *)
Definition host_cookie (value s : string) : Prop := exists expires max_age,
  s = RefreshCookieName +:+ "=" +:+ value +:+ "; Path=/" +:+ expires +:+ max_age +:+ "; HttpOnly; Secure; SameSite=Strict" /\
  (expires = "" \/ exists t, expires = "; Expires=" +:+ http_time t) /\
  (max_age = "" \/ exists n : Z, max_age = "; Max-Age=" +:+ pretty n).

Lemma refresh_host_cookie token expiresAt now : safe_token token -> host_cookie token (cookie_string (refresh_cookie token expiresAt now)).
Proof.
  intros H. unfold host_cookie, cookie_string, refresh_cookie. cbn [ck_Name ck_Value ck_Path ck_Expires ck_MaxAge ck_Secure ck_HttpOnly ck_Strict].
  rewrite sanitize_safe by done. eexists _, _. split; [reflexivity|].
  split; [destruct (1601 <=? _); eauto|]. repeat case_match; eauto. right. by exists 0.
Qed.
Lemma cleared_host_cookie : host_cookie "" (cookie_string cleared_cookie).
Proof.
  exists ("; Expires=" +:+ http_time second), ("; Max-Age=" +:+ pretty 0). split; [by vm_compute|]. split; right; eauto.
Qed.

(** ** The endpoints *)

Section Endpoints.
Context (pf : platform) (cf : configuration) (fe : frontend) `{V : CredentialVault}.
Abbreviation process := (process pf cf fe).
#[local] Instance session_services : SessionService := api_sessions pf cf fe.
#[local] Instance session_authentication : Authentication := api_authentication pf cf.
#[local] Instance session_bank : ResourceHandlers.BankService := api_bank pf cf.
#[local] Instance session_access : BankAccess := api_access cf.
#[local] Instance session_catalog : ResourceHandlers.CatalogService := api_catalog pf cf.
#[local] Instance session_card : ResourceHandlers.CardService := api_card pf cf.
#[local] Instance session_batch : ResourceHandlers.BatchService := api_batch pf cf.
#[local] Instance session_staff : ResourceHandlers.StaffService := api_staff pf cf.

(** The token of a cookie is one of the generator. *)
Lemma fresh_token : ensures safe_token (fun _ => True) newRefreshToken.
Proof. unfold newRefreshToken. returns. apply encoded_safe. Qed.
Lemma drawn_token {A} (P : A -> Prop) (k : string -> M A) :
  (forall token, safe_token token -> ensures P (fun _ => True) (k token)) -> ensures P (fun _ => True) (newRefreshToken ≫= k).
Proof. apply ensures_bind, fresh_token. Qed.
Abbreviation gives_token m := (ensures (fun x => safe_token x.1.2) (fun _ => True) m).
Lemma Login_token u p q : gives_token (svc_Login u p q).
Proof.
  unfold svc_Login, session_services, api_sessions, Login, login_unknown, login_user, refuse.
  returns_with ltac:(idtac; apply drawn_token; intros ? ?).
Qed.
Lemma Refresh_token token q : gives_token (svc_Refresh token q).
Proof.
  unfold svc_Refresh, session_services, api_sessions, Refresh, refresh_refusal, refresh_rotate.
  returns_with ltac:(idtac; apply drawn_token; intros ? ?).
Qed.

(** A set cookie is of the host, and there is at most one. *)
Definition sets (reply : Reply) : Prop := exists token s, safe_token token /\ set_cookies reply = [s] /\ host_cookie token s.
Definition clears (reply : Reply) : Prop := exists s, set_cookies reply = [s] /\ host_cookie "" s.
Definition cookie_rule (e : session_endpoint) (reply : Reply) : Prop :=
  match e with
  | LogIn => if reply_status reply =? 200 then sets reply else set_cookies reply = []
  | RefreshAccessToken => if reply_status reply =? 200 then sets reply else clears reply
  | LogOut => if reply_status reply =? 204 then clears reply else set_cookies reply = []
  | _ => set_cookies reply = []
  end.
Definition session_reply (e : session_endpoint) (reply : Reply) : Prop :=
  one_of (session_statuses e ++ session_undocumented e) (reply_status reply) = true /\ cookie_rule e reply /\
  (e <> LogOut -> rs_no_store (rp_response reply) = true).

Lemma issued_reply response token expires e : e = LogIn \/ e = RefreshAccessToken -> safe_token token ->
  ensures (session_reply e) (fun _ => True) (issued response token expires).
Proof.
  intros He Ht. unfold issued, setRefreshCookie. eapply ensures_bind with (Q := fun h => exists now, h = set_cookie (refresh_cookie token expires now)).
  - returns. by eexists.
  - intros h [now ->]. returns. split; [by destruct He as [-> | ->]|].
    assert (sets (with_header (set_cookie (refresh_cookie token expires now)) (writeJSON 200 (TokenResponse_json response)))).
    { eexists token, _. split; [done|]. split; [done|]. by apply refresh_host_cookie. }
    by destruct He as [-> | ->].
Qed.
Lemma cleared_reply reply : set_cookies reply = [] -> clears (with_header clearRefreshCookie reply).
Proof. intros H. eexists. split; [|apply cleared_host_cookie]. unfold set_cookies, with_header. cbn. by f_equal. Qed.

Lemma try_ensures {A B} (P : A -> Prop) (Q : B -> Prop) (m : M A) (k : result A -> M B) :
  ensures P (fun _ => True) m -> (forall e, ensures Q (fun _ => True) (k (inl e))) ->
  (forall a, P a -> ensures Q (fun _ => True) (k (inr a))) -> ensures Q (fun _ => True) (try m ≫= k).
Proof.
  intros Hm He Ha w x w'. unfold mbind, M_bind, try. destruct (m w) as [[e|a] w1] eqn:E; [apply He|apply Ha]. apply (Hm _ _ _ E).
Qed.

Ltac plain := split; [reflexivity|]; split; [first [reflexivity | by apply cleared_reply]|done].
Lemma login_reply attempts remote r : rq_method r = "POST" ->
  ensures (fun ra => session_reply LogIn ra.1) (fun _ => True) (login (fe_canonical_ip fe) (admission_limit (fe_limit fe)) attempts remote r).
Proof.
  intros Hm. unfold login. rewrite Hm, String.eqb_refl. cbn [negb]. apply ensures_then; [apply ensures_any|]. intros t.
  destruct (allow _ _ _ _ _) as [[[] delay] attempts']; cbn [negb]; [|apply ensures_ret; plain].
  apply ensures_bind with (Q := session_reply LogIn); [|intros reply Hr; by apply ensures_ret].
  unfold login_admitted. cbv zeta. destruct (DecodeRequest _ _ r) as [input|]; [|apply ensures_ret; plain].
  destruct (_ || _); [apply ensures_ret; plain|]. eapply try_ensures; [apply Login_token|..].
  - intros e. apply ensures_ret. destruct (errors_is _ _); plain.
  - intros [[response token] expires] Ht. apply issued_reply; [by left|done].
Qed.
Lemma refresh_reply r : rq_method r = "POST" -> ensures (session_reply RefreshAccessToken) (fun _ => True) (refresh r).
Proof.
  intros Hm. unfold refresh, requireMethod. rewrite Hm, String.eqb_refl.
  destruct (Cookie r RefreshCookieName) as [[|c token]|]; [apply ensures_ret; plain| |apply ensures_ret; plain].
  eapply try_ensures; [apply Refresh_token|..].
  - intros e. apply ensures_ret. destruct (errors_is _ _); plain.
  - intros [[response new] expires] Ht. apply issued_reply; [by right|done].
Qed.
Lemma logout_reply r : rq_method r = "POST" -> ensures (session_reply LogOut) (fun _ => True) (logout r).
Proof.
  intros Hm. unfold logout, requireMethod. rewrite Hm, String.eqb_refl. cbv zeta.
  destruct (Cookie r RefreshCookieName) as [[|c token]|]; [apply ensures_ret; plain| |apply ensures_ret; plain].
  apply ensures_then; [apply ensures_any|]. intros [e|[]]; apply ensures_ret; plain.
Qed.
Lemma me_reply r : rq_method r = "GET" -> ensures (session_reply CurrentUser) (fun _ => True) (me r).
Proof.
  intros Hm. unfold me, requireMethod. rewrite Hm, String.eqb_refl. apply ensures_then; [apply ensures_any|].
  intros [claims|]; apply ensures_ret; plain.
Qed.
Lemma password_reply r : rq_method r = "POST" -> ensures (session_reply ChangeOwnPassword) (fun _ => True) (password r).
Proof.
  intros Hm. unfold password, requireMethod. rewrite Hm, String.eqb_refl. apply ensures_then; [apply ensures_any|].
  intros [claims|]; [|apply ensures_ret; plain]. unfold password_changed. cbv zeta.
  destruct (DecodeRequest _ _ r) as [input|]; [|apply ensures_ret; plain]. destruct (_ || _); [apply ensures_ret; plain|].
  apply ensures_then; [apply ensures_any|]. intros [e|[]]; apply ensures_ret; [|plain]. repeat case_match; plain.
Qed.

(** ** Requests to the process *)

Definition session_request (i : incoming) (e : session_endpoint) : Prop := in_method i = session_method e /\ in_escaped i = session_path e.
Lemma session_found i e : session_request i e -> find_handler i = inr (session_target e).
Proof. intros [Hm Hp]. unfold find_handler. rewrite Hm, Hp. by destruct e; vm_compute. Qed.

(** A request to a pattern of the multiplexer. *)
Lemma process_at t probes attempts i w reply attempts' w' : find_handler i = inr t ->
  process probes attempts i w = (inr (reply, attempts'), w') ->
  exists id w0 reply0, same_control w w0 /\ reply = with_header ("X-Request-ID", id) reply0 /\
    dispatch (pf_hmac pf) (cf_cursorKey cf) (pf_number pf) (fe_canonical_ip fe) (admission_limit (fe_limit fe)) (fe_swagger fe)
      probes attempts (in_remote i) t (with_id i id) w0 = (inr (reply0, attempts'), w').
Proof.
  intros Hh. unfold Process.process, serve. intros (id & w0 & Hid & H)%bind_inr. apply same_request_id in Hid.
  apply bind_inr in H as ([reply1 attempts1] & w1 & H & [[= <- <-] <-]%ret_inr).
  unfold mux in H. rewrite Hh in H. exists id, w0, reply1. auto.
Qed.
Lemma request_id_header id reply e : session_reply e reply -> session_reply e (with_header ("X-Request-ID", id) reply).
Proof. intros H. exact H. Qed.
Lemma keep_inr (m : M Reply) attempts w reply attempts' w' (P : Reply -> Prop) : ensures P (fun _ => True) m ->
  (reply ← m; mret (reply, attempts)) w = (inr (reply, attempts' : attempts_map), w') -> P reply.
Proof. intros Hm (x & w1 & Hx & [[= <- <-] _]%ret_inr)%bind_inr. by eapply ensures_inr in Hx. Qed.

Lemma process_session_reply e probes attempts i w reply attempts' w' : session_request i e ->
  process probes attempts i w = (inr (reply, attempts'), w') -> session_reply e reply.
Proof.
  intros He H. destruct (process_at _ _ _ _ _ _ _ _ (session_found _ _ He) H) as (id & w0 & reply0 & _ & -> & Hrun).
  apply request_id_header. destruct He as [Hm _]. destruct e; cbn [session_target dispatch] in Hrun.
  - apply ret_inr in Hrun as [[= <- _] _]. unfold get_only. cbn [rq_method with_id]. rewrite Hm. cbn. plain.
  - apply ret_inr in Hrun as [[= <- _] _]. unfold get_only. cbn [rq_method with_id]. rewrite Hm. cbn. unfold readiness. case_match; plain.
  - by eapply ensures_inr in Hrun; [|apply login_reply].
  - eapply keep_inr; [|exact Hrun]. by apply refresh_reply.
  - eapply keep_inr; [|exact Hrun]. by apply logout_reply.
  - eapply keep_inr; [|exact Hrun]. by apply me_reply.
  - eapply keep_inr; [|exact Hrun]. by apply password_reply.
Qed.

(** C25: the endpoints of the sessions answer a documented status or an internal
    error, and set at most one cookie: only a login or a refresh answered 200 set
    the refresh cookie, which is of the whole host, sent over TLS only, hidden
    from scripts and from other sites; only a refused refresh and a logout clear
    it; and every answer but the logout's forbids storing it. *)
Theorem session_endpoints_answer e probes attempts i w reply attempts' w' : session_request i e ->
  process probes attempts i w = (inr (reply, attempts'), w') ->
  one_of (session_statuses e ++ session_undocumented e) (reply_status reply) = true /\ cookie_rule e reply /\
  (e <> LogOut -> rs_no_store (rp_response reply) = true).
Proof. apply process_session_reply. Qed.

(** A logout whose session cannot be revoked is answered 500 and leaves the
    cookie with the client. *)
Lemma failed_logout r w e w' token : rq_method r = "POST" -> Cookie r RefreshCookieName = Some token -> token <> "" ->
  svc_Logout token (rq_request_id r) w = (inl e, w') -> logout r w = (inr (internal_problem r), w') /\ set_cookies (internal_problem r) = [].
Proof.
  intros Hm Hc Ht Hrun. split; [|done]. unfold logout, requireMethod. rewrite Hm, String.eqb_refl, Hc. cbv zeta.
  destruct token; [done|]. unfold mbind, M_bind, try. by rewrite Hrun.
Qed.

(** ** What a login does *)

Lemma login_answered attempts remote r w reply attempts' w' :
  login (fe_canonical_ip fe) (admission_limit (fe_limit fe)) attempts remote r w = (inr (reply, attempts'), w') -> reply_status reply = 200 ->
  exists input t delay response raw expires,
    DecodeRequest loginRequest_fields (LoginRequest "" "") r = Some input /\
    allow (fe_canonical_ip fe) (admission_limit (fe_limit fe)) attempts t remote = (true, delay, attempts') /\
    svc_Login (lr_Username input) (lr_Password input) (rq_request_id r) w = (inr (response, raw, expires), w') /\
    exists now, reply = with_header (set_cookie (refresh_cookie raw expires now)) (writeJSON 200 (TokenResponse_json response)).
Proof.
  unfold login, requireMethod. intros H Hst. destruct (rq_method r == "POST"); cbn [negb] in H.
  2: { by apply bind_inr in H as (x & w1 & [<- _]%ret_inr & [[= <- _] _]%ret_inr). }
  apply bind_inr in H as (t & w1 & [_ ->]%time_inr & H).
  destruct (allow _ _ _ _ _) as [[[] delay] table] eqn:Hallow; cbn [negb] in H; [|by apply ret_inr in H as [[= <- _] _]].
  apply bind_inr in H as (x & w1 & H & [[= <- <-] <-]%ret_inr). unfold login_admitted in H. cbv zeta in H.
  destruct (DecodeRequest _ _ r) as [input|] eqn:Hbody; [|by apply ret_inr in H as [<- _]].
  destruct (_ || _); [by apply ret_inr in H as [<- _]|]. apply bind_inr in H as (l & w2 & Hl & H). rewrite try_inr in Hl.
  destruct l as [err|[[response raw] expires]]; [apply ret_inr in H as [<- _]; by destruct (errors_is err _)|].
  unfold issued, setRefreshCookie, time_now in H. injection H as <- <-. by eexists input, t, delay, response, raw, expires; eauto 10.
Qed.

(** C24: a login answered 200 was admitted by the rate limit, carried the name and
    password of an enabled user, and opened one session whose token is exactly
    what its cookie gives back: a request that returns the cookie, among whatever
    others, presents that token. *)
Theorem login_over_http probes attempts i w reply attempts' w' : find_handler i = inr LoginPath ->
  process probes attempts i w = (inr (reply, attempts'), w') -> reply_status reply = 200 ->
  exists input t delay, DecodeRequest loginRequest_fields (LoginRequest "" "") (with_id i "") = Some input /\
    allow (fe_canonical_ip fe) (admission_limit (fe_limit fe)) attempts t (in_remote i) = (true, delay, attempts') /\
  exists id u sid tid raw expires,
    may_login (pf_IDKey pf) (w_control w) (lr_Username input) (lr_Password input) id u /\
    logged_in (fe_sha256 fe) (w_control w) (w_control w') id u raw expires sid tid /\
    (exists s, set_cookies reply = [s] /\ host_cookie raw s) /\
    forall i2, sends_back (with_id i2 "") RefreshCookieName raw -> sent_token i2 = Some raw.
Proof.
  intros Hh H Hst. destruct (process_at _ _ _ _ _ _ _ _ Hh H) as (rid & w0 & reply0 & (Hc & _) & -> & Hrun). cbn [dispatch] in Hrun.
  destruct (login_answered _ _ _ _ _ _ _ Hrun Hst) as (input & t & delay & response & raw & expires & Hbody & Hallow & Hlogin & now & ->).
  exists input, t, delay. split; [exact Hbody|]. split; [exact Hallow|].
  assert (Hsafe : safe_token raw) by exact (ensures_inr _ _ _ _ _ _ (Login_token _ _ _) Hlogin).
  destruct (login_succeeds _ _ _ _ _ _ _ _ _ _ _ _ Hlogin) as (id & u & sid & tid & Hmay & Hin & _).
  exists id, u, sid, tid, raw, expires. rewrite <- Hc. split; [exact Hmay|]. split; [exact Hin|]. split.
  - eexists. split; [reflexivity|]. by apply refresh_host_cookie.
  - intros i2 Hback. by apply refresh_cookie_read.
Qed.
End Endpoints.

(** ** Witnesses *)

Lemma login_over_http_witness : exists id u sid tid raw expires,
  logged_in toy_sha (w_control (auth_world [1; 20; 40; 60; 80; 100; 120; 140; 160])) (w_control http_login.2) id u raw expires sid tid /\
  forall i2, sends_back (with_id i2 "") RefreshCookieName raw -> sent_token i2 = Some raw.
Proof.
  destruct (served_run http_login 200) as (reply & attempts & Hrun & Hst); [by vm_compute|].
  destruct (login_over_http toy_platform toy_configuration toy_frontend (V := Api.toy_vault) ([], false) ∅ login_request _ reply attempts _
    ltac:(by vm_compute) Hrun Hst) as (_ & _ & _ & _ & _ & id & u & sid & tid & raw & expires & _ & Hin & _ & Hback).
  exists id, u, sid, tid, raw, expires. split; [exact Hin|exact Hback].
Defined.
Lemma session_endpoints_answer_witness : exists reply attempts, http_login.1 = inr (reply, attempts) /\ cookie_rule LogIn reply.
Proof.
  destruct (served_run http_login 200) as (reply & attempts & Hrun & Hst); [by vm_compute|]. exists reply, attempts.
  split; [by rewrite Hrun|].
  exact (proj1 (proj2 (session_endpoints_answer toy_platform toy_configuration toy_frontend (V := Api.toy_vault) LogIn ([], false) ∅ login_request _
    reply attempts _ (conj eq_refl eq_refl) Hrun))).
Defined.
