(* ===== verification/Startup.v ===== *)
(** * Startup: what the processes check before they serve

    [run] of [cmd/api/main.go], [cmd/authorization/main.go] and
    [cmd/devvault/main.go], up to the server they start.  Opening a pool or a
    listener and reading a file are parameters. *)

From S2P Require Import Prelude Text Base64 Http Url LoginAdmission Idempotency Vault AuthTypes AuthService Api AuthorizationHttp Configuration.
Open Scope string_scope.
Open Scope list_scope.
Open Scope Z_scope.

#[local] Instance result_bind : MBind result := fun A B f r => match r with inl e => inl e | inr a => f a end.
(** [if err != nil] around a call: its error is replaced. *)
Definition or_fail {A} (r : result A) (message : string) : result A := match r with inl _ => inl (ErrMsg message) | inr a => inr a end.

(** [strings.TrimRight(s, "/")]. *)
Fixpoint drop_slashes (l : list N) : list N := match l with 47%N :: rest => drop_slashes rest | _ => l end.
Definition trim_slashes (s : string) : string := of_bytes (rev (drop_slashes (rev (bytes_of s)))).

Section Startup.
Context (NewKeyFromSeed : string -> string) (odd_host : string -> string -> option string).
Context (Open Listen : string -> bool).
Context (getenv : string -> string).

(** [NewClient] of development.go: the base URL of its requests. *)
Definition NewClient (rawURL : string) : result string :=
  if development_url odd_host rawURL then
    match Parse odd_host rawURL with
    | Some u => inr (trim_slashes (url_string u))
    | None => inl (ErrMsg "vault: invalid development vault URL")
    end
  else inl (ErrMsg "vault: invalid development vault URL").

(** The API: its configuration, its login limit, its connection URLs and the base URL of its vault. *)
Record Api_process := ApiProcess {
  ap_configuration : configuration; ap_limit : Z; ap_pools : string * string * string; ap_vault : string
}.
Definition api_run : result Api_process :=
  cfg ← or_fail (load NewKeyFromSeed odd_host getenv) "invalid application configuration";
  fingerprinter ← or_fail (NewFingerprinter (st_IdempotencyKey cfg)) "invalid idempotency configuration";
  signer ← or_fail (NewSigner NewKeyFromSeed (st_JWTPrivateKey cfg) (st_JWTIssuer cfg) (st_JWTAudience cfg)) "invalid authentication configuration";
  _ ← require (Open (st_AuthURL cfg)) "authentication database pool initialization failed";
  _ ← require (Open (st_ControlURL cfg)) "control database pool initialization failed";
  _ ← require (Open (st_ShardURL cfg)) "shard database pool initialization failed";
  _ ← require (Listen (st_HTTPAddress cfg)) "HTTP listener could not start";
  _ ← require (st_VaultMode cfg == "development") "external credential vault provisioning is required";
  vault ← or_fail (NewClient (st_DevelopmentVaultURL cfg)) "credential vault initialization failed";
  inr (ApiProcess (Configuration signer (st_ShardID cfg) fingerprinter (st_CursorKey cfg) true) (st_LoginAttemptLimit cfg)
         (st_AuthURL cfg, st_ControlURL cfg, st_ShardURL cfg) vault).

(** The authorization service: the files of its certificates, and the banks of its clients. *)
Context (ReadFile : string -> option string) (LoadX509KeyPair : string -> string -> bool) (AppendCertsFromPEM : string -> bool).
Definition mtlsConfiguration : result (gmap string string * string) :=
  let address := if getenv "AUTHORIZATION_HTTP_ADDR" == "" then ":8443" else getenv "AUTHORIZATION_HTTP_ADDR" in
  _ ← require (bool_decide (is_Some (SplitHostPort address))) "address";
  _ ← require (LoadX509KeyPair (getenv "AUTHORIZATION_TLS_CERT_FILE") (getenv "AUTHORIZATION_TLS_KEY_FILE")) "certificate";
  match ReadFile (getenv "AUTHORIZATION_CLIENT_CA_FILE") with
  | None => inl (ErrMsg "client CA")
  | Some caPEM =>
      _ ← require (AppendCertsFromPEM caPEM) "no client CA certificate";
      match client_banks getenv ReadFile with
      | Some banks => inr (banks, address)
      | None => inl (ErrMsg "invalid client certificate mapping")
      end
  end.
Record Authorization_process := AuthorizationProcess { az_banks : gmap string string; az_address : string; az_pool : string; az_vault : string }.
Definition authorization_run : result Authorization_process :=
  cfg ← or_fail (load NewKeyFromSeed odd_host getenv) "invalid application configuration";
  _ ← require (st_VaultMode cfg == "development") "an external PCI-compliant credential vault is required";
  vault ← or_fail (NewClient (st_DevelopmentVaultURL cfg)) "credential vault initialization failed";
  tls ← or_fail mtlsConfiguration "invalid mTLS configuration";
  _ ← require (Open (st_ShardURL cfg)) "shard database pool initialization failed";
  _ ← require (Listen (snd tls)) "mTLS listener could not start";
  inr (AuthorizationProcess (fst tls) (snd tls) (st_ShardURL cfg) vault).

(** The development vault. *)
Definition devvault_run : result (string * vault_state) :=
  cfg ← or_fail (DevelopmentVaultFromEnvironment getenv) "invalid development vault configuration";
  vault ← or_fail (NewInMemory (dv_Environment cfg) (dv_TestVaultKey cfg)) "development vault initialization failed";
  _ ← require (Listen (dv_Address cfg)) "development vault listener could not start";
  inr (dv_TestVaultKey cfg, vault).
End Startup.

(** ** The health checks *)

(** The port of [net.SplitHostPort]. *)
Definition port_of (hostport : string) : option string :=
  _ ← SplitHostPort hostport;
  i ← last_index_char colon (String.list_ascii_of_string hostport);
  Some (String.string_of_list_ascii (drop (S i) (String.list_ascii_of_string hostport))).

Section Health.
(** The status a GET is answered with, if it is answered within the timeout, and the mTLS connection to an address. *)
Context (Get : string -> option Z) (Dial : string -> bool).
Context (getenv : string -> string).

(** The exit status of [healthcheck]: 0 when the process is healthy. *)
Definition http_healthcheck (address path : string) : Z :=
  match port_of address with
  | Some port => if bool_decide (Get ("http://" +:+ JoinHostPort "127.0.0.1" port +:+ path) = Some 200) then 0 else 1
  | None => 1
  end.
Definition api_healthcheck : Z :=
  http_healthcheck (if getenv "HTTP_ADDR" == "" then ":8080" else getenv "HTTP_ADDR") "/health/ready".
Definition devvault_healthcheck : Z :=
  http_healthcheck (if getenv "DEV_VAULT_ADDR" == "" then ":8081" else getenv "DEV_VAULT_ADDR") "/health/live".

Context (ReadFile : string -> option string) (LoadX509KeyPair : string -> string -> bool) (AppendCertsFromPEM : string -> bool).
Definition port (address : string) : string := default "" (port_of address).
Definition authorization_healthcheck : Z :=
  if getenv "AUTHORIZATION_HTTP_ADDR" == "" then 1
  else if negb (LoadX509KeyPair (getenv "AUTHORIZATION_HEALTH_CERT_FILE") (getenv "AUTHORIZATION_HEALTH_KEY_FILE")) then 1
  else match ReadFile (getenv "AUTHORIZATION_SERVER_CA_FILE") with
       | None => 1
       | Some caPEM =>
           if negb (AppendCertsFromPEM caPEM) then 1
           else if Dial (JoinHostPort "127.0.0.1" (port (getenv "AUTHORIZATION_HTTP_ADDR"))) then 0 else 1
       end.
End Health.

(** ** What starts *)

Lemma or_fail_inr {A} (r : result A) message a : or_fail r message = inr a -> r = inr a.
Proof. by destruct r. Qed.

Section Started.
Context (NewKeyFromSeed : string -> string) (odd_host : string -> string -> option string).
Context (Open Listen : string -> bool) (getenv : string -> string).
Context (ReadFile : string -> option string) (LoadX509KeyPair : string -> string -> bool) (AppendCertsFromPEM : string -> bool).
Abbreviation loaded := (load NewKeyFromSeed odd_host getenv).
Abbreviation good := (well_formed NewKeyFromSeed odd_host).

(** A client is made of every vault URL the configuration takes. *)
Lemma NewClient_accepted raw : development_url odd_host raw = true -> exists base, NewClient odd_host raw = inr base.
Proof.
  intros H. unfold NewClient. rewrite H. unfold development_url in H. destruct (Parse odd_host raw) as [u|]; [by eexists|done].
Qed.
Lemma development_only c : good c -> st_VaultMode c = "development" ->
  st_Environment c ∈ ["development"; "test"] /\ exists base, NewClient odd_host (st_DevelopmentVaultURL c) = inr base.
Proof.
  intros Hwf Hm. destruct (wf_vault _ _ _ Hwf) as [[E _]|(_ & Hp & Hu)]; [by rewrite E in Hm|]. split; [|by apply NewClient_accepted].
  pose proof (wf_environment _ _ _ Hwf) as He. rewrite !elem_of_cons in *. tauto.
Qed.
Definition api_resources (c : Settings) : bool := Open (st_AuthURL c) && Open (st_ControlURL c) && Open (st_ShardURL c) && Listen (st_HTTPAddress c).
(** Once the settings are accepted, only the environment and the vault mode decide. *)
Lemma api_run_accepted c signer : loaded = inr c -> good c ->
  NewSigner NewKeyFromSeed (st_JWTPrivateKey c) (st_JWTIssuer c) (st_JWTAudience c) = inr signer ->
  if api_resources c && (st_VaultMode c == "development")
  then exists base, api_run NewKeyFromSeed odd_host Open Listen getenv =
    inr (ApiProcess (Configuration signer (st_ShardID c) (MkFingerprinter (st_IdempotencyKey c)) (st_CursorKey c) true) (st_LoginAttemptLimit c)
           (st_AuthURL c, st_ControlURL c, st_ShardURL c) base)
  else exists e, api_run NewKeyFromSeed odd_host Open Listen getenv = inl e.
Proof.
  intros Hc Hwf Hs. unfold api_run. rewrite Hc. cbn [or_fail mbind result_bind].
  unfold NewFingerprinter, minimumKeyLength. destruct (wf_keys _ _ _ Hwf) as (_ & Hk & _). rewrite (proj2 (Nat.ltb_ge _ _) Hk). cbn [or_fail mbind result_bind].
  rewrite Hs. cbn [or_fail mbind result_bind]. unfold api_resources.
  destruct (Open (st_AuthURL c)); cbn [require mbind result_bind andb]; [|by eexists].
  destruct (Open (st_ControlURL c)); cbn [require mbind result_bind andb]; [|by eexists].
  destruct (Open (st_ShardURL c)); cbn [require mbind result_bind andb]; [|by eexists].
  destruct (Listen (st_HTTPAddress c)); cbn [require mbind result_bind andb]; [|by eexists].
  destruct (String.eqb_spec (st_VaultMode c) "development") as [Hm|_]; cbn [require mbind result_bind]; [|by eexists].
  destruct (development_only c Hwf Hm) as [_ [base Hb]]. exists base. by rewrite Hb.
Qed.

(** C26: a process starts exactly as its settings say.  An accepted configuration
    is well formed: a known environment, a login limit between 1 and 1000, two
    different keys of at least 32 bytes, not the published one in production, a
    signing key that makes a signer.  With it the API starts exactly when its
    databases and its port open and the vault is the development one, with the
    signer, keys and limit of the settings.  No process that reaches credentials
    starts in production. *)
Theorem start_up :
  (forall c, loaded = inr c -> good c /\
    exists signer, NewSigner NewKeyFromSeed (st_JWTPrivateKey c) (st_JWTIssuer c) (st_JWTAudience c) = inr signer /\
    if api_resources c && (st_VaultMode c == "development")
    then st_Environment c ∈ ["development"; "test"] /\
      exists base, api_run NewKeyFromSeed odd_host Open Listen getenv =
        inr (ApiProcess (Configuration signer (st_ShardID c) (MkFingerprinter (st_IdempotencyKey c)) (st_CursorKey c) true) (st_LoginAttemptLimit c)
               (st_AuthURL c, st_ControlURL c, st_ShardURL c) base)
    else exists e, api_run NewKeyFromSeed odd_host Open Listen getenv = inl e) /\
  (forall p, api_run NewKeyFromSeed odd_host Open Listen getenv = inr p -> value getenv "APP_ENV" "development" ∈ ["development"; "test"]) /\
  (forall p, authorization_run NewKeyFromSeed odd_host Open Listen getenv ReadFile LoadX509KeyPair AppendCertsFromPEM = inr p ->
    value getenv "APP_ENV" "development" ∈ ["development"; "test"] /\ client_banks getenv ReadFile = Some (az_banks p) /\ az_banks p <> ∅) /\
  (forall key v, devvault_run Listen getenv = inr (key, v) ->
    getenv "APP_ENV" ∈ ["development"; "test"] /\ (32 <= String.length key)%nat /\ v = empty_vault).
Proof.
  split; [|split; [|split]].
  - intros c H. pose proof (load_inr _ _ _ _ H) as [Hwf _]. split; [done|]. destruct (wf_signer _ _ _ Hwf) as [signer Hs]. exists signer. split; [done|].
    pose proof (api_run_accepted c signer H Hwf Hs) as Ha. destruct (api_resources c && (st_VaultMode c == "development")) eqn:E; [|done].
    split; [|done]. apply andb_true_iff in E as [_ E%String.eqb_eq]. by apply development_only.
  - intros p H. unfold api_run in H. apply result_inr in H as (c & Hc%or_fail_inr & H). pose proof (load_inr _ _ _ _ Hc) as (Hwf & _ & _ & _ & _ & _ & <-).
    apply result_inr in H as (? & _ & H). apply result_inr in H as (? & _ & H). do 4 apply require_inr in H as [_ H].
    apply require_inr in H as [Hm%String.eqb_eq _]. by apply development_only.
  - intros p H. unfold authorization_run in H. apply result_inr in H as (c & Hc%or_fail_inr & H). pose proof (load_inr _ _ _ _ Hc) as (Hwf & _ & _ & _ & _ & _ & <-).
    apply require_inr in H as [Hm%String.eqb_eq H]. split; [by apply development_only|].
    apply result_inr in H as (? & _ & H). apply result_inr in H as (tls & Ht%or_fail_inr & H). do 2 apply require_inr in H as [_ H]. injection H as <-.
    unfold mtlsConfiguration in Ht. cbv zeta in Ht. do 2 apply require_inr in Ht as [_ Ht]. destruct (ReadFile _) as [pem|]; [|done].
    apply require_inr in Ht as [_ Ht]. destruct (client_banks getenv ReadFile) as [banks|] eqn:Eb; [|done]. injection Ht as <-. split; [done|].
    by apply (client_banks_ok getenv ReadFile).
  - intros key v H. unfold devvault_run in H. apply result_inr in H as (c & Hc%or_fail_inr & H). apply result_inr in H as (vault & Hv%or_fail_inr & H).
    apply require_inr in H as [_ H]. injection H as <- <-. unfold DevelopmentVaultFromEnvironment in Hc. cbv zeta in Hc.
    apply require_inr in Hc as [He%one_of_true Hc]. apply require_inr in Hc as [_ Hc]. apply require_inr in Hc as [Hk%long_key_true Hc]. injection Hc as <-.
    split; [done|]. split; [done|]. unfold NewInMemory in Hv. repeat case_match; try done. by injection Hv as <-.
Qed.
End Started.

(** ** What the health checks see *)

Lemma index_char_found c l i : index_char c l = Some i -> (i < length l)%nat.
Proof.
  revert i. induction l as [|x l IH]; intros i H; [done|]. cbn in H |- *. destruct (Ascii.eqb x c); [injection H as <-; lia|].
  destruct (index_char c l) as [j|]; [|done]. injection H as <-. specialize (IH j eq_refl). lia.
Qed.
Lemma port_of_split address : is_Some (SplitHostPort address) -> is_Some (port_of address).
Proof.
  intros [host H]. unfold port_of. rewrite H. cbn [mbind option_bind]. unfold SplitHostPort in H. destruct (last_index_char colon _) as [i|]; [|done]. by eexists.
Qed.
(** The API that runs with accepted settings is healthy exactly when the port it
    listens on answers its readiness with 200: the check finds the port of every
    accepted address, the default included. *)
Lemma api_health Get NewKeyFromSeed odd_host getenv c : load NewKeyFromSeed odd_host getenv = inr c ->
  exists port, port_of (st_HTTPAddress c) = Some port /\
    (api_healthcheck Get getenv = 0 <-> Get ("http://" +:+ JoinHostPort "127.0.0.1" port +:+ "/health/ready") = Some 200).
Proof.
  intros H. pose proof (load_inr _ _ _ _ H) as [Hwf Hrest]. destruct (port_of_split _ (wf_address _ _ _ Hwf)) as [port Hport]. exists port. split; [done|].
  assert (Ha : (if getenv "HTTP_ADDR" == "" then ":8080" else getenv "HTTP_ADDR") = st_HTTPAddress c).
  { rewrite (load_address _ _ _ _ H). unfold value. by destruct (getenv "HTTP_ADDR" == ""). }
  unfold api_healthcheck, http_healthcheck. rewrite Ha, Hport. case_bool_decide; by split.
Qed.

(** ** Examples and witness *)

Definition toy_file (name : string) : option string :=
  if name == "ca.pem" then Some "PEM" else None.
Definition authorization_environment : list (string * string) :=
  [("AUTHORIZATION_CLIENT_CA_FILE", "ca.pem");
   ("AUTHORIZATION_CLIENT_CERTIFICATES", "{" +:+ Json.quote +:+ String.concat "" (repeat "ab" 32) +:+ Json.quote +:+ ":" +:+ Json.quote +:+ "bank" +:+ Json.quote +:+ "}")]
  ++ toy_environment.
Abbreviation toy_api opens listens extra := (api_run toy_seed toy_odd_host opens listens (env_of (extra ++ toy_environment))).
Abbreviation toy_authorization := (authorization_run toy_seed toy_odd_host (fun _ => true) (fun _ => true) (env_of authorization_environment) toy_file (fun _ _ => true) (fun _ => true)).
Definition all_yes (_ : string) : bool := true.
Definition failure {A} (r : result A) : option error := match r with inl e => Some e | inr _ => None end.

Example api_started : (ap_vault <$> match toy_api all_yes all_yes [] with inr p => Some p | inl _ => None end) = Some "http://devvault:8081".
Proof. by vm_compute. Qed.
Example api_external : failure (toy_api all_yes all_yes [("CREDENTIAL_VAULT_MODE", "external")]) = Some (ErrMsg "external credential vault provisioning is required") /\
  failure (toy_api (fun url => negb (String.prefix "postgres://ci_app_shard:" url)) all_yes []) = Some (ErrMsg "shard database pool initialization failed").
Proof. by vm_compute. Qed.
(** A query mark at the end of the vault's URL is accepted and moves the path of every request into its query. *)
Example forced_query : NewClient toy_odd_host "http://devvault:8081/?" = inr "http://devvault:8081/?" /\ NewClient toy_odd_host "http://devvault:8081/" = inr "http://devvault:8081".
Proof. by vm_compute. Qed.
Example authorization_started : (az_address <$> match toy_authorization with inr p => Some p | inl _ => None end) = Some ":8443".
Proof. by vm_compute. Qed.
Example devvault_started : devvault_run all_yes (env_of [("APP_ENV", "test"); ("TEST_VAULT_KEY_B64", "QkJCQkJCQkJCQkJCQkJCQkJCQkJCQkJCQkJCQkJCQkI")]) =
  inr (of_bytes (repeat 66%N 32), empty_vault).
Proof. by vm_compute. Qed.

Lemma start_up_witness :
  (exists base, toy_api all_yes all_yes [] = inr (ApiProcess (Configuration (MkSigner (of_bytes (repeat 7%N 64)) "card-issuer-api" "card-issuer-api") "shard_01"
     (MkFingerprinter (of_bytes (repeat 1%N 32))) (of_bytes (repeat 0%N 32)) true) 5
     (st_AuthURL (toy_settings []), st_ControlURL (toy_settings []), st_ShardURL (toy_settings [])) base)) /\
  (exists p, toy_authorization = inr p /\ az_banks p <> ∅).
Proof.
  split.
  - pose proof (start_up toy_seed toy_odd_host all_yes all_yes (env_of toy_environment) toy_file (fun _ _ => true) (fun _ => true)) as [H _].
    destruct (H (toy_settings []) ltac:(vm_compute; reflexivity)) as (_ & signer & Hs & Ha).
    change (NewSigner _ _ _ _) with (inr (A := error) (MkSigner (of_bytes (repeat 7%N 64)) "card-issuer-api" "card-issuer-api")) in Hs. injection Hs as <-.
    exact (proj2 Ha).
  - pose proof (start_up toy_seed toy_odd_host (fun _ => true) (fun _ => true) (env_of authorization_environment) toy_file (fun _ _ => true) (fun _ => true)) as (_ & _ & H & _).
    destruct toy_authorization as [|p] eqn:E; [exfalso; vm_compute in E; discriminate E|]. exists p. split; [reflexivity|]. by destruct (H p eq_refl) as (_ & _ & ?).
Defined.
