(* ===== verification/Lifetime.v ===== *)
(** * Lifetime: how the processes stop

    [Serve] of [internal/server/server.go] and [run] of [cmd/executor/main.go]
    once everything is open: goroutines that meet on channels, with
    [http.Server] as its documentation describes it.  A step is one of the
    program or one of its environment: a signal, a request that begins or ends. *)

From S2P Require Import Prelude.
From stdpp Require Import relations.
Open Scope Z_scope.

(** Runs of steps of the program and of its environment, with the number of the former. *)
Inductive run {A} (step outside : A -> A -> Prop) : nat -> A -> A -> Prop :=
  | run_nil s : run step outside 0 s s
  | run_step n s s' t : step s s' -> run step outside n s' t -> run step outside (S n) s t
  | run_outside n s s' t : outside s s' -> run step outside n s' t -> run step outside n s t.
Lemma run_bounded {A} (step outside : A -> A -> Prop) (measure : A -> nat) :
  (forall s s', step s s' -> (measure s' < measure s)%nat) -> (forall s s', outside s s' -> (measure s' <= measure s)%nat) ->
  forall n s t, run step outside n s t -> (n + measure t <= measure s)%nat.
Proof. intros Hs Ho n s t. induction 1 as [s|n s s' t H _ IH|n s s' t H _ IH]; [lia|apply Hs in H; lia|apply Ho in H; lia]. Qed.
(** An invariant of every reachable state. *)
Lemma reachable_invariant {A} (moves : A -> A -> Prop) (P : A -> Prop) s0 s :
  P s0 -> (forall a b, P a -> moves a b -> P b) -> rtc moves s0 s -> P s.
Proof. intros H0 Hm H. induction H as [|a b c Hab _ IH]; [done|]. by apply IH, (Hm a). Qed.
(** Nothing of the program is left to do. *)
Definition at_rest {A} (step : A -> A -> Prop) (s : A) : Prop := forall s', ~ step s s'.

(** A step changes the measure as its rule says. *)
Ltac count_left measure :=
  unfold measure; cbn; repeat match goal with H : _ = _ |- _ => rewrite H; clear H end;
  repeat match goal with b : bool |- _ => destruct b end; cbn; repeat case_match; lia.

(** ** [Serve] *)

Module ServeApi.

(** The goroutine of [Serve]: in [httpServer.Serve], waiting for [shutdownDone],
    or returned, [nil] after a shutdown. *)
Inductive main := Serving | Awaiting | Returned (failed : bool).
(** The goroutine that waits for the context: in [select], in [Shutdown], in
    [Close] after the deadline, or done. *)
Inductive watcher := Selecting | ShuttingDown | Closing | Finished.

(** [closing]: the server is in shutdown; [dropped]: it was closed with its connections. *)
Record serve_state := State {
  cancelled : bool; closing : bool; dropped : bool; in_flight : nat; stopped : bool; main_at : main; watcher_at : watcher
}.
#[export] Instance state_eta : Settable serve_state :=
  fun s => State (cancelled s) (closing s) (dropped s) (in_flight s) (stopped s) (main_at s) (watcher_at s).
Definition initial : serve_state := State false false false 0 false Serving Selecting.

(** Steps of the program and of [http.Server] on its behalf. *)
Inductive serve_step : serve_state -> serve_state -> Prop :=
  (* httpServer.Serve returns ErrServerClosed *)
  | serve_closed s : main_at s = Serving -> closing s = true -> serve_step s (s <| main_at := Awaiting |>)
  (* <-shutdownDone; return nil; the deferred close(stopped) *)
  | shutdown_seen s : main_at s = Awaiting -> watcher_at s = Finished ->
      serve_step s (s <| main_at := Returned false |> <| stopped := true |>)
  (* case <-ctx.Done(): Shutdown begins *)
  | context_done s : watcher_at s = Selecting -> cancelled s = true ->
      serve_step s (s <| watcher_at := ShuttingDown |> <| closing := true |>)
  (* case <-stopped *)
  | stop_seen s : watcher_at s = Selecting -> stopped s = true -> serve_step s (s <| watcher_at := Finished |>)
  (* Shutdown returns nil once nothing is in flight *)
  | drained s : watcher_at s = ShuttingDown -> in_flight s = O -> serve_step s (s <| watcher_at := Finished |>)
  (* Shutdown returns the error of its deadline *)
  | deadline s : watcher_at s = ShuttingDown -> serve_step s (s <| watcher_at := Closing |>)
  | closed s : watcher_at s = Closing -> serve_step s (s <| watcher_at := Finished |> <| dropped := true |>).

(** Steps of the environment: a signal, a request that begins while the server
    is open or a connection is not yet seen idle, a request that ends, a listener
    that fails before a shutdown. *)
Inductive serve_outside : serve_state -> serve_state -> Prop :=
  | signal s : serve_outside s (s <| cancelled := true |>)
  | begins s : closing s = false \/ watcher_at s = ShuttingDown -> serve_outside s (s <| in_flight ::= Datatypes.S |>)
  | ends s n : in_flight s = Datatypes.S n -> serve_outside s (s <| in_flight := n |>)
  | listener_failed s : main_at s = Serving -> closing s = false ->
      serve_outside s (s <| main_at := Returned true |> <| stopped := true |>).

Definition moves (s s' : serve_state) : Prop := serve_step s s' \/ serve_outside s s'.
Definition reachable (s : serve_state) : Prop := rtc moves initial s.

(** ** The invariant *)

(** Where the two goroutines may be together, and what the flags are then. *)
Definition invariant (s : serve_state) : Prop :=
  let settled := in_flight s = O \/ dropped s = true in
  match main_at s, watcher_at s with
  | Serving, Selecting => closing s = false /\ stopped s = false
  | (Serving | Awaiting), (ShuttingDown | Closing) => closing s = true /\ stopped s = false /\ cancelled s = true
  | (Serving | Awaiting), Finished => closing s = true /\ stopped s = false /\ cancelled s = true /\ settled
  | Awaiting, Selecting => False
  | Returned false, Finished => closing s = true /\ stopped s = true /\ cancelled s = true /\ settled
  | Returned false, _ => False
  | Returned true, _ => stopped s = true
  end.

Lemma serve_invariant_moves s s' : invariant s -> moves s s' -> invariant s'.
Proof.
  intros H [Hs|Hs]; destruct Hs as [s|s|s|s|s|s|s] || destruct Hs as [s|s|s n|s]; destruct s as [ca cl dr fl st ma wa]; cbn in *; subst;
    unfold invariant in *; cbn in *; try destruct wa; try destruct ma as [| |[]]; cbn in *; intuition (subst; try congruence; try lia).
Qed.
Lemma serve_invariant_reachable s : reachable s -> invariant s.
Proof. by apply reachable_invariant, serve_invariant_moves. Qed.

(** The steps that are left to the two goroutines. *)
Definition left_of (s : serve_state) : nat :=
  (match main_at s with Serving => 2 | Awaiting => 1 | Returned _ => 0 end +
   match watcher_at s with Selecting => 3 | ShuttingDown => 2 | Closing => 1 | Finished => 0 end)%nat.
Lemma serve_step_left s s' : serve_step s s' -> (left_of s' < left_of s)%nat.
Proof. destruct 1; count_left left_of. Qed.
Lemma serve_outside_left s s' : serve_outside s s' -> (left_of s' <= left_of s)%nat.
Proof. destruct 1; count_left left_of. Qed.

(** Once signalled or failed, both goroutines go on to their end. *)
Lemma serve_rest_is_end s : invariant s -> cancelled s = true \/ stopped s = true -> at_rest serve_step s ->
  (exists failed, main_at s = Returned failed) /\ watcher_at s = Finished.
Proof.
  intros Hi Hc Hr. unfold invariant in Hi.
  destruct (watcher_at s) eqn:Ew.
  - exfalso. destruct Hc as [Hc|Hc]; [by eapply Hr, context_done|by eapply Hr, stop_seen].
  - exfalso. by eapply Hr, deadline.
  - exfalso. by eapply Hr, closed.
  - split; [|done]. destruct (main_at s) eqn:Em; [| |by eexists]; exfalso.
    + eapply Hr, serve_closed; [done|apply Hi].
    + by eapply Hr, shutdown_seen.
Qed.
End ServeApi.

(** ** [run] of the authorization service and of the development vault *)

(** They return as soon as [Serve] does, and do not wait for [Shutdown]. *)
Module ServeAuthorization.
Import ServeApi.
Inductive authorization_step : serve_state -> serve_state -> Prop :=
  | serve_closed s : main_at s = Serving -> closing s = true -> authorization_step s (s <| main_at := Returned false |>)
  | context_done s : watcher_at s = Selecting -> cancelled s = true ->
      authorization_step s (s <| watcher_at := ShuttingDown |> <| closing := true |>)
  | drained s : watcher_at s = ShuttingDown -> in_flight s = O -> authorization_step s (s <| watcher_at := Finished |>)
  | deadline s : watcher_at s = ShuttingDown -> authorization_step s (s <| watcher_at := Finished |>).
Definition moves (s s' : serve_state) : Prop := authorization_step s s' \/ serve_outside s s'.
Definition reachable (s : serve_state) : Prop := rtc moves initial s.
End ServeAuthorization.

(** ** [run] of the executor *)

Module RunExecutor.
(** The service loop and the server, which send their result to a channel of one
    place; the goroutine that shuts the server down after a signal; and [run]
    itself: in [select], in [Shutdown] after the loop ended, waiting for the
    other channel, or returned. *)
Inductive loop_at := Running | ServiceDone (failed : bool).
Inductive server := Serving | ServerDone (failed : bool).
Inductive watcher := Waiting | ShuttingDown | Finished.
Inductive outcome := Fine | ServiceFailed | ServerFailed.
Inductive main := Selecting | Stopping (failed : bool) | AwaitingServer (failed : bool) | AwaitingService | Returned (o : outcome).
Record executor_state := State {
  cancelled : bool; closing : bool; service_at : loop_at; server_at : server; watcher_at : watcher; main_at : main
}.
#[export] Instance state_eta : Settable executor_state :=
  fun s => State (cancelled s) (closing s) (service_at s) (server_at s) (watcher_at s) (main_at s).
Definition initial : executor_state := State false false Running Serving Waiting Selecting.

Inductive executor_step : executor_state -> executor_state -> Prop :=
  (* Run returns nil only after the context is done, within the drain timeout *)
  | service_ends s : service_at s = Running -> cancelled s = true -> executor_step s (s <| service_at := ServiceDone false |>)
  | server_closed s : server_at s = Serving -> closing s = true -> executor_step s (s <| server_at := ServerDone false |>)
  | context_done s : watcher_at s = Waiting -> cancelled s = true -> executor_step s (s <| watcher_at := ShuttingDown |> <| closing := true |>)
  | shutdown_done s : watcher_at s = ShuttingDown -> executor_step s (s <| watcher_at := Finished |>)
  (* case err = <-errCh: Shutdown *)
  | service_first s e : main_at s = Selecting -> service_at s = ServiceDone e -> executor_step s (s <| main_at := Stopping e |> <| closing := true |>)
  | stopped s e : main_at s = Stopping e -> executor_step s (s <| main_at := AwaitingServer e |>)
  | server_second s e k : main_at s = AwaitingServer e -> server_at s = ServerDone k ->
      executor_step s (s <| main_at := Returned (if e then ServiceFailed else if k then ServerFailed else Fine) |>)
  (* case err = <-serveErr *)
  | server_first s k : main_at s = Selecting -> server_at s = ServerDone k ->
      executor_step s (s <| main_at := if k then Returned ServerFailed else AwaitingService |>)
  | service_second s e : main_at s = AwaitingService -> service_at s = ServiceDone e ->
      executor_step s (s <| main_at := Returned (if e then ServiceFailed else Fine) |>).
(** A signal, a cycle that fails, a listener that fails before a shutdown. *)
Inductive executor_outside : executor_state -> executor_state -> Prop :=
  | signal s : executor_outside s (s <| cancelled := true |>)
  | cycle_failed s : service_at s = Running -> executor_outside s (s <| service_at := ServiceDone true |>)
  | listener_failed s : server_at s = Serving -> closing s = false -> executor_outside s (s <| server_at := ServerDone true |>).
Definition moves (s s' : executor_state) : Prop := executor_step s s' \/ executor_outside s s'.
Definition reachable (s : executor_state) : Prop := rtc moves initial s.

(** What [run] has received agrees with what was sent, and the server is closed
    only after a signal or by [run]. *)
Definition invariant (s : executor_state) : Prop :=
  (service_at s = ServiceDone false -> cancelled s = true) /\
  (server_at s = ServerDone false -> closing s = true) /\
  match main_at s with
  | Selecting => closing s = true -> cancelled s = true
  | Stopping e | AwaitingServer e => closing s = true /\ service_at s = ServiceDone e
  | AwaitingService => cancelled s = true /\ server_at s = ServerDone false
  | Returned Fine => service_at s = ServiceDone false /\ server_at s = ServerDone false
  | Returned ServiceFailed => service_at s = ServiceDone true
  | Returned ServerFailed => server_at s = ServerDone true
  end.
Lemma executor_invariant_moves s s' : invariant s -> moves s s' -> invariant s'.
Proof.
  intros H [Hs|Hs]; destruct Hs; destruct s as [ca cl sv sr wa ma]; cbn in *; subst; unfold invariant in *; cbn in *;
    try destruct ma as [|[]|[]| |[]]; cbn in *; repeat match goal with b : bool |- _ => destruct b end; intuition congruence.
Qed.
Lemma executor_invariant_reachable s : reachable s -> invariant s.
Proof. apply reachable_invariant; [by repeat split|exact executor_invariant_moves]. Qed.

Definition left_of (s : executor_state) : nat :=
  (match service_at s with Running => 1 | ServiceDone _ => 0 end + match server_at s with Serving => 1 | ServerDone _ => 0 end +
   match watcher_at s with Waiting => 2 | ShuttingDown => 1 | Finished => 0 end +
   match main_at s with Selecting => 3 | Stopping _ => 2 | AwaitingServer _ | AwaitingService => 1 | Returned _ => 0 end)%nat.
Lemma executor_step_left s s' : executor_step s s' -> (left_of s' < left_of s)%nat.
Proof. destruct 1; count_left left_of. Qed.
Lemma executor_outside_left s s' : executor_outside s s' -> (left_of s' <= left_of s)%nat.
Proof. destruct 1; count_left left_of. Qed.
Lemma executor_rest_is_end s : invariant s -> cancelled s = true \/ service_at s <> Running \/ server_at s <> Serving -> at_rest executor_step s ->
  exists o, main_at s = Returned o.
Proof.
  intros (Hc & Hk & Hm) Hw Hr. revert Hm. destruct (main_at s) as [|e|e| |o] eqn:Em; intros Hm; [| | | |by eexists]; exfalso.
  - destruct (service_at s) as [|e] eqn:Es; [|by eapply Hr, service_first].
    destruct (server_at s) as [|k] eqn:Ek; [|by eapply Hr, server_first].
    destruct Hw as [Hw|[?|?]]; [|done..]. by eapply Hr, service_ends.
  - by eapply Hr, stopped.
  - destruct Hm as [Hcl _]. destruct (server_at s) as [|k] eqn:Ek; [by eapply Hr, server_closed|by eapply Hr, server_second].
  - destruct Hm as [Hca _]. destruct (service_at s) as [|e] eqn:Es; [by eapply Hr, service_ends|by eapply Hr, service_second].
Qed.
End RunExecutor.

(** ** The theorem *)

(** C29: every process that is told to stop stops, and the API does so only when
    its requests are over.  In [Serve] of the API and [run] of the executor,
    however the goroutines interleave with signals, requests, failing cycles and
    a failing listener: the API returns without an error only after a signal and
    once every request has ended or the deadline closed the connections; the
    executor returns without an error only after its loop and its server ended
    without one, and with the error of the one that failed; once signalled or
    failed neither is ever stuck, since a state where nothing is left to do is
    one where it has returned; and only so many steps are ever left. *)
Theorem processes_stop :
  (forall s, ServeApi.reachable s ->
    (ServeApi.main_at s = ServeApi.Returned false ->
      ServeApi.cancelled s = true /\ ServeApi.watcher_at s = ServeApi.Finished /\ (ServeApi.in_flight s = O \/ ServeApi.dropped s = true)) /\
    (ServeApi.cancelled s = true \/ ServeApi.stopped s = true -> at_rest ServeApi.serve_step s ->
      (exists failed, ServeApi.main_at s = ServeApi.Returned failed) /\ ServeApi.watcher_at s = ServeApi.Finished) /\
    forall n t, run ServeApi.serve_step ServeApi.serve_outside n s t -> (n <= 5)%nat) /\
  (forall s, RunExecutor.reachable s ->
    match RunExecutor.main_at s with
    | RunExecutor.Returned RunExecutor.Fine =>
        RunExecutor.cancelled s = true /\ RunExecutor.service_at s = RunExecutor.ServiceDone false /\ RunExecutor.server_at s = RunExecutor.ServerDone false
    | RunExecutor.Returned RunExecutor.ServiceFailed => RunExecutor.service_at s = RunExecutor.ServiceDone true
    | RunExecutor.Returned RunExecutor.ServerFailed => RunExecutor.server_at s = RunExecutor.ServerDone true
    | _ => True
    end /\
    (RunExecutor.cancelled s = true \/ RunExecutor.service_at s <> RunExecutor.Running \/ RunExecutor.server_at s <> RunExecutor.Serving ->
      at_rest RunExecutor.executor_step s -> exists o, RunExecutor.main_at s = RunExecutor.Returned o) /\
    forall n t, run RunExecutor.executor_step RunExecutor.executor_outside n s t -> (n <= 7)%nat).
Proof.
  split; intros s H.
  - pose proof (ServeApi.serve_invariant_reachable s H) as Hi. split; [|split].
    + intros Hm. unfold ServeApi.invariant in Hi. rewrite Hm in Hi. by destruct (ServeApi.watcher_at s); [..|destruct_and!].
    + by apply ServeApi.serve_rest_is_end.
    + intros n t Hn. apply (run_bounded _ _ ServeApi.left_of ServeApi.serve_step_left ServeApi.serve_outside_left) in Hn.
      unfold ServeApi.left_of in Hn. destruct (ServeApi.main_at s), (ServeApi.watcher_at s); lia.
  - pose proof (RunExecutor.executor_invariant_reachable s H) as Hi. split; [|split].
    + destruct Hi as (Hc & _ & Hm). destruct (RunExecutor.main_at s) as [| | | |[]]; try done. destruct Hm as [Hs Hk]. by split; [apply Hc|].
    + by apply RunExecutor.executor_rest_is_end.
    + intros n t Hn. apply (run_bounded _ _ RunExecutor.left_of RunExecutor.executor_step_left RunExecutor.executor_outside_left) in Hn.
      unfold RunExecutor.left_of in Hn. destruct (RunExecutor.main_at s), (RunExecutor.service_at s), (RunExecutor.server_at s), (RunExecutor.watcher_at s); lia.
Qed.

(** The authorization service and the development vault return, and so exit,
    while a request is being answered: nothing waits for [Shutdown]. *)
Lemma authorization_exits_early : exists s, ServeAuthorization.reachable s /\
  ServeApi.main_at s = ServeApi.Returned false /\ ServeApi.watcher_at s = ServeApi.ShuttingDown /\ ServeApi.in_flight s = 1%nat /\ ServeApi.dropped s = false.
Proof.
  exists (ServeApi.State true true false 1 false (ServeApi.Returned false) ServeApi.ShuttingDown). split; [|done]. unfold ServeAuthorization.reachable.
  eapply rtc_l; [right; by apply ServeApi.begins; left|]. eapply rtc_l; [right; apply ServeApi.signal|].
  eapply rtc_l; [left; by apply ServeAuthorization.context_done|]. eapply rtc_l; [left; by apply ServeAuthorization.serve_closed|]. apply rtc_refl.
Qed.

(** A listener that fails ends the executor while its loop and workers still run. *)
Lemma server_failure_leaves_service : exists s, RunExecutor.reachable s /\
  RunExecutor.main_at s = RunExecutor.Returned RunExecutor.ServerFailed /\ RunExecutor.service_at s = RunExecutor.Running /\ RunExecutor.cancelled s = false.
Proof.
  exists (RunExecutor.State false false RunExecutor.Running (RunExecutor.ServerDone true) RunExecutor.Waiting (RunExecutor.Returned RunExecutor.ServerFailed)).
  split; [|done]. unfold RunExecutor.reachable. eapply rtc_l; [right; by apply RunExecutor.listener_failed|].
  eapply rtc_l; [left; by apply (RunExecutor.server_first _ true)|]. apply rtc_refl.
Qed.

(** A signal while a request is answered: [Serve] returns once it has ended. *)
Lemma processes_stop_witness : exists s, ServeApi.reachable s /\ ServeApi.main_at s = ServeApi.Returned false /\ (ServeApi.in_flight s = O \/ ServeApi.dropped s = true).
Proof.
  assert (H : ServeApi.reachable (ServeApi.State true true false 0 true (ServeApi.Returned false) ServeApi.Finished)).
  { unfold ServeApi.reachable. eapply rtc_l; [right; by apply ServeApi.begins; left|]. eapply rtc_l; [right; apply ServeApi.signal|].
    eapply rtc_l; [left; by apply ServeApi.context_done|]. eapply rtc_l; [left; by apply ServeApi.serve_closed|].
    eapply rtc_l; [right; by apply (ServeApi.ends _ 0)|]. eapply rtc_l; [left; by apply ServeApi.drained|].
    eapply rtc_l; [left; by apply ServeApi.shutdown_seen|]. apply rtc_refl. }
  exists (ServeApi.State true true false 0 true (ServeApi.Returned false) ServeApi.Finished). split; [exact H|]. split; [reflexivity|].
  exact (proj2 (proj2 (proj1 (proj1 processes_stop _ H) eq_refl))).
Defined.
