(* ===== verification/StaffSafety.v ===== *)
(** * StaffSafety: what a change of the staff directory leaves

    Each command changes exactly one user, in one transaction with its audit
    event and the record that answers its repetitions; a change of a user's
    authorization ends every session the user had. *)

From S2P Require Import Prelude Json Domain Stores World ShardTx Guards Idempotency AuthTypes Base64 Password ControlStore AuthStore ControlOrder AuthService AuthSafety BankService BankSafety StaffService Scenario.
Open Scope string_scope.
Open Scope list_scope.
Open Scope Z_scope.

(** ** The requests *)

Inductive staff_request :=
  | NewUser (username password role entity : string)
  | SetRole (id role entity : string)
  | SetStatus (id status : string)
  | SetPassword (id password : string).

Definition staff_scope (p : Principal) (c : staff_request) : string :=
  match c with
  | NewUser _ _ _ _ => "users.create.actor." +:+ Principal_UserID p
  | SetRole id _ _ => "users.update." +:+ id +:+ ".actor." +:+ Principal_UserID p
  | SetStatus id _ => "users.disable." +:+ id +:+ ".actor." +:+ Principal_UserID p
  | SetPassword id _ => "users.set_password." +:+ id +:+ ".actor." +:+ Principal_UserID p
  end.
Definition staff_status (c : staff_request) : Z := match c with NewUser _ _ _ _ => 201 | _ => 200 end.
(** The bank a request assigns. *)
Definition staff_bank (c : staff_request) : string :=
  match c with NewUser _ _ _ entity | SetRole _ _ entity => entity | _ => "" end.
(** The handlers always send a role or a status. *)
Definition staff_valid (c : staff_request) : Prop :=
  match c with SetRole _ role _ => role <> "" | SetStatus _ status => status <> "" | _ => True end.

Section Staff.
Context (IDKey : string -> string -> Z -> Z -> Z -> Z -> string).
Context (hmac : string -> string -> string) (fp : Fingerprinter) (shardID : string).
Context (p : Principal) (key body rq : string).

Definition run_staff (c : staff_request) : M (Z * json) :=
  match c with
  | NewUser username password role entity => CreateUserWorkflow IDKey hmac fp shardID p key body username password role entity rq
  | SetRole id role entity => UpdateUserWorkflow hmac fp shardID p id key body role entity "" rq
  | SetStatus id status => UpdateUserWorkflow hmac fp shardID p id key body "" "" status rq
  | SetPassword id password => SetUserPasswordWorkflow IDKey hmac fp p id key body password rq
  end.

(** ** Their effects *)

Definition hashed (password hash : string) : Prop :=
  (String.length password <= MaxPasswordBytes)%nat /\ exists salt, hash = hash_with IDKey salt password.

(** The user [u'] a request leaves under [id]. *)
Definition staff_user (c : staff_request) (db : control_db) (id : string) (u' : user_row) : Prop :=
  match c with
  | NewUser username password role entity =>
      users db !! id = None /\
      (forall i q, users db !! i = Some q -> us_normalized_username q <> us_normalized_username u') /\
      exists hash t, hashed password hash /\
        u' = UserRow (to_lower (btrim (to_lower (trim_space username)))) hash role (nullable entity) "enabled" 1 t t
               (Some (Principal_UserID p)) (Some (Principal_UserID p))
  | SetRole i role entity => id = i /\ exists u, users db !! id = Some u /\
      authorization u' = (us_password_hash u, role, nullable entity, us_status u)
  | SetStatus i status => id = i /\ exists u, users db !! id = Some u /\
      authorization u' = (us_password_hash u, us_role u, us_entity_id u, status)
  | SetPassword i password => id = i /\ exists u hash, users db !! id = Some u /\ hashed password hash /\
      authorization u' = (hash, us_role u, us_entity_id u, us_status u)
  end.

(** What a successful command left. *)
Definition staff_done (c : staff_request) (raw : json) (db db' : control_db) : Prop :=
  exists id u' event cmd,
    staff_user c db id u' /\ user_le (default u' (users db !! id)) u' /\
    raw = userJSON (scanDirectoryUser id u') /\ aa_subject_user_id event = Some id /\
    aa_actor_user_id event = Some (Principal_UserID p) /\
    cm_request_fingerprint cmd = Fingerprint hmac fp body /\ cm_response_body cmd = jsonb raw /\
    (staff_bank c <> "" -> has_route (staff_bank c) shardID (fun s => s == "active") db = true) /\
    db' = ((db <| users ::= <[id := u']> |>) <| auth_audit ::= fun l => l ++ [event] |>)
            <| commands ::= <[(staff_scope p c, key) := cmd]> |>.

(** ** The statements *)

Lemma update_user_tx id set w db o w' :
  change_user id set w = (inr (Some o), w') -> w_control_tx w = Some db ->
  exists u u' t, users db !! id = Some u /\ guard_user t u (set u) = Some u' /\ o = scanDirectoryUser id u' /\
    w_control_tx w' = Some (db <| users ::= <[id := u']> |>).
Proof.
  intros H Hdb. unfold change_user in H. apply bind_inr in H as (n & w1 & H1 & H).
  apply (cexec_tx _ _ _ _ _ H1) in Hdb as (env & db1 & Hf & Htx1 & _).
  destruct (n =? 1) eqn:En; [|by apply ret_inr in H as [? _]]. apply bind_inr in H as (user & w2 & H2 & H).
  apply ret_inr in H as [[= ->] <-]. unfold userByID in H2. apply row_inr in H2.
  apply (cexec_tx _ _ _ _ _ H2) in Htx1 as (env2 & db2 & Hf2 & Htx2 & _). injection Hf2 as Ho <-.
  destruct (users db !! id) as [u|] eqn:Eu.
  - apply (update_user_inr _ _ _ _ u) in Hf as (u' & Hg & ->); [|done]. cbn in Ho. rewrite lookup_insert_eq in Ho. injection Ho as <-.
    by exists u, u', (clock_timestamp env).
  - unfold update_user in Hf. rewrite Eu in Hf. injection Hf as <- <-. done.
Qed.
Lemma guard_user_set t u v u' :
  guard_user t u v = Some u' -> authorization u' = authorization v /\ user_le u u'.
Proof.
  unfold guard_user. destruct (us_auth_version v <? us_auth_version u) eqn:E; [done|]. apply Z.ltb_ge in E. intros [= <-].
  case_bool_decide as Ha; (split; [done|]); split; cbn; try lia; intros H; done.
Qed.
Lemma insert_user_inr username hash role entity actor env db o db' :
  insert_user username hash role entity actor env db = inr (o, db') ->
  exists id, let u := UserRow (to_lower (btrim username)) hash role entity "enabled" 1 (now env) (now env) (Some actor) (Some actor) in
    o = Some id /\ users db !! id = None /\ (forall i q, users db !! i = Some q -> us_normalized_username q <> us_normalized_username u) /\
    db' = db <| users ::= <[id := u]> |>.
Proof.
  unfold insert_user. destruct (check_user _); [|done]. destruct (existsb _ _) eqn:Ee; [done|].
  destruct (insert_pk _ _ _) as [|t] eqn:Ei; [done|]. intros [= <- <-]. apply insert_pk_inr in Ei as [Hn ->].
  eexists. split; [done|]. split; [done|]. split; [|done]. intros i q Hq Heq. cbn in Heq.
  assert (existsb (fun p => us_normalized_username p.2 == to_lower (btrim username)) (map_to_list (users db)) = true); [|cbn in *; congruence].
  apply existsb_exists. exists (i, q). split; [by apply list_elem_of_In, elem_of_map_to_list|]. by apply String.eqb_eq.
Qed.

Lemma staff_claim_first scope w co rep w' :
  staff_centralIdempotency hmac fp scope key body w = (inr rep, w') -> w_control_tx w = Some co ->
  commands co !! (scope, key) = None ->
  rep = None /\ w_control_tx w' = Some (opened hmac fp scope key body (w_clock w) co).
Proof. apply claim_new_command. Qed.
Lemma claim_control scope : frames ccommitted (staff_centralIdempotency hmac fp scope key body).
Proof. unfold staff_centralIdempotency, CentralClaimIdempotency. frame_with ltac:(auto with frames). Qed.

Lemma require_assignment_inr entity w w' :
  require_assignment shardID entity w = (inr tt, w') ->
  w_control_tx w' = w_control_tx w /\
  (entity <> "" -> has_route entity shardID (fun s => s == "active") (w_control w) = true).
Proof.
  unfold require_assignment. destruct (String.eqb_spec entity "") as [->|Hne]; [by intros [_ ->]%ret_inr|].
  intros H. apply bind_inr in H as (ok & w1 & H1 & H). destruct ok; [|by apply throw_inr in H]. apply ret_inr in H as [_ <-].
  unfold Active, holds in H1. apply bind_inr in H1 as (r & w2 & H2 & H1). apply ret_inr in H1 as [Hr <-]. rewrite try_inr in H2.
  destruct r as [e|ok]; [done|]. subst ok. unfold HasActiveRoute in H2. rewrite wrap_inr in H2.
  apply control_read_run in H2 as (_ & Htx & _ & [[e [=]]|(env & [= Hv])]). by split.
Qed.

(** The end of a command. *)
Lemma conclude_inr scope st user event subject entity w db cmd res w' :
  conclude scope key st user event subject entity (Principal_UserID p) rq w = (inr res, w') -> w_control_tx w = Some db ->
  commands db !! (scope, key) = Some cmd -> cm_request_fingerprint cmd = Fingerprint hmac fp body ->
  res = (st, userJSON user) /\ exists a cmd', aa_subject_user_id a = Some subject /\ aa_actor_user_id a = Some (Principal_UserID p) /\
    cm_request_fingerprint cmd' = Fingerprint hmac fp body /\ cm_response_body cmd' = jsonb (userJSON user) /\
    w_control w' = (db <| auth_audit ::= fun l => l ++ [a] |>) <| commands ::= <[(scope, key) := cmd']> |>.
Proof.
  intros H Hdb Hcmd Hfp. unfold conclude in H. cbv zeta in H. apply bind_inr in H as ([] & w1 & H1 & H).
  apply bind_inr in H as ([] & w2 & H2 & H). apply bind_inr in H as ([] & w3 & H3 & H). apply ret_inr in H as [<- <-].
  unfold RecordAuthenticationAudit in H1. apply (cexec_tx _ _ _ _ _ H1) in Hdb as (env & db1 & Hf & Htx1 & _). injection Hf as <-.
  apply (cexec_tx _ _ _ _ _ H2) in Htx1 as (env2 & db2 & Hf2 & Htx2 & _).
  unfold finish_command in Hf2. cbn -[jsonb userJSON] in Hf2. rewrite Hcmd in Hf2. injection Hf2 as <-.
  apply ccommit_inr in H3 as (H3 & _). rewrite Htx2 in H3. injection H3 as Hdb. split; [done|].
  eexists _, _. rewrite <- Hdb. split; [|split; [|split; [|split; [|reflexivity]]]]; [reflexivity|reflexivity|exact Hfp|reflexivity].
Qed.

(** The open part of a command, up to its own statements. *)
Lemma staff_open scope {A} (k : option json -> M A) w a w' :
  (control_transaction ;; with_defer control_rollback (replay ← staff_centralIdempotency hmac fp scope key body; k replay)) w
    = (inr a, w') -> commands (w_control w) !! (scope, key) = None ->
  exists w1 w2 t, k None w1 = (inr a, w2) /\ w_control w' = w_control w2 /\ w_control w1 = w_control w /\
    w_control_tx w1 = Some (opened hmac fp scope key body t (w_control w)).
Proof.
  intros H Hnew. apply bind_inr in H as ([] & w1 & H1 & H). apply begin_control in H1 as (Htx1 & Hc1 & _).
  apply defer_inr in H as (w3 & H & ->). apply bind_inr in H as (rep & w2 & H2 & H).
  pose proof (claim_control _ _ _ _ H2) as Hc2. red in Hc2.
  rewrite <- Hc1 in Hnew. rewrite <- Hc1 in Htx1. destruct (staff_claim_first _ _ _ _ _ H2 Htx1 Hnew) as [-> Htx2].
  rewrite Hc1 in Htx2. exists w2, w3, (w_clock w1). repeat split; [done|congruence|done].
Qed.

(** The conclusion of a change of the user [id]. *)
Lemma staff_conclude c st u' id event entity w db t res w' :
  conclude (staff_scope p c) key st (scanDirectoryUser id u') event id entity (Principal_UserID p) rq w = (inr res, w') ->
  w_control_tx w = Some ((opened hmac fp (staff_scope p c) key body t db) <| users ::= <[id := u']> |>) ->
  staff_user c db id u' -> user_le (default u' (users db !! id)) u' ->
  (staff_bank c <> "" -> has_route (staff_bank c) shardID (fun s => s == "active") db = true) ->
  res = (st, userJSON (scanDirectoryUser id u')) /\ staff_done c res.2 db (w_control w').
Proof.
  intros H Htx Hu Hle Hbank.
  destruct (conclude_inr _ _ _ _ _ _ _ _ (fresh_command (command_claim hmac fp (staff_scope p c) key body t)) _ _ H Htx) as
    (-> & a & cmd & Ha & Hb & Hfp & Hbody & ->).
  - cbn. apply lookup_insert_eq.
  - done.
  - split; [done|]. exists id, u', a, cmd. do 8 (split; [done|]). unfold opened. destruct db as [ro us se tk au cm].
    unfold set_field. cbn. f_equal. apply insert_insert_eq.
Qed.

Lemma change_conclude c id set_user w1 w0 o db t w2 st event entity res w' :
  w_control_tx w1 = Some (opened hmac fp (staff_scope p c) key body t db) ->
  change_user id set_user w1 = (inr (Some o), w2) ->
  (forall u u' t, users db !! id = Some u -> guard_user t u (set_user u) = Some u' -> authorization u' = authorization (set_user u) ->
    staff_user c db id u') ->
  (staff_bank c <> "" -> has_route (staff_bank c) shardID (fun s => s == "active") (w_control w0) = true) -> w_control w0 = db ->
  conclude (staff_scope p c) key st o event id entity (Principal_UserID p) rq w2 = (inr res, w') ->
  res.1 = st /\ staff_done c res.2 db (w_control w').
Proof.
  intros Htx Hch Hset Hbank <- H. destruct (update_user_tx _ _ _ _ _ _ Hch Htx) as (u & u' & t' & Hu & Hg & -> & Htx2).
  cbn in Hu. destruct (guard_user_set _ _ _ _ Hg) as [Ha Hle].
  destruct (staff_conclude _ _ _ _ _ _ _ _ _ _ _ H Htx2 (Hset _ _ _ Hu Hg Ha)) as [-> Hd]; [by rewrite Hu|done|by split].
Qed.

Lemma HashPassword_inr password hash w w' :
  HashPassword IDKey password w = (inr hash, w') -> hashed password hash /\ w_control_tx w' = w_control_tx w.
Proof.
  unfold HashPassword. destruct (Nat.ltb_spec MaxPasswordBytes (String.length password)) as [|Hlen]; [by intros ?%throw_inr|].
  intros H. apply bind_inr in H as (salt & w1 & H1 & H). apply ret_inr in H as [<- <-].
  split; [split; [exact Hlen|by eexists]|]. unfold rand16 in H1. case_match; by simplify_eq/=.
Qed.

Lemma staff_create_inr username password role entity w res w' :
  run_staff (NewUser username password role entity) w = (inr res, w') ->
  commands (w_control w) !! (staff_scope p (NewUser username password role entity), key) = None ->
  res.1 = 201 /\ staff_done (NewUser username password role entity) res.2 (w_control w) (w_control w').
Proof.
  intros H Hnew. cbn [run_staff] in H. unfold CreateUserWorkflow in H. cbv zeta in H.
  apply staff_open in H as (w1 & w2 & t & H & -> & Hc & Htx); [|done].
  cbv beta iota in H. apply bind_inr in H as ([] & w3 & H3 & H). apply require_assignment_inr in H3 as [Htx3 Hb].
  apply bind_inr in H as (hash & w4 & H4 & H). apply bind_inr in H as (user & w5 & H5 & H).
  apply HashPassword_inr in H4 as [Hhash Htx4]. rewrite Htx3, Htx in Htx4.
  unfold CreateUser in H5. apply bind_inr in H5 as (id & w7 & H7 & H5). apply row_inr in H7.
  apply (cexec_tx _ _ _ _ _ H7) in Htx4 as (env & db7 & Hf & Htx7 & _).
  apply insert_user_inr in Hf as (id' & Hid & Hfree & Huniq & ->). injection Hid as <-.
  unfold userByID in H5. rewrite row_inr in H5. destruct (cexec_tx _ _ _ _ _ H5 Htx7) as (env5 & db5 & Hf5 & Htx5 & _).
  injection Hf5 as Ho <-. cbn in Ho. rewrite lookup_insert_eq in Ho. injection Ho as <-.
  apply (staff_conclude (NewUser username password role entity) _ _ _ _ _ _ (w_control w) t) in H as [-> Hd].
  - by split.
  - exact Htx5.
  - split; [exact Hfree|]. split; [exact Huniq|]. by eexists _, _.
  - cbn in Hfree. rewrite Hfree. done.
  - cbn. rewrite <- Hc. exact Hb.
Qed.

Lemma staff_inr c w res w' :
  run_staff c w = (inr res, w') -> staff_valid c -> commands (w_control w) !! (staff_scope p c, key) = None ->
  res.1 = staff_status c /\ staff_done c res.2 (w_control w) (w_control w').
Proof.
  intros H Hv Hnew. destruct c as [username password role entity|id role entity|id status|id password].
  - by apply staff_create_inr.
  - cbn [run_staff] in H. unfold UpdateUserWorkflow in H. cbv zeta in H. cbn [String.eqb negb] in H.
    apply staff_open in H as (w1 & w2 & t & H & -> & Hc & Htx); [|done]. cbv beta iota in H.
    apply bind_inr in H as ([] & w3 & H3 & H). apply require_assignment_inr in H3 as [Htx3 Hb].
    apply bind_inr in H as (o & w4 & H4 & H). destruct o as [o|]; [|by apply throw_inr in H].
    cbn in Hv. rewrite (proj2 (String.eqb_neq role "") Hv) in H4. cbn [negb] in H4. rewrite Htx in Htx3.
    eapply (change_conclude (SetRole id role entity) id _ w3 w1); [exact Htx3|exact H4| |exact Hb|exact Hc|exact H].
    intros u u' t' Hu _ Ha. split; [done|]. by exists u.
  - cbn [run_staff] in H. unfold UpdateUserWorkflow in H. cbv zeta in H. cbn in Hv.
    rewrite (proj2 (String.eqb_neq status "") Hv) in H. cbn [negb] in H.
    apply staff_open in H as (w1 & w2 & t & H & -> & Hc & Htx); [|done]. cbv beta iota in H.
    apply bind_inr in H as ([] & w3 & H3 & H). apply require_assignment_inr in H3 as [Htx3 _].
    apply bind_inr in H as (o & w4 & H4 & H). destruct o as [o|]; [|by apply throw_inr in H].
    cbn [String.eqb negb] in H4. rewrite Htx in Htx3.
    eapply (change_conclude (SetStatus id status) id _ w3 w1); [exact Htx3|exact H4| |done|exact Hc|exact H].
    intros u u' t' Hu _ Ha. split; [done|]. by exists u.
  - cbn [run_staff] in H. unfold SetUserPasswordWorkflow in H. cbv zeta in H.
    apply staff_open in H as (w1 & w2 & t & H & -> & Hc & Htx); [|done]. cbv beta iota in H.
    apply bind_inr in H as (hash & w3 & H3 & H). apply bind_inr in H as (o & w4 & H4 & H).
    destruct o as [o|]; [|by apply throw_inr in H]. apply HashPassword_inr in H3 as [Hhash Htx3]. rewrite Htx in Htx3.
    eapply (change_conclude (SetPassword id password) id _ w3 w1); [exact Htx3|exact H4| |done|exact Hc|exact H].
    intros u u' t' Hu _ Ha. split; [done|]. by exists u, hash.
Qed.

(** The sessions of a user whose authorization changed are over. *)
Lemma staff_ends c raw db db' sid s u u' :
  staff_done c raw db db' -> sessions db !! sid = Some s -> users db !! se_user_id s = Some u ->
  se_auth_version s <= us_auth_version u -> users db' !! se_user_id s = Some u' -> authorization u' <> authorization u ->
  ended db' sid.
Proof.
  intros (id & v & a & cmd & _ & Hle & _ & _ & _ & _ & _ & _ & ->) Hs Hu Hv Hu' Hne. cbn in Hu'.
  exists s. split; [exact Hs|]. right. exists u'. split; [exact Hu'|].
  apply lookup_insert_Some in Hu' as [[-> ->]|[_ Hsame]]; [|congruence].
  rewrite Hu in Hle. destruct Hle as [Hver Heq]. cbn in *.
  destruct (Z.eq_dec (us_auth_version u') (us_auth_version u)) as [E|E]; [by apply Heq in E|lia].
Qed.

(** ** Failure *)

Lemma control_read_untouched {A} (g : sql_env -> control_db -> A) : frames control_untouched (control_read g).
Proof.
  unfold control_read, query. world_rel.
Qed.
Lemma conclude_fails scope st user event subject entity :
  fails control_untouched (conclude scope key st user event subject entity (Principal_UserID p) rq).
Proof.
  unfold conclude, RecordAuthenticationAudit, CentralFinishIdempotency. cbv zeta.
  apply (fails_bind _); [auto with frames|intros _]. apply (fails_bind _); [auto with frames|intros _].
  apply (fails_last _); [apply cuntouched_control_commit|intros ? ? ? ? ?; done].
Qed.
Lemma untouched_assignment entity : frames control_untouched (require_assignment shardID entity).
Proof.
  unfold require_assignment, Active, holds, HasActiveRoute.
  frame_with ltac:(try solve [auto with frames | apply control_read_untouched]).
Qed.

(** Everything before the final [conclude] is framed. *)
Ltac fail_staff :=
  lazymatch goal with
  | |- fails _ (conclude _ _ _ _ _ _ _ _ _) => apply conclude_fails
  | |- fails _ (mbind _ _) =>
      apply (fails_bind _); [frame_with ltac:(try solve [auto with frames | apply untouched_assignment])|intro; fail_staff]
  | |- fails _ (with_defer _ _) => apply (fails_defer _); [auto with frames|fail_staff]
  | |- fails _ (match ?x with _ => _ end) => destruct x; fail_staff
  | |- _ => apply frames_fails; frame_with ltac:(auto with frames)
  end.
Lemma staff_fails c : fails control_untouched (run_staff c).
Proof.
  destruct c; cbn [run_staff];
    unfold CreateUserWorkflow, UpdateUserWorkflow, SetUserPasswordWorkflow, staff_centralIdempotency, CentralClaimIdempotency,
      control_transaction, HashPassword, CreateUser, UpdateUserRole, UpdateUserStatus, UpdateUserPassword, change_user, userByID;
    cbv zeta; fail_staff.
Qed.
End Staff.

(** C35: a command on the staff directory whose key is new changes exactly one
    user, as asked and without touching what it does not name: a creation adds
    an enabled user under a name nobody has, with a hash of the password; a
    change of role, status or password writes that alone.  An assigned bank is
    active.  The command adds its audit event and the record of its response,
    which never holds the password or its hash, and a change of a user's
    authorization ends every session the user had.  A command that fails changes
    nothing (no commit reply being lost). *)
Theorem staff_command_outcome IDKey hmac fp shardID p key body rq c w r w'
    (Hrun : run_staff IDKey hmac fp shardID p key body rq c w = (r, w')) (Hvalid : staff_valid c)
    (Hnew : commands (w_control w) !! (staff_scope p c, key) = None) :
  match r with
  | inl _ => no_lost_reply w -> w_control w' = w_control w
  | inr (st, raw) =>
      st = staff_status c /\ staff_done IDKey hmac fp shardID p key body c raw (w_control w) (w_control w') /\
      forall sid s u u', sessions (w_control w) !! sid = Some s -> users (w_control w) !! se_user_id s = Some u ->
        se_auth_version s <= us_auth_version u -> users (w_control w') !! se_user_id s = Some u' ->
        authorization u' <> authorization u -> ended (w_control w') sid
  end.
Proof.
  destruct r as [e|[st raw]]; [intros Hq; by destruct (staff_fails _ _ _ _ _ _ _ _ _ _ _ _ Hrun Hq)|].
  destruct (staff_inr _ _ _ _ _ _ _ _ _ _ _ _ Hrun Hvalid Hnew) as [Hst Hd]. split; [exact Hst|]. split; [exact Hd|].
  intros sid s u u'. by apply (staff_ends _ _ _ _ _ _ _ _ _ _ _ _ _ _ _ Hd).
Qed.

(** An operator disables Alice, who has a session. *)
Definition staff_world : world :=
  (auth_world []) <| w_control ::= fun db => db <| sessions := {[ "session-1" := SessionRow toy_id 1 1 (200 * day) 1 None None ]} |> |>.
Abbreviation toy_disable :=
  (run_staff toy_key toy_hmac toy_fp "shard-1" toy_principal "key-1" "body" "request" (SetStatus toy_id "disabled")).
Lemma staff_command_outcome_witness :
  exists raw, (toy_disable staff_world).1 = inr (200, raw) /\
    staff_done toy_key toy_hmac toy_fp "shard-1" toy_principal "key-1" "body" (SetStatus toy_id "disabled") raw
      (w_control staff_world) (w_control (toy_disable staff_world).2) /\
    ended (w_control (toy_disable staff_world).2) "session-1".
Proof.
  destruct (toy_disable staff_world).1 as [e|[st raw]] eqn:E; [exfalso; by vm_compute in E|].
  destruct (staff_command_outcome toy_key toy_hmac toy_fp "shard-1" toy_principal "key-1" "body" "request"
    (SetStatus toy_id "disabled") staff_world (inr (st, raw)) _ (run_result _ _ E) ltac:(done) ltac:(vm_compute; reflexivity))
    as (Hst & Hd & Hend).
  exists raw. split; [by rewrite Hst|]. split; [exact Hd|].
  destruct (users (w_control (toy_disable staff_world).2) !! toy_id) as [u'|] eqn:Eu; [|exfalso; by vm_compute in Eu].
  eapply (Hend "session-1" _ toy_user u'); [by vm_compute|by vm_compute|by vm_compute|exact Eu|].
  assert (Hs : us_status <$> users (w_control (toy_disable staff_world).2) !! toy_id = Some "disabled") by (clear; by vm_compute).
  rewrite Eu in Hs. injection Hs as Hs. unfold authorization. rewrite Hs. by intros [=].
Defined.
